(* ===== verification/_CoqProject ===== *)
-Q . S2P
Prelude.v
RustStr.v
P0Contracts.v
CuContracts.v
CuPolicy.v
CuState.v
CuVerification.v
CuObservation.v
CuManager.v
CuExecute.v
CuInvariants.v
CuSystem.v
CuStopped.v
CuScenario.v
CuTheorems.v
CuOperations.v
Chrono.v
ScheduleExpression.v
RoutineControl.v
Recurrence.v
NetworkPolicy.v
P1Contracts.v
WorkGraph.v
P1Theorems.v
RustHash.v
JsonValue.v
Graph.v
WorkflowIr.v
WorkflowIrTheorems.v
ToolSecurity.v
WorkflowReview.v
Program.v
TaskStore.v
TaskRepository.v
TaskTools.v
EffectJournal.v
EffectVerification.v
TaskFrame.v
EffectSystem.v
EffectTheorems.v
EffectRefinement.v
Templates.v
WorkflowRuntime.v
EmptyCollections.v
WorkflowStore.v
WorkflowEnv.v
WorkflowApprovals.v
WorkflowFiles.v
WorkflowNodes.v
SystemActions.v
WorkflowRequests.v
WorkflowLoops.v
WorkflowEngine.v
WorkflowOrder.v
WorkflowSystem.v
WorkflowStored.v
WorkflowTraces.v
WorkflowSettled.v
WorkflowFrame.v
WorkflowSafety.v
Authority.v
TerminalContract.v
AuthorityTheorems.v
ActuationLease.v
LeaseSystem.v
ShieldDecision.v
ApprovalScopes.v
TerminalScope.v
ScopeTrust.v
ShieldApprovals.v
ApprovalSystem.v
ApprovalAccounts.v
ApprovalGate.v
ApprovalTheorems.v
TerminalScopeTheorems.v
Delegation.v
DelegationRuns.v
DelegationSystem.v
DelegationProtocol.v
DelegationTheorems.v
