(* ===== verification/Prelude.v ===== *)
(** * OOMU desktop engine: a verification library

    OOMU is a desktop assistant; its engine is the Rust crate under
    [src/src-tauri/src].  This library models the parts of it that decide what
    the assistant may do and when, and proves what those decisions guarantee.

    ** Conventions

    - A function that returns [Result<A, E>] is a function to [res E A]: [Ok],
      [Err] or [Panic].  [Panic] is an arithmetic or library panic, so "refuses
      with an error" and "crashes" are different statements.
    - Machine integers are [Z]; saturating, wrapping and checked operations are
      written out ([saturating_add_i64], [wrapping_add_u64], [checked_mul_i64]).
    - Strings are lists of Unicode scalar values ([RustStr]); [str_len] is the
      UTF-8 length.  A map is a [gmap], a struct a [Record], an enum an
      [Inductive]; each struct or enum [T] is a module [T] holding its type [t].
    - Code outside the repository is a parameter: SHA-256 (class [Digest]), JSON
      values and their text (classes [JsonLib] and [JsonText], and [Json] for the
      contracts), the calendar (class [Chrono]), URLs (class [UrlLib]), the file
      system (a record of operations, [FileSystem]), the iteration order of hash
      maps (class [HashOrder]).  What is relied on is a class of laws with a
      concrete instance ([FlatCalendar], [FlatJson], [IntegerJson], [PrefixText],
      [PlainUrl], [PlainStore]), on which every witness is evaluated.
    - Clock readings, random bytes and answers from outside are arguments, one
      per call site.  Locks are critical sections: the state between two
      acquisitions of the mutex is where other threads come in.
    - A function that talks to the database is a program ([Program]): a tree with
      one node for each SQL statement or transaction, for each reading of the
      clock and for each call of a tool.  [solo] runs it alone; [system] runs any
      number of them over one database in any interleaving, lets any of them
      crash between two statements and any statement fail.

    ** Guarded app control ([computer_use/])

    The assistant drives macOS applications for a Task, inside the applications
    and folders the user approved, and anyone touching the keyboard or pressing
    stop must win.  [CuContracts] has the contracts, errors and driver messages
    ([contracts.rs], [error.rs], [driver.rs]); [CuPolicy] the application
    profiles, the authority and the file scope ([policy.rs]); [CuState] the
    session records and the reference vault ([state.rs], [references.rs]);
    [CuVerification] the normalisation of actions, hashing and postconditions
    ([verification.rs]); [CuObservation] the taking in of an observation
    ([observation.rs]); [CuManager] and [CuExecute] every critical section of
    [AppControlManager] ([manager.rs], [session.rs], [execution.rs],
    [evidence.rs]).  [CuSystem] puts calls in flight and lets their sections
    interleave in any order ([Event], [reachable]); it is the abstract machine
    the safety theorems speak of.

    [CuInvariants] and [CuStopped] show that each section keeps the invariant
    [state_ok] and only advances sessions.  [CuTheorems] draws the
    consequences for every interleaving: a running session shows an approved
    application, the driver is asked only what was authorised and in scope, a
    live cancellation token means nobody intervened, a stop is final, references
    are never stale, a session's scope never changes.  [CuOperations] states what
    single operations do: controls, resolution of references, physical input,
    verification of a completed action, evidence from files, one-use approvals
    and grants.  [CuScenario] is the run the witnesses use.

    ** Schedules and Routines

    [ScheduleExpression] models [schedule_expression.rs]: intervals, daily times
    and both cron dialects; its theorems show that the next run is later,
    that the cron search returns the first matching minute, and what a cron field
    denotes.  [RoutineControl] models [routines/control.rs], the end boundary and
    the run-now anchor stored in a task template.  [Recurrence] models
    [workflow_scheduler/recurrence.rs] and the skipping and result bookkeeping of
    [workflow_scheduler.rs] over a map of rows; its theorems show that
    the arithmetic shortcut agrees with stepping, that stepping ends, that a
    backlog is run in order, that a skipped claim is given back and that failures
    in a row pause a schedule.

    ** Network destinations

    [NetworkPolicy] models [network_policy.rs]; its theorems compare the
    IPv4 classification with the list of special-purpose blocks and show that a
    resolved destination reaches only public addresses (or the one loopback port
    granted), that the order of DNS answers does not matter, and that an approved
    destination is pinned to its addresses.

    ** Contracts

    [P0Contracts] models [p0_contracts.rs]: identifiers (the macro [opaque_id!],
    down to the UUID's bits) and the event envelope.  [P1Contracts] and
    [WorkGraph] model [p1_contracts.rs]: nine contracts with the validation that
    runs when they are deserialised.  [P1Theorems] shows that an accepted contract
    stays inside its projects, that the work graph's recursive cycle search
    answers and decides, and that an accepted graph can be run in dependency
    order and within its budget.

    ** Workflows and what needs a person

    [WorkflowIr] models [workflow_ir.rs], the typed graph a workflow is compiled
    to and its validator; [WorkflowIrTheorems] defines which workflows are well
    formed and shows that the validator accepts exactly those, with the graph
    algorithms of [Graph] (a worklist search and Kahn's sort).  [ToolSecurity]
    models the classification of tools and commands ([tool_security.rs]), what
    runs without asking, and how an assignment in front of a command escapes it.
    [WorkflowReview] models the review a Routine must pass ([workflow_ir/review.rs])
    and shows that a reviewed effect always sits behind a person's decision.

    ** Tasks and protected effects

    [TaskStore] holds the tables of the task control plane (migration 0011) and
    the statements on them; [TaskRepository] models [tasks/adapters.rs] and
    [tasks/repository.rs]; [TaskTools] the registry of native tools and the error
    reports ([tools/task_tool_error.rs], [workflow_runtime/task_tools.rs]);
    [EffectJournal] the reservation of an effect before its tool is called
    ([workflow_runtime/task_tools/effect_journal.rs]); [EffectVerification] the
    decision of a person on an effect whose outcome nobody knows
    ([tasks/effect_verification.rs]).

    [TaskFrame] shows what the repository leaves alone.  [EffectSystem] runs all
    of these as threads of one system, with crashes and failing statements, and
    follows each effect by a protocol of two rights (to call, to delete);
    [EffectTheorems] draws that an effect is called at most once for each time it
    was released and that all successes agree.  [EffectRefinement] shows that an
    undisturbed run is a step of an abstract journal.  [TaskFrame] also compares
    what the task centre offers with what the runtimes accept, and
    [TaskTools] shows that an error survives its trip through text and
    that only the tool itself is believed to have changed nothing.

    ** Workflow runs

    The engine that runs a workflow is [workflow_runtime.rs] with the files under
    [workflow_runtime/].  [WorkflowRuntime] has its records, errors, timeouts, the
    topological sort and the choice of edges; [Templates] the references between
    double braces and the small condition language ([condition_expression.rs]);
    [WorkflowRequests] the stored form of a request; [EmptyCollections] the legacy
    end of a run with nothing to do.  [WorkflowStore] has the tables of a run and the statements of [db.rs] that the engine uses;
    [WorkflowEnv] every call that leaves the engine (models, MCP servers, commands,
    files, the wait for a worker) as a constructor of [Call] with the type of its
    reply, and the monad [run] of functions that change the instance.
    [WorkflowApprovals] models tokens, pauses and the approval ledger;
    [WorkflowFiles] inputs and outputs on disk; [WorkflowNodes] agents, routers,
    conditionals, outputs and tools ([execute_mcp_tool_node] with its review);
    [SystemActions] commands ([workflow_runtime/system_action.rs]);
    [WorkflowLoops] loop nodes; [WorkflowEngine] [execute_workflow] and the two
    entry points, a new run and the continuation after a decision.

    [WorkflowSystem] makes the entry points the jobs of one system, so that any
    number of runs and decisions interleave statement by statement.  On it:
    [WorkflowFrame] shows what everything but tools and commands leaves alone;
    [WorkflowSafety] that a tool is called, and a command that asks is run, only
    on a person's decision, a Routine's review or grant, or where nobody is asked;
    [WorkflowSettled] that every answer is final, that the row says the same, and
    that no run is ever stuck (by Hoare triples over [run]); [WorkflowStored] that
    a stored request is read back and a pause is recovered and answered;
    [WorkflowOrder] that accepted workflows are sorted and what a loop's body is;
    [Templates] that references resolve alike under every hash order.
    [WorkflowTraces] plays two schedules in which the code does what it should
    not: one approval token decides two pauses, and the approval of an exact
    permission strands the run.

    ** Authority, leases and terminal commands

    [Authority] models [authority/mod.rs]: the dialog in which a person confirms
    an action and the proof it leaves, used up by one [consume].  [ActuationLease]
    models the lease under which the assistant acts on its own ([shield_gate.rs],
    [shield_gate/actuation_continuation.rs], [agentic_loop/execution_lease.rs]);
    [TerminalContract] a terminal command: its contract, its classification, when
    it runs without asking, how it is shown and which program it is
    ([tools/terminal_contract.rs], [shield_gate/terminal_runtime.rs],
    [shield_gate/terminal_execution.rs]).

    [AuthorityTheorems] shows that a proof is what was pressed; [LeaseSystem] lets
    the critical sections of all commands follow each other in any order and shows
    that autonomous actions are paid for by confirmations, and that a revoked
    lease comes back with the next step of a plan.  [TerminalContract] shows that
    a command that runs without asking names nothing outside the project, that
    the line shown for a command reads back as the command, and that programs are
    known by their names only.

    ** Approvals at the shield gate

    [ShieldDecision] models [authority/shield_decision.rs]: how a
    request is frozen, what the dialog says in each language, which button means
    what, and the store in which a decision waits two minutes to be used once.
    [ApprovalScopes] models [approval_scopes.rs], grants with a budget and an end in
    two tables; [ScopeTrust] the grants that
    live in memory ([shield_gate.rs], [ScopeTrustManager]); [TerminalScope] the
    binding of a typed command to a folder ([shield_gate/terminal_runtime.rs]).
    [ShieldApprovals] puts them together as the code does: [request_approval]
    ([shield_gate.rs]) and the check an action of the agent loop goes through
    ([agentic_loop/permission_preflight.rs]).  Statements and critical sections are
    nodes of [Program]'s programs.

    [ApprovalSystem] states the protocol of all of them running at once, with what
    a thread may know and what may change; [ApprovalAccounts] follows the audit
    through each statement and shows that each statement is a move of the
    protocol, [ApprovalGate] that each operation keeps to it.  [ApprovalTheorems] draws the conclusions: actions go on only when
    somebody allowed them, uses are of grants that were given, and budgets are
    kept.  [TerminalScopeTheorems] shows where a typed command runs, and that
    access for a session given to a command is never used; the last part of
    [ApprovalTheorems] that the list of grants can hide a live one.  Left out are
    the lock that keeps dialogs apart (dialogs may overlap in the model), the
    automation of debug builds, and the deletion of a project with its grants.

    ** Delegated research

    [Delegation] models the contracts and the admission policy of a plan that hands
    reading to children ([delegation/mod.rs], [delegation/policy.rs]) and the
    synthesis of what they found ([delegation/worker.rs]); it shows that the policy
    accepts exactly the plans whose children only read.  [DelegationRuns] models the
    tables and their functions ([delegation/repository.rs]), the map of cancellation
    flags and the commands ([delegation/commands.rs]), the reading of a source
    ([delegation/sources.rs]) and the worker of a child ([delegation/worker.rs]) as
    programs of [Program]; a flag is a cell that the map and the worker share, and
    the workers of a plan run side by side ([join_all]).  [DelegationSystem] is the
    concurrent system of all commands with what a thread knows, and
    [DelegationProtocol] shows that every command keeps to it.  [DelegationTheorems]
    concludes that whatever a worker asked for was delegated in an accepted plan and
    that results stay within their budget, and that two states, each reached by a run
    that is played, last for good: a child whose registration was left behind and a
    child paused on a retry.  What lasts is shown command by command ([stays] of
    [Program]).  Deleting a project with its plans is left out.

    ** Fuel and bounds

    The cycle search has one unit of fuel per node and one more, which is shown
    to suffice; the searches of [Graph] have one unit per node and edge, also
    shown to suffice.  The cron search runs its own bound of 366 days of minutes.
    The catch-up loop runs under [run_loop] with depth 64, that is up to [2 ^ 64]
    turns, and each turn moves it forward on [i64].  Programs over a database are
    finite trees: a loop over rows is a fold over the list the query returned.

    ** What is not modelled

    Serialisation (serde) beyond the places where the engine parses its own text:
    a JSON column holds a value, and the library's error texts are a constant.
    SQL beyond the tables named above (the scheduler's table is a map of rows, its
    claiming query an input).  Model inference, the gateway, MCP processes, the
    sandbox and the start of a process, the audit of a command and the review of a
    Routine are calls or classes with arbitrary replies.  The wait for a worker
    thread that times out is modelled as the worker finishing and its result being
    dropped.  Tauri commands and events, the request of a scheduled run and its
    retries, the macOS driver itself, connectors, artifacts, the memory ledger, the
    agent loop and the user interface are left out.  A poisoned mutex is left out
    of the functions that are modelled; a failing database is left out of the
    scheduler only. *)
From stdpp Require Export prelude strings gmap list numbers.
From Stdlib Require Export ZArith Lia.

#[export] Set Default Goal Selector "!".

(** ** Outcomes of a Rust computation

    A function returning [Result<A, E>] either returns [Ok], returns [Err],
    or does not return because it panics (an overflowing [DateTime + Duration],
    an out-of-range constructor, an [expect]).  [Panic] is kept apart from
    [Err] so that the absence of panics is a statement one can prove. *)
Inductive res (E A : Type) : Type :=
| Ok (a : A)
| Err (e : E)
| Panic.
Arguments Ok {E A} a.
Arguments Err {E A} e.
Arguments Panic {E A}.

#[export] Instance res_ret E : MRet (res E) := fun A a => Ok a.
#[export] Instance res_bind E : MBind (res E) := fun A B f r =>
  match r with Ok a => f a | Err e => Err e | Panic => Panic end.
#[export] Instance res_fmap E : FMap (res E) := fun A B f r =>
  match r with Ok a => Ok (f a) | Err e => Err e | Panic => Panic end.

Definition map_err {E E' A} (f : E -> E') (r : res E A) : res E' A :=
  match r with Ok a => Ok a | Err e => Err (f e) | Panic => Panic end.
(** [Option::ok_or_else] *)
Definition ok_or {E A} (e : E) (o : option A) : res E A :=
  match o with Some a => Ok a | None => Err e end.
(** An operation of a library that panics where this model says [None]. *)
Definition or_panic {E A} (o : option A) : res E A :=
  match o with Some a => Ok a | None => Panic end.
(** [if c { return Err(e) }] *)
Definition guard_not {E} (c : bool) (e : E) : res E unit :=
  if c then Err e else Ok tt.
(** [if !c { return Err(e) }] *)
Definition ensure {E} (c : bool) (e : E) : res E unit :=
  if c then Ok tt else Err e.

Definition is_ok {E A} (r : res E A) : bool :=
  match r with Ok _ => true | _ => false end.
Definition is_err {E A} (r : res E A) : bool :=
  match r with Err _ => true | _ => false end.

(** A [for] loop whose body may leave it with [Err] ([?]) or go on. *)
Fixpoint for_each {E A} (f : A -> res E unit) (l : list A) : res E unit :=
  match l with
  | [] => Ok tt
  | x :: l' => f x ≫= fun _ => for_each f l'
  end.

(** A [for] loop that threads a mutable local. *)
Fixpoint for_fold {E A S} (f : S -> A -> res E S) (s : S) (l : list A) : res E S :=
  match l with
  | [] => Ok s
  | x :: l' => f s x ≫= fun s' => for_fold f s' l'
  end.

(** A [for] loop with an early [return]: the body gives [Some] to return. *)
Fixpoint for_return {E A B} (f : A -> res E (option B)) (l : list A)
  : res E (option B) :=
  match l with
  | [] => Ok None
  | x :: l' =>
      f x ≫= fun o => match o with Some b => Ok (Some b) | None => for_return f l' end
  end.

(** A [while] loop: [step] goes on with a new state or leaves with a result.
    [run_loop depth] makes at most [2 ^ depth] turns, and as many as the loop
    needs when it leaves sooner, so a depth of 64 covers every loop that counts
    on a machine integer. *)
Inductive turn (S R : Type) : Type := Continue (s : S) | Break (r : R).
Arguments Continue {S R} s.
Arguments Break {S R} r.

Fixpoint run_loop {S R} (depth : nat) (step : S -> turn S R) (s : S) : turn S R :=
  match depth with
  | O => step s
  | Datatypes.S depth =>
      match run_loop depth step s with
      | Continue s => run_loop depth step s
      | Break r => Break r
      end
  end.

(** [Iterator::find_map] *)
Fixpoint find_map {A B} (f : A -> option B) (l : list A) : option B :=
  match l with
  | [] => None
  | x :: l' => match f x with Some b => Some b | None => find_map f l' end
  end.

(** [Iterator::map(..).collect::<Result<Vec<_>, _>>()] *)
Fixpoint try_map {E A B} (f : A -> res E B) (l : list A) : res E (list B) :=
  match l with
  | [] => Ok []
  | x :: l' => f x ≫= fun y => try_map f l' ≫= fun ys => Ok (y :: ys)
  end.

(** ** Machine integers, as [Z] with their bounds written out *)
Section Integers.
Local Open Scope Z_scope.

Definition u8_max : Z := 2 ^ 8 - 1.
Definition u16_max : Z := 2 ^ 16 - 1.
Definition u32_max : Z := 2 ^ 32 - 1.
Definition u64_max : Z := 2 ^ 64 - 1.
Definition usize_max : Z := 2 ^ 64 - 1.
Definition i32_min : Z := - 2 ^ 31.
Definition i32_max : Z := 2 ^ 31 - 1.
Definition i64_min : Z := - 2 ^ 63.
Definition i64_max : Z := 2 ^ 63 - 1.

Definition in_range (lo hi z : Z) : bool := (lo <=? z) && (z <=? hi).
Definition in_i64 (z : Z) : bool := in_range i64_min i64_max z.
Definition in_u64 (z : Z) : bool := in_range 0 u64_max z.

Definition clamp (lo hi z : Z) : Z := Z.max lo (Z.min hi z).
Definition saturating_add_i64 (a b : Z) : Z := clamp i64_min i64_max (a + b).
Definition saturating_sub_i64 (a b : Z) : Z := clamp i64_min i64_max (a - b).
Definition saturating_mul_i64 (a b : Z) : Z := clamp i64_min i64_max (a * b).
Definition saturating_add_u64 (a b : Z) : Z := clamp 0 u64_max (a + b).
Definition saturating_add_u8 (a b : Z) : Z := clamp 0 u8_max (a + b).
Definition saturating_add_usize (a b : Z) : Z := clamp 0 usize_max (a + b).
Definition saturating_sub_u32 (a b : Z) : Z := clamp 0 u32_max (a - b).
(** [AtomicU64::fetch_add] wraps around. *)
Definition wrapping_add_u64 (a b : Z) : Z := (a + b) mod 2 ^ 64.

Definition checked (lo hi z : Z) : option Z :=
  if in_range lo hi z then Some z else None.
Definition checked_add_i64 (a b : Z) : option Z := checked i64_min i64_max (a + b).
Definition checked_mul_i64 (a b : Z) : option Z := checked i64_min i64_max (a * b).
Definition checked_add_i32 (a b : Z) : option Z := checked i32_min i32_max (a + b).
Definition checked_mul_u32 (a b : Z) : option Z := checked 0 u32_max (a * b).
Definition checked_add_u32 (a b : Z) : option Z := checked 0 u32_max (a + b).
End Integers.

(** ** Automation *)
Create HintDb oomu discriminated.
Create Rewrite HintDb oomu_rw.

(** Unfold the integer vocabulary down to [lia]'s. *)
Ltac unfold_ints :=
  unfold saturating_add_i64, saturating_sub_i64, saturating_mul_i64,
    saturating_add_u64, saturating_add_u8, saturating_add_usize,
    saturating_sub_u32, checked_add_i64, checked_mul_i64, checked_add_i32,
    checked_mul_u32, checked_add_u32, checked, clamp, in_i64, in_u64, in_range,
    i64_min, i64_max, i32_min, i32_max, u64_max, u32_max, u16_max, u8_max,
    usize_max in *.
Ltac int_lia := unfold_ints; repeat case_match; lia.

Section Outcomes.
Context {E A B : Type}.
Implicit Types (r : res E A) (f : A -> res E B).

Lemma Ok_bind a f : Ok a ≫= f = f a.
Proof. done. Qed.
Lemma Err_bind e f : Err e ≫= f = Err e.
Proof. done. Qed.

Lemma bind_Ok r f b : r ≫= f = Ok b <-> exists a, r = Ok a /\ f a = Ok b.
Proof. destruct r; cbn; naive_solver. Qed.

Lemma bind_Err r f e :
  r ≫= f = Err e <-> r = Err e \/ exists a, r = Ok a /\ f a = Err e.
Proof. destruct r; cbn; naive_solver. Qed.

Lemma bind_Panic r f :
  r ≫= f = Panic <-> r = Panic \/ exists a, r = Ok a /\ f a = Panic.
Proof. destruct r; cbn; naive_solver. Qed.

Lemma guard_not_Ok (c : bool) (e : E) : guard_not c e = Ok tt <-> c = false.
Proof. destruct c; cbn; naive_solver. Qed.
Lemma ensure_Ok (c : bool) (e : E) : ensure c e = Ok tt <-> c = true.
Proof. destruct c; cbn; naive_solver. Qed.
Lemma ok_or_Ok (o : option A) (e : E) a : ok_or e o = Ok a <-> o = Some a.
Proof. destruct o; cbn; naive_solver. Qed.
Lemma or_panic_Ok (o : option A) a : @or_panic E A o = Ok a <-> o = Some a.
Proof. destruct o; cbn; naive_solver. Qed.
Lemma or_panic_Err (o : option A) e : @or_panic E A o <> Err e.
Proof. by destruct o. Qed.
Lemma map_err_Ok {E'} (g : E -> E') r a : map_err g r = Ok a <-> r = Ok a.
Proof. destruct r; cbn; naive_solver. Qed.
Lemma bind_no_panic r f : r <> Panic -> (forall a, f a <> Panic) -> r ≫= f <> Panic.
Proof. destruct r; cbn; naive_solver. Qed.
Lemma guard_not_no_panic (c : bool) (e : E) : guard_not c e <> Panic.
Proof. by destruct c. Qed.
Lemma no_panic_cases r : r <> Panic -> (exists a, r = Ok a) \/ exists e, r = Err e.
Proof. destruct r; naive_solver. Qed.
Lemma is_ok_true r : is_ok r = true <-> exists a, r = Ok a.
Proof. destruct r; cbn; naive_solver. Qed.
End Outcomes.

(** Turn a successful composition into the success of its parts. *)
Ltac inv_res_hyp H :=
  first
    [ apply bind_Ok in H as (? & ? & H); cbn beta in H
    | apply guard_not_Ok in H
    | apply ensure_Ok in H
    | apply ok_or_Ok in H
    | apply or_panic_Ok in H
    | apply map_err_Ok in H ].
Ltac inv_res :=
  repeat
    match goal with
    | H : _ ≫= _ = Ok _ |- _ => inv_res_hyp H
    | H : guard_not _ _ = Ok ?u |- _ => destruct u; inv_res_hyp H
    | H : ensure _ _ = Ok ?u |- _ => destruct u; inv_res_hyp H
    | H : ok_or _ _ = Ok _ |- _ => inv_res_hyp H
    | H : or_panic _ = Ok _ |- _ => inv_res_hyp H
    | H : map_err _ _ = Ok _ |- _ => inv_res_hyp H
    | H : Ok _ = Ok _ |- _ => injection H as H
    | H : Err _ = Ok _ |- _ => discriminate H
    | H : Panic = Ok _ |- _ => discriminate H
    | H : mret _ = Ok _ |- _ => unfold mret, res_ret in H
    end.

(** Split boolean conjunctions and disjunctions of the context. *)
Ltac split_bools :=
  repeat
    match goal with
    | H : (_ && _) = true |- _ => apply andb_true_iff in H as [? ?]
    | H : (_ || _) = false |- _ => apply orb_false_iff in H as [? ?]
    | H : negb _ = true |- _ => apply negb_true_iff in H
    | H : negb _ = false |- _ => apply negb_false_iff in H
    | H : bool_decide _ = true |- _ => apply bool_decide_eq_true in H
    | H : bool_decide _ = false |- _ => apply bool_decide_eq_false in H
    end.

Lemma forallb_ext {A} (f g : A -> bool) l : (forall x, f x = g x) -> forallb f l = forallb g l.
Proof. intros H. induction l as [|x l IH]; simpl; [done|]. by rewrite H, IH. Qed.
Lemma existsb_false {A} (f : A -> bool) l :
  existsb f l = false <-> Forall (fun x => f x = false) l.
Proof.
  induction l as [|x l IH]; simpl; [naive_solver|].
  by rewrite orb_false_iff, Forall_cons_iff, IH.
Qed.

Lemma NoDup_map_same {A B} (f : A -> B) l x y :
  NoDup (map f l) -> x ∈ l -> y ∈ l -> f x = f y -> x = y.
Proof.
  intros Hnd [i Hi]%list_elem_of_lookup [j Hj]%list_elem_of_lookup Heq.
  assert (i = j) as ->; [|congruence]. apply (NoDup_lookup _ _ _ (f x) Hnd).
  - by apply (list_lookup_fmap_Some_2 f).
  - rewrite Heq. by apply (list_lookup_fmap_Some_2 f).
Qed.

Section Loops.
Context {E A B : Type}.

Lemma for_each_Ok (f : A -> res E unit) l :
  for_each f l = Ok tt <-> Forall (fun x => f x = Ok tt) l.
Proof.
  induction l as [|x l IH]; simpl; [naive_solver|].
  rewrite bind_Ok, Forall_cons_iff. split.
  - intros ([] & Hx & Hl). naive_solver.
  - intros [Hx Hl]. exists tt. naive_solver.
Qed.

Lemma for_each_no_panic (f : A -> res E unit) l :
  (forall x, f x <> Panic) -> for_each f l <> Panic.
Proof.
  intros Hf. induction l as [|x l IH]; simpl; [done|].
  specialize (Hf x). by destruct (f x).
Qed.

Lemma for_fold_no_panic {S} (f : S -> A -> res E S) s l :
  (forall s x, f s x <> Panic) -> for_fold f s l <> Panic.
Proof.
  intros Hf. revert s. induction l as [|x l IH]; intros s; simpl; [done|].
  apply bind_no_panic; auto.
Qed.

Lemma for_return_Ok_Some (f : A -> res E (option B)) l b :
  for_return f l = Ok (Some b) ->
  exists l1 x l2, l = l1 ++ x :: l2 /\ f x = Ok (Some b) /\
    Forall (fun y => f y = Ok None) l1.
Proof.
  induction l as [|x l IH]; simpl; [done|].
  intros (o & Hx & H)%bind_Ok. destruct o as [b'|].
  - simplify_eq. exists [], x, l. naive_solver.
  - destruct (IH H) as (l1 & y & l2 & -> & Hy & Hl).
    exists (x :: l1), y, l2. naive_solver.
Qed.

Lemma for_return_Ok_None (f : A -> res E (option B)) l :
  for_return f l = Ok None -> Forall (fun y => f y = Ok None) l.
Proof.
  induction l as [|x l IH]; simpl; [constructor|].
  intros (o & Hx & H)%bind_Ok. destruct o; naive_solver.
Qed.

Lemma find_map_Some (f : A -> option B) l b :
  find_map f l = Some b ->
  exists l1 x l2, l = l1 ++ x :: l2 /\ f x = Some b /\
    Forall (fun y => f y = None) l1.
Proof.
  induction l as [|x l IH]; simpl; [done|]. destruct (f x) eqn:Hx; intros H.
  - simplify_eq. exists [], x, l. naive_solver.
  - destruct (IH H) as (l1 & y & l2 & -> & Hy & Hl).
    exists (x :: l1), y, l2. naive_solver.
Qed.

Lemma try_map_Ok (f : A -> res E B) l k :
  try_map f l = Ok k <-> Forall2 (fun x y => f x = Ok y) l k.
Proof.
  revert k. induction l as [|x l IH]; intros k; simpl.
  - split; [by intros [= <-] | by inversion 1].
  - rewrite bind_Ok. split.
    + intros (y & Hx & (ys & Hl & [= <-])%bind_Ok).
      constructor; [done | by apply IH].
    + inversion 1 as [|? y ? ys Hx Hl]; subst. exists y. split; [done|].
      rewrite bind_Ok. exists ys. by rewrite IH.
Qed.
End Loops.

Lemma run_loop_break {S R} (step : S -> turn S R) depth s r :
  step s = Break r -> run_loop depth step s = Break r.
Proof. intros H. induction depth as [|depth IH]; simpl; [done|]. by rewrite IH. Qed.

Section WhileLoops.
Local Open Scope Z_scope.
Context {S R : Type} (step : S -> turn S R) (m : S -> Z) (I : S -> Prop) (Q : R -> Prop).
Context (Hstep : forall s, I s -> match step s with
  | Continue s' => I s' /\ 0 <= m s' < m s | Break r => Q r end).

Lemma run_loop_progress depth s :
  I s -> match run_loop depth step s with
  | Continue s' => I s' /\ 0 <= m s' <= m s - 2 ^ Z.of_nat depth | Break r => Q r end.
Proof using Hstep.
  revert s. induction depth as [|depth IH]; intros s Hs; cbn [run_loop].
  - specialize (Hstep s Hs). destruct (step s); [|done]. change (2 ^ 0) with 1. intuition lia.
  - specialize (IH s Hs) as IH1. destruct (run_loop depth step s) as [s1|]; [|done].
    destruct IH1 as [H1 Hm1]. specialize (IH s1 H1). destruct (run_loop depth step s1); [|done].
    rewrite Nat2Z.inj_succ, Z.pow_succ_r by lia. intuition lia.
Qed.

(** A loop whose measure starts below [2 ^ depth] leaves, with what it promises. *)
Lemma run_loop_leaves depth s :
  I s -> m s < 2 ^ Z.of_nat depth -> exists r, run_loop depth step s = Break r /\ Q r.
Proof using Hstep.
  intros Hs Hm. pose proof (run_loop_progress depth s Hs) as H.
  destruct (run_loop depth step s) as [s'|r]; [lia | by exists r].
Qed.
End WhileLoops.

Section IntegerLemmas.
Local Open Scope Z_scope.

Lemma saturating_add_i64_gt a b :
  i64_min <= a < i64_max -> 0 < b -> a < saturating_add_i64 a b.
Proof. int_lia. Qed.
Lemma saturating_add_i64_small a b :
  i64_min <= a + b <= i64_max -> saturating_add_i64 a b = a + b.
Proof. int_lia. Qed.
Lemma saturating_add_u64_lt a b :
  0 <= a < u64_max -> 0 < b -> a < saturating_add_u64 a b.
Proof. int_lia. Qed.
Lemma saturating_add_u64_ge a b :
  0 <= a <= u64_max -> 0 <= b -> a <= saturating_add_u64 a b <= u64_max.
Proof. int_lia. Qed.
Lemma in_i64_spec z : in_i64 z = true <-> i64_min <= z <= i64_max.
Proof. unfold in_i64, in_range. rewrite andb_true_iff, !Z.leb_le. done. Qed.
Lemma checked_Some lo hi z w : checked lo hi z = Some w <-> w = z /\ lo <= z <= hi.
Proof.
  unfold checked, in_range. destruct (_ && _) eqn:H.
  - apply andb_true_iff in H as [?%Z.leb_le ?%Z.leb_le]. naive_solver.
  - split; [done|]. intros [-> [?%Z.leb_le ?%Z.leb_le]].
    by rewrite H0, H1 in H.
Qed.
End IntegerLemmas.

#[export] Hint Resolve saturating_add_i64_gt saturating_add_u64_ge : oomu.
(** [by auto with oomu_total]: a composition of total steps does not panic. *)
Create HintDb oomu_total discriminated.
#[export] Hint Resolve bind_no_panic guard_not_no_panic for_each_no_panic for_fold_no_panic
  : oomu_total.
#[export] Hint Rewrite @bind_Ok @guard_not_Ok @ensure_Ok @ok_or_Ok @or_panic_Ok
  @map_err_Ok @for_each_Ok @try_map_Ok checked_Some in_i64_spec : oomu_rw.
