(* ===== verification/RustStr.v ===== *)
(** * Rust's [str], [String] and [Path]

    A string is the list of its Unicode scalar values; [str_len] is the UTF-8
    length that Rust's [len] reports, [length] the number that
    [chars().count()] reports.  The operations are those of the standard
    library that the engine's sources call.  Nothing here models a file of the
    engine. *)
From Stdlib Require Import Ascii.
From S2P Require Import Prelude.
Local Open Scope Z_scope.

Notation char := Z (only parsing).
Notation str := (list Z).

(** An ASCII literal of the source. *)
Fixpoint lit (s : string) : str :=
  match s with
  | EmptyString => []
  | String a s' => Z.of_N (N_of_ascii a) :: lit s'
  end.
Arguments lit s%_string.
(** A character literal. *)
Definition ch (s : string) : char := default 0 (head (lit s)).
Arguments ch s%_string.

(** ** Characters *)
Definition is_ascii_digit (c : char) : bool := in_range 48 57 c.
Definition is_ascii_lowercase (c : char) : bool := in_range 97 122 c.
Definition is_ascii_uppercase (c : char) : bool := in_range 65 90 c.
Definition is_ascii_alphabetic (c : char) : bool :=
  is_ascii_lowercase c || is_ascii_uppercase c.
Definition is_ascii_alphanumeric (c : char) : bool :=
  is_ascii_alphabetic c || is_ascii_digit c.
Definition is_ascii_hexdigit (c : char) : bool :=
  is_ascii_digit c || in_range 97 102 c || in_range 65 70 c.
Definition is_ascii_char (c : char) : bool := c <? 128.
(** The Unicode property [White_Space]. *)
Definition is_whitespace (c : char) : bool :=
  in_range 9 13 c || (c =? 32) || (c =? 133) || (c =? 160) || (c =? 5760)
  || in_range 8192 8202 c || (c =? 8232) || (c =? 8233) || (c =? 8239)
  || (c =? 8287) || (c =? 12288).
Definition to_ascii_lowercase_char (c : char) : char :=
  if is_ascii_uppercase c then c + 32 else c.
Definition to_ascii_uppercase_char (c : char) : char :=
  if is_ascii_lowercase c then c - 32 else c.
Definition utf8_width (c : char) : Z :=
  if c <? 128 then 1 else if c <? 2048 then 2 else if c <? 65536 then 3 else 4.

(** The UTF-8 encoding of one scalar value. *)
Definition utf8_bytes (c : char) : list Z :=
  if c <? 128 then [c]
  else if c <? 2048 then [192 + c / 64; 128 + c mod 64]
  else if c <? 65536 then [224 + c / 4096; 128 + c / 64 mod 64; 128 + c mod 64]
  else [240 + c / 262144; 128 + c / 4096 mod 64; 128 + c / 64 mod 64; 128 + c mod 64].

(** The scalar values of a UTF-8 encoding, and a literal of the source. *)
Fixpoint utf8_decode (b : list Z) : str :=
  match b with
  | [] => []
  | a :: b' =>
      if a <? 128 then a :: utf8_decode b'
      else match b' with
           | [] => []
           | x :: b' =>
               if a <? 224 then ((a - 192) * 64 + (x - 128)) :: utf8_decode b'
               else match b' with
                    | [] => []
                    | y :: b' =>
                        if a <? 240
                        then ((a - 224) * 4096 + (x - 128) * 64 + (y - 128)) :: utf8_decode b'
                        else match b' with
                             | [] => []
                             | z :: b' =>
                                 ((a - 240) * 262144 + (x - 128) * 4096 + (y - 128) * 64 + (z - 128))
                                   :: utf8_decode b'
                             end
                    end
           end
  end.
Definition utf8 (s : string) : str := utf8_decode (lit s).
Arguments utf8 s%_string.

(** ** Strings *)
Definition as_bytes (s : str) : list Z := flat_map utf8_bytes s.
(** Indexing a byte slice whose length has been checked. *)
Definition byte_at (b : list Z) (i : nat) : Z := default 0 (b !! i).
Definition str_eqb (s t : str) : bool := bool_decide (s = t).
Definition is_empty (s : str) : bool := match s with [] => true | _ => false end.
Definition str_len (s : str) : Z := foldr (fun c n => utf8_width c + n) 0 s.
Definition chars_count (s : str) : Z := Z.of_nat (length s).
Definition is_ascii (s : str) : bool := forallb is_ascii_char s.
Definition to_ascii_lowercase (s : str) : str := map to_ascii_lowercase_char s.
Definition to_ascii_uppercase (s : str) : str := map to_ascii_uppercase_char s.
Definition eq_ignore_ascii_case (s t : str) : bool :=
  str_eqb (to_ascii_lowercase s) (to_ascii_lowercase t).

Fixpoint trim_start_by (f : char -> bool) (s : str) : str :=
  match s with
  | [] => []
  | c :: s' => if f c then trim_start_by f s' else s
  end.
Definition trim_end_by (f : char -> bool) (s : str) : str :=
  rev (trim_start_by f (rev s)).
Definition trim_start (s : str) : str := trim_start_by is_whitespace s.
Definition trim (s : str) : str := trim_end_by is_whitespace (trim_start s).
(** [trim_end_matches] with a [char] pattern. *)
Definition trim_end_matches_char (c : char) (s : str) : str :=
  trim_end_by (Z.eqb c) s.

Fixpoint strip_prefix (p s : str) : option str :=
  match p, s with
  | [], _ => Some s
  | a :: p', b :: s' => if a =? b then strip_prefix p' s' else None
  | _ :: _, [] => None
  end.
Definition starts_with (p s : str) : bool :=
  match strip_prefix p s with Some _ => true | None => false end.
Definition ends_with (p s : str) : bool := starts_with (rev p) (rev s).
Fixpoint contains_str (p s : str) : bool :=
  starts_with p s || match s with [] => false | _ :: s' => contains_str p s' end.
Definition contains_char (c : char) (s : str) : bool := existsb (Z.eqb c) s.
(** [trim_start_matches] with a non-empty [&str] pattern: fuel is the length. *)
Fixpoint trim_start_matches_aux (fuel : nat) (p s : str) : str :=
  match fuel with
  | O => s
  | S n => match strip_prefix p s with
           | Some s' => trim_start_matches_aux n p s'
           | None => s
           end
  end.
Definition trim_start_matches (p s : str) : str :=
  trim_start_matches_aux (length s) p s.

(** [split(char)]: never empty. *)
Fixpoint split_char (d : char) (s : str) : list str :=
  match s with
  | [] => [[]]
  | c :: s' =>
      if c =? d then [] :: split_char d s'
      else match split_char d s' with
           | w :: ws => (c :: w) :: ws
           | [] => [[c]]
           end
  end.
(** [split_once(char)] *)
Fixpoint split_once_char (d : char) (s : str) : option (str * str) :=
  match s with
  | [] => None
  | c :: s' =>
      if c =? d then Some ([], s')
      else match split_once_char d s' with
           | Some (l, r) => Some (c :: l, r)
           | None => None
           end
  end.
(** [&s[..s.find(f).unwrap_or(s.len())]] *)
Fixpoint before_first (f : char -> bool) (s : str) : str :=
  match s with
  | [] => []
  | c :: s' => if f c then [] else c :: before_first f s'
  end.
(** [split_once(&str)] *)
Fixpoint split_once_str (p s : str) : option (str * str) :=
  match strip_prefix p s with
  | Some r => Some ([], r)
  | None =>
      match s with
      | [] => None
      | c :: s' => match split_once_str p s' with
                   | Some (l, r) => Some (c :: l, r)
                   | None => None
                   end
      end
  end.
Fixpoint split_ws_aux (s cur : str) : list str :=
  match s with
  | [] => if is_empty cur then [] else [rev cur]
  | c :: s' =>
      if is_whitespace c
      then (if is_empty cur then [] else [rev cur]) ++ split_ws_aux s' []
      else split_ws_aux s' (c :: cur)
  end.
Definition split_whitespace (s : str) : list str := split_ws_aux s [].

(** ** Numbers: [str::parse] and [Display] *)
Definition digit_val (c : char) : option Z :=
  if is_ascii_digit c then Some (c - 48) else None.
Fixpoint digits_acc (s : str) (acc : Z) : option Z :=
  match s with
  | [] => Some acc
  | c :: s' => match digit_val c with
               | Some d => digits_acc s' (acc * 10 + d)
               | None => None
               end
  end.
Definition parse_digits (s : str) : option Z :=
  match s with [] => None | _ => digits_acc s 0 end.
Definition bounded (lo hi : Z) (o : option Z) : option Z :=
  match o with Some z => checked lo hi z | None => None end.
(** An optional [+], then at least one digit. *)
Definition parse_unsigned (max : Z) (s : str) : option Z :=
  bounded 0 max
    match s with
    | c :: s' => if c =? 43 then parse_digits s' else parse_digits s
    | [] => None
    end.
Definition parse_u32 : str -> option Z := parse_unsigned u32_max.
(** An optional [+] or [-], then at least one digit. *)
Definition parse_i64 (s : str) : option Z :=
  bounded i64_min i64_max
    match s with
    | c :: s' =>
        if c =? 43 then parse_digits s'
        else if c =? 45 then option_map Z.opp (parse_digits s')
        else parse_digits s
    | [] => None
    end.

Fixpoint show_aux (fuel : nat) (n : Z) (acc : str) : str :=
  match fuel with
  | O => acc
  | S k => if n <? 10 then (48 + n) :: acc
           else show_aux k (n / 10) ((48 + n mod 10) :: acc)
  end.
Definition show_nat (n : Z) : str := show_aux (S (Z.to_nat (Z.log2 n))) n [].
(** [Display] of an integer. *)
Definition show_int (n : Z) : str :=
  if n <? 0 then 45 :: show_nat (- n) else show_nat n.

(** ** Comparison with literals, and splitting by a predicate *)
(** [matches!(s, a | b | ...)] *)
Definition in_list (s : str) (names : list string) : bool :=
  existsb (fun name => str_eqb s (lit name)) names.
Definition equals (s : str) (name : string) : bool := str_eqb s (lit name).
(** A string that starts with a literal. *)
Definition begins (name : string) (s : str) : bool := starts_with (lit name) s.

(** [split(|ch| f(ch))] *)
Fixpoint split_by (f : char -> bool) (s : str) : list str :=
  match s with
  | [] => [[]]
  | c :: s' =>
      if f c then [] :: split_by f s'
      else match split_by f s' with
           | w :: ws => (c :: w) :: ws
           | [] => [[c]]
           end
  end.
Definition not_empty (s : str) : bool := negb (is_empty s).
Fixpoint join (sep : str) (l : list str) : str :=
  match l with
  | [] => []
  | [w] => w
  | w :: l => w ++ sep ++ join sep l
  end.

(** ** Lemmas *)
Lemma str_eqb_eq s t : str_eqb s t = true <-> s = t.
Proof. apply bool_decide_eq_true. Qed.
Lemma str_eqb_refl s : str_eqb s s = true.
Proof. by apply str_eqb_eq. Qed.

Lemma str_len_nonneg s : 0 <= str_len s.
Proof.
  induction s as [|c s IH]; simpl; [done|].
  unfold utf8_width. repeat case_match; lia.
Qed.

Lemma str_len_ascii s : is_ascii s = true -> str_len s = chars_count s.
Proof.
  unfold chars_count. induction s as [|c s IH]; simpl; [done|].
  intros [Hc Hs]%andb_true_iff. rewrite IH by done.
  unfold utf8_width. unfold is_ascii_char in Hc. rewrite Hc. lia.
Qed.

Lemma strip_prefix_Some p s r : strip_prefix p s = Some r <-> s = p ++ r.
Proof.
  revert s. induction p as [|a p IH]; intros s; simpl; [naive_solver|].
  destruct s as [|b s]; [naive_solver|].
  destruct (Z.eqb_spec a b); naive_solver.
Qed.
Lemma strip_prefix_app p r : strip_prefix p (p ++ r) = Some r.
Proof. by apply strip_prefix_Some. Qed.
Lemma starts_with_true p s : starts_with p s = true <-> exists r, s = p ++ r.
Proof.
  unfold starts_with. destruct (strip_prefix p s) as [r|] eqn:H.
  - apply strip_prefix_Some in H. naive_solver.
  - split; [done|]. intros [r ->]. by rewrite strip_prefix_app in H.
Qed.

Lemma contains_char_false c s :
  contains_char c s = false <-> Forall (fun d => d <> c) s.
Proof.
  unfold contains_char. induction s as [|d s IH]; simpl.
  - split; [constructor | done].
  - rewrite orb_false_iff, IH, Forall_cons_iff, Z.eqb_neq. naive_solver.
Qed.

Lemma trim_start_by_id f s :
  match s with [] => True | c :: _ => f c = false end -> trim_start_by f s = s.
Proof. destruct s as [|c s]; simpl; [done|]. by intros ->. Qed.
Lemma trim_end_by_snoc f s c : f c = false -> trim_end_by f (s ++ [c]) = s ++ [c].
Proof.
  intros Hc. unfold trim_end_by. rewrite rev_app_distr. simpl.
  rewrite Hc. simpl. by rewrite rev_involutive.
Qed.
Lemma trim_id_all s : Forall (fun c => is_whitespace c = false) s -> trim s = s.
Proof.
  intros Hs. unfold trim, trim_start. rewrite trim_start_by_id.
  - destruct s as [|x s] using rev_ind; [done|].
    apply Forall_app in Hs as [_ Hs]. inversion Hs; subst.
    by apply trim_end_by_snoc.
  - by destruct Hs.
Qed.
Lemma trim_end_by_drop f s t :
  Forall (fun c => f c = true) t -> trim_end_by f (s ++ t) = trim_end_by f s.
Proof.
  intros Ht. unfold trim_end_by. rewrite rev_app_distr. f_equal.
  apply Forall_rev in Ht. rename Ht into H. revert H. generalize (rev t) as u.
  induction 1 as [|c u Hc Hu IH]; simpl; [done|]. by rewrite Hc.
Qed.

Lemma trim_start_by_idem f s : trim_start_by f (trim_start_by f s) = trim_start_by f s.
Proof. induction s as [|c s IH]; simpl; [done|]. destruct (f c) eqn:E; [done|]. simpl. by rewrite E. Qed.

Lemma trim_start_by_head f s :
  match trim_start_by f s with [] => True | c :: _ => f c = false end.
Proof. induction s as [|c s IH]; simpl; [done|]. by destruct (f c) eqn:E. Qed.

Lemma trim_end_by_prefix f s : exists t, s = trim_end_by f s ++ t.
Proof.
  unfold trim_end_by. assert (forall r, exists t, r = t ++ trim_start_by f r) as H.
  { induction r as [|c r [t Ht]]; simpl; [by exists []|].
    destruct (f c); [exists (c :: t); simpl; by rewrite <- Ht|by exists []]. }
  destruct (H (rev s)) as [t Ht]. exists (rev t).
  rewrite <- rev_app_distr, <- Ht. by rewrite rev_involutive.
Qed.

Lemma trim_idem s : trim (trim s) = trim s.
Proof.
  unfold trim. set (u := trim_start s).
  assert (trim_start (trim_end_by is_whitespace u) = trim_end_by is_whitespace u) as ->.
  { apply trim_start_by_id. pose proof (trim_start_by_head is_whitespace s) as Hh.
    change (trim_start_by is_whitespace s) with u in Hh.
    destruct (trim_end_by_prefix is_whitespace u) as [t Ht].
    destruct (trim_end_by is_whitespace u) as [|c w]; [done|]. by rewrite Ht in Hh. }
  unfold trim_end_by. by rewrite rev_involutive, trim_start_by_idem.
Qed.

Lemma as_bytes_ascii s : is_ascii s = true -> as_bytes s = s.
Proof.
  induction s as [|c s IH]; simpl; [done|].
  intros [Hc Hs]%andb_true_iff. rewrite IH by done.
  unfold utf8_bytes. unfold is_ascii_char in Hc. by rewrite Hc.
Qed.
Lemma as_bytes_length s : Z.of_nat (length (as_bytes s)) = str_len s.
Proof.
  induction s as [|c s IH]; simpl; [done|].
  rewrite length_app, Nat2Z.inj_add, IH. f_equal.
  unfold utf8_bytes, utf8_width. repeat case_match; done.
Qed.

(** Splitting undoes joining. *)
Lemma split_char_no d s :
  Forall (fun c => c <> d) s -> split_char d s = [s].
Proof.
  induction 1 as [|c s Hc Hs IH]; simpl; [done|].
  rewrite IH. by destruct (Z.eqb_spec c d).
Qed.
Lemma split_char_app d s t :
  Forall (fun c => c <> d) s -> split_char d (s ++ d :: t) = s :: split_char d t.
Proof.
  induction 1 as [|c s Hc Hs IH]; simpl.
  - by rewrite Z.eqb_refl.
  - rewrite IH. by destruct (Z.eqb_spec c d).
Qed.
Lemma split_once_char_no d s :
  Forall (fun c => c <> d) s -> split_once_char d s = None.
Proof.
  induction 1 as [|c s Hc Hs IH]; simpl; [done|].
  rewrite IH. by destruct (Z.eqb_spec c d).
Qed.
Lemma split_once_char_app d s t :
  Forall (fun c => c <> d) s -> split_once_char d (s ++ d :: t) = Some (s, t).
Proof.
  induction 1 as [|c s Hc Hs IH]; simpl.
  - by rewrite Z.eqb_refl.
  - rewrite IH. by destruct (Z.eqb_spec c d).
Qed.
Lemma split_once_char_Some d s l r :
  split_once_char d s = Some (l, r) ->
  s = l ++ d :: r /\ Forall (fun c => c <> d) l.
Proof.
  revert l. induction s as [|c s IH]; intros l; simpl; [done|].
  destruct (Z.eqb_spec c d) as [->|Hc].
  - intros [= <- <-]. split; [done | constructor].
  - destruct (split_once_char d s) as [[l' r']|] eqn:Hs; [|done].
    intros [= <- <-]. destruct (IH l' eq_refl) as [-> Hl]. split; [done|].
    by constructor.
Qed.

(** Words. *)
Lemma split_ws_aux_word w s cur :
  Forall (fun c => is_whitespace c = false) w ->
  split_ws_aux (w ++ s) cur = split_ws_aux s (rev w ++ cur).
Proof.
  intros Hw. revert cur. induction Hw as [|c w Hc Hw IH]; intros cur; simpl; [done|].
  rewrite Hc, IH. by rewrite <- app_assoc.
Qed.
Lemma split_whitespace_word w :
  w <> [] -> Forall (fun c => is_whitespace c = false) w -> split_whitespace w = [w].
Proof.
  intros Hne Hw. unfold split_whitespace. rewrite <- (app_nil_r w) at 1.
  rewrite split_ws_aux_word by done. simpl. rewrite app_nil_r, rev_involutive.
  destruct w as [|c w]; [done|]. simpl. destruct (rev w); done.
Qed.
Lemma split_whitespace_cons w s :
  w <> [] -> Forall (fun c => is_whitespace c = false) w ->
  split_whitespace (w ++ 32 :: s) = w :: split_whitespace s.
Proof.
  intros Hne Hw. unfold split_whitespace.
  rewrite split_ws_aux_word by done. simpl. rewrite app_nil_r, rev_involutive.
  destruct w as [|c w]; [done|]. simpl. destruct (rev w); done.
Qed.

(** Reading a number back. *)
Lemma digits_acc_app s t acc :
  digits_acc (s ++ t) acc = digits_acc s acc ≫= digits_acc t.
Proof.
  revert acc. induction s as [|c s IH]; intros acc; simpl; [done|].
  destruct (digit_val c); [apply IH | done].
Qed.
Lemma digit_val_show d : 0 <= d < 10 -> digit_val (48 + d) = Some d.
Proof.
  intros Hd. unfold digit_val, is_ascii_digit, in_range.
  rewrite (proj2 (Z.leb_le _ _)), (proj2 (Z.leb_le _ _)) by lia.
  simpl. f_equal. lia.
Qed.
Lemma show_aux_digits fuel n acc k :
  0 <= n < 2 ^ Z.of_nat fuel ->
  digits_acc (show_aux fuel n acc) k =
  digits_acc acc (k * 10 ^ (Z.of_nat (length (show_aux fuel n acc)) - Z.of_nat (length acc)) + n)
  /\ (length acc < length (show_aux fuel n acc))%nat \/ fuel = O.
Proof.
  revert n acc k. induction fuel as [|f IH]; intros n acc k Hn; [by right|].
  left. simpl show_aux. destruct (Z.ltb_spec n 10) as [Hlt|Hge].
  - split; [|simpl; lia]. simpl digits_acc. rewrite digit_val_show by lia.
    f_equal. simpl length. replace (Z.of_nat (S _) - _) with 1 by lia. lia.
  - assert (Hm : 0 <= n mod 10 < 10) by (apply Z.mod_pos_bound; lia).
    assert (Hd : 0 <= n / 10 < 2 ^ Z.of_nat f).
    { rewrite Nat2Z.inj_succ, Z.pow_succ_r in Hn by lia.
      split; [apply Z.div_pos; lia | apply Z.div_lt_upper_bound; lia]. }
    destruct (IH (n / 10) ((48 + n mod 10) :: acc) k Hd) as [[-> Hl]| ->].
    + split; [|simpl in Hl; lia]. simpl digits_acc. rewrite digit_val_show by lia.
      f_equal. simpl length in *.
      set (m := Z.of_nat (length _)) in *. set (a := length acc) in *.
      replace (m - Z.of_nat a) with (Z.succ (m - Z.of_nat (S a))) by lia.
      rewrite Z.pow_succ_r by lia. pose proof (Z.div_mod n 10). nia.
    + simpl in Hd. lia.
Qed.
Lemma parse_digits_show n : 0 <= n -> parse_digits (show_nat n) = Some n.
Proof.
  intros Hn. unfold show_nat, parse_digits.
  assert (Hb : 0 <= n < 2 ^ Z.of_nat (S (Z.to_nat (Z.log2 n)))).
  { split; [done|]. rewrite Nat2Z.inj_succ, Z2Nat.id by apply Z.log2_nonneg.
    destruct (Z.eq_dec n 0) as [->|]; [simpl; lia|].
    apply Z.log2_spec. lia. }
  destruct (show_aux_digits _ n [] 0 Hb) as [[H Hl]|H]; [|done].
  destruct (show_aux _ _ _); [simpl in Hl; lia|]. by rewrite H.
Qed.
Lemma show_aux_all (P : Z -> Prop) fuel n acc :
  (forall c, 48 <= c <= 57 -> P c) -> 0 <= n -> Forall P acc ->
  Forall P (show_aux fuel n acc).
Proof.
  intros HP. revert n acc. induction fuel as [|f IH]; intros n acc Hn Hacc;
    simpl; [done|].
  destruct (Z.ltb_spec n 10).
  - constructor; [apply HP; lia | done].
  - pose proof (Z.mod_pos_bound n 10). apply IH; [apply Z.div_pos; lia|].
    constructor; [apply HP; lia | done].
Qed.
Lemma show_nat_all (P : Z -> Prop) n :
  (forall c, 48 <= c <= 57 -> P c) -> 0 <= n -> Forall P (show_nat n).
Proof. intros HP Hn. apply show_aux_all; [done | done | constructor]. Qed.
Lemma show_nat_cons n : 0 <= n -> exists c s, show_nat n = c :: s /\ 48 <= c <= 57.
Proof.
  intros Hn. pose proof (parse_digits_show n Hn) as H.
  pose proof (show_nat_all (fun c => 48 <= c <= 57) n (fun _ H => H) Hn) as Hall.
  destruct (show_nat n) as [|c s]; [done|]. inversion Hall; subst. by exists c, s.
Qed.
Lemma parse_unsigned_show max n :
  0 <= n <= max -> parse_unsigned max (show_nat n) = Some n.
Proof.
  intros Hn. unfold parse_unsigned.
  destruct (show_nat_cons n ltac:(lia)) as (c & s & Hs & Hc).
  pose proof (parse_digits_show n ltac:(lia)) as Hp. rewrite Hs in *.
  destruct (Z.eqb_spec c 43); [lia|]. rewrite Hp. simpl. by apply checked_Some.
Qed.
Lemma parse_u32_show n : 0 <= n <= u32_max -> parse_u32 (show_nat n) = Some n.
Proof. apply parse_unsigned_show. Qed.
Lemma parse_i64_show n : 0 <= n <= i64_max -> parse_i64 (show_nat n) = Some n.
Proof.
  intros Hn. unfold parse_i64.
  destruct (show_nat_cons n ltac:(lia)) as (c & s & Hs & Hc).
  pose proof (parse_digits_show n ltac:(lia)) as Hp. rewrite Hs in *.
  destruct (Z.eqb_spec c 43); [lia|]. destruct (Z.eqb_spec c 45); [lia|].
  rewrite Hp. simpl. apply checked_Some. split; [done|]. int_lia.
Qed.
Lemma parse_u32_bound s z : parse_u32 s = Some z -> 0 <= z <= u32_max.
Proof.
  unfold parse_u32, parse_unsigned, bounded. case_match; [|done].
  intros [-> ?]%checked_Some. done.
Qed.
Lemma parse_i64_bound s z : parse_i64 s = Some z -> i64_min <= z <= i64_max.
Proof.
  unfold parse_i64, bounded. case_match; [|done].
  intros [-> ?]%checked_Some. done.
Qed.

#[export] Hint Resolve str_eqb_refl str_len_nonneg strip_prefix_app
  parse_u32_bound parse_i64_bound : oomu.
#[export] Hint Rewrite str_eqb_eq str_eqb_refl strip_prefix_app : oomu_rw.

(** * [std::path] and the parts of [std::fs] the engine asks about

    A path is the list of its components; the root directory is the component
    ["/"].  The file system is an argument: every operation that consults it
    takes the [FileSystem] it sees. *)
Notation path := (list str) (only parsing).

Definition root_dir : str := lit "/".
Definition parent_dir : str := lit "..".

(** [Path::parent]: none for the root and for the empty path. *)
Definition parent (p : path) : option path :=
  match rev p with
  | [] => None
  | c :: q => if str_eqb c root_dir then None else Some (rev q)
  end.

(** [Path::file_name]: the last component when it is a normal one. *)
Definition file_name (p : path) : option str :=
  match rev p with
  | [] => None
  | c :: _ =>
      if str_eqb c root_dir || str_eqb c parent_dir || equals c "." then None else Some c
  end.

(** [Path::starts_with] compares whole components. *)
Fixpoint path_starts_with (base p : path) : bool :=
  match base, p with
  | [], _ => true
  | a :: base', b :: p' => str_eqb a b && path_starts_with base' p'
  | _ :: _, [] => false
  end.

(** [Path::new(text)] and its components: repeated separators and inner dots
    disappear. *)
Definition path_of_str (s : str) : path :=
  let parts := List.filter not_empty (split_char (ch "/") s) in
  if starts_with (lit "/") s
  then root_dir :: List.filter (fun c => negb (equals c ".")) parts
  else match parts with
       | c :: parts => c :: List.filter (fun c => negb (equals c ".")) parts
       | [] => []
       end.
Definition is_absolute (p : path) : bool :=
  match p with c :: _ => str_eqb c root_dir | [] => false end.
(** [Path::join]: an absolute path replaces, a [.] in front counts only behind an
    empty path. *)
Definition skip_cur_dir (p : path) : path :=
  match p with c :: q => if equals c "." then q else p | [] => [] end.
Definition path_join (base p : path) : path :=
  if is_absolute p then p
  else match base with [] => p | _ => base ++ skip_cur_dir p end.
(** [PathBuf::pop]: nothing happens without a parent. *)
Definition path_pop (p : path) : path := default p (parent p).
Fixpoint path_strip_prefix (base p : path) : option path :=
  match base, p with
  | [], _ => Some p
  | a :: base, b :: p => if str_eqb a b then path_strip_prefix base p else None
  | _ :: _, [] => None
  end.
Definition path_display (p : path) : str :=
  match p with
  | c :: p' => if str_eqb c root_dir then root_dir ++ join (lit "/") p' else join (lit "/") p
  | [] => []
  end.

Record FileSystem : Type := {
  canonicalize : path -> option path;
  is_dir : path -> bool;
  is_file : path -> bool;
  read_file : path -> option (list Z);
}.

Lemma path_starts_with_spec base p :
  path_starts_with base p = true <-> exists q, p = base ++ q.
Proof.
  revert p. induction base as [|a base IH]; intros p; simpl; [naive_solver|].
  destruct p as [|b p]; [naive_solver|].
  rewrite andb_true_iff, str_eqb_eq, IH. naive_solver.
Qed.
