(* ===== verification/P0Contracts.v ===== *)
(** * The P0 contract: identifiers, task vocabulary, event envelope

    Models [src-tauri/src/p0_contracts.rs].  The macro [opaque_id!] becomes a
    family of types indexed by the identifier kind.  [serde_json::Value] and
    [DateTime::parse_from_rfc3339] are parameters, the random bytes of
    [OsRng] are an argument of [new_uuid_v4]. *)
From S2P Require Import Prelude RustStr.
Local Open Scope Z_scope.

Definition P0_CONTRACT_VERSION : Z := 1.

(** ** Version-4 UUIDs *)

(** One digit of [{:02x}]. *)
Definition hex_digit (d : Z) : char := if d <? 10 then 48 + d else 87 + d.
(** [format!("{:02x}", byte)] *)
Definition hex_byte (b : Z) : str := [hex_digit (b / 16); hex_digit (b mod 16)].
(** [hex::encode] *)
Definition hex_encode (bs : list Z) : str := flat_map hex_byte bs.

(** The sixteen bytes after the version and variant bits are forced. *)
Definition set_version_bits (bytes : list Z) : list Z :=
  <[8%nat := Z.lor (Z.land (byte_at bytes 8) 63) 128]>
    (<[6%nat := Z.lor (Z.land (byte_at bytes 6) 15) 64]> bytes).

Definition format_uuid (b : list Z) : str :=
  hex_encode (take 4 b) ++ [45] ++ hex_encode (take 2 (drop 4 b)) ++ [45]
  ++ hex_encode (take 2 (drop 6 b)) ++ [45] ++ hex_encode (take 2 (drop 8 b))
  ++ [45] ++ hex_encode (take 6 (drop 10 b)).

Definition new_uuid_v4 (random : list Z) : str := format_uuid (set_version_bits random).

Definition is_hyphen_index (i : nat) : bool :=
  match i with 8 | 13 | 18 | 23 => true | _ => false end%nat.
Definition is_lower_hex (b : Z) : bool := is_ascii_digit b || in_range 97 102 b.

Definition valid_uuid_suffix (value : str) : bool :=
  let bytes := as_bytes value in
  if negb (Nat.eqb (length bytes) 36)
     || negb (byte_at bytes 8 =? 45) || negb (byte_at bytes 13 =? 45)
     || negb (byte_at bytes 18 =? 45) || negb (byte_at bytes 23 =? 45)
  then false
  else if negb (forallb (fun '(index, byte) => is_hyphen_index index || is_lower_hex byte)
                        (imap pair bytes))
  then false
  else if negb (in_range 49 56 (byte_at bytes 14))
          || negb (existsb (Z.eqb (byte_at bytes 19)) [56; 57; 97; 98])
  then false
  else existsb (fun byte => is_ascii_hexdigit byte && negb (byte =? 48)) bytes.

(** ** Opaque identifiers *)
Inductive id_kind : Type :=
| KProject | KTask | KTaskRun | KArtifact | KConnector | KChildRun
| KObservation | KDesktopAction | KMediaAsset | KRemoteDevice
| KCapabilityBundle | KLearningCandidate | KWorkGraph.

(** The [$prefix] of each instantiation of the macro. *)
Definition id_prefix (k : id_kind) : str :=
  match k with
  | KProject => lit "project" | KTask => lit "task" | KTaskRun => lit "taskrun"
  | KArtifact => lit "artifact" | KConnector => lit "connector"
  | KChildRun => lit "childrun" | KObservation => lit "observation"
  | KDesktopAction => lit "action" | KMediaAsset => lit "media"
  | KRemoteDevice => lit "device" | KCapabilityBundle => lit "bundle"
  | KLearningCandidate => lit "learning" | KWorkGraph => lit "workgraph"
  end.

Record opaque_id (k : id_kind) : Type := OpaqueId { as_str : str }.
Arguments OpaqueId {k} as_str.
Arguments as_str {k} _.

Notation ProjectId := (opaque_id KProject).
Notation TaskId := (opaque_id KTask).
Notation TaskRunId := (opaque_id KTaskRun).
Notation ArtifactId := (opaque_id KArtifact).
Notation ConnectorId := (opaque_id KConnector).
Notation ChildRunId := (opaque_id KChildRun).

Definition invalid_identifier (k : id_kind) : str :=
  lit "invalid " ++ id_prefix k ++ lit " identifier".

Definition id_new (k : id_kind) (random : list Z) : opaque_id k :=
  OpaqueId (id_prefix k ++ [95] ++ new_uuid_v4 random).

Definition id_parse (k : id_kind) (value : str) : res str (opaque_id k) :=
  suffix ← ok_or (invalid_identifier k) (strip_prefix (id_prefix k ++ [95]) value);
  if negb (valid_uuid_suffix suffix) then Err (invalid_identifier k)
  else Ok (OpaqueId value).

(** ** Task vocabulary *)
Inductive TaskState : Type :=
| Queued | Planning | AwaitingApproval | Running | Blocked | Completed | Failed
| Cancelled.

Inductive EvidenceClass : Type :=
| ModelAssertion | ObservedResult | ExecutedMutation | VerifiedPostcondition
| SignedArtifact.

(** ** The event envelope *)
Section Envelope.
Context {Value : Type} (parse_from_rfc3339 : str -> bool).

Record RawP0EventEnvelope : Type := {
  raw_schema_version : Z;
  raw_event_type : str;
  raw_project_id : ProjectId;
  raw_task_id : TaskId;
  raw_task_run_id : option TaskRunId;
  raw_correlation_id : str;
  raw_sequence : Z;
  raw_timestamp : str;
  raw_evidence_class : EvidenceClass;
  raw_payload : Value;
}.

Record P0EventEnvelope : Type := {
  schema_version : Z;
  event_type : str;
  project_id : ProjectId;
  task_id : TaskId;
  task_run_id : option TaskRunId;
  correlation_id : str;
  sequence : Z;
  timestamp : str;
  evidence_class : EvidenceClass;
  payload : Value;
}.

Definition event_type_char (c : char) : bool :=
  is_ascii_lowercase c || is_ascii_digit c || existsb (Z.eqb c) [95; 46; 45].

Definition event_type_malformed (t : str) : bool :=
  (str_len t <? 3) || (128 <? str_len t)
  || negb (match t with c :: _ => is_ascii_lowercase c | [] => false end)
  || negb (forallb event_type_char t).

Definition P0EventEnvelope_deserialize (raw : RawP0EventEnvelope)
  : res str P0EventEnvelope :=
  if negb (raw_schema_version raw =? P0_CONTRACT_VERSION)
  then Err (lit "unsupported P0 event envelope version")
  else if event_type_malformed (raw_event_type raw)
  then Err (lit "invalid P0 event type")
  else if is_empty (raw_correlation_id raw)
          || (128 <? str_len (raw_correlation_id raw))
  then Err (lit "invalid P0 correlation identifier")
  else if negb (ends_with (lit "Z") (raw_timestamp raw))
          || negb (parse_from_rfc3339 (raw_timestamp raw))
  then Err (lit "invalid P0 event timestamp")
  else Ok {| schema_version := raw_schema_version raw;
             event_type := raw_event_type raw;
             project_id := raw_project_id raw;
             task_id := raw_task_id raw;
             task_run_id := raw_task_run_id raw;
             correlation_id := raw_correlation_id raw;
             sequence := raw_sequence raw;
             timestamp := raw_timestamp raw;
             evidence_class := raw_evidence_class raw;
             payload := raw_payload raw |}.
End Envelope.
Arguments RawP0EventEnvelope : clear implicits.
Arguments P0EventEnvelope : clear implicits.

#[export] Instance id_kind_eq_dec : EqDecision id_kind.
Proof. solve_decision. Defined.
#[export] Instance opaque_id_eq_dec k : EqDecision (opaque_id k).
Proof. solve_decision. Defined.
#[export] Instance TaskState_eq_dec : EqDecision TaskState.
Proof. solve_decision. Defined.
#[export] Instance EvidenceClass_eq_dec : EqDecision EvidenceClass.
Proof. solve_decision. Defined.

(** ** Lemmas *)
Definition is_byte (b : Z) : bool := in_range 0 255 b.

Lemma hex_digit_lower d : 0 <= d < 16 -> is_lower_hex (hex_digit d) = true.
Proof.
  intros Hd. unfold hex_digit, is_lower_hex, is_ascii_digit, in_range.
  destruct (Z.ltb_spec d 10); rewrite !orb_true_iff, !andb_true_iff, !Z.leb_le; lia.
Qed.
Lemma hex_digit_ascii d : 0 <= d < 16 -> is_ascii_char (hex_digit d) = true.
Proof.
  intros Hd. unfold hex_digit, is_ascii_char.
  destruct (Z.ltb_spec d 10); apply Z.ltb_lt; lia.
Qed.

Lemma id_parse_as_str k s i : id_parse k s = Ok i -> as_str i = s.
Proof.
  unfold id_parse. intros (suffix & _ & H)%bind_Ok.
  case_match; [done|]. by injection H as <-.
Qed.
Lemma hex_byte_all (P : Z -> bool) b :
  (forall d, 0 <= d < 16 -> P (hex_digit d) = true) -> is_byte b = true ->
  forallb P (hex_byte b) = true.
Proof.
  intros HP [H0 H1]%andb_true_iff. apply Z.leb_le in H0, H1. simpl.
  pose proof (Z.mod_pos_bound b 16). rewrite !HP; [done | lia |].
  split; [apply Z.div_pos; lia | apply Z.div_lt_upper_bound; lia].
Qed.
Lemma hex_encode_all (P : Z -> bool) bs :
  (forall d, 0 <= d < 16 -> P (hex_digit d) = true) -> forallb is_byte bs = true ->
  forallb P (hex_encode bs) = true.
Proof.
  intros HP. induction bs as [|b bs IH]; [done|].
  intros [Hb Hbs]%andb_true_iff.
  change (hex_encode (b :: bs)) with (hex_byte b ++ hex_encode bs).
  rewrite forallb_app, hex_byte_all by done. by apply IH.
Qed.

(** A byte predicate holds everywhere when it holds on the 256 values. *)
Lemma byte_exhaust (P : Z -> bool) b :
  forallb P (seqZ 0 256) = true -> is_byte b = true -> P b = true.
Proof.
  rewrite forallb_forall. intros HP [H0 H1]%andb_true_iff.
  apply Z.leb_le in H0, H1. apply HP, list_elem_of_In, elem_of_seqZ. lia.
Qed.
Lemma version_byte b :
  is_byte b = true ->
  is_byte (Z.lor (Z.land b 15) 64) = true /\
  hex_digit (Z.lor (Z.land b 15) 64 / 16) = 52.
Proof.
  intros Hb. split; [by apply (byte_exhaust (fun b => is_byte (Z.lor (Z.land b 15) 64)))|].
  apply Z.eqb_eq.
  by apply (byte_exhaust (fun b => hex_digit (Z.lor (Z.land b 15) 64 / 16) =? 52)).
Qed.
Lemma variant_byte b :
  is_byte b = true ->
  is_byte (Z.lor (Z.land b 63) 128) = true /\
  existsb (Z.eqb (hex_digit (Z.lor (Z.land b 63) 128 / 16))) [56; 57; 97; 98] = true.
Proof.
  intros Hb. split; [by apply (byte_exhaust (fun b => is_byte (Z.lor (Z.land b 63) 128)))|].
  by apply (byte_exhaust
    (fun b => existsb (Z.eqb (hex_digit (Z.lor (Z.land b 63) 128 / 16))) [56; 57; 97; 98])).
Qed.

(** What a well-formed suffix looks like, group by group. *)
Lemma valid_uuid_suffix_groups g1 g2 g3 g4 g5 :
  length g1 = 8%nat -> length g2 = 4%nat -> length g3 = 3%nat ->
  length g4 = 3%nat -> length g5 = 12%nat ->
  forallb is_lower_hex (g1 ++ g2 ++ g3 ++ g4 ++ g5) = true ->
  forall v : char, existsb (Z.eqb v) [56; 57; 97; 98] = true ->
  valid_uuid_suffix (g1 ++ [45] ++ g2 ++ [45] ++ (52 :: g3) ++ [45] ++ (v :: g4)
                     ++ [45] ++ g5) = true.
Proof.
  intros H1 H2 H3 H4 H5 Hhex v Hv.
  assert (Hvl : is_lower_hex v = true).
  { simpl in Hv. rewrite !orb_true_iff, !Z.eqb_eq in Hv.
    by destruct Hv as [->|[->|[->|[->|?]]]]. }
  rewrite !forallb_app in Hhex. split_bools.
  assert (Hascii : forall c, is_lower_hex c = true -> is_ascii_char c = true).
  { intros c. unfold is_lower_hex, is_ascii_digit, in_range, is_ascii_char.
    rewrite orb_true_iff, !andb_true_iff, !Z.leb_le, Z.ltb_lt. lia. }
  do 9 (destruct g1 as [|? g1]; try discriminate H1).
  do 5 (destruct g2 as [|? g2]; try discriminate H2).
  do 4 (destruct g3 as [|? g3]; try discriminate H3).
  do 4 (destruct g4 as [|? g4]; try discriminate H4).
  do 13 (destruct g5 as [|? g5]; try discriminate H5).
  cbn [forallb app] in *. split_bools.
  unfold valid_uuid_suffix. rewrite as_bytes_ascii.
  - cbn -[is_lower_hex is_ascii_hexdigit existsb Z.eqb].
    repeat match goal with H : is_lower_hex _ = true |- _ => rewrite H end.
    rewrite Hv. vm_compute (in_range _ _ _). cbn -[is_ascii_hexdigit Z.eqb].
    rewrite ?orb_true_r. by vm_compute.
  - unfold is_ascii. cbn [forallb].
    repeat match goal with
      H : is_lower_hex _ = true |- _ => rewrite (Hascii _ H); clear H end. done.
Qed.

Lemma new_uuid_v4_valid random :
  length random = 16%nat -> forallb is_byte random = true ->
  valid_uuid_suffix (new_uuid_v4 random) = true.
Proof.
  intros Hlen Hb.
  do 17 (destruct random as [|? random]; try discriminate Hlen).
  cbn [forallb] in Hb. split_bools. clear Hlen.
  match goal with |- valid_uuid_suffix (new_uuid_v4 (?b0 :: ?b1 :: ?b2 :: ?b3 :: ?b4
      :: ?b5 :: ?b6 :: ?b7 :: ?b8 :: ?b9 :: ?l)) = true =>
    destruct (version_byte b6) as [Hv6 E6]; [done|];
    destruct (variant_byte b8) as [Hv8 E8]; [done|];
    set (v6 := Z.lor (Z.land b6 15) 64) in *;
    set (v8 := Z.lor (Z.land b8 63) 128) in *;
    pose proof (valid_uuid_suffix_groups
      (hex_encode [b0; b1; b2; b3]) (hex_encode [b4; b5])
      (hex_digit (v6 mod 16) :: hex_byte b7) (hex_digit (v8 mod 16) :: hex_byte b9)
      (hex_encode l)) as G;
    pose proof (hex_encode_all is_lower_hex [b0; b1; b2; b3; b4; b5; v6; b7; v8; b9]
      hex_digit_lower) as G1;
    pose proof (hex_encode_all is_lower_hex l hex_digit_lower) as G2
  end.
  cbn [forallb] in G1, G2.
  repeat match goal with H : is_byte _ = true |- _ =>
    rewrite ?H in G1; rewrite ?H in G2; clear H end.
  specialize (G1 eq_refl). specialize (G2 eq_refl).
  cbn -[is_lower_hex hex_digit Z.div Z.modulo] in G1, G2. split_bools.
  unfold new_uuid_v4, format_uuid, set_version_bits.
  cbn [byte_at default lookup list_lookup insert list_insert take drop app
       hex_encode flat_map hex_byte].
  cbn -[is_lower_hex hex_digit Z.div Z.modulo valid_uuid_suffix existsb] in G |- *.
  rewrite <- E6 in G. apply (G eq_refl eq_refl eq_refl eq_refl eq_refl); [|exact E8].
  repeat match goal with H : is_lower_hex _ = true |- _ => rewrite H; clear H end.
  done.
Qed.

(** Every identifier minted by [new] is accepted by [parse] of the same
    kind, whatever the sixteen random bytes are. *)
Theorem id_new_parses k random :
  length random = 16%nat -> forallb is_byte random = true ->
  id_parse k (as_str (id_new k random)) = Ok (id_new k random).
Proof.
  intros Hlen Hb. unfold id_parse.
  replace (as_str (id_new k random))
    with ((id_prefix k ++ [95]) ++ new_uuid_v4 random) by (symmetry; apply app_assoc).
  rewrite strip_prefix_app. simpl.
  rewrite new_uuid_v4_valid by done. unfold id_new. by rewrite <- app_assoc.
Qed.

Lemma id_new_parses_witness :
  id_parse KProject (as_str (id_new KProject (replicate 16 171)))
  = Ok (id_new KProject (replicate 16 171)).
Proof. apply id_new_parses; vm_compute; reflexivity. Defined.
