(* ===== verification/CuContracts.v ===== *)
(** * Guarded app control: contracts, errors, driver messages

    Models [computer_use/contracts.rs], [computer_use/error.rs] and the data of
    [computer_use/driver.rs].  Each enum or struct is a [Module] holding its
    type [t], so that [AppControlState::Running] reads [AppControlState.Running].
    An [f64] is its 64-bit pattern: the engine only copies geometry here.  A
    [PathBuf] is the list of its components, the root directory being the
    component ["/"]. *)
From S2P Require Import Prelude RustStr.
Local Open Scope Z_scope.

Definition MAX_OBSERVED_ELEMENTS : Z := 2000.
Definition MAX_ACTION_TEXT_CHARS : Z := 32767.
Definition REFERENCE_TTL_MS : Z := 15000.

Notation f64 := Z (only parsing).
Notation PathBuf := (list str) (only parsing).

Module AppControlState.
Inductive t : Type :=
| Observing | Running | Paused | Takeover | ReturnPending | Stopped
| Completed | Failed.

Definition active (s : t) : bool :=
  match s with
  | Observing | Running | Paused | Takeover | ReturnPending => true
  | _ => false
  end.
End AppControlState.

Module DesktopActionKind.
Inductive t : Type :=
| Focus | Press | Select | TypeText | InvokeMenu | Scroll | DragDrop
| ChooseFile | AppleEvent.
End DesktopActionKind.

Module AppControlPauseReason.
Inductive t : Type :=
| UserInput | SecureField | AmbiguousTarget | RepeatedMismatch
| UnexpectedNavigation | PermissionChanged | HiddenWindow
| ApplicationChanged | DriverUnavailable.
End AppControlPauseReason.

Module QualifiedAppIcon.
Inductive t : Type :=
| Finder | Preview | Mail | Calendar | Numbers | Keynote | Excel | Powerpoint
| Generic.
End QualifiedAppIcon.

Module AppControlOutcomeStatus.
Inductive t : Type := Verified | NoChange | Failed | Paused.
End AppControlOutcomeStatus.

Module AppControlApplicationView.
Record t : Type := mk { name : str; icon : QualifiedAppIcon.t }.
End AppControlApplicationView.

Module AppControlActionView.
Record t : Type := mk {
  kind : DesktopActionKind.t;
  target_label : option str;
  will_change_data : bool;
}.
End AppControlActionView.

Module AppControlOutcomeView.
Record t : Type := mk {
  status : AppControlOutcomeStatus.t;
  action_kind : DesktopActionKind.t;
  receipt_id : str;
  recorded_at_ms : Z;
  details_available : bool;
}.
End AppControlOutcomeView.

Module AppControlSessionView.
Record t : Type := mk {
  session_id : str;
  task_run_id : str;
  project_id : str;
  state : AppControlState.t;
  application : option AppControlApplicationView.t;
  current_action : option AppControlActionView.t;
  pause_reason : option AppControlPauseReason.t;
  can_pause : bool;
  can_take_control : bool;
  can_return_to_oomu : bool;
  observation_generation : Z;
  last_outcome : option AppControlOutcomeView.t;
  updated_at_ms : Z;
}.
End AppControlSessionView.

Module AppControlControl.
Inductive t : Type := Pause | Stop | TakeControl | ReturnToOomu.
End AppControlControl.

Module ControlAppControlSessionRequest.
Record t : Type := mk {
  session_id : str;
  task_run_id : str;
  control : AppControlControl.t;
}.
End ControlAppControlSessionRequest.

Module StartAppControlSession.
Record t : Type := mk {
  project_id : str;
  task_run_id : str;
  approved_bundle_ids : list str;
  scoped_file_roots : list PathBuf;
  file_grant_ids : list str;
}.
End StartAppControlSession.

Module AppControlFileGrantView.
Record t : Type := mk { grant_id : str; file_name : str; expires_at_ms : Z }.
End AppControlFileGrantView.

Module AccessibilityPermission.
Inductive t : Type := Granted | Missing.
End AccessibilityPermission.

Module DesktopApplicationObservation.
Record t : Type := mk { bundle_id : str; display_name : str; process_id : Z }.
End DesktopApplicationObservation.

Module DesktopWindowObservation.
Record t : Type := mk {
  window_id : str; title : str; visible : bool; modal : bool }.
End DesktopWindowObservation.

Module ElementGeometry.
Record t : Type := mk { x : f64; y : f64; width : f64; height : f64 }.
End ElementGeometry.

Module RedactedScreenshotReceipt.
Record t : Type := mk {
  sha256 : str; width : Z; height : Z; redactions_applied : bool }.
End RedactedScreenshotReceipt.

Module DesktopObservedElement.
Record t : Type := mk {
  element_key : str;
  reference : str;
  role : str;
  label : option str;
  value_digest : option str;
  secure : bool;
  visible : bool;
  enabled : bool;
  in_modal : bool;
  supported_actions : list DesktopActionKind.t;
  geometry : option ElementGeometry.t;
  expires_at_ms : Z;
}.
End DesktopObservedElement.

Module DesktopObservation.
Record t : Type := mk {
  observation_id : str;
  session_id : str;
  project_id : str;
  task_run_id : str;
  revision : Z;
  generation : Z;
  observed_at_ms : Z;
  expires_at_ms : Z;
  permission : AccessibilityPermission.t;
  application : DesktopApplicationObservation.t;
  window : DesktopWindowObservation.t;
  focused_element : option str;
  elements : list DesktopObservedElement.t;
  screenshot : option RedactedScreenshotReceipt.t;
  observation_hash : str;
}.
(** [observation.observation_hash = hash] *)
Definition set_observation_hash (h : str) (o : t) : t :=
  mk (observation_id o) (session_id o) (project_id o) (task_run_id o)
     (revision o) (generation o) (observed_at_ms o) (expires_at_ms o)
     (permission o) (application o) (window o) (focused_element o) (elements o)
     (screenshot o) h.
End DesktopObservation.

Module QualifiedMenuCommand.
Inductive t : Type := Save | SaveAs | Export | NewWindow | CloseWindow.
End QualifiedMenuCommand.

Module QualifiedAppleEvent.
Inductive t : Type := ActivateApplication.
End QualifiedAppleEvent.

Module DesktopSemanticAction.
Inductive t : Type :=
| Focus (reference : str)
| Press (reference : str)
| Select (reference value : str)
| TypeText (reference text : str)
| InvokeMenu (command : QualifiedMenuCommand.t)
| Scroll (reference : option str) (amount : Z)
| DragDrop (source destination : str)
| ChooseFile (reference file_grant_id : str)
| AppleEvent (command : QualifiedAppleEvent.t).

Definition kind (a : t) : DesktopActionKind.t :=
  match a with
  | Focus _ => DesktopActionKind.Focus
  | Press _ => DesktopActionKind.Press
  | Select _ _ => DesktopActionKind.Select
  | TypeText _ _ => DesktopActionKind.TypeText
  | InvokeMenu _ => DesktopActionKind.InvokeMenu
  | Scroll _ _ => DesktopActionKind.Scroll
  | DragDrop _ _ => DesktopActionKind.DragDrop
  | ChooseFile _ _ => DesktopActionKind.ChooseFile
  | AppleEvent _ => DesktopActionKind.AppleEvent
  end.

Definition references (a : t) : list str :=
  match a with
  | Focus reference | Press reference | Select reference _
  | TypeText reference _ | ChooseFile reference _ => [reference]
  | Scroll reference _ => match reference with Some r => [r] | None => [] end
  | DragDrop source destination => [source; destination]
  | InvokeMenu _ | AppleEvent _ => []
  end.

Definition will_change_data (a : t) : bool :=
  negb match a with
       | Focus _ | Scroll _ _
       | AppleEvent QualifiedAppleEvent.ActivateApplication => true
       | _ => false
       end.

Definition target_label (a : t) : option str := None.

(** [matches!(action, DesktopSemanticAction::ChooseFile { .. })] *)
Definition is_choose_file (a : t) : bool :=
  match a with ChooseFile _ _ => true | _ => false end.
End DesktopSemanticAction.

Module ExpectedOutcomeKind.
Inductive t : Type :=
| NoChange | ElementValue | ElementState | WindowState | FileHash
| ApplicationState.
End ExpectedOutcomeKind.

Module ExecuteDesktopActionRequest.
Record t : Type := mk {
  session_id : str;
  task_run_id : str;
  observation_revision : Z;
  action : DesktopSemanticAction.t;
  expected_outcome : ExpectedOutcomeKind.t;
}.
End ExecuteDesktopActionRequest.

Module ObservedPostcondition.
Inductive t : Type :=
| NoChange
| ElementValue (element_key value_sha256 : str)
| ElementState (element_key state : str)
| WindowState (window_id state : str)
| FileHash (canonical_path : PathBuf) (sha256 : str)
| ApplicationState (state : str).

Definition kind (p : t) : ExpectedOutcomeKind.t :=
  match p with
  | NoChange => ExpectedOutcomeKind.NoChange
  | ElementValue _ _ => ExpectedOutcomeKind.ElementValue
  | ElementState _ _ => ExpectedOutcomeKind.ElementState
  | WindowState _ _ => ExpectedOutcomeKind.WindowState
  | FileHash _ _ => ExpectedOutcomeKind.FileHash
  | ApplicationState _ => ExpectedOutcomeKind.ApplicationState
  end.
End ObservedPostcondition.

Module FileHashEvidence.
Record t : Type := mk { canonical_path : PathBuf; sha256 : str }.
End FileHashEvidence.

Module DesktopOutcomeReceipt.
Record t : Type := mk {
  receipt_id : str;
  session_id : str;
  project_id : str;
  task_run_id : str;
  action_kind : DesktopActionKind.t;
  authority_decision_id : str;
  before_observation_id : str;
  before_observation_hash : str;
  after_observation_id : str;
  after_observation_hash : str;
  action_arguments_hash : str;
  driver_receipt_hash : str;
  postcondition_hash : str;
  file_hashes : list FileHashEvidence.t;
  status : AppControlOutcomeStatus.t;
  recorded_at_ms : Z;
}.
End DesktopOutcomeReceipt.

Module DesktopActionOutcome.
Record t : Type := mk {
  receipt : DesktopOutcomeReceipt.t;
  observation : DesktopObservation.t;
  session : AppControlSessionView.t;
}.
End DesktopActionOutcome.

(** ** Errors *)
Module AppControlErrorCode.
Inductive t : Type :=
| DriverUnavailable | AccessibilityPermissionMissing | PermissionChanged
| InvalidRequest | SessionNotFound | TaskBindingMismatch
| BrowserRouteRequired | ObservationOnlyApplication
| ApplicationNotAllowlisted | HiddenWindow | SecureField | AmbiguousTarget
| StaleReference | CrossApplicationReference | FileScopeViolation
| Unauthorized | NotRunning | PostconditionMismatch | UnexpectedNavigation
| DriverFailure.

(** [format!("{:?}", error.code)]: the derived [Debug]. *)
Definition debug (c : t) : str :=
  match c with
  | DriverUnavailable => lit "DriverUnavailable"
  | AccessibilityPermissionMissing => lit "AccessibilityPermissionMissing"
  | PermissionChanged => lit "PermissionChanged"
  | InvalidRequest => lit "InvalidRequest"
  | SessionNotFound => lit "SessionNotFound"
  | TaskBindingMismatch => lit "TaskBindingMismatch"
  | BrowserRouteRequired => lit "BrowserRouteRequired"
  | ObservationOnlyApplication => lit "ObservationOnlyApplication"
  | ApplicationNotAllowlisted => lit "ApplicationNotAllowlisted"
  | HiddenWindow => lit "HiddenWindow"
  | SecureField => lit "SecureField"
  | AmbiguousTarget => lit "AmbiguousTarget"
  | StaleReference => lit "StaleReference"
  | CrossApplicationReference => lit "CrossApplicationReference"
  | FileScopeViolation => lit "FileScopeViolation"
  | Unauthorized => lit "Unauthorized"
  | NotRunning => lit "NotRunning"
  | PostconditionMismatch => lit "PostconditionMismatch"
  | UnexpectedNavigation => lit "UnexpectedNavigation"
  | DriverFailure => lit "DriverFailure"
  end.
End AppControlErrorCode.

Module AppControlError.
Record t : Type := new { code : AppControlErrorCode.t; message : str }.
End AppControlError.

Notation AppControlResult := (res AppControlError.t).
(** [Err(AppControlError::new(code, "message"))] *)
Definition err (c : AppControlErrorCode.t) (m : string) : AppControlError.t :=
  AppControlError.new c (lit m).
Arguments err c m%_string.

(** ** Driver messages *)
Module DriverObservationRequest.
Record t : Type := mk { session_id : str; project_id : str; task_run_id : str }.
End DriverObservationRequest.

Module DriverElement.
Record t : Type := mk {
  element_key : str;
  role : str;
  label : option str;
  value_digest : option str;
  secure : bool;
  visible : bool;
  enabled : bool;
  in_modal : bool;
  supported_actions : list DesktopActionKind.t;
  geometry : option ElementGeometry.t;
}.
End DriverElement.

Module DriverObservation.
Record t : Type := mk {
  permission : AccessibilityPermission.t;
  application : DesktopApplicationObservation.t;
  window : DesktopWindowObservation.t;
  focused_element_key : option str;
  elements : list DriverElement.t;
  screenshot : option RedactedScreenshotReceipt.t;
}.
End DriverObservation.

Module ResolvedDriverTarget.
Record t : Type := mk {
  element_key : str;
  role : str;
  secure : bool;
  in_modal : bool;
  geometry : option ElementGeometry.t;
}.
End ResolvedDriverTarget.

(** The token keeps the two counters it watches by name: the session's
    cancellation epoch (its [session_id]) and the physical-input epoch. *)
Module DriverCancellationToken.
Record t : Type := mk {
  epoch_of : str;
  expected : Z;
  physical_input_epoch : option Z;
}.
(** [cancelled], given the two counters as they now stand. *)
Definition cancelled (tok : t) (session_epoch input_epoch : Z) : bool :=
  negb (session_epoch =? expected tok)
  || match physical_input_epoch tok with
     | Some e => negb (input_epoch =? e)
     | None => false
     end.
End DriverCancellationToken.

Module DriverActionRequest.
Record t : Type := mk {
  session_id : str;
  project_id : str;
  task_run_id : str;
  application : DesktopApplicationObservation.t;
  window : DesktopWindowObservation.t;
  action : DesktopSemanticAction.t;
  expected_outcome : ExpectedOutcomeKind.t;
  targets : list ResolvedDriverTarget.t;
  selected_file : option PathBuf;
  cancellation : DriverCancellationToken.t;
}.
End DriverActionRequest.

Module DriverActionResult.
Record t : Type := mk {
  receipt_token : str;
  postcondition : ObservedPostcondition.t;
}.
End DriverActionResult.

(** ** Decidable equality *)
#[export] Instance AppControlState_eq_dec : EqDecision AppControlState.t.
Proof. solve_decision. Defined.
#[export] Instance DesktopActionKind_eq_dec : EqDecision DesktopActionKind.t.
Proof. solve_decision. Defined.
#[export] Instance AppControlPauseReason_eq_dec : EqDecision AppControlPauseReason.t.
Proof. solve_decision. Defined.
#[export] Instance AccessibilityPermission_eq_dec : EqDecision AccessibilityPermission.t.
Proof. solve_decision. Defined.
#[export] Instance ExpectedOutcomeKind_eq_dec : EqDecision ExpectedOutcomeKind.t.
Proof. solve_decision. Defined.
#[export] Instance AppControlOutcomeStatus_eq_dec : EqDecision AppControlOutcomeStatus.t.
Proof. solve_decision. Defined.
#[export] Instance QualifiedMenuCommand_eq_dec : EqDecision QualifiedMenuCommand.t.
Proof. solve_decision. Defined.
