(* ===== verification/CuPolicy.v ===== *)
(** * Guarded app control: application profiles, adapters, authority, file scope

    Models [computer_use/policy.rs].  The reviewed-scope store
    [crate::approval_scopes::authorize] is an argument of [evaluate]; the file
    system is an argument of the [ScopedFileRoots] operations. *)
From S2P Require Import Prelude RustStr P0Contracts CuContracts.
Local Open Scope Z_scope.

(** A Rust string constant in a comparison. *)
Definition is_lit (s : str) (l : string) : bool := str_eqb s (lit l).
Arguments is_lit s l%_string.

Definition BROWSER_BUNDLES : list str :=
  [lit "com.apple.Safari"; lit "com.google.Chrome"; lit "com.microsoft.edgemac";
   lit "org.mozilla.firefox"; lit "com.brave.Browser"].

Module ApplicationQualification.
Inductive t : Type := Qualified | ObservationOnly | Browser.
End ApplicationQualification.
#[export] Instance ApplicationQualification_eq_dec : EqDecision ApplicationQualification.t.
Proof. solve_decision. Defined.

Module DesktopAppProfile.
Record t : Type := mk {
  qualification : ApplicationQualification.t;
  display_name : str;
  icon : QualifiedAppIcon.t;
  allowed_actions : list DesktopActionKind.t;
}.
End DesktopAppProfile.

Section Profiles.
Import DesktopActionKind.

Definition qualified (name : string) (icon : QualifiedAppIcon.t)
    (allowed : list DesktopActionKind.t) : DesktopAppProfile.t :=
  DesktopAppProfile.mk ApplicationQualification.Qualified (lit name) icon allowed.

Definition app_profile (bundle_id reported_name : str) : DesktopAppProfile.t :=
  if existsb (str_eqb bundle_id) BROWSER_BUNDLES then
    DesktopAppProfile.mk ApplicationQualification.Browser reported_name
      QualifiedAppIcon.Generic []
  else if is_lit bundle_id "com.apple.finder" then
    qualified "Finder" QualifiedAppIcon.Finder
      [Focus; Press; Select; InvokeMenu; Scroll; DragDrop; AppleEvent]
  else if is_lit bundle_id "com.apple.Preview" then
    qualified "Preview" QualifiedAppIcon.Preview
      [Focus; Press; Select; InvokeMenu; Scroll; ChooseFile; AppleEvent]
  else if is_lit bundle_id "com.apple.mail" then
    qualified "Mail" QualifiedAppIcon.Mail
      [Focus; Press; Select; TypeText; InvokeMenu; Scroll; AppleEvent]
  else if is_lit bundle_id "com.apple.iCal" then
    qualified "Calendar" QualifiedAppIcon.Calendar
      [Focus; Press; Select; TypeText; InvokeMenu; Scroll; AppleEvent]
  else if is_lit bundle_id "com.apple.Numbers" then
    qualified "Numbers" QualifiedAppIcon.Numbers
      [Focus; Press; Select; TypeText; InvokeMenu; Scroll; ChooseFile; AppleEvent]
  else if is_lit bundle_id "com.apple.Keynote" then
    qualified "Keynote" QualifiedAppIcon.Keynote
      [Focus; Press; Select; TypeText; InvokeMenu; Scroll; ChooseFile; AppleEvent]
  else if is_lit bundle_id "com.microsoft.Excel" then
    qualified "Excel" QualifiedAppIcon.Excel
      [Focus; Press; Select; TypeText; InvokeMenu; Scroll; ChooseFile; AppleEvent]
  else if is_lit bundle_id "com.microsoft.Powerpoint" then
    qualified "PowerPoint" QualifiedAppIcon.Powerpoint
      [Focus; Press; Select; TypeText; InvokeMenu; Scroll; ChooseFile; AppleEvent]
  else
    DesktopAppProfile.mk ApplicationQualification.ObservationOnly
      (take 120 reported_name) QualifiedAppIcon.Generic [].
End Profiles.
Arguments qualified name%_string icon allowed.

Definition file_chooser_bundle (bundle_id : str) : bool :=
  is_lit bundle_id "com.apple.Preview" || is_lit bundle_id "com.apple.Numbers"
  || is_lit bundle_id "com.apple.Keynote" || is_lit bundle_id "com.microsoft.Excel"
  || is_lit bundle_id "com.microsoft.Powerpoint".

Definition validate_typed_adapter (bundle_id : str) (action : DesktopSemanticAction.t)
  : AppControlResult unit :=
  let profile := app_profile bundle_id bundle_id in
  if bool_decide (DesktopAppProfile.qualification profile = ApplicationQualification.Browser)
  then Err (err AppControlErrorCode.BrowserRouteRequired
              "Browser work must use the guarded browser runtime.")
  else if bool_decide (DesktopAppProfile.qualification profile
                       <> ApplicationQualification.Qualified)
  then Err (err AppControlErrorCode.ObservationOnlyApplication
              "This application is observation-only until a reviewed adapter is available.")
  else if negb (bool_decide (DesktopSemanticAction.kind action
                             ∈ DesktopAppProfile.allowed_actions profile))
  then Err (err AppControlErrorCode.InvalidRequest
              "That semantic action is not qualified for this application.")
  else if match action with
          | DesktopSemanticAction.InvokeMenu QualifiedMenuCommand.Export => true
          | _ => false
          end
  then Err (err AppControlErrorCode.InvalidRequest
              "Export is observation-only until an app-specific adapter is installed.")
  else if match action with DesktopSemanticAction.DragDrop _ _ => true | _ => false end
          && negb (is_lit bundle_id "com.apple.finder")
  then Err (err AppControlErrorCode.InvalidRequest
              "Drag and drop is qualified only for Finder.")
  else if DesktopSemanticAction.is_choose_file action
          && negb (file_chooser_bundle bundle_id)
  then Err (err AppControlErrorCode.InvalidRequest
              "File selection is not qualified for this application.")
  else match action with
       | DesktopSemanticAction.AppleEvent command =>
           match command with QualifiedAppleEvent.ActivateApplication => Ok tt end
       | _ => Ok tt
       end.

Definition validate_expected_outcome (action : DesktopSemanticAction.t)
    (expected : ExpectedOutcomeKind.t) : AppControlResult unit :=
  let qualified :=
    match action, expected with
    | DesktopSemanticAction.Focus _, ExpectedOutcomeKind.ElementState => true
    | (DesktopSemanticAction.Select _ _ | DesktopSemanticAction.TypeText _ _),
      ExpectedOutcomeKind.ElementValue => true
    | DesktopSemanticAction.Press _,
      (ExpectedOutcomeKind.ElementState | ExpectedOutcomeKind.WindowState
       | ExpectedOutcomeKind.ApplicationState) => true
    | DesktopSemanticAction.InvokeMenu _,
      (ExpectedOutcomeKind.WindowState | ExpectedOutcomeKind.ApplicationState) => true
    | DesktopSemanticAction.Scroll _ _, ExpectedOutcomeKind.ApplicationState => true
    | DesktopSemanticAction.DragDrop _ _, ExpectedOutcomeKind.ApplicationState => true
    | DesktopSemanticAction.ChooseFile _ _, ExpectedOutcomeKind.WindowState => true
    | DesktopSemanticAction.AppleEvent _, ExpectedOutcomeKind.ApplicationState => true
    | _, _ => false
    end in
  if qualified then Ok tt
  else Err (err AppControlErrorCode.InvalidRequest
              "The requested result does not match the qualified app action.").

(** ** Authority *)
Module AuthorityRequest.
Record t : Type := mk {
  project_id : str;
  task_run_id : str;
  session_id : str;
  bundle_id : str;
  action_kind : DesktopActionKind.t;
  action_arguments_hash : str;
  will_change_data : bool;
}.
End AuthorityRequest.

Module AuthorityDecision.
Record t : Type := mk { authorized : bool; decision_id : str }.
End AuthorityDecision.

Module DesktopApprovalBinding.
Record t : Type := mk {
  principal : str;
  action_class : str;
  canonical_resource : str;
  argument_class : str;
}.
End DesktopApprovalBinding.

(** [format!("{:?}", request.action_kind)] *)
Definition action_kind_debug (k : DesktopActionKind.t) : str :=
  match k with
  | DesktopActionKind.Focus => lit "Focus"
  | DesktopActionKind.Press => lit "Press"
  | DesktopActionKind.Select => lit "Select"
  | DesktopActionKind.TypeText => lit "TypeText"
  | DesktopActionKind.InvokeMenu => lit "InvokeMenu"
  | DesktopActionKind.Scroll => lit "Scroll"
  | DesktopActionKind.DragDrop => lit "DragDrop"
  | DesktopActionKind.ChooseFile => lit "ChooseFile"
  | DesktopActionKind.AppleEvent => lit "AppleEvent"
  end.

Definition approval_binding (request : AuthorityRequest.t) : DesktopApprovalBinding.t :=
  DesktopApprovalBinding.mk (lit "local_principal") (lit "app_control")
    (to_ascii_lowercase (AuthorityRequest.bundle_id request ++ lit "/"
       ++ action_kind_debug (AuthorityRequest.action_kind request)))
    (lit "exact:" ++ AuthorityRequest.action_arguments_hash request).

Definition direct_approval_key (request : AuthorityRequest.t) : str :=
  AuthorityRequest.project_id request ++ lit ":"
  ++ AuthorityRequest.task_run_id request ++ lit ":"
  ++ AuthorityRequest.session_id request ++ lit ":"
  ++ AuthorityRequest.bundle_id request ++ lit ":"
  ++ AuthorityRequest.action_arguments_hash request.

Section ReviewedScopeDesktopAuthority.
Context (sha256 : list Z -> list Z).
(** [approval_scopes::authorize(engine, principal, project, task, class,
    resource, arguments, 1)]: [None] is a store error. *)
Context (scopes_authorize : str -> str -> str -> str -> str -> str -> option bool).

(** The registry of direct approvals is a set of keys; [evaluate] removes the
    request's key, so a direct approval is good for one use. *)
Definition evaluate (direct_approvals : gset str) (request : AuthorityRequest.t)
  : gset str * AppControlResult AuthorityDecision.t :=
  let binding := approval_binding request in
  let key := direct_approval_key request in
  let direct := bool_decide (key ∈ direct_approvals) in
  let direct_approvals' := direct_approvals ∖ {[key]} in
  let authorized : AppControlResult bool :=
    if direct then Ok true
    else ok_or (err AppControlErrorCode.Unauthorized
                  "App control could not verify the reviewed Task approval.")
           (scopes_authorize (DesktopApprovalBinding.principal binding)
              (AuthorityRequest.project_id request)
              (AuthorityRequest.task_run_id request)
              (DesktopApprovalBinding.action_class binding)
              (DesktopApprovalBinding.canonical_resource binding)
              (DesktopApprovalBinding.argument_class binding)) in
  (direct_approvals',
   authorized ← authorized;
   let digest := sha256 (as_bytes
     (AuthorityRequest.task_run_id request ++ lit ":"
      ++ DesktopApprovalBinding.canonical_resource binding ++ lit ":"
      ++ DesktopApprovalBinding.argument_class binding ++ lit ":"
      ++ (if authorized : bool then lit "true" else lit "false"))) in
   Ok (AuthorityDecision.mk authorized
         (lit "appauthority_" ++ take 32 (hex_encode digest)))).

Definition register_direct_approval (direct_approvals : gset str)
    (request : AuthorityRequest.t) : gset str :=
  {[direct_approval_key request]} ∪ direct_approvals.
End ReviewedScopeDesktopAuthority.

(** ** File scope *)
Module ScopedFileRoots.
Record t : Type := mk { roots : list path; granted_files : gmap str path }.
End ScopedFileRoots.

Definition file_scope_error (message : string) : AppControlError.t :=
  err AppControlErrorCode.FileScopeViolation message.
Arguments file_scope_error message%_string.

Definition valid_file_grant_id (value : str) : bool :=
  match strip_prefix (lit "appfile_") value with
  | Some suffix => (str_len suffix =? 48) && forallb is_lower_hex (as_bytes suffix)
  | None => false
  end.

Section FileScope.
Context (fs : FileSystem).

Definition canonical_root (canonical : list path) (root : path)
  : AppControlResult (list path) :=
  path ← ok_or (file_scope_error "An approved file root is unavailable.")
           (canonicalize fs root);
  if negb (is_dir fs path) || negb (bool_decide (is_Some (parent path)))
  then Err (file_scope_error "File roots must be specific existing folders.")
  else Ok (if bool_decide (path ∈ canonical) then canonical else canonical ++ [path]).

Definition scoped_file_roots_new (roots : list path)
  : AppControlResult ScopedFileRoots.t :=
  if Nat.ltb 16 (length roots)
  then Err (file_scope_error "Too many file roots were requested.")
  else
    canonical ← for_fold canonical_root [] roots;
    Ok (ScopedFileRoots.mk canonical ∅).

Definition add_granted_file (self : ScopedFileRoots.t) (grant_id : str)
    (selected_file : path) : AppControlResult ScopedFileRoots.t :=
  if Nat.leb 16 (size (ScopedFileRoots.granted_files self))
     || negb (valid_file_grant_id grant_id)
  then Err (file_scope_error "The selected file grant is invalid.")
  else
    canonical ← ok_or (file_scope_error "The selected file is unavailable.")
                  (canonicalize fs selected_file);
    if negb (is_file fs canonical)
    then Err (file_scope_error "The selected item must be a file.")
    else
      _ ← ok_or (file_scope_error "The selected file folder is too broad.")
            (parent canonical ≫= parent);
      Ok (ScopedFileRoots.mk (ScopedFileRoots.roots self)
            (<[grant_id := canonical]> (ScopedFileRoots.granted_files self))).

Definition canonical_granted_file (self : ScopedFileRoots.t) (grant_id : str)
  : AppControlResult path :=
  selected ← ok_or (file_scope_error "The selected file grant is unavailable.")
               (ScopedFileRoots.granted_files self !! grant_id);
  canonical ← ok_or (file_scope_error "The selected file is unavailable.")
                (canonicalize fs selected);
  if bool_decide (canonical = selected) && is_file fs canonical
  then Ok canonical
  else Err (file_scope_error
              "The selected file is outside the Task's approved folders.").

Definition canonical_file (self : ScopedFileRoots.t) (p : path)
  : AppControlResult path :=
  canonical ← ok_or (file_scope_error "The selected file is unavailable.")
                (canonicalize fs p);
  if existsb (fun root => path_starts_with root canonical) (ScopedFileRoots.roots self)
     && is_file fs canonical
  then Ok canonical
  else Err (file_scope_error
              "The selected file is outside the Task's approved folders.").
End FileScope.

Definition granted_file_name (self : ScopedFileRoots.t) (grant_id : str) : option str :=
  path ← ScopedFileRoots.granted_files self !! grant_id;
  name ← file_name path;
  Some (take 120 name).

(** ** What an accepted request satisfies *)
Lemma validate_typed_adapter_Ok bundle_id action :
  validate_typed_adapter bundle_id action = Ok tt ->
  let profile := app_profile bundle_id bundle_id in
  DesktopAppProfile.qualification profile = ApplicationQualification.Qualified
  /\ DesktopSemanticAction.kind action ∈ DesktopAppProfile.allowed_actions profile.
Proof.
  unfold validate_typed_adapter. cbn zeta.
  case_bool_decide; [done|]. case_bool_decide as Hq; [done|].
  destruct (negb _) eqn:Hk; [done|]. intros _. split_bools. split; [|done].
  by destruct (decide (DesktopAppProfile.qualification (app_profile bundle_id bundle_id)
                       = ApplicationQualification.Qualified)).
Qed.

Lemma canonical_granted_file_Ok fs roots grant_id p :
  canonical_granted_file fs roots grant_id = Ok p <->
  ScopedFileRoots.granted_files roots !! grant_id = Some p
  /\ canonicalize fs p = Some p /\ is_file fs p = true.
Proof.
  unfold canonical_granted_file. split.
  - intros H. inv_res. destruct (_ && _) eqn:Hc; [|done]. split_bools. simplify_eq. done.
  - intros (Hg & Hc & Hf). rewrite Hg. simpl. rewrite Hc. simpl.
    by rewrite bool_decide_true, Hf.
Qed.

(** A scoped file lies, after canonicalisation, below one of the session's
    folders, compared component by component. *)
Lemma canonical_file_Ok fs roots p q :
  canonical_file fs roots p = Ok q <->
  canonicalize fs p = Some q /\ is_file fs q = true
  /\ exists root rest, root ∈ ScopedFileRoots.roots roots /\ q = root ++ rest.
Proof.
  unfold canonical_file. rewrite bind_Ok. split.
  - intros (c & Hc%ok_or_Ok & H). destruct (_ && _) eqn:He; [|done]. simplify_eq.
    apply andb_true_iff in He as [(root & Hin & Hr)%existsb_exists Hf].
    apply path_starts_with_spec in Hr as [rest ->].
    apply list_elem_of_In in Hin. eauto 10.
  - intros (Hc & Hf & root & rest & Hin & ->). exists (root ++ rest).
    rewrite ok_or_Ok. split; [done|]. rewrite Hf, andb_true_r.
    replace (existsb _ _) with true; [done|]. symmetry. apply existsb_exists.
    exists root. split; [by apply list_elem_of_In|]. apply path_starts_with_spec. eauto.
Qed.

Lemma canonical_root_Ok fs canonical root canonical' :
  canonical_root fs canonical root = Ok canonical' ->
  exists p, canonicalize fs root = Some p /\ is_dir fs p = true /\ is_Some (parent p)
    /\ canonical' = if bool_decide (p ∈ canonical) then canonical else canonical ++ [p].
Proof.
  unfold canonical_root. intros H. inv_res.
  destruct (_ || _) eqn:Hc; [done|]. split_bools. exists x.
  repeat split; [done..|]. by injection H.
Qed.
