(* ===== verification/CuState.v ===== *)
(** * Guarded app control: reference vault, session records, shared state

    Models [computer_use/references.rs], [computer_use/state.rs] and the data of
    [computer_use/manager.rs].  The [Arc<AtomicU64>] cancellation epoch of a
    session is a field of its record; tokens name it by the session. *)
From S2P Require Import Prelude RustStr P0Contracts CuContracts CuPolicy.
Local Open Scope Z_scope.

(** ** References *)
Module ReferenceContext.
Record t : Type := mk {
  session_id : str;
  project_id : str;
  task_run_id : str;
  bundle_id : str;
  process_id : Z;
  window_id : str;
  revision : Z;
  generation : Z;
  now_ms : Z;
}.
End ReferenceContext.

Module ReferenceBinding.
Record t : Type := mk {
  session_id : str;
  project_id : str;
  task_run_id : str;
  bundle_id : str;
  process_id : Z;
  window_id : str;
  revision : Z;
  generation : Z;
  expires_at_ms : Z;
  target : ResolvedDriverTarget.t;
  visible : bool;
  enabled : bool;
  in_modal : bool;
  supported_actions : list DesktopActionKind.t;
}.
End ReferenceBinding.

Notation ReferenceVault := (gmap str ReferenceBinding.t).

Definition stale_reference : AppControlError.t :=
  err AppControlErrorCode.StaleReference
    "The screen changed; a fresh observation is required.".

(** [opaque_id(prefix)], from its 24 random bytes. *)
Definition opaque_id (prefix : str) (random : list Z) : str :=
  prefix ++ [95] ++ hex_encode random.

Definition invalidate_session (session_id : str) (bindings : ReferenceVault)
  : ReferenceVault :=
  filter (fun kb => ReferenceBinding.session_id kb.2 <> session_id) bindings.

Definition issue (random : list Z) (context : ReferenceContext.t)
    (element : DriverElement.t) (expires_at_ms : Z) (bindings : ReferenceVault)
  : ReferenceVault * DesktopObservedElement.t :=
  let reference := opaque_id (lit "appref") random in
  let element_key := DriverElement.element_key element in
  let target := ResolvedDriverTarget.mk element_key (DriverElement.role element)
                  (DriverElement.secure element) (DriverElement.in_modal element)
                  (DriverElement.geometry element) in
  (<[reference := ReferenceBinding.mk
       (ReferenceContext.session_id context) (ReferenceContext.project_id context)
       (ReferenceContext.task_run_id context) (ReferenceContext.bundle_id context)
       (ReferenceContext.process_id context) (ReferenceContext.window_id context)
       (ReferenceContext.revision context) (ReferenceContext.generation context)
       expires_at_ms target (DriverElement.visible element)
       (DriverElement.enabled element) (DriverElement.in_modal element)
       (DriverElement.supported_actions element)]> bindings,
   DesktopObservedElement.mk element_key reference (DriverElement.role element)
     (option_map (take 240) (DriverElement.label element))
     (if DriverElement.secure element then None else DriverElement.value_digest element)
     (DriverElement.secure element) (DriverElement.visible element)
     (DriverElement.enabled element) (DriverElement.in_modal element)
     (DriverElement.supported_actions element) (DriverElement.geometry element)
     expires_at_ms).

Definition resolve (bindings : ReferenceVault) (reference : str)
    (action : DesktopActionKind.t) (modal : bool) (context : ReferenceContext.t)
  : AppControlResult ResolvedDriverTarget.t :=
  binding ← ok_or stale_reference (bindings !! reference);
  if negb (str_eqb (ReferenceBinding.bundle_id binding) (ReferenceContext.bundle_id context))
     || negb (ReferenceBinding.process_id binding =? ReferenceContext.process_id context)
     || negb (str_eqb (ReferenceBinding.window_id binding) (ReferenceContext.window_id context))
  then Err (err AppControlErrorCode.CrossApplicationReference
              "The target belongs to a different app, process, or window.")
  else if negb (str_eqb (ReferenceBinding.session_id binding)
                  (ReferenceContext.session_id context))
     || negb (str_eqb (ReferenceBinding.project_id binding)
                (ReferenceContext.project_id context))
     || negb (str_eqb (ReferenceBinding.task_run_id binding)
                (ReferenceContext.task_run_id context))
  then Err (err AppControlErrorCode.TaskBindingMismatch
              "The target is not bound to this Task session.")
  else if negb (ReferenceBinding.revision binding =? ReferenceContext.revision context)
     || negb (ReferenceBinding.generation binding =? ReferenceContext.generation context)
     || (ReferenceBinding.expires_at_ms binding <? ReferenceContext.now_ms context)
  then Err stale_reference
  else if ResolvedDriverTarget.secure (ReferenceBinding.target binding)
  then Err (err AppControlErrorCode.SecureField "Protected fields require human control.")
  else if negb (ReferenceBinding.visible binding) || negb (ReferenceBinding.enabled binding)
  then Err (err AppControlErrorCode.AmbiguousTarget "The target is not visibly actionable.")
  else if modal && negb (ReferenceBinding.in_modal binding)
  then Err (err AppControlErrorCode.AmbiguousTarget
              "A modal window changed the available target.")
  else if negb (bool_decide (action ∈ ReferenceBinding.supported_actions binding))
  then Err (err AppControlErrorCode.AmbiguousTarget
              "The target does not support the requested semantic action.")
  else if bool_decide (action = DesktopActionKind.DragDrop)
          && bool_decide (ResolvedDriverTarget.geometry (ReferenceBinding.target binding) = None)
  then Err (err AppControlErrorCode.AmbiguousTarget
              "Drag and drop requires fresh visible target bounds.")
  else Ok (ReferenceBinding.target binding).

(** ** Shared state *)
Definition TERMINAL_STATUS_GRACE_MS : Z := 15000.
Definition FILE_GRANT_TTL_MS : Z := 10 * 60 * 1000.

Module PendingFileGrant.
Record t : Type := mk {
  project_id : str;
  task_run_id : str;
  canonical_file : path;
  expires_at_ms : Z;
}.
End PendingFileGrant.

Module SessionRecord.
Record t : Type := mk {
  session_id : str;
  project_id : str;
  task_run_id : str;
  approved_bundle_ids : gset str;
  file_roots : ScopedFileRoots.t;
  state : AppControlState.t;
  generation : Z;
  revision : Z;
  current_action : option AppControlActionView.t;
  pause_reason : option AppControlPauseReason.t;
  last_outcome : option AppControlOutcomeView.t;
  last_observation : option DesktopObservation.t;
  updated_at_ms : Z;
  cancellation_epoch : Z;
  mismatch_count : Z;
}.

(** Assignments to one field. *)
Definition set_state v s :=
  mk (session_id s) (project_id s) (task_run_id s) (approved_bundle_ids s)
     (file_roots s) v (generation s) (revision s) (current_action s)
     (pause_reason s) (last_outcome s) (last_observation s) (updated_at_ms s)
     (cancellation_epoch s) (mismatch_count s).
Definition set_generation v s :=
  mk (session_id s) (project_id s) (task_run_id s) (approved_bundle_ids s)
     (file_roots s) (state s) v (revision s) (current_action s)
     (pause_reason s) (last_outcome s) (last_observation s) (updated_at_ms s)
     (cancellation_epoch s) (mismatch_count s).
Definition set_revision v s :=
  mk (session_id s) (project_id s) (task_run_id s) (approved_bundle_ids s)
     (file_roots s) (state s) (generation s) v (current_action s)
     (pause_reason s) (last_outcome s) (last_observation s) (updated_at_ms s)
     (cancellation_epoch s) (mismatch_count s).
Definition set_current_action v s :=
  mk (session_id s) (project_id s) (task_run_id s) (approved_bundle_ids s)
     (file_roots s) (state s) (generation s) (revision s) v
     (pause_reason s) (last_outcome s) (last_observation s) (updated_at_ms s)
     (cancellation_epoch s) (mismatch_count s).
Definition set_pause_reason v s :=
  mk (session_id s) (project_id s) (task_run_id s) (approved_bundle_ids s)
     (file_roots s) (state s) (generation s) (revision s) (current_action s)
     v (last_outcome s) (last_observation s) (updated_at_ms s)
     (cancellation_epoch s) (mismatch_count s).
Definition set_last_outcome v s :=
  mk (session_id s) (project_id s) (task_run_id s) (approved_bundle_ids s)
     (file_roots s) (state s) (generation s) (revision s) (current_action s)
     (pause_reason s) v (last_observation s) (updated_at_ms s)
     (cancellation_epoch s) (mismatch_count s).
Definition set_last_observation v s :=
  mk (session_id s) (project_id s) (task_run_id s) (approved_bundle_ids s)
     (file_roots s) (state s) (generation s) (revision s) (current_action s)
     (pause_reason s) (last_outcome s) v (updated_at_ms s)
     (cancellation_epoch s) (mismatch_count s).
Definition set_updated_at_ms v s :=
  mk (session_id s) (project_id s) (task_run_id s) (approved_bundle_ids s)
     (file_roots s) (state s) (generation s) (revision s) (current_action s)
     (pause_reason s) (last_outcome s) (last_observation s) v
     (cancellation_epoch s) (mismatch_count s).
Definition set_cancellation_epoch v s :=
  mk (session_id s) (project_id s) (task_run_id s) (approved_bundle_ids s)
     (file_roots s) (state s) (generation s) (revision s) (current_action s)
     (pause_reason s) (last_outcome s) (last_observation s) (updated_at_ms s)
     v (mismatch_count s).
Definition set_mismatch_count v s :=
  mk (session_id s) (project_id s) (task_run_id s) (approved_bundle_ids s)
     (file_roots s) (state s) (generation s) (revision s) (current_action s)
     (pause_reason s) (last_outcome s) (last_observation s) (updated_at_ms s)
     (cancellation_epoch s) v.
End SessionRecord.

Module ManagerState.
Record t : Type := mk {
  sessions : gmap str SessionRecord.t;
  references : ReferenceVault;
  receipts : gmap str DesktopOutcomeReceipt.t;
  active_session_id : option str;
  pending_file_grants : gmap str PendingFileGrant.t;
}.
(** [ManagerState::default()] *)
Definition default : t := mk ∅ ∅ ∅ None ∅.

Definition set_sessions v m :=
  mk v (references m) (receipts m) (active_session_id m) (pending_file_grants m).
Definition set_references v m :=
  mk (sessions m) v (receipts m) (active_session_id m) (pending_file_grants m).
Definition set_receipts v m :=
  mk (sessions m) (references m) v (active_session_id m) (pending_file_grants m).
Definition set_active_session_id v m :=
  mk (sessions m) (references m) (receipts m) v (pending_file_grants m).
Definition set_pending_file_grants v m :=
  mk (sessions m) (references m) (receipts m) (active_session_id m) v.
End ManagerState.

(** ** Errors *)
Definition invalid_request (message : str) : AppControlError.t :=
  AppControlError.new AppControlErrorCode.InvalidRequest message.
Definition session_not_found : AppControlError.t :=
  err AppControlErrorCode.SessionNotFound "The app control session was not found.".
Definition not_running : AppControlError.t :=
  err AppControlErrorCode.NotRunning
    "This app control session is not ready to run an action.".

(** ** Session helpers *)
Definition is_pausable (s : AppControlState.t) : bool :=
  match s with
  | AppControlState.Observing | AppControlState.Running
  | AppControlState.ReturnPending => true
  | _ => false
  end.

Definition session_view (session : SessionRecord.t) : AppControlSessionView.t :=
  let application := option_map (fun observation =>
      let app := DesktopObservation.application observation in
      let profile := app_profile (DesktopApplicationObservation.bundle_id app)
                       (DesktopApplicationObservation.display_name app) in
      AppControlApplicationView.mk (DesktopAppProfile.display_name profile)
        (DesktopAppProfile.icon profile))
    (SessionRecord.last_observation session) in
  AppControlSessionView.mk
    (SessionRecord.session_id session) (SessionRecord.task_run_id session)
    (SessionRecord.project_id session) (SessionRecord.state session)
    application (SessionRecord.current_action session)
    (SessionRecord.pause_reason session)
    (is_pausable (SessionRecord.state session))
    match SessionRecord.state session with
    | AppControlState.Observing | AppControlState.Running | AppControlState.Paused => true
    | _ => false
    end
    match SessionRecord.state session with
    | AppControlState.Takeover | AppControlState.Paused => true
    | _ => false
    end
    (SessionRecord.generation session) (SessionRecord.last_outcome session)
    (SessionRecord.updated_at_ms session).

Definition invalidate_generation (session : SessionRecord.t)
    (references : ReferenceVault) (now : Z) : SessionRecord.t * ReferenceVault :=
  let session := SessionRecord.set_generation
    (saturating_add_u64 (SessionRecord.generation session) 1) session in
  let session := SessionRecord.set_cancellation_epoch
    (wrapping_add_u64 (SessionRecord.cancellation_epoch session) 1) session in
  let session := SessionRecord.set_current_action None session in
  let session := SessionRecord.set_updated_at_ms now session in
  (session, invalidate_session (SessionRecord.session_id session) references).

Definition pause_session (session : SessionRecord.t) (references : ReferenceVault)
    (now : Z) (reason : AppControlPauseReason.t) : SessionRecord.t * ReferenceVault :=
  let '(session, references) := invalidate_generation session references now in
  let session := SessionRecord.set_state AppControlState.Paused session in
  (SessionRecord.set_pause_reason (Some reason) session, references).

Definition require_task (session : SessionRecord.t) (task_run_id : str)
  : AppControlResult unit :=
  if str_eqb (SessionRecord.task_run_id session) task_run_id then Ok tt
  else Err (err AppControlErrorCode.TaskBindingMismatch
              "This app control session belongs to a different Task.").

Definition ensure_generation (state : ManagerState.t) (session_id task_run_id : str)
    (generation : Z) (revision : option Z) : AppControlResult unit :=
  session ← ok_or session_not_found (ManagerState.sessions state !! session_id);
  _ ← require_task session task_run_id;
  if negb (SessionRecord.generation session =? generation)
     || match revision with
        | Some value => negb (SessionRecord.revision session =? value)
        | None => false
        end
  then Err stale_reference
  else Ok tt.

Definition valid_bundle_id (value : str) : bool :=
  negb (is_empty value) && (str_len value <=? 255) && is_ascii value
  && Nat.leb 2 (length (split_char 46 value))
  && forallb (fun byte => is_ascii_alphanumeric byte || existsb (Z.eqb byte) [46; 45; 95])
       (as_bytes value).

(** ** What resolving a reference guarantees *)
Record resolvable (b : ReferenceBinding.t) (action : DesktopActionKind.t) (modal : bool)
    (context : ReferenceContext.t) : Prop := {
  resolvable_bundle : ReferenceBinding.bundle_id b = ReferenceContext.bundle_id context;
  resolvable_process : ReferenceBinding.process_id b = ReferenceContext.process_id context;
  resolvable_window : ReferenceBinding.window_id b = ReferenceContext.window_id context;
  resolvable_session : ReferenceBinding.session_id b = ReferenceContext.session_id context;
  resolvable_project : ReferenceBinding.project_id b = ReferenceContext.project_id context;
  resolvable_task : ReferenceBinding.task_run_id b = ReferenceContext.task_run_id context;
  resolvable_revision : ReferenceBinding.revision b = ReferenceContext.revision context;
  resolvable_generation :
    ReferenceBinding.generation b = ReferenceContext.generation context;
  resolvable_fresh : ReferenceContext.now_ms context <= ReferenceBinding.expires_at_ms b;
  resolvable_insecure : ResolvedDriverTarget.secure (ReferenceBinding.target b) = false;
  resolvable_visible : ReferenceBinding.visible b = true;
  resolvable_enabled : ReferenceBinding.enabled b = true;
  resolvable_modal : modal = true -> ReferenceBinding.in_modal b = true;
  resolvable_action : action ∈ ReferenceBinding.supported_actions b;
  resolvable_geometry :
    action = DesktopActionKind.DragDrop ->
    ResolvedDriverTarget.geometry (ReferenceBinding.target b) <> None;
}.

Lemma resolve_Ok_inv vault reference action modal context target :
  resolve vault reference action modal context = Ok target ->
  exists b, vault !! reference = Some b /\ resolvable b action modal context
    /\ target = ReferenceBinding.target b.
Proof.
  unfold resolve. intros H. inv_res. rename x into b. exists b.
  repeat lazymatch type of H with
    | (if ?c then _ else _) = _ => let E := fresh "E" in destruct c eqn:E; [discriminate H|]
    end.
  injection H as <-. split_bools.
  repeat match goal with
    | H : str_eqb _ _ = true |- _ => apply str_eqb_eq in H
    | H : (_ =? _) = true |- _ => apply Z.eqb_eq in H
    | H : (_ <? _) = false |- _ => apply Z.ltb_ge in H
    | H : _ && _ = false |- _ => apply andb_false_iff in H
    end.
  split; [done|]. split; [|done]. constructor; try done.
  - intros ->. by destruct E4 as [|Hm%negb_false_iff].
  - intros -> Hnone. destruct E6 as [Hm|Hm]; apply bool_decide_eq_false in Hm; done.
Qed.
