(* ===== verification/CuVerification.v ===== *)
(** * Guarded app control: action normalisation, hashing, postconditions

    Models [computer_use/verification.rs].  [serde_json::to_vec] on each document
    the engine hashes and [Sha256::digest] are parameters. *)
From S2P Require Import Prelude RustStr P0Contracts CuContracts CuPolicy CuState.
Local Open Scope Z_scope.

(** What [semantic_observation_hash] keeps of an element: not its reference,
    not its expiry. *)
Module SemanticElement.
Record t : Type := mk {
  key : str;
  role : str;
  label : option str;
  value_digest : option str;
  secure : bool;
  visible : bool;
  enabled : bool;
  in_modal : bool;
  supported_actions : list DesktopActionKind.t;
  geometry : option ElementGeometry.t;
}.
Definition of_element (e : DesktopObservedElement.t) : t :=
  mk (DesktopObservedElement.element_key e) (DesktopObservedElement.role e)
     (DesktopObservedElement.label e) (DesktopObservedElement.value_digest e)
     (DesktopObservedElement.secure e) (DesktopObservedElement.visible e)
     (DesktopObservedElement.enabled e) (DesktopObservedElement.in_modal e)
     (DesktopObservedElement.supported_actions e) (DesktopObservedElement.geometry e).
End SemanticElement.

(** The documents handed to [serde_json]. *)
Inductive Document : Type :=
| ActionBinding (action : DesktopSemanticAction.t) (selected_file : option path)
| ObservationDoc (observation : DesktopObservation.t)
| SemanticDoc (application : DesktopApplicationObservation.t)
    (window : DesktopWindowObservation.t) (focused_key : option str)
    (elements : list SemanticElement.t)
    (screenshot : option RedactedScreenshotReceipt.t)
| PostconditionDoc (postcondition : ObservedPostcondition.t).

Definition postcondition_mismatch : AppControlError.t :=
  err AppControlErrorCode.PostconditionMismatch
    "The app did not reach the verified result required by this action.".

Definition valid_sha256 (value : str) : bool :=
  (str_len value =? 64) && forallb is_lower_hex (as_bytes value).

Definition valid_ref (value : str) : bool :=
  starts_with (lit "appref_") value && (str_len value <=? 128) && is_ascii value.

Definition require_target_key (targets : list ResolvedDriverTarget.t) (key : str)
  : AppControlResult unit :=
  ensure (existsb (fun target => str_eqb (ResolvedDriverTarget.element_key target) key) targets)
    postcondition_mismatch.

Definition find_element (key : str) (o : DesktopObservation.t)
  : option DesktopObservedElement.t :=
  List.find (fun element => str_eqb (DesktopObservedElement.element_key element) key)
    (DesktopObservation.elements o).

Definition semantic_document (o : DesktopObservation.t) : Document :=
  let focused_key :=
    reference ← DesktopObservation.focused_element o;
    element ← List.find (fun element =>
        str_eqb (DesktopObservedElement.reference element) reference)
      (DesktopObservation.elements o);
    Some (DesktopObservedElement.element_key element) in
  SemanticDoc (DesktopObservation.application o) (DesktopObservation.window o)
    focused_key (map SemanticElement.of_element (DesktopObservation.elements o))
    (DesktopObservation.screenshot o).

Section Verification.
Context (to_vec : Document -> option (list Z)) (sha256 : list Z -> list Z).

Definition hash_bytes (bytes : list Z) : str := hex_encode (sha256 bytes).

Definition hash_serializable (value : Document) : AppControlResult str :=
  match to_vec value with
  | Some bytes => Ok (hash_bytes bytes)
  | None => Err (err AppControlErrorCode.DriverFailure
                   "App control could not hash its verification evidence.")
  end.

Definition hash_action_binding (action : DesktopSemanticAction.t)
    (selected_file : option path) : AppControlResult str :=
  hash_serializable (ActionBinding action selected_file).

Definition semantic_observation_hash (o : DesktopObservation.t)
  : AppControlResult str := hash_serializable (semantic_document o).

(** [semantic_observation_hash(before)? != semantic_observation_hash(after)?] *)
Definition semantic_changed (before after : DesktopObservation.t)
  : AppControlResult bool :=
  hb ← semantic_observation_hash before;
  ha ← semantic_observation_hash after;
  Ok (negb (str_eqb hb ha)).

Section WithFs.
Context (fs : FileSystem).

Definition hash_file (p : path) : AppControlResult str :=
  bytes ← ok_or postcondition_mismatch (read_file fs p);
  Ok (hex_encode (sha256 bytes)).

Definition normalize_action (action : DesktopSemanticAction.t)
    (roots : ScopedFileRoots.t) : AppControlResult DesktopSemanticAction.t :=
  if existsb (fun value => negb (valid_ref value)) (DesktopSemanticAction.references action)
  then Err stale_reference
  else match action with
  | DesktopSemanticAction.Select reference value =>
      if is_empty value || (MAX_ACTION_TEXT_CHARS <? chars_count value)
      then Err (invalid_request (lit "The selected value is invalid."))
      else Ok (DesktopSemanticAction.Select reference value)
  | DesktopSemanticAction.TypeText reference text =>
      if MAX_ACTION_TEXT_CHARS <? chars_count text
      then Err (invalid_request (lit "The text is too long for one app action."))
      else Ok (DesktopSemanticAction.TypeText reference text)
  | DesktopSemanticAction.Scroll reference amount =>
      if (amount =? 0) || (4000 <? Z.abs amount)
      then Err (invalid_request (lit "The scroll amount is outside the safe bound."))
      else Ok (DesktopSemanticAction.Scroll reference amount)
  | DesktopSemanticAction.ChooseFile reference file_grant_id =>
      _ ← canonical_granted_file fs roots file_grant_id;
      Ok (DesktopSemanticAction.ChooseFile reference file_grant_id)
  | other => Ok other
  end.

Definition resolved_file_for_action (action : DesktopSemanticAction.t)
    (roots : ScopedFileRoots.t) : AppControlResult (option path) :=
  match action with
  | DesktopSemanticAction.ChooseFile _ file_grant_id =>
      p ← canonical_granted_file fs roots file_grant_id; Ok (Some p)
  | _ => Ok None
  end.

Definition verify_element_state (element_key state : str)
    (before after : DesktopObservation.t) : AppControlResult bool :=
  let before_element := find_element element_key before in
  after_element ← ok_or postcondition_mismatch (find_element element_key after);
  Ok (if is_lit state "focused" then
        bool_decide (DesktopObservation.focused_element after
                     = Some (DesktopObservedElement.reference after_element))
      else if is_lit state "value_changed" then
        negb (bool_decide
          ((before_element ≫= DesktopObservedElement.value_digest)
           = DesktopObservedElement.value_digest after_element))
      else false).

Definition verify_window_state (action : DesktopSemanticAction.t)
    (window_id state : str) (before after : DesktopObservation.t) : bool :=
  let bw := DesktopObservation.window before in
  let aw := DesktopObservation.window after in
  let valid_state :=
    if DesktopSemanticAction.is_choose_file action then
      is_lit state "file_selection_completed"
      && DesktopWindowObservation.modal bw && negb (DesktopWindowObservation.modal aw)
    else is_lit state "focused_window_changed" in
  negb (negb (str_eqb window_id (DesktopWindowObservation.window_id aw))
        || negb valid_state
        || str_eqb (DesktopWindowObservation.window_id bw)
             (DesktopWindowObservation.window_id aw)).

Definition verify_application_state (action : DesktopSemanticAction.t) (state : str)
    (before after : DesktopObservation.t) : AppControlResult bool :=
  let ba := DesktopObservation.application before in
  let aa := DesktopObservation.application after in
  match action with
  | DesktopSemanticAction.DragDrop _ _ =>
      if is_lit state "finder_items_changed"
         && is_lit (DesktopApplicationObservation.bundle_id ba) "com.apple.finder"
      then semantic_changed before after else Ok false
  | DesktopSemanticAction.AppleEvent _ =>
      Ok (is_lit state "application_activated"
          && str_eqb (DesktopApplicationObservation.bundle_id ba)
               (DesktopApplicationObservation.bundle_id aa)
          && (DesktopApplicationObservation.process_id ba
              =? DesktopApplicationObservation.process_id aa)
          && DesktopWindowObservation.visible (DesktopObservation.window after))
  | _ =>
      if is_lit state "accessibility_state_changed"
      then semantic_changed before after else Ok false
  end.

Definition verify_postcondition (postcondition : ObservedPostcondition.t)
    (expected : ExpectedOutcomeKind.t) (action : DesktopSemanticAction.t)
    (targets : list ResolvedDriverTarget.t) (before after : DesktopObservation.t)
    (roots : ScopedFileRoots.t) : AppControlResult (list FileHashEvidence.t) :=
  if negb (bool_decide (ObservedPostcondition.kind postcondition = expected))
  then Err postcondition_mismatch
  else match postcondition with
  | ObservedPostcondition.NoChange =>
      changed ← semantic_changed before after;
      if changed : bool then Err postcondition_mismatch else Ok []
  | ObservedPostcondition.ElementValue element_key value_sha256 =>
      _ ← require_target_key targets element_key;
      let observed := find_element element_key after
                        ≫= DesktopObservedElement.value_digest in
      if negb (valid_sha256 value_sha256)
         || negb (bool_decide (observed = Some value_sha256))
      then Err postcondition_mismatch else Ok []
  | ObservedPostcondition.ElementState element_key state =>
      _ ← require_target_key targets element_key;
      verified ← verify_element_state element_key state before after;
      if negb verified then Err postcondition_mismatch else Ok []
  | ObservedPostcondition.WindowState window_id state =>
      if verify_window_state action window_id state before after
      then Ok [] else Err postcondition_mismatch
  | ObservedPostcondition.FileHash canonical_path sha =>
      p ← canonical_file fs roots canonical_path;
      actual ← hash_file p;
      if negb (valid_sha256 sha) || negb (str_eqb actual sha)
      then Err postcondition_mismatch
      else Ok [FileHashEvidence.mk p actual]
  | ObservedPostcondition.ApplicationState state =>
      verified ← verify_application_state action state before after;
      if negb verified then Err postcondition_mismatch else Ok []
  end.
End WithFs.
End Verification.

(** ** Normalisation only filters *)
Lemma normalize_action_Ok fs action roots action' :
  normalize_action fs action roots = Ok action' -> action' = action.
Proof.
  unfold normalize_action. destruct (existsb _ _); [done|].
  destruct action; intros H; repeat case_match; inv_res; congruence.
Qed.

Lemma resolved_file_for_action_Ok fs action roots file :
  resolved_file_for_action fs action roots = Ok file ->
  match action with
  | DesktopSemanticAction.ChooseFile _ grant_id =>
      exists p, file = Some p /\ ScopedFileRoots.granted_files roots !! grant_id = Some p
  | _ => file = None
  end.
Proof.
  destruct action; intros H; simpl in H; inv_res; try done.
  rename select (canonical_granted_file _ _ _ = _) into Hc.
  apply canonical_granted_file_Ok in Hc as (? & _). eauto.
Qed.
