(* ===== verification/CuObservation.v ===== *)
(** * Guarded app control: taking in an observation

    Models [computer_use/observation.rs].  [apply_observation] mutates the shared
    state even when it fails, so it returns the state and the result. *)
From S2P Require Import Prelude RustStr P0Contracts CuContracts CuPolicy CuState CuVerification.
Local Open Scope Z_scope.

Definition malformed_elements : AppControlError.t :=
  invalid_request (lit "The accessibility element set is malformed.").

(** One turn of the loop over the elements; the state is the set of keys. *)
Definition validate_raw_element (keys : gset str) (element : DriverElement.t)
  : AppControlResult (gset str) :=
  let key := DriverElement.element_key element in
  if is_empty (trim key) || (512 <? chars_count key)
     || is_empty (trim (DriverElement.role element))
     || (120 <? chars_count (DriverElement.role element))
     || bool_decide (key ∈ keys)
  then Err malformed_elements
  else if DriverElement.secure element
          && bool_decide (is_Some (DriverElement.value_digest element))
  then Err (invalid_request
         (lit "Protected accessibility values must be redacted by the native driver."))
  else Ok ({[key]} ∪ keys).

Definition validate_raw_observation (raw : DriverObservation.t) : AppControlResult unit :=
  let app := DriverObservation.application raw in
  let window_id := DesktopWindowObservation.window_id (DriverObservation.window raw) in
  if (DesktopApplicationObservation.process_id app =? 0)
     || negb (valid_bundle_id (DesktopApplicationObservation.bundle_id app))
     || is_empty (trim (DesktopApplicationObservation.display_name app))
     || (120 <? chars_count (DesktopApplicationObservation.display_name app))
     || is_empty (trim window_id) || (256 <? chars_count window_id)
     || (MAX_OBSERVED_ELEMENTS <? Z.of_nat (length (DriverObservation.elements raw)))
  then Err (invalid_request (lit "The native app observation is malformed."))
  else
    _ ← match DriverObservation.screenshot raw with
        | Some screenshot =>
            guard_not (negb (valid_sha256 (RedactedScreenshotReceipt.sha256 screenshot))
                       || (RedactedScreenshotReceipt.width screenshot =? 0)
                       || (RedactedScreenshotReceipt.height screenshot =? 0))
              (invalid_request (lit "The screenshot receipt is malformed."))
        | None => Ok tt
        end;
    keys ← for_fold validate_raw_element ∅ (DriverObservation.elements raw);
    guard_not match DriverObservation.focused_element_key raw with
              | Some focused => negb (bool_decide (focused ∈ keys))
              | None => false
              end
      (invalid_request (lit "The focused element is not in the observation.")).

Definition reference_context (session : SessionRecord.t)
    (observation : DesktopObservation.t) (now_ms : Z) : ReferenceContext.t :=
  let app := DesktopObservation.application observation in
  ReferenceContext.mk (SessionRecord.session_id session) (SessionRecord.project_id session)
    (SessionRecord.task_run_id session) (DesktopApplicationObservation.bundle_id app)
    (DesktopApplicationObservation.process_id app)
    (DesktopWindowObservation.window_id (DesktopObservation.window observation))
    (DesktopObservation.revision observation) (DesktopObservation.generation observation)
    now_ms.

Definition driver_observation_request (session : SessionRecord.t)
  : DriverObservationRequest.t :=
  DriverObservationRequest.mk (SessionRecord.session_id session)
    (SessionRecord.project_id session) (SessionRecord.task_run_id session).

Definition driver_observation_request_from (request : DriverActionRequest.t)
  : DriverObservationRequest.t :=
  DriverObservationRequest.mk (DriverActionRequest.session_id request)
    (DriverActionRequest.project_id request) (DriverActionRequest.task_run_id request).

(** The loop that issues a reference per element: the accumulator is the
    vault, the focused reference, whether the focused element is secure, and the
    observed elements so far. *)
Fixpoint issue_elements (rng : nat -> list Z) (i : nat) (context : ReferenceContext.t)
    (focused_key : option str) (expires_at_ms : Z) (raw : list DriverElement.t)
    (vault : ReferenceVault) (focused_element : option str) (focused_secure : bool)
    (elements : list DesktopObservedElement.t)
  : ReferenceVault * option str * bool * list DesktopObservedElement.t :=
  match raw with
  | [] => (vault, focused_element, focused_secure, elements)
  | element :: raw' =>
      let key_matches :=
        bool_decide (focused_key = Some (DriverElement.element_key element)) in
      let focused_secure :=
        focused_secure || (key_matches && DriverElement.secure element) in
      let '(vault, observed) := issue (rng i) context element expires_at_ms vault in
      let focused_element :=
        if key_matches then Some (DesktopObservedElement.reference observed)
        else focused_element in
      issue_elements rng (S i) context focused_key expires_at_ms raw' vault
        focused_element focused_secure (elements ++ [observed])
  end.

(** Write a session and the vault back. *)
Definition store (session_id : str) (session : SessionRecord.t)
    (references : ReferenceVault) (state : ManagerState.t) : ManagerState.t :=
  ManagerState.set_references references
    (ManagerState.set_sessions (<[session_id := session]> (ManagerState.sessions state)) state).

Definition app_differs (raw : DriverObservation.t) (o : DesktopObservation.t) : bool :=
  let oa := DesktopObservation.application o in
  let ra := DriverObservation.application raw in
  negb (str_eqb (DesktopApplicationObservation.bundle_id oa)
          (DesktopApplicationObservation.bundle_id ra))
  || negb (DesktopApplicationObservation.process_id oa
           =? DesktopApplicationObservation.process_id ra).
Definition window_differs (raw : DriverObservation.t) (o : DesktopObservation.t) : bool :=
  negb (str_eqb (DesktopWindowObservation.window_id (DesktopObservation.window o))
          (DesktopWindowObservation.window_id (DriverObservation.window raw))).
Definition option_test {A} (f : A -> bool) (o : option A) : bool :=
  match o with Some a => f a | None => false end.

Section ApplyObservation.
Context (to_vec : Document -> option (list Z)) (sha256 : list Z -> list Z).
(** [rng 0] seeds the observation identifier, [rng (S i)] the [i]-th reference. *)
Context (rng : nat -> list Z).

(** From the revision bump to the end of [apply_observation], on the session
    and the vault that the change detection left. *)
Definition finish_observation (state : ManagerState.t) (session_id : str)
    (session : SessionRecord.t) (references : ReferenceVault)
    (raw : DriverObservation.t) (now : Z) (qualified : bool)
    (is_first_observation application_changed window_changed
       allow_window_transition : bool)
  : ManagerState.t * AppControlResult DesktopObservation.t :=
  let app := DriverObservation.application raw in
  let window := DriverObservation.window raw in
  let session := SessionRecord.set_revision
    (saturating_add_u64 (SessionRecord.revision session) 1) session in
  let revision := SessionRecord.revision session in
  let generation := SessionRecord.generation session in
  let expires_at_ms := saturating_add_i64 now REFERENCE_TTL_MS in
  let context := ReferenceContext.mk (SessionRecord.session_id session)
    (SessionRecord.project_id session) (SessionRecord.task_run_id session)
    (DesktopApplicationObservation.bundle_id app)
    (DesktopApplicationObservation.process_id app)
    (DesktopWindowObservation.window_id window) revision generation now in
  let '(references, focused_element, focused_secure, elements) :=
    issue_elements rng 1 context (DriverObservation.focused_element_key raw)
      expires_at_ms (DriverObservation.elements raw) references None false [] in
  let unhashed := DesktopObservation.mk (opaque_id (lit "appobservation") (rng 0%nat))
    (SessionRecord.session_id session) (SessionRecord.project_id session)
    (SessionRecord.task_run_id session) revision generation now expires_at_ms
    (DriverObservation.permission raw) app window focused_element elements
    (DriverObservation.screenshot raw) [] in
  match hash_serializable to_vec sha256 (ObservationDoc unhashed) with
  | Err e => (store session_id session references state, Err e)
  | Panic => (store session_id session references state, Panic)
  | Ok hash =>
      let observation := DesktopObservation.set_observation_hash hash unhashed in
      let session := SessionRecord.set_last_observation (Some observation) session in
      let session := SessionRecord.set_updated_at_ms now session in
      let session :=
        if negb application_changed && (negb window_changed || allow_window_transition)
           && (bool_decide (SessionRecord.state session = AppControlState.ReturnPending)
               || (is_first_observation
                   && bool_decide (SessionRecord.state session = AppControlState.Observing)))
        then SessionRecord.set_pause_reason None
               (SessionRecord.set_state
                  (if qualified then AppControlState.Running else AppControlState.Observing)
                  session)
        else session in
      let '(session, references) :=
        if negb (DesktopWindowObservation.visible window)
        then pause_session session references now AppControlPauseReason.HiddenWindow
        else if focused_secure : bool
        then pause_session session references now AppControlPauseReason.SecureField
        else (session, references) in
      (store session_id session references state, Ok observation)
  end.

Definition apply_observation (state : ManagerState.t) (session_id : str)
    (raw : DriverObservation.t) (now : Z) (allow_window_transition : bool)
  : ManagerState.t * AppControlResult DesktopObservation.t :=
  match validate_raw_observation raw with
  | Err e => (state, Err e)
  | Panic => (state, Panic)
  | Ok _ =>
  match ManagerState.sessions state !! session_id with
  | None => (state, Err session_not_found)
  | Some session =>
  let references := ManagerState.references state in
  let app := DriverObservation.application raw in
  let bundle_id := DesktopApplicationObservation.bundle_id app in
  if bool_decide (DriverObservation.permission raw <> AccessibilityPermission.Granted) then
    let '(session, references) :=
      pause_session session references now AppControlPauseReason.PermissionChanged in
    (store session_id session references state,
     Err (err AppControlErrorCode.AccessibilityPermissionMissing
            "Accessibility permission is required for app control."))
  else
  let profile := app_profile bundle_id (DesktopApplicationObservation.display_name app) in
  let qualification := DesktopAppProfile.qualification profile in
  if bool_decide (qualification = ApplicationQualification.Browser) then
    let session := SessionRecord.set_state AppControlState.Failed session in
    let session := SessionRecord.set_current_action None session in
    let session := SessionRecord.set_updated_at_ms now session in
    (store session_id session (invalidate_session session_id references) state,
     Err (err AppControlErrorCode.BrowserRouteRequired
            "Browser work must use the guarded browser runtime."))
  else
  let qualified := bool_decide (qualification = ApplicationQualification.Qualified) in
  if qualified && negb (bool_decide (bundle_id ∈ SessionRecord.approved_bundle_ids session))
  then (state, Err (err AppControlErrorCode.ApplicationNotAllowlisted
                      "This application is not approved for the current Task."))
  else
  let last := SessionRecord.last_observation session in
  let is_first_observation := bool_decide (last = None) in
  let application_changed := option_test (app_differs raw) last in
  let window_changed := option_test (window_differs raw) last in
  let '(session, references) :=
    if application_changed
    then pause_session session references now AppControlPauseReason.ApplicationChanged
    else if window_changed && negb allow_window_transition
    then pause_session session references now AppControlPauseReason.UnexpectedNavigation
    else (session, invalidate_session session_id references) in
  finish_observation state session_id session references raw now qualified
    is_first_observation application_changed window_changed allow_window_transition
  end
  end.
End ApplyObservation.
