(* ===== verification/CuManager.v ===== *)
(** * Guarded app control: the manager's critical sections

    Models [computer_use/manager.rs], [execution.rs], [session.rs] and
    [evidence.rs].  Every stretch of code that holds the mutex is one
    definition from manager state to manager state; [execute] and [observe],
    which release the mutex around the driver and the authority, are split at
    exactly those points ([observe_begin] and [observe_finish] here, the
    sections of [execute] in [CuExecute]).  What the code reads from outside is the [Env] of the
    section: clock readings by call site, the physical-input atomics, the file
    system, random bytes, the evidence store.  A poisoned mutex is not
    modelled. *)
From S2P Require Import Prelude RustStr P0Contracts CuContracts CuPolicy CuState CuVerification CuObservation.
Local Open Scope Z_scope.

(** ** Task evidence *)
Inductive EventPayload : Type :=
| SessionStarted (session_id project_id : str) (observation_generation : Z)
| ObservationPayload (phase : str) (observation : DesktopObservation.t)
| ReceiptPayload (receipt : DesktopOutcomeReceipt.t)
| FailurePayload (receipt : DesktopOutcomeReceipt.t) (code : AppControlErrorCode.t).

Record TaskEvent : Type := mkTaskEvent {
  event_task_run_id : str;
  event_type : str;
  event_evidence : EvidenceClass;
  event_payload : EventPayload;
}.

(** [PersistenceEngine], as far as app control uses it. *)
Record EvidenceEngine : Type := {
  require_bound_task : str -> str -> bool;
  record_event : TaskEvent -> bool;
}.

Record Env : Type := mkEnv {
  now : nat -> Z;
  rng : nat -> list Z;
  env_fs : FileSystem;
  physical_input_epoch : option Z;
  physical_input_ready : option bool;
  evidence_engine : option EvidenceEngine;
}.

Module AppControlManager.
Record t : Type := mk {
  inner : ManagerState.t;
  acknowledged_input_epoch : Z;
  (** the events the evidence store has accepted *)
  recorded : list TaskEvent;
}.
Definition new : t := mk ManagerState.default 0 [].
Definition set_inner v m := mk v (acknowledged_input_epoch m) (recorded m).
End AppControlManager.
Notation Manager := AppControlManager.t.

(** ** Taking the lock *)

(** [for session in sessions.values_mut().filter(cond) { f(session, references) }] *)
Definition for_sessions (cond : SessionRecord.t -> bool)
    (f : SessionRecord.t -> ReferenceVault -> SessionRecord.t * ReferenceVault)
    (state : ManagerState.t) : ManagerState.t :=
  let '(sessions, references) :=
    foldr (fun '(id, session) '(sessions, references) =>
        if cond session then
          let '(session, references) := f session references in
          (<[id := session]> sessions, references)
        else (sessions, references))
      (ManagerState.sessions state, ManagerState.references state)
      (map_to_list (ManagerState.sessions state)) in
  ManagerState.set_references references (ManagerState.set_sessions sessions state).

Definition driver_lost (session : SessionRecord.t) : bool :=
  bool_decide (SessionRecord.state session = AppControlState.Paused)
  && bool_decide (SessionRecord.pause_reason session
                  = Some AppControlPauseReason.DriverUnavailable).

Definition resume_driver (now : Z) (session : SessionRecord.t)
    (references : ReferenceVault) : SessionRecord.t * ReferenceVault :=
  let '(session, references) := invalidate_generation session references now in
  (SessionRecord.set_pause_reason None
     (SessionRecord.set_state AppControlState.ReturnPending session), references).

Definition lock (env : Env) (m : Manager) : Manager :=
  let state := AppControlManager.inner m in
  let state :=
    match physical_input_ready env with
    | None => state
    | Some ready =>
        if negb ready then
          for_sessions
            (fun session => AppControlState.active (SessionRecord.state session)
                            && negb (driver_lost session))
            (fun session references =>
               pause_session session references (now env 0)
                 AppControlPauseReason.DriverUnavailable) state
        else for_sessions driver_lost (resume_driver (now env 0)) state
    end in
  match physical_input_epoch env with
  | None => AppControlManager.set_inner state m
  | Some current =>
      let previous := AppControlManager.acknowledged_input_epoch m in
      let state :=
        if negb (current =? previous) then
          for_sessions
            (fun session => AppControlState.active (SessionRecord.state session)
               && bool_decide (SessionRecord.state session <> AppControlState.Takeover))
            (fun session references =>
               pause_session session references (now env 1)
                 AppControlPauseReason.UserInput) state
        else state in
      AppControlManager.mk state current (AppControlManager.recorded m)
  end.

(** [self.record_task_event(..)] *)
Definition record_task_event (env : Env) (event : TaskEvent) (m : Manager)
  : Manager * AppControlResult unit :=
  match evidence_engine env with
  | None => (m, Ok tt)
  | Some engine =>
      if record_event engine event then
        (AppControlManager.mk (AppControlManager.inner m)
           (AppControlManager.acknowledged_input_epoch m)
           (AppControlManager.recorded m ++ [event]), Ok tt)
      else (m, Err (err AppControlErrorCode.DriverFailure
                      "App control could not record its Task evidence."))
  end.

Definition record_observation (env : Env) (observation : DesktopObservation.t)
    (phase : str) (m : Manager) : Manager * AppControlResult unit :=
  record_task_event env
    (mkTaskEvent (DesktopObservation.task_run_id observation)
       (lit "app_control.observation") ObservedResult
       (ObservationPayload phase observation)) m.

(** [engine.map(|e| require_bound_task(e, ..)).transpose()?] *)
Definition require_bound (env : Env) (task_run_id project_id : str) (message : string)
  : AppControlResult unit :=
  match evidence_engine env with
  | None => Ok tt
  | Some engine =>
      ensure (require_bound_task engine task_run_id project_id)
        (err AppControlErrorCode.TaskBindingMismatch message)
  end.

(** A section's result and the new state, for a body that only reads. *)
Definition with_lock {A} (env : Env) (body : ManagerState.t -> AppControlResult A)
    (m : Manager) : Manager * AppControlResult A :=
  let m := lock env m in (m, body (AppControlManager.inner m)).

Definition write (state : ManagerState.t) (m : Manager) : Manager :=
  AppControlManager.set_inner state m.

(** ** Sessions *)
Definition grant_selected_file (env : Env) (project_id task_run_id : str)
    (selected_file : path) (m : Manager)
  : Manager * AppControlResult AppControlFileGrantView.t :=
  let prepared : AppControlResult _ :=
    project ← map_err invalid_request (id_parse KProject project_id);
    task ← map_err invalid_request (id_parse KTaskRun task_run_id);
    _ ← require_bound env (as_str task) (as_str project)
          "File selection requires an existing Task bound to this Project.";
    let grant_id := opaque_id (lit "appfile") (rng env 0) in
    validation ← scoped_file_roots_new (env_fs env) [];
    validation ← add_granted_file (env_fs env) validation grant_id selected_file;
    canonical_file ← canonical_granted_file (env_fs env) validation grant_id;
    file_name ← ok_or (file_scope_error "The selected file name is unavailable.")
                  (granted_file_name validation grant_id);
    Ok (as_str project, as_str task, grant_id, canonical_file, file_name) in
  match prepared with
  | Err e => (m, Err e)
  | Panic => (m, Panic)
  | Ok (project, task, grant_id, canonical_file, file_name) =>
      let expires_at_ms := saturating_add_i64 (now env 2) FILE_GRANT_TTL_MS in
      let m := lock env m in
      let state := AppControlManager.inner m in
      let kept := filter (fun kg => now env 3 <= PendingFileGrant.expires_at_ms kg.2)
                    (ManagerState.pending_file_grants state) in
      (write (ManagerState.set_pending_file_grants
                (<[grant_id := PendingFileGrant.mk project task canonical_file
                                 expires_at_ms]> kept) state) m,
       Ok (AppControlFileGrantView.mk grant_id file_name expires_at_ms))
  end.

Definition validate_file_grant_ids (grant_ids : list str) : AppControlResult unit :=
  if Nat.ltb 16 (length grant_ids)
     || existsb (fun grant_id => negb (valid_file_grant_id grant_id)) grant_ids
     || negb (bool_decide (size (list_to_set grant_ids : gset str) = length grant_ids))
  then Err (file_scope_error "The selected file grants are invalid.")
  else Ok tt.

Definition approve_bundle (approved : gset str) (bundle_id : str)
  : AppControlResult (gset str) :=
  if negb (valid_bundle_id bundle_id)
  then Err (invalid_request (lit "An approved application identifier is invalid."))
  else if bool_decide (DesktopAppProfile.qualification (app_profile bundle_id bundle_id)
                       = ApplicationQualification.Browser)
  then Err (err AppControlErrorCode.BrowserRouteRequired
              "Browser work must use the guarded browser runtime.")
  else Ok ({[bundle_id]} ∪ approved).

(** One grant of the request, looked up among the pending ones. *)
Definition claim_grant (state : ManagerState.t) (project_id task_run_id : str) (now : Z)
    (grant_id : str) : AppControlResult (str * PendingFileGrant.t) :=
  grant ← ok_or (err AppControlErrorCode.FileScopeViolation
      "A selected file grant is expired or belongs to another Task.")
    (grant ← ManagerState.pending_file_grants state !! grant_id;
     if str_eqb (PendingFileGrant.project_id grant) project_id
        && str_eqb (PendingFileGrant.task_run_id grant) task_run_id
        && (now <=? PendingFileGrant.expires_at_ms grant)
     then Some grant else None);
  Ok (grant_id, grant).

Definition start_session (env : Env) (request : StartAppControlSession.t) (m : Manager)
  : Manager * AppControlResult AppControlSessionView.t :=
  let prepared : AppControlResult _ :=
    project ← map_err invalid_request (id_parse KProject
                (StartAppControlSession.project_id request));
    task ← map_err invalid_request (id_parse KTaskRun
             (StartAppControlSession.task_run_id request));
    _ ← require_bound env (as_str task) (as_str project)
          "App control requires an existing Task bound to this Project.";
    let bundles := StartAppControlSession.approved_bundle_ids request in
    _ ← guard_not (bool_decide (bundles = []) || Nat.ltb 16 (length bundles))
          (invalid_request (lit "App control requires one to sixteen approved applications."));
    approved ← for_fold approve_bundle ∅ bundles;
    _ ← validate_file_grant_ids (StartAppControlSession.file_grant_ids request);
    file_roots ← scoped_file_roots_new (env_fs env)
                   (StartAppControlSession.scoped_file_roots request);
    Ok (as_str project, as_str task, approved, file_roots) in
  match prepared with
  | Err e => (m, Err e)
  | Panic => (m, Panic)
  | Ok (project, task, approved, file_roots) =>
      let now_ms := now env 2 in
      let m := lock env m in
      let state := AppControlManager.inner m in
      let claimed : AppControlResult _ :=
        grants ← try_map (claim_grant state project task now_ms)
                   (StartAppControlSession.file_grant_ids request);
        file_roots ← for_fold (fun roots '(grant_id, grant) =>
            add_granted_file (env_fs env) roots grant_id
              (PendingFileGrant.canonical_file grant)) file_roots grants;
        Ok (grants, file_roots) in
      match claimed with
      | Err e => (m, Err e)
      | Panic => (m, Panic)
      | Ok (grants, file_roots) =>
          let pending := foldl (fun pending '(grant_id, _) => delete grant_id pending)
                           (ManagerState.pending_file_grants state) grants in
          let session_id := opaque_id (lit "appcontrol") (rng env 0) in
          let record := SessionRecord.mk session_id project task approved file_roots
            AppControlState.Observing 1 0 None None None None now_ms 1 0 in
          let view := session_view record in
          let state := ManagerState.set_pending_file_grants pending state in
          let state := ManagerState.set_active_session_id (Some session_id) state in
          let state := ManagerState.set_sessions
            (<[session_id := record]> (ManagerState.sessions state)) state in
          let '(m, recorded) := record_task_event env
            (mkTaskEvent task (lit "app_control.session_started") ObservedResult
               (SessionStarted session_id project 1)) (write state m) in
          (m, _ ← recorded; Ok view)
      end
  end.

(** [Iterator::max_by_key] over the sessions of one Task returns one whose
    [updated_at_ms] is greatest; which one, when several are, is the hash map's
    order, here the key order. *)
Definition latest_of (task_run_id : str) (state : ManagerState.t) : option SessionRecord.t :=
  foldl (fun best session =>
      match best with
      | Some b => if SessionRecord.updated_at_ms b <=? SessionRecord.updated_at_ms session
                  then Some session else best
      | None => Some session
      end) None
    (List.filter (fun session => str_eqb (SessionRecord.task_run_id session) task_run_id)
       (map snd (map_to_list (ManagerState.sessions state)))).

Definition get_status (env : Env) (task_run_id : option str) (m : Manager)
  : Manager * AppControlResult (option AppControlSessionView.t) :=
  with_lock env (fun state =>
    match task_run_id with
    | Some task_run_id =>
        _ ← map_err invalid_request (id_parse KTaskRun task_run_id);
        Ok (option_map session_view (latest_of task_run_id state))
    | None =>
        let active :=
          id ← ManagerState.active_session_id state;
          session ← ManagerState.sessions state !! id;
          if AppControlState.active (SessionRecord.state session)
             || (saturating_sub_i64 (now env 2) (SessionRecord.updated_at_ms session)
                 <=? TERMINAL_STATUS_GRACE_MS)
          then Some session else None in
        Ok (option_map session_view active)
    end) m.

(** The guard of each control, and the state and pause reason it assigns. *)
Definition control_allowed (c : AppControlControl.t) (s : AppControlState.t) : bool :=
  match c with
  | AppControlControl.Pause => is_pausable s
  | AppControlControl.Stop => AppControlState.active s
  | AppControlControl.TakeControl =>
      AppControlState.active s && bool_decide (s <> AppControlState.Takeover)
  | AppControlControl.ReturnToOomu =>
      match s with AppControlState.Takeover | AppControlState.Paused => true | _ => false end
  end.
Definition control_target (c : AppControlControl.t)
  : AppControlState.t * option AppControlPauseReason.t :=
  match c with
  | AppControlControl.Pause =>
      (AppControlState.Paused, Some AppControlPauseReason.UserInput)
  | AppControlControl.Stop => (AppControlState.Stopped, None)
  | AppControlControl.TakeControl =>
      (AppControlState.Takeover, Some AppControlPauseReason.UserInput)
  | AppControlControl.ReturnToOomu => (AppControlState.ReturnPending, None)
  end.

Definition control (env : Env) (request : ControlAppControlSessionRequest.t) (m : Manager)
  : Manager * AppControlResult AppControlSessionView.t :=
  let now_ms := now env 2 in
  let m := lock env m in
  let state := AppControlManager.inner m in
  let session_id := ControlAppControlSessionRequest.session_id request in
  match ManagerState.sessions state !! session_id with
  | None => (m, Err session_not_found)
  | Some session =>
      match require_task session (ControlAppControlSessionRequest.task_run_id request) with
      | Err e => (m, Err e)
      | Panic => (m, Panic)
      | Ok _ =>
          let c := ControlAppControlSessionRequest.control request in
          if negb (control_allowed c (SessionRecord.state session))
          then (m, Err not_running)
          else
            let '(session, references) :=
              invalidate_generation session (ManagerState.references state) now_ms in
            let '(target, reason) := control_target c in
            let session := SessionRecord.set_pause_reason reason
                             (SessionRecord.set_state target session) in
            let state := store session_id session references state in
            let state :=
              match c with
              | AppControlControl.Stop =>
                  if bool_decide (ManagerState.active_session_id state
                                  <> Some (SessionRecord.session_id session))
                  then ManagerState.set_active_session_id
                         (Some (SessionRecord.session_id session)) state
                  else state
              | _ => state
              end in
            (write state m, Ok (session_view session))
      end
  end.

Definition notify_user_input (env : Env) (session_id task_run_id : str) (m : Manager)
  : Manager * AppControlResult AppControlSessionView.t :=
  let now_ms := now env 2 in
  let m := lock env m in
  let state := AppControlManager.inner m in
  match ManagerState.sessions state !! session_id with
  | None => (m, Err session_not_found)
  | Some session =>
      match require_task session task_run_id with
      | Err e => (m, Err e)
      | Panic => (m, Panic)
      | Ok _ =>
          if negb (AppControlState.active (SessionRecord.state session))
          then (m, Err not_running)
          else
            let '(session, references) :=
              pause_session session (ManagerState.references state) now_ms
                AppControlPauseReason.UserInput in
            (write (store session_id session references state) m,
             Ok (session_view session))
      end
  end.

Definition receipt (env : Env) (receipt_id task_run_id : str) (m : Manager)
  : Manager * AppControlResult (option DesktopOutcomeReceipt.t) :=
  match map_err invalid_request (id_parse KTaskRun task_run_id) with
  | Err e => (m, Err e)
  | Panic => (m, Panic)
  | Ok _ =>
      with_lock env (fun state =>
        Ok (receipt ← ManagerState.receipts state !! receipt_id;
            if str_eqb (DesktopOutcomeReceipt.task_run_id receipt) task_run_id
            then Some receipt else None)) m
  end.

(** ** Driver failures *)
Definition pause_reason_for (code : AppControlErrorCode.t) : AppControlPauseReason.t :=
  match code with
  | AppControlErrorCode.DriverUnavailable => AppControlPauseReason.DriverUnavailable
  | AppControlErrorCode.AccessibilityPermissionMissing
  | AppControlErrorCode.PermissionChanged => AppControlPauseReason.PermissionChanged
  | _ => AppControlPauseReason.AmbiguousTarget
  end.

Definition pause_for_driver_error (env : Env) (session_id task_run_id : str)
    (generation : Z) (error : AppControlError.t) (m : Manager) : Manager :=
  let m := lock env m in
  let state := AppControlManager.inner m in
  match ManagerState.sessions state !! session_id with
  | None => m
  | Some session =>
      if negb (str_eqb (SessionRecord.task_run_id session) task_run_id)
         || negb (SessionRecord.generation session =? generation)
      then m
      else
        let '(session, references) :=
          pause_session session (ManagerState.references state) (now env 2)
            (pause_reason_for (AppControlError.code error)) in
        write (store session_id session references state) m
  end.

Section Hashing.
Context (to_vec : Document -> option (list Z)) (sha256 : list Z -> list Z).

Definition record_action_failure (env : Env) (session_id task_run_id : str)
    (generation : Z) (before : DesktopObservation.t) (authority : AuthorityRequest.t)
    (decision_id : str) (error : AppControlError.t) (m : Manager) : Manager :=
  let m := lock env m in
  let state := AppControlManager.inner m in
  let now_ms := now env 2 in
  match ManagerState.sessions state !! session_id with
  | None => m
  | Some session =>
      if negb (str_eqb (SessionRecord.task_run_id session) task_run_id)
         || negb (SessionRecord.generation session =? generation)
      then m
      else
        let receipt_id := opaque_id (lit "appreceipt") (rng env 0) in
        let receipt := DesktopOutcomeReceipt.mk receipt_id session_id
          (DesktopObservation.project_id before) task_run_id
          (AuthorityRequest.action_kind authority) decision_id
          (DesktopObservation.observation_id before)
          (DesktopObservation.observation_hash before)
          (DesktopObservation.observation_id before)
          (DesktopObservation.observation_hash before)
          (AuthorityRequest.action_arguments_hash authority)
          (hash_bytes sha256 (as_bytes (AppControlErrorCode.debug (AppControlError.code error))))
          (hash_bytes sha256 (as_bytes (AppControlError.message error)))
          [] AppControlOutcomeStatus.Failed now_ms in
        let session := SessionRecord.set_current_action None session in
        let session := SessionRecord.set_last_outcome
          (Some (AppControlOutcomeView.mk AppControlOutcomeStatus.Failed
                   (AuthorityRequest.action_kind authority) receipt_id now_ms true)) session in
        let session := SessionRecord.set_updated_at_ms now_ms session in
        let state := ManagerState.set_sessions
          (<[session_id := session]> (ManagerState.sessions state)) state in
        let state := ManagerState.set_receipts
          (<[receipt_id := receipt]> (ManagerState.receipts state)) state in
        fst (record_task_event env
               (mkTaskEvent task_run_id (lit "app_control.action_receipt") ObservedResult
                  (FailurePayload receipt (AppControlError.code error)))
               (write state m))
  end.

(** ** Observing *)
Definition observe_begin (env : Env) (session_id task_run_id : str) (m : Manager)
  : Manager * AppControlResult (DriverObservationRequest.t * Z) :=
  with_lock env (fun state =>
    session ← ok_or session_not_found (ManagerState.sessions state !! session_id);
    _ ← require_task session task_run_id;
    if negb (AppControlState.active (SessionRecord.state session))
       || bool_decide (SessionRecord.state session = AppControlState.Takeover)
    then Err not_running
    else Ok (driver_observation_request session, SessionRecord.generation session)) m.

(** After the driver answered [reply]. *)
Definition observe_finish (env : Env) (session_id task_run_id : str) (generation : Z)
    (reply : AppControlResult DriverObservation.t) (m : Manager)
  : Manager * AppControlResult DesktopObservation.t :=
  match reply with
  | Panic => (m, Panic)
  | Err error => (pause_for_driver_error env session_id task_run_id generation error m, Err error)
  | Ok raw =>
      let m := lock env m in
      let state := AppControlManager.inner m in
      match ensure_generation state session_id task_run_id generation None with
      | Err e => (m, Err e)
      | Panic => (m, Panic)
      | Ok _ =>
          let '(state, observed) :=
            apply_observation to_vec sha256 (rng env) state session_id raw (now env 2) false in
          let m := write state m in
          match observed with
          | Err e => (m, Err e)
          | Panic => (m, Panic)
          | Ok observation =>
              let '(m, recorded) :=
                record_observation env observation (lit "before_or_resume") m in
              (m, _ ← recorded; Ok observation)
          end
      end
  end.
End Hashing.
