(* ===== verification/CuExecute.v ===== *)
(** * Guarded app control: executing one action

    Models [AppControlManager::execute] of [computer_use/manager.rs] and
    [authority_request_for] of [computer_use/execution.rs].  [execute] takes the
    mutex four times; each stretch under it is one definition here, in order
    [execute_prepare], [execute_commit], [execute_recheck], [execute_complete],
    with [check_decision] and the driver's two answers in between and
    [execute_record] after the last release.  The module [CuSystem] puts them
    back in sequence, with the other threads' sections in between. *)
From S2P Require Import Prelude RustStr P0Contracts CuContracts CuPolicy CuState CuVerification CuObservation CuManager.
Local Open Scope Z_scope.

(** What [execute] carries out of its first critical section. *)
Module Prepared.
Record t : Type := mk {
  before : DesktopObservation.t;
  action : DesktopSemanticAction.t;
  targets : list ResolvedDriverTarget.t;
  selected_file : option path;
  target_label : option str;
  authority_request : AuthorityRequest.t;
  generation : Z;
}.
End Prepared.

Definition hidden_window : AppControlError.t :=
  err AppControlErrorCode.HiddenWindow "The application window is hidden.".
Definition not_approved : AppControlError.t :=
  err AppControlErrorCode.ApplicationNotAllowlisted
    "This application is not approved for the current Task.".
Definition needs_dialog : AppControlError.t :=
  err AppControlErrorCode.AmbiguousTarget
    "File selection requires a fresh native file dialog.".
Definition outside_dialog : AppControlError.t :=
  err AppControlErrorCode.AmbiguousTarget
    "The selected target is outside the active file dialog.".

Section Execute.
Context (to_vec : Document -> option (list Z)) (sha256 : list Z -> list Z).

(** The checks of the first section after the window was found visible. *)
Definition prepare_visible (fs : FileSystem) (now : Z)
    (request : ExecuteDesktopActionRequest.t) (session : SessionRecord.t)
    (references : ReferenceVault) (before : DesktopObservation.t)
  : AppControlResult Prepared.t :=
  let bundle_id :=
    DesktopApplicationObservation.bundle_id (DesktopObservation.application before) in
  let modal := DesktopWindowObservation.modal (DesktopObservation.window before) in
  let requested := ExecuteDesktopActionRequest.action request in
  let roots := SessionRecord.file_roots session in
  _ ← ensure (bool_decide (bundle_id ∈ SessionRecord.approved_bundle_ids session))
        not_approved;
  _ ← validate_typed_adapter bundle_id requested;
  _ ← validate_expected_outcome requested
        (ExecuteDesktopActionRequest.expected_outcome request);
  action ← normalize_action fs requested roots;
  _ ← guard_not (DesktopSemanticAction.is_choose_file action && negb modal) needs_dialog;
  selected_file ← resolved_file_for_action fs action roots;
  let target_label :=
    match action with
    | DesktopSemanticAction.ChooseFile _ file_grant_id =>
        granted_file_name roots file_grant_id
    | _ => DesktopSemanticAction.target_label action
    end in
  action_hash ← hash_action_binding to_vec sha256 action selected_file;
  let context := reference_context session before now in
  targets ← try_map (fun reference =>
      resolve references reference (DesktopSemanticAction.kind action) modal context)
    (DesktopSemanticAction.references action);
  _ ← guard_not (DesktopSemanticAction.is_choose_file action
                 && existsb (fun target => negb (ResolvedDriverTarget.in_modal target)) targets)
        outside_dialog;
  Ok (Prepared.mk before action targets selected_file target_label
        (AuthorityRequest.mk (SessionRecord.project_id session)
           (SessionRecord.task_run_id session) (SessionRecord.session_id session)
           bundle_id (DesktopSemanticAction.kind action) action_hash
           (DesktopSemanticAction.will_change_data action))
        (SessionRecord.generation session)).

(** First section.  [now env 2] is the reading taken before the lock. *)
Definition execute_prepare (env : Env) (request : ExecuteDesktopActionRequest.t)
    (m : Manager) : Manager * AppControlResult Prepared.t :=
  let m := lock env m in
  let state := AppControlManager.inner m in
  let session_id := ExecuteDesktopActionRequest.session_id request in
  let checked : AppControlResult (SessionRecord.t * DesktopObservation.t) :=
    session ← ok_or session_not_found (ManagerState.sessions state !! session_id);
    _ ← require_task session (ExecuteDesktopActionRequest.task_run_id request);
    _ ← ensure (bool_decide (SessionRecord.state session = AppControlState.Running))
          not_running;
    before ← ok_or (invalid_request (lit "A fresh app observation is required."))
               (SessionRecord.last_observation session);
    _ ← ensure (DesktopObservation.revision before
                =? ExecuteDesktopActionRequest.observation_revision request)
          stale_reference;
    Ok (session, before) in
  match checked with
  | Err e => (m, Err e)
  | Panic => (m, Panic)
  | Ok (session, before) =>
      if negb (DesktopWindowObservation.visible (DesktopObservation.window before)) then
        let '(session, references) :=
          pause_session session (ManagerState.references state) (now env 2)
            AppControlPauseReason.HiddenWindow in
        (write (store session_id session references state) m, Err hidden_window)
      else
        (m, prepare_visible (env_fs env) (now env 2) request session
              (ManagerState.references state) before)
  end.

(** [authority_request_for]: the same checks, without touching the session; a
    target outside the dialog is refused while the references are resolved. *)
Definition authority_request_for (env : Env) (request : ExecuteDesktopActionRequest.t)
    (m : Manager) : Manager * AppControlResult AuthorityRequest.t :=
  with_lock env (fun state =>
    session ← ok_or session_not_found
      (ManagerState.sessions state !! ExecuteDesktopActionRequest.session_id request);
    _ ← require_task session (ExecuteDesktopActionRequest.task_run_id request);
    _ ← ensure (bool_decide (SessionRecord.state session = AppControlState.Running))
          not_running;
    observation ← ok_or (invalid_request (lit "A fresh app observation is required."))
                    (SessionRecord.last_observation session);
    _ ← ensure (DesktopObservation.revision observation
                =? ExecuteDesktopActionRequest.observation_revision request)
          stale_reference;
    let window := DesktopObservation.window observation in
    let modal := DesktopWindowObservation.modal window in
    let bundle_id := DesktopApplicationObservation.bundle_id
                       (DesktopObservation.application observation) in
    let requested := ExecuteDesktopActionRequest.action request in
    let roots := SessionRecord.file_roots session in
    _ ← ensure (DesktopWindowObservation.visible window) hidden_window;
    _ ← ensure (bool_decide (bundle_id ∈ SessionRecord.approved_bundle_ids session))
          not_approved;
    _ ← validate_typed_adapter bundle_id requested;
    _ ← validate_expected_outcome requested
          (ExecuteDesktopActionRequest.expected_outcome request);
    action ← normalize_action (env_fs env) requested roots;
    let choose_file := DesktopSemanticAction.is_choose_file action in
    _ ← guard_not (choose_file && negb modal) needs_dialog;
    selected_file ← resolved_file_for_action (env_fs env) action roots;
    let context := reference_context session observation (now env 2) in
    _ ← for_each (fun reference =>
          target ← resolve (ManagerState.references state) reference
                     (DesktopSemanticAction.kind action) modal context;
          guard_not (choose_file && negb (ResolvedDriverTarget.in_modal target))
            outside_dialog)
        (DesktopSemanticAction.references action);
    action_hash ← hash_action_binding to_vec sha256 action selected_file;
    Ok (AuthorityRequest.mk (SessionRecord.project_id session)
          (SessionRecord.task_run_id session) (SessionRecord.session_id session)
          bundle_id (DesktopSemanticAction.kind action) action_hash
          (DesktopSemanticAction.will_change_data action))) m.

(** [if !decision.authorized || decision.decision_id.trim().is_empty()] *)
Definition check_decision (decision : AuthorityDecision.t) : AppControlResult unit :=
  if negb (AuthorityDecision.authorized decision)
     || is_empty (trim (AuthorityDecision.decision_id decision))
  then Err (err AppControlErrorCode.Unauthorized
              "The Task did not authorize this app action.")
  else Ok tt.

(** The generation and revision check that opens sections two to four. *)
Definition ensure_current (state : ManagerState.t)
    (request : ExecuteDesktopActionRequest.t) (p : Prepared.t) : AppControlResult unit :=
  ensure_generation state (ExecuteDesktopActionRequest.session_id request)
    (ExecuteDesktopActionRequest.task_run_id request) (Prepared.generation p)
    (Some (DesktopObservation.revision (Prepared.before p))).

(** Second section.  [binding] is the physical-input epoch read when
    [execute] was called. *)
Definition execute_commit (env : Env) (request : ExecuteDesktopActionRequest.t)
    (p : Prepared.t) (binding : option Z) (m : Manager)
  : Manager * AppControlResult DriverActionRequest.t :=
  let m := lock env m in
  let state := AppControlManager.inner m in
  let session_id := ExecuteDesktopActionRequest.session_id request in
  let checked : AppControlResult SessionRecord.t :=
    _ ← ensure_current state request p;
    session ← ok_or session_not_found (ManagerState.sessions state !! session_id);
    _ ← ensure (bool_decide (SessionRecord.state session = AppControlState.Running))
          not_running;
    Ok session in
  match checked with
  | Err e => (m, Err e)
  | Panic => (m, Panic)
  | Ok session =>
      let action := Prepared.action p in
      let session := SessionRecord.set_current_action
        (Some (AppControlActionView.mk (DesktopSemanticAction.kind action)
                 (Prepared.target_label p)
                 (DesktopSemanticAction.will_change_data action))) session in
      let session := SessionRecord.set_updated_at_ms (now env 2) session in
      (write (store session_id session (ManagerState.references state) state) m,
       Ok (DriverActionRequest.mk (SessionRecord.session_id session)
             (SessionRecord.project_id session) (SessionRecord.task_run_id session)
             (DesktopObservation.application (Prepared.before p))
             (DesktopObservation.window (Prepared.before p)) action
             (ExecuteDesktopActionRequest.expected_outcome request)
             (Prepared.targets p) (Prepared.selected_file p)
             (DriverCancellationToken.mk (SessionRecord.session_id session)
                (SessionRecord.cancellation_epoch session) binding)))
  end.

(** Third section, after the driver acted. *)
Definition execute_recheck (env : Env) (request : ExecuteDesktopActionRequest.t)
    (p : Prepared.t) (m : Manager) : Manager * AppControlResult unit :=
  with_lock env (fun state => ensure_current state request p) m.

(** The verification failed: forget the action, count the mismatch, pause on
    the second. *)
Definition record_mismatch (env : Env) (session_id : str) (state : ManagerState.t)
  : ManagerState.t :=
  match ManagerState.sessions state !! session_id with
  | None => state
  | Some session =>
      let session := SessionRecord.set_current_action None session in
      let session := SessionRecord.set_mismatch_count
        (saturating_add_u8 (SessionRecord.mismatch_count session) 1) session in
      let '(session, references) :=
        if 2 <=? SessionRecord.mismatch_count session
        then pause_session session (ManagerState.references state) (now env 3)
               AppControlPauseReason.RepeatedMismatch
        else (session, ManagerState.references state) in
      store session_id session references state
  end.

Definition outcome_receipt (env : Env) (request : ExecuteDesktopActionRequest.t)
    (p : Prepared.t) (decision : AuthorityDecision.t) (result : DriverActionResult.t)
    (after : DesktopObservation.t) (receipt_random : list Z)
    (file_hashes : list FileHashEvidence.t)
  : AppControlResult DesktopOutcomeReceipt.t :=
  let before := Prepared.before p in
  postcondition_hash ←
    hash_serializable to_vec sha256 (PostconditionDoc (DriverActionResult.postcondition result));
  Ok (DesktopOutcomeReceipt.mk (opaque_id (lit "appreceipt") receipt_random)
    (ExecuteDesktopActionRequest.session_id request)
    (DesktopObservation.project_id before)
    (ExecuteDesktopActionRequest.task_run_id request)
    (DesktopSemanticAction.kind (Prepared.action p))
    (AuthorityDecision.decision_id decision)
    (DesktopObservation.observation_id before) (DesktopObservation.observation_hash before)
    (DesktopObservation.observation_id after) (DesktopObservation.observation_hash after)
    (AuthorityRequest.action_arguments_hash (Prepared.authority_request p))
    (hash_bytes sha256 (as_bytes (DriverActionResult.receipt_token result)))
    postcondition_hash file_hashes
    (if bool_decide (ExecuteDesktopActionRequest.expected_outcome request
                     = ExpectedOutcomeKind.NoChange)
     then AppControlOutcomeStatus.NoChange else AppControlOutcomeStatus.Verified)
    (now env 4)).

Definition unexpected_navigation : AppControlError.t :=
  err AppControlErrorCode.UnexpectedNavigation
    "The application changed while verifying the action.".

(** The last part of the fourth section: the receipt is kept only when the
    session is still running. *)
Definition commit_receipt (state : ManagerState.t) (session_id : str)
    (receipt : DesktopOutcomeReceipt.t) (after : DesktopObservation.t)
  : ManagerState.t * AppControlResult DesktopActionOutcome.t :=
  match ManagerState.sessions state !! session_id with
  | None => (state, Err session_not_found)
  | Some session =>
      if negb (bool_decide (SessionRecord.state session = AppControlState.Running))
      then (state, Err unexpected_navigation)
      else
        let session := SessionRecord.set_current_action None session in
        let session := SessionRecord.set_mismatch_count 0 session in
        let session := SessionRecord.set_last_outcome
          (Some (AppControlOutcomeView.mk (DesktopOutcomeReceipt.status receipt)
                   (DesktopOutcomeReceipt.action_kind receipt)
                   (DesktopOutcomeReceipt.receipt_id receipt)
                   (DesktopOutcomeReceipt.recorded_at_ms receipt) true)) session in
        let session := SessionRecord.set_updated_at_ms
          (DesktopOutcomeReceipt.recorded_at_ms receipt) session in
        let state := ManagerState.set_sessions
          (<[session_id := session]> (ManagerState.sessions state)) state in
        (ManagerState.set_receipts
           (<[DesktopOutcomeReceipt.receipt_id receipt := receipt]>
              (ManagerState.receipts state)) state,
         Ok (DesktopActionOutcome.mk receipt after (session_view session)))
  end.

(** Fourth section, from the lock to [drop(state)]. *)
Definition execute_complete (env : Env) (request : ExecuteDesktopActionRequest.t)
    (p : Prepared.t) (decision : AuthorityDecision.t) (result : DriverActionResult.t)
    (after_raw : DriverObservation.t) (m : Manager)
  : Manager * AppControlResult DesktopActionOutcome.t :=
  let m := lock env m in
  let state := AppControlManager.inner m in
  let session_id := ExecuteDesktopActionRequest.session_id request in
  let expected := ExecuteDesktopActionRequest.expected_outcome request in
  match ensure_current state request p with
  | Err e => (m, Err e)
  | Panic => (m, Panic)
  | Ok _ =>
  let '(state, observed) :=
    apply_observation to_vec sha256 (rng env) state session_id after_raw (now env 2)
      (bool_decide (expected = ExpectedOutcomeKind.WindowState)) in
  match observed with
  | Err e => (write state m, Err e)
  | Panic => (write state m, Panic)
  | Ok after =>
  match ManagerState.sessions state !! session_id with
  | None => (write state m, Err session_not_found)
  | Some session =>
  match verify_postcondition to_vec sha256 (env_fs env)
          (DriverActionResult.postcondition result) expected
          (Prepared.action p) (Prepared.targets p) (Prepared.before p) after
          (SessionRecord.file_roots session) with
  | Err e => (write (record_mismatch env session_id state) m, Err e)
  | Panic => (write state m, Panic)
  | Ok file_hashes =>
  match outcome_receipt env request p decision result after
          (rng env (S (length (DriverObservation.elements after_raw)))) file_hashes with
  | Err e => (write state m, Err e)
  | Panic => (write state m, Panic)
  | Ok receipt =>
      let '(state, outcome) := commit_receipt state session_id receipt after in
      (write state m, outcome)
  end
  end
  end
  end
  end.

(** After the mutex was released for the last time. *)
Definition execute_record (env : Env) (outcome : DesktopActionOutcome.t) (m : Manager)
  : Manager * AppControlResult DesktopActionOutcome.t :=
  let '(m, observed) :=
    record_observation env (DesktopActionOutcome.observation outcome)
      (lit "after_action") m in
  match observed with
  | Err e => (m, Err e)
  | Panic => (m, Panic)
  | Ok _ =>
      let receipt := DesktopActionOutcome.receipt outcome in
      let '(m, recorded) := record_task_event env
        (mkTaskEvent (DesktopOutcomeReceipt.task_run_id receipt)
           (lit "app_control.action_receipt") VerifiedPostcondition
           (ReceiptPayload receipt)) m in
      (m, _ ← recorded; Ok outcome)
  end.
End Execute.
