(* ===== verification/CuInvariants.v ===== *)
(** * Guarded app control: what every critical section keeps

    [session_ok] and [vault_ok] are the invariant of the shared state,
    [session_le] what a section may do to a session: its scope never changes,
    its generation and revision never go back, and it becomes stopped only with
    a new generation.  The lemmas of this file establish both for the
    primitives ([pause_session], [store], [for_sessions], [lock],
    [apply_observation]); the module [CuSystem] lifts them to whole calls. *)
From S2P Require Import Prelude RustStr P0Contracts CuContracts CuPolicy CuState CuVerification CuObservation CuManager CuExecute.
Local Open Scope Z_scope.

Definition qualified_bundle (bundle_id : str) : Prop :=
  DesktopAppProfile.qualification (app_profile bundle_id bundle_id)
  = ApplicationQualification.Qualified.

Definition bundle_of (o : DesktopObservation.t) : str :=
  DesktopApplicationObservation.bundle_id (DesktopObservation.application o).
Definition visible_in (o : DesktopObservation.t) : bool :=
  DesktopWindowObservation.visible (DesktopObservation.window o).

(** An action may be attempted only on a session whose last observation shows
    a visible window of a qualified application the user approved. *)
Definition running_ok (s : SessionRecord.t) : Prop :=
  exists o, SessionRecord.last_observation s = Some o
    /\ visible_in o = true
    /\ bundle_of o ∈ SessionRecord.approved_bundle_ids s
    /\ qualified_bundle (bundle_of o).

Record session_ok (id : str) (s : SessionRecord.t) : Prop := {
  ok_id : SessionRecord.session_id s = id;
  ok_generation : 1 <= SessionRecord.generation s <= u64_max;
  ok_revision : 0 <= SessionRecord.revision s <= u64_max;
  ok_epoch : SessionRecord.generation s < u64_max ->
             SessionRecord.cancellation_epoch s = SessionRecord.generation s;
  ok_running : SessionRecord.state s = AppControlState.Running -> running_ok s;
}.

(** A reference is bound to its session as it now stands. *)
Definition bound_to (b : ReferenceBinding.t) (s : SessionRecord.t) : Prop :=
  ReferenceBinding.session_id b = SessionRecord.session_id s
  /\ ReferenceBinding.project_id b = SessionRecord.project_id s
  /\ ReferenceBinding.task_run_id b = SessionRecord.task_run_id s
  /\ ReferenceBinding.generation b = SessionRecord.generation s
  /\ ReferenceBinding.revision b = SessionRecord.revision s.

Definition sessions_ok (sessions : gmap str SessionRecord.t) : Prop :=
  map_Forall session_ok sessions.
Definition vault_ok (sessions : gmap str SessionRecord.t) (vault : ReferenceVault) : Prop :=
  forall r b, vault !! r = Some b ->
    exists s, sessions !! ReferenceBinding.session_id b = Some s /\ bound_to b s.
Definition state_ok (st : ManagerState.t) : Prop :=
  sessions_ok (ManagerState.sessions st)
  /\ vault_ok (ManagerState.sessions st) (ManagerState.references st).

(** A running session, or one that ran into a browser, which fails it without
    a new generation. *)
Definition acting (s : AppControlState.t) : bool :=
  match s with AppControlState.Running | AppControlState.Failed => true | _ => false end.

(** What a session may become. *)
Record session_le (s s' : SessionRecord.t) : Prop := {
  le_id : SessionRecord.session_id s' = SessionRecord.session_id s;
  le_project : SessionRecord.project_id s' = SessionRecord.project_id s;
  le_task : SessionRecord.task_run_id s' = SessionRecord.task_run_id s;
  le_approved : SessionRecord.approved_bundle_ids s' = SessionRecord.approved_bundle_ids s;
  le_roots : SessionRecord.file_roots s' = SessionRecord.file_roots s;
  le_generation : SessionRecord.generation s <= SessionRecord.generation s';
  le_revision : SessionRecord.revision s <= SessionRecord.revision s';
  le_stopped :
    SessionRecord.state s' = AppControlState.Stopped ->
    SessionRecord.generation s' < u64_max ->
    (SessionRecord.state s = AppControlState.Stopped
     /\ SessionRecord.generation s' = SessionRecord.generation s)
    \/ SessionRecord.generation s < SessionRecord.generation s';
  le_acting :
    acting (SessionRecord.state s) = true ->
    SessionRecord.generation s' = SessionRecord.generation s ->
    SessionRecord.generation s' < u64_max ->
    acting (SessionRecord.state s') = true;
}.

Definition sessions_le (m m' : gmap str SessionRecord.t) : Prop :=
  forall id s, m !! id = Some s -> exists s', m' !! id = Some s' /\ session_le s s'.
Definition state_le (st st' : ManagerState.t) : Prop :=
  sessions_le (ManagerState.sessions st) (ManagerState.sessions st').

(** One section: the invariant is kept and every session only advances. *)
Definition advances (st st' : ManagerState.t) : Prop :=
  state_ok st -> state_ok st' /\ state_le st st'.

#[export] Instance session_le_preorder : PreOrder session_le.
Proof.
  split.
  - intros s. constructor; try done; try lia. naive_solver.
  - intros a b c [] []. constructor; try congruence; try lia.
    + intros Hc Hlt. destruct (le_stopped1 Hc Hlt) as [[Hb Heq]|]; [|right; lia].
      destruct (le_stopped0 Hb) as [[Ha Heq']|]; [lia| |right; lia].
      left. split; [done | lia].
    + intros Ha Heq Hlt. apply le_acting1; [apply le_acting0| |]; auto; lia.
Qed.

#[export] Instance sessions_le_preorder : PreOrder sessions_le.
Proof.
  split.
  - intros m id s H. by exists s.
  - intros a b c Hab Hbc id s Hs.
    destruct (Hab id s Hs) as (s' & Hs' & ?). destruct (Hbc id s' Hs') as (s'' & ? & ?).
    exists s''. split; [done | by transitivity s'].
Qed.

#[export] Instance state_le_preorder : PreOrder state_le.
Proof. unfold state_le. split; [intros st; reflexivity | intros a b c; apply transitivity]. Qed.

#[export] Instance advances_preorder : PreOrder advances.
Proof.
  split.
  - intros st H. split; [done | reflexivity].
  - intros a b c Hab Hbc Ha. destruct (Hab Ha) as [Hb ?].
    destruct (Hbc Hb) as [Hc ?]. split; [done | by transitivity b].
Qed.

(** While showing that a section advances, the invariant may be assumed. *)
Lemma advances_when st st' : (state_ok st -> advances st st') -> advances st st'.
Proof. intros H Hst. by apply H. Qed.

(** ** Updating one session *)
(** The vault after a section on session [id], now [s']. *)
Definition vault_step (id : str) (s' : SessionRecord.t) (vault vault' : ReferenceVault) : Prop :=
  forall r b, vault' !! r = Some b ->
    (ReferenceBinding.session_id b <> id /\ vault !! r = Some b)
    \/ (ReferenceBinding.session_id b = id /\ bound_to b s').

Lemma store_advances st id s s' vault' :
  ManagerState.sessions st !! id = Some s ->
  (session_ok id s -> session_ok id s') ->
  (session_ok id s -> session_le s s') ->
  (vault_ok (ManagerState.sessions st) (ManagerState.references st) ->
   vault_step id s' (ManagerState.references st) vault') ->
  advances st (store id s' vault' st).
Proof.
  intros Hs Hok Hle Hv [Hsess Hvault]. assert (Hid := Hsess id s Hs).
  split; [split|].
  - apply map_Forall_insert_2; auto.
  - intros r b Hb. cbn. destruct (Hv Hvault r b Hb) as [[Hne Hold]|[He Hbound]].
    + destruct (Hvault r b Hold) as (s0 & ? & ?). exists s0. by rewrite lookup_insert_ne.
    + exists s'. by rewrite He, lookup_insert_eq.
  - intros id' s0 Hs0. cbn. destruct (decide (id' = id)) as [->|Hne].
    + exists s'. rewrite lookup_insert_eq. naive_solver.
    + exists s0. rewrite lookup_insert_ne by done. by split.
Qed.

(** Sections that leave the sessions and the vault alone. *)
Lemma same_advances st st' :
  ManagerState.sessions st' = ManagerState.sessions st ->
  ManagerState.references st' = ManagerState.references st -> advances st st'.
Proof.
  intros Hs Hr H. unfold state_ok, state_le. rewrite Hs, Hr. split; [done | reflexivity].
Qed.

(** ** Invalidation *)
Lemma lookup_invalidate id vault r b :
  invalidate_session id vault !! r = Some b <->
  vault !! r = Some b /\ ReferenceBinding.session_id b <> id.
Proof. unfold invalidate_session. rewrite map_lookup_filter_Some. done. Qed.

Lemma vault_step_invalidate id s' vault :
  vault_step id s' vault (invalidate_session id vault).
Proof. intros r b [? ?]%lookup_invalidate. by left. Qed.

(** The session's references stay bound when generation and revision stay. *)
Lemma vault_step_same st id s s' :
  ManagerState.sessions st !! id = Some s ->
  session_le s s' ->
  SessionRecord.generation s' = SessionRecord.generation s ->
  SessionRecord.revision s' = SessionRecord.revision s ->
  vault_ok (ManagerState.sessions st) (ManagerState.references st) ->
  vault_step id s' (ManagerState.references st) (ManagerState.references st).
Proof.
  intros Hs [] Hg Hr Hv r b Hb. destruct (Hv r b Hb) as (s0 & Hs0 & Hbound).
  destruct (decide (ReferenceBinding.session_id b = id)) as [He|Hne]; [right|by left].
  rewrite He, Hs in Hs0. injection Hs0 as <-. split; [done|].
  unfold bound_to in *. intuition congruence.
Qed.

Ltac solve_session :=
  lazymatch goal with
  | H : session_ok _ _ |- session_ok _ _ =>
      destruct H; constructor; cbn; auto;
      try (intros; discriminate); try (unfold wrapping_add_u64 in *; int_lia)
  | H : session_ok _ _ |- session_le _ _ =>
      destruct H; constructor; cbn; try done; try int_lia;
      try (intros; discriminate); try (intros; right; int_lia); try (intros; left; done)
  end.

Lemma invalidate_generation_refs s v now :
  snd (invalidate_generation s v now) = invalidate_session (SessionRecord.session_id s) v.
Proof. done. Qed.

Section Bump.
Context (id : str) (s : SessionRecord.t) (Hok : session_ok id s).

Lemma epoch_bump :
  saturating_add_u64 (SessionRecord.generation s) 1 < u64_max ->
  wrapping_add_u64 (SessionRecord.cancellation_epoch s) 1
  = saturating_add_u64 (SessionRecord.generation s) 1.
Proof.
  intros H. destruct Hok as [_ Hg _ He _]. unfold wrapping_add_u64.
  rewrite He by int_lia. rewrite Z.mod_small by int_lia. int_lia.
Qed.

(** After the generation bump the session may take any state but running. *)
Lemma bumped_ok v now st reason :
  st <> AppControlState.Running ->
  session_ok id (SessionRecord.set_pause_reason reason (SessionRecord.set_state st
    (fst (invalidate_generation s v now)))).
Proof.
  intros Hst. pose proof epoch_bump as He. destruct Hok.
  constructor; cbn; auto; [int_lia | done].
Qed.

Lemma bumped_le v now st reason :
  session_le s (SessionRecord.set_pause_reason reason (SessionRecord.set_state st
    (fst (invalidate_generation s v now)))).
Proof.
  destruct Hok. constructor; cbn; try done; int_lia.
Qed.

Lemma paused_ok v now reason : session_ok id (fst (pause_session s v now reason)).
Proof. by apply (bumped_ok v). Qed.
Lemma paused_le v now reason : session_le s (fst (pause_session s v now reason)).
Proof. apply (bumped_le v). Qed.
End Bump.

Lemma pause_advances st id s now reason :
  ManagerState.sessions st !! id = Some s ->
  advances st (let '(s', v') := pause_session s (ManagerState.references st) now reason in
               store id s' v' st).
Proof.
  intros Hs H. assert (Hok := proj1 H id s Hs). revert H.
  change (advances st (store id (fst (pause_session s (ManagerState.references st) now reason))
    (invalidate_session (SessionRecord.session_id s) (ManagerState.references st)) st)).
  eapply store_advances; [done | | |].
  - intros _. by apply paused_ok.
  - intros _. by eapply paused_le.
  - intros _. rewrite (ok_id _ _ Hok). apply vault_step_invalidate.
Qed.

(** ** Sweeping the sessions *)
Section Sweep.
Context (cond : SessionRecord.t -> bool)
  (f : SessionRecord.t -> ReferenceVault -> SessionRecord.t * ReferenceVault)
  (g : SessionRecord.t -> SessionRecord.t).
Hypothesis f_fst : forall s v, fst (f s v) = g s.
Hypothesis f_snd : forall s v,
  snd (f s v) = invalidate_session (SessionRecord.session_id s) v.

Let body : str * SessionRecord.t -> gmap str SessionRecord.t * ReferenceVault ->
  gmap str SessionRecord.t * ReferenceVault :=
  fun '(id, session) '(sessions, references) =>
    if cond session then
      let '(session, references) := f session references in
      (<[id := session]> sessions, references)
    else (sessions, references).
Let with_pair (st : ManagerState.t) p :=
  ManagerState.set_references p.2 (ManagerState.set_sessions p.1 st).

Lemma body_step id s p :
  cond s = true ->
  body (id, s) p = (<[id := g s]> p.1, invalidate_session (SessionRecord.session_id s) p.2).
Proof.
  intros Hc. destruct p as [m v]. cbn. rewrite Hc.
  pose proof (f_fst s v) as H1. pose proof (f_snd s v) as H2.
  destruct (f s v) as [s' v']. cbn in *. by subst.
Qed.

Lemma for_sessions_advances st :
  (forall id s, cond s = true -> session_ok id s -> session_ok id (g s) /\ session_le s (g s)) ->
  advances st (for_sessions cond f st).
Proof.
  intros Hg.
  assert (Hgen : forall l, NoDup l.*1 ->
    (forall id s, (id, s) ∈ l -> ManagerState.sessions st !! id = Some s) ->
    let p := foldr body (ManagerState.sessions st, ManagerState.references st) l in
    advances st (with_pair st p)
    /\ forall id, id ∉ l.*1 -> p.1 !! id = ManagerState.sessions st !! id).
  { induction l as [|[id s] l IH]; intros Hnd Hin.
    { split; [|done]. by apply same_advances. }
    apply list.NoDup_cons in Hnd as [Hnotin Hnd].
    destruct (IH Hnd) as [Hadv Hsame]; [by intros; apply Hin; right|].
    cbn [foldr fmap list_fmap] in *. destruct (cond s) eqn:Hc.
    - rewrite body_step by done. split.
      + etransitivity; [exact Hadv|].
        set (q := foldr body _ l) in *.
        intros Hq. assert (Hs : ManagerState.sessions (with_pair st q) !! id = Some s).
        { cbn. rewrite Hsame by done. apply Hin. left. }
        assert (Hok := proj1 Hq id s Hs). revert Hq.
        apply (store_advances (with_pair st q) id s (g s)
                 (invalidate_session (SessionRecord.session_id s) q.2) Hs).
        * intros _. by apply Hg.
        * intros _. by eapply Hg.
        * intros _. rewrite (ok_id _ _ Hok). apply vault_step_invalidate.
      + intros id' Hne. cbn in *. apply not_elem_of_cons in Hne as [? ?].
        rewrite lookup_insert_ne by congruence. by apply Hsame.
    - assert (Hb : forall q, body (id, s) q = q)
        by (intros [? ?]; cbn; by rewrite Hc).
      rewrite Hb. split; [done|]. intros id' Hne.
      cbn in *. apply not_elem_of_cons in Hne as [? ?]. by apply Hsame. }
  destruct (Hgen (map_to_list (ManagerState.sessions st))) as [Hadv _].
  - apply NoDup_fst_map_to_list.
  - intros id s H. by apply elem_of_map_to_list.
  - unfold for_sessions. change (advances st
      (let '(sessions, references) := foldr body
         (ManagerState.sessions st, ManagerState.references st)
         (map_to_list (ManagerState.sessions st)) in
       ManagerState.set_references references (ManagerState.set_sessions sessions st))).
    by destruct (foldr body _ _).
Qed.

(** Exactly the sessions that meet the condition are changed. *)
Lemma for_sessions_lookup st id :
  ManagerState.sessions (for_sessions cond f st) !! id
  = (fun s => if cond s then g s else s) <$> ManagerState.sessions st !! id.
Proof.
  set (upd := fun s => if cond s then g s else s).
  assert (Hgen : forall l, NoDup l.*1 ->
    (forall id s, (id, s) ∈ l -> ManagerState.sessions st !! id = Some s) ->
    forall id, (foldr body (ManagerState.sessions st, ManagerState.references st) l).1 !! id
      = if decide (id ∈ l.*1) then upd <$> ManagerState.sessions st !! id
        else ManagerState.sessions st !! id).
  { induction l as [|[id0 s0] l IH]; intros Hnd Hin id1; [done|].
    rewrite fmap_cons in *. apply list.NoDup_cons in Hnd as [Hnotin Hnd].
    assert (IHl := IH Hnd (fun i s H => Hin i s (list_elem_of_further _ _ _ H)) id1).
    assert (Hs0 := Hin id0 s0 (list_elem_of_here _ _)).
    cbn [foldr fst] in *. set (q := foldr body _ l) in *.
    assert (Hq : (body (id0, s0) q).1 !! id1
                 = if decide (id1 = id0) then Some (upd s0) else q.1 !! id1).
    { destruct (cond s0) eqn:Hc.
      - rewrite body_step by done. cbn [fst]. unfold upd. rewrite Hc.
        destruct (decide (id1 = id0)) as [->|?];
          [by rewrite lookup_insert_eq|by rewrite lookup_insert_ne].
      - assert (Hb : body (id0, s0) q = q) by (destruct q; cbn; by rewrite Hc).
        rewrite Hb. destruct (decide (id1 = id0)) as [->|?]; [|done].
        rewrite IHl, decide_False by done.
        unfold upd. by rewrite Hc. }
    rewrite Hq, IHl. destruct (decide (id1 = id0)) as [->|Hne].
    - rewrite (decide_True (P := id0 ∈ id0 :: l.*1)) by left. by rewrite Hs0.
    - destruct (decide (id1 ∈ l.*1)).
      + by rewrite decide_True by by right.
      + rewrite decide_False; [done|]. rewrite elem_of_cons. naive_solver. }
  specialize (Hgen (map_to_list (ManagerState.sessions st))
    (NoDup_fst_map_to_list _) (fun i s H => proj1 (elem_of_map_to_list _ _ _) H) id).
  unfold for_sessions. change (
    ManagerState.sessions (let '(sessions, references) := foldr body
         (ManagerState.sessions st, ManagerState.references st)
         (map_to_list (ManagerState.sessions st)) in
       ManagerState.set_references references (ManagerState.set_sessions sessions st)) !! id
    = upd <$> ManagerState.sessions st !! id).
  destruct (foldr body _ _) as [m v]. cbn in *. rewrite Hgen.
  case_decide as Hd; [done|].
  destruct (ManagerState.sessions st !! id) as [s|] eqn:He; [|done].
  destruct Hd. apply list_elem_of_fmap. exists (id, s). split; [done|].
  by apply elem_of_map_to_list.
Qed.
(** No reference of a swept session survives, and none appears. *)
Lemma for_sessions_refs st r b :
  ManagerState.references (for_sessions cond f st) !! r = Some b ->
  ManagerState.references st !! r = Some b
  /\ forall id s, ManagerState.sessions st !! id = Some s -> cond s = true ->
       SessionRecord.session_id s <> ReferenceBinding.session_id b.
Proof.
  assert (Hgen : forall l,
    (foldr body (ManagerState.sessions st, ManagerState.references st) l).2 !! r = Some b ->
    ManagerState.references st !! r = Some b
    /\ forall id s, (id, s) ∈ l -> cond s = true ->
         SessionRecord.session_id s <> ReferenceBinding.session_id b).
  { induction l as [|[id0 s0] l IH]; intros H.
    - split; [done|]. intros id s Hin. by apply not_elem_of_nil in Hin.
    - cbn [foldr] in H. set (q := foldr body _ l) in *. destruct (cond s0) eqn:Hc.
      + rewrite body_step in H by done. cbn [snd] in H.
        apply lookup_invalidate in H as [H Hne]. destruct (IH H) as [? Hl]. split; [done|].
        intros id s [[= -> ->]|Hin]%elem_of_cons; [congruence | by apply (Hl id)].
      + assert (Hb : body (id0, s0) q = q) by (destruct q; cbn; by rewrite Hc).
        rewrite Hb in H. destruct (IH H) as [? Hl]. split; [done|].
        intros id s [[= -> ->]|Hin]%elem_of_cons; [congruence | by apply (Hl id)]. }
  intros H. specialize (Hgen (map_to_list (ManagerState.sessions st))).
  change (ManagerState.references (let '(sessions, references) := foldr body
         (ManagerState.sessions st, ManagerState.references st)
         (map_to_list (ManagerState.sessions st)) in
       ManagerState.set_references references (ManagerState.set_sessions sessions st)) !! r
    = Some b) in H.
  destruct (foldr body _ _) as [m v]. cbn in *. destruct (Hgen H) as [? Hl].
  split; [done|]. intros id s Hs. apply (Hl id). by apply elem_of_map_to_list.
Qed.
End Sweep.

(** ** Taking the lock *)
Definition paused (now : Z) (reason : AppControlPauseReason.t) (s : SessionRecord.t)
  : SessionRecord.t := fst (pause_session s ∅ now reason).

(** What [lock] does to one session: the driver-readiness pass, then the
    physical-input pass. *)
Definition lock_driver (env : Env) (s : SessionRecord.t) : SessionRecord.t :=
  match physical_input_ready env with
  | Some false =>
      if AppControlState.active (SessionRecord.state s) && negb (driver_lost s)
      then paused (now env 0) AppControlPauseReason.DriverUnavailable s else s
  | Some true => if driver_lost s then fst (resume_driver (now env 0) s ∅) else s
  | None => s
  end.
Definition lock_input (env : Env) (m : Manager) (s : SessionRecord.t) : SessionRecord.t :=
  match physical_input_epoch env with
  | Some current =>
      if negb (current =? AppControlManager.acknowledged_input_epoch m)
         && (AppControlState.active (SessionRecord.state s)
             && bool_decide (SessionRecord.state s <> AppControlState.Takeover))
      then paused (now env 1) AppControlPauseReason.UserInput s else s
  | None => s
  end.

Lemma lock_lookup env m id :
  ManagerState.sessions (AppControlManager.inner (lock env m)) !! id
  = (fun s => lock_input env m (lock_driver env s))
      <$> ManagerState.sessions (AppControlManager.inner m) !! id.
Proof.
  unfold lock, lock_input, lock_driver.
  destruct (physical_input_ready env) as [[]|], (physical_input_epoch env) as [e|]; cbn;
    try destruct (negb (e =? _)); cbn;
    rewrite ?(for_sessions_lookup _ _ (fun s => paused (now env 1) AppControlPauseReason.UserInput s)),
      ?(for_sessions_lookup _ _ (fun s => fst (resume_driver (now env 0) s ∅))),
      ?(for_sessions_lookup _ _ (fun s => paused (now env 0) AppControlPauseReason.DriverUnavailable s))
      by done;
    destruct (ManagerState.sessions _ !! id); done.
Qed.

Lemma resumed_ok id s v now :
  session_ok id s -> session_ok id (fst (resume_driver now s v)).
Proof. intros H. by apply (bumped_ok id s H v now AppControlState.ReturnPending None). Qed.
Lemma resumed_le id s v now :
  session_ok id s -> session_le s (fst (resume_driver now s v)).
Proof. intros H. by apply (bumped_le id s H v now AppControlState.ReturnPending None). Qed.

Lemma lock_advances env m :
  advances (AppControlManager.inner m) (AppControlManager.inner (lock env m)).
Proof.
  assert (Hp : forall cond now reason st,
    advances st (for_sessions cond (fun s v => pause_session s v now reason) st)).
  { intros cond t reason st. apply (for_sessions_advances _ _ (paused t reason)); [done|done|].
    intros id s _ H. split; [by apply paused_ok | by eapply paused_le]. }
  assert (Hr : forall cond now st,
    advances st (for_sessions cond (resume_driver now) st)).
  { intros cond t st.
    apply (for_sessions_advances _ _ (fun s => fst (resume_driver t s ∅))); [done|done|].
    intros id s _ H. split; [by apply resumed_ok | by eapply resumed_le]. }
  unfold lock. set (st1 := match physical_input_ready env with Some _ => _ | None => _ end).
  assert (H1 : advances (AppControlManager.inner m) st1).
  { subst st1. destruct (physical_input_ready env) as [[]|];
      [apply Hr | apply Hp | reflexivity]. }
  destruct (physical_input_epoch env) as [e|]; [|exact H1].
  transitivity st1; [exact H1|]. cbn -[for_sessions].
  destruct (negb _); [apply Hp | reflexivity].
Qed.

(** ** Taking in an observation *)
Lemma app_profile_name b n n' :
  DesktopAppProfile.qualification (app_profile b n)
  = DesktopAppProfile.qualification (app_profile b n').
Proof. unfold app_profile. by repeat case_match. Qed.

Lemma issue_elements_vault rng i ctx focused exp raw vault fe fs els r b :
  (issue_elements rng i ctx focused exp raw vault fe fs els).1.1.1 !! r = Some b ->
  vault !! r = Some b
  \/ (ReferenceBinding.session_id b = ReferenceContext.session_id ctx
      /\ ReferenceBinding.project_id b = ReferenceContext.project_id ctx
      /\ ReferenceBinding.task_run_id b = ReferenceContext.task_run_id ctx
      /\ ReferenceBinding.generation b = ReferenceContext.generation ctx
      /\ ReferenceBinding.revision b = ReferenceContext.revision ctx).
Proof.
  revert i vault fe fs els. induction raw as [|x raw IH]; intros i vault fe fs els; cbn; [auto|].
  intros H. apply IH in H as [H|H]; [|auto].
  apply lookup_insert_Some in H as [[_ <-]|[_ H]]; [right|by left]. done.
Qed.

Section Observation.
Context (to_vec : Document -> option (list Z)) (sha256 : list Z -> list Z).
Context (rng : nat -> list Z).

Definition in_scope (raw : DriverObservation.t) (s : SessionRecord.t) : Prop :=
  let b := DesktopApplicationObservation.bundle_id (DriverObservation.application raw) in
  b ∈ SessionRecord.approved_bundle_ids s /\ qualified_bundle b.

Lemma finish_advances st id s s1 refs1 raw now qualified first app_ch win_ch allow :
  ManagerState.sessions st !! id = Some s ->
  session_ok id s1 -> session_le s s1 ->
  refs1 = invalidate_session id (ManagerState.references st) ->
  (SessionRecord.state s1 = AppControlState.Running -> in_scope raw s1) ->
  (qualified = true -> in_scope raw s1) ->
  advances st (fst (finish_observation to_vec sha256 rng st id s1 refs1 raw now
                      qualified first app_ch win_ch allow)).
Proof.
  intros Hs Hok Hle -> Hrun Hq. unfold finish_observation. cbn zeta.
  set (s2 := SessionRecord.set_revision _ s1).
  set (ctx := ReferenceContext.mk _ _ _ _ _ _ _ _ _).
  destruct (issue_elements _ _ _ _ _ _ _ _ _ _) as [[[v fe] sec] els] eqn:Hi.
  assert (Hv : forall s', session_le s2 s' ->
      SessionRecord.generation s' = SessionRecord.generation s2 ->
      SessionRecord.revision s' = SessionRecord.revision s2 ->
      vault_step id s' (ManagerState.references st) v).
  { intros s' [] Hg Hr r b Hb. pose proof (f_equal (fun q => q.1.1.1) Hi) as Hv. cbn in Hv.
    rewrite <- Hv in Hb. apply issue_elements_vault in Hb as [Hb|Hb].
    - apply lookup_invalidate in Hb as [? ?]. by left.
    - right. pose proof (ok_id _ _ Hok). cbn in *. unfold bound_to.
      split; [naive_solver congruence|]. intuition congruence. }
  assert (Hok2 : session_ok id s2) by (destruct Hok; constructor; cbn; auto; int_lia).
  assert (Hle2 : session_le s1 s2)
    by (destruct Hok; constructor; cbn; try done; [int_lia|]; intros; left; done).
  assert (Hok_le : forall s', session_ok id s' -> session_le s2 s' ->
      SessionRecord.generation s' = SessionRecord.generation s2 ->
      SessionRecord.revision s' = SessionRecord.revision s2 ->
      advances st (store id s' v st)).
  { intros s' Hok' Hle' Hg Hr. eapply store_advances; [done|done| |].
    - intros _. transitivity s1; [done|]. by transitivity s2.
    - intros _. by apply Hv. }
  destruct (hash_serializable _ _ _) as [h|e|]; cbn [fst]; [|by apply Hok_le..].
  set (obs := DesktopObservation.set_observation_hash h _).
  set (s3 := SessionRecord.set_updated_at_ms now
               (SessionRecord.set_last_observation (Some obs) s2)).
  set (s4 := if _ && _ then _ else s3).
  assert (Hshape : session_ok id (SessionRecord.set_state AppControlState.Paused s4)
      /\ session_le s2 s4
      /\ SessionRecord.generation s4 = SessionRecord.generation s2
      /\ SessionRecord.revision s4 = SessionRecord.revision s2).
  { subst s4. destruct Hok2. case_match;
      (split; [constructor; cbn; done|]); (split; [|done]);
      constructor; cbn; try done; try (intros; left; done).
    - by destruct qualified.
    - intros Ha. rename select (_ && _ = true) into Hset.
      apply andb_true_iff in Hset as [_ [Hset|Hset]%orb_true_iff]; split_bools; cbn in *;
        by match goal with H : _ = AppControlState.ReturnPending |- _ => rewrite H in Ha
           | H : _ = AppControlState.Observing |- _ => rewrite H in Ha end. }
  destruct Hshape as (Hok4 & Hle4 & Hg4 & Hr4).
  assert (Hpause : forall reason,
     advances st (store id (paused now reason s4) (invalidate_session id v) st)).
  { intros reason.
    change (paused now reason s4)
      with (paused now reason (SessionRecord.set_state AppControlState.Paused s4)).
    eapply store_advances; [done | | |].
    - intros _. by apply paused_ok.
    - intros _. transitivity s1; [done|]. transitivity s2; [done|].
      transitivity s4; [done|].
      change (session_le s4 (paused now reason s4)).
      destruct Hok4; constructor; cbn in *; try done; int_lia.
    - intros _ r b [Hb Hne]%lookup_invalidate.
      destruct (Hv s2 ltac:(reflexivity) eq_refl eq_refl r b Hb); naive_solver. }
  assert (Hid4 : SessionRecord.session_id s4 = id) by (apply (ok_id _ _ Hok4)).
  assert (Hpause' : forall reason, advances st
    (store id (paused now reason s4) (invalidate_session (SessionRecord.session_id s4) v) st))
    by (intros reason; rewrite Hid4; apply Hpause).
  destruct (negb (DesktopWindowObservation.visible (DriverObservation.window raw)))
    eqn:Hvis; [apply Hpause'|].
  destruct sec; [apply Hpause'|].
  apply Hok_le; [|done..].
  destruct Hok4 as [? ? ? ? _]. constructor; [done..|]. intros Hrunning.
  exists obs. apply negb_false_iff in Hvis.
  assert (Hscope : in_scope raw s1).
  { subst s4. cbn in Hrunning. case_match; cbn in Hrunning; [|by apply Hrun].
    destruct qualified; [by apply Hq | done]. }
  destruct Hscope. subst s4. case_match; repeat split; done.
Qed.

Lemma apply_advances st id raw now allow :
  advances st (fst (apply_observation to_vec sha256 rng st id raw now allow)).
Proof.
  unfold apply_observation.
  destruct (validate_raw_observation raw); [|reflexivity..].
  destruct (ManagerState.sessions st !! id) as [s|] eqn:Hs; [|reflexivity].
  apply advances_when. intros Hst. assert (Hok := proj1 Hst id s Hs).
  assert (Hpause : forall reason, advances st
    (store id (paused now reason s) (invalidate_session id (ManagerState.references st)) st)).
  { intros reason. rewrite <- (ok_id _ _ Hok) at 2. by apply pause_advances. }
  case_bool_decide; [by apply (pause_advances st id s)|].
  case_bool_decide as Hbrowser.
  { cbn [fst]. eapply store_advances; [done| | |].
    - intros _. destruct Hok; constructor; cbn; done.
    - intros _. constructor; cbn; done || lia.
    - intros _. apply vault_step_invalidate. }
  destruct (_ && negb _) eqn:Happroved; [reflexivity|].
  cbn zeta. set (qual := bool_decide (_ = ApplicationQualification.Qualified)) in *.
  assert (Hq : qual = true -> in_scope raw s).
  { intros Hqual. rewrite Hqual in Happroved. cbn in Happroved.
    apply negb_false_iff, bool_decide_eq_true in Happroved.
    apply bool_decide_eq_true in Hqual. split; [done|].
    unfold qualified_bundle. by erewrite app_profile_name. }
  destruct (option_test (app_differs raw) _) eqn:Happ.
  { apply finish_advances with s; try done.
    - by apply (paused_ok id s Hok (ManagerState.references st)).
    - by apply (paused_le id s Hok (ManagerState.references st)).
    - by rewrite <- (ok_id _ _ Hok). }
  destruct (_ && negb allow).
  { apply finish_advances with s; try done.
    - by apply (paused_ok id s Hok (ManagerState.references st)).
    - by apply (paused_le id s Hok (ManagerState.references st)).
    - by rewrite <- (ok_id _ _ Hok). }
  apply finish_advances with s; try done.
  intros Hrun. destruct (ok_running _ _ Hok Hrun) as (o & Ho & _ & Hin & Hqb).
  rewrite Ho in Happ. cbn in Happ. unfold app_differs in Happ. split_bools.
  rename select (str_eqb _ _ = true) into Hb. apply str_eqb_eq in Hb.
  unfold in_scope. unfold bundle_of in *. rewrite <- Hb. done.
Qed.
End Observation.

(** * Guarded app control: every critical section keeps the invariant

    One lemma per section of [CuManager] and [CuExecute]: run on a state that
    satisfies [state_ok], it leaves a state that satisfies it and in which every
    session has only advanced ([advances]).  The system of [CuSystem] is built
    from these sections, so its invariants follow by rule induction. *)
Notation inner := AppControlManager.inner.
Notation madvances m m' := (advances (inner m) (inner m')).

Lemma record_task_event_inner env ev m : inner (fst (record_task_event env ev m)) = inner m.
Proof. unfold record_task_event. by repeat case_match. Qed.

Lemma with_lock_advances {A} env (body : ManagerState.t -> AppControlResult A) m :
  madvances m (fst (with_lock env body m)).
Proof. apply lock_advances. Qed.

(** Writing the state a section computed after taking the lock. *)
Lemma locked_advances env m st :
  advances (inner (lock env m)) st -> madvances m (write st (lock env m)).
Proof. intros H. transitivity (inner (lock env m)); [apply lock_advances | exact H]. Qed.

#[export] Hint Resolve lock_advances with_lock_advances locked_advances : oomu.

Lemma grant_selected_file_advances env project task file m :
  madvances m (fst (grant_selected_file env project task file m)).
Proof.
  unfold grant_selected_file. case_match; [|reflexivity..].
  repeat case_match. cbn [fst]. apply (locked_advances env). by apply same_advances.
Qed.

Lemma control_ok id s v now c :
  session_ok id s ->
  session_ok id (SessionRecord.set_pause_reason (control_target c).2
    (SessionRecord.set_state (control_target c).1 (fst (invalidate_generation s v now)))).
Proof. intros H. apply bumped_ok; [done|]. by destruct c. Qed.

Lemma control_advances env request m : madvances m (fst (control env request m)).
Proof.
  unfold control. destruct (ManagerState.sessions _ !! _) as [s|] eqn:Hs;
    [|apply lock_advances].
  destruct (require_task _ _); [|apply lock_advances..].
  destruct (negb _); [apply lock_advances|].
  set (c := ControlAppControlSessionRequest.control request).
  destruct (control_target c) as [target reason] eqn:Hc. cbn [invalidate_generation fst].
  apply (locked_advances env). set (s' := SessionRecord.set_pause_reason _ _).
  match goal with |- advances ?st _ =>
    transitivity (store (ControlAppControlSessionRequest.session_id request) s'
      (invalidate_session (SessionRecord.session_id s) (ManagerState.references st)) st) end.
  - apply advances_when. intros Hst. assert (Hok := proj1 Hst _ _ Hs).
    eapply store_advances; [done | | |].
    + intros _. pose proof (control_ok _ s ∅ (now env 2) c Hok) as H. by rewrite Hc in H.
    + intros _. by apply (bumped_le _ s Hok ∅).
    + intros _. rewrite (ok_id _ _ Hok). apply vault_step_invalidate.
  - destruct c; try reflexivity. case_bool_decide; [by apply same_advances | reflexivity].
Qed.

Lemma notify_user_input_advances env id task m :
  madvances m (fst (notify_user_input env id task m)).
Proof.
  unfold notify_user_input. destruct (ManagerState.sessions _ !! _) as [s|] eqn:Hs;
    [|apply lock_advances].
  destruct (require_task _ _); [|apply lock_advances..].
  destruct (negb _); [apply lock_advances|].
  apply (locked_advances env). by apply (pause_advances _ id s).
Qed.

Lemma receipt_advances env receipt_id task m :
  madvances m (fst (receipt env receipt_id task m)).
Proof. unfold receipt. case_match; [apply with_lock_advances | reflexivity..]. Qed.

Lemma pause_for_driver_error_advances env id task generation e m :
  madvances m (pause_for_driver_error env id task generation e m).
Proof.
  unfold pause_for_driver_error. destruct (ManagerState.sessions _ !! _) as [s|] eqn:Hs;
    [|apply lock_advances].
  destruct (_ || _); [apply lock_advances|].
  apply (locked_advances env). by apply (pause_advances _ id s).
Qed.

(** Assigning fields the invariant does not speak of. *)
Lemma bookkeeping_advances st id s s' :
  ManagerState.sessions st !! id = Some s ->
  (session_ok id s -> session_ok id s') -> (session_ok id s -> session_le s s') ->
  SessionRecord.generation s' = SessionRecord.generation s ->
  SessionRecord.revision s' = SessionRecord.revision s ->
  advances st (store id s' (ManagerState.references st) st).
Proof.
  intros Hs Hok Hle Hg Hr. apply advances_when. intros Hst.
  assert (H := proj1 Hst id s Hs).
  eapply store_advances; [done..|]. intros Hv. by apply vault_step_same with s; auto.
Qed.

Ltac keep_session :=
  intros []; constructor; cbn; try done; try lia; try (intros; left; done).

Section Sections.
Context (to_vec : Document -> option (list Z)) (sha256 : list Z -> list Z).

Lemma record_action_failure_advances env id task generation before authority did e m :
  madvances m (record_action_failure sha256 env id task generation before authority did e m).
Proof.
  unfold record_action_failure.
  destruct (ManagerState.sessions _ !! _) as [s|] eqn:Hs; [|apply lock_advances].
  destruct (_ || _); [apply lock_advances|].
  rewrite record_task_event_inner. apply (locked_advances env).
  set (s' := SessionRecord.set_updated_at_ms _ _).
  transitivity (store id s' (ManagerState.references (inner (lock env m))) (inner (lock env m))).
  - eapply bookkeeping_advances; [done | keep_session | keep_session | done..].
  - by apply same_advances.
Qed.

Lemma observe_finish_advances env id task generation reply m :
  madvances m (fst (observe_finish to_vec sha256 env id task generation reply m)).
Proof.
  unfold observe_finish. destruct reply as [raw|e|];
    [|by apply pause_for_driver_error_advances|reflexivity].
  destruct (ensure_generation _ _ _ _ _); [|apply lock_advances..].
  pose proof (apply_advances to_vec sha256 (rng env) (inner (lock env m)) id raw
                (now env 2) false) as H.
  destruct (apply_observation _ _ _ _ _ _ _ _) as [st obs].
  destruct obs as [obs| |]; [|by apply (locked_advances env)..].
  pose proof (record_task_event_inner env
    (mkTaskEvent (DesktopObservation.task_run_id obs) (lit "app_control.observation")
       ObservedResult (ObservationPayload (lit "before_or_resume") obs))
    (write st (lock env m))) as Hr.
  unfold record_observation. destruct (record_task_event _ _ _) as [m' r].
  cbn in Hr. cbn [fst]. rewrite Hr. by apply (locked_advances env).
Qed.

Lemma execute_prepare_advances env request m :
  madvances m (fst (execute_prepare to_vec sha256 env request m)).
Proof.
  unfold execute_prepare. case_match eqn:Hc; [|apply lock_advances..].
  destruct a as [s before]. destruct (negb _); [|apply lock_advances].
  apply (locked_advances env). apply pause_advances. inv_res. by simplify_eq.
Qed.

Lemma authority_request_for_advances env request m :
  madvances m (fst (authority_request_for to_vec sha256 env request m)).
Proof. apply with_lock_advances. Qed.

Lemma execute_commit_advances env request p binding m :
  madvances m (fst (execute_commit env request p binding m)).
Proof.
  unfold execute_commit. case_match eqn:Hc; [|apply lock_advances..].
  cbn [fst]. apply (locked_advances env). inv_res. subst.
  eapply bookkeeping_advances; [done | keep_session | keep_session | done..].
Qed.

Lemma execute_recheck_advances env request p m :
  madvances m (fst (execute_recheck env request p m)).
Proof. apply with_lock_advances. Qed.

Lemma record_mismatch_advances env id st : advances st (record_mismatch env id st).
Proof.
  unfold record_mismatch. destruct (ManagerState.sessions st !! id) as [s|] eqn:Hs;
    [|reflexivity].
  set (s' := SessionRecord.set_mismatch_count _ _).
  assert (Hb : advances st (store id s' (ManagerState.references st) st)).
  { eapply bookkeeping_advances; [done | keep_session | keep_session | done..]. }
  destruct (2 <=? _); [|exact Hb].
  transitivity (store id s' (ManagerState.references st) st); [exact Hb|].
  set (st1 := store id s' (ManagerState.references st) st).
  assert (Hs1 : ManagerState.sessions st1 !! id = Some s') by apply lookup_insert_eq.
  pose proof (pause_advances st1 id s' (now env 3) AppControlPauseReason.RepeatedMismatch Hs1)
    as Hp. cbn [pause_session invalidate_generation] in *.
  unfold store in *. cbn in Hp. by rewrite insert_insert_eq in Hp.
Qed.

Lemma commit_receipt_advances st id receipt after :
  advances st (fst (commit_receipt st id receipt after)).
Proof.
  unfold commit_receipt. destruct (ManagerState.sessions st !! id) as [s|] eqn:Hs;
    [|reflexivity].
  destruct (negb _); [reflexivity|]. set (s' := SessionRecord.set_updated_at_ms _ _).
  transitivity (store id s' (ManagerState.references st) st).
  - eapply bookkeeping_advances; [done | keep_session | keep_session | done..].
  - by apply same_advances.
Qed.

Lemma execute_complete_advances env request p decision result raw m :
  madvances m (fst (execute_complete to_vec sha256 env request p decision result raw m)).
Proof.
  unfold execute_complete. destruct (ensure_current _ _ _); [|apply lock_advances..].
  pose proof (apply_advances to_vec sha256 (rng env) (inner (lock env m))
    (ExecuteDesktopActionRequest.session_id request) raw (now env 2)
    (bool_decide (ExecuteDesktopActionRequest.expected_outcome request
                  = ExpectedOutcomeKind.WindowState))) as H.
  destruct (apply_observation _ _ _ _ _ _ _ _) as [st obs]. cbn in H.
  destruct obs as [after| |]; [|by apply (locked_advances env)..].
  destruct (ManagerState.sessions st !! _) as [s|]; [|by apply (locked_advances env)].
  destruct (verify_postcondition _ _ _ _ _ _ _ _ _ _); [| |by apply (locked_advances env)].
  - destruct (outcome_receipt _ _ _ _ _ _ _ _ _ _) as [receipt| |];
      [|by apply (locked_advances env)..].
    pose proof (commit_receipt_advances st
      (ExecuteDesktopActionRequest.session_id request) receipt after) as Hc.
    destruct (commit_receipt _ _ _ _) as [st' r]. cbn in *. apply (locked_advances env).
    by transitivity st.
  - apply (locked_advances env). transitivity st; [done | apply record_mismatch_advances].
Qed.

Lemma execute_record_inner env outcome m :
  inner (fst (execute_record env outcome m)) = inner m.
Proof.
  unfold execute_record, record_observation.
  match goal with |- context [record_task_event ?e ?ev m] =>
    pose proof (record_task_event_inner e ev m) as H1;
    destruct (record_task_event e ev m) as [m1 r1] end.
  cbn in H1. destruct r1; [|done..]. cbn zeta.
  match goal with |- context [record_task_event ?e ?ev m1] =>
    pose proof (record_task_event_inner e ev m1) as H2;
    destruct (record_task_event e ev m1) as [m2 r2] end.
  cbn in *. congruence.
Qed.
End Sections.

(** ** Starting a session *)
(** The identifier drawn for a new session. *)
Definition new_session_id (env : Env) : str := opaque_id (lit "appcontrol") (rng env 0%nat).

Lemma start_session_advances env request m :
  ManagerState.sessions (inner m) !! new_session_id env = None ->
  madvances m (fst (start_session env request m)).
Proof.
  intros Hfresh. unfold start_session. case_match; [|reflexivity..].
  destruct a as [[[project task] approved] roots].
  case_match eqn:Hclaim; [|apply lock_advances..]. destruct a as [grants roots'].
  match goal with |- context [record_task_event ?e ?ev ?m1] =>
    pose proof (record_task_event_inner e ev m1) as H1;
    destruct (record_task_event e ev m1) as [m2 r2] end.
  cbn [fst] in H1 |- *. rewrite H1.
  transitivity (inner (lock env m)); [apply lock_advances|].
  assert (Hfresh' : ManagerState.sessions (inner (lock env m)) !! new_session_id env = None)
    by (rewrite lock_lookup, Hfresh; done).
  fold (new_session_id env). intros [Hs Hv]. split; [split|].
  - apply map_Forall_insert_2; [|done]. constructor; cbn; try done; int_lia.
  - intros r b Hb. destruct (Hv r b Hb) as (s & Hs' & Hbound). exists s. cbn -[new_session_id lock].
    split; [|done]. rewrite lookup_insert_ne; [done|]. congruence.
  - intros id s Hid. exists s. cbn -[new_session_id lock]. rewrite lookup_insert_ne by congruence. done.
Qed.
