(* ===== verification/CuSystem.v ===== *)
(** * Guarded app control: the manager under concurrent calls

    A [System] is the manager with the calls in flight, each stopped between two
    critical sections.  An [Event] is either one call that holds the mutex once
    ([control], [start_session], ...), the first section of [observe] or
    [execute], or the next section of a call in flight, together with what the
    outside answered it: the authority's decision, the driver's replies, clock
    readings, random bytes ([Answer]).  A sequence of events is one interleaving
    of the threads; [reachable] collects all of them.

    The theorems: what a running session shows and what the driver is asked to
    do stays inside the session's approvals ([running_session_in_scope],
    [driver_request_in_scope]); a token that is not cancelled means nobody
    paused, stopped or took over the session ([live_token_means_undisturbed]);
    a stop is final ([stopped_is_final]); references name the present state of
    their session ([references_are_current]); a session's scope never changes
    and its counters never go back ([session_scope_immutable]). *)
From S2P Require Import Prelude RustStr P0Contracts CuContracts CuPolicy CuState CuVerification CuObservation CuManager CuExecute CuInvariants.
Local Open Scope Z_scope.

(** ** Calls in flight *)
Module Call.
Inductive t : Type :=
(** [observe] after its first section: the driver is observing *)
| Observing (session_id task_run_id : str) (generation : Z)
| Observed (result : AppControlResult DesktopObservation.t)
(** [execute] while the authority decides *)
| Authorizing (request : ExecuteDesktopActionRequest.t) (binding : option Z)
    (p : Prepared.t)
(** while the driver acts *)
| Performing (request : ExecuteDesktopActionRequest.t) (p : Prepared.t)
    (decision : AuthorityDecision.t) (driver_request : DriverActionRequest.t)
(** while the driver observes the effect *)
| Watching (request : ExecuteDesktopActionRequest.t) (p : Prepared.t)
    (decision : AuthorityDecision.t) (result : DriverActionResult.t)
(** after the last section, before the evidence is recorded *)
| Recording (outcome : DesktopActionOutcome.t)
| Executed (result : AppControlResult DesktopActionOutcome.t).
End Call.

Record System : Type := mkSystem { manager : Manager; calls : list Call.t }.
Definition new_system : System := mkSystem AppControlManager.new [].

Record Answer : Type := mkAnswer {
  answer_env : Env;
  answer_decision : AppControlResult AuthorityDecision.t;
  answer_perform : AppControlResult DriverActionResult.t;
  answer_observe : AppControlResult DriverObservation.t;
}.

Inductive Event : Type :=
| GrantSelectedFile (env : Env) (project_id task_run_id : str) (selected_file : path)
| StartSession (env : Env) (request : StartAppControlSession.t)
| GetStatus (env : Env) (task_run_id : option str)
| ControlSession (env : Env) (request : ControlAppControlSessionRequest.t)
| NotifyUserInput (env : Env) (session_id task_run_id : str)
| GetReceipt (env : Env) (receipt_id task_run_id : str)
| AuthorityRequestFor (env : Env) (request : ExecuteDesktopActionRequest.t)
| CallObserve (env : Env) (session_id task_run_id : str)
| CallExecute (env : Env) (binding : option Z) (request : ExecuteDesktopActionRequest.t)
| Resume (i : nat) (answer : Answer).


Section System.
Context (to_vec : Document -> option (list Z)) (sha256 : list Z -> list Z).

(** The failure path both driver calls of [execute] share. *)
Definition fail_action (env : Env) (request : ExecuteDesktopActionRequest.t)
    (p : Prepared.t) (decision : AuthorityDecision.t) (e : AppControlError.t)
    (m : Manager) : Manager * Call.t :=
  (record_action_failure sha256 env (ExecuteDesktopActionRequest.session_id request)
     (ExecuteDesktopActionRequest.task_run_id request) (Prepared.generation p)
     (Prepared.before p) (Prepared.authority_request p)
     (AuthorityDecision.decision_id decision) e m,
   Call.Executed (Err e)).

(** [self.authority.evaluate(..)?], the check of the decision, section two. *)
Definition resume_authorizing (a : Answer) (request : ExecuteDesktopActionRequest.t)
    (binding : option Z) (p : Prepared.t) (m : Manager) : Manager * Call.t :=
  match (decision ← answer_decision a; _ ← check_decision decision; Ok decision) with
  | Err e => (m, Call.Executed (Err e))
  | Panic => (m, Call.Executed Panic)
  | Ok decision =>
      let '(m, r) := execute_commit (answer_env a) request p binding m in
      (m, match r with
          | Ok driver_request => Call.Performing request p decision driver_request
          | Err e => Call.Executed (Err e)
          | Panic => Call.Executed Panic
          end)
  end.

(** [self.driver.perform(..)] answered; section three. *)
Definition resume_performing (a : Answer) (request : ExecuteDesktopActionRequest.t)
    (p : Prepared.t) (decision : AuthorityDecision.t) (m : Manager) : Manager * Call.t :=
  match answer_perform a with
  | Err e => fail_action (answer_env a) request p decision e m
  | Panic => (m, Call.Executed Panic)
  | Ok result =>
      let '(m, r) := execute_recheck (answer_env a) request p m in
      (m, match r with
          | Ok _ => Call.Watching request p decision result
          | Err e => Call.Executed (Err e)
          | Panic => Call.Executed Panic
          end)
  end.

(** [self.driver.observe(..)] answered; section four. *)
Definition resume_watching (a : Answer) (request : ExecuteDesktopActionRequest.t)
    (p : Prepared.t) (decision : AuthorityDecision.t) (result : DriverActionResult.t)
    (m : Manager) : Manager * Call.t :=
  match answer_observe a with
  | Err e => fail_action (answer_env a) request p decision e m
  | Panic => (m, Call.Executed Panic)
  | Ok raw =>
      let '(m, r) :=
        execute_complete to_vec sha256 (answer_env a) request p decision result raw m in
      (m, match r with
          | Ok outcome => Call.Recording outcome
          | Err e => Call.Executed (Err e)
          | Panic => Call.Executed Panic
          end)
  end.

Definition resume (a : Answer) (c : Call.t) (m : Manager) : Manager * Call.t :=
  match c with
  | Call.Observing session_id task_run_id generation =>
      let '(m, r) := observe_finish to_vec sha256 (answer_env a) session_id task_run_id
                       generation (answer_observe a) m in
      (m, Call.Observed r)
  | Call.Authorizing request binding p => resume_authorizing a request binding p m
  | Call.Performing request p decision _ => resume_performing a request p decision m
  | Call.Watching request p decision result =>
      resume_watching a request p decision result m
  | Call.Recording outcome =>
      let '(m, r) := execute_record (answer_env a) outcome m in (m, Call.Executed r)
  | Call.Observed _ | Call.Executed _ => (m, c)
  end.

(** The first section of [observe] and of [execute]. *)
Definition call_observe (env : Env) (session_id task_run_id : str) (m : Manager)
  : Manager * Call.t :=
  let '(m, r) := observe_begin env session_id task_run_id m in
  (m, match r with
      | Ok (_, generation) => Call.Observing session_id task_run_id generation
      | Err e => Call.Observed (Err e)
      | Panic => Call.Observed Panic
      end).
Definition call_execute (env : Env) (binding : option Z)
    (request : ExecuteDesktopActionRequest.t) (m : Manager) : Manager * Call.t :=
  let '(m, r) := execute_prepare to_vec sha256 env request m in
  (m, match r with
      | Ok p => Call.Authorizing request binding p
      | Err e => Call.Executed (Err e)
      | Panic => Call.Executed Panic
      end).

Definition apply (e : Event) (sys : System) : System :=
  let m := manager sys in
  match e with
  | GrantSelectedFile env project task file =>
      mkSystem (fst (grant_selected_file env project task file m)) (calls sys)
  | StartSession env request => mkSystem (fst (start_session env request m)) (calls sys)
  | GetStatus env task => mkSystem (fst (get_status env task m)) (calls sys)
  | ControlSession env request => mkSystem (fst (control env request m)) (calls sys)
  | NotifyUserInput env id task =>
      mkSystem (fst (notify_user_input env id task m)) (calls sys)
  | GetReceipt env id task => mkSystem (fst (receipt env id task m)) (calls sys)
  | AuthorityRequestFor env request =>
      mkSystem (fst (authority_request_for to_vec sha256 env request m)) (calls sys)
  | CallObserve env id task =>
      let '(m, c) := call_observe env id task m in mkSystem m (calls sys ++ [c])
  | CallExecute env binding request =>
      let '(m, c) := call_execute env binding request m in mkSystem m (calls sys ++ [c])
  | Resume i a =>
      match calls sys !! i with
      | None => sys
      | Some c => let '(m, c) := resume a c m in mkSystem m (<[i := c]> (calls sys))
      end
  end.

(** The 24 random bytes of a new session identifier give one not in use. *)
Definition draws_fresh_id (e : Event) (sys : System) : Prop :=
  match e with
  | StartSession env _ =>
      ManagerState.sessions (inner (manager sys)) !! new_session_id env = None
  | _ => True
  end.

Inductive reachable : System -> Prop :=
| reachable_new : reachable new_system
| reachable_apply sys e :
    reachable sys -> draws_fresh_id e sys -> reachable (apply e sys).
End System.

(** ** Calls in flight and the sessions they name *)
(** A call that read generation [g] of a session: later generations only, and a
    stopped session has already left [g] behind. *)
Definition token_ok (sessions : gmap str SessionRecord.t) (id : str) (g : Z) : Prop :=
  exists s, sessions !! id = Some s /\ g <= SessionRecord.generation s
    /\ (SessionRecord.state s = AppControlState.Stopped ->
        SessionRecord.generation s < u64_max -> g < SessionRecord.generation s).

(** What an action about to be performed keeps to, in terms of the parts of its
    session that never change. *)
Record in_session_scope (request : ExecuteDesktopActionRequest.t) (p : Prepared.t)
    (s : SessionRecord.t) : Prop := {
  scope_task :
    SessionRecord.task_run_id s = ExecuteDesktopActionRequest.task_run_id request;
  scope_visible : visible_in (Prepared.before p) = true;
  scope_approved : bundle_of (Prepared.before p) ∈ SessionRecord.approved_bundle_ids s;
  scope_qualified : qualified_bundle (bundle_of (Prepared.before p));
  scope_action : Prepared.action p = ExecuteDesktopActionRequest.action request;
  scope_kind : DesktopSemanticAction.kind (Prepared.action p)
    ∈ DesktopAppProfile.allowed_actions
        (app_profile (bundle_of (Prepared.before p)) (bundle_of (Prepared.before p)));
  scope_insecure :
    Forall (fun t => ResolvedDriverTarget.secure t = false) (Prepared.targets p);
  scope_file :
    match Prepared.action p with
    | DesktopSemanticAction.ChooseFile _ grant_id =>
        exists f, Prepared.selected_file p = Some f
          /\ ScopedFileRoots.granted_files (SessionRecord.file_roots s) !! grant_id = Some f
    | _ => Prepared.selected_file p = None
    end;
}.

Definition prepared_ok (sessions : gmap str SessionRecord.t)
    (request : ExecuteDesktopActionRequest.t) (p : Prepared.t) : Prop :=
  let id := ExecuteDesktopActionRequest.session_id request in
  token_ok sessions id (Prepared.generation p)
  /\ exists s, sessions !! id = Some s /\ in_session_scope request p s
     /\ (SessionRecord.generation s = Prepared.generation p ->
         SessionRecord.generation s < u64_max ->
         acting (SessionRecord.state s) = true).

(** The request handed to the driver is the prepared one, under a token for the
    prepared generation. *)
Record handed_over (request : ExecuteDesktopActionRequest.t) (p : Prepared.t)
    (decision : AuthorityDecision.t) (dr : DriverActionRequest.t) : Prop := {
  handed_authorized : AuthorityDecision.authorized decision = true;
  handed_session :
    DriverActionRequest.session_id dr = ExecuteDesktopActionRequest.session_id request;
  handed_task :
    DriverActionRequest.task_run_id dr = ExecuteDesktopActionRequest.task_run_id request;
  handed_application :
    DriverActionRequest.application dr = DesktopObservation.application (Prepared.before p);
  handed_window :
    DriverActionRequest.window dr = DesktopObservation.window (Prepared.before p);
  handed_action : DriverActionRequest.action dr = Prepared.action p;
  handed_targets : DriverActionRequest.targets dr = Prepared.targets p;
  handed_file : DriverActionRequest.selected_file dr = Prepared.selected_file p;
  handed_token : Prepared.generation p < u64_max ->
    DriverCancellationToken.expected (DriverActionRequest.cancellation dr)
    = Prepared.generation p;
}.

Definition call_ok (sessions : gmap str SessionRecord.t) (c : Call.t) : Prop :=
  match c with
  | Call.Observing id _ g => token_ok sessions id g
  | Call.Authorizing request _ p => prepared_ok sessions request p
  | Call.Performing request p decision dr =>
      prepared_ok sessions request p /\ handed_over request p decision dr
  | Call.Watching request p _ _ => prepared_ok sessions request p
  | Call.Observed _ | Call.Recording _ | Call.Executed _ => True
  end.

Lemma token_ok_le m m' id g : sessions_le m m' -> token_ok m id g -> token_ok m' id g.
Proof.
  intros Hle (s & Hs & Hg & Hst). destruct (Hle id s Hs) as (s' & Hs' & []).
  exists s'. split; [done|]. split; [lia|]. intros H1 H2.
  destruct (le_stopped H1 H2) as [[Ha He]|]; [|lia]. rewrite He in *. auto.
Qed.

Lemma in_session_scope_le request p s s' :
  session_le s s' -> in_session_scope request p s -> in_session_scope request p s'.
Proof.
  intros [] []. constructor; try done; try congruence.
  case_match; try done. destruct scope_file0 as (f & ? & ?). exists f. by rewrite le_roots.
Qed.

Lemma prepared_ok_le m m' request p :
  sessions_le m m' -> prepared_ok m request p -> prepared_ok m' request p.
Proof.
  intros Hle [Ht (s & Hs & Hscope & Hact)]. split; [by eapply token_ok_le|].
  destruct (Hle _ s Hs) as (s' & Hs' & Hss). exists s'. split; [done|].
  split; [by eapply in_session_scope_le|]. intros Hg Hlt.
  destruct Ht as (s0 & Hs0 & Hge & _). rewrite Hs in Hs0. injection Hs0 as <-.
  destruct Hss. apply le_acting; [apply Hact| |]; lia.
Qed.

Lemma call_ok_le m m' c : sessions_le m m' -> call_ok m c -> call_ok m' c.
Proof.
  destruct c; cbn; eauto using token_ok_le, prepared_ok_le.
  intros ? []. eauto using prepared_ok_le.
Qed.

Definition system_ok (sys : System) : Prop :=
  let sessions := ManagerState.sessions (inner (manager sys)) in
  state_ok (inner (manager sys)) /\ Forall (call_ok sessions) (calls sys).

Lemma ensure_generation_Ok st id task g revision :
  ensure_generation st id task g revision = Ok tt ->
  exists s, ManagerState.sessions st !! id = Some s
    /\ SessionRecord.task_run_id s = task /\ SessionRecord.generation s = g.
Proof.
  unfold ensure_generation, require_task. intros H. inv_res.
  destruct (str_eqb _ _) eqn:Ht; [|done]. apply str_eqb_eq in Ht.
  destruct (_ || _) eqn:Hg; [done|]. split_bools.
  rename select (_ =? _ = true) into Hg. apply Z.eqb_eq in Hg. eauto.
Qed.

Section SystemFacts.
Context (to_vec : Document -> option (list Z)) (sha256 : list Z -> list Z).

Lemma fail_action_ok env request p decision e m :
  madvances m (fst (fail_action sha256 env request p decision e m))
  /\ forall sessions, call_ok sessions (snd (fail_action sha256 env request p decision e m)).
Proof. split; [apply record_action_failure_advances | done]. Qed.

Lemma prepare_visible_scope fs now request s refs before p :
  prepare_visible to_vec sha256 fs now request s refs before = Ok p ->
  visible_in before = true ->
  SessionRecord.task_run_id s = ExecuteDesktopActionRequest.task_run_id request ->
  in_session_scope request p s
  /\ Prepared.generation p = SessionRecord.generation s /\ Prepared.before p = before.
Proof.
  unfold prepare_visible. cbn zeta. intros H Hvis Htask. inv_res.
  repeat match goal with u : () |- _ => destruct u end. subst p. split; [|done].
  rename select (validate_typed_adapter _ _ = _) into Ha.
  apply validate_typed_adapter_Ok in Ha as [Hq Hk].
  rename select (normalize_action _ _ _ = _) into Hn. apply normalize_action_Ok in Hn as ->.
  rename select (resolved_file_for_action _ _ _ = _) into Hf.
  apply resolved_file_for_action_Ok in Hf. split_bools.
  rename select (try_map _ _ = _) into Ht. apply try_map_Ok in Ht.
  constructor; cbn; try done.
  apply Forall_lookup_2. intros i t Hi.
  destruct (Forall2_lookup_r _ _ _ _ _ Ht Hi) as (r & _ & Hr).
  by apply resolve_Ok_inv in Hr as (b & _ & [] & ->).
Qed.

Lemma call_execute_ok env binding request m :
  state_ok (inner m) ->
  madvances m (fst (call_execute to_vec sha256 env binding request m))
  /\ call_ok (ManagerState.sessions
                (inner (fst (call_execute to_vec sha256 env binding request m))))
       (snd (call_execute to_vec sha256 env binding request m)).
Proof.
  intros Hst. unfold call_execute.
  pose proof (execute_prepare_advances to_vec sha256 env request m) as Hadv.
  destruct (execute_prepare _ _ _ _ _) as [m' r] eqn:He. split; [exact Hadv|].
  destruct r as [p| |]; [|done..]. cbn.
  unfold execute_prepare in He. case_match eqn:Hc; [|done..]. destruct a as [s before].
  destruct (negb _) eqn:Hvis; [done|]. injection He as <- Hp.
  inv_res. repeat match goal with u : () |- _ => destruct u end. simplify_eq.
  split_bools. unfold require_task in *.
  destruct (str_eqb (SessionRecord.task_run_id s) _) eqn:Htask; [|done]. apply str_eqb_eq in Htask.
  destruct (prepare_visible_scope _ _ _ _ _ _ _ Hp) as (Hscope & Hgen & _); [done..|].
  split.
  - exists s. rewrite Hgen. split; [done|]. split; [lia|]. congruence.
  - exists s. split; [done|]. split; [done|]. intros _ _.
    by match goal with H : SessionRecord.state s = _ |- _ => rewrite H end.
Qed.

Lemma call_observe_ok env id task m :
  call_ok (ManagerState.sessions (inner (fst (call_observe env id task m))))
    (snd (call_observe env id task m)).
Proof.
  unfold call_observe, observe_begin, with_lock.
  destruct (_ ≫= _) as [[dr g]| |] eqn:Hb; [|done..]. inv_res.
  destruct (_ || _) eqn:Hact; [done|]. simplify_eq. split_bools.
  exists x. split; [done|]. split; [lia|]. intros Hstop. rewrite Hstop in *. done.
Qed.

Lemma execute_commit_hands_over env request p decision binding m m' dr :
  state_ok (inner m) -> AuthorityDecision.authorized decision = true ->
  execute_commit env request p binding m = (m', Ok dr) ->
  handed_over request p decision dr.
Proof.
  intros Hst Hauth. unfold execute_commit. case_match eqn:Hc; [|done..].
  rename a into s. intros [= _ <-]. inv_res.
  repeat match goal with u : () |- _ => destruct u end. subst.
  rename select (ensure_current _ _ _ = _) into He. unfold ensure_current in He.
  apply ensure_generation_Ok in He as (s0 & Hs0 & Htask & Hgen).
  assert (s0 = s) as -> by congruence.
  destruct (lock_advances env m Hst) as [[Hok _] _]. specialize (Hok _ _ Hs0).
  destruct Hok. constructor; cbn; try done. intros Hlt. rewrite <- Hgen. apply ok_epoch. lia.
Qed.

Lemma resume_authorizing_ok a request binding p m :
  state_ok (inner m) -> prepared_ok (ManagerState.sessions (inner m)) request p ->
  let r := resume_authorizing a request binding p m in
  madvances m (fst r) /\ call_ok (ManagerState.sessions (inner (fst r))) (snd r).
Proof.
  intros Hst Hp. cbn zeta. unfold resume_authorizing.
  destruct (_ ≫= _) as [decision| |] eqn:Hd; [|by split; [reflexivity|]..].
  assert (Hauth : AuthorityDecision.authorized decision = true).
  { inv_res. subst. unfold check_decision in *. case_match; [done|]. by split_bools. }
  pose proof (execute_commit_advances (answer_env a) request p binding m) as Hadv.
  destruct (execute_commit _ _ _ _ _) as [m' r] eqn:Hc. split; [exact Hadv|].
  destruct r as [dr| |]; [|done..]. cbn. split.
  - eapply prepared_ok_le; [|exact Hp]. by apply Hadv.
  - by eapply execute_commit_hands_over.
Qed.

Lemma resume_performing_ok a request p decision m :
  state_ok (inner m) -> prepared_ok (ManagerState.sessions (inner m)) request p ->
  let r := resume_performing sha256 a request p decision m in
  madvances m (fst r) /\ call_ok (ManagerState.sessions (inner (fst r))) (snd r).
Proof.
  intros Hst Hp. cbn zeta. unfold resume_performing.
  destruct (answer_perform a) as [result|e|];
    [|by split; [apply fail_action_ok|]|by split; [reflexivity|]].
  pose proof (execute_recheck_advances (answer_env a) request p m) as Hadv.
  destruct (execute_recheck _ _ _ _) as [m' r]. split; [exact Hadv|].
  destruct r; [|done..]. eapply prepared_ok_le; [|exact Hp]. by apply Hadv.
Qed.

Lemma resume_watching_ok a request p decision result m :
  let r := resume_watching to_vec sha256 a request p decision result m in
  madvances m (fst r) /\ call_ok (ManagerState.sessions (inner (fst r))) (snd r).
Proof.
  cbn zeta. unfold resume_watching.
  destruct (answer_observe a) as [raw|e|]; [|by split; [apply fail_action_ok|]|by split; [reflexivity|]].
  pose proof (execute_complete_advances to_vec sha256 (answer_env a) request p decision
                result raw m) as Hadv.
  destruct (execute_complete _ _ _ _ _ _ _ _ _) as [m' r]. split; [exact Hadv|].
  by destruct r.
Qed.

Lemma resume_ok a c m :
  state_ok (inner m) -> call_ok (ManagerState.sessions (inner m)) c ->
  let r := resume to_vec sha256 a c m in
  madvances m (fst r) /\ call_ok (ManagerState.sessions (inner (fst r))) (snd r).
Proof.
  intros Hst Hc. destruct c; cbn zeta; cbn [resume].
  - pose proof (observe_finish_advances to_vec sha256 (answer_env a) session_id task_run_id
                  generation (answer_observe a) m) as Hadv.
    destruct (observe_finish _ _ _ _ _ _ _ _). by split.
  - by split; [reflexivity|].
  - by apply resume_authorizing_ok.
  - apply resume_performing_ok; [done | apply Hc].
  - apply resume_watching_ok.
  - pose proof (execute_record_inner (answer_env a) outcome m) as Hin.
    destruct (execute_record _ _ _). split; [|done]. cbn in *. rewrite Hin. reflexivity.
  - by split; [reflexivity|].
Qed.

(** Every event is a section on the manager, and what it leaves in flight is
    in order. *)
Lemma apply_system_ok e sys :
  draws_fresh_id e sys -> system_ok sys ->
  system_ok (apply to_vec sha256 e sys)
  /\ state_le (inner (manager sys)) (inner (manager (apply to_vec sha256 e sys))).
Proof.
  intros Hfresh [Hst Hcalls].
  assert (Hkeep : forall m', madvances (manager sys) m' ->
    system_ok (mkSystem m' (calls sys)) /\ state_le (inner (manager sys)) (inner m')).
  { intros m' Hadv. destruct (Hadv Hst) as [? Hle]. split; [split|]; [done| |done].
    eapply List.Forall_impl; [|exact Hcalls]. intros c. by apply call_ok_le. }
  assert (Hnew : forall m' c, madvances (manager sys) m' ->
    call_ok (ManagerState.sessions (inner m')) c ->
    system_ok (mkSystem m' (calls sys ++ [c])) /\ state_le (inner (manager sys)) (inner m')).
  { intros m' c Hadv Hc. destruct (Hkeep m' Hadv) as [[? ?] ?].
    split; [split|]; [done| |done]. apply Forall_app. split; [done|]. by constructor. }
  destruct e; cbn [apply].
  - apply Hkeep, grant_selected_file_advances.
  - by apply Hkeep, start_session_advances.
  - apply Hkeep, with_lock_advances.
  - apply Hkeep, control_advances.
  - apply Hkeep, notify_user_input_advances.
  - apply Hkeep, receipt_advances.
  - apply Hkeep, authority_request_for_advances.
  - pose proof (call_observe_ok env session_id task_run_id (manager sys)) as Hc.
    assert (Hadv : madvances (manager sys)
                     (fst (call_observe env session_id task_run_id (manager sys)))).
    { unfold call_observe, observe_begin, with_lock. apply lock_advances. }
    destruct (call_observe _ _ _ _). by apply Hnew.
  - pose proof (call_execute_ok env binding request (manager sys) Hst) as [Hadv Hc].
    destruct (call_execute _ _ _ _ _ _). by apply Hnew.
  - destruct (calls sys !! i) as [c|] eqn:Hi; [|by split; [|reflexivity]].
    assert (Hc := Forall_lookup_1 _ _ _ _ Hcalls Hi).
    pose proof (resume_ok answer c (manager sys) Hst Hc) as [Hadv Hc'].
    destruct (resume _ _ _ _ _) as [m' c']. cbn in *.
    destruct (Hkeep m' Hadv) as [[? ?] ?]. split; [split|]; [done| |done].
    by apply Forall_insert.
Qed.

Lemma reachable_system_ok sys : reachable to_vec sha256 sys -> system_ok sys.
Proof.
  induction 1 as [|sys e _ IH Hfresh].
  - split; [|constructor]. split; [done|]. intros r b H.
    change (ManagerState.references _) with (∅ : ReferenceVault) in H.
    by apply lookup_empty_Some in H.
  - by apply apply_system_ok.
Qed.
End SystemFacts.
