(* ===== verification/CuStopped.v ===== *)
(** * Guarded app control: nothing brings a stopped session back

    [halted id g st]: session [id] is stopped at generation [g].  Each section
    keeps it, provided the generation the section was called with, when it names
    that session, is an earlier one. *)
From S2P Require Import Prelude RustStr P0Contracts CuContracts CuPolicy CuState CuVerification CuObservation CuManager CuExecute CuInvariants CuSystem.
Local Open Scope Z_scope.

Definition halted (id : str) (g : Z) (st : ManagerState.t) : Prop :=
  exists s, ManagerState.sessions st !! id = Some s
    /\ SessionRecord.state s = AppControlState.Stopped
    /\ SessionRecord.generation s = g.

Lemma halted_other id g st st' :
  ManagerState.sessions st' !! id = ManagerState.sessions st !! id ->
  halted id g st -> halted id g st'.
Proof. intros H (s & Hs & ?). exists s. by rewrite H. Qed.

Lemma lock_inactive env m id s :
  AppControlState.active (SessionRecord.state s) = false ->
  ManagerState.sessions (inner m) !! id = Some s ->
  ManagerState.sessions (inner (lock env m)) !! id = Some s.
Proof.
  intros Hact Hs. rewrite lock_lookup, Hs. cbn.
  assert (Hlost : driver_lost s = false).
  { unfold driver_lost. case_bool_decide as He; [|done]. by rewrite He in Hact. }
  assert (Hdrv : lock_driver env s = s).
  { unfold lock_driver. rewrite Hact, Hlost. by destruct (physical_input_ready env) as [[]|]. }
  rewrite Hdrv. unfold lock_input. rewrite Hact.
  destruct (physical_input_epoch env); [|done]. by rewrite andb_false_r.
Qed.

Lemma lock_halted env m id g : halted id g (inner m) -> halted id g (inner (lock env m)).
Proof.
  intros (s & Hs & Hst & Hg). exists s. split; [|done].
  apply lock_inactive; [by rewrite Hst | done].
Qed.
#[export] Hint Resolve lock_halted : oomu.

(** A check that reads the generation of the stopped session fails. *)
Lemma halted_ensure id g st sid task g' revision :
  halted id g st -> (sid = id -> g' < g) ->
  ensure_generation st sid task g' revision = Ok tt -> sid <> id.
Proof.
  intros (s & Hs & _ & Hg) Hlt He ->.
  apply ensure_generation_Ok in He as (s' & Hs' & _ & Hg'). specialize (Hlt eq_refl).
  rewrite Hs in Hs'. injection Hs' as <-. lia.
Qed.

Lemma store_lookup_ne st id s v id' :
  id <> id' -> ManagerState.sessions (store id s v st) !! id' = ManagerState.sessions st !! id'.
Proof. intros H. by apply lookup_insert_ne. Qed.

Section Halted.
Context (to_vec : Document -> option (list Z)) (sha256 : list Z -> list Z).

Lemma apply_observation_other rng st sid raw now allow id :
  sid <> id ->
  ManagerState.sessions (fst (apply_observation to_vec sha256 rng st sid raw now allow)) !! id
  = ManagerState.sessions st !! id.
Proof.
  intros Hne. unfold apply_observation.
  destruct (validate_raw_observation raw); [|done..].
  destruct (ManagerState.sessions st !! sid) as [s|]; [|done].
  case_bool_decide; [by apply lookup_insert_ne|].
  case_bool_decide; [by apply lookup_insert_ne|].
  destruct (_ && negb _); [done|]. cbn zeta.
  match goal with |- context [if ?c then pause_session ?a ?b ?d ?e else ?f] =>
    destruct (if c then pause_session a b d e else f) as [s1 v1] end.
  unfold finish_observation. cbn zeta.
  destruct (issue_elements _ _ _ _ _ _ _ _ _ _) as [[[v fe] sec] els].
  destruct (hash_serializable _ _ _); cbn [fst]; [|by apply store_lookup_ne..].
  match goal with |- context [let '(_, _) := ?c in _] => destruct c as [s2 v2] end.
  by apply store_lookup_ne.
Qed.

Lemma control_halted env request m id g :
  halted id g (inner m) -> halted id g (inner (fst (control env request m))).
Proof.
  intros H. assert (Hl := lock_halted env m id g H). unfold control.
  destruct (ManagerState.sessions _ !! _) as [s|] eqn:Hs; [|exact Hl].
  destruct (require_task _ _); [|exact Hl..].
  destruct (negb _) eqn:Hallow; [exact Hl|].
  assert (Hne : ControlAppControlSessionRequest.session_id request <> id).
  { intros Heq. destruct Hl as (s' & Hs' & Hst & _).
    rewrite <- Heq, Hs in Hs'. injection Hs' as <-. rewrite Hst in Hallow.
    by destruct (ControlAppControlSessionRequest.control request). }
  destruct (control_target _) as [t r]. cbn [fst snd invalidate_generation].
  eapply halted_other; [|exact Hl]. cbn [inner write AppControlManager.set_inner].
  destruct (ControlAppControlSessionRequest.control request);
    try case_bool_decide; by apply lookup_insert_ne.
Qed.

Lemma notify_halted env sid task m id g :
  halted id g (inner m) -> halted id g (inner (fst (notify_user_input env sid task m))).
Proof.
  intros H. assert (Hl := lock_halted env m id g H). unfold notify_user_input.
  destruct (ManagerState.sessions _ !! _) as [s|] eqn:Hs; [|exact Hl].
  destruct (require_task _ _); [|exact Hl..].
  destruct (negb _) eqn:Hact; [exact Hl|].
  eapply halted_other; [|exact Hl]. apply lookup_insert_ne. intros ->.
  destruct Hl as (s' & Hs' & Hst & _).
  rewrite Hs in Hs'. injection Hs' as <-. by rewrite Hst in Hact.
Qed.

Lemma prepare_halted env request m id g :
  halted id g (inner m) ->
  halted id g (inner (fst (execute_prepare to_vec sha256 env request m))).
Proof.
  intros H. assert (Hl := lock_halted env m id g H). unfold execute_prepare. case_match eqn:Hc; [|exact Hl..].
  destruct a as [s before]. destruct (negb _); [|exact Hl].
  eapply halted_other; [|exact Hl]. apply lookup_insert_ne. intros Heq.
  destruct Hl as (s' & Hs' & Hst & _). rewrite <- Heq in Hs'.
  inv_res. simplify_eq. split_bools. congruence.
Qed.

Lemma start_halted env request m id g :
  ManagerState.sessions (inner m) !! new_session_id env = None ->
  halted id g (inner m) -> halted id g (inner (fst (start_session env request m))).
Proof.
  intros Hfresh H. assert (Hl := lock_halted env m id g H). unfold start_session. case_match; [|done..].
  destruct a as [[[project task] approved] roots].
  case_match; [|exact Hl..]. destruct a as [grants roots'].
  match goal with |- context [record_task_event ?e ?ev ?m1] =>
    pose proof (record_task_event_inner e ev m1) as Hrec;
    destruct (record_task_event e ev m1) as [m2 r2] end.
  cbn [fst] in Hrec |- *. rewrite Hrec.
  eapply halted_other; [|exact Hl]. apply lookup_insert_ne.
  intros Heq. destruct H as (s & Hs & _). unfold new_session_id in Hfresh. congruence.
Qed.

Lemma fail_halted env sid task g' before authority did e m id g :
  halted id g (inner m) ->
  halted id g (inner (record_action_failure sha256 env sid task g' before authority did e m)).
Proof.
  intros H. unfold record_action_failure. assert (Hl := lock_halted env m id g H).
  destruct (ManagerState.sessions _ !! _) as [s|] eqn:Hs; [|done].
  destruct (_ || _); [done|]. rewrite record_task_event_inner.
  destruct (decide (sid = id)) as [->|Hne].
  - destruct Hl as (s' & Hs' & ? & ?). rewrite Hs in Hs'. injection Hs' as <-.
    eexists. split; [apply lookup_insert_eq | done].
  - eapply halted_other; [|exact Hl]. by apply lookup_insert_ne.
Qed.

Lemma observe_finish_halted env sid task g' reply m id g :
  (sid = id -> g' < g) ->
  halted id g (inner m) ->
  halted id g (inner (fst (observe_finish to_vec sha256 env sid task g' reply m))).
Proof.
  intros Hlt H. assert (Hl := lock_halted env m id g H). unfold observe_finish.
  destruct reply as [raw|e|]; [| |done].
  - destruct (ensure_generation _ _ _ _ _) as [[]| |] eqn:He; [|done..].
    assert (Hne := halted_ensure _ _ _ _ _ _ _ Hl Hlt He).
    pose proof (apply_observation_other (rng env) (inner (lock env m)) sid raw (now env 2)
                  false id Hne) as Ho.
    destruct (apply_observation _ _ _ _ _ _ _ _) as [st obs].
    apply (halted_other _ _ _ _ Ho) in Hl. cbn [fst] in Hl.
    destruct obs as [obs| |]; [|done..]. unfold record_observation.
    match goal with |- context [record_task_event ?e ?ev ?m1] =>
      pose proof (record_task_event_inner e ev m1) as Hrec;
      destruct (record_task_event e ev m1) as [m2 r2] end.
    cbn [fst] in Hrec |- *. by rewrite Hrec.
  - cbn [fst]. unfold pause_for_driver_error.
    destruct (ManagerState.sessions _ !! _) as [s|] eqn:Hs; [|done].
    destruct (_ || _) eqn:Hc; [done|]. split_bools.
    eapply halted_other; [|exact Hl]. apply lookup_insert_ne. intros ->.
    destruct Hl as (s' & Hs' & _ & Hg). rewrite Hs in Hs'. injection Hs' as <-.
    specialize (Hlt eq_refl). rename select (_ =? _ = true) into Heq.
    apply Z.eqb_eq in Heq. lia.
Qed.

Lemma commit_halted env request p binding m id g :
  (ExecuteDesktopActionRequest.session_id request = id -> Prepared.generation p < g) ->
  halted id g (inner m) ->
  halted id g (inner (fst (execute_commit env request p binding m))).
Proof.
  intros Hlt H. assert (Hl := lock_halted env m id g H). unfold execute_commit.
  case_match eqn:Hc; [|done..]. inv_res.
  repeat match goal with u : () |- _ => destruct u end.
  rename select (ensure_current _ _ _ = _) into He. unfold ensure_current in He.
  assert (Hne := halted_ensure _ _ _ _ _ _ _ Hl Hlt He).
  eapply halted_other; [|exact Hl]. by apply lookup_insert_ne.
Qed.

Lemma complete_halted env request p decision result raw m id g :
  (ExecuteDesktopActionRequest.session_id request = id -> Prepared.generation p < g) ->
  halted id g (inner m) ->
  halted id g (inner (fst
    (execute_complete to_vec sha256 env request p decision result raw m))).
Proof.
  intros Hlt H. assert (Hl := lock_halted env m id g H). unfold execute_complete.
  destruct (ensure_current _ _ _) as [[]| |] eqn:He; [|done..].
  set (sid := ExecuteDesktopActionRequest.session_id request) in *.
  unfold ensure_current in He.
  assert (Hne : sid <> id) by (exact (halted_ensure _ _ _ _ _ _ _ Hl Hlt He)).
  pose proof (apply_observation_other (rng env) (inner (lock env m)) sid raw (now env 2)
    (bool_decide (ExecuteDesktopActionRequest.expected_outcome request
                  = ExpectedOutcomeKind.WindowState)) id Hne) as Ho.
  destruct (apply_observation _ _ _ _ _ _ _ _) as [st obs].
  apply (halted_other _ _ _ _ Ho) in Hl. cbn [fst] in Hl.
  destruct obs as [after| |]; [|done..].
  destruct (ManagerState.sessions st !! _) as [s|] eqn:Hs; [|done].
  destruct (verify_postcondition _ _ _ _ _ _ _ _ _ _); [| |done].
  - destruct (outcome_receipt _ _ _ _ _ _ _ _ _ _); [|done..].
    unfold commit_receipt. rewrite Hs. destruct (negb _); [done|].
    eapply halted_other; [|exact Hl]. by apply lookup_insert_ne.
  - unfold record_mismatch. fold sid. cbn [fst]. rewrite Hs.
    destruct (2 <=? _); eapply halted_other; try exact Hl; by apply lookup_insert_ne.
Qed.
End Halted.
