(* ===== verification/CuScenario.v ===== *)
(** * Guarded app control: a concrete run

    One Task drives Finder: a session is started, the application observed, a
    focus action authorised, performed and verified, and at another moment the
    user stops the session while the driver acts.  The witnesses of [CuTheorems]
    and [CuOperations] evaluate the model on these systems. *)
From S2P Require Import Prelude RustStr P0Contracts CuContracts CuPolicy CuState CuVerification CuObservation CuManager CuExecute CuInvariants CuSystem.
Local Open Scope Z_scope.

Module Demo.
(** A toy serializer and digest: what matters is that they are functions. *)
Definition to_vec (d : Document) : option (list Z) :=
  Some match d with
       | ActionBinding a _ => [1; Z.of_nat (length (DesktopSemanticAction.references a))]
       | ObservationDoc o => [2; DesktopObservation.revision o]
       | SemanticDoc _ _ k _ _ => 3 :: default [] k
       | PostconditionDoc _ => [4]
       end.
Definition sha256 (bytes : list Z) : list Z :=
  replicate 31 7 ++ [foldr Z.add 0 bytes mod 256].

Definition fs : FileSystem :=
  {| canonicalize := Some; is_dir := fun _ => true; is_file := fun _ => true;
     read_file := fun _ => Some [1; 2; 3] |}.
(** Every call draws other bytes; the clock stands at one second per call. *)
Definition env_at (k : Z) : Env :=
  mkEnv (fun _ => 1000 * k) (fun i => replicate 24 ((16 * k + Z.of_nat i) mod 256)) fs
    None None None.

Definition uuid (k : Z) : list Z := replicate 16 k.
Definition project : str := as_str (id_new KProject (uuid 5)).
Definition task : str := as_str (id_new KTaskRun (uuid 9)).
Definition finder : str := lit "com.apple.finder".

Definition start : StartAppControlSession.t :=
  StartAppControlSession.mk project task [finder] [] [].
Definition session_id : str := new_session_id (env_at 1).

Definition file_list : DriverElement.t :=
  DriverElement.mk (lit "list") (lit "AXList") (Some (lit "Files")) None false true true
    false [DesktopActionKind.Focus] None.
Definition path_bar : DriverElement.t :=
  DriverElement.mk (lit "path") (lit "AXGroup") None None false true true
    false [DesktopActionKind.Focus] None.
Definition screen (focused : string) : DriverObservation.t :=
  DriverObservation.mk AccessibilityPermission.Granted
    (DesktopApplicationObservation.mk finder (lit "Finder") 42)
    (DesktopWindowObservation.mk (lit "w1") (lit "Documents") true false)
    (Some (lit focused)) [file_list; path_bar] None.
Arguments screen focused%_string.

(** The reference issued to the first element by the first observation. *)
Definition reference : str := CuState.opaque_id (lit "appref") (rng (env_at 3) 1%nat).
Definition focus : ExecuteDesktopActionRequest.t :=
  ExecuteDesktopActionRequest.mk session_id task 1 (DesktopSemanticAction.Focus reference)
    ExpectedOutcomeKind.ElementState.
Definition decision : AuthorityDecision.t := AuthorityDecision.mk true (lit "d1").
Definition done_focus : DriverActionResult.t :=
  DriverActionResult.mk (lit "token")
    (ObservedPostcondition.ElementState (lit "list") (lit "focused")).

Definition answer (k : Z) (focused : string) : Answer :=
  mkAnswer (env_at k) (Ok decision) (Ok done_focus) (Ok (screen focused)).
Arguments answer k focused%_string.

Definition control_request (c : AppControlControl.t) : ControlAppControlSessionRequest.t :=
  ControlAppControlSessionRequest.mk session_id task c.

Definition opening : list Event :=
  [StartSession (env_at 1) start; CallObserve (env_at 2) session_id task;
   Resume 0 (answer 3 "path"); CallExecute (env_at 4) None focus].
Definition to_driver : list Event := opening ++ [Resume 1 (answer 5 "path")].
Definition to_end : list Event :=
  to_driver ++ [Resume 1 (answer 6 "path"); Resume 1 (answer 7 "list");
                Resume 1 (answer 8 "list")].
Definition stop : Event := ControlSession (env_at 9) (control_request AppControlControl.Stop).

Definition run (es : list Event) (sys : System) : System :=
  foldl (fun sys e => apply to_vec sha256 e sys) sys es.
(** Every identifier drawn along the run is fresh. *)
Fixpoint fresh_run (es : list Event) (sys : System) : bool :=
  match es with
  | [] => true
  | e :: es' =>
      match e with
      | StartSession env _ =>
          bool_decide
            (ManagerState.sessions (inner (manager sys)) !! new_session_id env = None)
      | _ => true
      end && fresh_run es' (apply to_vec sha256 e sys)
  end.
Definition after (es : list Event) : System := run es new_system.
Definition session_of (sys : System) : option SessionRecord.t :=
  ManagerState.sessions (inner (manager sys)) !! session_id.

Lemma run_reachable es sys :
  fresh_run es sys = true -> reachable to_vec sha256 sys ->
  reachable to_vec sha256 (run es sys).
Proof.
  revert sys. induction es as [|e es IH]; intros sys Hf Hr; [done|].
  cbn in Hf. apply andb_true_iff in Hf as [He Hf]. apply IH; [done|].
  constructor; [done|]. destruct e; try done. by apply bool_decide_eq_true in He.
Qed.
Lemma after_reachable es :
  fresh_run es new_system = true -> reachable to_vec sha256 (after es).
Proof. intros H. apply run_reachable; [done | constructor]. Qed.

(** The model runs: the action ends with a recorded outcome. *)
Example demo_executes :
  match calls (after to_end) !! 1%nat with
  | Some (Call.Executed (Ok outcome)) =>
      bool_decide (DesktopOutcomeReceipt.status (DesktopActionOutcome.receipt outcome)
                   = AppControlOutcomeStatus.Verified) = true
  | _ => False
  end.
Proof. vm_compute. reflexivity. Qed.
End Demo.
