(* ===== verification/CuTheorems.v ===== *)
(** * Guarded app control: the theorems of the concurrent system

    Safety of the manager under every interleaving of its calls, stated over
    [reachable] systems and their futures ([steps]). *)
From S2P Require Import Prelude RustStr P0Contracts CuContracts CuPolicy CuState CuVerification CuObservation CuManager CuExecute CuInvariants CuSystem CuStopped CuScenario.
Local Open Scope Z_scope.

Section Futures.
Context (to_vec : Document -> option (list Z)) (sha256 : list Z -> list Z).

(** One event, whichever it is. *)
Inductive step : System -> System -> Prop :=
| step_apply sys e : draws_fresh_id e sys -> step sys (apply to_vec sha256 e sys).
Definition steps : System -> System -> Prop := rtc step.

Lemma step_reachable sys sys' :
  step sys sys' -> reachable to_vec sha256 sys -> reachable to_vec sha256 sys'.
Proof. intros [? e Hf] ?. by constructor. Qed.

Lemma steps_advance sys sys' :
  steps sys sys' -> reachable to_vec sha256 sys ->
  reachable to_vec sha256 sys' /\ state_le (inner (manager sys)) (inner (manager sys')).
Proof.
  induction 1 as [sys|sys sys1 sys2 Hstep _ IH]; intros Hr; [by split|].
  destruct (IH (step_reachable _ _ Hstep Hr)) as [? Hle]. split; [done|].
  transitivity (inner (manager sys1)); [|done]. destruct Hstep.
  by apply apply_system_ok, (reachable_system_ok to_vec sha256).
Qed.

Lemma reachable_session sys id s :
  reachable to_vec sha256 sys ->
  ManagerState.sessions (inner (manager sys)) !! id = Some s -> session_ok id s.
Proof. intros Hr Hs. by apply (proj1 (proj1 (reachable_system_ok _ _ _ Hr)) id s). Qed.

Lemma reachable_call sys i c :
  reachable to_vec sha256 sys -> calls sys !! i = Some c ->
  call_ok (ManagerState.sessions (inner (manager sys))) c.
Proof.
  intros Hr Hc. destruct (reachable_system_ok to_vec sha256 _ Hr) as [_ Hf].
  by apply (Forall_lookup_1 _ _ _ _ Hf Hc).
Qed.

(** A stopped session, and the calls that still name it, one event later. *)
Lemma step_halted sys sys' id g :
  reachable to_vec sha256 sys -> step sys sys' -> g < u64_max ->
  halted id g (inner (manager sys)) -> halted id g (inner (manager sys')).
Proof.
  intros Hr Hstep Hg H. inversion Hstep as [? e Hf]; subst; clear Hstep.
  assert (Htok : forall id' g', token_ok (ManagerState.sessions (inner (manager sys))) id' g' ->
    id' = id -> g' < g).
  { intros id' g' (s & Hs & _ & Hlt) ->. destruct H as (s' & Hs' & Hst & Hg').
    rewrite Hs in Hs'. injection Hs' as <-. rewrite <- Hg' in *. auto. }
  destruct e; cbn [apply].
  - unfold grant_selected_file. case_match; [|done..]. repeat case_match.
    eapply halted_other; [|by apply (lock_halted env)]. done.
  - by apply start_halted.
  - by apply (lock_halted env).
  - by apply control_halted.
  - by apply notify_halted.
  - cbn [manager]. unfold receipt. case_match; [|done..]. by apply (lock_halted env).
  - by apply (lock_halted env).
  - unfold call_observe. destruct (observe_begin _ _ _ _) as [m r] eqn:He. cbn [manager].
    unfold observe_begin, with_lock in He. injection He as <- _. by apply lock_halted.
  - unfold call_execute.
    pose proof (prepare_halted to_vec sha256 env request (manager sys) id g H) as Hh.
    by destruct (execute_prepare _ _ _ _ _).
  - destruct (calls sys !! i) as [c|] eqn:Hi; [|done].
    assert (Hc := reachable_call _ _ _ Hr Hi).
    assert (Hr' : halted id g (inner (fst (resume to_vec sha256 answer c (manager sys)))));
      [|by destruct (resume _ _ _ _ _)].
    destruct c as [sid task g'| |request b p|request p d dr|request p d result|outcome|];
      cbn [resume]; try done.
    + pose proof (observe_finish_halted to_vec sha256 (answer_env answer) sid task g'
        (answer_observe answer) (manager sys) id g (Htok _ _ Hc) H) as Hh.
      by destruct (observe_finish _ _ _ _ _ _ _ _).
    + unfold resume_authorizing. destruct (_ ≫= _); [|done..].
      pose proof (commit_halted (answer_env answer) request p b (manager sys) id g
        (Htok _ _ (proj1 Hc)) H) as Hh.
      by destruct (execute_commit _ _ _ _ _).
    + unfold resume_performing. destruct (answer_perform answer); [|by apply fail_halted|done].
      pose proof (lock_halted (answer_env answer) (manager sys) id g H) as Hh. exact Hh.
    + unfold resume_watching.
      destruct (answer_observe answer) as [raw|e|]; [|by apply fail_halted|done].
      pose proof (complete_halted to_vec sha256 (answer_env answer) request p d result raw
        (manager sys) id g (Htok _ _ (proj1 Hc)) H) as Hh.
      by destruct (execute_complete _ _ _ _ _ _ _ _ _).
    + pose proof (execute_record_inner (answer_env answer) outcome (manager sys)) as Hin.
      destruct (execute_record _ _ _). cbn in *. by rewrite Hin.
Qed.

Lemma steps_halted sys sys' id g :
  steps sys sys' -> reachable to_vec sha256 sys -> g < u64_max ->
  halted id g (inner (manager sys)) ->
  reachable to_vec sha256 sys' /\ halted id g (inner (manager sys')).
Proof.
  induction 1 as [sys|sys sys1 sys2 Hstep _ IH]; intros Hr Hg H; [done|].
  apply IH; [by apply (step_reachable sys)|done|]. by apply (step_halted sys).
Qed.

(** A driver request whose session has left the generation it was prepared
    for carries a cancelled token, whatever the physical-input counter says. *)
Lemma superseded_token_cancelled sys i request p decision dr s input :
  reachable to_vec sha256 sys ->
  calls sys !! i = Some (Call.Performing request p decision dr) ->
  ManagerState.sessions (inner (manager sys)) !!
    ExecuteDesktopActionRequest.session_id request = Some s ->
  SessionRecord.generation s < u64_max ->
  SessionRecord.generation s <> Prepared.generation p ->
  DriverCancellationToken.cancelled (DriverActionRequest.cancellation dr)
    (SessionRecord.cancellation_epoch s) input = true.
Proof.
  intros Hr Hi Hs Hlt Hne. destruct (reachable_call _ _ _ Hr Hi) as [[Ht _] []].
  destruct (reachable_session _ _ _ Hr Hs).
  destruct Ht as (s' & Hs' & Hge & _). rewrite Hs in Hs'. injection Hs' as <-.
  unfold DriverCancellationToken.cancelled. rewrite handed_token, ok_epoch by lia.
  apply orb_true_iff. left. apply negb_true_iff, Z.eqb_neq. lia.
Qed.

(** C1: in every reachable state of the concurrent system, a session that is [Running]
    has an observation, that observation shows a visible window, and the application it
    shows is a qualified one the user approved for it. *)
Theorem running_session_in_scope sys id s :
  reachable to_vec sha256 sys ->
  ManagerState.sessions (inner (manager sys)) !! id = Some s ->
  SessionRecord.state s = AppControlState.Running -> running_ok s.
Proof. intros Hr Hs. apply (reachable_session _ _ _ Hr Hs). Qed.

(** C2: every request the driver is ever asked to perform was authorised, is for an
    application approved for its session and qualified for that kind of action, with a
    visible window, on targets none of which is a protected field, and a file it selects
    is one granted to the session. *)
Theorem driver_request_in_scope sys i request p decision dr :
  reachable to_vec sha256 sys ->
  calls sys !! i = Some (Call.Performing request p decision dr) ->
  exists s,
    ManagerState.sessions (inner (manager sys)) !! DriverActionRequest.session_id dr = Some s
    /\ AuthorityDecision.authorized decision = true
    /\ DriverActionRequest.task_run_id dr = SessionRecord.task_run_id s
    /\ DriverActionRequest.action dr = ExecuteDesktopActionRequest.action request
    /\ let bundle :=
         DesktopApplicationObservation.bundle_id (DriverActionRequest.application dr) in
       bundle ∈ SessionRecord.approved_bundle_ids s
       /\ qualified_bundle bundle
       /\ DesktopSemanticAction.kind (DriverActionRequest.action dr)
            ∈ DesktopAppProfile.allowed_actions (app_profile bundle bundle)
       /\ DesktopWindowObservation.visible (DriverActionRequest.window dr) = true
       /\ Forall (fun t => ResolvedDriverTarget.secure t = false)
            (DriverActionRequest.targets dr)
       /\ match DriverActionRequest.action dr with
          | DesktopSemanticAction.ChooseFile _ grant_id =>
              exists f, DriverActionRequest.selected_file dr = Some f
                /\ ScopedFileRoots.granted_files (SessionRecord.file_roots s)
                     !! grant_id = Some f
          | _ => DriverActionRequest.selected_file dr = None
          end.
Proof.
  intros Hr Hi. destruct (reachable_call _ _ _ Hr Hi) as [[_ (s & Hs & [] & _)] []].
  exists s. unfold visible_in, bundle_of in *.
  rewrite handed_session, handed_task, handed_application, handed_window, handed_action,
    handed_targets, handed_file.
  repeat split; done.
Qed.

(** C3: while the driver acts, a token that is not cancelled means the session is still
    in the generation the action was prepared in and nobody paused it, stopped it or
    took it over since. *)
Theorem live_token_means_undisturbed sys i request p decision dr s input :
  reachable to_vec sha256 sys ->
  calls sys !! i = Some (Call.Performing request p decision dr) ->
  ManagerState.sessions (inner (manager sys)) !!
    ExecuteDesktopActionRequest.session_id request = Some s ->
  SessionRecord.generation s < u64_max ->
  DriverCancellationToken.cancelled (DriverActionRequest.cancellation dr)
    (SessionRecord.cancellation_epoch s) input = false ->
  SessionRecord.generation s = Prepared.generation p
  /\ acting (SessionRecord.state s) = true.
Proof.
  intros Hr Hi Hs Hlt Hlive.
  assert (Hg : SessionRecord.generation s = Prepared.generation p).
  { destruct (decide (SessionRecord.generation s = Prepared.generation p)); [done|].
    erewrite superseded_token_cancelled in Hlive; done. }
  split; [done|]. destruct (reachable_call _ _ _ Hr Hi) as [[_ (s' & Hs' & _ & Hact)] _].
  rewrite Hs in Hs'. injection Hs' as <-. by apply Hact.
Qed.

(** C15: a stop is final. Whatever calls are in flight and whatever happens next, a
    stopped session stays stopped in the same generation, and an action still with the
    driver sees its token cancelled. *)
Theorem stopped_is_final sys sys' id s :
  reachable to_vec sha256 sys -> steps sys sys' ->
  ManagerState.sessions (inner (manager sys)) !! id = Some s ->
  SessionRecord.state s = AppControlState.Stopped ->
  SessionRecord.generation s < u64_max ->
  exists s', ManagerState.sessions (inner (manager sys')) !! id = Some s'
    /\ SessionRecord.state s' = AppControlState.Stopped
    /\ SessionRecord.generation s' = SessionRecord.generation s
    /\ forall i request p decision dr input,
         calls sys' !! i = Some (Call.Performing request p decision dr) ->
         ExecuteDesktopActionRequest.session_id request = id ->
         DriverCancellationToken.cancelled (DriverActionRequest.cancellation dr)
           (SessionRecord.cancellation_epoch s') input = true.
Proof.
  intros Hr Hsteps Hs Hst Hlt.
  assert (Hhalt : halted id (SessionRecord.generation s) (inner (manager sys))) by by exists s.
  destruct (steps_halted sys sys' id _ Hsteps Hr Hlt Hhalt) as [Hr' Hh].
  destruct Hh as (s' & Hs' & Hst' & Hg'). exists s'. repeat split; [done..|].
  intros i request p decision dr input Hi <-.
  destruct (reachable_call _ _ _ Hr' Hi) as [[(s0 & Hs0 & _ & Hgt) _] _].
  rewrite Hs' in Hs0. injection Hs0 as <-.
  eapply (superseded_token_cancelled sys'); [done..|lia|]. specialize (Hgt Hst'). lia.
Qed.

(** C16: every reference in the vault belongs to an existing session and names its
    project, its Task and its present generation and revision, so a reference issued
    before a pause, a takeover or a newer observation is gone. *)
Theorem references_are_current sys r b :
  reachable to_vec sha256 sys ->
  ManagerState.references (inner (manager sys)) !! r = Some b ->
  exists s, ManagerState.sessions (inner (manager sys)) !! ReferenceBinding.session_id b
            = Some s /\ bound_to b s.
Proof. intros Hr. apply (proj1 (reachable_system_ok _ _ _ Hr)). Qed.

(** C17: from its start to the end of the process a session keeps its project, its Task,
    its approved applications and its file scope, is never dropped, and its generation
    and revision never go back. *)
Theorem session_scope_immutable sys sys' id s :
  reachable to_vec sha256 sys -> steps sys sys' ->
  ManagerState.sessions (inner (manager sys)) !! id = Some s ->
  exists s', ManagerState.sessions (inner (manager sys')) !! id = Some s'
    /\ SessionRecord.project_id s' = SessionRecord.project_id s
    /\ SessionRecord.task_run_id s' = SessionRecord.task_run_id s
    /\ SessionRecord.approved_bundle_ids s' = SessionRecord.approved_bundle_ids s
    /\ SessionRecord.file_roots s' = SessionRecord.file_roots s
    /\ SessionRecord.generation s <= SessionRecord.generation s'
    /\ SessionRecord.revision s <= SessionRecord.revision s'.
Proof.
  intros Hr Hsteps Hs. destruct (steps_advance sys sys') as [_ Hle]; [done..|].
  destruct (Hle id s Hs) as (s' & Hs' & []). exists s'. done.
Qed.
End Futures.

(** ** The theorems at work on the demonstration run *)
Section Witnesses.
Import Demo.

Lemma running_session_in_scope_witness :
  exists s, session_of (after opening) = Some s /\ running_ok s.
Proof.
  eexists. split; [vm_compute; reflexivity|].
  apply (running_session_in_scope to_vec sha256 (after opening) session_id);
    [apply after_reachable; vm_compute; reflexivity | vm_compute; reflexivity..].
Defined.

Lemma driver_request_in_scope_witness :
  exists dr s, session_of (after to_driver) = Some s
    /\ DriverActionRequest.task_run_id dr = SessionRecord.task_run_id s.
Proof.
  destruct (driver_request_in_scope to_vec sha256 (after to_driver) 1 focus
    _ decision _ (after_reachable to_driver ltac:(vm_compute; reflexivity))
    ltac:(vm_compute; reflexivity)) as (s & Hs & _ & Ht & _).
  eexists. exists s. split; [exact Hs | exact Ht].
Defined.

Lemma live_token_means_undisturbed_witness :
  exists s, session_of (after to_driver) = Some s
    /\ acting (SessionRecord.state s) = true.
Proof.
  eexists. split; [vm_compute; reflexivity|].
  eapply (live_token_means_undisturbed to_vec sha256 (after to_driver) 1 focus
    _ decision _ _ 0);
    [apply after_reachable; vm_compute; reflexivity | vm_compute; reflexivity..].
Defined.

Lemma stopped_is_final_witness :
  exists s, session_of (after (to_driver ++ [stop; Resume 1 (answer 10 "list")])) = Some s
    /\ SessionRecord.state s = AppControlState.Stopped.
Proof.
  destruct (stopped_is_final to_vec sha256 (after (to_driver ++ [stop]))
    (after (to_driver ++ [stop; Resume 1 (answer 10 "list")])) session_id
    (default (SessionRecord.mk [] [] [] ∅ (ScopedFileRoots.mk [] ∅) AppControlState.Failed
       0 0 None None None None 0 0 0) (session_of (after (to_driver ++ [stop])))))
    as (s & Hs & Hst & _).
  - apply after_reachable. vm_compute. reflexivity.
  - apply rtc_once.
    exact (step_apply to_vec sha256 (after (to_driver ++ [stop])) (Resume 1 (answer 10 "list")) I).
  - vm_compute. reflexivity.
  - vm_compute. reflexivity.
  - vm_compute. reflexivity.
  - exists s. split; [exact Hs | exact Hst].
Defined.

Lemma references_are_current_witness :
  exists b s, session_of (after opening) = Some s /\ bound_to b s.
Proof.
  destruct (references_are_current to_vec sha256 (after opening) reference _
    (after_reachable opening ltac:(vm_compute; reflexivity))
    ltac:(vm_compute; reflexivity)) as (s & Hs & Hb).
  eexists. exists s. split; [exact Hs | exact Hb].
Defined.

Lemma session_scope_immutable_witness :
  exists s, session_of (after to_driver) = Some s
    /\ SessionRecord.approved_bundle_ids s = {[finder]}.
Proof.
  destruct (session_scope_immutable to_vec sha256 (after opening) (after to_driver) session_id
    (default (SessionRecord.mk [] [] [] ∅ (ScopedFileRoots.mk [] ∅) AppControlState.Failed
       0 0 None None None None 0 0 0) (session_of (after opening))))
    as (s & Hs & _ & _ & Ha & _).
  - apply after_reachable. vm_compute. reflexivity.
  - apply rtc_once.
    exact (step_apply to_vec sha256 (after opening) (Resume 1 (answer 5 "path")) I).
  - vm_compute. reflexivity.
  - exists s. split; [exact Hs|]. rewrite Ha. vm_compute. reflexivity.
Defined.
End Witnesses.
