(* ===== verification/CuOperations.v ===== *)
(** * Guarded app control: what each operation does

    Functional properties of single operations: the lock's reaction to physical
    input, the controls and the view that offers them, the resolution of
    references, the verification and recording of an action, one-use approvals
    and file grants. *)
From S2P Require Import Prelude RustStr P0Contracts CuContracts CuPolicy CuState CuVerification CuObservation CuManager CuExecute CuInvariants CuSystem CuStopped CuScenario.
Local Open Scope Z_scope.

(** ** Decidable form of [resolvable] *)
Definition resolvableb (b : ReferenceBinding.t) (action : DesktopActionKind.t)
    (modal : bool) (c : ReferenceContext.t) : bool :=
  str_eqb (ReferenceBinding.bundle_id b) (ReferenceContext.bundle_id c)
  && (ReferenceBinding.process_id b =? ReferenceContext.process_id c)
  && str_eqb (ReferenceBinding.window_id b) (ReferenceContext.window_id c)
  && str_eqb (ReferenceBinding.session_id b) (ReferenceContext.session_id c)
  && str_eqb (ReferenceBinding.project_id b) (ReferenceContext.project_id c)
  && str_eqb (ReferenceBinding.task_run_id b) (ReferenceContext.task_run_id c)
  && (ReferenceBinding.revision b =? ReferenceContext.revision c)
  && (ReferenceBinding.generation b =? ReferenceContext.generation c)
  && (ReferenceContext.now_ms c <=? ReferenceBinding.expires_at_ms b)
  && negb (ResolvedDriverTarget.secure (ReferenceBinding.target b))
  && ReferenceBinding.visible b && ReferenceBinding.enabled b
  && (negb modal || ReferenceBinding.in_modal b)
  && bool_decide (action ∈ ReferenceBinding.supported_actions b)
  && negb (bool_decide (action = DesktopActionKind.DragDrop)
           && bool_decide (ResolvedDriverTarget.geometry (ReferenceBinding.target b) = None)).

(** ** The lock *)
Lemma lock_refs env m r b :
  ManagerState.references (inner (lock env m)) !! r = Some b ->
  ManagerState.references (inner m) !! r = Some b.
Proof.
  assert (Hp : forall cond now reason st,
    ManagerState.references (for_sessions cond
      (fun s v => pause_session s v now reason) st) !! r = Some b ->
    ManagerState.references st !! r = Some b).
  { intros cond t reason st H. by apply (for_sessions_refs _ _ (paused t reason)) in H as [? _]. }
  assert (Hr : forall cond now st,
    ManagerState.references (for_sessions cond (resume_driver now) st) !! r = Some b ->
    ManagerState.references st !! r = Some b).
  { intros cond t st H.
    by apply (for_sessions_refs _ _ (fun s => fst (resume_driver t s ∅))) in H as [? _]. }
  unfold lock. set (st1 := match physical_input_ready env with Some _ => _ | None => _ end).
  assert (H1 : ManagerState.references st1 !! r = Some b ->
    ManagerState.references (inner m) !! r = Some b).
  { subst st1. destruct (physical_input_ready env) as [[]|]; [by apply Hr | by apply Hp | intros H; exact H]. }
  destruct (physical_input_epoch env) as [e|]; [|exact H1].
  cbn -[for_sessions]. destruct (negb _); [|exact H1]. intros H. apply H1.
  exact (Hp _ (now env 1) AppControlPauseReason.UserInput _ H).
Qed.

Lemma lock_driver_id env s :
  SessionRecord.session_id (lock_driver env s) = SessionRecord.session_id s.
Proof.
  unfold lock_driver. destruct (physical_input_ready env) as [[]|]; [| |done].
  - by destruct (driver_lost s).
  - by destruct (_ && _).
Qed.

(** A lock taken after the user touched the keyboard or the mouse leaves no session
    at work: every active session is paused, or already taken over, and a session this
    paused has lost all its references. *)
Theorem physical_input_pauses_everything env m current id s :
  state_ok (inner m) ->
  physical_input_epoch env = Some current ->
  current <> AppControlManager.acknowledged_input_epoch m ->
  ManagerState.sessions (inner (lock env m)) !! id = Some s ->
  AppControlState.active (SessionRecord.state s) = true ->
  AppControlManager.acknowledged_input_epoch (lock env m) = current
  /\ (SessionRecord.state s = AppControlState.Takeover
      \/ (SessionRecord.state s = AppControlState.Paused
          /\ SessionRecord.pause_reason s = Some AppControlPauseReason.UserInput
          /\ forall r b, ManagerState.references (inner (lock env m)) !! r = Some b ->
               ReferenceBinding.session_id b <> id)).
Proof.
  intros Hst He Hne Hs Hact. split.
  { unfold lock. rewrite He. by destruct (physical_input_ready env) as [[]|]. }
  rewrite lock_lookup in Hs.
  destruct (ManagerState.sessions (inner m) !! id) as [s0|] eqn:Hs0; [|done].
  cbn in Hs. injection Hs as Hs. unfold lock_input in Hs. rewrite He in Hs.
  rewrite (proj2 (Z.eqb_neq _ _) Hne) in Hs.
  set (s1 := lock_driver env s0) in *.
  destruct (AppControlState.active (SessionRecord.state s1)) eqn:Ha;
    [|subst s; cbn in Hact; by rewrite Ha in Hact].
  case_bool_decide as Ht; cbn in Hs; subst s.
  2: { left. by destruct (decide (SessionRecord.state s1 = AppControlState.Takeover)). }
  right. split; [done|]. split; [done|]. intros r b Hb.
  unfold lock in Hb. rewrite He in Hb. cbn -[for_sessions] in Hb.
  rewrite (proj2 (Z.eqb_neq _ _) Hne) in Hb. cbn -[for_sessions] in Hb.
  apply (for_sessions_refs _ _ (paused (now env 1) AppControlPauseReason.UserInput)) in Hb
    as [_ Hb]; [|done..].
  assert (Hid : SessionRecord.session_id s1 = id).
  { subst s1. rewrite lock_driver_id. by apply (ok_id _ _ (proj1 Hst id s0 Hs0)). }
  rewrite <- Hid. intros Heq. symmetry in Heq. revert Heq. eapply (Hb id).
  - pose proof (lock_lookup (mkEnv (now env) (rng env) (env_fs env) None
      (physical_input_ready env) (evidence_engine env)) m id) as Hl.
    rewrite Hs0 in Hl. cbn in Hl. exact Hl.
  - rewrite Ha. by rewrite bool_decide_true.
Qed.

(** ** The controls *)
(** What the session view offers is what [control] will accept: the pause
    and the return buttons exactly, and the take-over button only when taking
    over is possible. *)
Theorem view_offers_allowed_controls s :
  let view := session_view s in
  AppControlSessionView.can_pause view
    = control_allowed AppControlControl.Pause (SessionRecord.state s)
  /\ AppControlSessionView.can_return_to_oomu view
    = control_allowed AppControlControl.ReturnToOomu (SessionRecord.state s)
  /\ (AppControlSessionView.can_take_control view = true ->
      control_allowed AppControlControl.TakeControl (SessionRecord.state s) = true).
Proof. cbn. by destruct (SessionRecord.state s). Qed.

(** A control is accepted exactly when the session (as the lock left it) belongs to
    the Task and is in a state the control allows; then the session takes the control's
    state and pause reason in a new generation, its token is cancelled, its references
    are gone; otherwise nothing changes but what the lock itself did. *)
Theorem control_spec env request m m' r :
  state_ok (inner m) ->
  control env request m = (m', r) ->
  let id := ControlAppControlSessionRequest.session_id request in
  let c := ControlAppControlSessionRequest.control request in
  match r with
  | Ok view => exists s s',
      ManagerState.sessions (inner (lock env m)) !! id = Some s
      /\ SessionRecord.task_run_id s = ControlAppControlSessionRequest.task_run_id request
      /\ control_allowed c (SessionRecord.state s) = true
      /\ ManagerState.sessions (inner m') !! id = Some s'
      /\ (SessionRecord.state s', SessionRecord.pause_reason s') = control_target c
      /\ SessionRecord.generation s' = saturating_add_u64 (SessionRecord.generation s) 1
      /\ SessionRecord.cancellation_epoch s' <> SessionRecord.cancellation_epoch s
      /\ (forall ref b, ManagerState.references (inner m') !! ref = Some b ->
            ReferenceBinding.session_id b <> id)
      /\ view = session_view s'
  | Err _ => m' = lock env m /\ forall s,
      ManagerState.sessions (inner (lock env m)) !! id = Some s ->
      SessionRecord.task_run_id s = ControlAppControlSessionRequest.task_run_id request ->
      control_allowed c (SessionRecord.state s) = false
  | Panic => False
  end.
Proof.
  intros Hst. unfold control. cbn zeta.
  destruct (ManagerState.sessions _ !! _) as [s|] eqn:Hs; [|by intros [= <- <-]].
  unfold require_task. destruct (str_eqb _ _) eqn:Ht.
  2: { intros [= <- <-]. split; [done|]. intros s' [= <-] He.
       rewrite He, str_eqb_refl in Ht. discriminate Ht. }
  set (c := ControlAppControlSessionRequest.control request) in *.
  destruct (negb _) eqn:Hc.
  { apply negb_true_iff in Hc. intros [= <- <-]. split; [done|]. by intros s' [= <-]. }
  destruct (control_target c) as [t reason] eqn:Htarget.
  cbn [invalidate_generation]. intros H.
  assert (Hw : m' = write (inner m') m' /\ exists active,
    inner m' = ManagerState.set_active_session_id active
      (store (ControlAppControlSessionRequest.session_id request)
        (SessionRecord.set_pause_reason reason (SessionRecord.set_state t
          (fst (invalidate_generation s ∅ (now env 2)))))
        (invalidate_session (SessionRecord.session_id s)
           (ManagerState.references (inner (lock env m)))) (inner (lock env m)))
    /\ r = Ok (session_view (SessionRecord.set_pause_reason reason (SessionRecord.set_state t
          (fst (invalidate_generation s ∅ (now env 2))))))).
  { injection H as <- <-. split; [done|].
    destruct c; [eexists; split; reflexivity| |eexists; split; reflexivity..].
    case_bool_decide; eexists; split; reflexivity. }
  destruct Hw as [_ (active & Hin & ->)]. clear H.
  destruct (proj1 (proj1 (lock_advances env m Hst)) _ _ Hs).
  eexists s, _. rewrite Hin. cbn [ManagerState.sessions ManagerState.references
    ManagerState.set_active_session_id store ManagerState.set_references
    ManagerState.set_sessions].
  split; [done|]. split; [by apply str_eqb_eq|]. split; [by apply negb_false_iff|].
  split; [apply lookup_insert_eq|]. split; [done|]. split; [done|].
  split; [|split; [|done]].
  - cbn. unfold wrapping_add_u64. intros Heq.
    destruct (decide (0 <= SessionRecord.cancellation_epoch s < 2 ^ 64)) as [Hr|Hr].
    + destruct (decide (SessionRecord.cancellation_epoch s = 2 ^ 64 - 1)) as [E|].
      * rewrite E in Heq. by vm_compute in Heq.
      * rewrite Z.mod_small in Heq by lia. lia.
    + pose proof (Z.mod_pos_bound (SessionRecord.cancellation_epoch s + 1) (2 ^ 64) ltac:(lia)). lia.
  - intros ref b [_ Hne]%lookup_invalidate. congruence.
Qed.

(** ** References *)
(** A reference resolves exactly when the vault holds it, it was issued to this
    session, Task and project for the application, process and window now shown, at the
    present revision and generation, it has not expired, and its element is visible,
    enabled, not a protected field, inside the modal window when there is one, supports
    the action and, for a drag, has a place on the screen. *)
Theorem resolve_iff vault reference action modal context target :
  resolve vault reference action modal context = Ok target <->
  exists b, vault !! reference = Some b /\ resolvable b action modal context
    /\ target = ReferenceBinding.target b.
Proof.
  split; [apply resolve_Ok_inv|]. intros (b & Hb & [] & ->).
  unfold resolve. rewrite Hb. simpl.
  rewrite (proj2 (str_eqb_eq _ _) resolvable_bundle), resolvable_process, Z.eqb_refl,
    (proj2 (str_eqb_eq _ _) resolvable_window), (proj2 (str_eqb_eq _ _) resolvable_session),
    (proj2 (str_eqb_eq _ _) resolvable_project), (proj2 (str_eqb_eq _ _) resolvable_task),
    resolvable_revision, resolvable_generation, !Z.eqb_refl,
    (proj2 (Z.ltb_ge _ _) resolvable_fresh), resolvable_insecure, resolvable_visible,
    resolvable_enabled, (bool_decide_true (_ ∈ _)) by done. simpl.
  destruct modal; [rewrite resolvable_modal by done|]; simpl;
    (case_bool_decide as Hd; [|done]); rewrite bool_decide_false; auto.
Qed.

(** ** The end of an action *)
(** The first result that does not verify is counted, the second pauses
    the session with a new generation and takes its references away. *)
Theorem second_mismatch_pauses env id st s :
  ManagerState.sessions st !! id = Some s ->
  session_ok id s -> 0 <= SessionRecord.mismatch_count s <= u8_max ->
  exists s', ManagerState.sessions (record_mismatch env id st) !! id = Some s'
    /\ SessionRecord.current_action s' = None
    /\ SessionRecord.mismatch_count s'
       = Z.min u8_max (SessionRecord.mismatch_count s + 1)
    /\ if SessionRecord.mismatch_count s =? 0
       then SessionRecord.state s' = SessionRecord.state s
            /\ SessionRecord.generation s' = SessionRecord.generation s
            /\ ManagerState.references (record_mismatch env id st) = ManagerState.references st
       else SessionRecord.state s' = AppControlState.Paused
            /\ SessionRecord.pause_reason s' = Some AppControlPauseReason.RepeatedMismatch
            /\ SessionRecord.generation s' = saturating_add_u64 (SessionRecord.generation s) 1
            /\ ManagerState.references (record_mismatch env id st)
               = invalidate_session id (ManagerState.references st).
Proof.
  intros Hs Hok Hn. unfold record_mismatch. rewrite Hs. cbn zeta.
  destruct (2 <=? _) eqn:Hle; cbn in Hle.
  - eexists. split; [apply lookup_insert_eq|]. split; [done|]. split; [cbn; int_lia|].
    destruct (Z.eqb_spec (SessionRecord.mismatch_count s) 0) as [E|E];
      [rewrite E in Hle; done|]. cbn. by rewrite (ok_id _ _ Hok).
  - eexists. split; [apply lookup_insert_eq|]. split; [done|]. split; [cbn; int_lia|].
    apply Z.leb_gt in Hle. rewrite (proj2 (Z.eqb_eq _ _)) by int_lia. done.
Qed.

(** C23: [execute] completes only with evidence: when its last section returns an
    outcome, the driver's postcondition was verified against the fresh observation and
    the session's own file scope, the receipt names both observations and the
    authority's decision and is stored, and the session is still running, with no action
    in hand and its mismatch count reset. *)
Theorem completed_action_is_verified to_vec sha256 env request p decision result raw m m' outcome :
  execute_complete to_vec sha256 env request p decision result raw m = (m', Ok outcome) ->
  let receipt := DesktopActionOutcome.receipt outcome in
  let after := DesktopActionOutcome.observation outcome in
  exists s roots,
    verify_postcondition to_vec sha256 (env_fs env) (DriverActionResult.postcondition result)
      (ExecuteDesktopActionRequest.expected_outcome request) (Prepared.action p)
      (Prepared.targets p) (Prepared.before p) after roots
      = Ok (DesktopOutcomeReceipt.file_hashes receipt)
    /\ ManagerState.sessions (inner m') !! ExecuteDesktopActionRequest.session_id request = Some s
    /\ SessionRecord.file_roots s = roots
    /\ SessionRecord.state s = AppControlState.Running
    /\ SessionRecord.current_action s = None
    /\ SessionRecord.mismatch_count s = 0
    /\ DesktopActionOutcome.session outcome = session_view s
    /\ ManagerState.receipts (inner m') !! DesktopOutcomeReceipt.receipt_id receipt = Some receipt
    /\ DesktopOutcomeReceipt.before_observation_hash receipt
       = DesktopObservation.observation_hash (Prepared.before p)
    /\ DesktopOutcomeReceipt.after_observation_hash receipt
       = DesktopObservation.observation_hash after
    /\ DesktopOutcomeReceipt.authority_decision_id receipt
       = AuthorityDecision.decision_id decision
    /\ DesktopOutcomeReceipt.action_arguments_hash receipt
       = AuthorityRequest.action_arguments_hash (Prepared.authority_request p).
Proof.
  unfold execute_complete. cbn zeta. set (sid := ExecuteDesktopActionRequest.session_id request).
  destruct (ensure_current _ _ _); [|done..].
  destruct (apply_observation _ _ _ _ _ _ _ _) as [st [after| |]]; [|done..].
  destruct (ManagerState.sessions st !! sid) as [s|] eqn:Hs; [|done].
  destruct (verify_postcondition _ _ _ _ _ _ _ _ _ _) as [hashes| |] eqn:Hv; [|done..].
  destruct (outcome_receipt _ _ _ _ _ _ _ _ _ _) as [receipt| |] eqn:Hr; [|done..].
  unfold commit_receipt. rewrite Hs. destruct (negb _) eqn:Hrun; [done|].
  intros [= <- <-]. unfold outcome_receipt in Hr. inv_res.
  apply negb_false_iff, bool_decide_eq_true in Hrun. subst receipt. cbn.
  eexists _, (SessionRecord.file_roots s). split; [exact Hv|].
  split; [apply lookup_insert_eq|]. repeat (split; [done|]).
  split; [apply lookup_insert_eq|]. done.
Qed.

(** A file hash offered as evidence is the digest of a file that lies, once
    canonicalised, below a folder approved for the session, and is the hash the driver
    claimed. *)
Theorem file_evidence_in_scope to_vec sha256 fs post expected action targets before after roots evidence :
  verify_postcondition to_vec sha256 fs post expected action targets before after roots
    = Ok evidence ->
  Forall (fun e =>
    let p := FileHashEvidence.canonical_path e in
    (exists root rest, root ∈ ScopedFileRoots.roots roots /\ p = root ++ rest)
    /\ is_file fs p = true
    /\ (exists bytes, read_file fs p = Some bytes
          /\ FileHashEvidence.sha256 e = hex_encode (sha256 bytes))
    /\ exists claimed, post = ObservedPostcondition.FileHash claimed (FileHashEvidence.sha256 e)
         /\ canonicalize fs claimed = Some p) evidence.
Proof.
  unfold verify_postcondition. destruct (negb _); [done|].
  assert (Hnil : forall (c : bool), (if c then Err postcondition_mismatch else Ok []) = Ok evidence ->
    evidence = []) by (intros []; [done | by intros [= <-]]).
  destruct post as [|k v|k st|w st|path sha|st]; intros H.
  1-4: assert (evidence = []) as ->; [|constructor].
  - inv_res. by eapply Hnil.
  - inv_res. by eapply Hnil.
  - inv_res. by eapply Hnil.
  - destruct (verify_window_state _ _ _ _ _); [by injection H|done].
  - inv_res. destruct (_ || _) eqn:Hc; [done|]. injection H as <-.
    apply canonical_file_Ok in H0 as (Hcan & Hfile & Hroot).
    unfold hash_file in H1. inv_res. subst. constructor; [|constructor]. cbn.
    split_bools. rename select (str_eqb _ sha = true) into He. apply str_eqb_eq in He as <-.
    eauto 10.
  - assert (evidence = []) as ->; [|constructor]. inv_res. by eapply Hnil.
Qed.

(** ** Approvals and file grants *)
(** A direct approval is good for one action: the first evaluation of the approved
    request is authorised without asking the reviewed scopes, and any later one is
    authorised only if those scopes allow it. *)
Theorem direct_approval_is_one_use sha256 scopes approvals request :
  let '(approvals', first) :=
    evaluate sha256 scopes (register_direct_approval approvals request) request in
  let '(approvals'', second) := evaluate sha256 scopes approvals' request in
  let binding := approval_binding request in
  (exists d, first = Ok d /\ AuthorityDecision.authorized d = true)
  /\ direct_approval_key request ∉ approvals'
  /\ approvals'' = approvals'
  /\ forall d, second = Ok d -> AuthorityDecision.authorized d = true ->
       scopes (DesktopApprovalBinding.principal binding) (AuthorityRequest.project_id request)
         (AuthorityRequest.task_run_id request) (DesktopApprovalBinding.action_class binding)
         (DesktopApprovalBinding.canonical_resource binding)
         (DesktopApprovalBinding.argument_class binding) = Some true.
Proof.
  unfold evaluate, register_direct_approval. cbn zeta.
  set (key := direct_approval_key request).
  rewrite (bool_decide_true (key ∈ {[key]} ∪ approvals)) by set_solver.
  rewrite (bool_decide_false (key ∈ ({[key]} ∪ approvals) ∖ {[key]})) by set_solver.
  split; [by eexists|]. split; [set_solver|]. split; [set_solver|].
  intros d Hd Hauth. inv_res. subst d. cbn in *. by subst.
Qed.

Lemma claim_grant_Ok st project task now id r :
  claim_grant st project task now id = Ok r ->
  exists grant, r = (id, grant) /\ ManagerState.pending_file_grants st !! id = Some grant
    /\ PendingFileGrant.project_id grant = project
    /\ PendingFileGrant.task_run_id grant = task
    /\ now <= PendingFileGrant.expires_at_ms grant.
Proof.
  unfold claim_grant. intros H. inv_res.
  destruct (ManagerState.pending_file_grants st !! id) as [g|] eqn:Hg; [|done]. simpl in *.
  case_match eqn:Hc; [|done]. split_bools. simplify_eq. exists x.
  rewrite <- !str_eqb_eq, <- Z.leb_le. done.
Qed.

Lemma foldl_delete_lookup {A} (grants : list (str * A)) (pending : gmap str PendingFileGrant.t) id :
  id ∈ grants.*1 -> foldl (fun pending '(i, _) => delete i pending) pending grants !! id = None.
Proof.
  revert pending. induction grants as [|[i a] grants IH]; intros pending Hin;
    [by apply not_elem_of_nil in Hin|].
  assert (Hnone : forall pending : gmap str PendingFileGrant.t, pending !! id = None ->
    foldl (fun pending '(i, _) => delete i pending) pending grants !! id = None).
  { clear. induction grants as [|[i a] grants IH]; intros pending H; [done|].
    cbn. apply IH. apply lookup_delete_None. by right. }
  rewrite fmap_cons, elem_of_cons in Hin. cbn. destruct Hin as [->|Hin].
  - apply Hnone. apply lookup_delete_eq.
  - by apply IH.
Qed.

(** A file grant is used once and only by its own Task: when a session
    starts, each grant it names was pending for the same project and Task and
    had not expired, and none of them is pending afterwards. *)
Theorem start_consumes_grants env request m m' view :
  start_session env request m = (m', Ok view) ->
  Forall (fun id =>
    (exists grant, ManagerState.pending_file_grants (inner (lock env m)) !! id = Some grant
       /\ PendingFileGrant.project_id grant = StartAppControlSession.project_id request
       /\ PendingFileGrant.task_run_id grant = StartAppControlSession.task_run_id request
       /\ now env 2 <= PendingFileGrant.expires_at_ms grant)
    /\ ManagerState.pending_file_grants (inner m') !! id = None)
    (StartAppControlSession.file_grant_ids request).
Proof.
  unfold start_session. case_match eqn:Hp; [|done..].
  destruct a as [[[project task] approved] roots]. case_match eqn:Hclaim; [|done..].
  destruct a as [grants roots'].
  match goal with |- context [record_task_event ?e ?ev ?m1] =>
    pose proof (record_task_event_inner e ev m1) as Hrec;
    destruct (record_task_event e ev m1) as [m2 r2] end.
  cbn [fst] in Hrec. intros [= <- _]. rewrite Hrec.
  inv_res. simplify_eq.
  repeat match goal with H : id_parse _ _ = Ok _ |- _ => apply id_parse_as_str in H end.
  rename select (try_map _ _ = _) into Hg. apply try_map_Ok in Hg.
  apply Forall_lookup_2. intros i id Hi.
  destruct (Forall2_lookup_l _ _ _ _ _ Hg Hi) as (r & Hr & Hc).
  apply claim_grant_Ok in Hc as (grant & -> & Hgrant & Hproj & Htask & Hexp). split.
  - exists grant. split; [done|]. split; [congruence|]. split; [congruence|done].
  - cbn [inner write AppControlManager.set_inner ManagerState.pending_file_grants
      ManagerState.set_sessions ManagerState.set_active_session_id
      ManagerState.set_pending_file_grants].
    apply foldl_delete_lookup. apply list_elem_of_fmap. exists (id, grant).
    split; [done|]. by apply list_elem_of_lookup_2 in Hr.
Qed.

(** ** The operations at work on the demonstration run *)
Section Witnesses.
Import Demo.

Definition screen_of (bundle : str) (pid : Z) : DriverObservation.t :=
  DriverObservation.mk AccessibilityPermission.Granted
    (DesktopApplicationObservation.mk bundle (lit "Other") pid)
    (DesktopWindowObservation.mk (lit "w9") (lit "Other") true false) None [] None.
Definition answer_with (k : Z) (raw : DriverObservation.t) : Answer :=
  mkAnswer (env_at k) (Ok decision) (Ok done_focus) (Ok raw).

(** Two observations are in flight when the application turns out to be a
    browser. *)
Definition two_observers : list Event :=
  [StartSession (env_at 1) start; CallObserve (env_at 2) session_id task;
   Resume 0 (answer 3 "path"); CallObserve (env_at 4) session_id task;
   CallObserve (env_at 5) session_id task;
   Resume 1 (answer_with 6 (screen_of (lit "com.apple.Safari") 50))].

(** A run in which a failed session is revived. A browser fails the session without a
    new generation, so the observation already in flight still passes its generation
    check and, seeing another application, pauses the session; from there the user
    returns it to work. *)
Theorem failed_session_is_revived :
  let later := two_observers
    ++ [Resume 2 (answer_with 7 (screen_of (lit "com.apple.TextEdit") 60));
        ControlSession (env_at 8) (control_request AppControlControl.ReturnToOomu)] in
  reachable to_vec sha256 (after later)
  /\ option_map SessionRecord.state (session_of (after two_observers))
     = Some AppControlState.Failed
  /\ option_map SessionRecord.state (session_of (after later))
     = Some AppControlState.ReturnPending.
Proof.
  cbn zeta. split; [apply after_reachable; vm_compute; reflexivity|].
  split; vm_compute; reflexivity.
Qed.

Lemma demo_state_ok es : fresh_run es new_system = true -> state_ok (inner (manager (after es))).
Proof. intros H. by apply (reachable_system_ok to_vec sha256), after_reachable. Qed.

(** The user moves the mouse: the input epoch is seven. *)
Definition touched : Env :=
  mkEnv (now (env_at 20)) (rng (env_at 20)) fs (Some 7) (Some true) None.

Definition dummy_session : SessionRecord.t :=
  SessionRecord.mk [] [] [] ∅ (ScopedFileRoots.mk [] ∅) AppControlState.Failed
    0 0 None None None None 0 0 0.
Definition session_in (m : Manager) : SessionRecord.t :=
  default dummy_session (ManagerState.sessions (inner m) !! session_id).
Definition in_opening : Manager := manager (after opening).
Definition in_action : Manager := manager (after to_driver).

Lemma physical_input_pauses_everything_witness :
  SessionRecord.state (session_in (lock touched in_opening)) = AppControlState.Paused.
Proof.
  destruct (physical_input_pauses_everything touched in_opening 7 session_id
    (session_in (lock touched in_opening))) as [_ [Hs|[Hs _]]].
  - apply demo_state_ok. vm_compute. reflexivity.
  - vm_compute. reflexivity.
  - vm_compute. discriminate.
  - vm_compute. reflexivity.
  - vm_compute. reflexivity.
  - vm_compute in Hs. discriminate Hs.
  - exact Hs.
Defined.

Definition stop_request : ControlAppControlSessionRequest.t :=
  control_request AppControlControl.Stop.
Lemma stop_succeeds : is_ok (snd (control (env_at 9) stop_request in_action)) = true.
Proof. vm_compute. reflexivity. Qed.
Lemma in_action_ok : state_ok (inner in_action).
Proof. apply demo_state_ok. vm_compute. reflexivity. Qed.

Lemma control_spec_witness :
  match snd (control (env_at 9) stop_request in_action) with
  | Ok view => AppControlSessionView.state view = AppControlState.Stopped
  | _ => False
  end.
Proof.
  pose proof stop_succeeds as Hok.
  destruct (control (env_at 9) stop_request in_action) as [m' r] eqn:Hc.
  pose proof (control_spec (env_at 9) stop_request in_action m' r in_action_ok Hc) as H.
  cbn zeta in H. cbn [snd] in *. destruct r as [view|e|]; [|discriminate Hok..].
  destruct H as (s & s' & _ & _ & _ & _ & Ht & _ & _ & _ & ->).
  exact (f_equal fst Ht).
Defined.

Lemma second_mismatch_pauses_witness :
  exists s, ManagerState.sessions (record_mismatch (env_at 9) session_id (inner in_action))
              !! session_id = Some s
    /\ SessionRecord.mismatch_count s = 1.
Proof.
  destruct (second_mismatch_pauses (env_at 9) session_id (inner in_action)
    (session_in in_action)) as (s & Hs & _ & Hn & _).
  - vm_compute. reflexivity.
  - apply (proj1 in_action_ok session_id). vm_compute. reflexivity.
  - vm_compute. split; discriminate.
  - exists s. split; [exact Hs|]. rewrite Hn. vm_compute. reflexivity.
Defined.

(** The prepared action of the demonstration, and its last section. *)
Definition demo_prepared : option Prepared.t :=
  match calls (after to_driver) !! 1%nat with
  | Some (Call.Performing _ p _ _) => Some p
  | _ => None
  end.
Definition in_watch : Manager := manager (after (to_driver ++ [Resume 1 (answer 6 "path")])).
Notation completing p :=
  (execute_complete to_vec sha256 (env_at 7) focus p decision done_focus (screen "list")
     in_watch).

Lemma completing_succeeds :
  match demo_prepared with Some p => is_ok (snd (completing p)) | None => false end = true.
Proof. vm_compute. reflexivity. Qed.

Lemma completed_action_is_verified_witness :
  exists p outcome, demo_prepared = Some p /\ snd (completing p) = Ok outcome
    /\ DesktopOutcomeReceipt.authority_decision_id (DesktopActionOutcome.receipt outcome)
       = AuthorityDecision.decision_id decision.
Proof.
  pose proof completing_succeeds as H. destruct demo_prepared as [p|]; [|discriminate H]. exists p.
  destruct (completing p) as [m' [outcome|e|]] eqn:Hc;
    [|discriminate H..].
  exists outcome. split; [reflexivity|]. split; [reflexivity|].
  destruct (completed_action_is_verified to_vec sha256 (env_at 7) focus p decision done_focus
    (screen "list") in_watch m' outcome Hc)
    as (s & roots & _ & _ & _ & _ & _ & _ & _ & _ & _ & _ & Hd & _).
  exact Hd.
Defined.

(** A report saved below an approved folder. *)
Definition report : path := [lit "/"; lit "work"; lit "report.pdf"].
Definition report_roots : ScopedFileRoots.t :=
  ScopedFileRoots.mk [[lit "/"; lit "work"]] ∅.
Definition report_hash : str := hex_encode (sha256 [1; 2; 3]).
Definition nowhere : DesktopObservation.t :=
  DesktopObservation.mk [] [] [] [] 0 0 0 0 AccessibilityPermission.Granted
    (DesktopApplicationObservation.mk [] [] 0) (DesktopWindowObservation.mk [] [] true false)
    None [] None [].

Lemma file_evidence_in_scope_witness :
  exists root rest, root ∈ ScopedFileRoots.roots report_roots /\ report = root ++ rest.
Proof.
  pose proof (file_evidence_in_scope to_vec sha256 fs
    (ObservedPostcondition.FileHash report report_hash) ExpectedOutcomeKind.FileHash
    (DesktopSemanticAction.Press []) [] nowhere nowhere report_roots
    [FileHashEvidence.mk report report_hash] ltac:(vm_compute; reflexivity)) as H.
  apply Forall_cons_iff in H as [[H _] _]. exact H.
Defined.

Definition demo_authority : AuthorityRequest.t :=
  AuthorityRequest.mk project task session_id finder DesktopActionKind.Focus (lit "hash") false.

Lemma direct_approval_is_one_use_witness :
  direct_approval_key demo_authority
    ∉ fst (evaluate sha256 (fun _ _ _ _ _ _ => Some false)
             (register_direct_approval ∅ demo_authority) demo_authority).
Proof.
  pose proof (direct_approval_is_one_use sha256 (fun _ _ _ _ _ _ => Some false) ∅
    demo_authority) as H.
  destruct (evaluate _ _ (register_direct_approval _ _) _) as [approvals first].
  destruct (evaluate _ _ approvals _) as [approvals' second]. exact (proj1 (proj2 H)).
Defined.

Definition granting : Manager * AppControlResult AppControlFileGrantView.t :=
  grant_selected_file (env_at 1) project task report AppControlManager.new.
Definition grant_id : str := CuState.opaque_id (lit "appfile") (rng (env_at 1) 0%nat).
Definition start_with_grant : StartAppControlSession.t :=
  StartAppControlSession.mk project task [finder] [] [grant_id].

Lemma start_consumes_grants_witness :
  ManagerState.pending_file_grants (inner (fst granting)) !! grant_id <> None
  /\ ManagerState.pending_file_grants
       (inner (fst (start_session (env_at 2) start_with_grant (fst granting)))) !! grant_id = None.
Proof.
  split; [vm_compute; discriminate|].
  assert (Hok : is_ok (snd (start_session (env_at 2) start_with_grant (fst granting))) = true)
    by (vm_compute; reflexivity).
  destruct (start_session (env_at 2) start_with_grant (fst granting)) as [m' [view|e|]] eqn:Hs;
    [|discriminate Hok..].
  pose proof (start_consumes_grants (env_at 2) start_with_grant (fst granting) m' view Hs) as H.
  apply Forall_cons_iff in H as [[_ H] _]. exact H.
Defined.
End Witnesses.
