(* ===== verification/Chrono.v ===== *)
(** * The calendar library the schedulers use, as an interface

    [chrono] and [chrono_tz] are not part of the repository: their types and the
    operations the engine calls are the fields of the class [Chrono], and what
    their documentation promises about them is the class [ChronoLaws].  An
    operation that panics when its result is out of range returns an option
    here.  [LocalResult] and its reading are chrono's own vocabulary.  The
    module [FlatCalendar] is a concrete instance (twelve months of thirty days,
    zones at fixed offsets) that shows the laws can hold. *)
From S2P Require Import Prelude RustStr.
Local Open Scope Z_scope.

Inductive LocalResult (A : Type) : Type :=
| Single (a : A)
| Ambiguous (first second : A)
| NoneLocal.
Arguments Single {A} a.
Arguments Ambiguous {A} first second.
Arguments NoneLocal {A}.

Class Chrono : Type := {
  (** a time zone, [Local] and [Utc] included *)
  Zone : Type;
  (** [DateTime<_>]: an instant, whatever zone it is shown in *)
  Instant : Type;
  (** [NaiveDateTime] and [NaiveDate] *)
  Naive : Type;
  Date : Type;
  Local_zone : Zone;
  Utc_zone : Zone;
  (** [timezone.parse::<Tz>()] *)
  parse_zone : str -> option Zone;
  (** [timestamp_millis_opt(ms).single()] *)
  timestamp_millis_opt : Z -> option Instant;
  timestamp_millis : Instant -> Z;
  (** [instant.with_timezone(&zone).naive_local()] *)
  naive_local : Zone -> Instant -> Naive;
  from_local_datetime : Zone -> Naive -> LocalResult Instant;
  (** [instant + Duration::minutes(n)], [naive + Duration::minutes(n)]; panic *)
  add_minutes : Instant -> Z -> option Instant;
  naive_add_minutes : Naive -> Z -> option Naive;
  (** [instant.with_second(0)] in a zone, [instant.with_nanosecond(0)] *)
  with_second_0 : Zone -> Instant -> option Instant;
  with_nanosecond_0 : Zone -> Instant -> option Instant;
  (** [Duration::days(n)] in seconds; panic *)
  duration_days : Z -> option Z;
  (** [naive.checked_add_signed(duration)] *)
  checked_add_seconds : Naive -> Z -> option Naive;
  date_naive : Naive -> Date;
  (** [date + Duration::days(n)]; panic *)
  date_add_days : Date -> Z -> option Date;
  and_hms_opt : Date -> Z -> Z -> Z -> option Naive;
  (** [date.and_time(naive.time())] *)
  and_time_of : Date -> Naive -> Naive;
  from_ymd_opt : Z -> Z -> Z -> option Date;
  year : Date -> Z;
  month : Date -> Z;
  day : Date -> Z;
  hour : Naive -> Z;
  minute : Naive -> Z;
  num_days_from_sunday : Date -> Z;
}.

(** Adding zero or more minutes moves the instant by that many minutes, and
    clearing the seconds moves it back by less than one; the fields of a wall
    clock reading are in their ranges; [Duration::days] panics exactly when the
    seconds leave the range of a [Duration]. *)
Class ChronoLaws (C : Chrono) : Prop := {
  add_minutes_millis i n j :
    add_minutes i n = Some j -> timestamp_millis j = timestamp_millis i + 60000 * n;
  timestamp_of ms i : timestamp_millis_opt ms = Some i -> timestamp_millis i = ms;
  align_minute z i j k :
    with_second_0 z i = Some j -> with_nanosecond_0 z j = Some k ->
    timestamp_millis i - 60000 < timestamp_millis k <= timestamp_millis i;
  local_single z n i : from_local_datetime z n = Single i -> naive_local z i = n;
  local_ambiguous z n i j :
    from_local_datetime z n = Ambiguous i j ->
    naive_local z i = n /\ naive_local z j = n
    /\ timestamp_millis i <= timestamp_millis j;
  and_hms_fields d h m s n :
    and_hms_opt d h m s = Some n -> date_naive n = d /\ hour n = h /\ minute n = m;
  minute_range n : 0 <= minute n <= 59;
  hour_range n : 0 <= hour n <= 23;
  day_range d : 1 <= day d <= 31;
  month_range d : 1 <= month d <= 12;
  weekday_range d : 0 <= num_days_from_sunday d <= 6;
  from_ymd_fields y m d date :
    from_ymd_opt y m d = Some date -> year date = y /\ month date = m /\ day date = d;
  (** the last day of a month is the day before the first of the next *)
  last_of_month y m next last d :
    from_ymd_opt (if m =? 12 then y + 1 else y) (if m =? 12 then 1 else m + 1) 1 = Some next ->
    1 <= m <= 12 ->
    date_add_days next (-1) = Some last ->
    is_Some (from_ymd_opt y m d) <-> 1 <= d <= day last;
  and_time_date d n : date_naive (and_time_of d n) = d;
  and_time_clock d n :
    hour (and_time_of d n) = hour n /\ minute (and_time_of d n) = minute n;
  duration_days_range n :
    duration_days n = None <-> ~ (- (i64_max / 1000) <= 86400 * n <= i64_max / 1000);
}.

Definition earliest {A} (r : LocalResult A) : option A :=
  match r with Single a => Some a | Ambiguous a _ => Some a | NoneLocal => None end.

(** ** A concrete instance *)
Module FlatCalendar.
(** A date is a day number, a naive time its milliseconds, an instant its
    timestamp, a zone its offset in minutes. *)
Definition ms_per_day : Z := 86400000.
Definition span : Z := 8 * 10 ^ 15.
Definition bounded_ms (t : Z) : option Z := checked (- span) span t.
Definition of_ymd (y m d : Z) : option Z :=
  if in_range 1 12 m && in_range 1 30 d
  then Some (360 * y + 30 * (m - 1) + (d - 1)) else None.

#[export] Instance chrono : Chrono := {|
  Zone := Z; Instant := Z; Naive := Z; Date := Z;
  Local_zone := 60; Utc_zone := 0;
  parse_zone := fun s => if str_eqb s (lit "UTC") then Some 0 else None;
  timestamp_millis_opt := bounded_ms;
  timestamp_millis := fun i => i;
  naive_local := fun z i => i + 60000 * z;
  from_local_datetime := fun z n => Single (n - 60000 * z);
  add_minutes := fun i n => bounded_ms (i + 60000 * n);
  naive_add_minutes := fun i n => bounded_ms (i + 60000 * n);
  with_second_0 := fun z i => Some (i - i mod 60000);
  with_nanosecond_0 := fun z i => Some i;
  duration_days := fun n =>
    if in_range (- (i64_max / 1000)) (i64_max / 1000) (86400 * n) then Some (86400 * n) else None;
  checked_add_seconds := fun i s => bounded_ms (i + 1000 * s);
  date_naive := fun n => n / ms_per_day;
  date_add_days := fun d n => Some (d + n);
  and_hms_opt := fun d h m s =>
    if in_range 0 23 h && in_range 0 59 m && in_range 0 59 s
    then Some (ms_per_day * d + 3600000 * h + 60000 * m + 1000 * s) else None;
  and_time_of := fun d n => ms_per_day * d + n mod ms_per_day;
  from_ymd_opt := of_ymd;
  year := fun d => d / 360;
  month := fun d => (d mod 360) / 30 + 1;
  day := fun d => d mod 30 + 1;
  hour := fun n => (n mod ms_per_day) / 3600000;
  minute := fun n => (n mod 3600000) / 60000;
  num_days_from_sunday := fun d => (d + 4) mod 7;
|}.

(** Quotient and remainder of an explicit decomposition. *)
Lemma div_mod_of a q r b : 0 < b -> a = b * q + r -> 0 <= r < b -> a / b = q /\ a mod b = r.
Proof.
  intros Hb -> Hr. split; symmetry; [eapply Z.div_unique | eapply Z.mod_unique]; eauto.
Qed.

#[export] Instance laws : ChronoLaws chrono.
Proof.
  split; cbn; unfold bounded_ms, ms_per_day.
  - intros i n j [-> _]%checked_Some. done.
  - intros ms i [-> _]%checked_Some. done.
  - intros z i j k [= <-] [= <-]. pose proof (Z.mod_pos_bound i 60000). lia.
  - intros z n i [= <-]. lia.
  - done.
  - intros d h m s n. destruct (_ && _) eqn:Hr; [|done]. unfold in_range in Hr. split_bools.
    rewrite Z.leb_le in *. intros [= <-].
    destruct (div_mod_of (86400000 * d + 3600000 * h + 60000 * m + 1000 * s) d
      (3600000 * h + 60000 * m + 1000 * s) 86400000) as [-> ->]; [lia..|].
    destruct (div_mod_of (3600000 * h + 60000 * m + 1000 * s) h
      (60000 * m + 1000 * s) 3600000) as [-> _]; [lia..|].
    destruct (div_mod_of (86400000 * d + 3600000 * h + 60000 * m + 1000 * s) (24 * d + h)
      (60000 * m + 1000 * s) 3600000) as [_ ->]; [lia..|].
    by destruct (div_mod_of (60000 * m + 1000 * s) m (1000 * s) 60000) as [-> _]; [lia..|].
  - intros n. pose proof (Z.mod_pos_bound n 3600000).
    split; [apply Z.div_pos; lia|]. apply Z.lt_succ_r, Z.div_lt_upper_bound; lia.
  - intros n. pose proof (Z.mod_pos_bound n 86400000).
    split; [apply Z.div_pos; lia|]. apply Z.lt_succ_r, Z.div_lt_upper_bound; lia.
  - intros d. pose proof (Z.mod_pos_bound d 30). lia.
  - intros d. pose proof (Z.mod_pos_bound d 360).
    assert (0 <= d mod 360 / 30) by (apply Z.div_pos; lia).
    assert (d mod 360 / 30 < 12) by (apply Z.div_lt_upper_bound; lia). lia.
  - intros d. pose proof (Z.mod_pos_bound (d + 4) 7). lia.
  - intros y m d date. unfold of_ymd, in_range. destruct (_ && _) eqn:Hr; [|done]. split_bools.
    rewrite Z.leb_le in *. intros [= <-].
    destruct (div_mod_of (360 * y + 30 * (m - 1) + (d - 1)) y (30 * (m - 1) + (d - 1)) 360)
      as [-> ->]; [lia..|].
    destruct (div_mod_of (30 * (m - 1) + (d - 1)) (m - 1) (d - 1) 30) as [-> _]; [lia..|].
    destruct (div_mod_of (360 * y + 30 * (m - 1) + (d - 1)) (12 * y + (m - 1)) (d - 1) 30)
      as [_ ->]; lia.
  - intros y m next last d. unfold of_ymd, in_range. intros Hn Hm [= <-].
    destruct (_ && _) eqn:Hr in Hn; [|done]. injection Hn as <-. split_bools.
    rewrite Z.leb_le in *.
    assert (Hday : (360 * (if m =? 12 then y + 1 else y)
      + 30 * ((if m =? 12 then 1 else m + 1) - 1) + (1 - 1) + -1) mod 30 = 29).
    { destruct (Z.eqb_spec m 12);
        [apply (div_mod_of _ (12 * y + 11) 29 30) | apply (div_mod_of _ (12 * y + m - 1) 29 30)];
        lia. }
    rewrite Hday. split.
    + intros [? Hs]. destruct (_ && _) eqn:Hr2 in Hs; [|done]. split_bools.
      rewrite Z.leb_le in *. lia.
    + intros Hd. eexists. rewrite (proj2 (andb_true_iff _ _)); [reflexivity|].
      rewrite !andb_true_iff, !Z.leb_le. lia.
  - intros d n. pose proof (Z.mod_pos_bound n 86400000).
    apply (div_mod_of _ d (n mod 86400000) 86400000); lia.
  - intros d n. pose proof (Z.mod_pos_bound n 86400000).
    destruct (div_mod_of (86400000 * d + n mod 86400000) d (n mod 86400000) 86400000)
      as [_ ->]; [lia..|]. split; [done|]. f_equal.
    replace (86400000 * d + n mod 86400000)
      with (n + (24 * (d - n / 86400000)) * 3600000)
      by (pose proof (Z.div_mod n 86400000); lia).
    apply Z.mod_add. lia.
  - intros n. unfold in_range. destruct (_ && _) eqn:Hr.
    + split_bools. rewrite Z.leb_le in *. split; [done|]. lia.
    + apply andb_false_iff in Hr. rewrite !Z.leb_gt in Hr. split; [lia | done].
Qed.
End FlatCalendar.
