(* ===== verification/ScheduleExpression.v ===== *)
(** * Schedule expressions

    Models [schedule_expression.rs]: from an expression ("every 2 hours", "daily
    at 09:30", a five-field cron line, "once:" and a timestamp) and a reference
    time, the next run.  The calendar is the [Chrono] interface; an arithmetic
    step of chrono that panics is [Panic] here, so "returns an error" and
    "panics" stay apart.  Unsigned subtraction is taken with overflow checks. *)
From S2P Require Import Prelude RustStr Chrono.
Local Open Scope Z_scope.

Module IntervalUnit.
Inductive t : Type := Minute | Hour | Day | Week | Month | Quarter | Year.
End IntervalUnit.
Module IntervalSchedule.
Record t : Type := mk { amount : Z; unit : IntervalUnit.t }.
End IntervalSchedule.
Module CalendarInterval.
Inductive t : Type := Days (n : Z) | Months (n : Z).
End CalendarInterval.

Definition is_manual_expression (expression : str) : bool :=
  existsb (str_eqb (trim expression)) [lit "manual"; lit "manual run"].

(** ** Intervals *)
Definition unit_of (raw_unit : str) : option IntervalUnit.t :=
  let unit := trim_end_matches_char 115 raw_unit in
  let one_of l := existsb (fun s => str_eqb unit (lit s)) l in
  if one_of ["minute"; "min"]%string then Some IntervalUnit.Minute
  else if one_of ["hour"; "hr"]%string then Some IntervalUnit.Hour
  else if one_of ["day"]%string then Some IntervalUnit.Day
  else if one_of ["week"]%string then Some IntervalUnit.Week
  else if one_of ["month"]%string then Some IntervalUnit.Month
  else if one_of ["quarter"]%string then Some IntervalUnit.Quarter
  else if one_of ["year"]%string then Some IntervalUnit.Year
  else None.

Definition parse_interval_schedule (rest : str) : res str IntervalSchedule.t :=
  let parts := split_whitespace rest in
  match parts with
  | [unit] | [_; unit] =>
      amount ← match parts with
               | [amount; _] =>
                   ok_or (lit "Interval schedule amount must be a number.") (parse_i64 amount)
               | _ => Ok 1
               end;
      if amount <=? 0 then Err (lit "Interval schedule amount must be greater than zero.")
      else
        unit ← ok_or (lit "Unsupported interval schedule unit: " ++ unit
          ++ lit ". Use minutes, hours, days, weeks, months, quarters, or years.")
          (unit_of unit);
        Ok (IntervalSchedule.mk amount unit)
  | _ => Err (lit "Interval schedules must use 'every' followed by an optional number and one time unit.")
  end.

Definition checked_interval_amount (amount multiplier : Z) : res str Z :=
  ok_or (lit "Interval schedule amount is too large.")
    (value ← checked_mul_i64 amount multiplier; if 0 <? value then Some value else None).

Definition date_out_of_range : str := lit "Interval schedule date is out of range.".

(** [i32::try_from], [u32::try_from] *)
Definition to_i32 (z : Z) : option Z := checked i32_min i32_max z.
Definition to_u32 (z : Z) : option Z := checked 0 u32_max z.

Section Schedules.
Context `{C : Chrono}.

Definition add_months_clamped (local : Naive) (months : Z) : res str Naive :=
  month_index ← ok_or date_out_of_range
    (v ← checked_mul_i64 (year (date_naive local)) 12;
     v ← checked_add_i64 v (month (date_naive local) - 1);
     checked_add_i64 v months);
  year ← ok_or date_out_of_range (to_i32 (month_index / 12));
  month ← ok_or date_out_of_range (to_u32 (month_index mod 12 + 1));
  first_next_month ← ok_or date_out_of_range
    (if month =? 12 then year' ← checked_add_i32 year 1; from_ymd_opt year' 1 1
     else from_ymd_opt year (month + 1) 1);
  last_of_month ← or_panic (date_add_days first_next_month (-1));
  let last_day := day last_of_month in
  date ← ok_or date_out_of_range
    (from_ymd_opt year month (Z.min (day (date_naive local)) last_day));
  Ok (and_time_of date local).

Definition shifted_calendar_local (local : Naive) (amount : Z)
    (interval : CalendarInterval.t) : res str Naive :=
  match interval with
  | CalendarInterval.Days days =>
      n ← checked_interval_amount amount days;
      duration ← or_panic (duration_days n);
      ok_or date_out_of_range (checked_add_seconds local duration)
  | CalendarInterval.Months months =>
      total_months ← checked_interval_amount amount months;
      add_months_clamped local total_months
  end.

(** The first instant after [after_ms] that shows [candidate] on the wall. *)
Definition instant_after (zone : Zone) (candidate : Naive) (after_ms : Z) : option Z :=
  match from_local_datetime zone candidate with
  | Single value =>
      if after_ms <? timestamp_millis value then Some (timestamp_millis value) else None
  | Ambiguous first second =>
      option_map timestamp_millis
        (List.find (fun value => after_ms <? timestamp_millis value) [first; second])
  | NoneLocal => None
  end.

Definition resolve_timezone_local_after (zone : Zone) (local : Naive) (after_ms : Z)
  : res str Z :=
  found ← for_return (fun offset =>
      candidate ← or_panic (naive_add_minutes local offset);
      Ok (instant_after zone candidate after_ms)) (seqZ 0 121);
  ok_or (lit "Unable to resolve the next interval run in this timezone.") found.

Definition next_calendar_interval_run_after_in_timezone (after_ms : Z) (zone : Zone)
    (amount : Z) (interval : CalendarInterval.t) : res str Z :=
  after ← ok_or (lit "Invalid schedule reference time.") (timestamp_millis_opt after_ms);
  shifted ← shifted_calendar_local (naive_local zone after) amount interval;
  resolve_timezone_local_after zone shifted after_ms.

Definition local_datetime (timestamp_ms : Z) : res str Instant :=
  ok_or (lit "Timestamp could not be represented in local time.")
    (timestamp_millis_opt timestamp_ms).

Definition next_calendar_interval_run_after_local (after_ms amount : Z)
    (interval : CalendarInterval.t) : res str Z :=
  after ← local_datetime after_ms;
  shifted ← shifted_calendar_local (naive_local Local_zone after) amount interval;
  found ← for_return (fun offset =>
      candidate ← or_panic (naive_add_minutes shifted offset);
      Ok (instant_after Local_zone candidate after_ms)) (seqZ 0 121);
  ok_or (lit "Unable to resolve the next local interval run.") found.

(** The match on the unit that both interval functions share. *)
Definition interval_run (after_ms : Z) (schedule : IntervalSchedule.t)
    (calendar : CalendarInterval.t -> res str Z) : res str Z :=
  let amount := IntervalSchedule.amount schedule in
  match IntervalSchedule.unit schedule with
  | IntervalUnit.Minute =>
      Ok (saturating_add_i64 after_ms (saturating_mul_i64 amount (60 * 1000)))
  | IntervalUnit.Hour =>
      Ok (saturating_add_i64 after_ms (saturating_mul_i64 amount (60 * 60 * 1000)))
  | IntervalUnit.Day => calendar (CalendarInterval.Days 1)
  | IntervalUnit.Week => calendar (CalendarInterval.Days 7)
  | IntervalUnit.Month => calendar (CalendarInterval.Months 1)
  | IntervalUnit.Quarter => calendar (CalendarInterval.Months 3)
  | IntervalUnit.Year => calendar (CalendarInterval.Months 12)
  end.

Definition next_interval_run_after (rest : str) (after_ms : Z) : res str Z :=
  schedule ← parse_interval_schedule rest;
  interval_run after_ms schedule
    (next_calendar_interval_run_after_local after_ms (IntervalSchedule.amount schedule)).

Definition next_interval_run_after_in_timezone (rest : str) (zone : Zone) (after_ms : Z)
  : res str Z :=
  schedule ← parse_interval_schedule rest;
  interval_run after_ms schedule
    (next_calendar_interval_run_after_in_timezone after_ms zone
       (IntervalSchedule.amount schedule)).

(** ** Daily times *)
Definition parse_daily_time (value : str) : res str (Z * Z) :=
  '(hour, minute) ← ok_or (lit "Daily schedules must use HH:MM time.")
                      (split_once_char 58 (trim value));
  hour ← ok_or (lit "Daily schedule hour must be numeric.") (parse_u32 hour);
  minute ← ok_or (lit "Daily schedule minute must be numeric.") (parse_u32 minute);
  if (23 <? hour) || (59 <? minute)
  then Err (lit "Daily schedule time must be between 00:00 and 23:59.")
  else Ok (hour, minute).

Definition next_daily_run_after (hour minute after_ms : Z) : res str Z :=
  after ← local_datetime after_ms;
  found ← for_return (fun day_offset =>
      date ← or_panic (date_add_days (date_naive (naive_local Local_zone after)) day_offset);
      Ok (naive ← and_hms_opt date hour minute 0;
          candidate ← earliest (from_local_datetime Local_zone naive);
          if after_ms <? timestamp_millis candidate
          then Some (timestamp_millis candidate) else None)) (seqZ 0 370);
  ok_or (lit "Could not resolve the next local daily schedule time.") found.

Definition resolve_daily_timezone_candidate (zone : Zone) (local : Naive) (after_ms : Z)
  : res str (option Z) :=
  let later value :=
    if after_ms <? timestamp_millis value then Some (timestamp_millis value) else None in
  match from_local_datetime zone local with
  | Single value => Ok (later value)
  | Ambiguous first _ => Ok (later first)
  | NoneLocal =>
      for_return (fun offset =>
          shifted ← or_panic (naive_add_minutes local offset);
          Ok match from_local_datetime zone shifted with
             | Single value => later value
             | _ => None
             end) (seqZ 1 120)
  end.

Definition next_daily_run_after_in_timezone (zone : Zone) (after : Instant)
    (after_ms hour minute : Z) : res str Z :=
  found ← for_return (fun days =>
      date ← or_panic (date_add_days (date_naive (naive_local zone after)) days);
      naive ← ok_or (lit "Invalid daily schedule time.") (and_hms_opt date hour minute 0);
      resolve_daily_timezone_candidate zone naive after_ms) (seqZ 0 3);
  ok_or (lit "Unable to find the next daily run in this timezone.") found.

(** ** Cron: the dialect of the local scheduler *)
Definition parse_cron_number (raw : str) (min max : Z) (sunday_alias : bool) : res str Z :=
  value ← ok_or (lit "Invalid cron number: " ++ raw) (parse_u32 raw);
  let value := if sunday_alias && (value =? 7) then 0 else value in
  if (value <? min) || (max <? value) || (negb sunday_alias && (value =? 7) && (max =? 7))
  then Err (lit "Cron number out of range: " ++ raw)
  else Ok value.

(** [step.map(|step| value.saturating_sub(from) % step == 0).unwrap_or(true)] *)
Definition on_step (step : option Z) (value from : Z) : bool :=
  match step with
  | Some step => saturating_sub_u32 value from mod step =? 0
  | None => true
  end.

Definition cron_term_matches (term : str) (value min max : Z) (sunday_alias : bool)
  : res str bool :=
  if is_empty term then Err (lit "Cron fields must not contain empty terms.")
  else
    '(base, step) ←
      match split_once_char 47 term with
      | Some (base, step) =>
          step ← ok_or (lit "Invalid cron step: " ++ term) (parse_u32 step);
          if step =? 0 then Err (lit "Cron step must be greater than zero.")
          else Ok (base, Some step)
      | None => Ok (term, None)
      end;
    if str_eqb base (lit "*") then Ok (on_step step value min)
    else match split_once_char 45 base with
    | Some (start, stop) =>
        start ← parse_cron_number start min max sunday_alias;
        stop ← parse_cron_number stop min max sunday_alias;
        if stop <? start then Err (lit "Cron ranges must ascend: " ++ term)
        else Ok ((start <=? value) && (value <=? stop) && on_step step value start)
    | None =>
        start ← parse_cron_number base min max sunday_alias;
        Ok match step with
           | Some _ => (start <=? value) && on_step step value start
           | None => value =? start
           end
    end.

Definition cron_field_matches (field : str) (value min max : Z) (sunday_alias : bool)
  : res str bool :=
  found ← for_return (fun term =>
      matched ← cron_term_matches (trim term) value min max sunday_alias;
      Ok (if matched : bool then Some true else None)) (split_char 44 field);
  Ok (default false found).

(** [a? && b?]: the right side is evaluated only when the left is true. *)
Definition and_then (a b : res str bool) : res str bool :=
  x ← a; if x : bool then b else Ok false.

Definition cron_matches (fields : list str) (candidate : Instant) : res str bool :=
  let naive := naive_local Local_zone candidate in
  let date := date_naive naive in
  let field i := nth i fields [] in
  and_then (and_then (and_then (and_then
    (cron_field_matches (field 0%nat) (minute naive) 0 59 false)
    (cron_field_matches (field 1%nat) (hour naive) 0 23 false))
    (cron_field_matches (field 2%nat) (day date) 1 31 false))
    (cron_field_matches (field 3%nat) (month date) 1 12 false))
    (cron_field_matches (field 4%nat) (num_days_from_sunday date) 0 7 true).

(** The minute-by-minute search of both cron functions: [fuel] turns of
    [if test(candidate)? { return } candidate += 1 minute]. *)
Fixpoint cron_search (fuel : nat) (test : Instant -> res str bool) (candidate : Instant)
  : res str (option Z) :=
  match fuel with
  | O => Ok None
  | S fuel =>
      matched ← test candidate;
      if matched : bool then Ok (Some (timestamp_millis candidate))
      else
        next ← or_panic (add_minutes candidate 1);
        cron_search fuel test next
  end.

Definition MINUTES_PER_YEAR : Z := 366 * 24 * 60.

(** [with_second(0).and_then(|value| value.with_nanosecond(0))] *)
Definition align (zone : Zone) (i : Instant) : option Instant :=
  i ← with_second_0 zone i; with_nanosecond_0 zone i.

Definition next_cron_run_after (fields : list str) (after_ms : Z) : res str Z :=
  after ← local_datetime after_ms;
  candidate ← or_panic (add_minutes after 1);
  candidate ← ok_or (lit "Could not align cron schedule to the next minute.")
                (align Local_zone candidate);
  found ← cron_search (Z.to_nat MINUTES_PER_YEAR) (cron_matches fields) candidate;
  ok_or (lit "Cron schedule did not match within one year.") found.

(** ** Cron: the dialect of Routines *)
Definition routine_cron_field (raw : str) (value min max : Z) : res str bool :=
  if str_eqb raw (lit "*") then Ok true
  else match strip_prefix (lit "*/") raw with
  | Some step =>
      step ← ok_or (lit "Invalid cron step.") (parse_u32 step);
      if 0 <? step
      then (rest ← or_panic (checked 0 u32_max (value - min)); Ok (rest mod step =? 0))
      else Ok false
  | None =>
      for_fold (fun matched item =>
          parsed ← ok_or (lit "Invalid cron field.") (parse_u32 item);
          if (parsed <? min) || (max <? parsed) then Err (lit "Cron value is out of range.")
          else Ok (matched || (parsed =? value))) false (split_char 44 raw)
  end.

Definition routine_cron_matches (fields : list str) (minute hour day month weekday : Z)
  : res str bool :=
  let field i := nth i fields [] in
  and_then (and_then (and_then (and_then
    (routine_cron_field (field 0%nat) minute 0 59)
    (routine_cron_field (field 1%nat) hour 0 23))
    (routine_cron_field (field 2%nat) day 1 31))
    (routine_cron_field (field 3%nat) month 1 12))
    (routine_cron_field (field 4%nat) weekday 0 6).

Definition is_first_timezone_occurrence (zone : Zone) (i : Instant) : bool :=
  match from_local_datetime zone (naive_local zone i) with
  | Ambiguous first _ => timestamp_millis first =? timestamp_millis i
  | _ => true
  end.

Definition routine_cron_test (fields : list str) (zone : Zone) (candidate : Instant)
  : res str bool :=
  let local := naive_local zone candidate in
  let date := date_naive local in
  and_then (routine_cron_matches fields (minute local) (hour local) (day date)
              (month date) (num_days_from_sunday date))
    (Ok (is_first_timezone_occurrence zone candidate)).

Definition next_cron_run_after_in_timezone (fields : list str) (zone : Zone)
    (after : Instant) : res str Z :=
  candidate ← or_panic (add_minutes after 1);
  candidate ← ok_or (lit "Invalid cron reference time.") (align Utc_zone candidate);
  found ← cron_search (Z.to_nat MINUTES_PER_YEAR) (routine_cron_test fields zone) candidate;
  ok_or (lit "Cron schedule has no run in the next year.") found.

(** ** The two entry points *)
Definition one_hour_later (after_ms : Z) : Z :=
  saturating_add_i64 after_ms (60 * 60 * 1000).

Definition next_run_after (expression : str) (after_ms : Z) : res str Z :=
  let expression := trim expression in
  if is_empty expression then Err (lit "Schedule expression must not be empty.")
  else
    let normalized := to_ascii_lowercase expression in
    if is_manual_expression normalized
    then Err (lit "Manual run is not a recurring schedule.")
    else if str_eqb normalized (lit "hourly") then Ok (one_hour_later after_ms)
    else if str_eqb normalized (lit "daily") then next_daily_run_after 9 0 after_ms
    else match strip_prefix (lit "every ") normalized with
    | Some rest => next_interval_run_after rest after_ms
    | None =>
    match strip_prefix (lit "daily at ") normalized with
    | Some rest =>
        '(hour, minute) ← parse_daily_time rest;
        next_daily_run_after hour minute after_ms
    | None =>
        let fields := split_whitespace normalized in
        if Nat.eqb (length fields) 5 then next_cron_run_after fields after_ms
        else Err (lit "Unsupported workflow schedule expression: " ++ expression
          ++ lit ". Use examples like 'every 1 hour', 'daily at 09:00', or a simple five-field cron expression.")
    end
    end.

Definition next_run_after_in_timezone (expression timezone : str) (after_ms : Z)
  : res str Z :=
  let expression := to_ascii_lowercase (trim expression) in
  match strip_prefix (lit "once:") expression with
  | Some raw =>
      instant ← ok_or (lit "Invalid one-time schedule.") (parse_i64 raw);
      if after_ms <? instant then Ok instant
      else Err (lit "The one-time schedule is already in the past.")
  | None =>
      zone ← ok_or (lit "Invalid routine timezone.") (parse_zone timezone);
      if str_eqb expression (lit "hourly") then Ok (one_hour_later after_ms)
      else match strip_prefix (lit "every ") expression with
      | Some rest => next_interval_run_after_in_timezone rest zone after_ms
      | None =>
          after ← ok_or (lit "Invalid schedule reference time.")
                    (timestamp_millis_opt after_ms);
          if str_eqb expression (lit "daily") || starts_with (lit "daily at ") expression then
            '(hour, minute) ←
              if str_eqb expression (lit "daily") then Ok (9, 0)
              else parse_daily_time (trim_start_matches (lit "daily at ") expression);
            next_daily_run_after_in_timezone zone after after_ms hour minute
          else
            let fields := split_whitespace expression in
            if Nat.eqb (length fields) 5
            then next_cron_run_after_in_timezone fields zone after
            else next_run_after expression after_ms
      end
  end.
End Schedules.

(** * Schedule expressions: what the next run is

    The next run is later than the reference time, on every path; the cron search
    finds the first matching minute; a cron field means what its abstract syntax
    says; intervals are read back as written; a daily run shows its time on the
    wall; a month is added without leaving the month's last day; a huge day count
    panics instead of being refused. *)
(** ** Abstract syntax of a cron field *)
Inductive cron_base : Type := Any | At (n : Z) | Range (first last : Z).
Record cron_term : Type := mkTerm { term_base : cron_base; term_step : option Z }.

Definition print_base (b : cron_base) : str :=
  match b with
  | Any => lit "*"
  | At n => show_nat n
  | Range a b => show_nat a ++ 45 :: show_nat b
  end.
Definition print_term (t : cron_term) : str :=
  print_base (term_base t) ++
  match term_step t with Some n => 47 :: show_nat n | None => [] end.
Fixpoint print_field (t : cron_term) (ts : list cron_term) : str :=
  match ts with
  | [] => print_term t
  | t' :: ts' => print_term t ++ 44 :: print_field t' ts'
  end.

(** Sunday may be written 7 in the weekday field. *)
Definition norm (alias : bool) (n : Z) : Z := if alias && (n =? 7) then 0 else n.
Definition number_ok (lo hi : Z) (alias : bool) (n : Z) : Prop :=
  0 <= n <= u32_max /\ lo <= norm alias n <= hi /\ (alias = false -> hi = 7 -> n <> 7).
Definition base_ok (lo hi : Z) (alias : bool) (b : cron_base) : Prop :=
  match b with
  | Any => True
  | At n => number_ok lo hi alias n
  | Range a b =>
      number_ok lo hi alias a /\ number_ok lo hi alias b /\ norm alias a <= norm alias b
  end.
Definition term_ok (lo hi : Z) (alias : bool) (t : cron_term) : Prop :=
  base_ok lo hi alias (term_base t)
  /\ match term_step t with Some n => 0 < n <= u32_max | None => True end.

(** What a term selects: the values of its base, at its step from the base's
    first value; a step after a single number opens the range upwards. *)
Definition step_from (step : option Z) (from v : Z) : bool :=
  match step with Some n => (v - from) mod n =? 0 | None => true end.
Definition denote_term (lo : Z) (alias : bool) (t : cron_term) (v : Z) : bool :=
  match term_base t with
  | Any => step_from (term_step t) lo v
  | At n =>
      match term_step t with
      | Some _ => (norm alias n <=? v) && step_from (term_step t) (norm alias n) v
      | None => v =? norm alias n
      end
  | Range a b =>
      (norm alias a <=? v) && (v <=? norm alias b)
      && step_from (term_step t) (norm alias a) v
  end.

(** ** Printing and reading cron terms *)
Definition digit_char (c : char) : Prop := 48 <= c <= 57.
(** The characters of a printed term. *)
Definition term_char (c : char) : Prop :=
  48 <= c <= 57 \/ c = 42 \/ c = 45 \/ c = 47.

Lemma show_digits n : 0 <= n -> Forall digit_char (show_nat n).
Proof. intros H. by apply show_nat_all. Qed.

Lemma Forall_app_cons {A} (P : A -> Prop) l x k :
  Forall P l -> P x -> Forall P k -> Forall P (l ++ x :: k).
Proof. intros Hl Hx Hk. apply Forall_app. split; [done|]. by constructor. Qed.

Lemma term_char_digit s : Forall digit_char s -> Forall term_char s.
Proof. intros H. eapply List.Forall_impl; [|exact H]. unfold digit_char, term_char. lia. Qed.

Definition nonneg_base (b : cron_base) : Prop :=
  match b with Any => True | At n => 0 <= n | Range a b => 0 <= a /\ 0 <= b end.
Lemma base_ok_nonneg lo hi alias b : base_ok lo hi alias b -> nonneg_base b.
Proof. destruct b; cbn; unfold number_ok; intuition lia. Qed.

(** No slash in a base. *)
Definition base_char (c : char) : Prop := 48 <= c <= 57 \/ c = 42 \/ c = 45.
Lemma print_base_chars b : nonneg_base b -> Forall base_char (print_base b).
Proof.
  assert (Hd : forall n, 0 <= n -> Forall base_char (show_nat n)).
  { intros n Hn. eapply List.Forall_impl; [|by apply show_digits].
    unfold digit_char, base_char. lia. }
  destruct b; cbn; intros H.
  - constructor; [by right; left | constructor].
  - by apply Hd.
  - apply Forall_app_cons; [apply Hd; lia | unfold base_char; lia | apply Hd; lia].
Qed.

Lemma print_term_chars lo hi alias t : term_ok lo hi alias t -> Forall term_char (print_term t).
Proof.
  intros [Hb Hs]. unfold print_term. apply Forall_app. split.
  - eapply List.Forall_impl; [|by eapply print_base_chars, base_ok_nonneg].
    unfold base_char, term_char. lia.
  - destruct (term_step t); constructor; [unfold term_char; lia|].
    apply term_char_digit, show_digits. lia.
Qed.

Lemma print_base_nonempty b : nonneg_base b -> print_base b <> [].
Proof.
  destruct b; intros H; cbn [print_base nonneg_base] in *; [done| |].
  - by destruct (show_nat_cons n H) as (c & s & -> & _).
  - destruct (show_nat_cons first (proj1 H)) as (c & s & -> & _). done.
Qed.

Lemma parse_cron_number_show lo hi alias n :
  number_ok lo hi alias n ->
  parse_cron_number (show_nat n) lo hi alias = Ok (norm alias n).
Proof.
  intros (Hn & Hr & H7). unfold parse_cron_number.
  rewrite parse_u32_show by done. simpl. fold (norm alias n).
  rewrite (proj2 (Z.ltb_ge _ _)), (proj2 (Z.ltb_ge _ _)) by lia. simpl.
  destruct alias; simpl; [done|].
  destruct (Z.eqb_spec (norm false n) 7) as [E|]; [|done]. simpl.
  destruct (Z.eqb_spec hi 7); [|done]. unfold norm in E. simpl in E. by destruct H7.
Qed.

Lemma on_step_from step v from :
  0 <= from <= v -> v <= u32_max -> on_step step v from = step_from step from v.
Proof.
  intros H1 H2. unfold on_step, step_from. destruct step; [|done].
  replace (saturating_sub_u32 v from) with (v - from); [done|]. int_lia.
Qed.

Lemma cron_term_matches_print lo hi alias t v :
  term_ok lo hi alias t -> 0 <= lo <= v -> v <= u32_max ->
  cron_term_matches (print_term t) v lo hi alias = Ok (denote_term lo alias t v).
Proof.
  intros [Hb Hs] Hlo Hv. assert (Hnn := base_ok_nonneg _ _ _ _ Hb).
  assert (Hchars := print_base_chars _ Hnn).
  assert (Hbase : forall s msg,
    (if str_eqb (print_base (term_base t)) (lit "*") then Ok (on_step s v lo)
     else match split_once_char 45 (print_base (term_base t)) with
      | Some (start, stop) =>
          start ← parse_cron_number start lo hi alias;
          stop ← parse_cron_number stop lo hi alias;
          if stop <? start then Err msg
          else Ok ((start <=? v) && (v <=? stop) && on_step s v start)
      | None =>
          start ← parse_cron_number (print_base (term_base t)) lo hi alias;
          Ok match s with
             | Some _ => (start <=? v) && on_step s v start
             | None => v =? start
             end
      end) = Ok (denote_term lo alias (mkTerm (term_base t) s) v)).
  { intros s msg. unfold denote_term. cbn [term_base term_step].
    destruct (term_base t) as [|n|a b]; cbn [print_base base_ok] in *.
    - change (str_eqb (lit "*") (lit "*")) with true. cbn iota.
      by rewrite on_step_from by lia.
    - assert (Hstar : str_eqb (show_nat n) (lit "*") = false).
      { apply bool_decide_eq_false. intros E.
        destruct (show_nat_cons n) as (c & r & Hc & Hcr); [apply Hb|].
        rewrite Hc in E. injection E as E _. vm_compute in E. lia. }
      rewrite Hstar, split_once_char_no.
      2: { eapply List.Forall_impl; [|apply show_digits, Hb]. unfold digit_char. lia. }
      rewrite parse_cron_number_show by done. simpl. destruct s; [|done].
      destruct (Z.leb_spec (norm alias n) v); [|done].
      rewrite on_step_from; [done| |done]. destruct Hb as (_ & ? & _). lia.
    - destruct Hb as (Ha & Hb & Hab).
      assert (Hstar : str_eqb (show_nat a ++ 45 :: show_nat b) (lit "*") = false).
      { apply bool_decide_eq_false. intros E.
        destruct (show_nat_cons a) as (c & r & Hc & Hcr); [apply Ha|].
        rewrite Hc in E. injection E as E _. vm_compute in E. lia. }
      rewrite Hstar, split_once_char_app.
      2: { eapply List.Forall_impl; [|apply show_digits, Ha]. unfold digit_char. lia. }
      rewrite !parse_cron_number_show by done. simpl.
      rewrite (proj2 (Z.ltb_ge _ _)) by done.
      destruct (Z.leb_spec (norm alias a) v); [|done].
      rewrite on_step_from; [done| |done]. destruct Ha as (_ & ? & _). lia. }
  assert (Hne : is_empty (print_term t) = false).
  { unfold print_term. pose proof (print_base_nonempty _ Hnn). by destruct (print_base _). }
  assert (Hno : Forall (fun c => c <> 47) (print_base (term_base t))).
  { eapply List.Forall_impl; [|exact Hchars]. unfold base_char. lia. }
  unfold cron_term_matches. rewrite Hne.
  destruct t as [b [n|]]; cbn [term_base term_step] in *.
  - assert (Hsplit : split_once_char 47 (print_term (mkTerm b (Some n)))
                     = Some (print_base b, show_nat n)) by by apply split_once_char_app.
    rewrite Hsplit. rewrite parse_u32_show by lia.
    cbn [ok_or]. rewrite Ok_bind. destruct (Z.eqb_spec n 0); [lia|].
    rewrite Ok_bind. apply (Hbase (Some n)).
  - assert (Hsplit : split_once_char 47 (print_term (mkTerm b None)) = None).
    { unfold print_term. cbn [term_base term_step]. rewrite app_nil_r.
      by apply split_once_char_no. }
    rewrite Hsplit, Ok_bind. unfold print_term. cbn [term_base term_step].
    rewrite app_nil_r. apply (Hbase None).
Qed.

Lemma print_term_trim lo hi alias t : term_ok lo hi alias t -> trim (print_term t) = print_term t.
Proof.
  intros H. apply trim_id_all. eapply List.Forall_impl; [|by eapply print_term_chars].
  intros c Hc. unfold term_char in Hc. unfold is_whitespace, in_range.
  destruct Hc as [Hc|[->|[->| ->]]]; [|done..].
  apply not_true_is_false. rewrite !orb_true_iff, !andb_true_iff, !Z.leb_le, !Z.eqb_eq. lia.
Qed.

(** A cron field means what its abstract syntax says.  Written out, a
    non-empty list of well-formed terms matches a value exactly when one of the
    terms selects it, and is never refused. *)
Theorem cron_field_denotes lo hi alias t ts v :
  Forall (term_ok lo hi alias) (t :: ts) -> 0 <= lo <= v -> v <= u32_max ->
  cron_field_matches (print_field t ts) v lo hi alias
  = Ok (existsb (fun t => denote_term lo alias t v) (t :: ts)).
Proof.
  intros Hok Hlo Hv. unfold cron_field_matches.
  assert (Hloop : for_return (fun term =>
      matched ← cron_term_matches (trim term) v lo hi alias;
      Ok (if matched : bool then Some true else None)) (split_char 44 (print_field t ts))
    = Ok (if existsb (fun t => denote_term lo alias t v) (t :: ts) then Some true else None)).
  { revert t Hok. induction ts as [|t' ts IH]; intros t Hok;
      apply Forall_cons_iff in Hok as [Ht Hts].
    - cbn [print_field]. rewrite split_char_no.
      2: { eapply List.Forall_impl; [|by eapply print_term_chars].
           unfold term_char. lia. }
      cbn [for_return]. rewrite (print_term_trim _ _ _ _ Ht), (cron_term_matches_print _ _ _ _ _ Ht)
        by done. rewrite Ok_bind. cbn [existsb]. rewrite orb_false_r. by case_match.
    - cbn [print_field]. rewrite split_char_app.
      2: { eapply List.Forall_impl; [|by eapply print_term_chars].
           unfold term_char. lia. }
      cbn [for_return]. rewrite (print_term_trim _ _ _ _ Ht), (cron_term_matches_print _ _ _ _ _ Ht)
        by done. rewrite Ok_bind. cbn [existsb].
      destruct (denote_term lo alias t v); rewrite Ok_bind; [done|]. by apply IH. }
  rewrite Hloop, Ok_bind. by case_match.
Qed.

(** ** Intervals *)
Definition unit_name (u : IntervalUnit.t) : str :=
  match u with
  | IntervalUnit.Minute => lit "minute" | IntervalUnit.Hour => lit "hour"
  | IntervalUnit.Day => lit "day" | IntervalUnit.Week => lit "week"
  | IntervalUnit.Month => lit "month" | IntervalUnit.Quarter => lit "quarter"
  | IntervalUnit.Year => lit "year"
  end.
Definition print_interval (plural : bool) (s : IntervalSchedule.t) : str :=
  show_nat (IntervalSchedule.amount s) ++ 32 :: unit_name (IntervalSchedule.unit s)
  ++ (if plural then [115] else []).

(** An interval is read back as written, singular or plural, for every
    amount a signed 64-bit integer can hold. *)
Theorem interval_round_trip plural s :
  0 < IntervalSchedule.amount s <= i64_max ->
  parse_interval_schedule (print_interval plural s) = Ok s.
Proof.
  destruct s as [n u]. cbn [IntervalSchedule.amount]. intros Hn.
  unfold parse_interval_schedule, print_interval. cbn [IntervalSchedule.amount IntervalSchedule.unit].
  assert (Hsplit : split_whitespace (show_nat n ++ 32 :: unit_name u
                     ++ (if plural then [115] else []))
                   = [show_nat n; unit_name u ++ (if plural then [115] else [])]).
  { rewrite split_whitespace_cons.
    - destruct u, plural; reflexivity.
    - destruct (show_nat_cons n ltac:(lia)) as (c & r & -> & _). done.
    - eapply List.Forall_impl; [|apply show_digits; lia]. intros c Hc. unfold digit_char in Hc.
      unfold is_whitespace, in_range. apply not_true_is_false.
      rewrite !orb_true_iff, !andb_true_iff, !Z.leb_le, !Z.eqb_eq. lia. }
  rewrite Hsplit, parse_i64_show by lia. cbn [ok_or]. rewrite Ok_bind.
  rewrite (proj2 (Z.leb_gt _ _)) by lia.
  destruct u, plural; reflexivity.
Qed.

(** ** The calendar *)
Section Calendar.
Context `{L : ChronoLaws}.

Lemma for_return_found {A} (f : A -> res str (option Z)) l e t :
  (found ← for_return f l; ok_or e found) = Ok t ->
  exists l1 x l2, l = l1 ++ x :: l2 /\ f x = Ok (Some t)
    /\ Forall (fun y => f y = Ok None) l1.
Proof. intros H. inv_res. subst. by apply for_return_Ok_Some. Qed.

Lemma instant_after_later zone candidate after t :
  instant_after zone candidate after = Some t -> after < t.
Proof.
  unfold instant_after. destruct (from_local_datetime zone candidate) as [i|i j|]; [| |done].
  - destruct (Z.ltb_spec after (timestamp_millis i)); [by intros [= <-]|done].
  - cbn. destruct (Z.ltb_spec after (timestamp_millis i)); [by intros [= <-]|].
    destruct (Z.ltb_spec after (timestamp_millis j)); [by intros [= <-]|done].
Qed.

(** The candidates of a cron search, one minute apart. *)
Fixpoint minutes_on (k : nat) (i : Instant) : option Instant :=
  match k with O => Some i | S k => j ← add_minutes i 1; minutes_on k j end.

Lemma minutes_on_millis k i j :
  minutes_on k i = Some j -> timestamp_millis j = timestamp_millis i + 60000 * Z.of_nat k.
Proof.
  revert i. induction k as [|k IH]; intros i; cbn [minutes_on].
  - intros [= ->]. lia.
  - destruct (add_minutes i 1) as [i'|] eqn:H; [|done]. simpl. intros Hj.
    rewrite (IH i' Hj), (add_minutes_millis i 1 i' H). lia.
Qed.

Lemma cron_search_Some fuel test i t :
  cron_search fuel test i = Ok (Some t) ->
  exists k j, (k < fuel)%nat /\ minutes_on k i = Some j /\ test j = Ok true
    /\ timestamp_millis j = t
    /\ forall k', (k' < k)%nat -> exists j', minutes_on k' i = Some j' /\ test j' = Ok false.
Proof.
  revert i. induction fuel as [|fuel IH]; intros i; [done|]. cbn [cron_search].
  intros (b & Ht & H)%bind_Ok. destruct b.
  - injection H as <-. exists O, i. split; [lia|]. split; [done|]. split; [done|].
    split; [done|]. intros k' Hk. lia.
  - apply bind_Ok in H as (i' & Hi%or_panic_Ok & H).
    destruct (IH i' H) as (k & j & Hk & Hj & Htest & Hts & Hbefore).
    exists (S k), j. split; [lia|]. cbn [minutes_on]. rewrite Hi. split; [exact Hj|].
    split; [done|]. split; [done|].
    intros [|k'] Hk'; [by exists i|]. cbn [minutes_on]. rewrite Hi.
    apply Hbefore. lia.
Qed.

Lemma cron_search_None fuel test i :
  cron_search fuel test i = Ok None ->
  forall k, (k < fuel)%nat -> exists j, minutes_on k i = Some j /\ test j = Ok false.
Proof.
  revert i. induction fuel as [|fuel IH]; intros i H k Hk; [lia|]. cbn [cron_search] in H.
  apply bind_Ok in H as (b & Ht & H). destruct b; [done|].
  apply bind_Ok in H as (i' & Hi%or_panic_Ok & H).
  destruct k as [|k]; [by exists i|]. cbn [minutes_on]. rewrite Hi.
  apply (IH i' H). lia.
Qed.

(** The first candidate of a cron search lies in the minute after [after_ms]. *)
Lemma aligned_start zone after_ms after next first :
  timestamp_millis_opt after_ms = Some after -> add_minutes after 1 = Some next ->
  align zone next = Some first ->
  after_ms < timestamp_millis first <= after_ms + 60000.
Proof.
  intros Ha Hn Hf. unfold align in Hf.
  destruct (with_second_0 zone next) as [i|] eqn:Hi; [|done]. simpl in Hf.
  pose proof (align_minute zone next i first Hi Hf).
  rewrite (add_minutes_millis _ _ _ Hn), (timestamp_of _ _ Ha) in *. lia.
Qed.

(** C39: the local cron search answers the first minute that matches. It starts in the
    minute after the reference time, looks at one year of minutes, and when it answers,
    the answer matches all five fields and no earlier minute of the search does. *)
Theorem cron_finds_first_match fields after_ms t :
  next_cron_run_after fields after_ms = Ok t ->
  exists first k answer,
    after_ms < timestamp_millis first <= after_ms + 60000
    /\ (k < Z.to_nat MINUTES_PER_YEAR)%nat
    /\ minutes_on k first = Some answer
    /\ t = timestamp_millis first + 60000 * Z.of_nat k
    /\ t = timestamp_millis answer
    /\ cron_matches fields answer = Ok true
    /\ forall k', (k' < k)%nat ->
         exists i, minutes_on k' first = Some i /\ cron_matches fields i = Ok false.
Proof.
  unfold next_cron_run_after, local_datetime. intros H.
  apply bind_Ok in H as (after & Ha%ok_or_Ok & H).
  apply bind_Ok in H as (next & Hn%or_panic_Ok & H).
  apply bind_Ok in H as (first & Hf%ok_or_Ok & H).
  apply bind_Ok in H as (found & Hs & Hfound%ok_or_Ok). subst found.
  apply cron_search_Some in Hs as (k & j & Hk & Hj & Htest & Hts & Hbefore).
  exists first, k, j. split; [by eapply aligned_start|]. split; [done|]. split; [done|].
  split; [by rewrite <- Hts; apply minutes_on_millis|]. split; [done|]. by split.
Qed.

(** The search both cron dialects share is exact: within its bound it
    answers a minute only when that minute passes the test and none before it
    does, and it answers none only when every minute of the bound fails. *)
Theorem cron_search_exact fuel test i r :
  cron_search fuel test i = Ok r ->
  match r with
  | Some t => exists k j, (k < fuel)%nat /\ minutes_on k i = Some j
      /\ t = timestamp_millis i + 60000 * Z.of_nat k /\ test j = Ok true
      /\ forall k', (k' < k)%nat -> exists j', minutes_on k' i = Some j' /\ test j' = Ok false
  | None => forall k, (k < fuel)%nat -> exists j, minutes_on k i = Some j /\ test j = Ok false
  end.
Proof.
  destruct r as [t|]; [|apply cron_search_None].
  intros (k & j & Hk & Hj & Htest & <- & Hbefore)%cron_search_Some.
  exists k, j. split; [done|]. split; [done|].
  split; [by apply minutes_on_millis|]. by split.
Qed.

(** ** The next run is later *)
Lemma interval_run_later after_ms s calendar t :
  i64_min <= after_ms < i64_max -> 0 < IntervalSchedule.amount s ->
  (forall u, calendar u = Ok t -> after_ms < t) ->
  interval_run after_ms s calendar = Ok t -> after_ms < t.
Proof.
  intros Ha Hn Hcal. unfold interval_run. destruct (IntervalSchedule.unit s); try apply Hcal.
  - intros [= <-]. apply saturating_add_i64_gt; [done|]. int_lia.
  - intros [= <-]. apply saturating_add_i64_gt; [done|]. int_lia.
Qed.

Lemma parse_interval_positive rest s :
  parse_interval_schedule rest = Ok s -> 0 < IntervalSchedule.amount s.
Proof.
  unfold parse_interval_schedule. intros H.
  destruct (split_whitespace rest) as [|a [|b [|c l]]]; try done;
    apply bind_Ok in H as (n & _ & H);
    (destruct (Z.leb_spec n 0); [done|]);
    apply bind_Ok in H as (u & _ & H); by injection H as <-.
Qed.

Lemma calendar_local_later after_ms amount u t :
  next_calendar_interval_run_after_local after_ms amount u = Ok t -> after_ms < t.
Proof.
  unfold next_calendar_interval_run_after_local. intros H.
  apply bind_Ok in H as (after & _ & H). apply bind_Ok in H as (shifted & _ & H).
  apply for_return_found in H as (l1 & x & l2 & _ & Hx & _).
  apply bind_Ok in Hx as (c & _ & Hx). injection Hx as Hx. by apply instant_after_later in Hx.
Qed.

Lemma calendar_timezone_later after_ms zone amount u t :
  next_calendar_interval_run_after_in_timezone after_ms zone amount u = Ok t -> after_ms < t.
Proof.
  unfold next_calendar_interval_run_after_in_timezone, resolve_timezone_local_after. intros H.
  apply bind_Ok in H as (after & _ & H). apply bind_Ok in H as (shifted & _ & H).
  apply for_return_found in H as (l1 & x & l2 & _ & Hx & _).
  apply bind_Ok in Hx as (c & _ & Hx). injection Hx as Hx. by apply instant_after_later in Hx.
Qed.

(** The answer of the local daily search: the day, the instant, its time. *)
Lemma daily_answer h m after_ms t :
  next_daily_run_after h m after_ms = Ok t ->
  exists after k date naive i,
    timestamp_millis_opt after_ms = Some after /\ 0 <= k < 370
    /\ date_add_days (date_naive (naive_local Local_zone after)) k = Some date
    /\ and_hms_opt date h m 0 = Some naive
    /\ earliest (from_local_datetime Local_zone naive) = Some i
    /\ t = timestamp_millis i /\ after_ms < t.
Proof.
  unfold next_daily_run_after, local_datetime. intros H.
  apply bind_Ok in H as (after & Ha%ok_or_Ok & H).
  apply for_return_found in H as (l1 & k & l2 & Hl & Hk & _).
  apply bind_Ok in Hk as (date & Hd%or_panic_Ok & Hk). injection Hk as Hk.
  destruct (and_hms_opt date h m 0) as [naive|] eqn:Hn; [|done]. simpl in Hk.
  destruct (earliest _) as [i|] eqn:Hi; [|done]. simpl in Hk.
  destruct (Z.ltb_spec after_ms (timestamp_millis i)); [|done]. injection Hk as <-.
  exists after, k, date, naive, i.
  assert (Hin : k ∈ seqZ 0 370) by (rewrite Hl; set_solver).
  apply elem_of_seqZ in Hin. split; [done|]. split; [lia|]. done.
Qed.

Lemma cron_local_later fields after_ms t :
  next_cron_run_after fields after_ms = Ok t -> after_ms < t.
Proof.
  unfold next_cron_run_after, local_datetime. intros H.
  apply bind_Ok in H as (after & Ha%ok_or_Ok & H).
  apply bind_Ok in H as (next & Hn%or_panic_Ok & H).
  apply bind_Ok in H as (first & Hf%ok_or_Ok & H).
  apply bind_Ok in H as (found & Hs & Hfound%ok_or_Ok). subst found.
  apply cron_search_Some in Hs as (k & j & _ & Hj & _ & <- & _).
  pose proof (aligned_start _ _ _ _ _ Ha Hn Hf). apply minutes_on_millis in Hj. lia.
Qed.

Lemma cron_timezone_later fields zone after_ms after t :
  timestamp_millis_opt after_ms = Some after ->
  next_cron_run_after_in_timezone fields zone after = Ok t -> after_ms < t.
Proof.
  unfold next_cron_run_after_in_timezone. intros Ha H.
  apply bind_Ok in H as (next & Hn%or_panic_Ok & H).
  apply bind_Ok in H as (first & Hf%ok_or_Ok & H).
  apply bind_Ok in H as (found & Hs & Hfound%ok_or_Ok). subst found.
  apply cron_search_Some in Hs as (k & j & _ & Hj & _ & <- & _).
  pose proof (aligned_start _ _ _ _ _ Ha Hn Hf). apply minutes_on_millis in Hj. lia.
Qed.

Lemma daily_candidate_later zone local after_ms t :
  resolve_daily_timezone_candidate zone local after_ms = Ok (Some t) -> after_ms < t.
Proof.
  unfold resolve_daily_timezone_candidate.
  assert (Hlater : forall i, (if after_ms <? timestamp_millis i
      then Some (timestamp_millis i) else None) = Some t -> after_ms < t).
  { intros i. destruct (Z.ltb_spec after_ms (timestamp_millis i)); [by intros [= <-]|done]. }
  destruct (from_local_datetime zone local) as [i|i j|];
    [intros [= H]; by apply (Hlater i)|intros [= H]; by apply (Hlater i)|].
  intros H. apply for_return_Ok_Some in H as (l1 & x & l2 & _ & Hx & _).
  apply bind_Ok in Hx as (s & _ & Hx). injection Hx as Hx.
  destruct (from_local_datetime zone s) as [i|i j|]; [|done..]. by apply (Hlater i).
Qed.

Lemma next_run_after_later expression after_ms t :
  i64_min <= after_ms < i64_max ->
  next_run_after expression after_ms = Ok t -> after_ms < t.
Proof.
  intros Ha. unfold next_run_after.
  destruct (is_empty _); [done|]. destruct (is_manual_expression _); [done|].
  destruct (str_eqb _ (lit "hourly")).
  { intros [= <-]. by apply saturating_add_i64_gt. }
  destruct (str_eqb _ (lit "daily")).
  { intros H. by apply daily_answer in H as (? & ? & ? & ? & ? & _ & _ & _ & _ & _ & _ & ?). }
  destruct (strip_prefix (lit "every ") _) as [rest|].
  { intros (s & Hs & H)%bind_Ok. eapply interval_run_later; [done| | |exact H].
    - by eapply parse_interval_positive.
    - intros u. apply calendar_local_later. }
  destruct (strip_prefix (lit "daily at ") _) as [rest|].
  { intros ([h m] & _ & H)%bind_Ok.
    by apply daily_answer in H as (? & ? & ? & ? & ? & _ & _ & _ & _ & _ & _ & ?). }
  destruct (Nat.eqb _ 5); [apply cron_local_later | done].
Qed.

Lemma next_run_after_in_timezone_later expression timezone after_ms t :
  i64_min <= after_ms < i64_max ->
  next_run_after_in_timezone expression timezone after_ms = Ok t -> after_ms < t.
Proof.
  intros Ha. unfold next_run_after_in_timezone.
  destruct (strip_prefix (lit "once:") _) as [raw|].
  { intros (i & _ & H)%bind_Ok.
    destruct (Z.ltb_spec after_ms i); [by injection H as <-|done]. }
  intros (zone & _ & H)%bind_Ok. revert H.
  destruct (str_eqb _ (lit "hourly")).
  { intros [= <-]. by apply saturating_add_i64_gt. }
  destruct (strip_prefix (lit "every ") _) as [rest|].
  { intros (s & Hs & H)%bind_Ok. eapply interval_run_later; [done| | |exact H].
    - by eapply parse_interval_positive.
    - intros u. apply calendar_timezone_later. }
  intros (after & Hafter%ok_or_Ok & H)%bind_Ok. revert H.
  destruct (_ || _).
  { intros ([h m] & _ & H)%bind_Ok. unfold next_daily_run_after_in_timezone in H.
    apply for_return_found in H as (l1 & x & l2 & _ & Hx & _).
    apply bind_Ok in Hx as (d & _ & Hx). apply bind_Ok in Hx as (n & _ & Hx).
    by apply daily_candidate_later in Hx. }
  destruct (Nat.eqb _ 5); [by apply cron_timezone_later|]. by apply next_run_after_later.
Qed.

(** The next run is strictly later than the reference time, whichever kind of
    expression it is computed from, in the machine's zone and in a Routine's. *)
Theorem next_run_is_later expression timezone after_ms t :
  i64_min <= after_ms < i64_max ->
  next_run_after expression after_ms = Ok t
  \/ next_run_after_in_timezone expression timezone after_ms = Ok t ->
  after_ms < t.
Proof.
  intros Ha [H|H]; [by eapply next_run_after_later | by eapply next_run_after_in_timezone_later].
Qed.

(** A daily run shows its time on the wall: the instant answered, read in
    the local zone, is at the asked hour and minute, on a day at most 369 days
    after the reference day, and later than the reference time. *)
Theorem daily_run_shows_its_time h m after_ms t :
  next_daily_run_after h m after_ms = Ok t ->
  exists after k date i,
    timestamp_millis_opt after_ms = Some after /\ 0 <= k < 370
    /\ date_add_days (date_naive (naive_local Local_zone after)) k = Some date
    /\ t = timestamp_millis i /\ after_ms < t
    /\ date_naive (naive_local Local_zone i) = date
    /\ hour (naive_local Local_zone i) = h /\ minute (naive_local Local_zone i) = m.
Proof.
  intros H. apply daily_answer in H as (after & k & date & naive & i & Ha & Hk & Hd & Hn & Hi & Ht & Hlt).
  exists after, k, date, i. apply and_hms_fields in Hn as (<- & <- & <-).
  assert (Hl : naive_local Local_zone i = naive).
  { destruct (from_local_datetime Local_zone naive) as [j|j j'|] eqn:Hf; [| |done];
      cbn in Hi; simplify_eq; [by apply local_single in Hf|].
    by apply local_ambiguous in Hf as (? & _). }
  rewrite Hl. done.
Qed.

(** Adding months lands in the month that many months away, on the same
    day of the month or on its last day when it is shorter, at the same time
    of day. *)
Theorem months_added_are_clamped local n r :
  add_months_clamped local n = Ok r ->
  let d := date_naive local in
  let d' := date_naive r in
  12 * year d' + (month d' - 1) = 12 * year d + (month d - 1) + n
  /\ day d' <= day d
  /\ (is_Some (from_ymd_opt (year d') (month d') (day d)) -> day d' = day d)
  /\ hour r = hour local /\ minute r = minute local.
Proof.
  unfold add_months_clamped. intros H.
  apply bind_Ok in H as (index & Hi%ok_or_Ok & H).
  apply bind_Ok in H as (y & Hy%ok_or_Ok & H). apply bind_Ok in H as (mo & Hm%ok_or_Ok & H).
  apply bind_Ok in H as (next & Hnext%ok_or_Ok & H).
  apply bind_Ok in H as (last & Hlast%or_panic_Ok & H).
  apply bind_Ok in H as (date & Hdate%ok_or_Ok & H). injection H as <-. cbn zeta.
  rewrite and_time_date. destruct (and_time_clock date local) as [-> ->].
  destruct (from_ymd_fields _ _ _ _ Hdate) as (-> & -> & ->).
  apply checked_Some in Hy as [-> _]. apply checked_Some in Hm as [-> _].
  pose proof (Z.mod_pos_bound index 12 ltac:(lia)) as Hmod.
  assert (Hindex : index = 12 * year (date_naive local) + (month (date_naive local) - 1) + n).
  { apply bind_Some in Hi as (v1 & Hv1 & Hi). apply bind_Some in Hi as (v2 & Hv2 & Hi).
    apply checked_Some in Hv1 as [-> _]. apply checked_Some in Hv2 as [-> _].
    apply checked_Some in Hi as [-> _]. lia. }
  assert (Hnext' : from_ymd_opt (if index mod 12 + 1 =? 12 then index / 12 + 1 else index / 12)
    (if index mod 12 + 1 =? 12 then 1 else index mod 12 + 1 + 1) 1 = Some next).
  { destruct (index mod 12 + 1 =? 12); [|done].
    destruct (checked_add_i32 (index / 12) 1) as [y'|] eqn:Hy; [|done].
    apply checked_Some in Hy as [-> _]. done. }
  assert (Hlaw := fun d => last_of_month (index / 12) (index mod 12 + 1) next last d Hnext'
    ltac:(lia) Hlast).
  pose proof (Z.div_mod index 12 ltac:(lia)). split; [lia|]. split; [lia|].
  split; [|done]. intros Hsome. apply Hlaw in Hsome. lia.
Qed.

Lemma every_days_trim n :
  0 <= n -> trim (lit "every " ++ show_nat n ++ lit " days")
            = lit "every " ++ show_nat n ++ lit " days".
Proof.
  intros Hn. unfold trim, trim_start. rewrite trim_start_by_id by done.
  change (lit " days") with (lit " day" ++ [115]). rewrite !app_assoc.
  by apply trim_end_by_snoc.
Qed.
Lemma every_days_lower n :
  0 <= n -> to_ascii_lowercase (lit "every " ++ show_nat n ++ lit " days")
            = lit "every " ++ show_nat n ++ lit " days".
Proof.
  intros Hn. unfold to_ascii_lowercase. rewrite !map_app. f_equal. f_equal.
  rewrite <- (map_id (show_nat n)) at 2. apply map_ext_Forall.
  eapply List.Forall_impl; [|by apply show_digits]. intros c Hc. unfold digit_char in Hc.
  unfold to_ascii_lowercase_char, is_ascii_uppercase, in_range.
  by rewrite (proj2 (Z.leb_gt 65 c)) by lia.
Qed.

(** An interval of days too long for chrono's [Duration] is not refused as too
    large: computing its next run panics. *)
Theorem huge_day_interval_panics n after_ms after :
  timestamp_millis_opt after_ms = Some after ->
  i64_max / 1000 < 86400 * n -> n <= i64_max ->
  next_run_after (lit "every " ++ show_nat n ++ lit " days") after_ms = Panic.
Proof.
  intros Ha Hn Hmax.
  assert (Hpos : 0 <= i64_max / 1000) by (vm_compute; discriminate).
  assert (Hn0 : 0 < n) by lia.
  assert (Hdur : duration_days n = None).
  { apply duration_days_range. lia. }
  assert (Hrun : next_interval_run_after (show_nat n ++ lit " days") after_ms = Panic).
  { unfold next_interval_run_after.
    pose proof (interval_round_trip true (IntervalSchedule.mk n IntervalUnit.Day)
      (conj Hn0 Hmax)) as Hp.
    unfold print_interval in Hp. cbn [IntervalSchedule.amount IntervalSchedule.unit] in Hp.
    change (32 :: unit_name IntervalUnit.Day ++ [115]) with (lit " days") in Hp.
    rewrite Hp, Ok_bind. unfold interval_run. cbn [IntervalSchedule.amount IntervalSchedule.unit].
    unfold next_calendar_interval_run_after_local, local_datetime. rewrite Ha.
    cbn [ok_or]. rewrite Ok_bind. unfold shifted_calendar_local, checked_interval_amount.
    assert (Hmul : checked_mul_i64 n 1 = Some n)
      by (apply checked_Some; split; [lia | unfold i64_min; lia]).
    rewrite Hmul. simpl. rewrite (proj2 (Z.ltb_lt _ _)) by done. simpl. by rewrite Hdur. }
  unfold next_run_after. rewrite every_days_trim, every_days_lower by lia.
  set (e := lit "every " ++ _).
  assert (Hhead : forall s, hd 0 s <> 101 -> str_eqb e s = false).
  { intros s Hs. apply bool_decide_eq_false. intros E. by rewrite <- E in Hs. }
  assert (Hmanual : is_manual_expression e = false).
  { unfold is_manual_expression. subst e. rewrite every_days_trim by lia. cbn [existsb].
    by rewrite !Hhead. }
  assert (He : is_empty e = false) by done.
  rewrite He, Hmanual, !Hhead by done. subst e. by rewrite strip_prefix_app.
Qed.
End Calendar.

(** ** The two cron dialects *)
Fixpoint print_numbers (n : Z) (ns : list Z) : str :=
  match ns with [] => show_nat n | n' :: ns' => show_nat n ++ 44 :: print_numbers n' ns' end.

Lemma print_numbers_field n ns :
  print_numbers n ns
  = print_field (mkTerm (At n) None) (map (fun n => mkTerm (At n) None) ns).
Proof.
  revert n. induction ns as [|m ns IH]; intros n; cbn [print_numbers print_field map];
    unfold print_term; cbn [term_base term_step print_base]; rewrite app_nil_r; [done|].
  by rewrite IH.
Qed.

Lemma routine_list lo hi v n ns acc :
  Forall (fun n => 0 <= lo <= n /\ n <= hi <= u32_max) (n :: ns) ->
  for_fold (fun matched item =>
      parsed ← ok_or (lit "Invalid cron field.") (parse_u32 item);
      if (parsed <? lo) || (hi <? parsed) then Err (lit "Cron value is out of range.")
      else Ok (matched || (parsed =? v))) acc (split_char 44 (print_numbers n ns))
  = Ok (acc || existsb (fun n => n =? v) (n :: ns)).
Proof.
  revert n acc. induction ns as [|m ns IH]; intros n acc [Hn Hns]%Forall_cons_iff;
    cbn [print_numbers].
  - rewrite split_char_no.
    2: { eapply List.Forall_impl; [|apply show_digits; lia]. unfold digit_char. lia. }
    cbn [for_fold]. rewrite parse_u32_show by lia. cbn [ok_or].
    rewrite Ok_bind, (proj2 (Z.ltb_ge _ _)), (proj2 (Z.ltb_ge _ _)) by lia.
    cbn [orb existsb]. by rewrite orb_false_r.
  - rewrite split_char_app.
    2: { eapply List.Forall_impl; [|apply show_digits; lia]. unfold digit_char. lia. }
    cbn [for_fold]. rewrite parse_u32_show by lia. cbn [ok_or].
    rewrite Ok_bind, (proj2 (Z.ltb_ge n lo)), (proj2 (Z.ltb_ge hi n)) by lia.
    cbn [orb]. rewrite Ok_bind, IH by done. cbn [existsb]. by rewrite <- !orb_assoc.
Qed.

(** On a list of numbers the two cron dialects agree: the Routines' reading
    of a field and the local scheduler's give the same answer, as long as the
    numbers are in the Routines' range and none is a 7 (which only the local
    weekday field reads, as Sunday). *)
Theorem cron_dialects_agree_on_lists lo hi hi' alias v n ns :
  Forall (fun n => 0 <= lo <= n /\ n <= hi <= hi' /\ n <> 7) (n :: ns) ->
  hi' <= u32_max -> lo <= v <= u32_max ->
  routine_cron_field (print_numbers n ns) v lo hi
  = cron_field_matches (print_numbers n ns) v lo hi' alias.
Proof.
  intros Hall Hhi Hv. assert (Hn := proj1 (proj1 (Forall_cons_iff _ _ _) Hall)).
  assert (Hnorm : forall m, m <> 7 -> norm alias m = m).
  { intros m Hm. unfold norm. destruct (Z.eqb_spec m 7); [done|]. by rewrite andb_false_r. }
  assert (Hr : routine_cron_field (print_numbers n ns) v lo hi
               = Ok (existsb (fun m => m =? v) (n :: ns))).
  { destruct (show_nat_cons n ltac:(lia)) as (c & r & Hc & Hcr).
    assert (Hhead : exists r', print_numbers n ns = c :: r').
    { destruct ns; cbn [print_numbers]; rewrite Hc; by eexists. }
    destruct Hhead as [r' Hhead]. unfold routine_cron_field.
    assert (Hstar : str_eqb (print_numbers n ns) (lit "*") = false).
    { apply bool_decide_eq_false. rewrite Hhead. intros [= E _]. lia. }
    assert (Hstep : strip_prefix (lit "*/") (print_numbers n ns) = None).
    { rewrite Hhead. destruct (strip_prefix (lit "*/") (c :: r')) eqn:E; [|done].
      apply strip_prefix_Some in E. injection E as E _. lia. }
    rewrite Hstar, Hstep, routine_list; [done|].
    eapply List.Forall_impl; [|exact Hall]. cbn. lia. }
  rewrite Hr, print_numbers_field, cron_field_denotes; [|constructor|lia|lia].
  - f_equal. change (mkTerm (At n) None :: map ?f ns) with (map f (n :: ns)).
    clear -Hall Hnorm. induction Hall as [|m ms (_ & _ & Hm) Hms IH]; [done|].
    cbn [existsb map]. rewrite IH. f_equal. unfold denote_term. cbn [term_base term_step].
    rewrite Hnorm by done. apply Z.eqb_sym.
  - split; [|done]. cbn [term_base base_ok]. unfold number_ok. rewrite Hnorm by lia. lia.
  - apply Forall_cons_iff in Hall as [_ Hall]. clear -Hall Hnorm Hhi.
    induction Hall as [|m ms Hm Hms IH]; cbn [map]; constructor; [|done].
    split; [|done]. cbn [term_base base_ok]. unfold number_ok. rewrite Hnorm by lia. lia.
Qed.

(** But the weekday a Routine may use ends at 6: Sunday written 7, and any
    range, are refused by the Routines' dialect and read by the local one. *)
Theorem cron_dialects_differ_on_weekdays v :
  0 <= v <= 6 ->
  cron_field_matches (lit "7") v 0 7 true = Ok (v =? 0)
  /\ routine_cron_field (lit "7") v 0 6 = Err (lit "Cron value is out of range.")
  /\ cron_field_matches (lit "1-5") v 0 7 true = Ok ((1 <=? v) && (v <=? 5))
  /\ routine_cron_field (lit "1-5") v 0 6 = Err (lit "Invalid cron field.").
Proof.
  intros Hv. assert (H : v = 0 \/ v = 1 \/ v = 2 \/ v = 3 \/ v = 4 \/ v = 5 \/ v = 6) by lia.
  destruct H as [->|[->|[->|[->|[->|[->| ->]]]]]]; vm_compute; done.
Qed.

(** ** The theorems at work in the flat calendar *)
Section Witnesses.
Import FlatCalendar.
Notation cal := FlatCalendar.chrono.

Lemma cron_field_denotes_witness :
  cron_field_matches (print_field (mkTerm (Range 1 5) (Some 2)) [mkTerm (At 7) None]) 0 0 7 true
  = Ok true.
Proof.
  rewrite (cron_field_denotes 0 7 true (mkTerm (Range 1 5) (Some 2)) [mkTerm (At 7) None] 0);
    [reflexivity | | lia | vm_compute; discriminate].
  repeat constructor; cbn; unfold u32_max; try lia; try discriminate.
Defined.

Lemma interval_round_trip_witness :
  parse_interval_schedule (lit "3 weeks")
  = Ok (IntervalSchedule.mk 3 IntervalUnit.Week).
Proof.
  apply (interval_round_trip true (IntervalSchedule.mk 3 IntervalUnit.Week)).
  vm_compute. split; [reflexivity | discriminate].
Defined.

Definition every_five : list str := [lit "*/5"; lit "*"; lit "*"; lit "*"; lit "*"].

Lemma cron_finds_first_match_witness :
  exists answer : @Instant cal,
    cron_matches every_five answer = Ok true /\ timestamp_millis answer = 300000.
Proof.
  assert (H : @next_cron_run_after cal every_five 0 = Ok 300000)
    by (vm_compute; reflexivity).
  destruct (cron_finds_first_match every_five 0 300000 H) as (first & k & answer & _ & _ & _ & _ & Ht & Hm & _).
  exists answer. split; [exact Hm | symmetry; exact Ht].
Defined.

Lemma cron_search_exact_witness :
  exists k j, (k < 5)%nat /\ @minutes_on cal k (60000 : Z) = Some j
    /\ cron_matches every_five j = Ok true.
Proof.
  destruct (cron_search_exact (C := cal) 5 (cron_matches every_five) (60000 : Z) (Some 300000)
    ltac:(vm_compute; reflexivity)) as (k & j & Hk & Hj & _ & Hm & _).
  exists k, j. split; [exact Hk | split; [exact Hj | exact Hm]].
Defined.

Lemma next_run_is_later_witness :
  exists t, @next_run_after cal (lit "daily at 07:30") 0 = Ok t /\ 0 < t.
Proof.
  eexists. split; [vm_compute; reflexivity|].
  eapply (next_run_is_later (lit "daily at 07:30") [] 0);
    [vm_compute; split; [discriminate | reflexivity] | left; vm_compute; reflexivity].
Defined.

Lemma daily_run_shows_its_time_witness :
  exists i : @Instant cal, hour (naive_local Local_zone i) = 7
    /\ minute (naive_local Local_zone i) = 30.
Proof.
  assert (H : @next_daily_run_after cal 7 30 0 = Ok 23400000) by (vm_compute; reflexivity).
  destruct (daily_run_shows_its_time 7 30 0 23400000 H) as (_ & _ & _ & i & _ & _ & _ & _ & _ & _ & Hh & Hm).
  exists i. split; [exact Hh | exact Hm].
Defined.

Lemma months_added_are_clamped_witness :
  exists r : @Naive cal, add_months_clamped (C := cal) (86400000 : Z) 3 = Ok r
    /\ 12 * year (date_naive r) + (month (date_naive r) - 1) = 3.
Proof.
  eexists. split; [vm_compute; reflexivity|].
  rewrite (proj1 (months_added_are_clamped (C := cal) (86400000 : Z) 3 _
    ltac:(vm_compute; reflexivity))). vm_compute. reflexivity.
Defined.

Lemma huge_day_interval_panics_witness :
  @next_run_after cal (lit "every " ++ show_nat i64_max ++ lit " days") 0 = Panic.
Proof.
  apply (huge_day_interval_panics (C := cal) i64_max 0 (0 : Z));
    [reflexivity | vm_compute; reflexivity | vm_compute; discriminate].
Defined.

Lemma cron_dialects_agree_on_lists_witness :
  routine_cron_field (print_numbers 1 [3; 5]) 3 0 6
  = cron_field_matches (print_numbers 1 [3; 5]) 3 0 7 true.
Proof.
  apply (cron_dialects_agree_on_lists 0 6 7 true 3 1 [3; 5]);
    [repeat constructor; lia | vm_compute; discriminate | unfold u32_max; lia].
Defined.

Lemma cron_dialects_differ_on_weekdays_witness :
  routine_cron_field (lit "7") 0 0 6 = Err (lit "Cron value is out of range.").
Proof. apply (cron_dialects_differ_on_weekdays 0). lia. Defined.
End Witnesses.
