(* ===== verification/RoutineControl.v ===== *)
(** * Routine controls stored in a task template

    Models [routines/control.rs]: the end boundary and the "run now" anchor a
    Routine keeps under a reserved key of its task template.  The template is a
    JSON value of serde_json; the operations used and what they guarantee are
    the classes [Json] and [JsonLaws], and [FlatJson] is an instance.  The
    derived serialiser of [RoutineControlEnvelope] is part of that interface. *)
From S2P Require Import Prelude RustStr Chrono.
Local Open Scope Z_scope.

Module RoutineControlEnvelope.
Record t : Type := mk { end_at_ms : option Z; resume_at_ms : option Z }.
Definition set_resume_at_ms (v : option Z) (c : t) : t := mk (end_at_ms c) v.
End RoutineControlEnvelope.
Notation Envelope := RoutineControlEnvelope.t.

Class Json : Type := {
  Value : Type;
  (** [value.get(key)] and [value.as_object_mut().is_some()] *)
  json_get : Value -> str -> option Value;
  is_object : Value -> bool;
  (** [object.insert(key, v)] and [object.remove(key)] on an object *)
  json_insert : Value -> str -> Value -> Value;
  json_remove : Value -> str -> Value;
  (** [serde_json::from_value::<RoutineControlEnvelope>], [to_value] *)
  envelope_from : Value -> option Envelope;
  envelope_to : Envelope -> Value;
}.

Class JsonLaws (J : Json) : Prop := {
  get_insert v k x : is_object v = true -> json_get (json_insert v k x) k = Some x;
  insert_object v k x : is_object v = true -> is_object (json_insert v k x) = true;
  remove_object v k : is_object v = true -> is_object (json_remove v k) = true;
  get_remove v k : is_object v = true -> json_get (json_remove v k) k = None;
  get_object v k x : json_get v k = Some x -> is_object v = true;
  insert_insert v k x y :
    is_object v = true -> json_insert (json_insert v k x) k y = json_insert v k y;
  remove_insert v k x :
    is_object v = true -> json_remove (json_insert v k x) k = json_remove v k;
  remove_absent v k : is_object v = true -> json_get v k = None -> json_remove v k = v;
  insert_present v k x :
    is_object v = true -> json_get v k = Some x -> json_insert v k x = v;
  envelope_round_trip c : envelope_from (envelope_to c) = Some c;
}.

Definition CONTROL_KEY : str := lit "_oomuRoutine".

(** [control.is_some_and(|value| value <= 0)] *)
Definition not_positive (o : option Z) : bool :=
  match o with Some value => value <=? 0 | None => false end.

Section Control.
Context `{J : Json}.

Definition control_envelope (run_request : Value) : res str (option Envelope) :=
  match json_get run_request CONTROL_KEY with
  | None => Ok None
  | Some raw =>
      control ← ok_or (lit "Stored Routine controls are invalid.") (envelope_from raw);
      let end_at := RoutineControlEnvelope.end_at_ms control in
      let resume_at := RoutineControlEnvelope.resume_at_ms control in
      if bool_decide (end_at = None) && bool_decide (resume_at = None)
      then Err (lit "Stored Routine controls are invalid.")
      else if not_positive end_at then Err (lit "Stored Routine end boundary is invalid.")
      else if not_positive resume_at
      then Err (lit "Stored Routine recurrence anchor is invalid.")
      else Ok (Some control)
  end.

Definition write_control_envelope (run_request : Value) (control : option Envelope)
  : res str Value :=
  if is_object run_request then
    Ok match control with
       | Some control => json_insert run_request CONTROL_KEY (envelope_to control)
       | None => json_remove run_request CONTROL_KEY
       end
  else Err (lit "Routine task template must be a JSON object.").

Definition with_end_at_ms (run_request : Value) (end_at_ms : Z) : res str Value :=
  if end_at_ms <=? 0 then Err (lit "Routine end time is invalid.")
  else match json_get run_request CONTROL_KEY with
  | Some _ => Err (lit "Routine task template uses a reserved field.")
  | None => write_control_envelope run_request
              (Some (RoutineControlEnvelope.mk (Some end_at_ms) None))
  end.

Definition end_at_ms (run_request : Value) : res str (option Z) :=
  control ← control_envelope run_request;
  Ok (c ← control; RoutineControlEnvelope.end_at_ms c).

(** [control.resume_at_ms.get_or_insert(resume_at_ms)] keeps an older anchor. *)
Definition with_run_now_resume_at_ms (run_request : Value) (resume_at_ms : Z)
  : res str Value :=
  if resume_at_ms <=? 0 then Err (lit "Routine recurrence anchor is invalid.")
  else
    control ← control_envelope run_request;
    let control := default (RoutineControlEnvelope.mk None None) control in
    let resume := default resume_at_ms (RoutineControlEnvelope.resume_at_ms control) in
    write_control_envelope run_request
      (Some (RoutineControlEnvelope.set_resume_at_ms (Some resume) control)).

Definition run_now_resume_at_ms (run_request : Value) : res str (option Z) :=
  control ← control_envelope run_request;
  Ok (c ← control; RoutineControlEnvelope.resume_at_ms c).

Definition without_run_now_resume (run_request : Value) : res str Value :=
  control ← control_envelope run_request;
  match control with
  | None => Ok run_request
  | Some control =>
      let control := RoutineControlEnvelope.set_resume_at_ms None control in
      write_control_envelope run_request
        (option_map (fun _ => control) (RoutineControlEnvelope.end_at_ms control))
  end.

Definition without_controls (run_request : Value) : res str Value :=
  if is_object run_request then Ok (json_remove run_request CONTROL_KEY)
  else Err (lit "workflow_schedules.run_request_json must be a JSON object.").
End Control.

Definition next_midnight_ms `{C : Chrono} (timezone : str) (after_ms : Z) : res str Z :=
  zone ← ok_or (lit "Routine timezone is invalid.") (parse_zone timezone);
  instant ← ok_or (lit "Routine start time is invalid.") (timestamp_millis_opt after_ms);
  date ← or_panic (date_add_days (date_naive (naive_local zone instant)) 1);
  midnight ← ok_or (lit "Routine midnight boundary is invalid.") (and_hms_opt date 0 0 0);
  match from_local_datetime zone midnight with
  | Single value => Ok (timestamp_millis value)
  | Ambiguous first _ => Ok (timestamp_millis first)
  | NoneLocal => Err (lit "Midnight does not exist in the selected timezone on that date.")
  end.

(** ** A concrete JSON *)
Module FlatJson.
(** Templates are objects; a member is a template or a control envelope. *)
Inductive value : Type :=
| Control (c : Envelope)
| Object (members : list (str * value)).

Fixpoint assoc_get (k : str) (l : list (str * value)) : option value :=
  match l with
  | [] => None
  | (k', x) :: l => if str_eqb k k' then Some x else assoc_get k l
  end.
Fixpoint assoc_insert (k : str) (x : value) (l : list (str * value)) : list (str * value) :=
  match l with
  | [] => [(k, x)]
  | (k', y) :: l => if str_eqb k k' then (k, x) :: l else (k', y) :: assoc_insert k x l
  end.
Definition assoc_remove (k : str) : list (str * value) -> list (str * value) :=
  List.filter (fun e => negb (str_eqb k e.1)).

#[export] Instance json : Json := {|
  Value := value;
  json_get := fun v k => match v with Object l => assoc_get k l | _ => None end;
  is_object := fun v => match v with Object _ => true | _ => false end;
  json_insert := fun v k x => match v with Object l => Object (assoc_insert k x (l)) | _ => v end;
  json_remove := fun v k => match v with Object l => Object (assoc_remove k l) | _ => v end;
  envelope_from := fun v => match v with Control c => Some c | _ => None end;
  envelope_to := Control;
|}.

#[export] Instance laws : JsonLaws json.
Proof.
  split; cbn.
  - intros [c|l] k x; [done|]. intros _. induction l as [|[k' y] l IH]; simpl.
    + by rewrite str_eqb_refl.
    + destruct (str_eqb k k') eqn:He; simpl; [by rewrite str_eqb_refl | by rewrite He].
  - by intros [c|l].
  - by intros [c|l].
  - intros [c|l] k; [done|]. intros _. induction l as [|[k' y] l IH]; simpl; [done|].
    destruct (str_eqb k k') eqn:He; simpl; [done | by rewrite He].
  - by intros [c|l].
  - intros [c|l] k x y; [done|]. intros _. f_equal. induction l as [|[k' z] l IH]; simpl.
    + by rewrite str_eqb_refl.
    + destruct (str_eqb k k') eqn:He; simpl; [by rewrite str_eqb_refl | by rewrite He, IH].
  - intros [c|l] k x; [done|]. intros _. f_equal. induction l as [|[k' z] l IH]; simpl.
    + by rewrite str_eqb_refl.
    + destruct (str_eqb k k') eqn:He; simpl; [by rewrite str_eqb_refl | by rewrite He, IH].
  - intros [c|l] k; [done|]. intros _ H. f_equal. induction l as [|[k' z] l IH]; simpl in *; [done|].
    destruct (str_eqb k k'); [done|]. simpl. f_equal. by apply IH.
  - intros [c|l] k x; [done|]. intros _ H. f_equal. induction l as [|[k' z] l IH]; simpl in *; [done|].
    destruct (str_eqb k k') eqn:He; [apply str_eqb_eq in He; naive_solver|]. f_equal. by apply IH.
  - done.
Qed.
End FlatJson.

(** ** What the controls keep *)
Section ControlProofs.
Context {J : Json} {L : JsonLaws J}.

(** A control envelope the reader accepts. *)
Definition envelope_ok (c : Envelope) : Prop :=
  not_positive (RoutineControlEnvelope.end_at_ms c) = false
  /\ not_positive (RoutineControlEnvelope.resume_at_ms c) = false
  /\ ~ (RoutineControlEnvelope.end_at_ms c = None /\ RoutineControlEnvelope.resume_at_ms c = None).

Lemma control_envelope_Ok v c :
  control_envelope v = Ok (Some c) -> envelope_ok c /\ is_object v = true.
Proof.
  unfold control_envelope. destruct (json_get v CONTROL_KEY) as [raw|] eqn:Hg; [|done].
  intros (c' & _ & H)%bind_Ok. apply get_object in Hg.
  destruct (_ && _) eqn:Hn; [done|]. destruct (not_positive _) eqn:He; [done|].
  destruct (not_positive (RoutineControlEnvelope.resume_at_ms c')) eqn:Hr; [done|].
  simplify_eq. split; [|done]. split; [done|]. split; [done|]. intros [E1 E2].
  by rewrite !bool_decide_true in Hn.
Qed.

Lemma control_envelope_None v :
  control_envelope v = Ok None -> json_get v CONTROL_KEY = None.
Proof.
  unfold control_envelope. destruct (json_get v CONTROL_KEY) as [raw|]; [|done].
  intros (c' & _ & H)%bind_Ok. by repeat case_match.
Qed.

Lemma control_envelope_written v c :
  is_object v = true -> envelope_ok c ->
  control_envelope (json_insert v CONTROL_KEY (envelope_to c)) = Ok (Some c).
Proof.
  intros Hv (He & Hr & Hn). unfold control_envelope. rewrite get_insert by done.
  rewrite envelope_round_trip. simpl. rewrite He, Hr.
  destruct (bool_decide (RoutineControlEnvelope.end_at_ms c = None)) eqn:E1; [|done].
  destruct (bool_decide (RoutineControlEnvelope.resume_at_ms c = None)) eqn:E2; [|done].
  split_bools. naive_solver.
Qed.

Lemma control_envelope_removed v :
  is_object v = true -> control_envelope (json_remove v CONTROL_KEY) = Ok None.
Proof. intros Hv. unfold control_envelope. by rewrite get_remove. Qed.

(** Reading back what was written. *)
Lemma written_reads v c :
  is_object v = true -> envelope_ok c ->
  let v' := json_insert v CONTROL_KEY (envelope_to c) in
  control_envelope v' = Ok (Some c)
  /\ end_at_ms v' = Ok (RoutineControlEnvelope.end_at_ms c)
  /\ run_now_resume_at_ms v' = Ok (RoutineControlEnvelope.resume_at_ms c)
  /\ without_controls v' = without_controls v.
Proof.
  intros Hv Hok v'. pose proof (control_envelope_written v c Hv Hok) as Hc.
  unfold end_at_ms, run_now_resume_at_ms, without_controls. fold v' in Hc. rewrite Hc.
  repeat (split; [done|]). subst v'. rewrite insert_object, Hv by done. by rewrite remove_insert.
Qed.

(** Consuming the anchor of a written envelope. *)
Lemma consumed v c :
  is_object v = true -> envelope_ok c ->
  exists v'', without_run_now_resume (json_insert v CONTROL_KEY (envelope_to c)) = Ok v''
    /\ end_at_ms v'' = Ok (RoutineControlEnvelope.end_at_ms c)
    /\ run_now_resume_at_ms v'' = Ok None
    /\ without_controls v'' = without_controls v
    /\ (RoutineControlEnvelope.end_at_ms c = None -> json_get v CONTROL_KEY = None -> v'' = v).
Proof.
  intros Hv Hok. unfold without_run_now_resume. rewrite control_envelope_written by done.
  rewrite Ok_bind. cbn zeta. unfold write_control_envelope. rewrite insert_object by done.
  destruct c as [[e|] r]; cbn; eexists; (split; [reflexivity|]).
  - rewrite insert_insert by done.
    destruct (written_reads v (RoutineControlEnvelope.mk (Some e) None) Hv) as (_ & He & Hr & Hw).
    { destruct Hok as (He & _ & _). split; [exact He|]. split; [done|]. by intros [? _]. }
    done.
  - rewrite remove_insert by done. unfold end_at_ms, run_now_resume_at_ms, without_controls.
    rewrite control_envelope_removed, remove_object, Hv by done.
    repeat (split; [done|]). split; [|intros _ Hg; by apply remove_absent].
    by rewrite (remove_absent (json_remove v CONTROL_KEY)) by (by rewrite ?remove_object, ?get_remove).
Qed.

(** Asking for a run now is remembered once and forgotten without a trace.
    The anchor kept is the first one asked for, the end boundary stays, the
    template below the controls stays; consuming the anchor leaves the end
    boundary and the template, and gives back the very template when it held no
    controls. *)
Theorem run_now_anchor_is_consumed_once v resume_at v' :
  with_run_now_resume_at_ms v resume_at = Ok v' ->
  exists boundary anchor v'',
    end_at_ms v = Ok boundary /\ run_now_resume_at_ms v = Ok anchor
    /\ end_at_ms v' = Ok boundary
    /\ run_now_resume_at_ms v' = Ok (Some (default resume_at anchor))
    /\ without_controls v' = without_controls v
    /\ without_run_now_resume v' = Ok v''
    /\ end_at_ms v'' = Ok boundary /\ run_now_resume_at_ms v'' = Ok None
    /\ without_controls v'' = without_controls v
    /\ (json_get v CONTROL_KEY = None -> v'' = v).
Proof.
  unfold with_run_now_resume_at_ms. destruct (Z.leb_spec resume_at 0) as [|Hpos]; [done|].
  intros (control & Hc & H)%bind_Ok. unfold write_control_envelope in H.
  destruct (is_object v) eqn:Hv; [|done]. injection H as <-.
  set (old := default _ control) in *.
  assert (Hold : not_positive (RoutineControlEnvelope.end_at_ms old) = false
    /\ not_positive (RoutineControlEnvelope.resume_at_ms old) = false).
  { destruct control as [c|]; [|done]. by apply control_envelope_Ok in Hc as [(? & ? & _) _]. }
  destruct Hold as [He Hr].
  set (c := RoutineControlEnvelope.set_resume_at_ms _ old).
  assert (Hok : envelope_ok c).
  { split; [exact He|]. split; [|by intros [_ ?]]. cbn.
    destruct (RoutineControlEnvelope.resume_at_ms old) as [r|]; simpl; [exact Hr|].
    apply Z.leb_gt. lia. }
  destruct (written_reads v c Hv Hok) as (Hce & Hend & Hresume & Hwithout).
  exists (RoutineControlEnvelope.end_at_ms old), (RoutineControlEnvelope.resume_at_ms old).
  destruct (consumed v c Hv Hok) as (v'' & Hw & Hend' & Hresume' & Hwithout' & Hsame).
  exists v''. unfold end_at_ms at 1, run_now_resume_at_ms at 1. rewrite Hc.
  split; [by subst old; destruct control|]. split; [by subst old; destruct control|].
  repeat (split; [done|]). intros Hnone. apply Hsame; [|done].
  unfold control_envelope in Hc. rewrite Hnone in Hc. by injection Hc as <-.
Qed.
End ControlProofs.

Section ControlWitness.
Import FlatJson.

Lemma run_now_anchor_is_consumed_once_witness :
  exists v'', without_run_now_resume (J := json)
      (Object [(lit "inputs", Object []);
               (CONTROL_KEY, Control (RoutineControlEnvelope.mk (Some 100) (Some 80)))])
    = Ok v'' /\ end_at_ms v'' = Ok (Some 100).
Proof.
  destruct (run_now_anchor_is_consumed_once (J := json)
    (Object [(lit "inputs", Object []);
             (CONTROL_KEY, Control (RoutineControlEnvelope.mk (Some 100) None))]) 80
    (Object [(lit "inputs", Object []);
             (CONTROL_KEY, Control (RoutineControlEnvelope.mk (Some 100) (Some 80)))])
    ltac:(vm_compute; reflexivity)) as (b & a & v'' & Hb & _ & _ & _ & _ & Hw & He & _).
  vm_compute in Hb. injection Hb as <-.
  exists v''. split; [exact Hw | exact He].
Defined.
End ControlWitness.
