(* ===== verification/Recurrence.v ===== *)
(** * Claimed schedules: which occurrences run, and what is due next

    Models [workflow_scheduler/recurrence.rs] and, of [workflow_scheduler.rs],
    the decision to skip a claimed Routine and the bookkeeping of results.  The
    table [workflow_schedules] is a finite map from schedule identifiers to
    rows; a failing database is left out, and the clock readings are arguments.
    The catch-up loop runs under [run_loop], whose depth of 64 covers the range
    of [i64] ([catch_up_leaves]).  The theorems follow the definitions. *)
From S2P Require Import Prelude RustStr Chrono ScheduleExpression RoutineControl.
Local Open Scope Z_scope.

Module ExecutionStatus.
Inductive t : Type := Pending | Running | AwaitingApproval | Completed | Failed.
Definition label (status : t) : str :=
  match status with
  | Pending => lit "Pending" | Running => lit "Running"
  | AwaitingApproval => lit "AwaitingApproval"
  | Completed => lit "Completed" | Failed => lit "Failed"
  end.
End ExecutionStatus.
#[export] Instance ExecutionStatus_eq_dec : EqDecision ExecutionStatus.t.
Proof. solve_decision. Defined.

Module WorkflowScheduleRecord.
Record t {Value : Type} : Type := mk {
  id : str;
  workflow_id : str;
  workflow_version : option Z;
  label : str;
  schedule_expression : str;
  run_request : Value;
  is_active : bool;
  next_run_at_ms : option Z;
  claimed_at_ms : option Z;
  last_started_at_ms : option Z;
  last_completed_at_ms : option Z;
  last_status : option str;
  last_error : option str;
  last_instance_id : option str;
  created_at_ms : Z;
  updated_at_ms : Z;
  routine_timezone : str;
  schedule_kind : str;
  project_id : option str;
  missed_run_policy : str;
  missed_run_cap : Z;
  active_window_start_minute : option Z;
  active_window_end_minute : option Z;
  delivery_target : Value;
  authority : Value;
}.
Arguments t : clear implicits.

(** Everything but the columns the scheduler writes. *)
Definition update {Value} (s : t Value) (run_request : Value) (is_active : bool)
    (next_run_at_ms claimed_at_ms last_completed_at_ms : option Z)
    (last_status last_error last_instance_id : option str) (updated_at_ms : Z) : t Value :=
  mk Value (id s) (workflow_id s) (workflow_version s) (label s) (schedule_expression s)
    run_request is_active next_run_at_ms claimed_at_ms (last_started_at_ms s)
    last_completed_at_ms last_status last_error last_instance_id (created_at_ms s)
    updated_at_ms (routine_timezone s) (schedule_kind s) (project_id s)
    (missed_run_policy s) (missed_run_cap s) (active_window_start_minute s)
    (active_window_end_minute s) (delivery_target s) (authority s).
Definition set_next_run_at_ms {Value} (next : option Z) (s : t Value) : t Value :=
  update s (run_request s) (is_active s) next (claimed_at_ms s) (last_completed_at_ms s)
    (last_status s) (last_error s) (last_instance_id s) (updated_at_ms s).
End WorkflowScheduleRecord.

Module ClaimedOccurrencePlan.
Record t {Value : Type} : Type := mk {
  schedule : WorkflowScheduleRecord.t Value;
  next_run_at_ms : option Z;
}.
Arguments t : clear implicits.
End ClaimedOccurrencePlan.

(** A row of [workflow_schedules] with the columns the record leaves out. *)
Module Row.
Record t {Value : Type} : Type := mk {
  schedule : WorkflowScheduleRecord.t Value;
  paused_reason : option str;
  consecutive_failures : Z;
  failure_threshold : Z;
}.
Arguments t : clear implicits.
End Row.

Section Recurrence.
Context `{C : Chrono} `{J : Json}.
Notation Schedule := (WorkflowScheduleRecord.t Value).
Notation Plan := (ClaimedOccurrencePlan.t Value).
Notation Store := (gmap str (Row.t Value)).
Implicit Types (schedule : Schedule) (store : Store).

Definition is_routine schedule : bool :=
  starts_with (lit "routine_") (WorkflowScheduleRecord.id schedule).

Definition schedule_candidate_after schedule (after_ms : Z) : res str Z :=
  let expression := WorkflowScheduleRecord.schedule_expression schedule in
  if is_routine schedule
  then next_run_after_in_timezone expression
         (WorkflowScheduleRecord.routine_timezone schedule) after_ms
  else next_run_after expression after_ms.

Definition candidate_within_end_boundary schedule (candidate : Z) : res str (option Z) :=
  end_at ← end_at_ms (WorkflowScheduleRecord.run_request schedule);
  let ended := match end_at with Some end_at_ms => end_at_ms <=? candidate | None => false end in
  Ok (if ended then None else Some candidate).

Definition is_one_shot schedule : bool :=
  str_eqb (WorkflowScheduleRecord.schedule_kind schedule) (lit "one_shot").

Definition next_run_with_end_boundary schedule (after_ms : Z) : res str (option Z) :=
  if is_one_shot schedule then Ok None
  else
    candidate ← schedule_candidate_after schedule after_ms;
    candidate_within_end_boundary schedule candidate.

Definition fixed_interval_ms (expression : str) : option Z :=
  let normalized := to_ascii_lowercase (trim expression) in
  if str_eqb normalized (lit "hourly") then Some (60 * 60 * 1000)
  else
    rest ← strip_prefix (lit "every ") normalized;
    '(amount, unit) ←
      match split_whitespace rest with
      | [unit] => Some (1, unit)
      | [amount; unit] => amount ← parse_i64 amount; Some (amount, unit)
      | _ => None
      end;
    let unit := trim_end_matches_char 115 unit in
    unit_ms ←
      if existsb (fun s => str_eqb unit (lit s)) ["minute"; "min"]%string then Some (60 * 1000)
      else if existsb (fun s => str_eqb unit (lit s)) ["hour"; "hr"]%string
      then Some (60 * 60 * 1000) else None;
    interval ← checked_mul_i64 amount unit_ms;
    if 0 <? interval then Some interval else None.

(** One turn of [while candidate <= now { .. }]. *)
Definition catch_up_turn schedule (now candidate : Z) : turn Z (res str (option Z)) :=
  if now <? candidate then Break (Ok (Some candidate))
  else match next_run_with_end_boundary schedule candidate with
  | Ok (Some next) =>
      if next <=? candidate then Break (Err (lit "Routine recurrence did not advance."))
      else Continue next
  | Ok None => Break (Ok None)
  | Err e => Break (Err e)
  | Panic => Break Panic
  end.
Definition catch_up schedule (now candidate : Z) : res str (option Z) :=
  match run_loop 64 (catch_up_turn schedule now) candidate with
  | Break r => r
  | Continue _ => Panic
  end.

Definition first_run_after_now_from_occurrence schedule (occurrence_ms now : Z)
  : res str (option Z) :=
  first ← next_run_with_end_boundary schedule occurrence_ms;
  match first with
  | None => Ok None
  | Some candidate =>
      if now <? candidate then Ok (Some candidate)
      else match fixed_interval_ms (WorkflowScheduleRecord.schedule_expression schedule) with
      | Some interval_ms =>
          let skipped := saturating_sub_i64 now candidate ÷ interval_ms + 1 in
          candidate ← ok_or (lit "Routine recurrence is out of range.")
            (checked_add_i64 candidate (saturating_mul_i64 skipped interval_ms));
          candidate_within_end_boundary schedule candidate
      | None => catch_up schedule now candidate
      end
  end.

Definition runs_each_missed schedule : bool :=
  str_eqb (WorkflowScheduleRecord.missed_run_policy schedule) (lit "run_each").

Definition planned_next_after_claim schedule (now : Z) : res str (option Z) :=
  if is_one_shot schedule then Ok None
  else
    resume_at ← run_now_resume_at_ms (WorkflowScheduleRecord.run_request schedule);
    match resume_at with
    | Some resume_at_ms => candidate_within_end_boundary schedule resume_at_ms
    | None =>
        occurrence_ms ← ok_or (lit "Claimed Routine has no scheduled occurrence.")
          (WorkflowScheduleRecord.next_run_at_ms schedule);
        if is_routine schedule && negb (runs_each_missed schedule)
        then first_run_after_now_from_occurrence schedule occurrence_ms now
        else next_run_with_end_boundary schedule occurrence_ms
    end.

(** [while due <= now && occurrences.len() < cap { .. }]; [room] is what the
    cap still allows. *)
Fixpoint due_occurrences (room : nat) schedule (now due : Z) : res str (list Plan) :=
  match room with
  | O => Ok []
  | S room =>
      if now <? due then Ok []
      else
        next ← next_run_with_end_boundary schedule due;
        let plan := ClaimedOccurrencePlan.mk Value
          (WorkflowScheduleRecord.set_next_run_at_ms (Some due) schedule) next in
        match next with
        | None => Ok [plan]
        | Some next =>
            if next <=? due then Err (lit "Routine recurrence did not advance.")
            else
              rest ← due_occurrences room schedule now next;
              Ok (plan :: rest)
        end
  end.

(** The last plan's next run moves past what the cap cut off. *)
Definition skip_backlog schedule (now : Z) (occurrences : list Plan) : res str (list Plan) :=
  match list.last occurrences with
  | Some plan =>
      match ClaimedOccurrencePlan.next_run_at_ms plan with
      | Some next =>
          if next <=? now then
            let occurrence := ClaimedOccurrencePlan.schedule plan in
            let occurrence_ms := default now (WorkflowScheduleRecord.next_run_at_ms occurrence) in
            next ← first_run_after_now_from_occurrence schedule occurrence_ms now;
            Ok (removelast occurrences ++ [ClaimedOccurrencePlan.mk Value occurrence next])
          else Ok occurrences
      | None => Ok occurrences
      end
  | None => Ok occurrences
  end.

Definition claimed_occurrences_at schedule (now : Z) : res str (list Plan) :=
  let single :=
    next ← planned_next_after_claim schedule now;
    Ok [ClaimedOccurrencePlan.mk Value schedule next] in
  resume_at ← run_now_resume_at_ms (WorkflowScheduleRecord.run_request schedule);
  if negb (bool_decide (resume_at = None)) || negb (is_routine schedule)
     || negb (runs_each_missed schedule)
  then single
  else
    let due := default now (WorkflowScheduleRecord.next_run_at_ms schedule) in
    let cap := Z.to_nat (Z.max (WorkflowScheduleRecord.missed_run_cap schedule) 1) in
    occurrences ← due_occurrences cap schedule now due;
    if Nat.eqb (length occurrences) 0 then single
    else skip_backlog schedule now occurrences.

(** ** The table *)
Definition update_row (f : Row.t Value -> Row.t Value) (id : str) store : Store :=
  alter f id store.
Definition with_schedule (f : Schedule -> Schedule) (row : Row.t Value) : Row.t Value :=
  Row.mk Value (f (Row.schedule row)) (Row.paused_reason row)
    (Row.consecutive_failures row) (Row.failure_threshold row).

(** FINISH_ROUTINE_SQL *)
Definition finish_routine_at_end_boundary (clock : Z) store (schedule_id : str) : Store :=
  update_row (fun row =>
    let s := Row.schedule row in
    Row.mk Value
      (WorkflowScheduleRecord.update s (WorkflowScheduleRecord.run_request s) false None None
         (WorkflowScheduleRecord.last_completed_at_ms s) (WorkflowScheduleRecord.last_status s)
         (WorkflowScheduleRecord.last_error s) (WorkflowScheduleRecord.last_instance_id s) clock)
      (Some (lit "Routine end time reached"))
      (Row.consecutive_failures row) (Row.failure_threshold row)) schedule_id store.

Definition release_claimed_without_run (clock : Z) store (id : str) (next : Z) (reason : str)
  : Store :=
  update_row (with_schedule (fun s =>
    WorkflowScheduleRecord.update s (WorkflowScheduleRecord.run_request s)
      (WorkflowScheduleRecord.is_active s) (Some next) None
      (WorkflowScheduleRecord.last_completed_at_ms s) (Some (lit "Pending")) (Some reason)
      (WorkflowScheduleRecord.last_instance_id s) clock)) id store.

Definition release_claimed_at_next_future_occurrence (clock : Z) store schedule (now : Z)
    (reason : str) : res str Store :=
  let occurrence_ms := default now (WorkflowScheduleRecord.next_run_at_ms schedule) in
  first ← first_run_after_now_from_occurrence schedule occurrence_ms now;
  Ok match first with
     | Some next =>
         release_claimed_without_run clock store (WorkflowScheduleRecord.id schedule) next reason
     | None => finish_routine_at_end_boundary clock store (WorkflowScheduleRecord.id schedule)
     end.

Definition run_request_after_run_now schedule : res str Value :=
  let run_request := WorkflowScheduleRecord.run_request schedule in
  resume_at ← run_now_resume_at_ms run_request;
  match resume_at with
  | Some _ => without_run_now_resume run_request
  | None => Ok run_request
  end.

(** PERSIST_SCHEDULE_RESULT_SQL, when it changes one row *)
Definition persist_claimed_schedule_result (clock : Z) store schedule
    (status : ExecutionStatus.t) (instance_id error_message : option str)
    (next_run_at_ms : option Z) : res str Store :=
  run_request ← run_request_after_run_now schedule;
  let id := WorkflowScheduleRecord.id schedule in
  let finished := bool_decide (status = ExecutionStatus.Completed)
                  || bool_decide (status = ExecutionStatus.Failed) in
  match store !! id with
  | None => Err (lit "Workflow schedule " ++ id
      ++ lit " disappeared before its result could be persisted.")
  | Some _ =>
      Ok (update_row (with_schedule (fun s =>
        WorkflowScheduleRecord.update s run_request (WorkflowScheduleRecord.is_active s)
          next_run_at_ms None
          (if finished then Some clock else WorkflowScheduleRecord.last_completed_at_ms s)
          (Some (ExecutionStatus.label status)) (option_map trim error_message)
          (option_map trim instance_id) clock)) id store)
  end.

(** [recorded] says whether [routine_runs] holds the occurrence. *)
Definition advance_if_recorded (clock : Z) (recorded : str -> Z -> bool) store
    (occurrence : Plan) : res str (bool * Store) :=
  let schedule := ClaimedOccurrencePlan.schedule occurrence in
  let id := WorkflowScheduleRecord.id schedule in
  if negb (is_routine schedule) then Ok (false, store)
  else match WorkflowScheduleRecord.next_run_at_ms schedule with
  | None => Ok (false, store)
  | Some scheduled_for_ms =>
      if negb (recorded id scheduled_for_ms) then Ok (false, store)
      else
        run_request ← run_request_after_run_now schedule;
        match store !! id with
        | None => Err (lit "Recorded Routine occurrence could not be advanced.")
        | Some _ =>
            Ok (true, update_row (with_schedule (fun s =>
              WorkflowScheduleRecord.update s run_request (WorkflowScheduleRecord.is_active s)
                (ClaimedOccurrencePlan.next_run_at_ms occurrence) None
                (WorkflowScheduleRecord.last_completed_at_ms s)
                (WorkflowScheduleRecord.last_status s) (WorkflowScheduleRecord.last_error s)
                (WorkflowScheduleRecord.last_instance_id s) clock)) id store)
        end
  end.

Definition record_result_policy (clock : Z) store (id : str) (failed terminal_one_shot : bool)
  : Store :=
  update_row (fun row =>
    let s := Row.schedule row in
    let set active := WorkflowScheduleRecord.update s (WorkflowScheduleRecord.run_request s)
      active (WorkflowScheduleRecord.next_run_at_ms s) (WorkflowScheduleRecord.claimed_at_ms s)
      (WorkflowScheduleRecord.last_completed_at_ms s) (WorkflowScheduleRecord.last_status s)
      (WorkflowScheduleRecord.last_error s) (WorkflowScheduleRecord.last_instance_id s) clock in
    if failed then
      let failures := Row.consecutive_failures row + 1 in
      if Row.failure_threshold row <=? failures
      then Row.mk Value (set false) (Some (lit "Paused after repeated failures")) failures
             (Row.failure_threshold row)
      else Row.mk Value (set (WorkflowScheduleRecord.is_active s)) (Row.paused_reason row)
             failures (Row.failure_threshold row)
    else
      Row.mk Value (set (if terminal_one_shot then false else WorkflowScheduleRecord.is_active s))
        (if terminal_one_shot then Some (lit "One-time routine completed") else None) 0
        (Row.failure_threshold row)) id store.

Definition inside_window (start stop minute : Z) : bool :=
  if start <=? stop then (start <=? minute) && (minute <=? stop)
  else (start <=? minute) || (minute <=? stop).

Definition should_skip_claimed_routine (clock : Z) store schedule (now : Z)
  : res str (bool * Store) :=
  let run_request := WorkflowScheduleRecord.run_request schedule in
  let release reason :=
    store ← release_claimed_at_next_future_occurrence clock store schedule now reason;
    Ok (true, store) in
  if negb (is_routine schedule) then Ok (false, store)
  else
    end_at ← end_at_ms run_request;
    if match end_at with Some end_at_ms => end_at_ms <=? now | None => false end
    then Ok (true, finish_routine_at_end_boundary clock store (WorkflowScheduleRecord.id schedule))
    else
      resume_at ← run_now_resume_at_ms run_request;
      if negb (bool_decide (resume_at = None)) then Ok (false, store)
      else
        zone ← ok_or (lit "Routine timezone is invalid.")
          (parse_zone (WorkflowScheduleRecord.routine_timezone schedule));
        outside ← match WorkflowScheduleRecord.active_window_start_minute schedule,
                        WorkflowScheduleRecord.active_window_end_minute schedule with
          | Some start, Some stop =>
              instant ← ok_or (lit "Invalid routine time.") (timestamp_millis_opt now);
              let local := naive_local zone instant in
              Ok (negb (inside_window start stop (hour local * 60 + minute local)))
          | _, _ => Ok false
          end;
        if outside : bool then release (lit "Outside the routine active window")
        else
          let lateness := match WorkflowScheduleRecord.next_run_at_ms schedule with
                          | Some due => saturating_sub_i64 now due | None => 0 end in
          if (90000 <? lateness)
             && str_eqb (WorkflowScheduleRecord.missed_run_policy schedule) (lit "skip")
          then release (lit "Skipped a missed run by policy")
          else Ok (false, store).
End Recurrence.

(** ** Claimed schedules: what the plan promises

    The arithmetic shortcut for fixed intervals agrees with stepping through the
    occurrences; the next run is in the future and inside the end boundary; a
    backlog is run in order and the rest is skipped; a skipped claim is given
    back. *)
Section Plans.
Context `{C : Chrono} `{J : Json}.
Notation Schedule := (WorkflowScheduleRecord.t Value).
Implicit Types (schedule : Schedule).

(** ** Fixed intervals *)
(** Minutes and hours are what both parsers call fixed. *)
Lemma fixed_unit amount raw_unit d :
  (unit_ms ← (let unit := trim_end_matches_char 115 raw_unit in
     if existsb (fun s => str_eqb unit (lit s)) ["minute"; "min"]%string then Some (60 * 1000)
     else if existsb (fun s => str_eqb unit (lit s)) ["hour"; "hr"]%string
     then Some (60 * 60 * 1000) else None);
   interval ← checked_mul_i64 amount unit_ms;
   if 0 <? interval then Some interval else None) = Some d ->
  exists unit, unit_of raw_unit = Some unit /\ 0 < d <= i64_max /\
    forall after_ms calendar,
      interval_run after_ms (IntervalSchedule.mk amount unit) calendar
      = Ok (saturating_add_i64 after_ms d).
Proof.
  unfold unit_of, interval_run. cbn zeta.
  assert (Hmul : forall u, (interval ← checked_mul_i64 amount u;
      if 0 <? interval then Some interval else None) = Some d ->
    0 < d <= i64_max /\ saturating_mul_i64 amount u = d).
  { intros u H. destruct (checked_mul_i64 amount u) as [i|] eqn:Hi; [|done]. simpl in H.
    apply checked_Some in Hi as [-> Hi]. destruct (Z.ltb_spec 0 (amount * u)); [|done].
    simplify_eq. split; [lia|]. unfold saturating_mul_i64, clamp. lia. }
  destruct (existsb _ ["minute"; "min"]%string); [|destruct (existsb _ ["hour"; "hr"]%string)];
    [..|done]; simpl; intros [Hd Hs]%Hmul; eexists; (split; [reflexivity|]);
    (split; [exact Hd|]); intros after_ms calendar; simpl; by rewrite Hs.
Qed.

Lemma fixed_interval_parses normalized rest d :
  str_eqb normalized (lit "hourly") = false ->
  strip_prefix (lit "every ") normalized = Some rest ->
  (forall expression, to_ascii_lowercase (trim expression) = normalized ->
    fixed_interval_ms expression = Some d -> 
    forall s after_ms calendar, parse_interval_schedule rest = Ok s ->
    0 < d <= i64_max /\ interval_run after_ms s calendar = Ok (saturating_add_i64 after_ms d)).
Proof.
  intros Hh Hp expression Hn Hd s after_ms calendar Hs.
  unfold fixed_interval_ms in Hd. rewrite Hn, Hh, Hp in Hd.
  cbn [mbind option_bind] in Hd. unfold parse_interval_schedule in Hs.
  destruct (split_whitespace rest) as [|a [|b [|c l]]]; [done|..|done].
  - destruct (fixed_unit 1 a d Hd) as (unit & Hu & Hpos & Hrun).
    rewrite Ok_bind, Hu in Hs. simpl in Hs. injection Hs as <-. by split.
  - destruct (parse_i64 a) as [n|] eqn:Ha; [|done].
    destruct (fixed_unit n b d Hd) as (unit & Hu & Hpos & Hrun).
    simpl in Hs. destruct (n <=? 0); [done|]. rewrite Hu in Hs. simpl in Hs.
    injection Hs as <-. by split.
Qed.

Lemma fixed_interval_shape expression d :
  fixed_interval_ms expression = Some d ->
  let normalized := to_ascii_lowercase (trim expression) in
  (normalized = lit "hourly" /\ d = 3600000)
  \/ (str_eqb normalized (lit "hourly") = false
      /\ exists rest, strip_prefix (lit "every ") normalized = Some rest).
Proof.
  intros Hd normalized. unfold fixed_interval_ms in Hd. fold normalized in Hd.
  destruct (str_eqb normalized (lit "hourly")) eqn:Hh.
  - left. split; [by apply str_eqb_eq | by injection Hd as <-].
  - right. split; [done|].
    destruct (strip_prefix (lit "every ") normalized) as [rest|]; [by exists rest | done].
Qed.

Lemma fixed_local expression d t c :
  fixed_interval_ms expression = Some d -> next_run_after expression t = Ok c ->
  0 < d <= i64_max /\ forall t', next_run_after expression t' = Ok (saturating_add_i64 t' d).
Proof.
  intros Hd Hc. destruct (fixed_interval_shape _ _ Hd) as [[Hn ->]|[Hh [rest Hp]]];
    unfold next_run_after in *; destruct (is_empty (trim expression)); try done;
    destruct (is_manual_expression _); try done.
  - rewrite Hn in *. simpl. split; [vm_compute; done|]. done.
  - rewrite Hh in *. destruct (str_eqb _ (lit "daily")) eqn:Hdaily.
    { apply str_eqb_eq in Hdaily. by rewrite Hdaily in Hp. }
    rewrite Hp in *. unfold next_interval_run_after in *.
    apply bind_Ok in Hc as (s & Hs & Hc). rewrite Hs.
    split; [exact (proj1 (fixed_interval_parses _ rest d Hh Hp expression eq_refl Hd s t (fun _ => Panic) Hs))|].
    intros t'. rewrite Ok_bind.
    exact (proj2 (fixed_interval_parses _ rest d Hh Hp expression eq_refl Hd s t' _ Hs)).
Qed.

Lemma fixed_timezone expression timezone d t c :
  fixed_interval_ms expression = Some d ->
  next_run_after_in_timezone expression timezone t = Ok c ->
  0 < d <= i64_max /\
  forall t', next_run_after_in_timezone expression timezone t' = Ok (saturating_add_i64 t' d).
Proof.
  intros Hd Hc. unfold next_run_after_in_timezone in *.
  destruct (fixed_interval_shape _ _ Hd) as [[Hn ->]|[Hh [rest Hp]]].
  - rewrite Hn in *. simpl in *. destruct (parse_zone timezone); [|done]. simpl.
    split; [vm_compute; done | done].
  - destruct (strip_prefix (lit "once:") _) as [raw|] eqn:Ho.
    { apply strip_prefix_Some in Hp. by rewrite Hp in Ho. }
    destruct (parse_zone timezone) as [zone|]; [|done]. simpl in *. rewrite Hh, Hp in *.
    unfold next_interval_run_after_in_timezone in *.
    apply bind_Ok in Hc as (s & Hs & Hc). rewrite Hs.
    split; [exact (proj1 (fixed_interval_parses _ rest d Hh Hp expression eq_refl Hd s t (fun _ => Panic) Hs))|].
    intros t'. rewrite Ok_bind.
    exact (proj2 (fixed_interval_parses _ rest d Hh Hp expression eq_refl Hd s t' _ Hs)).
Qed.

Lemma fixed_candidate schedule d t c :
  fixed_interval_ms (WorkflowScheduleRecord.schedule_expression schedule) = Some d ->
  schedule_candidate_after schedule t = Ok c ->
  0 < d <= i64_max /\
  forall t', schedule_candidate_after schedule t' = Ok (saturating_add_i64 t' d).
Proof.
  unfold schedule_candidate_after. destruct (is_routine schedule).
  - apply fixed_timezone.
  - apply fixed_local.
Qed.
(** ** The end boundary *)
Definition past_end (boundary : option Z) (candidate : Z) : bool :=
  match boundary with Some end_at_ms => end_at_ms <=? candidate | None => false end.

Lemma within_Ok schedule c r :
  candidate_within_end_boundary schedule c = Ok r ->
  exists boundary, end_at_ms (WorkflowScheduleRecord.run_request schedule) = Ok boundary /\
    forall x, candidate_within_end_boundary schedule x
              = Ok (if past_end boundary x then None else Some x).
Proof.
  unfold candidate_within_end_boundary. intros (boundary & He & _)%bind_Ok.
  exists boundary. by rewrite He.
Qed.

Lemma past_end_mono boundary x y : x <= y -> past_end boundary x = true -> past_end boundary y = true.
Proof. destruct boundary as [e|]; simpl; [|done]. rewrite !Z.leb_le. lia. Qed.

Lemma next_run_Some schedule t c :
  next_run_with_end_boundary schedule t = Ok (Some c) ->
  is_one_shot schedule = false /\ schedule_candidate_after schedule t = Ok c
  /\ candidate_within_end_boundary schedule c = Ok (Some c).
Proof.
  unfold next_run_with_end_boundary. destruct (is_one_shot schedule); [done|].
  intros (c' & Hc & H)%bind_Ok. destruct (within_Ok _ _ _ H) as (b & _ & Hw).
  rewrite Hw in H. destruct (past_end b c') eqn:Hp; [done|]. simplify_eq.
  by rewrite Hw, Hp.
Qed.

(** ** Stepping and the shortcut *)
Lemma catch_up_future schedule now c : now < c -> catch_up schedule now c = Ok (Some c).
Proof.
  intros Hc. unfold catch_up. erewrite run_loop_break; [reflexivity|].
  unfold catch_up_turn. by rewrite (proj2 (Z.ltb_lt _ _) Hc).
Qed.

(** The occurrence the arithmetic jumps to. *)
Lemma jump_bounds c now d :
  0 < d -> c <= now ->
  let target := c + ((now - c) ÷ d + 1) * d in target - d <= now < target.
Proof.
  intros Hd Hc target. subst target. rewrite Z.quot_div_nonneg by lia.
  pose proof (Z.div_mod (now - c) d). pose proof (Z.mod_pos_bound (now - c) d). nia.
Qed.

Lemma catch_up_fixed schedule d c now boundary :
  0 < d -> i64_min <= c <= now -> now + d <= i64_max ->
  is_one_shot schedule = false ->
  (forall t, schedule_candidate_after schedule t = Ok (saturating_add_i64 t d)) ->
  (forall x, candidate_within_end_boundary schedule x
             = Ok (if past_end boundary x then None else Some x)) ->
  past_end boundary c = false ->
  catch_up schedule now c
  = candidate_within_end_boundary schedule (c + ((now - c) ÷ d + 1) * d).
Proof.
  intros Hd Hc Hnow Hos Hcand Hw Hpc.
  pose proof (jump_bounds c now d Hd ltac:(lia)) as Hj. cbn zeta in Hj.
  set (target := c + _) in *.
  set (I := fun x => c <= x <= target /\ (exists j, target = x + j * d)
                     /\ past_end boundary x = false).
  destruct (run_loop_leaves (catch_up_turn schedule now) (fun x => target - x) I
    (fun r => r = candidate_within_end_boundary schedule target)) with (depth := 64%nat) (s := c)
    as (r & Hr & Hq); [| | |unfold catch_up; by rewrite Hr].
  - intros x (Hx & [j Hjx] & Hp). unfold catch_up_turn.
    destruct (Z.ltb_spec now x) as [Hlt|Hle].
    + assert (j = 0) as -> by nia. replace target with x by lia. by rewrite Hw, Hp.
    + assert (1 <= j) by nia. assert (x + d <= target) by nia.
      unfold next_run_with_end_boundary. rewrite Hos, Hcand, Ok_bind.
      rewrite saturating_add_i64_small by (unfold i64_min in *; lia). rewrite Hw.
      destruct (past_end boundary (x + d)) eqn:Hpx.
      * by rewrite Hw, (past_end_mono boundary (x + d) target).
      * destruct (Z.leb_spec (x + d) x); [lia|]. repeat split; try lia; [|done].
        exists (j - 1). lia.
  - split; [lia|]. split; [|done]. exists ((now - c) ÷ d + 1). subst target. lia.
  - change (Z.of_nat 64) with 64. unfold i64_min, i64_max in *. lia.
Qed.
(** The loop leaves, and what it finds is in the future and allowed. *)
Lemma catch_up_leaves schedule now c :
  i64_min <= c -> now < i64_max -> candidate_within_end_boundary schedule c = Ok (Some c) ->
  exists r, run_loop 64 (catch_up_turn schedule now) c = Break r /\
    forall t, r = Ok (Some t) ->
      now < t /\ c <= t /\ candidate_within_end_boundary schedule t = Ok (Some t).
Proof.
  intros Hc Hnow Hwc.
  apply (run_loop_leaves (catch_up_turn schedule now) (fun x => Z.max 0 (now + 1 - x))
    (fun x => c <= x /\ candidate_within_end_boundary schedule x = Ok (Some x))).
  - intros x [Hx Hw]. unfold catch_up_turn. destruct (Z.ltb_spec now x); [naive_solver|].
    destruct (next_run_with_end_boundary schedule x) as [[next|]|e|] eqn:Hn; [|done..].
    apply next_run_Some in Hn as (_ & _ & Hwn). destruct (Z.leb_spec next x); [done|].
    split; [split; [lia | done] | lia].
  - by split.
  - change (Z.of_nat 64) with 64. unfold i64_min, i64_max in *. lia.
Qed.

Lemma catch_up_Some schedule now c t :
  i64_min <= c -> now < i64_max -> candidate_within_end_boundary schedule c = Ok (Some c) ->
  catch_up schedule now c = Ok (Some t) ->
  now < t /\ c <= t /\ candidate_within_end_boundary schedule t = Ok (Some t).
Proof.
  intros Hc Hnow Hw. destruct (catch_up_leaves schedule now c Hc Hnow Hw) as (r & Hr & Ht).
  unfold catch_up. rewrite Hr. apply Ht.
Qed.
End Plans.

Section Promises.
Context {C : Chrono} {L : ChronoLaws C} {J : Json}.
Notation Schedule := (WorkflowScheduleRecord.t Value).
Notation Plan := (ClaimedOccurrencePlan.t Value).
Implicit Types (schedule : Schedule).

Lemma candidate_later schedule after_ms t :
  i64_min <= after_ms < i64_max ->
  schedule_candidate_after schedule after_ms = Ok t -> after_ms < t.
Proof.
  unfold schedule_candidate_after. destruct (is_routine schedule).
  - by apply next_run_after_in_timezone_later.
  - by apply next_run_after_later.
Qed.

(** The arithmetic shortcut, once the first occurrence is known. *)
Lemma shortcut_value c now d :
  0 < d <= i64_max -> 0 <= c <= now -> now < i64_max ->
  forall t, checked_add_i64 c (saturating_mul_i64 (saturating_sub_i64 now c ÷ d + 1) d) = Some t ->
  now < t.
Proof.
  intros Hd Hc Hnow t. pose proof (jump_bounds c now d ltac:(lia) ltac:(lia)) as Hj.
  cbn zeta in Hj. unfold saturating_sub_i64, saturating_mul_i64, clamp.
  replace (Z.max i64_min (Z.min i64_max (now - c))) with (now - c)
    by (unfold i64_min, i64_max in *; lia).
  intros [-> Ht]%checked_Some. unfold i64_min, i64_max in *. lia.
Qed.

Lemma first_run_in_future schedule occurrence_ms now t :
  0 <= occurrence_ms < i64_max -> now < i64_max ->
  first_run_after_now_from_occurrence schedule occurrence_ms now = Ok (Some t) ->
  now < t /\ occurrence_ms < t /\ candidate_within_end_boundary schedule t = Ok (Some t).
Proof.
  intros Ho Hnow H. unfold first_run_after_now_from_occurrence in H.
  apply bind_Ok in H as ([c|] & Hn & H); [|done].
  destruct (next_run_Some _ _ _ Hn) as (_ & Hc & Hw).
  assert (Hlater : occurrence_ms < c).
  { eapply candidate_later; [|exact Hc]. unfold i64_min. lia. }
  destruct (Z.ltb_spec now c); [by simplify_eq|].
  destruct (fixed_interval_ms _) as [d|] eqn:Hd.
  - destruct (fixed_candidate _ _ _ _ Hd Hc) as [Hpos _].
    apply bind_Ok in H as (t' & Ht%ok_or_Ok & H).
    pose proof (shortcut_value c now d Hpos ltac:(lia) Hnow t' Ht).
    destruct (within_Ok _ _ _ H) as (b & _ & Hwb). rewrite Hwb in H.
    destruct (past_end b t') eqn:Hp; [done|]. simplify_eq.
    split; [done|]. split; [lia|]. by rewrite Hwb, Hp.
  - apply catch_up_Some in H; [|unfold i64_min; lia|done..]. intuition lia.
Qed.

(** ** A backlog *)
(** Run the occurrences due, in order; the last plan names what is next. *)
Inductive backlog schedule (now : Z) : Z -> list Plan -> Prop :=
| last_run due next :
    due <= now ->
    first_run_after_now_from_occurrence schedule due now = Ok next ->
    backlog schedule now due [ClaimedOccurrencePlan.mk Value
      (WorkflowScheduleRecord.set_next_run_at_ms (Some due) schedule) next]
| then_run due next rest :
    due < next <= now ->
    next_run_with_end_boundary schedule due = Ok (Some next) ->
    backlog schedule now next rest ->
    backlog schedule now due (ClaimedOccurrencePlan.mk Value
      (WorkflowScheduleRecord.set_next_run_at_ms (Some due) schedule) (Some next) :: rest).

Lemma due_occurrences_length room schedule now due plans :
  due_occurrences room schedule now due = Ok plans -> (length plans <= room)%nat.
Proof.
  revert due plans. induction room as [|room IH]; intros due plans; simpl.
  - intros [= <-]. done.
  - destruct (now <? due); [intros [= <-]; simpl; lia|].
    intros ([next|] & _ & H)%bind_Ok; [|injection H as <-; simpl; lia].
    destruct (next <=? due); [done|]. apply bind_Ok in H as (rest & Hr%IH & H).
    injection H as <-. simpl. lia.
Qed.

Lemma skip_backlog_length schedule now plans plans' :
  skip_backlog schedule now plans = Ok plans' -> length plans' = length plans.
Proof.
  unfold skip_backlog. destruct (list.last plans) as [p|] eqn:Hl; [|by intros [= <-]].
  destruct (ClaimedOccurrencePlan.next_run_at_ms p) as [next|]; [|by intros [= <-]].
  destruct (next <=? now); [|by intros [= <-]].
  intros (n & _ & H)%bind_Ok. injection H as <-.
  apply last_Some in Hl as (l & ->). rewrite removelast_last, !length_app. done.
Qed.

Lemma skip_backlog_cons schedule now p q plans plans' :
  skip_backlog schedule now (p :: q :: plans) = Ok plans' ->
  exists rest, plans' = p :: rest /\ skip_backlog schedule now (q :: plans) = Ok rest.
Proof.
  unfold skip_backlog. cbn [list.last]. change (match plans with [] => Some q | _ => list.last plans end)
    with (list.last (q :: plans)).
  destruct (list.last (q :: plans)) as [x|]; [|intros [= <-]; eauto].
  destruct (ClaimedOccurrencePlan.next_run_at_ms x) as [next|]; [|intros [= <-]; eauto].
  destruct (next <=? now); [|intros [= <-]; eauto].
  intros (n & Hn & H)%bind_Ok. injection H as <-. rewrite Hn, Ok_bind. eauto.
Qed.

Lemma due_backlog room schedule now due plans plans' :
  due <= now -> (0 < room)%nat ->
  due_occurrences room schedule now due = Ok plans ->
  skip_backlog schedule now plans = Ok plans' ->
  backlog schedule now due plans'.
Proof.
  revert due plans plans'. induction room as [|room IH]; intros due plans plans' Hdue Hroom; [lia|].
  simpl. destruct (Z.ltb_spec now due) as [|Hle0]; [lia|]. intros ([next|] & Hn & H)%bind_Ok.
  2: { injection H as <-. intros [= <-]. constructor; [done|].
       unfold first_run_after_now_from_occurrence. by rewrite Hn. }
  destruct (Z.leb_spec next due); [done|]. apply bind_Ok in H as (rest & Hr & H).
  injection H as <-. destruct rest as [|q rest].
  - unfold skip_backlog. simpl. destruct (Z.leb_spec next now).
    + intros (n & Hf & [= <-])%bind_Ok. by constructor.
    + intros [= <-]. constructor; [done|]. unfold first_run_after_now_from_occurrence.
      rewrite Hn, Ok_bind. by rewrite (proj2 (Z.ltb_lt _ _)).
  - intros (rest' & -> & Hrest)%skip_backlog_cons.
    assert (next <= now).
    { destruct room; [done|]. simpl in Hr. destruct (Z.ltb_spec now next); [done | lia]. }
    constructor; [lia | done|]. eapply IH; [done| |done..]. destruct room; [done | lia].
Qed.

Lemma update_row_lookup (f : Row.t Value -> Row.t Value) (id : str) (store : gmap str (Row.t Value)) row :
  store !! id = Some row -> update_row f id store = <[id := f row]> store.
Proof.
  intros Hrow. apply map_eq. intros j. unfold update_row.
  destruct (decide (id = j)) as [<-|Hne].
  - by rewrite lookup_alter_eq, Hrow, lookup_insert_eq.
  - by rewrite lookup_alter_ne, lookup_insert_ne.
Qed.

(** The schedule's row alone is changed; it is unclaimed and either finished,
    or due after now and before the end boundary. *)
Definition given_back schedule (now : Z) (store store' : gmap str (Row.t Value)) : Prop :=
  exists row', store' = <[WorkflowScheduleRecord.id schedule := row']> store
  /\ let s := Row.schedule row' in
     WorkflowScheduleRecord.claimed_at_ms s = None
     /\ ((WorkflowScheduleRecord.is_active s = false
          /\ WorkflowScheduleRecord.next_run_at_ms s = None)
         \/ exists t, WorkflowScheduleRecord.next_run_at_ms s = Some t /\ now < t
             /\ candidate_within_end_boundary schedule t = Ok (Some t)).

(** [n] failed runs in a row. *)
Definition fail_times (n : nat) (clock : Z) (id : str) (store : gmap str (Row.t Value))
  : gmap str (Row.t Value) :=
  Nat.iter n (fun store => record_result_policy clock store id true false) store.

(** The row after [n] failed runs, and the one before, agree on being active
    up to the threshold. *)
Definition failed_row (row row' : Row.t Value) (n : nat) : Prop :=
  Row.consecutive_failures row' = Row.consecutive_failures row + Z.of_nat n
  /\ Row.failure_threshold row' = Row.failure_threshold row
  /\ WorkflowScheduleRecord.is_active (Row.schedule row')
     = WorkflowScheduleRecord.is_active (Row.schedule row)
       && (bool_decide (n = 0%nat)
           || (Row.consecutive_failures row + Z.of_nat n <? Row.failure_threshold row)).

Lemma failed_row_step (clock : Z) (id : str) (store : gmap str (Row.t Value)) row r n :
  store !! id = Some r -> failed_row row r n ->
  exists r', record_result_policy clock store id true false !! id = Some r'
    /\ failed_row row r' (S n).
Proof.
  intros Hr (Hf & Ht & Ha). eexists. split.
  { unfold record_result_policy. rewrite (update_row_lookup _ _ _ r) by done.
    apply lookup_insert_eq. }
  cbn beta zeta. unfold failed_row. rewrite (bool_decide_false (S n = 0%nat)) by lia.
  destruct (Z.leb_spec (Row.failure_threshold r) (Row.consecutive_failures r + 1)) as [Hle|Hlt];
    (split; [cbn; lia|]); (split; [done|]); cbn [orb].
  - rewrite (proj2 (Z.ltb_ge _ _)) by lia. by rewrite andb_false_r.
  - rewrite (proj2 (Z.ltb_lt _ _)) by lia. rewrite andb_true_r.
    change (WorkflowScheduleRecord.is_active (Row.schedule r)
            = WorkflowScheduleRecord.is_active (Row.schedule row)).
    rewrite Ha, (proj2 (Z.ltb_lt _ _)) by lia. by rewrite orb_true_r, andb_true_r.
Qed.

Lemma fail_times_row (n : nat) (clock : Z) (id : str) (store : gmap str (Row.t Value)) row :
  store !! id = Some row ->
  exists row', fail_times n clock id store !! id = Some row' /\ failed_row row row' n.
Proof.
  intros Hrow. induction n as [|n (r & Hr & Hf)].
  - exists row. split; [done|]. unfold failed_row. rewrite bool_decide_true by done.
    rewrite andb_true_r. split; [lia | done].
  - exact (failed_row_step clock id _ row r n Hr Hf).
Qed.

(** ** Properties *)
(** A schedule is paused by its failures in a row and by nothing less:
    after n failed runs (n > 0) it is active exactly when it was before and its
    count of failures is still below the threshold, and one completed run takes
    the count back to zero. *)
Theorem repeated_failures_pause (n : nat) (clock : Z) (id : str) (store : gmap str (Row.t Value))
    (row : Row.t Value) :
  store !! id = Some row -> (0 < n)%nat ->
  exists row', fail_times n clock id store !! id = Some row'
    /\ Row.consecutive_failures row' = Row.consecutive_failures row + Z.of_nat n
    /\ Row.failure_threshold row' = Row.failure_threshold row
    /\ WorkflowScheduleRecord.is_active (Row.schedule row')
       = WorkflowScheduleRecord.is_active (Row.schedule row)
         && (Row.consecutive_failures row + Z.of_nat n <? Row.failure_threshold row)
    /\ (forall one_shot, exists row'',
         record_result_policy clock (fail_times n clock id store) id false one_shot !! id
           = Some row''
         /\ Row.consecutive_failures row'' = 0
         /\ WorkflowScheduleRecord.is_active (Row.schedule row'')
            = (WorkflowScheduleRecord.is_active (Row.schedule row') && negb one_shot)).
Proof.
  intros Hrow Hn. destruct (fail_times_row n clock id store row Hrow) as (row' & Hr & Hf & Ht & Ha).
  rewrite (bool_decide_false (n = 0%nat)) in Ha by lia.
  exists row'. repeat (split; [done|]). intros one_shot. eexists. split.
  { unfold record_result_policy. rewrite (update_row_lookup _ _ _ row') by done.
    apply lookup_insert_eq. }
  split; [done|]. destruct one_shot; cbn; by destruct (WorkflowScheduleRecord.is_active _).
Qed.

(** C40: for a fixed interval the arithmetic jump over missed occurrences gives exactly
    what stepping through them one by one would give, end boundary included. *)
Theorem fixed_interval_shortcut_agrees schedule interval occurrence_ms now :
  fixed_interval_ms (WorkflowScheduleRecord.schedule_expression schedule) = Some interval ->
  0 <= occurrence_ms < i64_max -> now + interval <= i64_max ->
  first_run_after_now_from_occurrence schedule occurrence_ms now
  = (first ← next_run_with_end_boundary schedule occurrence_ms;
     match first with
     | Some candidate => catch_up schedule now candidate
     | None => Ok None
     end).
Proof.
  intros Hd Ho Hnow. unfold first_run_after_now_from_occurrence.
  destruct (next_run_with_end_boundary schedule occurrence_ms) as [[c|]|e|] eqn:Hn; [|done..].
  rewrite !Ok_bind. destruct (Z.ltb_spec now c) as [Hlt|Hle]; [by rewrite catch_up_future|].
  rewrite Hd. destruct (next_run_Some _ _ _ Hn) as (Hos & Hc & Hw).
  destruct (fixed_candidate _ _ _ _ Hd Hc) as [Hpos Hcand].
  destruct (within_Ok _ _ _ Hw) as (b & _ & Hwb).
  assert (Hc0 : 0 <= c).
  { assert (occurrence_ms < c); [|lia]. eapply candidate_later; [|exact Hc].
    unfold i64_min. lia. }
  assert (Hb : past_end b c = false).
  { rewrite Hwb in Hw. by destruct (past_end b c). }
  pose proof (jump_bounds c now interval ltac:(lia) Hle) as Hj. cbn zeta in Hj.
  rewrite (catch_up_fixed schedule interval c now b) by (done || (unfold i64_min; lia)).
  unfold saturating_sub_i64, saturating_mul_i64, clamp.
  replace (Z.max i64_min (Z.min i64_max (now - c))) with (now - c)
    by (unfold i64_min, i64_max in *; lia).
  set (k := (now - c) ÷ interval + 1) in *.
  assert (Hk : 0 <= k * interval <= i64_max) by lia.
  replace (Z.max i64_min (Z.min i64_max (k * interval))) with (k * interval)
    by (unfold i64_min in *; lia).
  assert (Hadd : checked_add_i64 c (k * interval) = Some (c + k * interval)).
  { apply checked_Some. split; [done|]. unfold i64_min. lia. }
  by rewrite Hadd.
Qed.

(** Stepping through missed occurrences always ends, whatever the schedule: at the
    latest when the occurrences have crossed the range of [i64], and the occurrence it
    ends on is after now and before the end boundary. *)
Theorem catch_up_always_ends schedule now candidate :
  i64_min <= candidate -> now < i64_max ->
  candidate_within_end_boundary schedule candidate = Ok (Some candidate) ->
  exists r, run_loop 64 (catch_up_turn schedule now) candidate = Break r
    /\ catch_up schedule now candidate = r
    /\ forall t, r = Ok (Some t) ->
         now < t /\ candidate <= t /\ candidate_within_end_boundary schedule t = Ok (Some t).
Proof.
  intros Hc Hnow Hw. destruct (catch_up_leaves schedule now candidate Hc Hnow Hw) as (r & Hr & Ht).
  exists r. split; [done|]. split; [by unfold catch_up; rewrite Hr | done].
Qed.

(** A Routine that runs each missed occurrence is planned in order: the stored
    occurrence first, each next one when the one before it says, all of them due by now
    and at most as many as the cap allows; the last plan's next run is the first after
    now. *)
Theorem missed_runs_are_planned_in_order schedule now due plans :
  is_routine schedule = true -> runs_each_missed schedule = true ->
  run_now_resume_at_ms (WorkflowScheduleRecord.run_request schedule) = Ok None ->
  WorkflowScheduleRecord.next_run_at_ms schedule = Some due ->
  0 <= due <= now -> now < i64_max ->
  claimed_occurrences_at schedule now = Ok plans ->
  backlog schedule now due plans
  /\ Z.of_nat (length plans) <= Z.max (WorkflowScheduleRecord.missed_run_cap schedule) 1
  /\ forall plan t, list.last plans = Some plan ->
       ClaimedOccurrencePlan.next_run_at_ms plan = Some t -> now < t.
Proof.
  intros Hroutine Heach Hresume Hdue Hnow Hmax H. unfold claimed_occurrences_at in H.
  rewrite Hresume, Ok_bind, bool_decide_true, Hroutine, Heach in H by done. simpl in H.
  rewrite Hdue in H. apply bind_Ok in H as (due_plans & Hd & H). simpl in Hd.
  pose proof (due_occurrences_length _ _ _ _ _ Hd) as Hlen.
  assert (Hroom : (0 < Z.to_nat (Z.max (WorkflowScheduleRecord.missed_run_cap schedule) 1))%nat)
    by lia.
  assert (Hne : Nat.eqb (length due_plans) 0 = false).
  { destruct (Z.to_nat _) as [|room]; [lia|]. simpl in Hd.
    destruct (Z.ltb_spec now due); [lia|].
    apply bind_Ok in Hd as ([next|] & _ & Hd); [|by injection Hd as <-].
    destruct (next <=? due); [done|]. apply bind_Ok in Hd as (rest & _ & Hd).
    by injection Hd as <-. }
  rewrite Hne in H. pose proof (skip_backlog_length _ _ _ _ H) as Hlen'.
  assert (Hback : backlog schedule now due plans) by (eapply due_backlog; [lia|exact Hroom|exact Hd|exact H]).
  split; [done|]. split; [lia|]. clear H Hd Hdue Hne Hlen Hlen'.
  assert (Hlo : 0 <= due) by lia. clear Hnow. revert Hlo.
  induction Hback as [due next Hd Hf | due next rest Hd _ Hb IH]; intros Hlo plan t Hl Ht.
  - injection Hl as <-. simpl in Ht. subst next. apply first_run_in_future in Hf as [? _]; [done|lia..].
  - apply (IH ltac:(lia) plan t); [|done]. inversion Hb; subst; exact Hl.
Qed.

(** A claimed Routine that is skipped (past its end, outside its window, or too
    late by policy) is given back: its row is no longer claimed and either is finished,
    or is due again strictly after now and before its end boundary; a Routine that is
    not skipped leaves the table as it was. *)
Theorem skipped_claim_is_given_back clock store schedule now skipped store' row :
  match WorkflowScheduleRecord.next_run_at_ms schedule with
  | Some due => 0 <= due < i64_max | None => True end ->
  0 <= now < i64_max ->
  store !! WorkflowScheduleRecord.id schedule = Some row ->
  should_skip_claimed_routine clock store schedule now = Ok (skipped, store') ->
  if skipped then given_back schedule now store store' else store' = store.
Proof.
  intros Hdue Hnow Hrow.
  assert (Hfinish : given_back schedule now store
    (finish_routine_at_end_boundary clock store (WorkflowScheduleRecord.id schedule))).
  { eexists. split; [by apply update_row_lookup|]. split; [done | by left]. }
  assert (Hrelease : forall reason store',
    release_claimed_at_next_future_occurrence clock store schedule now reason = Ok store' ->
    given_back schedule now store store').
  { intros reason s1 H. apply bind_Ok in H as (first & Hf & [= <-]).
    assert (Hocc : 0 <= default now (WorkflowScheduleRecord.next_run_at_ms schedule) < i64_max).
    { destruct (WorkflowScheduleRecord.next_run_at_ms schedule); simpl; lia. }
    destruct first as [t|]; [|done]. apply first_run_in_future in Hf; [|lia..].
    eexists. split; [by apply update_row_lookup|]. split; [done|]. right. exists t.
    split; [done|]. intuition. }
  unfold should_skip_claimed_routine. destruct (is_routine schedule); [|by intros [= <- <-]].
  intros (boundary & He & H)%bind_Ok. cbn [negb] in H.
  destruct (match boundary with Some e => e <=? now | None => false end); [by simplify_eq|].
  apply bind_Ok in H as (resume & Hr & H). destruct (negb _); [by simplify_eq|].
  apply bind_Ok in H as (zone & _ & H). apply bind_Ok in H as (outside & _ & H).
  destruct outside.
  - apply bind_Ok in H as (s1 & Hs & [= <- <-]). by eapply Hrelease.
  - destruct (_ && _); [|by simplify_eq].
    apply bind_Ok in H as (s1 & Hs & [= <- <-]). by eapply Hrelease.
Qed.
End Promises.

(** ** An hourly Routine, four hours behind *)
Module RoutineDemo.
Import FlatCalendar FlatJson.
Definition template : value := Object [(lit "inputs", Object [])].
Definition routine (policy : string) : WorkflowScheduleRecord.t value :=
  WorkflowScheduleRecord.mk value (lit "routine_a") (lit "workflow_a") (Some 1) (lit "Report")
    (lit "every 60 minutes") template true (Some 3600000) (Some 14500000) None None None None
    None 0 0 (lit "UTC") (lit "recurring") None (lit policy) 2 None None template template.
Definition store : gmap str (Row.t value) :=
  {[ lit "routine_a" := Row.mk value (routine "skip") None 0 3 ]}.
Definition now : Z := 14500000.
End RoutineDemo.

Section RecurrenceWitnesses.
Import FlatCalendar FlatJson RoutineDemo.

Lemma fixed_interval_shortcut_agrees_witness :
  catch_up (C := chrono) (J := json) (routine "skip") now 7200000 = Ok (Some 18000000).
Proof.
  pose proof (fixed_interval_shortcut_agrees (C := chrono) (J := json)
    (routine "skip") 3600000 3600000 now ltac:(vm_compute; reflexivity)
    ltac:(split; vm_compute; [discriminate | reflexivity]) ltac:(vm_compute; discriminate)) as H.
  etransitivity; [|etransitivity; [symmetry; exact H|]]; vm_compute; reflexivity.
Defined.

Lemma catch_up_always_ends_witness :
  exists r, run_loop 64 (catch_up_turn (C := chrono) (J := json) (routine "skip") now) 7200000
    = Break r.
Proof.
  destruct (catch_up_always_ends (C := chrono) (J := json) (routine "skip") now 7200000)
    as (r & Hr & _); [vm_compute; discriminate | vm_compute; reflexivity
      | vm_compute; reflexivity | exists r; exact Hr].
Defined.

Lemma missed_runs_are_planned_in_order_witness :
  exists plans, claimed_occurrences_at (C := chrono) (J := json) (routine "run_each") now = Ok plans
    /\ backlog (routine "run_each") now 3600000 plans.
Proof.
  eexists. split; [vm_compute; reflexivity|].
  apply (missed_runs_are_planned_in_order (C := chrono) (J := json) (routine "run_each")
    now 3600000); try (vm_compute; reflexivity).
  split; vm_compute; discriminate.
Defined.

Lemma skipped_claim_is_given_back_witness :
  exists store', should_skip_claimed_routine (C := chrono) (J := json) now store
      (routine "skip") now = Ok (true, store')
    /\ given_back (J := json) (routine "skip") now store store'.
Proof.
  eexists. split; [vm_compute; reflexivity|].
  eapply (skipped_claim_is_given_back (J := json) now store (routine "skip") now true);
    [split; vm_compute; [discriminate | reflexivity]
    | split; vm_compute; [discriminate | reflexivity]
    | vm_compute; reflexivity | vm_compute; reflexivity].
Defined.
Lemma repeated_failures_pause_witness :
  exists row', fail_times (J := json) 3 now (lit "routine_a") store !! lit "routine_a" = Some row'
    /\ WorkflowScheduleRecord.is_active (Row.schedule row') = false.
Proof.
  destruct (repeated_failures_pause (J := json) 3 now (lit "routine_a") store
    (Row.mk value (routine "skip") None 0 3) ltac:(vm_compute; reflexivity)
    ltac:(apply Nat.lt_0_succ)) as (row' & Hr & _ & _ & Ha & _).
  exists row'. split; [exact Hr | exact Ha].
Defined.
End RecurrenceWitnesses.
