(* ===== verification/NetworkPolicy.v ===== *)
(** * Network destinations

    Models [network_policy.rs]: the canonical form of a destination URL, the
    class of each address its name resolves to, and the checks that bind an
    approved destination to the name, the addresses and the port it was
    approved with.  URL parsing ([reqwest::Url]), the text form of IP addresses
    and SHA-256 are parameters; name resolution is an argument, the outcome of
    the resolver under its deadline.  The predicates of [Ipv4Addr] and
    [Ipv6Addr] are those of the standard library.  The theorems follow the
    definitions. *)
From S2P Require Import Prelude RustStr P0Contracts.
From stdpp Require Import sorting.
Local Open Scope Z_scope.

Definition MAX_DESTINATION_URL_BYTES : Z := 8 * 1024.
Definition MAX_DESTINATION_PATH_BYTES : Z := 4 * 1024.

Module DestinationTransport.
Inductive t : Type := RemoteMcpHttp | RemoteMcpSse | NativeBrowser.
Definition as_str (transport : t) : str :=
  match transport with
  | RemoteMcpHttp => lit "remote_mcp_http"
  | RemoteMcpSse => lit "remote_mcp_sse"
  | NativeBrowser => lit "native_browser"
  end.
End DestinationTransport.
#[export] Instance DestinationTransport_eq_dec : EqDecision DestinationTransport.t.
Proof. solve_decision. Defined.

Module LocalOriginGrant.
Record t : Type := mk { exact_loopback_port : Z }.
End LocalOriginGrant.

Module ResolvedDestinationClass.
Inductive t : Type := Public | ExactLoopback.
Definition as_str (class : t) : str :=
  match class with Public => lit "public" | ExactLoopback => lit "exact_loopback" end.
End ResolvedDestinationClass.
#[export] Instance ResolvedDestinationClass_eq_dec : EqDecision ResolvedDestinationClass.t.
Proof. solve_decision. Defined.

Module NetworkPolicyError.
Record t : Type := mk { code : str; message : str }.
Definition invalid (message : string) : t := mk (lit "destination_invalid") (lit message).
Definition blocked (message : str) : t := mk (lit "destination_blocked") message.
Definition changed (message : str) : t := mk (lit "destination_policy_changed") message.
End NetworkPolicyError.
Arguments NetworkPolicyError.invalid message%_string.
Notation policy_res := (res NetworkPolicyError.t).

(** ** Addresses *)
(** Four octets, or eight segments of sixteen bits. *)
Module IpAddr.
Inductive t : Type := V4 (octets : list Z) | V6 (segments : list Z).
End IpAddr.
#[export] Instance IpAddr_eq_dec : EqDecision IpAddr.t.
Proof. solve_decision. Defined.

(** The order of [IpAddr]: version four first, then lexicographic. *)
Fixpoint lex_ltb (a b : list Z) : bool :=
  match a, b with
  | x :: a, y :: b => (x <? y) || ((x =? y) && lex_ltb a b)
  | [], _ :: _ => true
  | _, [] => false
  end.
Definition ip_ltb (a b : IpAddr.t) : bool :=
  match a, b with
  | IpAddr.V4 a, IpAddr.V4 b => lex_ltb a b
  | IpAddr.V6 a, IpAddr.V6 b => lex_ltb a b
  | IpAddr.V4 _, IpAddr.V6 _ => true
  | IpAddr.V6 _, IpAddr.V4 _ => false
  end.
Fixpoint ip_insert (a : IpAddr.t) (l : list IpAddr.t) : list IpAddr.t :=
  match l with
  | [] => [a]
  | b :: l' =>
      if ip_ltb a b then a :: l else if ip_ltb b a then b :: ip_insert a l' else l
  end.
(** [collect::<BTreeSet<_>>().into_iter().collect::<Vec<_>>()] *)
Definition ip_set (l : list IpAddr.t) : list IpAddr.t := foldr ip_insert [] l.

Module IpSecurityClass.
Inductive t : Type :=
| Public | Loopback | Unspecified | Private | LinkLocal | Multicast | CarrierGradeNat | Reserved.
Definition label (class : t) : str :=
  match class with
  | Public => lit "public" | Loopback => lit "loopback"
  | Unspecified => lit "unspecified" | Private => lit "private"
  | LinkLocal => lit "link_local" | Multicast => lit "multicast"
  | CarrierGradeNat => lit "carrier_grade_nat" | Reserved => lit "reserved_or_metadata"
  end.
End IpSecurityClass.
#[export] Instance IpSecurityClass_eq_dec : EqDecision IpSecurityClass.t.
Proof. solve_decision. Defined.

Definition octet (l : list Z) (i : nat) : Z := nth i l 0.

Definition classify_ipv4 (octets : list Z) : IpSecurityClass.t :=
  let o := octet octets in
  if (o 0%nat =? 0) && (o 1%nat =? 0) && (o 2%nat =? 0) && (o 3%nat =? 0)
  then IpSecurityClass.Unspecified
  else if o 0%nat =? 127 then IpSecurityClass.Loopback
  else if (o 0%nat =? 10) || ((o 0%nat =? 172) && in_range 16 31 (o 1%nat))
          || ((o 0%nat =? 192) && (o 1%nat =? 168)) then IpSecurityClass.Private
  else if (o 0%nat =? 169) && (o 1%nat =? 254) then IpSecurityClass.LinkLocal
  else if in_range 224 239 (o 0%nat) then IpSecurityClass.Multicast
  else if (o 0%nat =? 100) && in_range 64 127 (o 1%nat) then IpSecurityClass.CarrierGradeNat
  else if (o 0%nat =? 0)
          || ((o 0%nat =? 192) && (o 1%nat =? 0) && (o 2%nat =? 0))
          || ((o 0%nat =? 192) && (o 1%nat =? 0) && (o 2%nat =? 2))
          || ((o 0%nat =? 192) && (o 1%nat =? 88) && (o 2%nat =? 99))
          || ((o 0%nat =? 198) && ((o 1%nat =? 18) || (o 1%nat =? 19)))
          || ((o 0%nat =? 198) && (o 1%nat =? 51) && (o 2%nat =? 100))
          || ((o 0%nat =? 203) && (o 1%nat =? 0) && (o 2%nat =? 113))
          || (240 <=? o 0%nat)
  then IpSecurityClass.Reserved
  else IpSecurityClass.Public.

(** [Ipv6Addr::to_ipv4_mapped]: [::ffff:a.b.c.d] *)
Definition to_ipv4_mapped (segments : list Z) : option (list Z) :=
  let s := octet segments in
  if forallb (Z.eqb 0) (map s (seq 0 5)) && (s 5%nat =? 65535)
  then Some [s 6%nat / 256; s 6%nat mod 256; s 7%nat / 256; s 7%nat mod 256]
  else None.

Definition classify_ipv6 (segments : list Z) : IpSecurityClass.t :=
  let s := octet segments in
  if forallb (Z.eqb 0) (map s (seq 0 8)) then IpSecurityClass.Unspecified
  else if forallb (Z.eqb 0) (map s (seq 0 7)) && (s 7%nat =? 1) then IpSecurityClass.Loopback
  else if Z.land (s 0%nat) 0xff00 =? 0xff00 then IpSecurityClass.Multicast
  else match to_ipv4_mapped segments with
  | Some mapped => classify_ipv4 mapped
  | None =>
      if Z.land (s 0%nat) 0xfe00 =? 0xfc00 then IpSecurityClass.Private
      else if Z.land (s 0%nat) 0xffc0 =? 0xfe80 then IpSecurityClass.LinkLocal
      else if ((s 0%nat =? 0x0064) && (s 1%nat =? 0xff9b) && (s 2%nat =? 0) && (s 3%nat =? 0)
               && (s 4%nat =? 0) && (s 5%nat =? 0))
              || ((s 0%nat =? 0x0064) && (s 1%nat =? 0xff9b) && (s 2%nat =? 1))
              || ((s 0%nat =? 0x2001) && (Z.land (s 1%nat) 0xfe00 =? 0))
              || (s 0%nat =? 0x2002)
              || (Z.land (s 0%nat) 0xff00 =? 0x3f00)
              || ((s 0%nat =? 0x2001) && (s 1%nat =? 0x0db8))
      then IpSecurityClass.Reserved
      else if negb (Z.land (s 0%nat) 0xe000 =? 0x2000) then IpSecurityClass.Reserved
      else IpSecurityClass.Public
  end.

Definition classify_ip (address : IpAddr.t) : IpSecurityClass.t :=
  match address with
  | IpAddr.V4 octets => classify_ipv4 octets
  | IpAddr.V6 segments => classify_ipv6 segments
  end.

Definition ensure_address_allowed (address : IpAddr.t) (port : Z)
    (local_origin_grant : option LocalOriginGrant.t) : policy_res ResolvedDestinationClass.t :=
  let class := classify_ip address in
  if bool_decide (class = IpSecurityClass.Public) then
    match local_origin_grant with
    | Some _ => Err (NetworkPolicyError.blocked
        (lit "A local-origin grant cannot authorize a public destination."))
    | None => Ok ResolvedDestinationClass.Public
    end
  else if bool_decide (class = IpSecurityClass.Loopback)
       && match local_origin_grant with
          | Some grant => LocalOriginGrant.exact_loopback_port grant =? port
          | None => false
          end
  then Ok ResolvedDestinationClass.ExactLoopback
  else Err (NetworkPolicyError.blocked (lit "Destination resolved to a blocked "
    ++ IpSecurityClass.label class ++ lit " address class.")).

(** ** Names *)
Definition is_metadata_hostname (host : str) : bool :=
  existsb (fun name => str_eqb host (lit name))
    ["metadata.google.internal"; "instance-data.ec2.internal"; "metadata.azure.internal";
     "metadata.oraclecloud.com"; "metadata.packet.net"; "metadata.tencentyun.com"]%string
  || ends_with (lit ".metadata.google.internal") host.

Definition raw_authority (endpoint : str) : policy_res str :=
  '(_, remainder) ← ok_or
    (NetworkPolicyError.invalid "Destination URL must include an explicit scheme.")
    (split_once_str (lit "://") endpoint);
  let authority := before_first (fun c => existsb (Z.eqb c) (lit "/?#")) remainder in
  if is_empty authority
  then Err (NetworkPolicyError.invalid "Destination URL must include an authority.")
  else Ok authority.

Definition raw_host (authority : str) : policy_res str :=
  if starts_with (lit "[") authority then
    if contains_char (ch "]") authority
    then Ok (before_first (Z.eqb (ch "]")) (drop 1 authority))
    else Err (NetworkPolicyError.invalid
           "IPv6 destination authority is missing a closing bracket.")
  else Ok (before_first (Z.eqb (ch ":")) authority).

(** ** URLs and the text of addresses *)
Class UrlLib : Type := {
  Url : Type;
  (** [Url::parse], with the text of its error *)
  url_parse : str -> res str Url;
  username : Url -> str;
  password : Url -> option str;
  fragment : Url -> option str;
  path : Url -> str;
  scheme : Url -> str;
  host_str : Url -> option str;
  url_port : Url -> option Z;
  port_or_known_default : Url -> option Z;
  (** [url.set_port(None)] *)
  clear_port : Url -> option Url;
  url_as_str : Url -> str;
  (** [url.origin().ascii_serialization()] *)
  origin : Url -> str;
  (** [host.parse::<IpAddr>()] and [ip.to_string()] *)
  ip_parse : str -> option IpAddr.t;
  ip_to_string : IpAddr.t -> str;
}.

Module CanonicalParts.
Record t `{U : UrlLib} : Type := mk {
  url : Url;
  canonical_url : str;
  canonical_origin : str;
  host : str;
  port : Z;
  transport : DestinationTransport.t;
  local_origin_grant : option LocalOriginGrant.t;
}.
Arguments t U : clear implicits.
End CanonicalParts.

Module CanonicalDestination.
Record t `{U : UrlLib} : Type := mk {
  url : Url;
  canonical_url : str;
  canonical_origin : str;
  host : str;
  port : Z;
  transport : DestinationTransport.t;
  resolved_addresses : list IpAddr.t;
  destination_class : ResolvedDestinationClass.t;
  local_origin_grant : option LocalOriginGrant.t;
  binding_fingerprint : str;
}.
Arguments t U : clear implicits.
End CanonicalDestination.

(** What the resolver under its deadline reports. *)
Module Dns.
Inductive t : Type :=
| Timeout | Disconnected | Failed (error : str) | Answers (addresses : list IpAddr.t).
End Dns.

Section Policy.
Context `{U : UrlLib} (sha256 : list Z -> list Z).
Notation Parts := (CanonicalParts.t U).
Notation Destination := (CanonicalDestination.t U).

Definition validate_canonical_host (raw canonical : str) : policy_res unit :=
  if is_empty raw || ends_with (lit ".") raw || starts_with (lit ".") raw
     || contains_str (lit "..") raw || contains_char (ch "_") raw
  then Err (NetworkPolicyError.invalid
         "Destination hostname is empty, ambiguous, or non-canonical.")
  else match ip_parse canonical with
  | Some ip =>
      guard_not (negb (str_eqb (to_ascii_lowercase raw) (to_ascii_lowercase (ip_to_string ip))))
        (NetworkPolicyError.invalid
           "Destination IP address must use its canonical textual form.")
  | None => Ok tt
  end.

Definition canonicalize_destination (endpoint : str) (transport : DestinationTransport.t)
    (local_origin_grant : option LocalOriginGrant.t) : policy_res Parts :=
  let endpoint := trim endpoint in
  _ ← guard_not (is_empty endpoint || (MAX_DESTINATION_URL_BYTES <? str_len endpoint))
        (NetworkPolicyError.invalid "Destination URL is empty or exceeds the native URL limit.");
  authority ← raw_authority endpoint;
  _ ← guard_not (negb (is_ascii authority) || contains_char (ch "%") authority
                 || contains_char (ch "\") authority)
        (NetworkPolicyError.invalid "Destination authority contains an ambiguous encoding.");
  url ← map_err (fun error => NetworkPolicyError.mk (lit "destination_invalid")
          (lit "Destination URL is malformed: " ++ error)) (url_parse endpoint);
  _ ← guard_not (negb (is_empty (username url)) || negb (bool_decide (password url = None))
                 || contains_char (ch "@") authority)
        (NetworkPolicyError.invalid "Destination URLs may not contain embedded credentials.");
  _ ← guard_not (negb (bool_decide (fragment url = None)))
        (NetworkPolicyError.invalid
           "Destination URLs may not contain fragments at an approval boundary.");
  _ ← guard_not (MAX_DESTINATION_PATH_BYTES <? str_len (path url))
        (NetworkPolicyError.invalid "Destination path exceeds the native path limit.");
  let is_https := str_eqb (scheme url) (lit "https") in
  let is_http := str_eqb (scheme url) (lit "http") in
  _ ← guard_not (negb (is_http || is_https))
        (NetworkPolicyError.invalid "Only canonical HTTP and HTTPS destinations are supported.");
  _ ← guard_not (bool_decide (transport = DestinationTransport.NativeBrowser) && negb is_https)
        (NetworkPolicyError.blocked (lit "Native browser navigation requires HTTPS."));
  _ ← guard_not (is_http && match local_origin_grant with None => true | _ => false end)
        (NetworkPolicyError.blocked
           (lit "Plain HTTP requires an explicit exact-loopback local-origin grant."));
  host ← ok_or (NetworkPolicyError.invalid "Destination URL must contain a host.") (host_str url);
  let host := to_ascii_lowercase host in
  raw ← raw_host authority;
  _ ← validate_canonical_host raw host;
  _ ← guard_not (is_metadata_hostname host || str_eqb host (lit "localhost")
                 || ends_with (lit ".localhost") host)
        (NetworkPolicyError.blocked
           (lit "Cloud metadata and localhost hostnames are blocked by native destination policy."));
  port ← ok_or (NetworkPolicyError.invalid "Destination URL does not have a canonical port.")
           (port_or_known_default url);
  _ ← guard_not (port =? 0) (NetworkPolicyError.invalid "Destination port zero is not routable.");
  _ ← guard_not match local_origin_grant with
                | Some grant =>
                    let exact := LocalOriginGrant.exact_loopback_port grant in
                    (exact =? 0) || negb (exact =? port)
                | None => false
                end
        (NetworkPolicyError.blocked
           (lit "Local-origin grant does not match the destination's exact loopback port."));
  let has_port p := match url_port url with Some q => q =? p | None => false end in
  url ← (if (is_https && has_port 443) || (is_http && has_port 80)
         then ok_or (NetworkPolicyError.invalid
                       "Destination default port could not be canonicalized.") (clear_port url)
         else Ok url);
  Ok (CanonicalParts.mk _ url (url_as_str url) (origin url) host port transport
        local_origin_grant).

Definition destination_binding_fingerprint (origin : str) (transport : DestinationTransport.t)
    (class : ResolvedDestinationClass.t) (addresses : list IpAddr.t) : str :=
  hex_encode (sha256 (as_bytes origin ++ [0] ++ as_bytes (DestinationTransport.as_str transport)
    ++ [0] ++ as_bytes (ResolvedDestinationClass.as_str class)
    ++ flat_map (fun address => 0 :: as_bytes (ip_to_string address)) addresses)).

(** The loop over the resolved addresses; [seen] is [destination_class]. *)
Definition class_of_addresses (port : Z) (grant : option LocalOriginGrant.t)
    (addresses : list IpAddr.t) : policy_res (option ResolvedDestinationClass.t) :=
  for_fold (fun seen address =>
    class ← ensure_address_allowed address port grant;
    if match seen with Some existing => negb (bool_decide (existing = class)) | None => false end
    then Err (NetworkPolicyError.blocked
           (lit "Destination DNS records span multiple address classes."))
    else Ok (Some class)) None addresses.

Definition finish_resolution (canonical : Parts) (addresses : list IpAddr.t)
  : policy_res Destination :=
  let addresses := ip_set addresses in
  _ ← guard_not (Nat.eqb (length addresses) 0)
        (NetworkPolicyError.blocked (lit "Destination DNS resolution returned no address records."));
  class ← class_of_addresses (CanonicalParts.port canonical)
            (CanonicalParts.local_origin_grant canonical) addresses;
  class ← or_panic class;
  let origin := CanonicalParts.canonical_origin canonical in
  let transport := CanonicalParts.transport canonical in
  Ok (CanonicalDestination.mk _ (CanonicalParts.url canonical)
        (CanonicalParts.canonical_url canonical) origin (CanonicalParts.host canonical)
        (CanonicalParts.port canonical) transport addresses class
        (CanonicalParts.local_origin_grant canonical)
        (destination_binding_fingerprint origin transport class addresses)).

(** [resolve_destination] and [resolve_destination_blocking] differ in how the
    missed deadline is worded. *)
Definition dns_answers (deadline : str) (dns : Dns.t) : policy_res (list IpAddr.t) :=
  match dns with
  | Dns.Timeout => Err (NetworkPolicyError.blocked
      (lit "Destination DNS resolution exceeded the " ++ deadline ++ lit " deadline."))
  | Dns.Disconnected => Err (NetworkPolicyError.blocked
      (lit "Destination DNS resolver terminated unexpectedly."))
  | Dns.Failed error => Err (NetworkPolicyError.blocked
      (lit "Destination DNS resolution failed: " ++ error))
  | Dns.Answers addresses => Ok addresses
  end.

Definition resolve_with (deadline : str) (dns : str -> Z -> Dns.t) (endpoint : str)
    (transport : DestinationTransport.t) (grant : option LocalOriginGrant.t)
  : policy_res Destination :=
  canonical ← canonicalize_destination endpoint transport grant;
  addresses ← dns_answers deadline
                (dns (CanonicalParts.host canonical) (CanonicalParts.port canonical));
  finish_resolution canonical addresses.
Definition resolve_destination := resolve_with (lit "5 second").
Definition resolve_destination_blocking := resolve_with (lit "5000 millisecond").

Definition ensure_same_policy_binding (approved current : Destination) : policy_res unit :=
  guard_not (negb (str_eqb (CanonicalDestination.canonical_origin approved)
                     (CanonicalDestination.canonical_origin current))
      || negb (bool_decide (CanonicalDestination.transport approved
                            = CanonicalDestination.transport current))
      || negb (bool_decide (CanonicalDestination.destination_class approved
                            = CanonicalDestination.destination_class current))
      || negb (bool_decide (CanonicalDestination.resolved_addresses approved
                            = CanonicalDestination.resolved_addresses current))
      || negb (str_eqb (CanonicalDestination.binding_fingerprint approved)
                 (CanonicalDestination.binding_fingerprint current)))
    (NetworkPolicyError.changed
       (lit "Destination origin, transport, address class, or DNS answer set changed after approval.")).

Definition revalidate_destination (dns : str -> Z -> Dns.t) (approved : Destination)
  : policy_res Destination :=
  current ← resolve_destination dns (CanonicalDestination.canonical_url approved)
              (CanonicalDestination.transport approved)
              (CanonicalDestination.local_origin_grant approved);
  _ ← ensure_same_policy_binding approved current;
  Ok current.

Definition validate_redirect_destination (dns : str -> Z -> Dns.t) (approved : Destination)
    (redirect_url : str) : policy_res Destination :=
  redirected ← resolve_destination dns redirect_url (CanonicalDestination.transport approved)
                 (CanonicalDestination.local_origin_grant approved);
  _ ← guard_not (negb (str_eqb (CanonicalDestination.canonical_origin redirected)
                         (CanonicalDestination.canonical_origin approved)))
        (NetworkPolicyError.changed (lit "Redirect changed the approved canonical origin."));
  _ ← ensure_same_policy_binding approved redirected;
  Ok redirected.

Definition validate_browser_navigation_blocking (dns : str -> Z -> Dns.t)
    (approved : Destination) (navigation_url : str) : policy_res Destination :=
  _ ← guard_not (negb (bool_decide (CanonicalDestination.transport approved
                                    = DestinationTransport.NativeBrowser)))
        (NetworkPolicyError.changed
           (lit "A non-browser destination grant cannot authorize browser navigation."));
  current ← resolve_destination_blocking dns navigation_url DestinationTransport.NativeBrowser None;
  _ ← guard_not (negb (str_eqb (CanonicalDestination.canonical_origin current)
                         (CanonicalDestination.canonical_origin approved)))
        (NetworkPolicyError.changed
           (lit "Browser navigation changed the user-approved canonical origin."));
  _ ← ensure_same_policy_binding approved current;
  Ok current.

(** A peer is the address and the port of the connected socket. *)
Definition validate_connected_peer (approved : Destination) (peer : option (IpAddr.t * Z))
  : policy_res unit :=
  '(ip, port) ← ok_or (NetworkPolicyError.blocked
      (lit "The connected socket did not expose a peer address for native policy verification."))
    peer;
  _ ← guard_not (negb (port =? CanonicalDestination.port approved)
                 || negb (bool_decide (ip ∈ CanonicalDestination.resolved_addresses approved)))
        (NetworkPolicyError.changed
           (lit "The connected socket peer did not match the approved destination binding (peer class "
            ++ IpSecurityClass.label (classify_ip ip) ++ lit ")."));
  _ ← ensure_address_allowed ip (CanonicalDestination.port approved)
        (CanonicalDestination.local_origin_grant approved);
  Ok tt.
End Policy.

(** ** Network destinations: what an approved destination guarantees

    The IPv4 classification against the list of special-purpose blocks; the
    canonical form of a set of DNS answers; what a resolved destination and an
    accepted peer are; and that revalidation refuses a changed answer. *)
(** ** Sets of addresses *)
Section Order.
Lemma lex_ltb_irrefl a : lex_ltb a a = false.
Proof. induction a as [|x a IH]; simpl; [done|]. by rewrite Z.ltb_irrefl, Z.eqb_refl, IH. Qed.

Lemma lex_ltb_asym a b : lex_ltb a b = true -> lex_ltb b a = false.
Proof.
  revert b. induction a as [|x a IH]; intros [|y b]; simpl; try done.
  destruct (Z.ltb_spec x y), (Z.ltb_spec y x), (Z.eqb_spec x y), (Z.eqb_spec y x);
    simpl; try lia; try done. apply IH.
Qed.

Lemma lex_ltb_trans a b c : lex_ltb a b = true -> lex_ltb b c = true -> lex_ltb a c = true.
Proof.
  revert b c. induction a as [|x a IH]; intros [|y b] [|z c]; simpl; try done.
  destruct (Z.ltb_spec x y), (Z.ltb_spec y z), (Z.ltb_spec x z), (Z.eqb_spec x y),
    (Z.eqb_spec y z), (Z.eqb_spec x z); simpl; try lia; try done. apply IH.
Qed.

Lemma lex_ltb_total a b : lex_ltb a b = false -> lex_ltb b a = false -> a = b.
Proof.
  revert b. induction a as [|x a IH]; intros [|y b]; simpl; try done.
  destruct (Z.ltb_spec x y), (Z.ltb_spec y x), (Z.eqb_spec x y), (Z.eqb_spec y x);
    simpl; try lia; try done. intros. f_equal; [done | by apply IH].
Qed.

Definition ip_lt (a b : IpAddr.t) : Prop := ip_ltb a b = true.

#[local] Instance ip_lt_trans : Transitive ip_lt.
Proof. intros [a|a] [b|b] [c|c]; unfold ip_lt; simpl; try done; apply lex_ltb_trans. Qed.
#[local] Instance ip_lt_antisymm : AntiSymm (=) ip_lt.
Proof.
  intros [a|a] [b|b]; unfold ip_lt; simpl; try done; intros H1 H2;
    by rewrite (lex_ltb_asym _ _ H1) in H2.
Qed.
Lemma ip_ltb_irrefl a : ip_ltb a a = false.
Proof. destruct a; apply lex_ltb_irrefl. Qed.
Lemma ip_ltb_total a b : ip_ltb a b = false -> ip_ltb b a = false -> a = b.
Proof. destruct a, b; simpl; try done; intros; f_equal; by apply lex_ltb_total. Qed.

Lemma elem_of_ip_insert x a l : x ∈ ip_insert a l <-> x = a \/ x ∈ l.
Proof.
  induction l as [|b l IH]; simpl; [set_solver|].
  destruct (ip_ltb a b) eqn:H1; [set_solver|]. destruct (ip_ltb b a) eqn:H2; [set_solver|].
  rewrite (ip_ltb_total a b H1 H2). set_solver.
Qed.

Lemma elem_of_ip_set x l : x ∈ ip_set l <-> x ∈ l.
Proof. induction l as [|a l IH]; simpl; [done|]. rewrite elem_of_ip_insert. set_solver. Qed.

Lemma ip_insert_sorted a l : StronglySorted ip_lt l -> StronglySorted ip_lt (ip_insert a l).
Proof.
  induction 1 as [|b l Hl IH Hb]; simpl; [repeat constructor|].
  destruct (ip_ltb a b) eqn:H1.
  - constructor; [by constructor|]. constructor; [done|].
    eapply List.Forall_impl; [|exact Hb]. intros c Hc. by transitivity b.
  - destruct (ip_ltb b a) eqn:H2; [|by constructor]. constructor; [done|].
    apply List.Forall_forall. intros c Hc%list_elem_of_In%elem_of_ip_insert.
    destruct Hc as [->|Hc]; [done|].
    rewrite List.Forall_forall in Hb. by apply Hb, list_elem_of_In.
Qed.

Lemma ip_set_sorted l : StronglySorted ip_lt (ip_set l).
Proof. induction l as [|a l IH]; simpl; [constructor | by apply ip_insert_sorted]. Qed.

Lemma ip_sorted_NoDup l : StronglySorted ip_lt l -> NoDup l.
Proof.
  induction 1 as [|b l Hl IH Hb]; constructor; [|done]. intros Hin%list_elem_of_In.
  rewrite List.Forall_forall in Hb. specialize (Hb b Hin). unfold ip_lt in Hb.
  by rewrite ip_ltb_irrefl in Hb.
Qed.

(** A set of answers has one representation. *)
Lemma ip_set_canonical l1 l2 : (forall a, a ∈ l1 <-> a ∈ l2) -> ip_set l1 = ip_set l2.
Proof.
  intros H. apply (StronglySorted_unique ip_lt); [apply ip_set_sorted..|].
  apply NoDup_Permutation; [apply ip_sorted_NoDup, ip_set_sorted..|].
  intros a. by rewrite !elem_of_ip_set.
Qed.
End Order.

(** ** Special-purpose IPv4 blocks *)
Definition to_u32 (octets : list Z) : Z := foldl (fun v o => 256 * v + o) 0 octets.
(** An address lies in the block of a base address and a prefix length. *)
Definition in_block (address : list Z) (block : list Z * Z) : bool :=
  Z.shiftr (to_u32 address) (32 - block.2) =? Z.shiftr (to_u32 block.1) (32 - block.2).
Definition special_blocks : list (list Z * Z) :=
  [([0;0;0;0], 8); ([10;0;0;0], 8); ([100;64;0;0], 10); ([127;0;0;0], 8);
   ([169;254;0;0], 16); ([172;16;0;0], 12); ([192;0;0;0], 24); ([192;0;2;0], 24);
   ([192;88;99;0], 24); ([192;168;0;0], 16); ([198;18;0;0], 15); ([198;51;100;0], 24);
   ([203;0;113;0], 24); ([224;0;0;0], 4); ([240;0;0;0], 4)].

Section Blocks.
Context (a b c d : Z).
Context (Ha : 0 <= a < 256) (Hb : 0 <= b < 256) (Hc : 0 <= c < 256) (Hd : 0 <= d < 256).

Lemma in_block_eq address base len h r k :
  0 <= len <= 32 -> to_u32 address = h * 2 ^ (32 - len) + r -> 0 <= r < 2 ^ (32 - len) ->
  to_u32 base = k * 2 ^ (32 - len) -> in_block address (base, len) = (h =? k).
Proof.
  intros Hlen Hv Hr Hb0. unfold in_block. simpl. rewrite !Z.shiftr_div_pow2, Hv, Hb0 by lia.
  rewrite Z.div_mul by lia. f_equal. rewrite Z.add_comm, Z.div_add, Z.div_small by lia. lia.
Qed.

(** Split the second octet where a prefix ends inside it. *)
Lemma octet_split x p : 0 < p -> x = p * (x / p) + x mod p /\ 0 <= x mod p < p.
Proof. intros Hp. split; [by apply Z.div_mod; lia | by apply Z.mod_pos_bound]. Qed.

Lemma in_block_4 x y : y = 16 * x -> in_block [a; b; c; d] ([y; 0; 0; 0], 4) = (a / 16 =? x).
Proof.
  intros ->. destruct (octet_split a 16 ltac:(lia)) as [E R].
  apply in_block_eq with (r := (a mod 16) * 16777216 + b * 65536 + c * 256 + d);
    cbn [to_u32 foldl]; change (2 ^ (32 - 4)) with 268435456; lia.
Qed.
Lemma in_block_8 x : in_block [a; b; c; d] ([x; 0; 0; 0], 8) = (a =? x).
Proof.
  apply in_block_eq with (r := b * 65536 + c * 256 + d); cbn [to_u32 foldl];
    change (2 ^ (32 - 8)) with 16777216; lia.
Qed.
Lemma in_block_10 : in_block [a; b; c; d] ([100; 64; 0; 0], 10) = (4 * a + b / 64 =? 401).
Proof.
  destruct (octet_split b 64 ltac:(lia)) as [E R].
  apply in_block_eq with (r := (b mod 64) * 65536 + c * 256 + d); cbn [to_u32 foldl];
    change (2 ^ (32 - 10)) with 4194304; lia.
Qed.
Lemma in_block_12 : in_block [a; b; c; d] ([172; 16; 0; 0], 12) = (16 * a + b / 16 =? 2753).
Proof.
  destruct (octet_split b 16 ltac:(lia)) as [E R].
  apply in_block_eq with (r := (b mod 16) * 65536 + c * 256 + d); cbn [to_u32 foldl];
    change (2 ^ (32 - 12)) with 1048576; lia.
Qed.
Lemma in_block_15 : in_block [a; b; c; d] ([198; 18; 0; 0], 15) = (128 * a + b / 2 =? 25353).
Proof.
  destruct (octet_split b 2 ltac:(lia)) as [E R].
  apply in_block_eq with (r := (b mod 2) * 65536 + c * 256 + d); cbn [to_u32 foldl];
    change (2 ^ (32 - 15)) with 131072; lia.
Qed.
Lemma in_block_16 x y : in_block [a; b; c; d] ([x; y; 0; 0], 16) = (256 * a + b =? 256 * x + y).
Proof.
  apply in_block_eq with (r := c * 256 + d); cbn [to_u32 foldl];
    change (2 ^ (32 - 16)) with 65536; lia.
Qed.
Lemma in_block_24 x y z :
  in_block [a; b; c; d] ([x; y; z; 0], 24)
  = (65536 * a + 256 * b + c =? 65536 * x + 256 * y + z).
Proof.
  apply in_block_eq with (r := d); cbn [to_u32 foldl]; change (2 ^ (32 - 24)) with 256; lia.
Qed.

Lemma two_octets x y : 0 <= y < 256 -> 256 * a + b = 256 * x + y <-> a = x /\ b = y.
Proof.
  intros Hy. split; [|by intros [-> ->]]. intros E. assert (a = x) by lia. lia.
Qed.
Lemma three_octets x y z :
  0 <= y < 256 -> 0 <= z < 256 ->
  65536 * a + 256 * b + c = 65536 * x + 256 * y + z <-> a = x /\ b = y /\ c = z.
Proof.
  intros Hy Hz. split; [|by intros (-> & -> & ->)]. intros E.
  assert (256 * a + b = 256 * x + y) by lia. apply two_octets in H as [-> ->]; [|done]. lia.
Qed.

(** The blocks, as conditions on the octets. *)
Lemma special_conditions :
  existsb (in_block [a; b; c; d]) special_blocks = true <->
  a = 0 \/ a = 10 \/ (a = 100 /\ 64 <= b <= 127) \/ a = 127 \/ (a = 169 /\ b = 254)
  \/ (a = 172 /\ 16 <= b <= 31) \/ (a = 192 /\ b = 0 /\ c = 0) \/ (a = 192 /\ b = 0 /\ c = 2)
  \/ (a = 192 /\ b = 88 /\ c = 99) \/ (a = 192 /\ b = 168) \/ (a = 198 /\ 18 <= b <= 19)
  \/ (a = 198 /\ b = 51 /\ c = 100) \/ (a = 203 /\ b = 0 /\ c = 113)
  \/ 224 <= a <= 239 \/ 240 <= a.
Proof.
  unfold special_blocks. cbn [existsb].
  rewrite !in_block_8, in_block_10, in_block_12, in_block_15,
    !in_block_16, !in_block_24, (in_block_4 14), (in_block_4 15) by done.
  rewrite !orb_true_iff, !Z.eqb_eq.
  destruct (octet_split b 64 ltac:(lia)) as [E1 R1], (octet_split b 16 ltac:(lia)) as [E2 R2],
    (octet_split b 2 ltac:(lia)) as [E3 R3], (octet_split a 16 ltac:(lia)) as [E4 R4].
  assert (H10 : 4 * a + b / 64 = 401 <-> a = 100 /\ 64 <= b <= 127).
  { clear -Hb E1 R1. split; lia. }
  assert (H12 : 16 * a + b / 16 = 2753 <-> a = 172 /\ 16 <= b <= 31).
  { clear -Hb E2 R2. split; [|lia]. intros E. assert (a = 172) by lia. lia. }
  assert (H15 : 128 * a + b / 2 = 25353 <-> a = 198 /\ 18 <= b <= 19).
  { clear -Hb E3 R3. split; [|lia]. intros E. assert (a = 198) by lia. lia. }
  assert (H4 : a / 16 = 14 <-> 224 <= a <= 239) by (clear -Ha E4 R4; lia).
  assert (H5 : a / 16 = 15 <-> 240 <= a) by (clear -Ha E4 R4; lia).
  rewrite H10, H12, H15, H4, H5, !two_octets, !three_octets by lia.
  clear. intuition discriminate.
Qed.

(** [classify_ipv4] tests its ranges one after the other. *)
Lemma classify_public_conditions :
  classify_ipv4 [a; b; c; d] = IpSecurityClass.Public <->
  ~ (a = 0 /\ b = 0 /\ c = 0 /\ d = 0) /\ a <> 127
  /\ ~ (a = 10 \/ (a = 172 /\ 16 <= b <= 31) \/ (a = 192 /\ b = 168))
  /\ ~ (a = 169 /\ b = 254) /\ ~ (224 <= a <= 239) /\ ~ (a = 100 /\ 64 <= b <= 127)
  /\ ~ (a = 0 \/ (a = 192 /\ b = 0 /\ c = 0) \/ (a = 192 /\ b = 0 /\ c = 2)
        \/ (a = 192 /\ b = 88 /\ c = 99) \/ (a = 198 /\ 18 <= b <= 19)
        \/ (a = 198 /\ b = 51 /\ c = 100) \/ (a = 203 /\ b = 0 /\ c = 113) \/ 240 <= a).
Proof.
  clear. unfold classify_ipv4, in_range. cbn [octet nth].
  assert (E : (a =? 198) && ((b =? 18) || (b =? 19)) = true <-> a = 198 /\ 18 <= b <= 19).
  { rewrite andb_true_iff, orb_true_iff, !Z.eqb_eq. lia. }
  assert (Hif : forall (cond : bool) (P Q : Prop) (x y : IpSecurityClass.t),
    (cond = true <-> P) -> x <> IpSecurityClass.Public -> (y = IpSecurityClass.Public <-> Q) ->
    (if cond then x else y) = IpSecurityClass.Public <-> ~ P /\ Q).
  { intros [] P Q x y HP Hx HQ; [|rewrite HQ; intuition done]. intuition. }
  repeat (apply Hif;
    [rewrite ?orb_true_iff, ?andb_true_iff, ?Z.eqb_eq, ?Z.leb_le, ?E; clear; intuition | done |]).
  match goal with |- (if ?cond then _ else _) = _ <-> ~ ?P =>
    assert (HP : cond = true <-> P); [|destruct cond; intuition discriminate] end.
  rewrite !orb_true_iff, E, !andb_true_iff, !Z.eqb_eq, !Z.leb_le. clear. intuition.
Qed.
End Blocks.

Definition is_octet (o : Z) : Prop := 0 <= o < 256.

Lemma ipv4_public_blocks a b c d :
  is_octet a -> is_octet b -> is_octet c -> is_octet d ->
  classify_ipv4 [a; b; c; d] = IpSecurityClass.Public
  <-> existsb (in_block [a; b; c; d]) special_blocks = false.
Proof.
  unfold is_octet. intros Ha Hb Hc Hd. rewrite classify_public_conditions.
  rewrite <- not_true_iff_false, (special_conditions a b c d) by done. intuition lia.
Qed.

(** ** Resolution *)
Section Resolution.
Context {U : UrlLib} (sha256 : list Z -> list Z).
Notation Destination := (CanonicalDestination.t U).
Implicit Types (approved current dest : Destination).

(** Why an address is allowed on a port under a grant, and the class it gives. *)
Definition allowed_as (grant : option LocalOriginGrant.t) (port : Z)
    (class : ResolvedDestinationClass.t) (address : IpAddr.t) : Prop :=
  (grant = None /\ classify_ip address = IpSecurityClass.Public
   /\ class = ResolvedDestinationClass.Public)
  \/ (exists g, grant = Some g /\ LocalOriginGrant.exact_loopback_port g = port
      /\ classify_ip address = IpSecurityClass.Loopback
      /\ class = ResolvedDestinationClass.ExactLoopback).

Lemma ensure_address_allowed_iff address port grant class :
  ensure_address_allowed address port grant = Ok class <-> allowed_as grant port class address.
Proof.
  unfold ensure_address_allowed, allowed_as.
  destruct (bool_decide (classify_ip address = IpSecurityClass.Public)) eqn:Hp.
  - apply bool_decide_eq_true in Hp. rewrite Hp. destruct grant as [g|]; naive_solver.
  - apply bool_decide_eq_false in Hp.
    destruct (bool_decide (classify_ip address = IpSecurityClass.Loopback)) eqn:Hl; simpl.
    + apply bool_decide_eq_true in Hl. rewrite Hl. destruct grant as [g|]; [|naive_solver].
      destruct (Z.eqb_spec (LocalOriginGrant.exact_loopback_port g) port); naive_solver.
    + apply bool_decide_eq_false in Hl. naive_solver.
Qed.

Lemma class_of_addresses_aux port grant l seen r :
  for_fold (fun seen address =>
    class ← ensure_address_allowed address port grant;
    if match seen with Some existing => negb (bool_decide (existing = class)) | None => false end
    then Err (NetworkPolicyError.blocked
           (lit "Destination DNS records span multiple address classes."))
    else Ok (Some class)) seen l = Ok r ->
  match r with
  | Some class => Forall (allowed_as grant port class) l /\ (seen = None \/ seen = Some class)
  | None => l = [] /\ seen = None
  end.
Proof.
  revert seen. induction l as [|a l IH]; simpl; intros seen H.
  { injection H as <-. destruct seen; [|done]. split; [constructor | by right]. }
  apply bind_Ok in H as (seen' & Ha & H). apply bind_Ok in Ha as (class & Ha & Hs).
  apply ensure_address_allowed_iff in Ha. apply IH in H.
  assert (seen' = Some class /\ (seen = None \/ seen = Some class)) as [-> Hseen].
  { destruct seen as [existing|]; [|naive_solver].
    destruct (bool_decide (existing = class)) eqn:He; [|done].
    apply bool_decide_eq_true in He. naive_solver. }
  destruct r as [c|]; [|naive_solver]. destruct H as [Hall [?|?]]; [done|]. simplify_eq.
  split; [by constructor | done].
Qed.

Lemma finish_resolution_Ok canonical addresses dest :
  finish_resolution sha256 canonical addresses = Ok dest ->
  CanonicalDestination.canonical_origin dest = CanonicalParts.canonical_origin canonical
  /\ CanonicalDestination.host dest = CanonicalParts.host canonical
  /\ CanonicalDestination.port dest = CanonicalParts.port canonical
  /\ CanonicalDestination.transport dest = CanonicalParts.transport canonical
  /\ CanonicalDestination.local_origin_grant dest = CanonicalParts.local_origin_grant canonical
  /\ CanonicalDestination.resolved_addresses dest = ip_set addresses
  /\ ip_set addresses <> []
  /\ Forall (allowed_as (CanonicalParts.local_origin_grant canonical)
              (CanonicalParts.port canonical) (CanonicalDestination.destination_class dest))
       (ip_set addresses).
Proof.
  unfold finish_resolution. intros H. apply bind_Ok in H as ([] & Hne%guard_not_Ok & H).
  apply bind_Ok in H as (r & Hr & H). apply class_of_addresses_aux in Hr.
  apply bind_Ok in H as (class & ->%or_panic_Ok & [= <-]). destruct Hr as [Hall _]. simpl.
  repeat (split; [done|]). split; [|done]. intros E. by rewrite E in Hne.
Qed.

Lemma canonicalize_Ok endpoint transport grant parts :
  canonicalize_destination endpoint transport grant = Ok parts ->
  CanonicalParts.transport parts = transport
  /\ CanonicalParts.local_origin_grant parts = grant
  /\ is_metadata_hostname (CanonicalParts.host parts) = false
  /\ CanonicalParts.host parts <> lit "localhost"
  /\ ends_with (lit ".localhost") (CanonicalParts.host parts) = false
  /\ CanonicalParts.port parts <> 0
  /\ (forall g, grant = Some g -> LocalOriginGrant.exact_loopback_port g = CanonicalParts.port parts).
Proof.
  unfold canonicalize_destination. intros H. inv_res. subst. split_bools. simpl.
  repeat (split; [done|]). split.
  { intros E. rename select (str_eqb _ (lit "localhost") = false) into Hl.
    by rewrite E, str_eqb_refl in Hl. }
  split; [done|]. split; [by apply Z.eqb_neq|]. intros g ->.
  rename select (_ || negb _ = false) into Hg. apply orb_false_iff in Hg as [_ Hg].
  by apply negb_false_iff, Z.eqb_eq in Hg.
Qed.

Lemma resolve_with_Ok deadline dns endpoint transport grant dest :
  resolve_with sha256 deadline dns endpoint transport grant = Ok dest ->
  exists parts answers,
    canonicalize_destination endpoint transport grant = Ok parts
    /\ dns (CanonicalParts.host parts) (CanonicalParts.port parts) = Dns.Answers answers
    /\ finish_resolution sha256 parts answers = Ok dest.
Proof.
  unfold resolve_with. intros (parts & Hp & (answers & Ha & H)%bind_Ok)%bind_Ok.
  exists parts, answers. split; [done|]. split; [|done].
  unfold dns_answers in Ha. by destruct (dns _ _); simplify_eq.
Qed.

Lemma same_binding_addresses approved current :
  ensure_same_policy_binding approved current = Ok tt ->
  CanonicalDestination.canonical_origin current = CanonicalDestination.canonical_origin approved
  /\ CanonicalDestination.transport current = CanonicalDestination.transport approved
  /\ CanonicalDestination.destination_class current
     = CanonicalDestination.destination_class approved
  /\ CanonicalDestination.resolved_addresses current
     = CanonicalDestination.resolved_addresses approved.
Proof.
  unfold ensure_same_policy_binding. intros H%guard_not_Ok. split_bools.
  repeat match goal with H : str_eqb _ _ = true |- _ => apply str_eqb_eq in H end. done.
Qed.

(** ** Properties *)
(** An IPv4 address is public exactly when it lies in none of the special blocks
    (private, loopback, link-local, shared, documentation, benchmarking, multicast and
    reserved ranges), and writing it as an IPv4-mapped IPv6 address does not change its
    class. *)
Theorem public_addresses_avoid_special_blocks a b c d :
  is_octet a -> is_octet b -> is_octet c -> is_octet d ->
  (classify_ip (IpAddr.V4 [a; b; c; d]) = IpSecurityClass.Public
   <-> existsb (in_block [a; b; c; d]) special_blocks = false)
  /\ classify_ip (IpAddr.V6 [0; 0; 0; 0; 0; 65535; 256 * a + b; 256 * c + d])
    = classify_ip (IpAddr.V4 [a; b; c; d]).
Proof.
  intros Ha Hb Hc Hd. split; [by apply ipv4_public_blocks|].
  unfold classify_ip, classify_ipv6, to_ipv4_mapped. cbn [octet map seq nth forallb].
  change (0 =? 65535) with false. cbn [andb Z.eqb Z.land Pos.eqb]. unfold is_octet in *.
  by rewrite !(Z.mul_comm 256), !Z.div_add_l, !(Z.add_comm (_ * 256)), !Z.mod_add,
    !Z.div_small, !Z.mod_small, !Z.add_0_r by lia.
Qed.

(** C18: a destination that resolves has a routable port and a host that is neither a
    metadata service nor localhost; its addresses are exactly the resolver's answers, at
    least one; and either there is no local grant and every one of them is public, or
    the grant is for exactly this port and every one is a loopback address. A name that
    resolves to a private address, alone or among public ones, is refused. *)
Theorem resolved_destination_is_allowed deadline dns endpoint transport grant dest :
  resolve_with sha256 deadline dns endpoint transport grant = Ok dest ->
  exists answers,
    dns (CanonicalDestination.host dest) (CanonicalDestination.port dest) = Dns.Answers answers
    /\ (forall address, address ∈ CanonicalDestination.resolved_addresses dest
                        <-> address ∈ answers)
    /\ CanonicalDestination.resolved_addresses dest <> []
    /\ Forall (allowed_as grant (CanonicalDestination.port dest)
                (CanonicalDestination.destination_class dest))
         (CanonicalDestination.resolved_addresses dest)
    /\ CanonicalDestination.port dest <> 0
    /\ is_metadata_hostname (CanonicalDestination.host dest) = false
    /\ CanonicalDestination.host dest <> lit "localhost".
Proof.
  intros (parts & answers & Hp & Hd & Hf)%resolve_with_Ok.
  apply canonicalize_Ok in Hp as (_ & <- & Hmeta & Hlocal & _ & Hport & _).
  apply finish_resolution_Ok in Hf as (_ & Eh & Ep & _ & _ & Ea & Hne & Hall).
  rewrite Eh, Ep, Ea. exists answers. repeat (split; [done|]).
  split; [intros address; apply elem_of_ip_set|]. by repeat (split; [done|]).
Qed.

(** Neither the order of the resolver's answers nor their repetition
    matters: two resolvers that answer the same set of addresses give the same
    destination, fingerprint included. *)
Theorem answer_order_is_irrelevant deadline dns dns' endpoint transport grant :
  (forall host port, exists answers answers',
     dns host port = Dns.Answers answers /\ dns' host port = Dns.Answers answers'
     /\ forall address, address ∈ answers <-> address ∈ answers') ->
  resolve_with sha256 deadline dns endpoint transport grant
  = resolve_with sha256 deadline dns' endpoint transport grant.
Proof.
  intros Hdns. unfold resolve_with.
  destruct (canonicalize_destination endpoint transport grant) as [parts| |]; [|done..].
  rewrite !Ok_bind.
  destruct (Hdns (CanonicalParts.host parts) (CanonicalParts.port parts)) as (l & l' & -> & -> & H).
  simpl. unfold finish_resolution. by rewrite (ip_set_canonical l l' H).
Qed.

(** C22: an approved destination does not move. Whenever a revalidation, a redirect or a
    browser navigation is accepted, the resolver answered exactly the set of addresses
    that was approved, and origin, transport and address class are the approved ones; a
    rebound name is refused. *)
Theorem approved_destination_is_pinned dns approved url current :
  revalidate_destination sha256 dns approved = Ok current
  \/ validate_redirect_destination sha256 dns approved url = Ok current
  \/ validate_browser_navigation_blocking sha256 dns approved url = Ok current ->
  CanonicalDestination.canonical_origin current = CanonicalDestination.canonical_origin approved
  /\ CanonicalDestination.transport current = CanonicalDestination.transport approved
  /\ CanonicalDestination.destination_class current
     = CanonicalDestination.destination_class approved
  /\ exists answers,
    dns (CanonicalDestination.host current) (CanonicalDestination.port current)
      = Dns.Answers answers
    /\ forall address, address ∈ answers
         <-> address ∈ CanonicalDestination.resolved_addresses approved.
Proof.
  intros H.
  assert (exists deadline endpoint transport grant,
    resolve_with sha256 deadline dns endpoint transport grant = Ok current
    /\ ensure_same_policy_binding approved current = Ok tt)
    as (deadline & endpoint & transport & grant & Hres & Hsame).
  { destruct H as [H|[H|H]];
      unfold revalidate_destination, validate_redirect_destination,
        validate_browser_navigation_blocking, resolve_destination,
        resolve_destination_blocking in H; inv_res; subst;
      match goal with H : ensure_same_policy_binding _ _ = Ok ?u |- _ => destruct u end; eauto 10. }
  apply same_binding_addresses in Hsame as (Eo & Et & Ec & Ea).
  repeat (split; [done|]).
  apply resolve_with_Ok in Hres as (parts & answers & _ & Hd & Hf).
  apply finish_resolution_Ok in Hf as (_ & Eh & Ep & _ & _ & Er & _).
  exists answers. rewrite Eh, Ep. split; [done|]. intros address.
  by rewrite <- Ea, Er, elem_of_ip_set.
Qed.

(** For a resolved destination the connected peer is accepted exactly when
    its port is the destination's and its address one of those resolved; a
    socket that does not tell its peer is refused. *)
Theorem connected_peer_is_resolved deadline dns endpoint transport grant dest ip port :
  resolve_with sha256 deadline dns endpoint transport grant = Ok dest ->
  (validate_connected_peer dest (Some (ip, port)) = Ok tt
   <-> port = CanonicalDestination.port dest
       /\ ip ∈ CanonicalDestination.resolved_addresses dest)
  /\ is_err (validate_connected_peer dest None) = true.
Proof.
  intros (parts & answers & Hp & _ & Hf)%resolve_with_Ok. split; [|done].
  apply finish_resolution_Ok in Hf as (_ & _ & Ep & _ & Eg & Ea & _ & Hall).
  unfold validate_connected_peer. cbn [ok_or]. rewrite Ok_bind. split.
  - intros H. inv_res. split_bools. by split; [apply Z.eqb_eq|].
  - intros [-> Hin]. rewrite Z.eqb_refl, bool_decide_true by done. simpl.
    rewrite Ea in Hin. rewrite List.Forall_forall in Hall.
    apply list_elem_of_In, Hall, ensure_address_allowed_iff in Hin.
    rewrite Ep, Eg. by rewrite Hin.
Qed.
End Resolution.

(** ** A concrete URL library *)
Module PlainUrl.
(** URLs of a scheme and a host name, nothing else. *)
#[export] Instance lib : UrlLib := {|
  Url := str * str;
  url_parse := fun s => ok_or (lit "relative URL without a base") (split_once_str (lit "://") s);
  username := fun _ => [];
  password := fun _ => None;
  fragment := fun _ => None;
  path := fun _ => lit "/";
  scheme := fst;
  host_str := fun u => Some u.2;
  url_port := fun _ => None;
  port_or_known_default := fun u => Some (if str_eqb u.1 (lit "https") then 443 else 80);
  clear_port := Some;
  url_as_str := fun u => u.1 ++ lit "://" ++ u.2;
  origin := fun u => u.1 ++ lit "://" ++ u.2;
  ip_parse := fun _ => None;
  ip_to_string := fun a => match a with IpAddr.V4 l | IpAddr.V6 l => l end;
|}.
Definition digest (bytes : list Z) : list Z := bytes.
Definition one_one : IpAddr.t := IpAddr.V4 [1; 1; 1; 1].
Definition nine : IpAddr.t := IpAddr.V4 [9; 9; 9; 9].
Definition dns (host : str) (port : Z) : Dns.t := Dns.Answers [nine; one_one; nine].
Definition resolved : policy_res (CanonicalDestination.t lib) :=
  resolve_destination digest dns (lit "https://example.com")
    DestinationTransport.NativeBrowser None.
End PlainUrl.

Section NetworkWitnesses.
Import PlainUrl.

Lemma public_addresses_avoid_special_blocks_witness :
  classify_ip (IpAddr.V6 [0; 0; 0; 0; 0; 65535; 256 * 10 + 0; 256 * 0 + 1])
  = classify_ip (IpAddr.V4 [10; 0; 0; 1]).
Proof.
  apply (public_addresses_avoid_special_blocks 10 0 0 1); unfold is_octet; lia.
Defined.

Lemma resolved_destination_is_allowed_witness :
  exists dest, resolved = Ok dest /\ CanonicalDestination.port dest <> 0.
Proof.
  eexists. split; [vm_compute; reflexivity|].
  edestruct (resolved_destination_is_allowed digest (lit "5 second") dns
    (lit "https://example.com") DestinationTransport.NativeBrowser None)
    as (answers & _ & _ & _ & _ & Hport & _); [vm_compute; reflexivity | exact Hport].
Defined.

Lemma answer_order_is_irrelevant_witness :
  resolve_with digest [] dns (lit "https://example.com") DestinationTransport.NativeBrowser None
  = resolve_with digest [] (fun _ _ => Dns.Answers [one_one; nine]) (lit "https://example.com")
      DestinationTransport.NativeBrowser None.
Proof.
  apply (answer_order_is_irrelevant digest). intros host port.
  exists [nine; one_one; nine], [one_one; nine]. split; [reflexivity|]. split; [reflexivity|].
  set_solver.
Defined.

Lemma approved_destination_is_pinned_witness :
  exists dest current, resolved = Ok dest
    /\ revalidate_destination digest dns dest = Ok current
    /\ CanonicalDestination.canonical_origin current
       = CanonicalDestination.canonical_origin dest.
Proof.
  eexists. eexists. split; [vm_compute; reflexivity|]. split; [vm_compute; reflexivity|].
  eapply (approved_destination_is_pinned digest dns _ []). left. vm_compute. reflexivity.
Defined.

Lemma connected_peer_is_resolved_witness :
  exists dest, resolved = Ok dest /\ validate_connected_peer dest (Some (nine, 443)) = Ok tt.
Proof.
  eexists. split; [vm_compute; reflexivity|].
  eapply (connected_peer_is_resolved digest (lit "5 second") dns (lit "https://example.com")
    DestinationTransport.NativeBrowser None); [vm_compute; reflexivity|].
  split; [vm_compute; reflexivity | vm_compute; set_solver].
Defined.
End NetworkWitnesses.
