(* ===== verification/P1Contracts.v ===== *)
(** * P1 contracts: the records exchanged with the desktop and remote surfaces

    Models [p1_contracts.rs]: the nine versioned contracts, each a record with
    the validation that its [Deserialize] instance runs before handing it out.
    A JSON value is a parameter ([Value]); [DateTime::parse_from_rfc3339] is a
    parameter of the validations.  The identifier types are those of
    [P0Contracts]; this file's own check of their text, written differently,
    accepts the same identifiers ([p1_id_parse_agrees]).  The work graph's
    validation is in the module [WorkGraph]. *)
From S2P Require Import Prelude RustStr P0Contracts.
Local Open Scope Z_scope.

Notation ObservationId := (opaque_id KObservation).
Notation DesktopActionId := (opaque_id KDesktopAction).
Notation MediaAssetId := (opaque_id KMediaAsset).
Notation RemoteDeviceId := (opaque_id KRemoteDevice).
Notation CapabilityBundleId := (opaque_id KCapabilityBundle).
Notation LearningCandidateId := (opaque_id KLearningCandidate).
Notation WorkGraphId := (opaque_id KWorkGraph).

Definition P1_CONTRACT_VERSION : Z := 1.

(** ** Identifiers: this file's [valid_uuid_suffix] and [p1_id!] *)
Definition p1_valid_uuid_suffix (value : str) : bool :=
  let bytes := as_bytes value in
  Nat.eqb (length bytes) 36
  && (byte_at bytes 8 =? 45) && (byte_at bytes 13 =? 45)
  && (byte_at bytes 18 =? 45) && (byte_at bytes 23 =? 45)
  && forallb (fun '(index, byte) =>
       is_hyphen_index index || is_ascii_digit byte || in_range 97 102 byte) (imap pair bytes)
  && in_range 49 56 (byte_at bytes 14)
  && existsb (Z.eqb (byte_at bytes 19)) [56; 57; 97; 98]
  && existsb (fun byte => is_ascii_hexdigit byte && negb (byte =? 48)) bytes.

Definition p1_id_parse (k : id_kind) (value : str) : res str (opaque_id k) :=
  suffix ← ok_or (invalid_identifier k) (strip_prefix (id_prefix k ++ [95]) value);
  if negb (p1_valid_uuid_suffix suffix) then Err (invalid_identifier k)
  else Ok (OpaqueId value).

Module P1ContractType.
Inductive t : Type :=
| ArtifactWorkbook | ArtifactPresentation | DesktopObservation | DesktopAction
| MediaAsset | RemoteDevice | CapabilityBundle | LearningCandidate | WorkGraph.
End P1ContractType.
#[export] Instance P1ContractType_eq_dec : EqDecision P1ContractType.t.
Proof. solve_decision. Defined.

Module P1EvidenceReference.
Record t {Value : Type} : Type := mk {
  project_id : ProjectId;
  evidence_class : EvidenceClass;
  reference : str;
  task_run_id : option TaskRunId;
  extensions : gmap str Value;
}.
Arguments t : clear implicits.
End P1EvidenceReference.

Module SignatureAlgorithm.
Inductive t : Type := Ed25519.
End SignatureAlgorithm.
#[export] Instance SignatureAlgorithm_eq_dec : EqDecision SignatureAlgorithm.t.
Proof. solve_decision. Defined.

Module SignedEnvelope.
Record t {Value : Type} : Type := mk {
  algorithm : SignatureAlgorithm.t;
  key_id : str;
  payload_sha256 : str;
  signature : str;
  signed_at : str;
  extensions : gmap str Value;
}.
Arguments t : clear implicits.
End SignedEnvelope.

Module ResourceBudgetLimits.
Record t {Value : Type} : Type := mk {
  tokens : Z;
  wall_time_ms : Z;
  memory_bytes : Z;
  processes : Z;
  network_requests : Z;
  tool_calls : Z;
  concurrent_children : Z;
  mutations : Z;
  extensions : gmap str Value;
}.
Arguments t : clear implicits.
End ResourceBudgetLimits.

Module ResourceBudgetUsage.
Record t {Value : Type} : Type := mk {
  tokens : Z;
  wall_time_ms : Z;
  peak_memory_bytes : Z;
  processes : Z;
  network_requests : Z;
  tool_calls : Z;
  peak_concurrent_children : Z;
  mutation_attempts : Z;
  mutations_committed : Z;
  extensions : gmap str Value;
}.
Arguments t : clear implicits.
End ResourceBudgetUsage.

Module ResourceBudgetTelemetry.
Record t {Value : Type} : Type := mk {
  limits : ResourceBudgetLimits.t Value;
  usage : ResourceBudgetUsage.t Value;
  sampled_at : str;
  extensions : gmap str Value;
}.
Arguments t : clear implicits.
End ResourceBudgetTelemetry.

Module WorkbookDateSystem.
Inductive t : Type := Excel1900 | Excel1904.
End WorkbookDateSystem.
#[export] Instance WorkbookDateSystem_eq_dec : EqDecision WorkbookDateSystem.t.
Proof. solve_decision. Defined.

Module WorkbookWorksheet.
Record t {Value : Type} : Type := mk {
  sheet_id : str;
  project_id : ProjectId;
  name : str;
  row_count : Z;
  column_count : Z;
  extensions : gmap str Value;
}.
Arguments t : clear implicits.
End WorkbookWorksheet.

Module ArtifactWorkbook.
Record t {Value : Type} : Type := mk {
  schema_version : Z;
  contract_type : P1ContractType.t;
  project_id : ProjectId;
  task_id : TaskId;
  task_run_id : TaskRunId;
  artifact_id : ArtifactId;
  revision : Z;
  locale : str;
  date_system : WorkbookDateSystem.t;
  worksheets : list (WorkbookWorksheet.t Value);
  evidence : list (P1EvidenceReference.t Value);
  extensions : gmap str Value;
}.
Arguments t : clear implicits.
End ArtifactWorkbook.

Module PresentationAspectRatio.
Inductive t : Type := Widescreen | Standard.
End PresentationAspectRatio.
#[export] Instance PresentationAspectRatio_eq_dec : EqDecision PresentationAspectRatio.t.
Proof. solve_decision. Defined.

Module PresentationSlide.
Record t {Value : Type} : Type := mk {
  slide_id : str;
  project_id : ProjectId;
  position : Z;
  layout_id : str;
  extensions : gmap str Value;
}.
Arguments t : clear implicits.
End PresentationSlide.

Module ArtifactPresentation.
Record t {Value : Type} : Type := mk {
  schema_version : Z;
  contract_type : P1ContractType.t;
  project_id : ProjectId;
  task_id : TaskId;
  task_run_id : TaskRunId;
  artifact_id : ArtifactId;
  revision : Z;
  aspect_ratio : PresentationAspectRatio.t;
  slides : list (PresentationSlide.t Value);
  evidence : list (P1EvidenceReference.t Value);
  extensions : gmap str Value;
}.
Arguments t : clear implicits.
End ArtifactPresentation.

Module DesktopApplication.
Record t {Value : Type} : Type := mk {
  bundle_id : str;
  process_id : Z;
  name : str;
  extensions : gmap str Value;
}.
Arguments t : clear implicits.
End DesktopApplication.

Module DesktopWindow.
Record t {Value : Type} : Type := mk {
  window_ref : str;
  title : str;
  extensions : gmap str Value;
}.
Arguments t : clear implicits.
End DesktopWindow.

Module DesktopElementReference.
Record t {Value : Type} : Type := mk {
  element_ref : str;
  project_id : ProjectId;
  role : str;
  secure : bool;
  expires_at : str;
  extensions : gmap str Value;
}.
Arguments t : clear implicits.
End DesktopElementReference.

Module DesktopObservation.
Record t {Value : Type} : Type := mk {
  schema_version : Z;
  contract_type : P1ContractType.t;
  project_id : ProjectId;
  task_id : TaskId;
  task_run_id : TaskRunId;
  observation_id : ObservationId;
  revision : Z;
  observed_at : str;
  application : DesktopApplication.t Value;
  window : DesktopWindow.t Value;
  elements : list (DesktopElementReference.t Value);
  evidence : list (P1EvidenceReference.t Value);
  extensions : gmap str Value;
}.
Arguments t : clear implicits.
End DesktopObservation.

Module DesktopActionKind.
Inductive t : Type :=
| Focus | Press | Select | Type_ | InvokeMenu | Scroll | DragDrop | ChooseFile
| AppleEvent.
End DesktopActionKind.
#[export] Instance DesktopActionKind_eq_dec : EqDecision DesktopActionKind.t.
Proof. solve_decision. Defined.

Module DesktopActionTarget.
Record t {Value : Type} : Type := mk {
  project_id : ProjectId;
  element_ref : option str;
  extensions : gmap str Value;
}.
Arguments t : clear implicits.
End DesktopActionTarget.

Module DesktopPostconditionKind.
Inductive t : Type := ElementValue | ElementState | WindowState | FileHash | ApplicationState.
End DesktopPostconditionKind.
#[export] Instance DesktopPostconditionKind_eq_dec : EqDecision DesktopPostconditionKind.t.
Proof. solve_decision. Defined.

Module DesktopExpectedPostcondition.
Record t {Value : Type} : Type := mk {
  kind : DesktopPostconditionKind.t;
  description : str;
  evidence_class : EvidenceClass;
  parameters : gmap str Value;
  extensions : gmap str Value;
}.
Arguments t : clear implicits.
End DesktopExpectedPostcondition.

Module DesktopAction.
Record t {Value : Type} : Type := mk {
  schema_version : Z;
  contract_type : P1ContractType.t;
  project_id : ProjectId;
  task_id : TaskId;
  task_run_id : TaskRunId;
  action_id : DesktopActionId;
  observation_id : ObservationId;
  observation_revision : Z;
  action_kind : DesktopActionKind.t;
  application_bundle_id : str;
  target : DesktopActionTarget.t Value;
  approval_id : option str;
  requested_at : str;
  arguments : gmap str Value;
  expected_postcondition : DesktopExpectedPostcondition.t Value;
  evidence : list (P1EvidenceReference.t Value);
  extensions : gmap str Value;
}.
Arguments t : clear implicits.
End DesktopAction.

Module MediaKind.
Inductive t : Type := Audio | Image | Video.
End MediaKind.
#[export] Instance MediaKind_eq_dec : EqDecision MediaKind.t.
Proof. solve_decision. Defined.

Module MediaSourceKind.
Inductive t : Type :=
| Microphone | VoiceMessage | Screenshot | Clipboard | Camera | ProjectFile | Generated.
End MediaSourceKind.
#[export] Instance MediaSourceKind_eq_dec : EqDecision MediaSourceKind.t.
Proof. solve_decision. Defined.

Module MediaSource.
Record t {Value : Type} : Type := mk {
  kind : MediaSourceKind.t;
  project_id : ProjectId;
  reference : str;
  extensions : gmap str Value;
}.
Arguments t : clear implicits.
End MediaSource.

Module MediaRelationshipKind.
Inductive t : Type := Source | Derivative | Transcript | Thumbnail.
End MediaRelationshipKind.
#[export] Instance MediaRelationshipKind_eq_dec : EqDecision MediaRelationshipKind.t.
Proof. solve_decision. Defined.

Module MediaRelationship.
Record t {Value : Type} : Type := mk {
  media_asset_id : MediaAssetId;
  project_id : ProjectId;
  relationship : MediaRelationshipKind.t;
  extensions : gmap str Value;
}.
Arguments t : clear implicits.
End MediaRelationship.

Module RetentionMode.
Inductive t : Type := Task | Project | Until.
End RetentionMode.
#[export] Instance RetentionMode_eq_dec : EqDecision RetentionMode.t.
Proof. solve_decision. Defined.

Module MediaRetentionPolicy.
Record t {Value : Type} : Type := mk {
  mode : RetentionMode.t;
  expires_at : option str;
  extensions : gmap str Value;
}.
Arguments t : clear implicits.
End MediaRetentionPolicy.

Module RedactionState.
Inductive t : Type := NotRequired | Required | Applied.
End RedactionState.
#[export] Instance RedactionState_eq_dec : EqDecision RedactionState.t.
Proof. solve_decision. Defined.

Module MediaRedactionPolicy.
Record t {Value : Type} : Type := mk {
  state : RedactionState.t;
  categories : list str;
  extensions : gmap str Value;
}.
Arguments t : clear implicits.
End MediaRedactionPolicy.

Module ProviderRoutingMode.
Inductive t : Type := LocalOnly | ApprovedProviders.
End ProviderRoutingMode.
#[export] Instance ProviderRoutingMode_eq_dec : EqDecision ProviderRoutingMode.t.
Proof. solve_decision. Defined.

Module MediaProviderRoutingPolicy.
Record t {Value : Type} : Type := mk {
  mode : ProviderRoutingMode.t;
  provider_ids : list str;
  extensions : gmap str Value;
}.
Arguments t : clear implicits.
End MediaProviderRoutingPolicy.

Module MediaAsset.
Record t {Value : Type} : Type := mk {
  schema_version : Z;
  contract_type : P1ContractType.t;
  project_id : ProjectId;
  task_id : option TaskId;
  task_run_id : option TaskRunId;
  media_asset_id : MediaAssetId;
  media_kind : MediaKind.t;
  mime_type : str;
  sha256 : str;
  byte_length : Z;
  created_at : str;
  source : MediaSource.t Value;
  retention_policy : MediaRetentionPolicy.t Value;
  redaction_policy : MediaRedactionPolicy.t Value;
  provider_routing_policy : MediaProviderRoutingPolicy.t Value;
  related_assets : list (MediaRelationship.t Value);
  evidence : list (P1EvidenceReference.t Value);
  extensions : gmap str Value;
}.
Arguments t : clear implicits.
End MediaAsset.

Module RemoteDeviceScope.
Inductive t : Type :=
| CreateTask | ViewTask | SteerTask | StopTask | AnswerClarification
| ApproveBoundedAction | RequestArtifact.
End RemoteDeviceScope.
#[export] Instance RemoteDeviceScope_eq_dec : EqDecision RemoteDeviceScope.t.
Proof. solve_decision. Defined.

Module RemoteDevice.
Record t {Value : Type} : Type := mk {
  schema_version : Z;
  contract_type : P1ContractType.t;
  remote_device_id : RemoteDeviceId;
  label : str;
  public_key : str;
  allowed_project_ids : list ProjectId;
  scopes : list RemoteDeviceScope.t;
  paired_at : str;
  expires_at : str;
  revoked_at : option str;
  evidence : list (P1EvidenceReference.t Value);
  signature : SignedEnvelope.t Value;
  extensions : gmap str Value;
}.
Arguments t : clear implicits.
End RemoteDevice.

Module CapabilityKind.
Inductive t : Type :=
| File | Network | Connector | Model | Executable | Schedule | ChildAgent | Mutation.
End CapabilityKind.
#[export] Instance CapabilityKind_eq_dec : EqDecision CapabilityKind.t.
Proof. solve_decision. Defined.

Module BundlePublisher.
Record t {Value : Type} : Type := mk {
  id : str;
  name : str;
  extensions : gmap str Value;
}.
Arguments t : clear implicits.
End BundlePublisher.

Module BundleScopeKind.
Inductive t : Type := Project | Global.
End BundleScopeKind.
#[export] Instance BundleScopeKind_eq_dec : EqDecision BundleScopeKind.t.
Proof. solve_decision. Defined.

Module BundleScope.
Record t {Value : Type} : Type := mk {
  kind : BundleScopeKind.t;
  project_ids : list ProjectId;
  extensions : gmap str Value;
}.
Arguments t : clear implicits.
End BundleScope.

Module RequestedCapabilityGrant.
Record t {Value : Type} : Type := mk {
  capability : CapabilityKind.t;
  scope : str;
  reason : str;
  extensions : gmap str Value;
}.
Arguments t : clear implicits.
End RequestedCapabilityGrant.

Module CapabilityBundle.
Record t {Value : Type} : Type := mk {
  schema_version : Z;
  contract_type : P1ContractType.t;
  capability_bundle_id : CapabilityBundleId;
  name : str;
  package_version : str;
  publisher : BundlePublisher.t Value;
  scope : BundleScope.t Value;
  capabilities : list CapabilityKind.t;
  requested_grants : list (RequestedCapabilityGrant.t Value);
  payload_sha256 : str;
  evidence : list (P1EvidenceReference.t Value);
  signature : SignedEnvelope.t Value;
  extensions : gmap str Value;
}.
Arguments t : clear implicits.
End CapabilityBundle.

Module LearningCandidateKind.
Inductive t : Type := Procedure | Preference | Correction | VerificationRule | FailureAvoidance.
End LearningCandidateKind.
#[export] Instance LearningCandidateKind_eq_dec : EqDecision LearningCandidateKind.t.
Proof. solve_decision. Defined.

Module LearningProposedScope.
Inductive t : Type := Project | GlobalWithConfirmation.
End LearningProposedScope.
#[export] Instance LearningProposedScope_eq_dec : EqDecision LearningProposedScope.t.
Proof. solve_decision. Defined.

Module LearningCandidateStatus.
Inductive t : Type := Proposed | Accepted | Rejected | Postponed.
End LearningCandidateStatus.
#[export] Instance LearningCandidateStatus_eq_dec : EqDecision LearningCandidateStatus.t.
Proof. solve_decision. Defined.

Module LearningSource.
Record t {Value : Type} : Type := mk {
  project_id : ProjectId;
  task_id : TaskId;
  task_run_id : TaskRunId;
  evidence : list (P1EvidenceReference.t Value);
  extensions : gmap str Value;
}.
Arguments t : clear implicits.
End LearningSource.

Module LearningProposedDiff.
Record t {Value : Type} : Type := mk {
  base : str;
  proposed : str;
  changed_fields : list str;
  extensions : gmap str Value;
}.
Arguments t : clear implicits.
End LearningProposedDiff.

Module LearningCandidate.
Record t {Value : Type} : Type := mk {
  schema_version : Z;
  contract_type : P1ContractType.t;
  project_id : ProjectId;
  learning_candidate_id : LearningCandidateId;
  candidate_version : Z;
  candidate_kind : LearningCandidateKind.t;
  proposed_scope : LearningProposedScope.t;
  summary : str;
  proposed_diff : LearningProposedDiff.t Value;
  status : LearningCandidateStatus.t;
  source_tasks : list (LearningSource.t Value);
  evidence : list (P1EvidenceReference.t Value);
  extensions : gmap str Value;
}.
Arguments t : clear implicits.
End LearningCandidate.

Module WorkGraphNodeKind.
Inductive t : Type := Parent | Specialist | Join | Checkpoint | Retry | Synthesis.
End WorkGraphNodeKind.
#[export] Instance WorkGraphNodeKind_eq_dec : EqDecision WorkGraphNodeKind.t.
Proof. solve_decision. Defined.

Module WorkGraphNode.
Record t {Value : Type} : Type := mk {
  node_id : str;
  kind : WorkGraphNodeKind.t;
  project_id : ProjectId;
  depends_on : list str;
  child_run_id : option ChildRunId;
  extensions : gmap str Value;
}.
Arguments t : clear implicits.
End WorkGraphNode.

Module WorkGraph.
Record t {Value : Type} : Type := mk {
  schema_version : Z;
  contract_type : P1ContractType.t;
  project_id : ProjectId;
  task_id : TaskId;
  task_run_id : TaskRunId;
  work_graph_id : WorkGraphId;
  revision : Z;
  nodes : list (WorkGraphNode.t Value);
  max_concurrent_children : Z;
  parent_owns_mutations : bool;
  resource_budget : ResourceBudgetTelemetry.t Value;
  evidence : list (P1EvidenceReference.t Value);
  extensions : gmap str Value;
}.
Arguments t : clear implicits.
End WorkGraph.

(** ** Shared validations *)
Definition validate_header (schema_version : Z) (actual expected : P1ContractType.t)
  : res str unit :=
  if negb (schema_version =? P1_CONTRACT_VERSION)
  then Err (lit "unsupported P1 contract version")
  else if negb (bool_decide (actual = expected))
  then Err (lit "P1 contract type does not match its schema")
  else Ok tt.

Definition validate_string (value : str) (min max : Z) (label : string) : res str unit :=
  let value := trim value in
  if (str_len value <? min) || (max <? str_len value)
  then Err (lit "invalid " ++ lit label) else Ok tt.
Arguments validate_string value min max label%_string.

Definition validate_lower_hex (value : str) (bytes : Z) (label : string) : res str unit :=
  if negb (str_len value =? bytes * 2) || negb (forallb is_lower_hex (as_bytes value))
  then Err (lit "invalid " ++ lit label) else Ok tt.
Arguments validate_lower_hex value bytes label%_string.

Definition reject (message : string) : str := lit message.
Arguments reject message%_string.

Definition P1EvidenceReference_validate {Value} (item : P1EvidenceReference.t Value)
  : res str unit :=
  validate_string (P1EvidenceReference.reference item) 1 1024 "evidence reference".

Definition validate_evidence_project {Value} (project_id : ProjectId)
    (evidence : list (P1EvidenceReference.t Value)) : res str unit :=
  if Nat.ltb 4096 (length evidence) then Err (reject "too many evidence references")
  else if existsb (fun item =>
      negb (bool_decide (P1EvidenceReference.project_id item = project_id))) evidence
  then Err (reject "cross-project evidence reference")
  else for_each P1EvidenceReference_validate evidence.

(** [a.split('/')] has exactly two valid parts. *)
Definition valid_mime_part (value : str) : bool :=
  negb (is_empty value)
  && forallb (fun byte => is_ascii_alphanumeric byte || existsb (Z.eqb byte) (lit "!#$&^_.+-"))
       (as_bytes value).
Definition valid_mime_type (value : str) : bool :=
  match split_char 47 value with
  | [type; subtype] => valid_mime_part type && valid_mime_part subtype
  | _ => false
  end.

Definition valid_package_version (value : str) : bool :=
  let '(core, suffix) :=
    match split_once_char 45 value with
    | Some (core, suffix) => (core, Some suffix)
    | None => (value, None)
    end in
  let valid_core :=
    match split_char 46 core with
    | [a; b; c] =>
        forallb (fun part => negb (is_empty part) && forallb is_ascii_digit (as_bytes part))
          [a; b; c]
    | _ => false
    end in
  valid_core
  && match suffix with
     | None => true
     | Some suffix =>
         negb (is_empty suffix)
         && forallb (fun byte => is_ascii_alphanumeric byte || existsb (Z.eqb byte) [46; 45])
              (as_bytes suffix)
     end.

Section Validation.
Context {Value : Type} (parse_from_rfc3339 : str -> bool).
Notation Evidence := (P1EvidenceReference.t Value).

Definition validate_timestamp (value : str) : res str unit :=
  if negb (ends_with (lit "Z") value) || negb (parse_from_rfc3339 value)
  then Err (reject "timestamp must be a valid UTC RFC 3339 value") else Ok tt.

(** [if let Some(value) = .. { validate(value)?; }] *)
Definition validate_some {A} (f : A -> res str unit) (o : option A) : res str unit :=
  match o with Some a => f a | None => Ok tt end.

Definition SignedEnvelope_validate (e : SignedEnvelope.t Value) : res str unit :=
  _ ← validate_string (SignedEnvelope.key_id e) 1 512 "signature key identifier";
  _ ← validate_lower_hex (SignedEnvelope.payload_sha256 e) 32 "signed payload digest";
  _ ← validate_lower_hex (SignedEnvelope.signature e) 64 "Ed25519 signature";
  validate_timestamp (SignedEnvelope.signed_at e).

Definition within_budget (limits : ResourceBudgetLimits.t Value)
    (usage : ResourceBudgetUsage.t Value) : bool :=
  negb (negb (in_range 1 8 (ResourceBudgetLimits.concurrent_children limits))
    || (8 <? ResourceBudgetUsage.peak_concurrent_children usage)
    || (ResourceBudgetLimits.concurrent_children limits
        <? ResourceBudgetUsage.peak_concurrent_children usage)
    || (ResourceBudgetLimits.tokens limits <? ResourceBudgetUsage.tokens usage)
    || (ResourceBudgetLimits.wall_time_ms limits <? ResourceBudgetUsage.wall_time_ms usage)
    || (ResourceBudgetLimits.memory_bytes limits
        <? ResourceBudgetUsage.peak_memory_bytes usage)
    || (ResourceBudgetLimits.processes limits <? ResourceBudgetUsage.processes usage)
    || (ResourceBudgetLimits.network_requests limits
        <? ResourceBudgetUsage.network_requests usage)
    || (ResourceBudgetLimits.tool_calls limits <? ResourceBudgetUsage.tool_calls usage)
    || (ResourceBudgetLimits.mutations limits <? ResourceBudgetUsage.mutation_attempts usage)
    || (ResourceBudgetUsage.mutation_attempts usage
        <? ResourceBudgetUsage.mutations_committed usage)).

Definition ResourceBudgetTelemetry_validate (t : ResourceBudgetTelemetry.t Value)
  : res str unit :=
  if negb (within_budget (ResourceBudgetTelemetry.limits t) (ResourceBudgetTelemetry.usage t))
  then Err (reject "resource usage exceeds its declared budget")
  else validate_timestamp (ResourceBudgetTelemetry.sampled_at t).

(** ** Artifacts *)
Definition ArtifactWorkbook_validate (v : ArtifactWorkbook.t Value) : res str unit :=
  let sheets := ArtifactWorkbook.worksheets v in
  _ ← validate_header (ArtifactWorkbook.schema_version v) (ArtifactWorkbook.contract_type v)
        P1ContractType.ArtifactWorkbook;
  _ ← guard_not ((ArtifactWorkbook.revision v =? 0) || Nat.eqb (length sheets) 0
                 || Nat.ltb 1024 (length sheets))
        (reject "invalid workbook revision or worksheet count");
  _ ← validate_string (ArtifactWorkbook.locale v) 2 35 "workbook locale";
  _ ← for_each (fun sheet =>
        _ ← guard_not (negb (bool_decide (WorkbookWorksheet.project_id sheet
                                          = ArtifactWorkbook.project_id v)))
              (reject "cross-project worksheet reference");
        _ ← validate_string (WorkbookWorksheet.sheet_id sheet) 1 512 "worksheet identifier";
        validate_string (WorkbookWorksheet.name sheet) 1 128 "worksheet name") sheets;
  validate_evidence_project (ArtifactWorkbook.project_id v) (ArtifactWorkbook.evidence v).

Definition ArtifactPresentation_validate (v : ArtifactPresentation.t Value) : res str unit :=
  let slides := ArtifactPresentation.slides v in
  _ ← validate_header (ArtifactPresentation.schema_version v)
        (ArtifactPresentation.contract_type v) P1ContractType.ArtifactPresentation;
  _ ← guard_not ((ArtifactPresentation.revision v =? 0) || Nat.eqb (length slides) 0
                 || Nat.ltb 1000 (length slides))
        (reject "invalid presentation revision or slide count");
  _ ← for_each (fun slide =>
        _ ← guard_not (negb (bool_decide (PresentationSlide.project_id slide
                                          = ArtifactPresentation.project_id v)))
              (reject "cross-project slide reference");
        _ ← validate_string (PresentationSlide.slide_id slide) 1 512 "slide identifier";
        validate_string (PresentationSlide.layout_id slide) 1 512 "slide layout identifier")
        slides;
  validate_evidence_project (ArtifactPresentation.project_id v)
    (ArtifactPresentation.evidence v).

(** ** Desktop observation and action *)
Definition DesktopObservation_validate (v : DesktopObservation.t Value) : res str unit :=
  let elements := DesktopObservation.elements v in
  let application := DesktopObservation.application v in
  let window := DesktopObservation.window v in
  _ ← validate_header (DesktopObservation.schema_version v)
        (DesktopObservation.contract_type v) P1ContractType.DesktopObservation;
  _ ← guard_not ((DesktopObservation.revision v =? 0)
                 || (100000 <? Z.of_nat (length elements))
                 || (DesktopApplication.process_id application =? 0))
        (reject "invalid desktop observation revision, process, or element count");
  _ ← validate_timestamp (DesktopObservation.observed_at v);
  _ ← validate_string (DesktopApplication.bundle_id application) 3 255
        "application bundle identifier";
  _ ← validate_string (DesktopApplication.name application) 1 512 "application name";
  _ ← validate_string (DesktopWindow.window_ref window) 1 1024 "window reference";
  _ ← guard_not (512 <? str_len (DesktopWindow.title window)) (reject "invalid window title");
  _ ← for_each (fun element =>
        _ ← guard_not (negb (bool_decide (DesktopElementReference.project_id element
                                          = DesktopObservation.project_id v)))
              (reject "cross-project desktop element reference");
        _ ← validate_string (DesktopElementReference.element_ref element) 1 1024
              "desktop element reference";
        _ ← validate_string (DesktopElementReference.role element) 1 512
              "desktop element role";
        validate_timestamp (DesktopElementReference.expires_at element)) elements;
  validate_evidence_project (DesktopObservation.project_id v) (DesktopObservation.evidence v).

Definition validate_approval_id (approval_id : str) : res str unit :=
  suffix ← ok_or (reject "invalid approval identifier")
             (strip_prefix (lit "trustgrant_") approval_id);
  guard_not (negb (str_len suffix =? 36) || negb (forallb is_lower_hex (as_bytes suffix)))
    (reject "invalid approval identifier").

Definition DesktopAction_validate (v : DesktopAction.t Value) : res str unit :=
  let target := DesktopAction.target v in
  _ ← validate_header (DesktopAction.schema_version v) (DesktopAction.contract_type v)
        P1ContractType.DesktopAction;
  _ ← guard_not ((DesktopAction.observation_revision v =? 0)
                 || negb (bool_decide (DesktopActionTarget.project_id target
                                       = DesktopAction.project_id v)))
        (reject "invalid or cross-project desktop action target");
  _ ← validate_string (DesktopAction.application_bundle_id v) 3 255
        "application bundle identifier";
  _ ← validate_some (fun r => validate_string r 1 1024 "desktop element reference")
        (DesktopActionTarget.element_ref target);
  _ ← validate_some validate_approval_id (DesktopAction.approval_id v);
  _ ← validate_timestamp (DesktopAction.requested_at v);
  _ ← validate_string (DesktopExpectedPostcondition.description
                         (DesktopAction.expected_postcondition v)) 1 2000
        "postcondition description";
  validate_evidence_project (DesktopAction.project_id v) (DesktopAction.evidence v).

(** ** Media *)
Definition MediaAsset_validate (v : MediaAsset.t Value) : res str unit :=
  let retention := MediaAsset.retention_policy v in
  let categories := MediaRedactionPolicy.categories (MediaAsset.redaction_policy v) in
  let routing := MediaAsset.provider_routing_policy v in
  let providers := MediaProviderRoutingPolicy.provider_ids routing in
  _ ← validate_header (MediaAsset.schema_version v) (MediaAsset.contract_type v)
        P1ContractType.MediaAsset;
  _ ← guard_not (negb (valid_mime_type (MediaAsset.mime_type v)))
        (reject "invalid media MIME type");
  _ ← validate_lower_hex (MediaAsset.sha256 v) 32 "media digest";
  _ ← validate_timestamp (MediaAsset.created_at v);
  _ ← guard_not (negb (bool_decide (MediaSource.project_id (MediaAsset.source v)
                                    = MediaAsset.project_id v)))
        (reject "cross-project media source");
  _ ← validate_string (MediaSource.reference (MediaAsset.source v)) 1 1024
        "media source reference";
  _ ← guard_not (Nat.ltb 4096 (length (MediaAsset.related_assets v))
                 || existsb (fun item => negb (bool_decide
                      (MediaRelationship.project_id item = MediaAsset.project_id v)))
                      (MediaAsset.related_assets v))
        (reject "invalid or cross-project related media reference");
  _ ← guard_not (bool_decide (MediaRetentionPolicy.mode retention = RetentionMode.Until)
                 && bool_decide (MediaRetentionPolicy.expires_at retention = None))
        (reject "until-based retention requires an expiry");
  _ ← validate_some validate_timestamp (MediaRetentionPolicy.expires_at retention);
  _ ← guard_not (Nat.ltb 256 (length categories)) (reject "too many redaction categories");
  _ ← for_each (fun category => validate_string category 1 512 "redaction category")
        categories;
  _ ← guard_not (Nat.ltb 256 (length providers)
                 || (bool_decide (MediaProviderRoutingPolicy.mode routing
                                  = ProviderRoutingMode.LocalOnly)
                     && negb (Nat.eqb (length providers) 0)))
        (reject "invalid media provider routing policy");
  _ ← for_each (fun provider => validate_string provider 1 512 "provider identifier")
        providers;
  validate_evidence_project (MediaAsset.project_id v) (MediaAsset.evidence v).

(** ** Remote devices and capability bundles *)
Definition RemoteDevice_validate (v : RemoteDevice.t Value) : res str unit :=
  let allowed := RemoteDevice.allowed_project_ids v in
  _ ← validate_header (RemoteDevice.schema_version v) (RemoteDevice.contract_type v)
        P1ContractType.RemoteDevice;
  _ ← validate_string (RemoteDevice.label v) 1 512 "remote device label";
  _ ← validate_lower_hex (RemoteDevice.public_key v) 32 "remote device public key";
  _ ← guard_not (Nat.eqb (length allowed) 0 || Nat.ltb 1024 (length allowed)
                 || Nat.eqb (length (RemoteDevice.scopes v)) 0)
        (reject "remote device requires a bounded Project and command scope");
  _ ← guard_not (Nat.ltb 4096 (length (RemoteDevice.evidence v))
                 || existsb (fun item => negb (bool_decide
                      (P1EvidenceReference.project_id item ∈ allowed)))
                      (RemoteDevice.evidence v))
        (reject "cross-project remote device evidence");
  _ ← for_each P1EvidenceReference_validate (RemoteDevice.evidence v);
  _ ← validate_timestamp (RemoteDevice.paired_at v);
  _ ← validate_timestamp (RemoteDevice.expires_at v);
  _ ← validate_some validate_timestamp (RemoteDevice.revoked_at v);
  SignedEnvelope_validate (RemoteDevice.signature v).

Definition CapabilityBundle_validate (v : CapabilityBundle.t Value) : res str unit :=
  let scope := CapabilityBundle.scope v in
  let project_scoped := bool_decide (BundleScope.kind scope = BundleScopeKind.Project) in
  let allowed := BundleScope.project_ids scope in
  let grants := CapabilityBundle.requested_grants v in
  let declared := CapabilityBundle.capabilities v in
  _ ← validate_header (CapabilityBundle.schema_version v) (CapabilityBundle.contract_type v)
        P1ContractType.CapabilityBundle;
  _ ← validate_string (CapabilityBundle.name v) 1 512 "capability bundle name";
  _ ← guard_not (negb (valid_package_version (CapabilityBundle.package_version v)))
        (reject "invalid capability bundle package version");
  _ ← validate_string (BundlePublisher.id (CapabilityBundle.publisher v)) 1 512
        "publisher identifier";
  _ ← validate_string (BundlePublisher.name (CapabilityBundle.publisher v)) 1 512
        "publisher name";
  _ ← guard_not (Nat.ltb 1024 (length allowed)
                 || (project_scoped && Nat.eqb (length allowed) 0)
                 || Nat.ltb 256 (length declared) || Nat.ltb 256 (length grants)
                 || Nat.ltb 4096 (length (CapabilityBundle.evidence v)))
        (reject "invalid capability bundle scope or collection size");
  _ ← guard_not (project_scoped
                 && existsb (fun item => negb (bool_decide
                      (P1EvidenceReference.project_id item ∈ allowed)))
                      (CapabilityBundle.evidence v))
        (reject "cross-project capability bundle evidence");
  _ ← for_each P1EvidenceReference_validate (CapabilityBundle.evidence v);
  _ ← for_each (fun grant =>
        _ ← guard_not (negb (bool_decide (RequestedCapabilityGrant.capability grant ∈ declared)))
              (reject "requested grant is not a declared capability");
        _ ← validate_string (RequestedCapabilityGrant.scope grant) 1 512
              "capability grant scope";
        validate_string (RequestedCapabilityGrant.reason grant) 1 2000
          "capability grant reason") grants;
  _ ← validate_lower_hex (CapabilityBundle.payload_sha256 v) 32
        "capability bundle payload digest";
  _ ← SignedEnvelope_validate (CapabilityBundle.signature v);
  guard_not (negb (str_eqb (CapabilityBundle.payload_sha256 v)
                     (SignedEnvelope.payload_sha256 (CapabilityBundle.signature v))))
    (reject "bundle signature digest mismatch").

(** ** Learning candidates *)
Definition LearningCandidate_validate (v : LearningCandidate.t Value) : res str unit :=
  let diff := LearningCandidate.proposed_diff v in
  let fields := LearningProposedDiff.changed_fields diff in
  let sources := LearningCandidate.source_tasks v in
  let project_id := LearningCandidate.project_id v in
  _ ← validate_header (LearningCandidate.schema_version v)
        (LearningCandidate.contract_type v) P1ContractType.LearningCandidate;
  _ ← guard_not ((LearningCandidate.candidate_version v =? 0)
                 || Nat.eqb (length sources) 0 || Nat.ltb 256 (length sources)
                 || Nat.eqb (length (LearningCandidate.evidence v)) 0)
        (reject "invalid learning candidate version or evidence basis");
  _ ← validate_string (LearningCandidate.summary v) 1 4000 "learning candidate summary";
  _ ← guard_not (20000 <? str_len (LearningProposedDiff.base diff))
        (reject "learning diff base is too large");
  _ ← validate_string (LearningProposedDiff.proposed diff) 1 20000 "learning diff proposal";
  _ ← guard_not (Nat.eqb (length fields) 0 || Nat.ltb 256 (length fields))
        (reject "learning diff requires changed fields");
  _ ← for_each (fun field => validate_string field 1 512 "learning diff field") fields;
  _ ← for_each (fun source =>
        _ ← guard_not (negb (bool_decide (LearningSource.project_id source = project_id))
                       || Nat.eqb (length (LearningSource.evidence source)) 0)
              (reject "cross-project or unsupported learning source");
        validate_evidence_project project_id (LearningSource.evidence source)) sources;
  validate_evidence_project project_id (LearningCandidate.evidence v).
End Validation.

(** ** The two identifier checks are one *)
Lemma p1_valid_uuid_suffix_agrees value :
  p1_valid_uuid_suffix value = valid_uuid_suffix value.
Proof.
  unfold p1_valid_uuid_suffix, valid_uuid_suffix. cbn zeta.
  rewrite (forallb_ext _ (fun '(index, byte) => is_hyphen_index index || is_lower_hex byte)).
  2: { intros [index byte]. unfold is_lower_hex. by rewrite orb_assoc. }
  destruct (Nat.eqb _ _), (byte_at _ 8 =? 45), (byte_at _ 13 =? 45), (byte_at _ 18 =? 45),
    (byte_at _ 23 =? 45); try done. cbn [negb orb andb].
  destruct (forallb _ _); [|done]. destruct (in_range _ _ _); [|done].
  by destruct (existsb (Z.eqb _) _).
Qed.

Lemma p1_id_parse_agrees k value : p1_id_parse k value = id_parse k value.
Proof.
  unfold p1_id_parse, id_parse. destruct (strip_prefix _ value) as [suffix|]; [|done].
  cbn [ok_or]. by rewrite !Ok_bind, p1_valid_uuid_suffix_agrees.
Qed.
