(* ===== verification/WorkGraph.v ===== *)
(** * The work graph of the P1 contracts

    Models the end of [p1_contracts.rs]: [graph_has_cycle] with its recursive
    [visit], and the validation [WorkGraph] runs when it is deserialised.  The
    depth-first search is run with fuel; running out of it is [Panic], like an
    index out of range, and [graph_has_cycle_answers] shows that neither happens.
    The search is proved to decide the existence of a cycle, and an accepted
    graph to have an order in which every node follows its dependencies. *)
From stdpp Require Import relations.
From S2P Require Import Prelude RustStr P0Contracts P1Contracts.
Local Open Scope Z_scope.

Section Search.
Context {Value : Type}.
Notation Node := (WorkGraphNode.t Value).
Implicit Types (nodes : list Node) (ids : gmap str nat) (states : list Z).

(** [for dependency in &nodes[index].depends_on { .. }] *)
Fixpoint visit_dependencies (visit : nat -> list Z -> res str (bool * list Z)) ids
    (dependencies : list str) states : res str (bool * list Z) :=
  match dependencies with
  | [] => Ok (false, states)
  | dependency :: rest =>
      match ids !! dependency with
      | Some dependency_index =>
          '(found, states) ← visit dependency_index states;
          if found : bool then Ok (true, states)
          else visit_dependencies visit ids rest states
      | None => visit_dependencies visit ids rest states
      end
  end.

Fixpoint visit (fuel : nat) nodes ids (index : nat) states : res str (bool * list Z) :=
  match fuel with
  | O => Panic
  | S fuel =>
      state ← or_panic (states !! index);
      if state =? 1 then Ok (true, states)
      else if state =? 2 then Ok (false, states)
      else
        let states := <[index := 1]> states in
        node ← or_panic (nodes !! index);
        '(found, states) ←
          visit_dependencies (visit fuel nodes ids) ids (WorkGraphNode.depends_on node) states;
        if found : bool then Ok (true, states) else Ok (false, <[index := 2]> states)
  end.

(** [(0..nodes.len()).any(|index| visit(index, ..))] *)
Fixpoint visit_any (fuel : nat) nodes ids (indices : list nat) states : res str bool :=
  match indices with
  | [] => Ok false
  | index :: rest =>
      '(found, states) ← visit fuel nodes ids index states;
      if found : bool then Ok true else visit_any fuel nodes ids rest states
  end.

(** A later node with the same identifier replaces an earlier one. *)
Definition node_ids nodes : gmap str nat :=
  foldl (fun ids entry => <[WorkGraphNode.node_id entry.2 := entry.1]> ids) ∅
    (zip (seq 0 (length nodes)) nodes).

Definition graph_has_cycle nodes : res str bool :=
  visit_any (S (length nodes)) nodes (node_ids nodes) (seq 0 (length nodes))
    (replicate (length nodes) 0).
End Search.

Section Validate.
Context {Value : Type} (parse_from_rfc3339 : str -> bool).

(** The first loop over the nodes, with the set of identifiers seen. *)
Definition check_node (v : WorkGraph.t Value) (ids : gset str) (node : WorkGraphNode.t Value)
  : res str (gset str) :=
  let node_id := WorkGraphNode.node_id node in
  _ ← guard_not (negb (bool_decide (WorkGraphNode.project_id node = WorkGraph.project_id v))
                 || bool_decide (node_id ∈ ids)
                 || Nat.ltb 256 (length (WorkGraphNode.depends_on node)))
        (reject "invalid, duplicate, or cross-project work graph node");
  _ ← validate_string node_id 1 512 "work graph node identifier";
  Ok ({[node_id]} ∪ ids).

Definition check_dependencies (ids : gset str) (node : WorkGraphNode.t Value) : res str unit :=
  guard_not (existsb (fun dependency =>
      bool_decide (dependency = WorkGraphNode.node_id node)
      || negb (bool_decide (dependency ∈ ids))) (WorkGraphNode.depends_on node))
    (reject "work graph dependency is missing or self-referential").

Definition WorkGraph_validate (v : WorkGraph.t Value) : res str unit :=
  let nodes := WorkGraph.nodes v in
  let budget := WorkGraph.resource_budget v in
  let children := WorkGraph.max_concurrent_children v in
  _ ← validate_header (WorkGraph.schema_version v) (WorkGraph.contract_type v)
        P1ContractType.WorkGraph;
  _ ← guard_not ((WorkGraph.revision v =? 0) || Nat.eqb (length nodes) 0
                 || Nat.ltb 256 (length nodes) || negb (in_range 1 8 children)
                 || negb (WorkGraph.parent_owns_mutations v))
        (reject "invalid work graph bounds or mutation ownership");
  _ ← ResourceBudgetTelemetry_validate parse_from_rfc3339 budget;
  _ ← guard_not (negb (children =? ResourceBudgetLimits.concurrent_children
                                     (ResourceBudgetTelemetry.limits budget)))
        (reject "work graph concurrency does not match its resource budget");
  ids ← for_fold (check_node v) ∅ nodes;
  _ ← for_each (check_dependencies ids) nodes;
  cycle ← graph_has_cycle nodes;
  _ ← guard_not cycle (reject "work graph dependency cycle");
  validate_evidence_project (WorkGraph.project_id v) (WorkGraph.evidence v).
End Validate.

(** ** The relations the search is about *)
Section Relations.
Context {Value : Type} (nodes : list (WorkGraphNode.t Value)).

(** Node [i] lists an identifier that stands for node [j]. *)
Definition edge (i j : nat) : Prop :=
  exists node dependency, nodes !! i = Some node /\
    dependency ∈ WorkGraphNode.depends_on node /\ node_ids nodes !! dependency = Some j.

(** The node called [a] depends on the one called [b]. *)
Definition depends (a b : str) : Prop :=
  exists node, node ∈ nodes /\ WorkGraphNode.node_id node = a /\
    b ∈ WorkGraphNode.depends_on node.

(** Every node of the schedule comes after the nodes it depends on. *)
Definition runs_in_order (schedule : list (WorkGraphNode.t Value)) : Prop :=
  forall before node after, schedule = before ++ node :: after ->
    forall dependency, dependency ∈ WorkGraphNode.depends_on node ->
      exists earlier, earlier ∈ before /\ WorkGraphNode.node_id earlier = dependency.
End Relations.

(** A list of finished nodes, the last finished first: each one's successors
    were finished before it. *)
Inductive finished {A} (R : A -> A -> Prop) : list A -> Prop :=
| finished_nil : finished R []
| finished_cons k l :
    (forall j, R k j -> j ∈ l) -> k ∉ l -> finished R l -> finished R (k :: l).

Section Finished.
Context {A : Type} (R : A -> A -> Prop).

Lemma finished_NoDup l : finished R l -> NoDup l.
Proof. induction 1; by constructor. Qed.

Lemma finished_closed l k j : finished R l -> k ∈ l -> tc R k j -> j ∈ l.
Proof.
  intros Hl Hk Hkj. revert Hk. induction Hkj as [k j Hkj | k m j Hkm _ IH]; intros Hk.
  - induction Hl as [|x l Hx ? Hl IH]; set_solver.
  - apply IH. clear IH. induction Hl as [|x l Hx ? Hl IH]; set_solver.
Qed.

Lemma finished_acyclic l k : finished R l -> k ∈ l -> ~ tc R k k.
Proof.
  induction 1 as [|x l Hx Hn Hl IH]; [set_solver|]. rewrite elem_of_cons.
  intros [->|Hk]; [|by apply IH]. intros Hc.
  assert (exists j, R x j /\ rtc R j x) as (j & Hj & Hr).
  { inversion Hc; subst; [by exists x|]. naive_solver (eauto using tc_rtc). }
  apply Hn. apply Hx in Hj. apply rtc_tc in Hr as [->|Hr]; [done|].
  by eapply finished_closed.
Qed.

Lemma finished_split l1 k l2 j : finished R (l1 ++ k :: l2) -> R k j -> j ∈ l2.
Proof.
  induction l1 as [|x l1 IH]; simpl; inversion 1; subst; [by eauto|]. by apply IH.
Qed.
End Finished.

(** ** The search *)
Section SearchProof.
Context {Value : Type} (nodes : list (WorkGraphNode.t Value)).
Notation R := (edge nodes).

Definition white (state : Z) : bool := negb (state =? 1) && negb (state =? 2).
Fixpoint whites (states : list Z) : nat :=
  match states with
  | [] => 0
  | s :: states => (if white s then 1 else 0) + whites states
  end%nat.

Lemma whites_mark states i s : white s = false -> (whites (<[i := s]> states) <= whites states)%nat.
Proof.
  intros Hs. revert i. induction states as [|x states IH]; intros [|i]; simpl; [lia..| |].
  - rewrite Hs. lia.
  - specialize (IH i). lia.
Qed.

Lemma whites_lt states i s t :
  white s = false -> states !! i = Some t -> white t = true ->
  (whites (<[i := s]> states) < whites states)%nat.
Proof.
  intros Hs. revert i. induction states as [|x states IH]; intros [|i]; simpl; try done.
  - intros [= ->] ->. rewrite Hs. lia.
  - intros Hi Ht. specialize (IH i Hi Ht). lia.
Qed.

Lemma whites_length states : (whites states <= length states)%nat.
Proof. induction states as [|x states IH]; simpl; [lia|]. destruct (white x); lia. Qed.

(** The black nodes, in some order, are finished. *)
Definition search_ok (states : list Z) : Prop :=
  length states = length nodes /\
  exists l, finished R l /\ forall k, k ∈ l <-> states !! k = Some 2.

(** What a visit that found no cycle leaves behind. *)
Record visited (states states' : list Z) : Prop := {
  visited_ok : search_ok states';
  visited_grey : forall k, states' !! k = Some 1 <-> states !! k = Some 1;
  visited_black : forall k, states !! k = Some 2 -> states' !! k = Some 2;
  visited_whites : (whites states' <= whites states)%nat }.

Lemma visited_refl states : search_ok states -> visited states states.
Proof. by constructor. Qed.
Lemma visited_trans s1 s2 s3 : visited s1 s2 -> visited s2 s3 -> visited s1 s3.
Proof.
  intros [O1 G1 B1 W1] [O2 G2 B2 W2]. constructor; [done| |by auto|lia].
  intros k. by rewrite G2.
Qed.

Definition is_index (i : nat) : Prop := (i < length nodes)%nat.

(** [visit] with this fuel does its job on the nodes it can be called on. *)
Definition visit_correct (visit : nat -> list Z -> res str (bool * list Z)) (fuel : nat) : Prop :=
  forall i states, is_index i -> (whites states < fuel)%nat -> search_ok states ->
    (forall k, states !! k = Some 1 -> tc R k i) ->
    exists found states', visit i states = Ok (found, states') /\
      if found : bool then exists k, tc R k k
      else visited states states' /\ states' !! i = Some 2.

Lemma node_ids_index dependency j : node_ids nodes !! dependency = Some j -> is_index j.
Proof.
  unfold node_ids. set (entries := zip _ _). intros H.
  assert (Hall : Forall (fun e => is_index e.1) entries).
  { apply List.Forall_forall. intros [i n] Hin.
    apply list_elem_of_In, elem_of_zip_l, elem_of_seq in Hin. red. simpl. lia. }
  clearbody entries. revert H.
  assert (H0 : forall d j, (∅ : gmap str nat) !! d = Some j -> is_index j).
  { intros d k. by rewrite lookup_empty. }
  revert H0. generalize (∅ : gmap str nat).
  induction Hall as [|[i n] entries Hi _ IH]; simpl; intros m Hm; [by apply Hm|].
  apply IH. intros d k Hd. apply lookup_insert_Some in Hd as [[_ <-]|[_ Hd]]; eauto.
Qed.

Lemma visit_dependencies_correct visit fuel i deps states :
  visit_correct visit fuel ->
  (forall d j, d ∈ deps -> node_ids nodes !! d = Some j -> R i j) ->
  (whites states < fuel)%nat -> search_ok states ->
  (forall k, states !! k = Some 1 -> k = i \/ tc R k i) ->
  exists found states',
    visit_dependencies visit (node_ids nodes) deps states = Ok (found, states') /\
    if found : bool then exists k, tc R k k
    else visited states states' /\
      forall d j, d ∈ deps -> node_ids nodes !! d = Some j -> states' !! j = Some 2.
Proof.
  intros Hv. revert states. induction deps as [|d deps IH]; intros states Hd Hf Hok Hg; simpl.
  { exists false, states. split; [done|]. split; [by apply visited_refl | set_solver]. }
  destruct (node_ids nodes !! d) as [j|] eqn:Hj.
  2: { destruct (IH states) as (b & s & -> & Hb); [set_solver|done..|].
       exists b, s. split; [done|]. destruct b; [done|]. destruct Hb as [Hs Hb].
       split; [done|]. intros d' j' [->|?]%elem_of_cons ?; [congruence | eauto]. }
  assert (Hij : R i j) by (eapply Hd; [left | done]).
  destruct (Hv j states) as (b & s & -> & Hb); [by eapply node_ids_index|done..| |].
  { intros k [->|Hk]%Hg; [by constructor | by eapply tc_r]. }
  rewrite Ok_bind. destruct b; [by exists true, s|]. destruct Hb as [Hs Hj2].
  destruct (IH s) as (b & s' & -> & Hb).
  - set_solver.
  - destruct Hs. lia.
  - apply Hs.
  - intros k Hk. apply Hg. by apply Hs.
  - exists b, s'. split; [done|]. destruct b; [done|]. destruct Hb as [Hs' Hb].
    split; [by eapply visited_trans|]. intros d' j' [->|?]%elem_of_cons Hd'; [|by eauto].
    replace j' with j by congruence. by apply Hs'.
Qed.

Lemma search_ok_mark i states :
  search_ok states -> states !! i <> Some 2 -> search_ok (<[i := 1]> states).
Proof.
  intros (Hl & l & Hfin & Hk) Hi. split; [by rewrite length_insert|].
  exists l. split; [done|]. intros k. rewrite Hk.
  destruct (decide (i = k)) as [->|Hne]; [|by rewrite list_lookup_insert_ne].
  split; [done|]. intros H. apply list_lookup_insert_Some in H. naive_solver.
Qed.

Lemma search_ok_finish i states :
  search_ok states -> states !! i = Some 1 ->
  (forall j, R i j -> states !! j = Some 2) -> search_ok (<[i := 2]> states).
Proof.
  intros (Hl & l & Hfin & Hk) Hi Hj. split; [by rewrite length_insert|].
  exists (i :: l). split.
  - constructor; [|by rewrite Hk, Hi | done]. intros j Hij. by apply Hk, Hj.
  - intros k. rewrite elem_of_cons, Hk. apply lookup_lt_Some in Hi as Hlt.
    destruct (decide (i = k)) as [->|Hne].
    + rewrite list_lookup_insert_eq by done. naive_solver.
    + rewrite list_lookup_insert_ne by done. naive_solver.
Qed.

Lemma visit_is_correct fuel : visit_correct (visit fuel nodes (node_ids nodes)) fuel.
Proof.
  induction fuel as [|fuel IH]; intros i states Hi Hf Hok Hg; [lia|].
  pose proof Hok as [Hlen (l & Hfin & Hl)]. simpl.
  destruct (lookup_lt_is_Some_2 states i) as [s Hs]; [unfold is_index in Hi; lia|].
  rewrite Hs. simpl. destruct (Z.eqb_spec s 1) as [->|H1].
  { exists true, states. split; [done|]. exists i. by apply Hg. }
  destruct (Z.eqb_spec s 2) as [->|H2].
  { exists false, states. split; [done|]. split; [by apply visited_refl | done]. }
  assert (Hw : white s = true).
  { unfold white. destruct (Z.eqb_spec s 1), (Z.eqb_spec s 2); done. }
  destruct (lookup_lt_is_Some_2 nodes i) as [node Hn]; [done|]. rewrite Hn. simpl.
  assert (Hlt : (i < length states)%nat) by (unfold is_index in Hi; lia).
  pose proof (whites_lt states i 1 s eq_refl Hs Hw) as Hless.
  destruct (visit_dependencies_correct _ _ i (WorkGraphNode.depends_on node)
              (<[i := 1]> states) IH) as (b & st & Hrun & Hb).
  { intros d j Hd Hj. by exists node, d. }
  { lia. }
  { apply search_ok_mark; [done | congruence]. }
  { intros k Hk. apply list_lookup_insert_Some in Hk as [(-> & _)|[_ Hk]]; [by left | right; auto]. }
  rewrite Hrun, Ok_bind. clear Hrun. destruct b; [by exists true, st|].
  destruct Hb as [[Sok Sgrey Sblack Sw] Hdeps].
  assert (Hgi : st !! i = Some 1) by (apply Sgrey, list_lookup_insert_eq; done).
  eexists false, _. split; [done|]. apply lookup_lt_Some in Hgi as Hlt'. split.
  2: { by apply list_lookup_insert_eq. }
  constructor.
  - apply search_ok_finish; [done..|]. intros j (n' & d & Hn' & Hd & Hj).
    simplify_eq. by eapply Hdeps.
  - intros k. destruct (decide (i = k)) as [->|Hne].
    + rewrite list_lookup_insert_eq by done. split; [done|]. congruence.
    + rewrite list_lookup_insert_ne, Sgrey, list_lookup_insert_ne; done.
  - intros k Hk. destruct (decide (i = k)) as [->|Hne]; [congruence|].
    rewrite list_lookup_insert_ne by done. apply Sblack.
    by rewrite list_lookup_insert_ne.
  - pose proof (whites_mark st i 2 eq_refl). lia.
Qed.

Lemma visit_any_correct fuel indices states :
  (whites states < fuel)%nat -> search_ok states -> (forall k, states !! k <> Some 1) ->
  Forall is_index indices ->
  exists found, visit_any fuel nodes (node_ids nodes) indices states = Ok found /\
    if found : bool then exists k, tc R k k
    else exists states', visited states states' /\
      Forall (fun i => states' !! i = Some 2) indices.
Proof.
  intros Hf Hok Hg Hin. revert states Hf Hok Hg.
  induction Hin as [|i indices Hi _ IH]; intros states Hf Hok Hg; simpl.
  { exists false. split; [done|]. exists states. split; [by apply visited_refl | done]. }
  destruct (visit_is_correct fuel i states) as (b & st & -> & Hb); [done..| |].
  { intros k Hk. by apply Hg in Hk. }
  rewrite Ok_bind. destruct b; [by exists true|]. destruct Hb as [Hst Hi2].
  destruct (IH st) as (b & -> & Hb).
  - destruct Hst. lia.
  - apply Hst.
  - intros k Hk. apply Hst in Hk. by apply Hg in Hk.
  - exists b. split; [done|]. destruct b; [done|]. destruct Hb as (s' & Hs' & Hall).
    exists s'. split; [by eapply visited_trans|]. constructor; [|done]. by apply Hs'.
Qed.

(** The search always answers; [true] means a cycle, and [false] a complete
    order of the nodes in which successors come first. *)
Lemma graph_has_cycle_answers :
  exists found, graph_has_cycle nodes = Ok found /\
    if found : bool then exists k, tc R k k
    else exists order, finished R order /\ order ≡ₚ seq 0 (length nodes).
Proof.
  destruct (visit_any_correct (S (length nodes)) (seq 0 (length nodes))
              (replicate (length nodes) 0)) as (b & Hrun & Hb).
  - pose proof (whites_length (replicate (length nodes) 0)) as H.
    rewrite length_replicate in H. lia.
  - split; [by rewrite length_replicate|]. exists []. split; [constructor|].
    intros k. split; [set_solver|]. by intros [? _]%lookup_replicate.
  - intros k. by intros [? _]%lookup_replicate.
  - apply Forall_seq. unfold is_index. lia.
  - exists b. split; [exact Hrun|]. destruct b; [done|]. destruct Hb as (s & Hs & Hall).
    destruct (visited_ok _ _ Hs) as (Hlen & l & Hfin & Hl). exists l. split; [done|].
    apply NoDup_Permutation; [by eapply finished_NoDup | apply NoDup_seq|].
    intros k. rewrite Hl, elem_of_seq. split.
    + intros ?%lookup_lt_Some. lia.
    + intros Hk. eapply (proj1 (List.Forall_forall _ _) Hall), list_elem_of_In, elem_of_seq. lia.
Qed.
End SearchProof.

(** ** Accepted graphs *)
Section Accepted.
Context {Value : Type}.
Implicit Types (nodes : list (WorkGraphNode.t Value)) (v : WorkGraph.t Value)
  (n : WorkGraphNode.t Value).
Notation node_id := WorkGraphNode.node_id.

Notation add_ids entries ids :=
  (foldl (fun (ids : gmap str nat) (entry : nat * WorkGraphNode.t Value) =>
     <[node_id entry.2 := entry.1]> ids) ids entries).

Lemma add_ids_other nodes k ids d :
  d ∉ map node_id nodes -> add_ids (zip (seq k (length nodes)) nodes) ids !! d = ids !! d.
Proof.
  revert k ids. induction nodes as [|n nodes IH]; intros k ids Hd; simpl; [done|].
  simpl in Hd. rewrite IH by set_solver. apply lookup_insert_ne. set_solver.
Qed.

Lemma add_ids_at nodes k ids i n :
  NoDup (map node_id nodes) -> nodes !! i = Some n ->
  add_ids (zip (seq k (length nodes)) nodes) ids !! node_id n = Some (k + i)%nat.
Proof.
  revert k ids i. induction nodes as [|m nodes IH]; intros k ids i; [done|]. simpl.
  intros [Hm Hnd]%list.NoDup_cons. destruct i as [|i]; simpl.
  - intros [= ->]. rewrite add_ids_other by done. rewrite lookup_insert_eq. f_equal. lia.
  - intros Hi. rewrite (IH _ _ i) by done. f_equal. lia.
Qed.

Lemma node_ids_at nodes i n :
  NoDup (map node_id nodes) -> nodes !! i = Some n -> node_ids nodes !! node_id n = Some i.
Proof. intros Hnd Hi. exact (add_ids_at nodes 0 ∅ i n Hnd Hi). Qed.

Lemma check_nodes_Ok v nodes acc ids :
  for_fold (check_node v) acc nodes = Ok ids ->
  NoDup (map node_id nodes) /\ (forall n, n ∈ nodes -> node_id n ∉ acc) /\
  (forall d, d ∈ ids <-> d ∈ acc \/ d ∈ map node_id nodes) /\
  Forall (fun n => WorkGraphNode.project_id n = WorkGraph.project_id v) nodes.
Proof.
  revert acc. induction nodes as [|n nodes IH]; simpl; intros acc H.
  { simplify_eq. split; [constructor|]. split; [set_solver|]. split; [set_solver | done]. }
  apply bind_Ok in H as (acc' & Hn & H). unfold check_node in Hn. inv_res. subst.
  apply IH in H as (Hnd & Hfresh & Hids & Hall).
  split_bools. split; [|split; [|split]].
  - apply list.NoDup_cons. split; [|done]. intros Hin.
    apply list_elem_of_fmap in Hin as (m & Hm & Hin). apply (Hfresh m); set_solver.
  - intros m [->|Hm]%elem_of_cons; [done|]. intros Hacc. apply (Hfresh m); set_solver.
  - intros d. rewrite Hids. set_solver.
  - constructor; [|done]. done.
Qed.

Lemma check_dependencies_Ok ids n :
  check_dependencies ids n = Ok tt ->
  Forall (fun d => d <> node_id n /\ d ∈ ids) (WorkGraphNode.depends_on n).
Proof.
  unfold check_dependencies. rewrite guard_not_Ok, existsb_false.
  apply List.Forall_impl. intros d ?. by split_bools.
Qed.

Lemma runs_in_order_snoc schedule n :
  runs_in_order schedule ->
  (forall d, d ∈ WorkGraphNode.depends_on n ->
     exists m, m ∈ schedule /\ node_id m = d) ->
  runs_in_order (schedule ++ [n]).
Proof.
  intros Hs Hn before node after Heq d Hd.
  destruct after as [|x after _] using rev_ind.
  - apply app_inj_tail in Heq as [<- <-]. by apply Hn.
  - rewrite app_comm_cons, app_assoc in Heq. apply app_inj_tail in Heq as [-> _].
    by eapply Hs.
Qed.

(** The finishing order of the search, as nodes, the first to run first. *)
Definition schedule_of nodes (order : list nat) : list (WorkGraphNode.t Value) :=
  reverse (omap (fun i => nodes !! i) order).

Lemma schedule_of_runs nodes order :
  NoDup (map node_id nodes) ->
  (forall n d, n ∈ nodes -> d ∈ WorkGraphNode.depends_on n -> d ∈ map node_id nodes) ->
  finished (edge nodes) order -> runs_in_order (schedule_of nodes order).
Proof.
  intros Hnd Hdeps. induction 1 as [|k l Hk _ _ IH].
  { intros before n after Heq. by destruct before. }
  unfold schedule_of. simpl. destruct (nodes !! k) as [n|] eqn:Hn; simpl; [|exact IH].
  rewrite reverse_cons. apply runs_in_order_snoc; [exact IH|]. intros d Hd.
  assert (Hin : n ∈ nodes) by (by eapply list_elem_of_lookup_2).
  destruct (proj1 (list_elem_of_fmap _ _ _) (Hdeps n d Hin Hd)) as (m & -> & Hm).
  apply list_elem_of_lookup in Hm as [j Hj]. exists m. split; [|done].
  apply elem_of_reverse, list_elem_of_omap. exists j. split; [|done].
  apply Hk. exists n, (node_id m). by rewrite node_ids_at with (i := j).
Qed.

Lemma omap_map_S nodes n l :
  omap (fun i => (n :: nodes) !! i) (map S l) = omap (fun i => nodes !! i) l.
Proof. induction l as [|i l IH]; [done|]. cbn in *. by rewrite IH. Qed.

Lemma omap_seq_lookup nodes : omap (fun i => nodes !! i) (seq 0 (length nodes)) = nodes.
Proof.
  induction nodes as [|n nodes IH]; simpl; [done|]. f_equal.
  rewrite <- seq_shift. etransitivity; [apply omap_map_S | exact IH].
Qed.

Lemma schedule_of_Permutation nodes order :
  order ≡ₚ seq 0 (length nodes) -> schedule_of nodes order ≡ₚ nodes.
Proof.
  intros Hp. unfold schedule_of. rewrite reverse_Permutation, Hp.
  by rewrite omap_seq_lookup.
Qed.

(** What an accepted graph has: the facts its checks establish. *)
Record accepted (v : WorkGraph.t Value) : Prop := {
  accepted_distinct : NoDup (map node_id (WorkGraph.nodes v));
  accepted_projects :
    Forall (fun n => WorkGraphNode.project_id n = WorkGraph.project_id v) (WorkGraph.nodes v);
  accepted_known : forall n d, n ∈ WorkGraph.nodes v ->
    d ∈ WorkGraphNode.depends_on n -> d ∈ map node_id (WorkGraph.nodes v);
  accepted_acyclic : graph_has_cycle (WorkGraph.nodes v) = Ok false }.

Lemma WorkGraph_validate_accepted parse v :
  WorkGraph_validate parse v = Ok tt -> accepted v.
Proof.
  unfold WorkGraph_validate. intros H. inv_res.
  match goal with H : for_fold _ _ _ = Ok _ |- _ =>
    apply check_nodes_Ok in H as (Hnd & _ & Hids & Hall) end.
  match goal with H : for_each _ _ = Ok ?u, H' : graph_has_cycle _ = Ok _ |- _ =>
    destruct u; rename H into Hdeps; rename H' into Hcycle end.
  subst. constructor; [done..| |done]. intros n d Hn Hd.
  apply for_each_Ok in Hdeps. rewrite List.Forall_forall in Hdeps.
  apply list_elem_of_In, Hdeps, check_dependencies_Ok in Hn.
  rewrite List.Forall_forall in Hn. apply list_elem_of_In, Hn in Hd as [_ Hd].
  apply Hids in Hd. set_solver.
Qed.

Lemma accepted_schedule v :
  accepted v -> exists schedule, schedule ≡ₚ WorkGraph.nodes v /\ runs_in_order schedule.
Proof.
  intros [Hnd _ Hk Hc]. destruct (graph_has_cycle_answers (WorkGraph.nodes v)) as (b & Hb & H).
  rewrite Hc in Hb. injection Hb as <-. destruct H as (order & Hfin & Hp).
  exists (schedule_of (WorkGraph.nodes v) order).
  split; [by apply schedule_of_Permutation | by apply schedule_of_runs].
Qed.
End Accepted.
