(* ===== verification/P1Theorems.v ===== *)
(** * What accepted P1 contracts guarantee

    The nine contracts of [p1_contracts.rs] taken together: a contract that
    was deserialised carries the supported version and its own type, names no
    project outside the scope it declares, and keeps its resource usage within
    its budget.  A deserialised work graph can be run in dependency order. *)
From stdpp Require Import relations.
From S2P Require Import Prelude RustStr P0Contracts P1Contracts WorkGraph.
Local Open Scope Z_scope.

(** ** The nine contracts as one type *)
Inductive contract {Value : Type} : Type :=
| CWorkbook (v : ArtifactWorkbook.t Value)
| CPresentation (v : ArtifactPresentation.t Value)
| CObservation (v : DesktopObservation.t Value)
| CAction (v : DesktopAction.t Value)
| CMedia (v : MediaAsset.t Value)
| CDevice (v : RemoteDevice.t Value)
| CBundle (v : CapabilityBundle.t Value)
| CLearning (v : LearningCandidate.t Value)
| CWorkGraph (v : WorkGraph.t Value).
Arguments contract : clear implicits.

Section Contracts.
Context {Value : Type} (parse_from_rfc3339 : str -> bool).
Implicit Types (c : contract Value).

Definition contract_validate c : res str unit :=
  match c with
  | CWorkbook v => ArtifactWorkbook_validate v
  | CPresentation v => ArtifactPresentation_validate v
  | CObservation v => DesktopObservation_validate parse_from_rfc3339 v
  | CAction v => DesktopAction_validate parse_from_rfc3339 v
  | CMedia v => MediaAsset_validate parse_from_rfc3339 v
  | CDevice v => RemoteDevice_validate parse_from_rfc3339 v
  | CBundle v => CapabilityBundle_validate parse_from_rfc3339 v
  | CLearning v => LearningCandidate_validate v
  | CWorkGraph v => WorkGraph_validate parse_from_rfc3339 v
  end.

(** [schema_version] and [contract_type], and the type the schema has. *)
Definition contract_header c : Z * P1ContractType.t * P1ContractType.t :=
  match c with
  | CWorkbook v => (ArtifactWorkbook.schema_version v, ArtifactWorkbook.contract_type v,
      P1ContractType.ArtifactWorkbook)
  | CPresentation v => (ArtifactPresentation.schema_version v,
      ArtifactPresentation.contract_type v, P1ContractType.ArtifactPresentation)
  | CObservation v => (DesktopObservation.schema_version v,
      DesktopObservation.contract_type v, P1ContractType.DesktopObservation)
  | CAction v => (DesktopAction.schema_version v, DesktopAction.contract_type v,
      P1ContractType.DesktopAction)
  | CMedia v => (MediaAsset.schema_version v, MediaAsset.contract_type v,
      P1ContractType.MediaAsset)
  | CDevice v => (RemoteDevice.schema_version v, RemoteDevice.contract_type v,
      P1ContractType.RemoteDevice)
  | CBundle v => (CapabilityBundle.schema_version v, CapabilityBundle.contract_type v,
      P1ContractType.CapabilityBundle)
  | CLearning v => (LearningCandidate.schema_version v, LearningCandidate.contract_type v,
      P1ContractType.LearningCandidate)
  | CWorkGraph v => (WorkGraph.schema_version v, WorkGraph.contract_type v,
      P1ContractType.WorkGraph)
  end.

(** The projects the contract may speak about: its own, the ones a device is
    paired with or a bundle is scoped to; [None] for a global bundle. *)
Definition contract_scope c : option (list ProjectId) :=
  match c with
  | CWorkbook v => Some [ArtifactWorkbook.project_id v]
  | CPresentation v => Some [ArtifactPresentation.project_id v]
  | CObservation v => Some [DesktopObservation.project_id v]
  | CAction v => Some [DesktopAction.project_id v]
  | CMedia v => Some [MediaAsset.project_id v]
  | CDevice v => Some (RemoteDevice.allowed_project_ids v)
  | CBundle v =>
      match BundleScope.kind (CapabilityBundle.scope v) with
      | BundleScopeKind.Project => Some (BundleScope.project_ids (CapabilityBundle.scope v))
      | BundleScopeKind.Global => None
      end
  | CLearning v => Some [LearningCandidate.project_id v]
  | CWorkGraph v => Some [WorkGraph.project_id v]
  end.

Definition evidence_projects (evidence : list (P1EvidenceReference.t Value)) : list ProjectId :=
  map P1EvidenceReference.project_id evidence.

(** Every project named by a part of the contract. *)
Definition contract_mentions c : list ProjectId :=
  match c with
  | CWorkbook v => map WorkbookWorksheet.project_id (ArtifactWorkbook.worksheets v)
      ++ evidence_projects (ArtifactWorkbook.evidence v)
  | CPresentation v => map PresentationSlide.project_id (ArtifactPresentation.slides v)
      ++ evidence_projects (ArtifactPresentation.evidence v)
  | CObservation v => map DesktopElementReference.project_id (DesktopObservation.elements v)
      ++ evidence_projects (DesktopObservation.evidence v)
  | CAction v => DesktopActionTarget.project_id (DesktopAction.target v)
      :: evidence_projects (DesktopAction.evidence v)
  | CMedia v => MediaSource.project_id (MediaAsset.source v)
      :: map MediaRelationship.project_id (MediaAsset.related_assets v)
      ++ evidence_projects (MediaAsset.evidence v)
  | CDevice v => evidence_projects (RemoteDevice.evidence v)
  | CBundle v => evidence_projects (CapabilityBundle.evidence v)
  | CLearning v => map LearningSource.project_id (LearningCandidate.source_tasks v)
      ++ mjoin (map (fun s => evidence_projects (LearningSource.evidence s))
                  (LearningCandidate.source_tasks v))
      ++ evidence_projects (LearningCandidate.evidence v)
  | CWorkGraph v => map WorkGraphNode.project_id (WorkGraph.nodes v)
      ++ evidence_projects (WorkGraph.evidence v)
  end.

Definition in_scope (scope : option (list ProjectId)) (p : ProjectId) : Prop :=
  match scope with Some allowed => p ∈ allowed | None => True end.

Lemma validate_header_Ok version actual expected :
  validate_header version actual expected = Ok tt ->
  version = P1_CONTRACT_VERSION /\ actual = expected.
Proof.
  unfold validate_header. destruct (Z.eqb_spec version P1_CONTRACT_VERSION); [|done].
  simpl. case_bool_decide; done.
Qed.

Lemma existsb_other {A} (project : A -> ProjectId) p l :
  existsb (fun x => negb (bool_decide (project x = p))) l = false ->
  Forall (fun q => q ∈ [p]) (map project l).
Proof.
  intros H%existsb_false. apply Forall_fmap. eapply List.Forall_impl; [|exact H].
  intros x Hx. simpl in *. split_bools. by apply list_elem_of_singleton.
Qed.

Lemma existsb_allowed {A} (project : A -> ProjectId) (allowed : list ProjectId) l :
  existsb (fun x => negb (bool_decide (project x ∈ allowed))) l = false ->
  Forall (fun q => q ∈ allowed) (map project l).
Proof.
  intros H%existsb_false. apply Forall_fmap. eapply List.Forall_impl; [|exact H].
  intros x Hx. simpl in *. by split_bools.
Qed.

Lemma validate_evidence_Ok p (evidence : list (P1EvidenceReference.t Value)) :
  validate_evidence_project p evidence = Ok tt ->
  Forall (fun q => q ∈ [p]) (evidence_projects evidence).
Proof.
  unfold validate_evidence_project. destruct (Nat.ltb _ _); [done|].
  destruct (existsb _ _) eqn:He; [done|]. intros _. by apply existsb_other.
Qed.

(** A loop that rejects the items of another project. *)
Lemma loop_projects {A} (project : A -> ProjectId) (f : A -> res str unit) p l u :
  (forall x, f x = Ok tt -> project x = p) ->
  for_each f l = Ok u -> Forall (fun q => q ∈ [p]) (map project l).
Proof.
  intros Hf. destruct u. intros Hl%for_each_Ok. apply Forall_fmap.
  eapply List.Forall_impl; [|exact Hl]. intros x Hx%Hf. simpl.
  by apply list_elem_of_singleton.
Qed.

Lemma Forall_mjoin_map {A B} (P : B -> Prop) (f : A -> list B) l :
  Forall (fun x => Forall P (f x)) l -> Forall P (mjoin (map f l)).
Proof. induction 1; simpl; [done|]. by apply Forall_app_2. Qed.
End Contracts.

(** One step of [inv_res] leaves a [bool] test on a project; use it. *)
Ltac project_checked :=
  intros ? ?; cbn beta in *; inv_res; split_bools;
  repeat match goal with H : context [bool_decide] |- _ =>
    rewrite ?orb_false_iff in H; destruct_and?; split_bools end; done.

Section Scope.
Context {Value : Type} (parse_from_rfc3339 : str -> bool).

Lemma contract_in_scope (c : contract Value) :
  contract_validate parse_from_rfc3339 c = Ok tt ->
  Forall (in_scope (contract_scope c)) (contract_mentions c).
Proof.
  destruct c as [v|v|v|v|v|v|v|v|v]; simpl; intros H.
  - unfold ArtifactWorkbook_validate in H. inv_res. apply Forall_app_2.
    + eapply loop_projects; [|eassumption]. project_checked.
    + by apply validate_evidence_Ok.
  - unfold ArtifactPresentation_validate in H. inv_res. apply Forall_app_2.
    + eapply loop_projects; [|eassumption]. project_checked.
    + by apply validate_evidence_Ok.
  - unfold DesktopObservation_validate in H. inv_res. apply Forall_app_2.
    + eapply loop_projects; [|eassumption]. project_checked.
    + by apply validate_evidence_Ok.
  - unfold DesktopAction_validate in H. inv_res. constructor.
    + split_bools. by apply list_elem_of_singleton.
    + by apply validate_evidence_Ok.
  - unfold MediaAsset_validate in H. inv_res. split_bools. constructor.
    + by apply list_elem_of_singleton.
    + apply Forall_app_2; [by apply existsb_other | by apply validate_evidence_Ok].
  - unfold RemoteDevice_validate in H. inv_res. split_bools. by apply existsb_allowed.
  - unfold CapabilityBundle_validate in H. inv_res.
    destruct (BundleScope.kind _) eqn:Hk; [|by apply Forall_true].
    split_bools. by apply existsb_allowed.
  - unfold LearningCandidate_validate in H. inv_res.
    repeat match goal with H : for_each _ _ = Ok ?u |- _ => destruct u; apply for_each_Ok in H end.
    apply Forall_app_2; [|apply Forall_app_2; [|by apply validate_evidence_Ok]].
    + apply Forall_fmap. eapply List.Forall_impl; [|eassumption].
      intros src Hx. simpl in *. inv_res. split_bools. by apply list_elem_of_singleton.
    + apply Forall_mjoin_map. eapply List.Forall_impl; [|eassumption].
      intros src Hx. simpl in *. inv_res. by apply validate_evidence_Ok.
  - pose proof (accepted_projects _ (WorkGraph_validate_accepted _ _ H)) as Hn.
    unfold WorkGraph_validate in H. inv_res. apply Forall_app_2.
    + apply Forall_fmap. eapply List.Forall_impl; [|exact Hn].
      intros n Hp. simpl in *. by apply list_elem_of_singleton.
    + by apply validate_evidence_Ok.
Qed.

Lemma contract_header_ok (c : contract Value) :
  contract_validate parse_from_rfc3339 c = Ok tt ->
  exists type, contract_header c = (P1_CONTRACT_VERSION, type, type).
Proof.
  destruct c as [v|v|v|v|v|v|v|v|v]; simpl; intros H;
    [ unfold ArtifactWorkbook_validate in H | unfold ArtifactPresentation_validate in H
    | unfold DesktopObservation_validate in H | unfold DesktopAction_validate in H
    | unfold MediaAsset_validate in H | unfold RemoteDevice_validate in H
    | unfold CapabilityBundle_validate in H | unfold LearningCandidate_validate in H
    | unfold WorkGraph_validate in H ];
    apply bind_Ok in H as ([] & H & _); apply validate_header_Ok in H as [-> ->]; eauto.
Qed.

Lemma validate_string_no_panic value min max label :
  validate_string value min max label <> Panic.
Proof. unfold validate_string. by case_match. Qed.
Hint Resolve validate_string_no_panic : oomu_total.

Lemma hex_len value bytes label u :
  validate_lower_hex value bytes label = Ok u -> str_len value = bytes * 2.
Proof. unfold validate_lower_hex. by destruct (Z.eqb_spec (str_len value) (bytes * 2)). Qed.

Lemma WorkGraph_validate_no_panic (v : WorkGraph.t Value) :
  WorkGraph_validate parse_from_rfc3339 v <> Panic.
Proof.
  unfold WorkGraph_validate.
  assert (Hh : forall a b c, validate_header a b c <> Panic).
  { intros. unfold validate_header. by repeat case_match. }
  assert (Hb : forall b : ResourceBudgetTelemetry.t Value,
    ResourceBudgetTelemetry_validate parse_from_rfc3339 b <> Panic).
  { intros. unfold ResourceBudgetTelemetry_validate, validate_timestamp.
    by repeat case_match. }
  assert (Hn : forall s n, check_node v s n <> Panic).
  { intros. unfold check_node. auto 10 with oomu_total. }
  assert (Hd : forall s (n : WorkGraphNode.t Value), check_dependencies s n <> Panic).
  { intros. unfold check_dependencies. auto with oomu_total. }
  assert (Hc : graph_has_cycle (WorkGraph.nodes v) <> Panic).
  { by destruct (graph_has_cycle_answers (WorkGraph.nodes v)) as (b & -> & _). }
  assert (He : forall p (e : list (P1EvidenceReference.t Value)),
    validate_evidence_project p e <> Panic).
  { intros. unfold validate_evidence_project. repeat case_match; [done..|].
    apply for_each_no_panic. intros. apply validate_string_no_panic. }
  repeat (apply bind_no_panic; [auto with oomu_total | intros ?]). auto.
Qed.

(** A graph that can be run has no cycle, by names. *)
Lemma names_finished nodes (schedule prefix rest : list (WorkGraphNode.t Value)) :
  NoDup (map WorkGraphNode.node_id schedule) -> runs_in_order schedule ->
  (forall n, n ∈ nodes -> n ∈ schedule) -> schedule = prefix ++ rest ->
  finished (depends nodes) (reverse (map WorkGraphNode.node_id prefix)).
Proof.
  intros Hnd Hr Hin. revert rest.
  induction prefix as [|n prefix IH] using rev_ind; intros rest Hs; [constructor|].
  rewrite <- app_assoc in Hs. specialize (IH _ Hs).
  rewrite map_app. simpl. rewrite reverse_snoc.
  assert (Hn : n ∈ schedule) by (rewrite Hs; set_solver).
  constructor; [|rewrite elem_of_reverse|done].
  - intros j (m & Hm & Hid & Hj). rewrite elem_of_reverse.
    assert (m = n) as -> by (by eapply NoDup_map_same; eauto).
    destruct (Hr prefix n rest Hs j Hj) as (e & He & <-).
    apply list_elem_of_fmap. by exists e.
  - intros Hp. rewrite Hs, map_app in Hnd. apply list.NoDup_app in Hnd as (_ & Hd & _).
    apply (Hd _ Hp). left.
Qed.
End Scope.

(** ** A concrete work graph *)
Module P1Demo.
Definition project : ProjectId := OpaqueId (lit "project_a").
Definition node (node_id : string) (depends_on : list string) : WorkGraphNode.t unit :=
  WorkGraphNode.mk unit (lit node_id) WorkGraphNodeKind.Specialist project
    (map lit depends_on) None ∅.
Definition limits : ResourceBudgetLimits.t unit :=
  ResourceBudgetLimits.mk unit 1000 60000 4096 2 3 10 4 5 ∅.
Definition usage : ResourceBudgetUsage.t unit :=
  ResourceBudgetUsage.mk unit 10 100 1024 1 0 4 2 3 2 ∅.
Definition budget : ResourceBudgetTelemetry.t unit :=
  ResourceBudgetTelemetry.mk unit limits usage (lit "2026-01-01T00:00:00Z") ∅.
Definition graph (nodes : list (WorkGraphNode.t unit)) : WorkGraph.t unit :=
  WorkGraph.mk unit 1 P1ContractType.WorkGraph project (OpaqueId (lit "task_a"))
    (OpaqueId (lit "run_a")) (OpaqueId (lit "graph_a")) 1 nodes 4 true budget
    [P1EvidenceReference.mk unit project ObservedResult (lit "receipt") None ∅] ∅.
Definition diamond : list (WorkGraphNode.t unit) :=
  [node "join" ["left"; "right"]; node "left" ["start"]; node "right" ["start"];
   node "start" []].
Definition looping : list (WorkGraphNode.t unit) :=
  [node "a" ["b"]; node "b" ["c"]; node "c" ["a"]].
Definition rfc3339 (value : str) : bool := Nat.eqb (length value) 20.

Lemma diamond_accepted : WorkGraph_validate rfc3339 (graph diamond) = Ok tt.
Proof. vm_compute. reflexivity. Qed.

Definition key : str := lit (String.concat "" (repeat "ab"%string 32)).
Definition envelope : SignedEnvelope.t unit :=
  SignedEnvelope.mk unit SignatureAlgorithm.Ed25519 (lit "key-1") key (key ++ key)
    (lit "2026-01-01T00:00:00Z") ∅.
Definition bundle : CapabilityBundle.t unit :=
  CapabilityBundle.mk unit 1 P1ContractType.CapabilityBundle (OpaqueId (lit "bundle_a"))
    (lit "Reports") (lit "1.2.0-beta.1") (BundlePublisher.mk unit (lit "p") (lit "P") ∅)
    (BundleScope.mk unit BundleScopeKind.Project [project] ∅)
    [CapabilityKind.File; CapabilityKind.Network]
    [RequestedCapabilityGrant.mk unit CapabilityKind.File (lit "docs") (lit "read") ∅]
    key [P1EvidenceReference.mk unit project ObservedResult (lit "receipt") None ∅]
    envelope ∅.

Lemma bundle_accepted : CapabilityBundle_validate rfc3339 bundle = Ok tt.
Proof. vm_compute. reflexivity. Qed.
End P1Demo.

(** ** Properties *)
(** A contract that its [Deserialize] instance accepts has the supported version,
    the type of its schema, and names no project outside the scope it declares: its own
    project, the projects a device is paired with, or the projects a bundle is scoped
    to. *)
Theorem accepted_contract_stays_in_scope {Value} (parse : str -> bool) (c : contract Value) :
  contract_validate parse c = Ok tt ->
  (exists type, contract_header c = (P1_CONTRACT_VERSION, type, type)) /\
  Forall (in_scope (contract_scope c)) (contract_mentions c).
Proof.
  intros H. split; [by eapply contract_header_ok | by eapply contract_in_scope].
Qed.

Lemma accepted_contract_stays_in_scope_witness :
  Forall (in_scope (contract_scope (CBundle P1Demo.bundle)))
    (contract_mentions (CBundle P1Demo.bundle)).
Proof.
  apply (accepted_contract_stays_in_scope P1Demo.rfc3339 (CBundle P1Demo.bundle)).
  exact P1Demo.bundle_accepted.
Defined.

(** The recursive search of [graph_has_cycle] always answers, neither running out
    of stack depth (one level per node suffices) nor indexing out of range, and answers
    [true] exactly when some node reaches itself along the dependencies the search
    resolves. *)
Theorem cycle_search_decides {Value} (nodes : list (WorkGraphNode.t Value)) :
  exists found, graph_has_cycle nodes = Ok found /\
    (found = true <-> exists i, tc (edge nodes) i i).
Proof.
  destruct (graph_has_cycle_answers nodes) as (found & Hf & H). exists found.
  split; [done|]. destruct found; [naive_solver|]. split; [done|].
  destruct H as (order & Hfin & Hp). intros (i & Hi). exfalso.
  eapply finished_acyclic; [done| |done]. rewrite Hp. apply elem_of_seq.
  assert (exists j, edge nodes i j) as (j & n & d & Hn & _) by (inversion Hi; eauto).
  apply lookup_lt_Some in Hn. lia.
Qed.

(** The nodes of an accepted work graph have distinct identifiers and can be run:
    there is an order of all of them in which every dependency of a node is the
    identifier of a node before it. *)
Theorem accepted_work_graph_can_run {Value} (parse : str -> bool) (v : WorkGraph.t Value) :
  WorkGraph_validate parse v = Ok tt ->
  NoDup (map WorkGraphNode.node_id (WorkGraph.nodes v)) /\
  exists schedule, schedule ≡ₚ WorkGraph.nodes v /\ runs_in_order schedule.
Proof.
  intros H%WorkGraph_validate_accepted.
  split; [by apply accepted_distinct | by apply accepted_schedule].
Qed.

Lemma accepted_work_graph_can_run_witness :
  exists schedule, schedule ≡ₚ P1Demo.diamond /\ runs_in_order schedule.
Proof.
  exact (proj2 (accepted_work_graph_can_run P1Demo.rfc3339 (P1Demo.graph P1Demo.diamond)
    P1Demo.diamond_accepted)).
Defined.

(** A work graph in which some node depends on itself, directly or through
    others, is refused with an error (and not by a panic). *)
Theorem cyclic_work_graph_is_rejected {Value} (parse : str -> bool) (v : WorkGraph.t Value) a :
  tc (depends (WorkGraph.nodes v)) a a -> exists e, WorkGraph_validate parse v = Err e.
Proof.
  intros Ha. destruct (no_panic_cases _ (WorkGraph_validate_no_panic parse v))
    as [[[] H%WorkGraph_validate_accepted]|He]; [|done].
  destruct (accepted_schedule v H) as (s & Hp & Hr). exfalso.
  eapply finished_acyclic; [apply (names_finished (WorkGraph.nodes v) s s [])| |exact Ha].
  - rewrite Hp. by apply accepted_distinct.
  - done.
  - intros n. by rewrite Hp.
  - by rewrite app_nil_r.
  - rewrite elem_of_reverse, Hp.
    assert (exists b, depends (WorkGraph.nodes v) a b) as (b & n & Hn & <- & _)
      by (inversion Ha; eauto).
    apply list_elem_of_fmap. by exists n.
Qed.

Lemma cyclic_work_graph_is_rejected_witness :
  exists e, WorkGraph_validate P1Demo.rfc3339 (P1Demo.graph P1Demo.looping) = Err e.
Proof.
  apply (cyclic_work_graph_is_rejected _ _ (lit "a")).
  apply tc_l with (lit "b"); [|apply tc_l with (lit "c"); [|apply tc_once]].
  - exists (P1Demo.node "a" ["b"]). split_and!; [left | done | left].
  - exists (P1Demo.node "b" ["c"]). split_and!; [right; left | done | left].
  - exists (P1Demo.node "c" ["a"]). split_and!; [right; right; left | done | left].
Defined.

(** An accepted work graph runs at most eight children at once and as many as its
    budget declares; what it reports as used is within every limit, and it never
    committed more mutations than it attempted. *)
Theorem accepted_budget_is_kept {Value} (parse : str -> bool) (v : WorkGraph.t Value) :
  WorkGraph_validate parse v = Ok tt ->
  let limits := ResourceBudgetTelemetry.limits (WorkGraph.resource_budget v) in
  let usage := ResourceBudgetTelemetry.usage (WorkGraph.resource_budget v) in
  1 <= WorkGraph.max_concurrent_children v <= 8 /\
  WorkGraph.max_concurrent_children v = ResourceBudgetLimits.concurrent_children limits /\
  ResourceBudgetUsage.peak_concurrent_children usage <= WorkGraph.max_concurrent_children v /\
  ResourceBudgetUsage.tokens usage <= ResourceBudgetLimits.tokens limits /\
  ResourceBudgetUsage.wall_time_ms usage <= ResourceBudgetLimits.wall_time_ms limits /\
  ResourceBudgetUsage.peak_memory_bytes usage <= ResourceBudgetLimits.memory_bytes limits /\
  ResourceBudgetUsage.processes usage <= ResourceBudgetLimits.processes limits /\
  ResourceBudgetUsage.network_requests usage <= ResourceBudgetLimits.network_requests limits /\
  ResourceBudgetUsage.tool_calls usage <= ResourceBudgetLimits.tool_calls limits /\
  ResourceBudgetUsage.mutations_committed usage <= ResourceBudgetUsage.mutation_attempts usage
    <= ResourceBudgetLimits.mutations limits.
Proof.
  intros H. unfold WorkGraph_validate in H. inv_res.
  match goal with H : ResourceBudgetTelemetry_validate _ _ = Ok _ |- _ =>
    unfold ResourceBudgetTelemetry_validate in H;
    destruct (within_budget _ _) eqn:Hw; [clear H | done] end.
  unfold within_budget in Hw. split_bools. unfold in_range in *. lia.
Qed.

Lemma accepted_budget_is_kept_witness : 1 <= 4 <= 8.
Proof.
  exact (proj1 (accepted_budget_is_kept P1Demo.rfc3339 (P1Demo.graph P1Demo.diamond)
    P1Demo.diamond_accepted)).
Defined.

(** An accepted capability bundle asks only for capabilities it declares,
    and its signature is made over the digest of the payload it names. *)
Theorem accepted_bundle_is_consistent {Value} (parse : str -> bool)
    (v : CapabilityBundle.t Value) :
  CapabilityBundle_validate parse v = Ok tt ->
  Forall (fun grant => RequestedCapabilityGrant.capability grant
                         ∈ CapabilityBundle.capabilities v) (CapabilityBundle.requested_grants v) /\
  SignedEnvelope.payload_sha256 (CapabilityBundle.signature v)
    = CapabilityBundle.payload_sha256 v /\
  str_len (CapabilityBundle.payload_sha256 v) = 64 /\
  str_len (SignedEnvelope.signature (CapabilityBundle.signature v)) = 128.
Proof.
  intros H. unfold CapabilityBundle_validate, SignedEnvelope_validate in H. inv_res.
  repeat match goal with H : for_each _ _ = Ok ?u |- _ => destruct u; apply for_each_Ok in H end.
  split_and!.
  - eapply List.Forall_impl; [|eassumption]. intros grant Hg. cbn beta in Hg. inv_res.
    by split_bools.
  - split_bools. symmetry. by apply str_eqb_eq.
  - by eapply (hex_len _ 32).
  - by eapply (hex_len _ 64).
Qed.

Lemma accepted_bundle_is_consistent_witness :
  Forall (fun grant => RequestedCapabilityGrant.capability grant
                         ∈ CapabilityBundle.capabilities P1Demo.bundle)
    (CapabilityBundle.requested_grants P1Demo.bundle).
Proof.
  exact (proj1 (accepted_bundle_is_consistent P1Demo.rfc3339 P1Demo.bundle
    P1Demo.bundle_accepted)).
Defined.
