(* ===== verification/RustHash.v ===== *)
(** * Hash maps and hash sets

    The iteration order of a [HashMap] or a [HashSet] is unspecified and changes
    from run to run.  A definition that iterates over one takes the order from
    the class [HashOrder]; a theorem proved for every instance holds whatever
    the order is.  At the end, the debug text of values ([{:?}]). *)
From S2P Require Import Prelude.
From S2P Require Import RustStr.

Class HashOrder : Type := {
  set_iter : gset str -> list str;
  map_iter : forall {A : Type}, gmap str A -> list (str * A);
  set_iter_perm : forall X, set_iter X ≡ₚ elements X;
  map_iter_perm : forall A (m : gmap str A), map_iter m ≡ₚ map_to_list m;
}.

(** The order of the finite maps themselves, and its reverse. *)
Module KeyOrder.
#[export] Instance order : HashOrder.
Proof.
  by refine {| set_iter := elements; map_iter A := map_to_list |}.
Defined.
End KeyOrder.

Module ReverseOrder.
#[export] Instance order : HashOrder.
Proof.
  refine {| set_iter X := rev (elements X); map_iter A m := rev (map_to_list m) |}.
  - intros X. apply Permutation_sym, Permutation_rev.
  - intros A m. apply Permutation_sym, Permutation_rev.
Defined.
End ReverseOrder.

Section Iteration.
Context {H : HashOrder}.

Lemma elem_of_set_iter x X : x ∈ set_iter X <-> x ∈ X.
Proof. by rewrite set_iter_perm, elem_of_elements. Qed.
Lemma elem_of_map_iter {A} (m : gmap str A) k x : (k, x) ∈ map_iter m <-> m !! k = Some x.
Proof. by rewrite map_iter_perm, elem_of_map_to_list. Qed.
Lemma NoDup_set_iter X : NoDup (set_iter X).
Proof. rewrite set_iter_perm. apply NoDup_elements. Qed.
Lemma NoDup_map_iter {A} (m : gmap str A) : NoDup (map_iter m).*1.
Proof. rewrite map_iter_perm. apply NoDup_fst_map_to_list. Qed.
End Iteration.

(** [HashMap::entry(k).or_default()] of a counter and of a vector. *)
Definition entry_add (k : str) (m : gmap str nat) : gmap str nat :=
  <[k := S (default 0%nat (m !! k))]> m.
Definition entry_push {A} (k : str) (x : A) (m : gmap str (list A)) : gmap str (list A) :=
  <[k := default [] (m !! k) ++ [x]]> m.

Section Entries.
Context {A B : Type}.

(** Collecting with [entry(key).or_default().push(x)] groups a list by key. *)
Lemma entry_push_group (key : A -> str) (val : A -> B) l m k :
  default [] (foldl (fun m x => entry_push (key x) (val x) m) m l !! k) =
  default [] (m !! k) ++ map val (filter (fun x => key x = k) l).
Proof.
  revert m. induction l as [|x l IH]; intros m; simpl.
  - by rewrite app_nil_r.
  - rewrite IH, filter_cons. unfold entry_push.
    destruct (decide (key x = k)) as [->|Hne].
    + rewrite lookup_insert_eq. cbn. by rewrite <- app_assoc.
    + by rewrite lookup_insert_ne.
Qed.

Lemma entry_add_count (key : A -> str) l m k :
  default 0%nat (foldl (fun m x => entry_add (key x) m) m l !! k) =
  (default 0 (m !! k) + length (filter (fun x => key x = k) l))%nat.
Proof.
  revert m. induction l as [|x l IH]; intros m; simpl.
  - lia.
  - rewrite IH, filter_cons. unfold entry_add.
    destruct (decide (key x = k)) as [->|Hne].
    + rewrite lookup_insert_eq. cbn. lia.
    + by rewrite lookup_insert_ne.
Qed.
End Entries.

(** What is kept of an unordered iteration. *)
Lemma filter_perm {A} (p : A -> bool) l l' : l ≡ₚ l' -> List.filter p l ≡ₚ List.filter p l'.
Proof.
  induction 1 as [|x l l' _ IH|x y l|? ? ? _ IH1 _ IH2]; cbn [List.filter]; repeat case_match;
    by rewrite ?IH || constructor || etrans.
Qed.

(** ** The [Debug] form of strings and options

    [format!("{:?}", text)] of the standard library.  Which characters print and
    which extend a grapheme are tables of Unicode, taken from the class
    [UnicodeTables]; the escapes are written here. *)
Local Open Scope Z_scope.

Class UnicodeTables : Type := {
  grapheme_extended : Z -> bool;
  printable : Z -> bool;
}.

Definition hex_digit (d : Z) : Z := if d <? 10 then 48 + d else 87 + d.
Fixpoint show_hex_aux (fuel : nat) (n : Z) (acc : str) : str :=
  match fuel with
  | O => acc
  | S fuel =>
      let acc := hex_digit (n mod 16) :: acc in
      if n / 16 =? 0 then acc else show_hex_aux fuel (n / 16) acc
  end.
(** A scalar value has at most six hexadecimal digits. *)
Definition show_hex (n : Z) : str := show_hex_aux 6 n [].

Section Debug.
Context {U : UnicodeTables}.

(** [char::escape_debug_ext], as [<str as Debug>::fmt] calls it. *)
Definition escape_debug (c : Z) : str :=
  if c =? 0 then lit "\0"
  else if c =? 9 then lit "\t"
  else if c =? 13 then lit "\r"
  else if c =? 10 then lit "\n"
  else if c =? 92 then lit "\\"
  else if c =? 34 then [92; 34]
  else if grapheme_extended c || negb (printable c) then lit "\u{" ++ show_hex c ++ lit "}"
  else [c].
Definition debug_str (s : str) : str := [34] ++ flat_map escape_debug s ++ [34].
End Debug.

(** [Option<i32>] *)
Definition debug_option_int (o : option Z) : str :=
  match o with Some n => lit "Some(" ++ show_int n ++ lit ")" | None => lit "None" end.

(** The tables restricted to ASCII, everything else printing. *)
Module AsciiTables.
#[export] Instance tables : UnicodeTables := {|
  grapheme_extended _ := false;
  printable c := negb (in_range 0 31 c || (c =? 127));
|}.
End AsciiTables.
