(* ===== verification/JsonValue.v ===== *)
(** * JSON values

    The engine passes JSON around as [serde_json::Value] and matches on its
    constructors.  The numbers of the library and its text form are the classes
    [JsonLib] and [JsonText]; the enum and the object operations the engine uses
    are written here.  An object is kept sorted by key, as the library's
    [Map] is (a [BTreeMap], the crate being built without [preserve_order]). *)
From S2P Require Import Prelude.
From S2P Require Import RustStr.

Class JsonLib : Type := {
  Number : Type;
  Number_eq_dec :: EqDecision Number;
  number_of_u64 : Z -> Number;
  number_of_i64 : Z -> Number;
  as_u64_number : Number -> option Z;
  F64 : Type;
  as_f64_number : Number -> option F64;
  f64_lt : F64 -> F64 -> bool;
  f64_le : F64 -> F64 -> bool;
}.

Module Value.
Inductive t `{J : JsonLib} : Type :=
| Null
| Bool (b : bool)
| Number (n : JsonValue.Number)
| String (s : str)
| Array (items : list t)
| Object (fields : list (str * t)).
End Value.
Notation Value := Value.t.

(** The text form of a value and its reader. *)
Class JsonText `{J : JsonLib} : Type := {
  to_string : Value -> str;
  from_str : str -> option Value;
}.

(** [str] comparison: the order of the UTF-8 bytes is the order of the scalar
    values. *)
Fixpoint str_ltb (s t : str) : bool :=
  match s, t with
  | [], _ :: _ => true
  | a :: s', b :: t' => (a <? b)%Z || ((a =? b)%Z && str_ltb s' t')
  | _, [] => false
  end.

Section Objects.
Context {J : JsonLib}.
Notation Fields := (list (str * Value)).

Fixpoint obj_get (k : str) (o : Fields) : option Value :=
  match o with
  | [] => None
  | (k', v) :: o' => if str_eqb k k' then Some v else obj_get k o'
  end.
Fixpoint obj_insert (k : str) (v : Value) (o : Fields) : Fields :=
  match o with
  | [] => [(k, v)]
  | (k', v') :: o' =>
      if str_eqb k k' then (k, v) :: o'
      else if str_ltb k k' then (k, v) :: o
      else (k', v') :: obj_insert k v o'
  end.
Definition obj_remove (k : str) (o : Fields) : Fields :=
  List.filter (fun kv => negb (str_eqb k kv.1)) o.
Definition obj_contains_key (k : str) (o : Fields) : bool :=
  match obj_get k o with Some _ => true | None => false end.
(** [Map::from_iter] and the [json!] macro. *)
Definition obj_from (l : Fields) : Fields :=
  foldl (fun o kv => obj_insert kv.1 kv.2 o) [] l.
Definition json_obj (l : list (string * Value)) : Value :=
  Value.Object (obj_from (map (fun kv => (lit kv.1, kv.2)) l)).
Definition json_str (s : string) : Value := Value.String (lit s).
Definition json_opt (o : option Value) : Value := default Value.Null o.
Definition json_u64 (n : Z) : Value := Value.Number (number_of_u64 n).

(** [Value::get] by name, [pointer] along names, and the views. *)
Definition get (k : str) (v : Value) : option Value :=
  match v with Value.Object o => obj_get k o | _ => None end.
Fixpoint pointer (path : list string) (v : Value) : option Value :=
  match path with
  | [] => Some v
  | k :: path' => match get (lit k) v with Some v' => pointer path' v' | None => None end
  end.
Definition as_str (v : Value) : option str :=
  match v with Value.String s => Some s | _ => None end.
Definition as_bool (v : Value) : option bool :=
  match v with Value.Bool b => Some b | _ => None end.
Definition as_array (v : Value) : option (list Value) :=
  match v with Value.Array l => Some l | _ => None end.
Definition as_object (v : Value) : option Fields :=
  match v with Value.Object o => Some o | _ => None end.
Definition as_u64 (v : Value) : option Z :=
  match v with Value.Number n => as_u64_number n | _ => None end.
Definition as_f64 (v : Value) : option F64 :=
  match v with Value.Number n => as_f64_number n | _ => None end.

Lemma obj_get_insert_eq k v o : obj_get k (obj_insert k v o) = Some v.
Proof.
  induction o as [|[k' v'] o IH]; simpl; [by rewrite str_eqb_refl|].
  destruct (str_eqb k k') eqn:Hk; simpl; [by rewrite str_eqb_refl|].
  destruct (str_ltb k k'); simpl; [by rewrite str_eqb_refl|]. by rewrite Hk.
Qed.

Lemma obj_get_insert_ne k k' v o : k <> k' -> obj_get k (obj_insert k' v o) = obj_get k o.
Proof.
  intros Hne. assert (str_eqb k k' = false) as Hk
    by (destruct (str_eqb k k') eqn:E; [by apply str_eqb_eq in E|done]).
  induction o as [|[k2 v2] o IH]; simpl; [by rewrite Hk|].
  destruct (str_eqb k' k2) eqn:Hk2; simpl.
  - apply str_eqb_eq in Hk2 as <-. by rewrite Hk.
  - destruct (str_ltb k' k2); simpl; [by rewrite Hk|]. by rewrite IH.
Qed.
End Objects.

(** Structural induction that reaches into arrays and objects. *)
Section Induction.
Context {J : JsonLib} (P : Value -> Prop).
Hypothesis (Hnull : P Value.Null) (Hbool : forall b, P (Value.Bool b))
  (Hnum : forall n, P (Value.Number n)) (Hstr : forall s, P (Value.String s))
  (Harr : forall l, Forall P l -> P (Value.Array l))
  (Hobj : forall o, Forall (fun kv => P kv.2) o -> P (Value.Object o)).

Fixpoint Value_nested_ind (v : Value) : P v :=
  match v with
  | Value.Null => Hnull
  | Value.Bool b => Hbool b
  | Value.Number n => Hnum n
  | Value.String s => Hstr s
  | Value.Array l =>
      Harr l ((fix go l : Forall P l :=
                 match l with
                 | [] => List.Forall_nil _
                 | x :: l' => List.Forall_cons _ _ _ (Value_nested_ind x) (go l')
                 end) l)
  | Value.Object o =>
      Hobj o ((fix go o : Forall (fun kv => P kv.2) o :=
                 match o with
                 | [] => List.Forall_nil _
                 | kv :: o' => List.Forall_cons _ _ _ (Value_nested_ind kv.2) (go o')
                 end) o)
  end.
End Induction.

(** [PartialEq] of values. *)
Section Equality.
Context {J : JsonLib}.

Fixpoint value_eqb (v w : Value) : bool :=
  match v, w with
  | Value.Null, Value.Null => true
  | Value.Bool a, Value.Bool b => Bool.eqb a b
  | Value.Number a, Value.Number b => bool_decide (a = b)
  | Value.String a, Value.String b => str_eqb a b
  | Value.Array l, Value.Array m =>
      (fix go l m := match l, m with
                     | [], [] => true
                     | x :: l', y :: m' => value_eqb x y && go l' m'
                     | _, _ => false
                     end) l m
  | Value.Object l, Value.Object m =>
      (fix go l m := match l, m with
                     | [], [] => true
                     | (k, x) :: l', (k', y) :: m' =>
                         str_eqb k k' && value_eqb x y && go l' m'
                     | _, _ => false
                     end) l m
  | _, _ => false
  end.

Lemma value_eqb_eq v w : value_eqb v w = true <-> v = w.
Proof.
  revert w. induction v as [|b|n|s|l IH|o IH] using Value_nested_ind; intros w;
    destruct w as [|b'|n'|s'|m|m]; try (by split; discriminate 1); simpl.
  - done.
  - rewrite Bool.eqb_true_iff. split; congruence.
  - rewrite bool_decide_eq_true. split; congruence.
  - rewrite str_eqb_eq. split; congruence.
  - transitivity (l = m); [|split; congruence]. revert m.
    induction IH as [|x l Hx Hl IHl]; intros [|y m]; try (by split; congruence).
    rewrite andb_true_iff, Hx, IHl. split; [by intros [-> ->]|by intros [= -> ->]].
  - transitivity (o = m); [|split; congruence]. revert m.
    induction IH as [|[k x] l Hx Hl IHl]; intros [|[k' y] m]; try (by split; congruence).
    cbn in Hx. rewrite !andb_true_iff, str_eqb_eq, Hx, IHl.
    split; [by intros [[-> ->] ->]|by intros [= -> -> ->]].
Qed.

#[export] Instance Value_eq_dec : EqDecision Value.
Proof.
  refine (fun v w => cast_if (decide (value_eqb v w = true))); by rewrite <- value_eqb_eq.
Defined.
End Equality.

(** ** An instance: the numbers are integers, the text form names the kind *)
Module IntegerJson.
#[export] Instance lib : JsonLib := {|
  Number := Z;
  number_of_u64 n := n;
  number_of_i64 n := n;
  as_u64_number n := if in_u64 n then Some n else None;
  F64 := Z;
  as_f64_number n := Some n;
  f64_lt := Z.ltb;
  f64_le := Z.leb;
|}.

Definition show_scalar (v : Value) : str :=
  match v with
  | Value.Null => lit "null"
  | Value.Bool b => if b then lit "true" else lit "false"
  | Value.Number n => show_int n
  | Value.String s => [34%Z] ++ s ++ [34%Z]
  | Value.Array _ => lit "[]"
  | Value.Object _ => lit "{}"
  end.
Definition read_scalar (s : str) : option Value :=
  if str_eqb s (lit "null") then Some Value.Null
  else if str_eqb s (lit "true") then Some (Value.Bool true)
  else if str_eqb s (lit "false") then Some (Value.Bool false)
  else option_map Value.Number (parse_i64 s).
#[export] Instance text : JsonText := {| to_string := show_scalar; from_str := read_scalar |}.
End IntegerJson.

(** ** A text form that is read back

    A prefix code with lengths in place of brackets: every value is read back
    exactly, which is what the stored documents of the engine rely on. *)
Module PrefixText.
Import IntegerJson.

Fixpoint write (v : Value) : str :=
  match v with
  | Value.Null => [0]
  | Value.Bool b => [1; if b then 1 else 0]
  | Value.Number n => [2; n]
  | Value.String s => 3 :: Z.of_nat (length s) :: s
  | Value.Array l => 4 :: Z.of_nat (length l) :: flat_map write l
  | Value.Object o =>
      5 :: Z.of_nat (length o)
        :: flat_map (fun kv => (Z.of_nat (length kv.1) :: kv.1) ++ write kv.2) o
  end%Z.

Definition read_str (s : str) : option (str * str) :=
  match s with
  | n :: s' => Some (take (Z.to_nat n) s', drop (Z.to_nat n) s')
  | [] => None
  end.

Section Many.
Context {A : Type} (one : str -> option (A * str)).
Fixpoint many (n : nat) (s : str) : option (list A * str) :=
  match n with
  | O => Some ([], s)
  | S n =>
      match one s with
      | Some (x, s') =>
          match many n s' with Some (l, r) => Some (x :: l, r) | None => None end
      | None => None
      end
  end.
End Many.

Fixpoint read (fuel : nat) (s : str) : option (Value * str) :=
  match fuel, s with
  | S fuel, 0 :: s' => Some (Value.Null, s')
  | S fuel, 1 :: b :: s' => Some (Value.Bool (b =? 1), s')
  | S fuel, 2 :: n :: s' => Some (Value.Number n, s')
  | S fuel, 3 :: s' =>
      match read_str s' with Some (x, r) => Some (Value.String x, r) | None => None end
  | S fuel, 4 :: n :: s' =>
      match many (read fuel) (Z.to_nat n) s' with
      | Some (l, r) => Some (Value.Array l, r)
      | None => None
      end
  | S fuel, 5 :: n :: s' =>
      match many (fun s => match read_str s with
                           | Some (k, r) =>
                               match read fuel r with
                               | Some (v, r') => Some ((k, v), r')
                               | None => None
                               end
                           | None => None
                           end) (Z.to_nat n) s' with
      | Some (o, r) => Some (Value.Object o, r)
      | None => None
      end
  | _, _ => None
  end%Z.

#[export] Instance text : JsonText := {|
  to_string := write;
  from_str s := match read (S (length s)) s with Some (v, []) => Some v | _ => None end;
  |}.

Lemma read_str_write (k r : str) : read_str (Z.of_nat (length k) :: k ++ r) = Some (k, r).
Proof. simpl. by rewrite Nat2Z.id, take_app_length, drop_app_length. Qed.

Lemma many_write {A} (one : str -> option (A * str)) (w : A -> str) l r :
  Forall (fun x => forall r, one (w x ++ r) = Some (x, r)) l ->
  many one (length l) (flat_map w l ++ r) = Some (l, r).
Proof.
  induction 1 as [|x l Hx _ IH]; [done|]. simpl. by rewrite <- app_assoc, Hx, IH.
Qed.

Lemma length_flat_map_le {A} (w : A -> str) l x :
  x ∈ l -> (length (w x) <= length (flat_map w l))%nat.
Proof. induction 1; simpl; rewrite length_app; lia. Qed.

Lemma read_write v fuel r : (length (write v) <= fuel)%nat -> read fuel (write v ++ r) = Some (v, r).
Proof.
  revert fuel r. induction v as [|b|n|s|l IH|o IH] using Value_nested_ind;
    intros [|fuel] r Hf; simpl in Hf; try (by (exfalso; lia)); try done.
  - by destruct b.
  - cbn [write app]. change (read (S fuel) (3%Z :: ?s')) with
      (match read_str s' with Some (x, r) => Some (Value.String x, r) | None => None end).
    by rewrite read_str_write.
  - cbn [write app]. cbn [read]. rewrite Nat2Z.id, (many_write _ write); [done|].
    apply list.Forall_forall. intros x Hx r'. rewrite list.Forall_forall in IH.
    apply IH; [done|]. pose proof (length_flat_map_le write l x Hx). lia.
  - cbn [write app]. cbn [read]. rewrite Nat2Z.id.
    rewrite (many_write _ (fun kv => (Z.of_nat (length kv.1) :: kv.1) ++ write kv.2)); [done|].
    apply list.Forall_forall. intros [k v] Hx r'. rewrite list.Forall_forall in IH.
    simpl fst. simpl snd. rewrite <- app_assoc, <- app_comm_cons, read_str_write.
    rewrite (IH _ Hx); [done|].
    pose proof (length_flat_map_le (fun kv => (Z.of_nat (length kv.1) :: kv.1) ++ write kv.2) o _ Hx) as Hl.
    cbn in Hl |- *. rewrite length_app in Hl. lia.
Qed.

Lemma from_str_to_string v : from_str (to_string v) = Some v.
Proof.
  cbn [from_str to_string text]. rewrite <- (app_nil_r (write v)) at 2.
  rewrite read_write; [done|]. rewrite ?app_nil_r. lia.
Qed.
End PrefixText.
