(* ===== verification/Graph.v ===== *)
(** * Graph algorithms shared by the components

    Two algorithms recur in the engine, each written out where it is used: a
    worklist search (a queue or a stack of nodes and a visited set), and Kahn's
    topological sort (counters of incoming edges and a queue of ready nodes).
    Their invariants, their measures and what they give at the end are here, for
    any list of edges. *)
From stdpp Require Import relations.
From S2P Require Import Prelude.

Section Edges.
Context {A : Type} `{Countable A}.
Implicit Types (edges : list (A * A)) (u v s : A).

Definition succs edges u : list A := map snd (filter (fun e => e.1 = u) edges).
Definition step edges u v : Prop := (u, v) ∈ edges.

Lemma elem_of_succs edges u v : v ∈ succs edges u <-> step edges u v.
Proof.
  unfold succs, step. rewrite list_elem_of_fmap. split.
  - intros ([u' v'] & -> & [Hu He]%list_elem_of_filter). by simpl in Hu; subst.
  - intros He. exists (u, v). by rewrite list_elem_of_filter.
Qed.

Definition acyclic edges : Prop := forall v, ~ tc (step edges) v v.

Lemma tc_source (R : A -> A -> Prop) u v : tc R u v -> exists w, R u w.
Proof. by inversion 1; eexists. Qed.

(** A finite set in which every node has a predecessor holds a cycle: a long
    enough chain of predecessors repeats a node. *)
Inductive chain (R : A -> A -> Prop) : list A -> Prop :=
| chain_one v : chain R [v]
| chain_cons u v l : R u v -> chain R (v :: l) -> chain R (u :: v :: l).

Lemma chain_tc R u l v : chain R (u :: l) -> v ∈ l -> tc R u v.
Proof.
  revert u. induction l as [|w l IH]; intros u Hc Hin; [by apply elem_of_nil in Hin|].
  inversion Hc as [|? ? ? Huw Hl]; subst.
  apply elem_of_cons in Hin as [->|Hin]; [by apply tc_once|].
  eapply tc_l; [done|by apply IH].
Qed.

Lemma chain_repeats R l : chain R l -> ~ NoDup l -> exists v, tc R v v.
Proof.
  induction l as [|u l IH]; intros Hc Hnd; [by destruct Hnd; constructor|].
  destruct (decide (u ∈ l)) as [Hin|Hin]; [exists u; by eapply chain_tc|].
  inversion Hc as [|? v l' ? Hl]; subst.
  - destruct Hnd. constructor; [done|constructor].
  - apply IH; [done|]. intros Hl'. apply Hnd. by constructor.
Qed.

Lemma no_source_has_cycle R (X : gset A) x :
  x ∈ X -> (forall v, v ∈ X -> exists u, u ∈ X /\ R u v) -> exists v, tc R v v.
Proof.
  intros Hx Hpred.
  assert (forall n, exists u l, length l = n /\ chain R (u :: l) /\ (forall v, v ∈ u :: l -> v ∈ X))
    as Hlong.
  { induction n as [|n (u & l & Hlen & Hc & Hin)].
    - exists x, []. split_and!; [done|constructor|]. set_solver.
    - destruct (Hpred u) as (w & Hw & Hstep); [apply Hin; left|].
      exists w, (u :: l). split_and!; [simpl; by rewrite Hlen|by constructor|]. set_solver. }
  destruct (Hlong (size X)) as (u & l & Hlen & Hc & Hin).
  apply (chain_repeats R (u :: l) Hc). intros Hnd.
  assert (size (list_to_set (C := gset A) (u :: l)) <= size X)%nat as Hsz.
  { apply subseteq_size. intros v Hv%elem_of_list_to_set. by apply Hin. }
  rewrite size_list_to_set in Hsz by done. simpl in Hsz. lia.
Qed.

(** ** Worklist search

    Only the nodes of [keep] are entered. *)
Section Search.
Context (edges : list (A * A)) (keep : A -> Prop) (starts : list A).
Implicit Types (visited : gset A) (pending : list A).

Definition kept_step u v : Prop := step edges u v /\ keep v.
Definition reached v : Prop := exists s, s ∈ starts /\ keep s /\ rtc kept_step s v.

Record searching visited pending : Prop := {
  se_visited : forall v, v ∈ visited -> reached v;
  se_pending : forall v, v ∈ pending -> keep v -> reached v;
  se_starts : forall s, s ∈ starts -> keep s -> s ∈ visited \/ s ∈ pending;
  se_closed : forall u v, u ∈ visited -> kept_step u v -> v ∈ visited \/ v ∈ pending;
}.

Lemma searching_start : searching ∅ starts.
Proof.
  split.
  - set_solver.
  - intros v Hv Hk. by exists v.
  - by right.
  - set_solver.
Qed.

(** A node taken from the worklist that is already visited, or is not kept. *)
Lemma searching_skip visited pending pending' u :
  searching visited pending -> (forall v, v ∈ pending <-> v = u \/ v ∈ pending') ->
  u ∈ visited \/ ~ keep u -> searching visited pending'.
Proof.
  intros [Hv Hp Hs Hc] Hpop Hu. split.
  - done.
  - intros v Hin. apply Hp, Hpop. by right.
  - intros s Hin Hk. destruct (Hs s Hin Hk) as [?|[->|?]%Hpop]; naive_solver.
  - intros a b Ha Hb. destruct (Hc a b Ha Hb) as [?|[->|?]%Hpop]; [by left| |by right].
    destruct Hu as [?|Hu]; [by left|]. by destruct Hu, Hb.
Qed.

(** A fresh node is entered and its successors join the worklist. *)
Lemma searching_visit visited pending pending' u :
  searching visited pending -> u ∈ pending -> keep u ->
  (forall v, v ∈ pending -> v = u \/ v ∈ pending') ->
  (forall v, v ∈ pending' -> v ∈ pending \/ v ∈ succs edges u) ->
  (forall v, kept_step u v -> v ∈ pending') -> searching ({[u]} ∪ visited) pending'.
Proof.
  intros [Hv Hp Hs Hc] Hu Hk Hpop Hsub Hpush.
  assert (reached u) as Hru by auto. split.
  - intros v [->%elem_of_singleton|?]%elem_of_union; auto.
  - intros v [?|?%elem_of_succs]%Hsub Hkv; [by auto|].
    destruct Hru as (s & ? & ? & ?). exists s. split_and!; try done.
    by eapply rtc_r.
  - intros s Hin Hks. destruct (Hs s Hin Hks) as [?|[->|?]%Hpop]; set_solver.
  - intros a b [->%elem_of_singleton|Ha]%elem_of_union Hb; [by right; auto|].
    destruct (Hc a b Ha Hb) as [?|[->|?]%Hpop]; set_solver.
Qed.

Lemma searching_done visited v : searching visited [] -> v ∈ visited <-> reached v.
Proof.
  intros [Hv _ Hs Hc]. split; [apply Hv|]. intros (s & Hin & Hk & Hr).
  assert (s ∈ visited) as Hsv by (destruct (Hs s Hin Hk) as [|?%not_elem_of_nil]; done).
  clear Hin Hk. induction Hr as [|a b c Hab Hbc IH]; [done|].
  apply IH. destruct (Hc a b Hsv Hab) as [|?%not_elem_of_nil]; done.
Qed.

(** The work left: the worklist and the edges out of unvisited nodes. *)
Definition work visited pending : nat :=
  (length pending + length (filter (fun e => e.1 ∉ visited) edges))%nat.

Lemma work_visit visited u :
  u ∉ visited ->
  (length (succs edges u) + length (filter (fun e => e.1 ∉ {[u]} ∪ visited) edges))%nat =
  length (filter (fun e => e.1 ∉ visited) edges).
Proof.
  clear keep starts. intros Hu. unfold succs. rewrite length_map.
  induction edges as [|e l IH]; [done|]. rewrite !filter_cons.
  destruct (decide (e.1 = u)) as [->|Hne].
  - rewrite decide_False by set_solver. rewrite decide_True by done. cbn. lia.
  - destruct (decide (e.1 ∉ visited)).
    + rewrite !decide_True by set_solver. cbn. lia.
    + rewrite !decide_False by set_solver. lia.
Qed.

Lemma work_start : work ∅ starts = (length starts + length edges)%nat.
Proof.
  clear keep. unfold work. f_equal. clear starts. induction edges as [|e l IH]; [done|].
  rewrite filter_cons, decide_True by set_solver. cbn. by rewrite IH.
Qed.
End Search.

(** ** Kahn's topological sort

    [sorted] is what has been output, [ready] the queue, [indegree] the counters.
    Every edge of the graph joins two of its nodes. *)
Section Kahn.
Context (nodes : gset A) (edges : list (A * A)).
Implicit Types (sorted ready : list A) (indegree : gmap A Z).

Definition well_joined : Prop := forall u v, step edges u v -> u ∈ nodes /\ v ∈ nodes.

(** The incoming edges of [v] whose source is still to be output. *)
Definition waiting sorted v : nat :=
  length (filter (fun e => e.2 = v /\ e.1 ∉ sorted) edges).
Definition times v (l : list A) : nat := length (filter (fun t => t = v) l).

(** Every node of [l] comes after the nodes that have an edge to it. *)
Definition in_order (l : list A) : Prop :=
  forall l1 v l2 u, l = l1 ++ v :: l2 -> step edges u v -> u ∈ l1.

Record sorting sorted ready indegree : Prop := {
  so_distinct : NoDup (sorted ++ ready);
  so_nodes : forall v, v ∈ sorted ++ ready -> v ∈ nodes;
  so_degree : forall v, v ∈ nodes -> indegree !! v = Some (Z.of_nat (waiting sorted v));
  so_ready : forall v, v ∈ nodes -> v ∈ sorted ++ ready <-> waiting sorted v = 0%nat;
  so_order : in_order sorted;
}.

(** Taking the edges out of one node off the counters, the nodes that become
    ready appended in the order in which they do. *)
Fixpoint relax indegree ready (targets : list A) : gmap A Z * list A :=
  match targets with
  | [] => (indegree, ready)
  | t :: targets =>
      match indegree !! t with
      | Some d =>
          relax (<[t := (d - 1)%Z]> indegree)
            (if (d - 1 =? 0)%Z then ready ++ [t] else ready) targets
      | None => relax indegree ready targets
      end
  end.

Lemma relax_prefix prefix indegree ready targets indegree' new :
  relax indegree ready targets = (indegree', new) ->
  relax indegree (prefix ++ ready) targets = (indegree', prefix ++ new).
Proof.
  revert indegree ready. induction targets as [|t l IH]; intros indegree ready; simpl.
  - by intros [= <- <-].
  - destruct (indegree !! t) as [d|]; [|by apply IH].
    destruct (d - 1 =? 0)%Z; [rewrite <- app_assoc|]; by apply IH.
Qed.

Lemma times_cons v t l : times v (t :: l) = ((if decide (t = v) then 1 else 0) + times v l)%nat.
Proof. unfold times. rewrite filter_cons. by destruct (decide (t = v)). Qed.
Lemma times_zero v l : times v l = 0%nat <-> v ∉ l.
Proof.
  induction l as [|t l IH]; [set_solver|]. rewrite times_cons, not_elem_of_cons.
  destruct (decide (t = v)); naive_solver lia.
Qed.

Lemma relax_spec indegree ready targets :
  (forall t, t ∈ targets -> exists d, indegree !! t = Some d /\ (Z.of_nat (times t targets) <= d)%Z) ->
  exists indegree' new,
    relax indegree ready targets = (indegree', ready ++ new) /\ NoDup new /\
    (forall v, indegree' !! v = (fun d => d - Z.of_nat (times v targets))%Z <$> indegree !! v) /\
    (forall v, v ∈ new <-> v ∈ targets /\ indegree !! v = Some (Z.of_nat (times v targets))).
Proof.
  revert indegree ready. induction targets as [|t l IH]; intros indegree ready Hd; simpl.
  - exists indegree, []. rewrite app_nil_r. split_and!; [done|constructor| |set_solver].
    intros v. change (times v []) with 0%nat. destruct (indegree !! v); simpl; [f_equal; lia|done].
  - destruct (Hd t) as (d & Ht & Hle); [set_solver|]. rewrite Ht.
    rewrite times_cons, decide_True in Hle by done.
    destruct (IH (<[t := (d - 1)%Z]> indegree)
      (if (d - 1 =? 0)%Z then ready ++ [t] else ready)) as (ind' & new & -> & Hnd & Hdeg & Hnew).
    { intros t' Ht'. destruct (decide (t = t')) as [<-|Hne].
      - rewrite lookup_insert_eq. exists (d - 1)%Z. split; [done|lia].
      - rewrite lookup_insert_ne by done. destruct (Hd t') as (d' & ? & Hle'); [set_solver|].
        rewrite times_cons, decide_False in Hle' by done. by exists d'. }
    exists ind', (if (d - 1 =? 0)%Z then t :: new else new).
    assert (forall v, v <> t -> times v (t :: l) = times v l) as Hother
      by (intros v Hne; by rewrite times_cons, decide_False).
    assert (times t (t :: l) = S (times t l)) as Hself by (by rewrite times_cons, decide_True).
    assert ((d - 1 =? 0)%Z = true -> t ∉ l) as Hlast by (intros Hz%Z.eqb_eq; apply times_zero; lia).
    split_and!.
    + destruct (d - 1 =? 0)%Z; [by rewrite <- app_assoc|done].
    + destruct (d - 1 =? 0)%Z eqn:Hz; [|done]. constructor; [|done].
      intros [Hin _]%Hnew. by apply Hlast.
    + intros v. rewrite Hdeg. destruct (decide (v = t)) as [->|Hne].
      * rewrite lookup_insert_eq, Ht, Hself. simpl. f_equal. lia.
      * by rewrite lookup_insert_ne, Hother.
    + intros v. destruct (decide (v = t)) as [->|Hne].
      * rewrite Ht, Hself. specialize (Hnew t). rewrite lookup_insert_eq in Hnew.
        destruct (d - 1 =? 0)%Z eqn:Hz.
        -- split; [|set_solver]. intros _. split; [set_solver|]. f_equal.
           pose proof (Hlast eq_refl) as Hz'%times_zero. apply Z.eqb_eq in Hz. lia.
        -- rewrite Hnew. split; intros [Hin [= Hc]].
           ++ split; [set_solver|]. f_equal. lia.
           ++ apply Z.eqb_neq in Hz. assert (times t l <> 0%nat) as Hin' by lia.
              split; [|f_equal; lia]. destruct (decide (t ∈ l)) as [|Hn]; [done|].
              by apply times_zero in Hn.
      * rewrite Hother by done. specialize (Hnew v). rewrite lookup_insert_ne in Hnew by done.
        destruct (d - 1 =? 0)%Z; set_solver.
Qed.

Lemma waiting_snoc sorted u v :
  u ∉ sorted -> waiting sorted v = (waiting (sorted ++ [u]) v + times v (succs edges u))%nat.
Proof.
  intros Hu. unfold waiting, times, succs.
  induction edges as [|[a b] l IH]; [done|].
  rewrite !filter_cons. cbn [fst snd].
  destruct (decide (a = u)) as [->|Hne].
  - rewrite (decide_False (P := b = v /\ u ∉ sorted ++ [u])) by set_solver.
    cbn [map snd]. rewrite filter_cons.
    destruct (decide (b = v)) as [->|].
    + rewrite decide_True by done. cbn [length]. rewrite IH. lia.
    + rewrite decide_False by tauto. exact IH.
  - destruct (decide (b = v /\ a ∉ sorted)).
    + rewrite decide_True by set_solver. cbn [length]. rewrite IH. lia.
    + rewrite decide_False by set_solver. exact IH.
Qed.

Lemma waiting_positive sorted u v : step edges u v -> u ∉ sorted -> waiting sorted v <> 0%nat.
Proof.
  intros He Hu Hw. apply nil_length_inv in Hw.
  assert ((u, v) ∈ filter (fun e => e.2 = v /\ e.1 ∉ sorted) edges) as Hin.
  { apply list_elem_of_filter. done. }
  rewrite Hw in Hin. by apply elem_of_nil in Hin.
Qed.

Lemma waiting_source sorted v :
  waiting sorted v <> 0%nat -> exists u, step edges u v /\ u ∉ sorted.
Proof.
  unfold waiting. destruct (filter _ edges) as [|[u w] l] eqn:Hf; [done|]. intros _.
  assert ((u, w) ∈ filter (fun e => e.2 = v /\ e.1 ∉ sorted) edges) as Hin by (rewrite Hf; left).
  apply list_elem_of_filter in Hin as [[Heq ?] Hin]. simpl in *. subst. by exists u.
Qed.

(** The order of the queue does not matter. *)
Lemma sorting_permuted sorted ready ready' indegree :
  sorting sorted ready indegree -> ready' ≡ₚ ready -> sorting sorted ready' indegree.
Proof.
  intros [Hg1 Hg2 Hg3 Hg4 Hg5] Hperm. split; try done.
  - by rewrite Hperm.
  - intros v. rewrite elem_of_app, Hperm, <- elem_of_app. apply Hg2.
  - intros v Hv. rewrite <- Hg4 by done. by rewrite !elem_of_app, Hperm.
Qed.

(** One node is output. *)
Lemma sorting_step sorted ready indegree u :
  well_joined -> sorting sorted (u :: ready) indegree ->
  exists indegree' new,
    (forall prefix, relax indegree prefix (succs edges u) = (indegree', prefix ++ new)) /\
    sorting (sorted ++ [u]) (ready ++ new) indegree' /\
    (forall ready', ready' ≡ₚ ready ++ new -> sorting (sorted ++ [u]) ready' indegree').
Proof.
  intros Hjoin [Hnd Hin Hdeg Hrdy Hord].
  assert (u ∉ sorted) as Hu.
  { intros Hus. apply list.NoDup_app in Hnd as (_ & Hd & _). apply (Hd u Hus). left. }
  assert (forall t, t ∈ succs edges u -> t ∈ nodes) as Htn.
  { intros t Ht%elem_of_succs. by apply (Hjoin u). }
  assert (forall v, waiting sorted v = (waiting (sorted ++ [u]) v + times v (succs edges u))%nat)
    as Hw by (intros v; by apply waiting_snoc).
  destruct (relax_spec indegree [] (succs edges u)) as (ind' & new & Hrel & Hnew & Hdeg' & Hmem).
  { intros t Ht. exists (Z.of_nat (waiting sorted t)). rewrite Hdeg by auto.
    split; [done|]. specialize (Hw t). lia. }
  exists ind', new.
  assert (forall v, v ∈ new -> v ∉ sorted ++ u :: ready) as Hfresh.
  { intros v [Hv Hc]%Hmem Hold. apply Hrdy in Hold; [|by auto].
    rewrite Hdeg in Hc by auto. injection Hc as Hc.
    assert (times v (succs edges u) = 0%nat) as Hz by lia. by apply times_zero in Hz. }
  assert (sorting (sorted ++ [u]) (ready ++ new) ind') as Hgoal.
  { split.
    - rewrite <- app_assoc. simpl. rewrite app_comm_cons, app_assoc.
      apply list.NoDup_app. split_and!; [done| |done]. intros v Hv Hn. by apply (Hfresh v).
    - intros v. rewrite !elem_of_app, list_elem_of_singleton.
      intros [[?| ->]|[?|[? _]%Hmem]]; [| | |by auto]; apply Hin; set_solver.
    - intros v Hv. rewrite Hdeg', Hdeg by done. simpl. specialize (Hw v). f_equal. lia.
    - intros v Hv. specialize (Hw v). specialize (Hrdy v Hv). specialize (Hmem v).
      rewrite Hdeg in Hmem by done.
      assert (v ∈ (sorted ++ [u]) ++ ready ++ new <-> v ∈ sorted ++ u :: ready \/ v ∈ new) as ->
        by set_solver.
      rewrite Hrdy, Hmem. split.
      + intros [?|[_ Hc]]; [lia|]. injection Hc as Hc. lia.
      + intros Hz. destruct (decide (v ∈ succs edges u)) as [Hs|Hs].
        * right. split; [done|]. f_equal. lia.
        * left. apply times_zero in Hs. lia.
    - intros l1 v l2 w Heq Hstep.
      destruct l2 as [|x l2] using rev_ind.
      + apply app_inj_tail in Heq as [<- ->].
        destruct (decide (w ∈ sorted)) as [|Hws]; [done|].
        exfalso. apply (waiting_positive sorted w v Hstep Hws). apply Hrdy.
        * by apply (Hjoin w).
        * set_solver.
      + rewrite app_comm_cons, app_assoc in Heq. apply app_inj_tail in Heq as [Heq _].
        by eapply Hord. }
  split_and!; [|done|].
  - intros prefix. rewrite <- (app_nil_r prefix) at 1. by apply relax_prefix.
  - intros ready' Hperm. by eapply sorting_permuted.
Qed.

Lemma sorting_start ready indegree :
  NoDup ready ->
  (forall v, v ∈ nodes -> indegree !! v = Some (Z.of_nat (times v edges.*2))) ->
  (forall v, v ∈ ready <-> v ∈ nodes /\ times v edges.*2 = 0%nat) ->
  sorting [] ready indegree.
Proof.
  assert (forall v, waiting [] v = times v edges.*2) as Hw.
  { intros v. clear. unfold waiting, times. induction edges as [|e l IH]; [done|].
    rewrite fmap_cons, !filter_cons. destruct (decide (e.2 = v)).
    - rewrite decide_True by (split; [done|apply not_elem_of_nil]). cbn [length]. by rewrite IH.
    - by rewrite decide_False by tauto. }
  intros Hnd Hdeg Hrdy. split; simpl.
  - done.
  - by intros v [? _]%Hrdy.
  - intros v Hv. by rewrite Hw, Hdeg.
  - intros v Hv. rewrite Hw, Hrdy. tauto.
  - intros l1 v l2 u Heq. by destruct l1.
Qed.

(** What an order says: with every node in it, there is no cycle. *)
Lemma in_order_before l u v l1 l2 :
  in_order l -> tc (step edges) u v -> l = l1 ++ v :: l2 -> u ∈ l1.
Proof.
  intros Hord Htc. revert l1 l2. induction Htc as [u v Hs|u w v Hs _ IH]; intros l1 l2 Heq.
  - by eapply Hord.
  - destruct (list_elem_of_split l1 w (IH _ _ Heq)) as (a & b & ->).
    assert (u ∈ a) by (eapply (Hord a w); [by rewrite <- app_assoc in Heq|done]). set_solver.
Qed.

Lemma in_order_acyclic l :
  well_joined -> in_order l -> NoDup l -> (forall v, v ∈ nodes -> v ∈ l) -> acyclic edges.
Proof.
  intros Hjoin Hord Hnd Hall v Htc.
  assert (v ∈ nodes) as Hv by (by destruct (tc_source _ _ _ Htc) as [w [? _]%Hjoin]).
  destruct (list_elem_of_split l v (Hall v Hv)) as (l1 & l2 & Heq).
  assert (v ∈ l1) as Hin by (by eapply in_order_before).
  rewrite Heq in Hnd. apply list.NoDup_app in Hnd as (_ & Hd & _). apply (Hd v Hin). left.
Qed.

Lemma acyclic_all_sorted sorted indegree :
  well_joined -> acyclic edges -> sorting sorted [] indegree ->
  forall v, v ∈ nodes -> v ∈ sorted.
Proof.
  intros Hjoin Hac [Hnd Hin Hdeg Hrdy Hord] v Hv.
  destruct (decide (v ∈ sorted)) as [|Hns]; [done|]. exfalso.
  destruct (no_source_has_cycle (step edges) (nodes ∖ list_to_set sorted) v) as [w Hw].
  - set_solver.
  - intros w [Hw Hws]%elem_of_difference. rewrite elem_of_list_to_set in Hws.
    destruct (waiting_source sorted w) as (u & Hs & Hu).
    + intros Hz%Hrdy; [|done]. rewrite app_nil_r in Hz. done.
    + exists u. split; [|done]. apply elem_of_difference. rewrite elem_of_list_to_set.
      split; [by apply (Hjoin u w)|done].
  - by apply (Hac w).
Qed.

Lemma sorted_length sorted indegree :
  sorting sorted [] indegree ->
  length sorted = size nodes <-> (forall v, v ∈ nodes -> v ∈ sorted).
Proof.
  intros [Hnd Hin _ _ _]. rewrite app_nil_r in Hnd, Hin.
  rewrite <- (size_list_to_set (C := gset A) sorted) by done.
  assert (list_to_set sorted ⊆ nodes) as Hsub by (intros v Hv%elem_of_list_to_set; by apply Hin).
  split.
  - intros Hlen v Hv.
    assert (list_to_set sorted = nodes) as Heq; [|rewrite <- Heq in Hv; by apply elem_of_list_to_set in Hv].
    apply set_subseteq_size_eq; [done|lia].
  - intros Hall. f_equal. apply set_eq. intros v. rewrite elem_of_list_to_set. naive_solver.
Qed.

(** Kahn's algorithm outputs every node exactly when there is no cycle. *)
Lemma sorting_decides sorted indegree :
  well_joined -> sorting sorted [] indegree ->
  length sorted = size nodes <-> acyclic edges.
Proof.
  intros Hjoin Hs. rewrite (sorted_length _ _ Hs). split.
  - destruct Hs as [Hnd _ _ _ Hord]. rewrite app_nil_r in Hnd. intros Hall.
    by eapply in_order_acyclic.
  - intros Hac. by eapply acyclic_all_sorted.
Qed.

Lemma sorting_bound sorted ready indegree :
  sorting sorted ready indegree -> (length sorted + length ready <= size nodes)%nat.
Proof.
  intros [Hnd Hin _ _ _]. rewrite <- length_app, <- (size_list_to_set (C := gset A)) by done.
  apply subseteq_size. intros v Hv%elem_of_list_to_set. by apply Hin.
Qed.
End Kahn.
End Edges.
Arguments searching {A _ _} edges keep starts visited pending.
Arguments reached {A} edges keep starts v.
Arguments kept_step {A} edges keep u v.

Notation anywhere := (fun _ => True).
