(* ===== verification/WorkflowIr.v ===== *)
(** * The workflow intermediate representation ([workflow_ir.rs])

    A compiled workflow is a graph of typed nodes whose edges leave through named
    ports.  This file has the data and the validator [validate], with its Kahn
    pass and its two reachability passes; what a valid workflow is, and that the
    validator decides it, is in [WorkflowIrTheorems]. *)
From S2P Require Import Prelude.
From S2P Require Import RustStr.
From S2P Require Import RustHash.
From S2P Require Import JsonValue.

Definition WORKFLOW_IR_SCHEMA_VERSION : str := lit "1.0.0".
Definition WORKFLOW_COMPILER_MODEL : str := lit "gemma-4-e4b-qat".
Definition LEGACY_WORKFLOW_COMPILER_MODEL : str := lit "gemma-4-e2b-qat".
Definition SHORT_TIMEOUT_MS : Z := 5000.
Definition MEDIUM_TIMEOUT_MS : Z := 30000.
Definition LONG_TIMEOUT_MS : Z := 120000.

Module BlueprintCompilationStatus.
Inductive t : Type := Draft | Compiling | Compiled | Failed.
End BlueprintCompilationStatus.

Module WorkflowNodeKind.
Inductive t : Type :=
| Input | Agent | Router | Conditional | Loop | Permission | McpTool | SystemAction | Output.
End WorkflowNodeKind.

Module ExecutionStatus.
Inductive t : Type := Pending | Running | AwaitingApproval | Completed | Failed.
#[export] Instance eq_dec : EqDecision t.
Proof. solve_decision. Defined.
End ExecutionStatus.

Module NodeExecutionPayload.
Record t `{J : JsonLib} : Type := mk {
  status : ExecutionStatus.t;
  input : option Value;
  output : option Value;
  error : option Value;
  latency_ms : Z;
  prompt_tokens : Z;
  completion_tokens : Z;
}.
End NodeExecutionPayload.

Module ExecutionInstance.
Record t `{J : JsonLib} : Type := mk {
  id : str;
  workflow_id : str;
  workflow_version : Z;
  status : ExecutionStatus.t;
  active_node_id : option str;
  input_payload : Value;
  output_payload : option Value;
  node_payloads : gmap str NodeExecutionPayload.t;
  memory : gmap str Value;
  selected_edges : gset str;
  pause_context : option Value;
  error : option Value;
  execution_latency_ms : Z;
  prompt_tokens : Z;
  completion_tokens : Z;
  total_tokens : Z;
  created_at_ms : Z;
  started_at_ms : option Z;
  updated_at_ms : Z;
  completed_at_ms : option Z;
}.
End ExecutionInstance.

Module CompilerTarget.
Record t : Type := mk { model : str }.
End CompilerTarget.

Module InputNode.
Record t `{J : JsonLib} : Type := mk { id : str; label : str; output_key : str; input_schema : Value }.
End InputNode.

Module AgentNode.
Record t : Type := mk {
  id : str; label : str; objective : str; input_mappings : gmap str str;
  output_key : str; system_timeout_ms : option Z;
}.
End AgentNode.

Module RouterRoute.
Record t : Type := mk { port : str; condition : str }.
End RouterRoute.

Module RouterNode.
Record t : Type := mk {
  id : str; label : str; expression : str; routes : list RouterRoute.t;
  system_timeout_ms : option Z;
}.
End RouterNode.

Module ConditionalNode.
Record t : Type := mk {
  id : str; label : str; condition : str; input_mapping : option str;
  system_timeout_ms : option Z;
}.
End ConditionalNode.

Module LoopNode.
Record t : Type := mk {
  id : str; label : str; items_mapping : str; item_variable : str;
  system_timeout_ms : option Z;
}.
End LoopNode.

Module PermissionKind.
Inductive t : Type := FileRead | FileWrite | Network | Process | McpTool | Custom.
End PermissionKind.

Module PermissionDeniedBehavior.
Inductive t : Type := Fail | Branch.
End PermissionDeniedBehavior.

Module PermissionNode.
Record t : Type := mk {
  id : str; label : str; permission : PermissionKind.t; reason : str;
  on_denied : PermissionDeniedBehavior.t;
}.
End PermissionNode.

Module McpToolNode.
Record t `{J : JsonLib} : Type := mk {
  id : str; label : str; server_name : str; tool_name : str; arguments : Value;
  input_schema : option Value; output_schema : option Value; system_timeout_ms : option Z;
}.
End McpToolNode.

Module SystemActionType.
Inductive t : Type := Shell | Python | Binary.
End SystemActionType.

Module SystemActionNode.
Record t : Type := mk {
  id : str; label : str; action_type : SystemActionType.t; command : str;
  args : list str; working_directory : option str; system_timeout_ms : option Z;
  timeout_ms : Z; max_output_bytes : Z;
}.
End SystemActionNode.

Module WorkflowCompletionKind.
Inductive t : Type := Result | EmptyCollection.
#[export] Instance eq_dec : EqDecision t.
Proof. solve_decision. Defined.
End WorkflowCompletionKind.

Module OutputNode.
Record t `{J : JsonLib} : Type := mk {
  id : str; label : str; input_mapping : str; output_schema : Value;
  completion_kind : WorkflowCompletionKind.t;
}.
End OutputNode.

Module WorkflowNode.
Inductive t `{J : JsonLib} : Type :=
| Input (node : InputNode.t)
| Agent (node : AgentNode.t)
| Router (node : RouterNode.t)
| Conditional (node : ConditionalNode.t)
| Loop (node : LoopNode.t)
| Permission (node : PermissionNode.t)
| McpTool (node : McpToolNode.t)
| SystemAction (node : SystemActionNode.t)
| Output (node : OutputNode.t).

Definition id `{J : JsonLib} (self : t) : str :=
  match self with
  | Input node => InputNode.id node
  | Agent node => AgentNode.id node
  | Router node => RouterNode.id node
  | Conditional node => ConditionalNode.id node
  | Loop node => LoopNode.id node
  | Permission node => PermissionNode.id node
  | McpTool node => McpToolNode.id node
  | SystemAction node => SystemActionNode.id node
  | Output node => OutputNode.id node
  end.

Definition kind `{J : JsonLib} (self : t) : WorkflowNodeKind.t :=
  match self with
  | Input _ => WorkflowNodeKind.Input
  | Agent _ => WorkflowNodeKind.Agent
  | Router _ => WorkflowNodeKind.Router
  | Conditional _ => WorkflowNodeKind.Conditional
  | Loop _ => WorkflowNodeKind.Loop
  | Permission _ => WorkflowNodeKind.Permission
  | McpTool _ => WorkflowNodeKind.McpTool
  | SystemAction _ => WorkflowNodeKind.SystemAction
  | Output _ => WorkflowNodeKind.Output
  end.
End WorkflowNode.

Module WorkflowEdge.
Record t : Type := mk {
  id : str; source_node_id : str; source_port : str; target_node_id : str;
  target_port : option str;
}.
#[export] Instance eq_dec : EqDecision t.
Proof. solve_decision. Defined.
End WorkflowEdge.

Module WorkflowIr.
Record t `{J : JsonLib} : Type := mk {
  schema_version : str; workflow_id : str; workflow_version : Z; name : str;
  description : str; compiler : CompilerTarget.t; metadata : option Value;
  nodes : list WorkflowNode.t; edges : list WorkflowEdge.t;
}.
End WorkflowIr.

Module CompiledInstruction.
Record t `{J : JsonLib} : Type := mk {
  id : str; workflow_id : str; workflow_version : Z; node_id : str;
  node_kind : WorkflowNodeKind.t; system_prompt : str;
  input_variable_mappings : gmap str str; evaluation_protocol : Value;
  compiler_model : str; compiler_version : str; created_at_ms : Z;
}.
End CompiledInstruction.

Module CompiledWorkflow.
Record t `{J : JsonLib} : Type := mk {
  workflow_ir : WorkflowIr.t;
  instructions : gmap str CompiledInstruction.t;
}.
End CompiledWorkflow.

Definition default_system_action_timeout_ms : Z := SHORT_TIMEOUT_MS.
Definition default_system_action_max_output_bytes : Z := 50 * 1024.
Definition default_loop_item_variable : str := lit "item".

Notation is_input n := (match n with WorkflowNode.Input _ => true | _ => false end).
Notation is_output n := (match n with WorkflowNode.Output _ => true | _ => false end).
Notation is_blank s := (is_empty (trim s)).

(** [if c { errors.push(message) }] *)
Definition push_if (c : bool) (message : str) (errors : list str) : list str :=
  if c then errors ++ [message] else errors.

(** ** Ports and timeouts of one node *)
Definition require_incoming (node_id : str) (count : nat) (errors : list str) : list str :=
  push_if (Nat.eqb count 0) (lit "node " ++ node_id ++ lit " must have an incoming edge") errors.

Definition require_system_timeout (node_id : str) (timeout_ms : option Z) (errors : list str)
  : list str :=
  push_if (bool_decide (timeout_ms = Some 0%Z))
    (lit "node " ++ node_id ++ lit " requires systemTimeoutMs greater than zero") errors.

Definition require_single_port (node_id : str) (edges : list WorkflowEdge.t) (port : str)
    (errors : list str) : list str :=
  push_if (match edges with [] => true | _ => false end
           || existsb (fun edge => negb (str_eqb (WorkflowEdge.source_port edge) port)) edges)
    (lit "node " ++ node_id ++ lit " requires at least one outgoing edge on port " ++ port) errors.

Definition port_set (edges : list WorkflowEdge.t) : gset str :=
  list_to_set (map WorkflowEdge.source_port edges).

Definition require_exact_ports (node_id : str) (edges : list WorkflowEdge.t)
    (expected : list str) (message : str) (errors : list str) : list str :=
  let ports := port_set edges in
  let expected_ports : gset str := list_to_set expected in
  push_if (bool_decide (ports <> expected_ports)
           || negb (Nat.eqb (length edges) (length expected)))
    (node_id ++ lit ": " ++ message) errors.

Section Validate.
Context {J : JsonLib} {H : HashOrder}.

Definition validate_workflow_header (workflow : WorkflowIr.t) (errors : list str) : list str :=
  let errors :=
    push_if (negb (str_eqb (WorkflowIr.schema_version workflow) WORKFLOW_IR_SCHEMA_VERSION))
      (lit "schemaVersion must be " ++ WORKFLOW_IR_SCHEMA_VERSION) errors in
  let model := CompilerTarget.model (WorkflowIr.compiler workflow) in
  let errors :=
    push_if (negb (str_eqb model WORKFLOW_COMPILER_MODEL)
             && negb (str_eqb model LEGACY_WORKFLOW_COMPILER_MODEL))
      (lit "compiler.model must be " ++ WORKFLOW_COMPILER_MODEL ++ lit " or the historical "
       ++ LEGACY_WORKFLOW_COMPILER_MODEL ++ lit " identity") errors in
  let errors :=
    push_if (is_blank (WorkflowIr.workflow_id workflow) || is_blank (WorkflowIr.name workflow))
      (lit "workflowId and name must not be empty") errors in
  push_if (WorkflowIr.workflow_version workflow =? 0)%Z
    (lit "workflowVersion must be greater than zero") errors.

(** The node identifiers: blank and repeated ones are reported. *)
Definition collect_node_id (acc : gset str * list str) (node : WorkflowNode.t)
  : gset str * list str :=
  let '(node_ids, errors) := acc in
  let id := WorkflowNode.id node in
  if is_blank id then (node_ids, errors ++ [lit "node ids must not be empty"])
  else if decide (id ∈ node_ids)
  then (node_ids, errors ++ [lit "duplicate node id: " ++ id])
  else ({[id]} ∪ node_ids, errors).

Definition nodes_by_id (nodes : list WorkflowNode.t) : gmap str WorkflowNode.t :=
  foldl (fun m node => <[WorkflowNode.id node := node]> m) ∅ nodes.

Notation Signature := (str * str * str * option str)%type.
Definition signature (edge : WorkflowEdge.t) : Signature :=
  (WorkflowEdge.source_node_id edge, WorkflowEdge.source_port edge,
   WorkflowEdge.target_node_id edge, WorkflowEdge.target_port edge).

Record EdgeScan : Type := mk_scan {
  edge_ids : gset str;
  edge_signatures : gset Signature;
  incoming : gmap str nat;
  outgoing : gmap str (list WorkflowEdge.t);
  scan_errors : list str;
}.

Definition scan_edge (node_by_id : gmap str WorkflowNode.t) (acc : EdgeScan)
    (edge : WorkflowEdge.t) : EdgeScan :=
  let id := WorkflowEdge.id edge in
  let source := WorkflowEdge.source_node_id edge in
  let target := WorkflowEdge.target_node_id edge in
  let errors := scan_errors acc in
  let errors := push_if (bool_decide (id ∈ edge_ids acc)) (lit "duplicate edge id: " ++ id) errors in
  let errors := push_if (bool_decide (signature edge ∈ edge_signatures acc))
                  (lit "duplicate edge connection: " ++ id) errors in
  let errors := push_if (str_eqb source target)
                  (lit "self edge is not allowed: " ++ id) errors in
  let errors := push_if (bool_decide (node_by_id !! source = None))
                  (lit "edge " ++ id ++ lit " has an unknown source node") errors in
  let errors := push_if (bool_decide (node_by_id !! target = None))
                  (lit "edge " ++ id ++ lit " has an unknown target node") errors in
  mk_scan ({[id]} ∪ edge_ids acc) ({[signature edge]} ∪ edge_signatures acc)
    (entry_add target (incoming acc)) (entry_push source edge (outgoing acc)) errors.

(** The rules of one node, by kind. *)
Definition check_node (in_count : nat) (node_edges : list WorkflowEdge.t)
    (errors : list str) (node : WorkflowNode.t) : list str :=
  let id := WorkflowNode.id node in
  match node with
  | WorkflowNode.Input _ =>
      let errors := push_if (negb (Nat.eqb in_count 0))
                      (lit "input node " ++ id ++ lit " cannot have incoming edges") errors in
      require_single_port id node_edges (lit "out") errors
  | WorkflowNode.Agent agent =>
      let errors := require_incoming id in_count errors in
      let errors := require_single_port id node_edges (lit "out") errors in
      require_system_timeout id (AgentNode.system_timeout_ms agent) errors
  | WorkflowNode.McpTool mcp_tool =>
      let errors := require_incoming id in_count errors in
      let errors := require_single_port id node_edges (lit "out") errors in
      let errors := require_system_timeout id (McpToolNode.system_timeout_ms mcp_tool) errors in
      push_if (is_blank (McpToolNode.server_name mcp_tool) || is_blank (McpToolNode.tool_name mcp_tool))
        (lit "mcp tool node " ++ id ++ lit " requires serverName and toolName") errors
  | WorkflowNode.SystemAction system_action =>
      let errors := require_incoming id in_count errors in
      let errors := require_single_port id node_edges (lit "out") errors in
      let errors := require_system_timeout id (SystemActionNode.system_timeout_ms system_action) errors in
      let errors := push_if (is_blank (SystemActionNode.command system_action))
                      (lit "system action node " ++ id ++ lit " requires a command") errors in
      let errors := push_if (SystemActionNode.timeout_ms system_action =? 0)%Z
                      (lit "system action node " ++ id ++ lit " requires timeoutMs greater than zero") errors in
      push_if (SystemActionNode.max_output_bytes system_action =? 0)%Z
        (lit "system action node " ++ id ++ lit " requires maxOutputBytes greater than zero") errors
  | WorkflowNode.Router router =>
      let errors := require_incoming id in_count errors in
      let errors := require_system_timeout id (RouterNode.system_timeout_ms router) errors in
      let routes := RouterNode.routes router in
      let errors := push_if (Nat.ltb (length routes) 2)
                      (lit "router " ++ id ++ lit " must define at least two routes") errors in
      let route_ports : gset str := list_to_set (map RouterRoute.port routes) in
      let errors := push_if (negb (Nat.eqb (size route_ports) (length routes)))
                      (lit "router " ++ id ++ lit " has duplicate route ports") errors in
      let edge_ports := port_set node_edges in
      push_if (bool_decide (route_ports <> edge_ports)
               || negb (Nat.eqb (length node_edges) (size route_ports)))
        (lit "router " ++ id ++ lit " must have exactly one outgoing edge per route") errors
  | WorkflowNode.Conditional conditional =>
      let errors := require_incoming id in_count errors in
      let errors := require_system_timeout id (ConditionalNode.system_timeout_ms conditional) errors in
      let errors := push_if (is_blank (ConditionalNode.condition conditional))
                      (lit "conditional node " ++ id ++ lit " requires a condition") errors in
      require_exact_ports id node_edges [lit "true"; lit "false"]
        (lit "conditional nodes require one true edge and one false edge") errors
  | WorkflowNode.Loop loop_node =>
      let errors := require_incoming id in_count errors in
      let errors := require_system_timeout id (LoopNode.system_timeout_ms loop_node) errors in
      let errors := push_if (is_blank (LoopNode.items_mapping loop_node))
                      (lit "loop node " ++ id ++ lit " requires an itemsMapping") errors in
      let errors := push_if (is_blank (LoopNode.item_variable loop_node))
                      (lit "loop node " ++ id ++ lit " requires an itemVariable") errors in
      require_exact_ports id node_edges [lit "item"; lit "done"]
        (lit "loop nodes require one item edge and one done edge") errors
  | WorkflowNode.Permission permission =>
      let errors := require_incoming id in_count errors in
      let ports := port_set node_edges in
      let errors :=
        push_if (bool_decide (lit "approved" ∉ ports)
                 || existsb (fun port => negb (str_eqb port (lit "approved") || str_eqb port (lit "denied")))
                      (set_iter ports)
                 || negb (Nat.eqb (size ports) (length node_edges)))
          (lit "permission " ++ id ++ lit " requires one approved edge and at most one denied edge") errors in
      push_if (match PermissionNode.on_denied permission with
               | PermissionDeniedBehavior.Branch => bool_decide (lit "denied" ∉ ports)
               | PermissionDeniedBehavior.Fail => false
               end)
        (lit "permission " ++ id ++ lit " must define a denied edge when onDenied is branch") errors
  | WorkflowNode.Output _ =>
      let errors := require_incoming id in_count errors in
      push_if (match node_edges with [] => false | _ => true end)
        (lit "output node " ++ id ++ lit " cannot have outgoing edges") errors
  end.

(** ** Acyclicity and reachability *)
Fixpoint traverse_loop (fuel : nat) (graph : gmap str (list str)) (visited : gset str)
    (queue : list str) : gset str :=
  match fuel, queue with
  | S fuel, node_id :: queue =>
      if decide (node_id ∈ visited) then traverse_loop fuel graph visited queue
      else traverse_loop fuel graph ({[node_id]} ∪ visited)
             (queue ++ default [] (graph !! node_id))
  | _, _ => visited
  end.
(** [fuel] bounds the turns of the [while] loop; the callers pass more than the
    starts and the edges together. *)
Definition traverse (fuel : nat) (starts : list str) (graph : gmap str (list str)) : gset str :=
  traverse_loop fuel graph ∅ starts.

(** One edge out of the node that has just been counted. *)
Fixpoint relax_targets (targets : list str) (indegree : gmap str Z) (queue : list str)
    (errors : list str) : gmap str Z * list str * list str :=
  match targets with
  | [] => (indegree, queue, errors)
  | target :: targets =>
      match indegree !! target with
      | None =>
          relax_targets targets indegree queue
            (errors ++ [lit "workflow edge points to unknown target node '" ++ target ++ lit "'"])
      | Some degree =>
          relax_targets targets (<[target := (degree - 1)%Z]> indegree)
            (if (degree - 1 =? 0)%Z then queue ++ [target] else queue) errors
      end
  end.

Fixpoint dag_loop (fuel : nat) (adjacency : gmap str (list str)) (indegree : gmap str Z)
    (queue : list str) (visited_count : nat) (errors : list str) : nat * list str :=
  match fuel, queue with
  | S fuel, node_id :: queue =>
      let '(indegree, queue, errors) :=
        relax_targets (default [] (adjacency !! node_id)) indegree queue errors in
      dag_loop fuel adjacency indegree queue (S visited_count) errors
  | _, _ => (visited_count, errors)
  end.

(** The edges between known nodes, and the counters of incoming edges. *)
Definition known_edges (node_ids : gset str) (edges : list WorkflowEdge.t) : list WorkflowEdge.t :=
  filter (fun edge => WorkflowEdge.source_node_id edge ∈ node_ids
                      /\ WorkflowEdge.target_node_id edge ∈ node_ids) edges.
Definition count_in (indegree : gmap str Z) (edge : WorkflowEdge.t) : gmap str Z :=
  let target := WorkflowEdge.target_node_id edge in
  <[target := (default 0 (indegree !! target) + 1)%Z]> indegree.

Definition validate_dag_and_reachability (node_ids : gset str) (input_ids output_ids : list str)
    (edges : list WorkflowEdge.t) (errors : list str) : list str :=
  let known := known_edges node_ids edges in
  let adjacency := foldl (fun m edge => entry_push (WorkflowEdge.source_node_id edge)
                            (WorkflowEdge.target_node_id edge) m) ∅ known in
  let reverse := foldl (fun m edge => entry_push (WorkflowEdge.target_node_id edge)
                          (WorkflowEdge.source_node_id edge) m) ∅ known in
  let indegree := foldl count_in (gset_to_gmap 0%Z node_ids) known in
  let queue := map fst (List.filter (fun kd => (kd.2 =? 0)%Z) (map_iter indegree)) in
  let '(visited_count, errors) :=
    dag_loop (S (size node_ids)) adjacency indegree queue 0 errors in
  let errors := push_if (negb (Nat.eqb visited_count (size node_ids)))
                  (lit "workflow graph must be acyclic") errors in
  let fuel := fun starts : list str => S (length starts + length edges) in
  let reachable_from_inputs := traverse (fuel input_ids) input_ids adjacency in
  let can_reach_outputs := traverse (fuel output_ids) output_ids reverse in
  foldl (fun errors node_id =>
           let errors := push_if (bool_decide (node_id ∉ reachable_from_inputs))
                           (lit "node " ++ node_id ++ lit " is not reachable from an input") errors in
           push_if (bool_decide (node_id ∉ can_reach_outputs))
             (lit "node " ++ node_id ++ lit " cannot reach an output") errors)
    errors (set_iter node_ids).

(** ** [WorkflowIr::validate] *)
Definition validate (self : WorkflowIr.t) : res (list str) unit :=
  let nodes := WorkflowIr.nodes self in
  let edges := WorkflowIr.edges self in
  let errors := validate_workflow_header self [] in
  let '(node_ids, errors) := foldl collect_node_id (∅, errors) nodes in
  let node_by_id := nodes_by_id nodes in
  let scan := foldl (scan_edge node_by_id) (mk_scan ∅ ∅ ∅ ∅ errors) edges in
  let errors := scan_errors scan in
  let input_ids := map WorkflowNode.id (List.filter (fun n => is_input n) nodes) in
  let output_ids := map WorkflowNode.id (List.filter (fun n => is_output n) nodes) in
  let errors := push_if (match input_ids with [] => true | _ => false end)
                  (lit "workflow must contain at least one input node") errors in
  let errors := push_if (match output_ids with [] => true | _ => false end)
                  (lit "workflow must contain at least one output node") errors in
  let errors :=
    foldl (fun errors node =>
             check_node (default 0%nat (incoming scan !! WorkflowNode.id node))
               (default [] (outgoing scan !! WorkflowNode.id node)) errors node) errors nodes in
  let errors :=
    if Nat.eqb (size node_ids) (length nodes)
    then validate_dag_and_reachability node_ids input_ids output_ids edges errors
    else errors in
  match errors with [] => Ok tt | _ => Err errors end.
End Validate.
