(* ===== verification/WorkflowIrTheorems.v ===== *)
(** * Which workflows are valid

    [well_formed] says what the runtime relies on: distinct names, edges between
    known nodes, the ports that each kind of node may leave through, no cycle,
    and every node between an input and an output.  The validator accepts
    exactly the well-formed workflows, under every hash order. *)
From stdpp Require Import relations.
From S2P Require Import Prelude.
From S2P Require Import RustStr.
From S2P Require Import RustHash.
From S2P Require Import JsonValue.
From S2P Require Import Graph.
From S2P Require Import WorkflowIr.

(** ** The specification *)
Definition ports (es : list WorkflowEdge.t) : list str := map WorkflowEdge.source_port es.
Definition arrow (e : WorkflowEdge.t) : str * str :=
  (WorkflowEdge.source_node_id e, WorkflowEdge.target_node_id e).
Definition arrows (es : list WorkflowEdge.t) : list (str * str) := map arrow es.
Definition out_edges (es : list WorkflowEdge.t) (id : str) : list WorkflowEdge.t :=
  filter (fun e => WorkflowEdge.source_node_id e = id) es.
Definition in_edges (es : list WorkflowEdge.t) (id : str) : list WorkflowEdge.t :=
  filter (fun e => WorkflowEdge.target_node_id e = id) es.

Definition timeout_ok (o : option Z) : Prop := o <> Some 0%Z.
Definition not_blank (s : str) : Prop := is_blank s = false.

Section Specification.
Context {J : JsonLib}.

(** A node leaves only through the ports of its kind. *)
Definition node_typed (in_count : nat) (es : list WorkflowEdge.t) (node : WorkflowNode.t) : Prop :=
  match node with
  | WorkflowNode.Input _ => in_count = 0%nat
  | _ => in_count <> 0%nat
  end /\
  match node with
  | WorkflowNode.Input _ => es <> [] /\ Forall (eq (lit "out")) (ports es)
  | WorkflowNode.Agent agent =>
      es <> [] /\ Forall (eq (lit "out")) (ports es) /\ timeout_ok (AgentNode.system_timeout_ms agent)
  | WorkflowNode.McpTool tool =>
      es <> [] /\ Forall (eq (lit "out")) (ports es) /\ timeout_ok (McpToolNode.system_timeout_ms tool) /\
      not_blank (McpToolNode.server_name tool) /\ not_blank (McpToolNode.tool_name tool)
  | WorkflowNode.SystemAction action =>
      es <> [] /\ Forall (eq (lit "out")) (ports es) /\
      timeout_ok (SystemActionNode.system_timeout_ms action) /\
      not_blank (SystemActionNode.command action) /\
      SystemActionNode.timeout_ms action <> 0%Z /\ SystemActionNode.max_output_bytes action <> 0%Z
  | WorkflowNode.Router router =>
      timeout_ok (RouterNode.system_timeout_ms router) /\
      (2 <= length (RouterNode.routes router))%nat /\
      NoDup (map RouterRoute.port (RouterNode.routes router)) /\
      ports es ≡ₚ map RouterRoute.port (RouterNode.routes router)
  | WorkflowNode.Conditional conditional =>
      timeout_ok (ConditionalNode.system_timeout_ms conditional) /\
      not_blank (ConditionalNode.condition conditional) /\
      ports es ≡ₚ [lit "true"; lit "false"]
  | WorkflowNode.Loop loop_node =>
      timeout_ok (LoopNode.system_timeout_ms loop_node) /\
      not_blank (LoopNode.items_mapping loop_node) /\ not_blank (LoopNode.item_variable loop_node) /\
      ports es ≡ₚ [lit "item"; lit "done"]
  | WorkflowNode.Permission permission =>
      ports es ≡ₚ [lit "approved"; lit "denied"] \/
      ports es ≡ₚ [lit "approved"] /\ PermissionNode.on_denied permission = PermissionDeniedBehavior.Fail
  | WorkflowNode.Output _ => es = []
  end.

Definition header_ok (w : WorkflowIr.t) : Prop :=
  WorkflowIr.schema_version w = WORKFLOW_IR_SCHEMA_VERSION /\
  (CompilerTarget.model (WorkflowIr.compiler w) = WORKFLOW_COMPILER_MODEL \/
   CompilerTarget.model (WorkflowIr.compiler w) = LEGACY_WORKFLOW_COMPILER_MODEL) /\
  not_blank (WorkflowIr.workflow_id w) /\ not_blank (WorkflowIr.name w) /\
  WorkflowIr.workflow_version w <> 0%Z.

Definition node_ids (w : WorkflowIr.t) : list str := map WorkflowNode.id (WorkflowIr.nodes w).
Definition graph (w : WorkflowIr.t) : list (str * str) := arrows (WorkflowIr.edges w).

Record well_formed (w : WorkflowIr.t) : Prop := {
  wf_header : header_ok w;
  wf_ids : NoDup (node_ids w);
  wf_named : Forall not_blank (node_ids w);
  wf_edge_ids : NoDup (map WorkflowEdge.id (WorkflowIr.edges w));
  wf_connections : NoDup (map signature (WorkflowIr.edges w));
  wf_joined : forall u v, step (graph w) u v -> u <> v /\ u ∈ node_ids w /\ v ∈ node_ids w;
  wf_has_input : exists n, n ∈ WorkflowIr.nodes w /\ is_input n = true;
  wf_has_output : exists n, n ∈ WorkflowIr.nodes w /\ is_output n = true;
  wf_typed : forall n, n ∈ WorkflowIr.nodes w ->
    node_typed (length (in_edges (WorkflowIr.edges w) (WorkflowNode.id n)))
      (out_edges (WorkflowIr.edges w) (WorkflowNode.id n)) n;
  wf_acyclic : acyclic (graph w);
  wf_from_input : forall n, n ∈ WorkflowIr.nodes w ->
    exists i, i ∈ WorkflowIr.nodes w /\ is_input i = true /\
      rtc (step (graph w)) (WorkflowNode.id i) (WorkflowNode.id n);
  wf_to_output : forall n, n ∈ WorkflowIr.nodes w ->
    exists o, o ∈ WorkflowIr.nodes w /\ is_output o = true /\
      rtc (step (graph w)) (WorkflowNode.id n) (WorkflowNode.id o);
}.
End Specification.

(** ** Ports of one node *)
Lemma push_if_nil c m errors : push_if c m errors = [] <-> errors = [] /\ c = false.
Proof.
  destruct c; simpl; [|tauto]. split; [intros Hn|naive_solver].
  by apply app_eq_nil in Hn as [_ ?].
Qed.

Lemma size_list_to_set_le (l : list str) : (size (list_to_set (C := gset str) l) <= length l)%nat.
Proof.
  induction l as [|x l IH]; [done|].
  rewrite list_to_set_cons, size_union_alt, size_singleton. cbn [length].
  assert (size (list_to_set (C := gset str) l ∖ {[x]}) <= size (list_to_set (C := gset str) l))%nat
    by (apply subseteq_size; set_solver). lia.
Qed.

Lemma size_list_to_set_NoDup (l : list str) :
  size (list_to_set (C := gset str) l) = length l <-> NoDup l.
Proof.
  split; [|apply size_list_to_set].
  induction l as [|x l IH]; [constructor|]. rewrite list_to_set_cons. cbn [length]. intros Hs.
  pose proof (size_list_to_set_le l). destruct (decide (x ∈ l)) as [Hin|Hin].
  - rewrite subseteq_union_1_L in Hs by set_solver. lia.
  - constructor; [done|]. rewrite size_union in Hs by set_solver.
    rewrite size_singleton in Hs. apply IH. lia.
Qed.

Lemma same_set_Permutation (l k : list str) :
  NoDup k ->
  list_to_set (C := gset str) l = list_to_set k /\ length l = length k <-> l ≡ₚ k.
Proof.
  intros Hk. split.
  - intros [Hs Hl]. assert (NoDup l) as Hnd
      by (apply size_list_to_set_NoDup; rewrite Hs, size_list_to_set by done; lia).
    apply NoDup_Permutation; [done..|]. intros x.
    by rewrite <- !(elem_of_list_to_set (C := gset str)), Hs.
  - intros Hp. split; [|by rewrite Hp]. apply set_eq. intros x.
    by rewrite !elem_of_list_to_set, Hp.
Qed.

Lemma exact_ports_nil id es expected message errors :
  NoDup expected ->
  require_exact_ports id es expected message errors = [] <->
  errors = [] /\ ports es ≡ₚ expected.
Proof.
  intros Hnd. unfold require_exact_ports, port_set. cbv zeta.
  rewrite push_if_nil, orb_false_iff, bool_decide_eq_false, negb_false_iff, Nat.eqb_eq.
  rewrite <- same_set_Permutation by done. unfold ports. rewrite length_map.
  destruct (decide (list_to_set (C := gset str) (map WorkflowEdge.source_port es) = list_to_set expected));
    tauto.
Qed.

Lemma single_port_nil id es port errors :
  require_single_port id es port errors = [] <->
  errors = [] /\ es <> [] /\ Forall (eq port) (ports es).
Proof.
  unfold require_single_port, ports. rewrite push_if_nil, orb_false_iff, existsb_false.
  rewrite Forall_fmap.
  assert (Forall (fun e => negb (str_eqb (WorkflowEdge.source_port e) port) = false) es <->
          Forall (eq port ∘ WorkflowEdge.source_port) es) as ->.
  { apply Forall_proper; [|done]. intros e. cbn.
    rewrite negb_false_iff, str_eqb_eq. naive_solver. }
  destruct es; naive_solver.
Qed.

Lemma incoming_nil id n errors :
  require_incoming id n errors = [] <-> errors = [] /\ n <> 0%nat.
Proof. unfold require_incoming. by rewrite push_if_nil, Nat.eqb_neq. Qed.

Lemma system_timeout_nil id o errors :
  require_system_timeout id o errors = [] <-> errors = [] /\ timeout_ok o.
Proof. unfold require_system_timeout. by rewrite push_if_nil, bool_decide_eq_false. Qed.

Lemma route_ports_nil (es : list WorkflowEdge.t) (l : list str) :
  NoDup l ->
  (list_to_set (C := gset str) l = port_set es /\ length es = size (list_to_set (C := gset str) l)) <->
  ports es ≡ₚ l.
Proof.
  intros Hnd. rewrite size_list_to_set by done. rewrite <- same_set_Permutation by done.
  unfold port_set, ports. rewrite length_map. split; intros [? ?]; split; congruence.
Qed.

(** Distinct literals, by evaluation. *)
Ltac distinct := by apply (bool_decide_eq_true_1 _); vm_compute.

Definition approval_ports : list str := [lit "approved"; lit "denied"].

Lemma elem_of_approval_ports p :
  p ∈ approval_ports <-> p = lit "approved" \/ p = lit "denied".
Proof. unfold approval_ports. by rewrite elem_of_cons, list_elem_of_singleton. Qed.

Lemma approval_ports_iff (l : list str) :
  NoDup l /\ lit "approved" ∈ l /\ (forall p, p ∈ l -> p = lit "approved" \/ p = lit "denied") <->
  l ≡ₚ approval_ports \/ l ≡ₚ [lit "approved"].
Proof.
  split.
  - intros (Hnd & Ha & Hall). destruct (decide (lit "denied" ∈ l)) as [Hd|Hd]; [left|right];
      (apply NoDup_Permutation; [done|distinct|]); intros p.
    + rewrite elem_of_approval_ports. split; [apply Hall|by intros [->| ->]].
    + rewrite list_elem_of_singleton. split; [|by intros ->].
      intros Hp. by destruct (Hall p Hp) as [?| ->].
  - intros [Hp|Hp]; setoid_rewrite Hp; (split_and!; [distinct| |]).
    + apply elem_of_approval_ports. by left.
    + intros p. apply elem_of_approval_ports.
    + left.
    + intros p ->%list_elem_of_singleton. by left.
Qed.

Lemma permission_ports_nil {H : HashOrder} (es : list WorkflowEdge.t) (l := ports es) :
  (bool_decide (lit "approved" ∉ port_set es) = false /\
  existsb (fun port => negb (str_eqb port (lit "approved") || str_eqb port (lit "denied")))
    (set_iter (port_set es)) = false) /\
  negb (Nat.eqb (size (port_set es)) (length es)) = false <->
  l ≡ₚ approval_ports \/ l ≡ₚ [lit "approved"].
Proof.
  rewrite <- approval_ports_iff, bool_decide_eq_false, existsb_false, list.Forall_forall.
  rewrite negb_false_iff, Nat.eqb_eq. subst l.
  assert (size (port_set es) = length es <-> NoDup (ports es)) as ->.
  { rewrite <- size_list_to_set_NoDup. unfold port_set, ports. by rewrite length_map. }
  assert (forall p, p ∈ port_set es <-> p ∈ ports es) as Hin
    by (intros p; apply elem_of_list_to_set).
  assert (~ (lit "approved" ∉ port_set es) <-> lit "approved" ∈ ports es) as ->.
  { rewrite Hin. split; [apply dec_stable|tauto]. }
  assert (forall Q : str -> Prop,
    (forall p, p ∈ set_iter (port_set es) -> Q p) <-> (forall p, p ∈ ports es -> Q p)) as ->.
  { intros Q. split; intros HQ p Hp; apply HQ; by apply elem_of_set_iter, Hin + apply Hin, elem_of_set_iter. }
  setoid_rewrite negb_false_iff. setoid_rewrite orb_true_iff. setoid_rewrite str_eqb_eq. tauto.
Qed.

Lemma denied_branch_nil (es : list WorkflowEdge.t) behavior :
  ports es ≡ₚ approval_ports \/ ports es ≡ₚ [lit "approved"] ->
  match behavior with
  | PermissionDeniedBehavior.Branch => bool_decide (lit "denied" ∉ port_set es)
  | PermissionDeniedBehavior.Fail => false
  end = false <->
  ports es ≡ₚ approval_ports \/
  ports es ≡ₚ [lit "approved"] /\ behavior = PermissionDeniedBehavior.Fail.
Proof.
  intros Hp. destruct behavior; [naive_solver|].
  rewrite bool_decide_eq_false.
  assert (lit "denied" ∈ port_set es <-> lit "denied" ∈ ports es) as -> by apply elem_of_list_to_set.
  split.
  - intros Hd. left. destruct Hp as [|Hp]; [done|]. rewrite Hp in Hd. destruct Hd.
    intros Hd. apply list_elem_of_singleton in Hd. discriminate Hd.
  - intros [->|[_ ?]]; [|done]. intros Hd. apply Hd, elem_of_approval_ports. by right.
Qed.

Section Nodes.
Context {J : JsonLib} {H : HashOrder}.

Lemma check_node_nil n es errors node :
  check_node n es errors node = [] <-> errors = [] /\ node_typed n es node.
Proof.
  unfold node_typed.
  destruct node as [i|a|r|c|l|p|m|s|o]; simpl; cbv zeta.
  - rewrite single_port_nil, push_if_nil, negb_false_iff, Nat.eqb_eq. tauto.
  - rewrite system_timeout_nil, single_port_nil, incoming_nil. tauto.
  - rewrite !push_if_nil, system_timeout_nil, incoming_nil.
    rewrite orb_false_iff, bool_decide_eq_false, !negb_false_iff, !Nat.eqb_eq, Nat.ltb_ge.
    rewrite <- (length_map RouterRoute.port (RouterNode.routes r)).
    rewrite size_list_to_set_NoDup.
    split.
    + intros ((([[-> ?] ?] & Hlen) & Hnd) & Hs & Hl). split_and!; try done.
      apply route_ports_nil; [done|]. split; [by apply dec_stable|done].
    + intros (-> & ? & ? & ? & Hnd & Hp). split_and!; try done;
        apply route_ports_nil in Hp as [Hs Hl]; try done. tauto.
  - rewrite exact_ports_nil by distinct.
    rewrite push_if_nil, system_timeout_nil, incoming_nil. unfold not_blank. tauto.
  - rewrite exact_ports_nil by distinct.
    rewrite !push_if_nil, system_timeout_nil, incoming_nil. unfold not_blank. tauto.
  - rewrite !push_if_nil, incoming_nil, !orb_false_iff.
    rewrite permission_ports_nil. split.
    + intros ([[-> ?] Hp] & Hd). by apply denied_branch_nil in Hd.
    + intros (-> & ? & Hp).
      assert (ports es ≡ₚ approval_ports \/ ports es ≡ₚ [lit "approved"]) as Hp' by (unfold approval_ports; tauto).
      split_and!; try done. by apply denied_branch_nil.
  - rewrite push_if_nil, system_timeout_nil, single_port_nil, incoming_nil, orb_false_iff.
    unfold not_blank. tauto.
  - rewrite !push_if_nil, system_timeout_nil, single_port_nil, incoming_nil, !Z.eqb_neq.
    unfold not_blank. tauto.
  - rewrite push_if_nil, incoming_nil. destruct es; naive_solver.
Qed.

Lemma check_nodes_nil (count : WorkflowNode.t -> nat) (edges : WorkflowNode.t -> list WorkflowEdge.t)
    nodes errors :
  foldl (fun errors node => check_node (count node) (edges node) errors node) errors nodes = [] <->
  errors = [] /\ Forall (fun n => node_typed (count n) (edges n) n) nodes.
Proof.
  revert errors. induction nodes as [|n nodes IH]; intros errors; simpl.
  - split; [by intros ->|tauto].
  - rewrite IH, check_node_nil, Forall_cons_iff. tauto.
Qed.

Lemma header_nil w errors :
  validate_workflow_header w errors = [] <-> errors = [] /\ header_ok w.
Proof.
  unfold validate_workflow_header, header_ok, not_blank. cbv zeta.
  rewrite !push_if_nil, !orb_false_iff, andb_false_iff, Z.eqb_neq, !negb_false_iff, !str_eqb_eq.
  tauto.
Qed.

Definition fresh_names (ids : gset str) (names : list str) : Prop :=
  Forall not_blank names /\ NoDup names /\ (forall n, n ∈ names -> n ∉ ids).

Lemma fresh_names_cons ids n names :
  fresh_names ids (n :: names) <->
  not_blank n /\ n ∉ ids /\ fresh_names ({[n]} ∪ ids) names.
Proof.
  unfold fresh_names. rewrite Forall_cons_iff, list.NoDup_cons. split.
  - intros ([? ?] & [Hn ?] & Hd). split_and!; try done; [apply Hd; left|].
    intros m Hm [->%elem_of_singleton|Hi]%elem_of_union; [done|].
    apply (Hd m); [by right|done].
  - intros (? & ? & ? & ? & Hd). split_and!; try done.
    + intros Hn. by apply (Hd n Hn), elem_of_union_l, elem_of_singleton.
    + intros m [->|Hm]%elem_of_cons; [done|]. intros Hi. by apply (Hd m Hm), elem_of_union_r.
Qed.

Lemma collect_node_ids_nil nodes ids errors ids' errors' :
  foldl collect_node_id (ids, errors) nodes = (ids', errors') ->
  (errors' = [] <-> errors = [] /\ fresh_names ids (map WorkflowNode.id nodes)) /\
  (fresh_names ids (map WorkflowNode.id nodes) ->
   ids' = ids ∪ list_to_set (map WorkflowNode.id nodes)).
Proof.
  revert ids errors. induction nodes as [|n nodes IH]; intros ids errors; cbn [foldl map].
  - intros [= <- <-]. rewrite list_to_set_nil, union_empty_r_L. split; [|done].
    split; [intros ->|tauto]. split; [done|].
    split_and!; [constructor|constructor|by intros ? ?%elem_of_nil].
  - intros Hf. rewrite fresh_names_cons, list_to_set_cons. unfold not_blank.
    unfold collect_node_id at 2 in Hf.
    destruct (is_blank (WorkflowNode.id n)) eqn:Hb.
    { apply IH in Hf as [Hf _]. rewrite Hf. split; [|by intros [? _]]. split.
      - intros [He _]. by apply app_eq_nil in He as [_ ?].
      - by intros (_ & ? & _). }
    destruct (decide (WorkflowNode.id n ∈ ids)) as [Hin|Hin].
    { apply IH in Hf as [Hf _]. rewrite Hf. split; [|by intros (_ & ? & _)]. split.
      - intros [He _]. by apply app_eq_nil in He as [_ ?].
      - by intros (_ & _ & ? & _). }
    apply IH in Hf as [Hf Hids]. rewrite Hf. split; [tauto|].
    intros (_ & _ & Hfresh). rewrite (Hids Hfresh).
    by rewrite (union_comm_L {[_]} ids), union_assoc_L.
Qed.
End Nodes.

(** ** The edges *)
Section EdgesAndGraph.
Context {J : JsonLib} {H : HashOrder}.

Lemma nodes_by_id_lookup (nodes : list WorkflowNode.t) (m : gmap str WorkflowNode.t) (id : str) :
  foldl (fun (m : gmap str WorkflowNode.t) node => <[WorkflowNode.id node := node]> m) m nodes !! id = None <->
  m !! id = None /\ id ∉ map WorkflowNode.id nodes.
Proof.
  revert m. induction nodes as [|n nodes IH]; intros m; cbn [foldl map].
  - split; [intros ?; split; [done|apply not_elem_of_nil]|tauto].
  - rewrite IH, not_elem_of_cons. destruct (decide (WorkflowNode.id n = id)) as [->|Hne].
    + rewrite lookup_insert_eq. naive_solver.
    + rewrite lookup_insert_ne by done. naive_solver.
Qed.

Lemma scan_incoming nb acc edges :
  incoming (foldl (scan_edge nb) acc edges) =
  foldl (fun m e => entry_add (WorkflowEdge.target_node_id e) m) (incoming acc) edges.
Proof. revert acc. induction edges as [|e edges IH]; intros acc; [done|]. cbn [foldl]. by rewrite IH. Qed.

Lemma scan_outgoing nb acc edges :
  outgoing (foldl (scan_edge nb) acc edges) =
  foldl (fun m e => entry_push (WorkflowEdge.source_node_id e) e m) (outgoing acc) edges.
Proof. revert acc. induction edges as [|e edges IH]; intros acc; [done|]. cbn [foldl]. by rewrite IH. Qed.

Definition edge_ok (nb : gmap str WorkflowNode.t) (e : WorkflowEdge.t) : Prop :=
  WorkflowEdge.source_node_id e <> WorkflowEdge.target_node_id e /\
  nb !! WorkflowEdge.source_node_id e <> None /\ nb !! WorkflowEdge.target_node_id e <> None.

Lemma scan_edge_nil nb acc e :
  scan_errors (scan_edge nb acc e) = [] <->
  scan_errors acc = [] /\ WorkflowEdge.id e ∉ edge_ids acc /\
  signature e ∉ edge_signatures acc /\ edge_ok nb e.
Proof.
  unfold scan_edge, edge_ok. cbn [scan_errors].
  rewrite !push_if_nil, !bool_decide_eq_false. unfold str_eqb. rewrite bool_decide_eq_false. tauto.
Qed.

Lemma scan_errors_nil nb acc edges :
  scan_errors (foldl (scan_edge nb) acc edges) = [] <->
  scan_errors acc = [] /\
  (NoDup (map WorkflowEdge.id edges) /\ forall e, e ∈ edges -> WorkflowEdge.id e ∉ edge_ids acc) /\
  (NoDup (map signature edges) /\ forall e, e ∈ edges -> signature e ∉ edge_signatures acc) /\
  (forall e, e ∈ edges -> edge_ok nb e).
Proof.
  assert (forall (B : Type) `{Countable B} (f : WorkflowEdge.t -> B) (X : gset B) e l,
    (f e ∉ X /\ NoDup (map f l) /\ (forall e', e' ∈ l -> f e' ∉ {[f e]} ∪ X)) <->
    (NoDup (f e :: map f l) /\ forall e', e' ∈ e :: l -> f e' ∉ X)) as Hset.
  { intros B ?? f X e l. rewrite list.NoDup_cons. split.
    - intros (He & Hnd & Hl). split_and!; [|done|].
      + intros (e' & Heq & Hin)%list_elem_of_fmap. by apply (Hl e' Hin), elem_of_union_l, elem_of_singleton.
      + intros e' [->|Hin]%elem_of_cons; [done|]. intros Hx. by apply (Hl e' Hin), elem_of_union_r.
    - intros [[Hn Hnd] Hl]. split_and!; [apply Hl; left|done|].
      intros e' Hin [Heq%elem_of_singleton|Hx]%elem_of_union.
      + apply Hn. rewrite <- Heq. by apply list_elem_of_fmap_2.
      + apply (Hl e'); [by right|done]. }
  revert acc. induction edges as [|e edges IH]; intros acc; cbn [foldl map].
  - split; [intros ?; split_and!; first [done|intros ? []%elem_of_nil|constructor]|tauto].
  - rewrite IH, scan_edge_nil. cbn [edge_ids edge_signatures scan_edge].
    rewrite <- !Hset. setoid_rewrite elem_of_cons. naive_solver.
Qed.

(** ** The two searches *)
Lemma traverse_loop_spec fuel graph es visited queue starts :
  (forall u, default [] (graph !! u) = succs es u) ->
  searching es anywhere starts visited queue -> (work es visited queue < fuel)%nat ->
  forall v, v ∈ traverse_loop fuel graph visited queue <-> reached es anywhere starts v.
Proof.
  intros Hg. revert visited queue.
  induction fuel as [|fuel IH]; intros visited queue Hs Hw v; [lia|].
  destruct queue as [|u queue]; simpl; [by apply searching_done|].
  destruct (decide (u ∈ visited)) as [Hu|Hu].
  - apply IH; [|unfold work in *; simpl in Hw; lia].
    apply (searching_skip es anywhere starts visited (u :: queue) queue u); [done| |by left].
    intros x. apply elem_of_cons.
  - rewrite Hg. apply IH.
    + apply (searching_visit es anywhere starts visited (u :: queue) _ u); try done.
      * left.
      * intros x [->|?]%elem_of_cons; [by left|right]. by apply elem_of_app; left.
      * intros x [?|?]%elem_of_app; [left; by right|by right].
      * intros x [Hx _]. apply elem_of_app. right. by apply elem_of_succs.
    + pose proof (work_visit es visited u Hu). unfold work in *. rewrite length_app. simpl in Hw. lia.
Qed.

Lemma traverse_spec fuel graph es starts :
  (forall u, default [] (graph !! u) = succs es u) ->
  (length starts + length es < fuel)%nat ->
  forall v, v ∈ traverse fuel starts graph <-> exists s, s ∈ starts /\ rtc (step es) s v.
Proof.
  intros Hg Hf v. unfold traverse. rewrite (traverse_loop_spec _ _ es _ _ starts); [|done| |].
  - unfold reached. split; intros (s & Hs & Hr); exists s.
    + split; [done|]. destruct Hr as [_ Hr]. by eapply rtc_subrel; [|exact Hr]; intros ? ? [? _].
    + split_and!; [done..|]. by eapply rtc_subrel; [|exact Hr]; intros ? ? ?; split.
  - apply searching_start.
  - by rewrite work_start.
Qed.

(** ** Kahn's pass *)
Lemma relax_targets_spec targets indegree queue errors :
  (forall t, t ∈ targets -> indegree !! t <> None) ->
  relax_targets targets indegree queue errors =
  (relax indegree queue targets, errors).
Proof.
  revert indegree queue. induction targets as [|t l IH]; intros indegree queue Ht; simpl; [done|].
  destruct (indegree !! t) as [d|] eqn:Hd; [|by destruct (Ht t (list_elem_of_here _ _))].
  apply IH. intros t' Hin. destruct (decide (t = t')) as [<-|]; [by rewrite lookup_insert_eq|].
  rewrite lookup_insert_ne by done. apply Ht. by right.
Qed.

Lemma dag_loop_spec fuel adjacency nodes es sorted queue indegree errors :
  well_joined nodes es -> (forall u, default [] (adjacency !! u) = succs es u) ->
  sorting nodes es sorted queue indegree -> (size nodes < length sorted + fuel)%nat ->
  exists sorted' indegree',
    dag_loop fuel adjacency indegree queue (length sorted) errors = (length sorted', errors) /\
    sorting nodes es sorted' [] indegree'.
Proof.
  intros Hj Hadj. revert sorted queue indegree.
  induction fuel as [|fuel IH]; intros sorted queue indegree Hs Hf.
  - pose proof (sorting_bound _ _ _ _ _ Hs). lia.
  - destruct queue as [|u queue]; simpl; [by exists sorted, indegree|].
    destruct (sorting_step _ _ _ _ _ _ Hj Hs) as (ind' & new & Hrel & Hs' & _).
    rewrite Hadj, relax_targets_spec, Hrel.
    + destruct (IH (sorted ++ [u]) (queue ++ new) ind' Hs') as (sorted' & ind2 & Heq & Hs2).
      * rewrite length_app. simpl. lia.
      * exists sorted', ind2. split; [|done]. by rewrite length_app, Nat.add_comm in Heq.
    + intros t Ht%elem_of_succs. rewrite (so_degree _ _ _ _ _ Hs) by by eapply Hj. done.
Qed.
End EdgesAndGraph.

Lemma NoDup_map_filter {A B} (f : A -> B) (p : A -> bool) l :
  NoDup (map f l) -> NoDup (map f (List.filter p l)).
Proof.
  induction l as [|x l IH]; cbn [map List.filter]; [done|].
  intros [Hx Hl]%list.NoDup_cons. destruct (p x); [|by apply IH]. cbn [map].
  constructor; [|by apply IH]. intros (y & Heq & Hy)%list_elem_of_fmap. apply Hx.
  rewrite Heq. apply list_elem_of_fmap_2. apply list_elem_of_In in Hy.
  by apply list_elem_of_In, (List.filter_In p y l).
Qed.

Section Reachability.
Context {J : JsonLib} {H : HashOrder}.

Lemma succs_arrows es u :
  succs (arrows es) u =
  map WorkflowEdge.target_node_id (filter (fun e => WorkflowEdge.source_node_id e = u) es).
Proof.
  induction es as [|e es IH]; [done|]. unfold succs, arrows in *.
  cbn [map]. rewrite !filter_cons. cbn [fst arrow].
  destruct (decide (WorkflowEdge.source_node_id e = u)); [|done]. cbn [map snd]. by rewrite IH.
Qed.

Definition arrows_back (es : list WorkflowEdge.t) : list (str * str) :=
  map (fun e => (WorkflowEdge.target_node_id e, WorkflowEdge.source_node_id e)) es.
Lemma succs_arrows_back es u :
  succs (arrows_back es) u =
  map WorkflowEdge.source_node_id (filter (fun e => WorkflowEdge.target_node_id e = u) es).
Proof.
  induction es as [|e es IH]; [done|]. unfold succs, arrows_back in *.
  cbn [map]. rewrite !filter_cons. cbn [fst].
  destruct (decide (WorkflowEdge.target_node_id e = u)); [|done]. cbn [map snd]. by rewrite IH.
Qed.

Lemma step_arrows es u v :
  step (arrows es) u v <->
  exists e, e ∈ es /\ WorkflowEdge.source_node_id e = u /\ WorkflowEdge.target_node_id e = v.
Proof.
  unfold step, arrows. rewrite list_elem_of_fmap. unfold arrow. split.
  - intros (e & [= -> ->] & ?). by exists e.
  - intros (e & ? & <- & <-). by exists e.
Qed.

Lemma rtc_back es u v : rtc (step (arrows_back es)) u v <-> rtc (step (arrows es)) v u.
Proof.
  assert (forall a b, step (arrows_back es) a b <-> step (arrows es) b a) as Hstep.
  { intros a b. rewrite step_arrows. unfold step, arrows_back. rewrite list_elem_of_fmap. split.
    - intros (e & [= -> ->] & ?). by exists e.
    - intros (e & ? & <- & <-). by exists e. }
  split; induction 1 as [|a b c Hab _ IH]; try done; (eapply rtc_r; [exact IH|]); by apply Hstep.
Qed.

Lemma count_in_lookup indegree es v :
  foldl count_in indegree es !! v =
  match times v (arrows es).*2 with
  | O => indegree !! v
  | n => Some (default 0%Z (indegree !! v) + Z.of_nat n)%Z
  end.
Proof.
  revert indegree. induction es as [|e es IH]; intros indegree; [done|].
  cbn [foldl]. rewrite IH. change (arrows (e :: es)).*2 with (WorkflowEdge.target_node_id e :: (arrows es).*2).
  rewrite times_cons. unfold count_in. destruct (decide (WorkflowEdge.target_node_id e = v)) as [->|Hne].
  - rewrite lookup_insert_eq. destruct (times v (arrows es).*2); cbn [default Nat.add]; f_equal; unfold default, from_option, id; lia.
  - by rewrite lookup_insert_ne.
Qed.

Lemma reach_checks_nil (from_inputs to_outputs : gset str) errors l :
  foldl (fun errors node_id =>
           push_if (bool_decide (node_id ∉ to_outputs))
             (lit "node " ++ node_id ++ lit " cannot reach an output")
             (push_if (bool_decide (node_id ∉ from_inputs))
                (lit "node " ++ node_id ++ lit " is not reachable from an input") errors)) errors l = [] <->
  errors = [] /\ forall v, v ∈ l -> v ∈ from_inputs /\ v ∈ to_outputs.
Proof.
  revert errors. induction l as [|x l IH]; intros errors; cbn [foldl].
  - split; [intros ->; split; [done|intros ? []%elem_of_nil]|tauto].
  - rewrite IH, !push_if_nil, !bool_decide_eq_false. setoid_rewrite elem_of_cons. split.
    + intros [[[-> ?] ?] Hl]. split; [done|]. intros v [->|Hv]; [|by apply Hl].
      split; by apply dec_stable.
    + intros [-> Hl]. split_and!; try done; [intros Hn; by apply Hn, Hl, or_introl..|].
      intros v Hv. apply Hl. by right.
Qed.

(** The counters and the first queue of the pass. *)
Lemma sorting_of_known (X : gset str) known :
  well_joined X (arrows known) ->
  let indegree := foldl count_in (gset_to_gmap 0%Z X) known in
  sorting X (arrows known) []
    (map fst (List.filter (fun kd => (kd.2 =? 0)%Z) (map_iter indegree))) indegree.
Proof.
  intros Hj indegree.
  assert (forall v, v ∈ X -> indegree !! v = Some (Z.of_nat (times v (arrows known).*2))) as Hdeg.
  { intros v Hv. unfold indegree. rewrite count_in_lookup, lookup_gset_to_gmap, option_guard_True by done.
    by destruct (times v (arrows known).*2). }
  assert (forall v d, indegree !! v = Some d -> v ∈ X) as Hdom.
  { intros v d. unfold indegree. rewrite count_in_lookup.
    destruct (times v (arrows known).*2) eqn:Ht.
    - rewrite lookup_gset_to_gmap_Some. tauto.
    - intros _. destruct (decide (v ∈ (arrows known).*2)) as [Hin|Hn%times_zero]; [|by rewrite Hn in Ht].
      apply list_elem_of_fmap in Hin as ([u v'] & -> & Hin). by apply (Hj u v'). }
  apply sorting_start.
  - apply NoDup_map_filter, NoDup_map_iter.
  - done.
  - intros v. rewrite list_elem_of_fmap. split.
    + intros ([k d] & -> & Hin). apply list_elem_of_In, filter_In in Hin as [Hin Hz].
      apply list_elem_of_In, elem_of_map_iter in Hin. cbn [snd fst] in *.
      split; [by eapply Hdom|]. rewrite Hdeg in Hin by (by eapply Hdom).
      injection Hin as Hin. apply Z.eqb_eq in Hz. lia.
    + intros [Hv Ht]. exists (v, 0%Z). split; [done|].
      apply list_elem_of_In, filter_In. split; [|done].
      apply list_elem_of_In, elem_of_map_iter. by rewrite Hdeg, Ht.
Qed.

Lemma dag_nil (X : gset str) ins outs edges errors :
  let known := known_edges X edges in
  validate_dag_and_reachability X ins outs edges errors = [] <->
  errors = [] /\ acyclic (arrows known) /\
  forall v, v ∈ X -> (exists i, i ∈ ins /\ rtc (step (arrows known)) i v) /\
                     (exists o, o ∈ outs /\ rtc (step (arrows known)) v o).
Proof.
  intros known. unfold validate_dag_and_reachability. cbv zeta. fold known.
  set (adjacency := foldl _ ∅ known). set (reverse := foldl _ ∅ known).
  assert (well_joined X (arrows known)) as Hj.
  { intros u v (e & He & <- & <-)%step_arrows.
    by apply list_elem_of_filter in He as [? _]. }
  assert (forall u, default [] (adjacency !! u) = succs (arrows known) u) as Hadj.
  { intros u. rewrite succs_arrows. unfold adjacency. rewrite entry_push_group. by rewrite lookup_empty. }
  assert (forall u, default [] (reverse !! u) = succs (arrows_back known) u) as Hrev.
  { intros u. rewrite succs_arrows_back. unfold reverse. rewrite entry_push_group. by rewrite lookup_empty. }
  destruct (dag_loop_spec (S (size X)) adjacency X (arrows known) []
    _ _ errors Hj Hadj (sorting_of_known X known Hj)) as (sorted & ind' & Hloop & Hs); [simpl; lia|].
  cbn [length] in Hloop. rewrite Hloop.
  rewrite reach_checks_nil, push_if_nil, negb_false_iff, Nat.eqb_eq.
  rewrite (sorting_decides X (arrows known)) by done.
  assert (length known <= length edges)%nat as Hlen by apply length_filter.
  setoid_rewrite elem_of_set_iter.
  assert (forall v, v ∈ traverse (S (length ins + length edges)) ins adjacency <->
    exists i, i ∈ ins /\ rtc (step (arrows known)) i v) as Hi.
  { apply traverse_spec; [done|]. unfold arrows. rewrite length_map. lia. }
  assert (forall v, v ∈ traverse (S (length outs + length edges)) outs reverse <->
    exists o, o ∈ outs /\ rtc (step (arrows known)) v o) as Ho.
  { intros v. rewrite traverse_spec; [|done|unfold arrows_back; rewrite length_map; lia].
    by setoid_rewrite rtc_back. }
  setoid_rewrite Hi. setoid_rewrite Ho. tauto.
Qed.
End Reachability.

(** ** The validator *)
Section Validator.
Context {J : JsonLib} {H : HashOrder}.

Lemma nodes_by_id_None nodes (id : str) :
  nodes_by_id nodes !! id = None <-> id ∉ map WorkflowNode.id nodes.
Proof. unfold nodes_by_id. rewrite nodes_by_id_lookup, lookup_empty. tauto. Qed.

Lemma edges_joined nodes edges :
  (forall e, e ∈ edges -> edge_ok (nodes_by_id nodes) e) <->
  (forall u v, step (arrows edges) u v ->
     u <> v /\ u ∈ map WorkflowNode.id nodes /\ v ∈ map WorkflowNode.id nodes).
Proof.
  unfold edge_ok. setoid_rewrite nodes_by_id_None. setoid_rewrite step_arrows. split.
  - intros He u v (e & Hin & <- & <-). destruct (He e Hin) as (? & ? & ?).
    split_and!; [done|by apply dec_stable..].
  - intros Hs e Hin. destruct (Hs _ _ (ex_intro _ e (conj Hin (conj eq_refl eq_refl)))) as (? & ? & ?).
    tauto.
Qed.

Lemma known_edges_all X edges :
  (forall u v, step (arrows edges) u v -> u ∈ X /\ v ∈ X) -> known_edges X edges = edges.
Proof.
  intros Hs. unfold known_edges.
  assert (Forall (fun e => WorkflowEdge.source_node_id e ∈ X /\ WorkflowEdge.target_node_id e ∈ X) edges)
    as Hall.
  { apply list.Forall_forall. intros e He. apply Hs, step_arrows. by exists e. }
  clear Hs. induction Hall as [|e l He Hl IH]; [done|]. by rewrite filter_cons, decide_True, IH.
Qed.

Lemma no_ids_iff (p : WorkflowNode.t -> bool) nodes :
  match map WorkflowNode.id (List.filter p nodes) with [] => true | _ => false end = false <->
  exists n, n ∈ nodes /\ p n = true.
Proof.
  destruct (List.filter p nodes) as [|n l] eqn:Hf; cbn [map]; split; try done.
  - intros (n & Hn & Hp). apply list_elem_of_In in Hn.
    assert (n ∈ List.filter p nodes) as Hin by (by apply list_elem_of_In, List.filter_In).
    rewrite Hf in Hin. by apply elem_of_nil in Hin.
  - intros _. exists n. assert (n ∈ List.filter p nodes) as Hin by (rewrite Hf; left).
    apply list_elem_of_In, List.filter_In in Hin as [Hin Hp]. by apply list_elem_of_In in Hin.
Qed.

Lemma elem_of_picked (p : WorkflowNode.t -> bool) nodes (Q : str -> Prop) :
  (exists i, i ∈ map WorkflowNode.id (List.filter p nodes) /\ Q i) <->
  (exists n, n ∈ nodes /\ p n = true /\ Q (WorkflowNode.id n)).
Proof.
  setoid_rewrite list_elem_of_fmap. setoid_rewrite list_elem_of_In. setoid_rewrite List.filter_In.
  naive_solver.
Qed.

Lemma validate_iff (w : WorkflowIr.t) :
  validate w = Ok tt <-> well_formed w.
Proof.
  unfold validate. cbv zeta.
  destruct (foldl collect_node_id _ _) as [ids errors1] eqn:Hcollect.
  set (scan := foldl _ _ (WorkflowIr.edges w)).
  set (errors2 := push_if _ (lit "workflow must contain at least one output node") _).
  set (errors3 := foldl _ errors2 (WorkflowIr.nodes w)).
  transitivity ((if Nat.eqb (size ids) (length (WorkflowIr.nodes w))
    then validate_dag_and_reachability ids
           (map WorkflowNode.id (List.filter (fun n => is_input n) (WorkflowIr.nodes w)))
           (map WorkflowNode.id (List.filter (fun n => is_output n) (WorkflowIr.nodes w)))
           (WorkflowIr.edges w) errors3 else errors3) = []).
  { destruct (if Nat.eqb _ _ then _ else _); naive_solver. }
  apply collect_node_ids_nil in Hcollect as [Hcollect Hids].
  assert (forall id, default 0%nat (incoming scan !! id) = length (in_edges (WorkflowIr.edges w) id)) as Hin_count.
  { intros id. unfold scan. rewrite scan_incoming, entry_add_count. cbn [incoming].
    by rewrite lookup_empty. }
  assert (forall id, default [] (outgoing scan !! id) = out_edges (WorkflowIr.edges w) id) as Hout_edges.
  { intros id. unfold scan. rewrite scan_outgoing, (entry_push_group _ (fun e => e)). cbn [outgoing].
    by rewrite lookup_empty, map_id. }
  assert (errors3 = [] <->
    header_ok w /\ fresh_names ∅ (node_ids w) /\
    NoDup (map WorkflowEdge.id (WorkflowIr.edges w)) /\ NoDup (map signature (WorkflowIr.edges w)) /\
    (forall u v, step (graph w) u v -> u <> v /\ u ∈ node_ids w /\ v ∈ node_ids w) /\
    (exists n, n ∈ WorkflowIr.nodes w /\ is_input n = true) /\
    (exists n, n ∈ WorkflowIr.nodes w /\ is_output n = true) /\
    (forall n, n ∈ WorkflowIr.nodes w ->
       node_typed (length (in_edges (WorkflowIr.edges w) (WorkflowNode.id n)))
         (out_edges (WorkflowIr.edges w) (WorkflowNode.id n)) n)) as Herr.
  { unfold errors3, errors2.
    rewrite check_nodes_nil, !push_if_nil, !no_ids_iff, list.Forall_forall.
    setoid_rewrite Hin_count. setoid_rewrite Hout_edges. unfold scan.
    rewrite scan_errors_nil. cbn [scan_errors edge_ids edge_signatures].
    rewrite Hcollect, header_nil, edges_joined. fold (node_ids w) (graph w).
    split; [naive_solver|].
    intros (? & ? & ? & ? & ? & ? & ? & ?). split_and!; done. }
  assert (well_formed w -> errors3 = []) as Hwf3.
  { intros [? ? ? ? ? ? ? ? ? _ _ _]. apply Herr. split_and!; done. }
  destruct (decide (errors3 = [])) as [H3|H3].
  2: { split; [|tauto]. destruct (Nat.eqb _ _); [|done]. by rewrite dag_nil; intros [? _]. }
  clear Hwf3. destruct (proj1 Herr H3) as (Hh & (Hn & Hi & Hd) & He & Hc & Hj & Hin & Hout & Ht).
  assert (ids = list_to_set (node_ids w)) as -> by (rewrite Hids by done; apply union_empty_l_L).
  rewrite size_list_to_set by done. unfold node_ids at 1. rewrite length_map, Nat.eqb_refl.
  rewrite dag_nil, known_edges_all.
  2: { intros u v Hs. rewrite !elem_of_list_to_set. by apply Hj. }
  setoid_rewrite elem_of_picked. setoid_rewrite elem_of_list_to_set.
  fold (graph w). split.
  - intros (_ & Hac & Hr). split; try done; intros n Hn'; apply Hr; by apply list_elem_of_fmap_2.
  - intros [_ _ _ _ _ _ _ _ _ Hac Hfrom Hto]. split_and!; try done.
    intros v (n & -> & Hn')%list_elem_of_fmap. split; [by apply Hfrom|by apply Hto].
Qed.

(** C24: the validator accepts a workflow exactly when it is well formed: the schema
    version, a known compiler model, a workflow name and identifier that are not blank
    and a version, distinct node names that are not blank and distinct edges, an input
    and an output, each node with its timeout and its own settings (tool, command,
    condition, items, at least two routes) as they must be, edges that join two
    different known nodes, every node left only through the ports of its kind (one edge
    per route of a router, one true and one false edge of a conditional, one item and
    one done edge of a loop, one approved and possibly one denied edge of a permission),
    no edge into an input and one into every other node, no cycle, and every node on a
    path from an input to an output. It does so under every hash order. *)
Theorem validate_accepts_exactly_well_formed (w : WorkflowIr.t) :
  validate w = Ok tt <-> well_formed w.
Proof. apply validate_iff. Qed.
End Validator.
