(* ===== verification/ToolSecurity.v ===== *)
(** * Which capability needs a person ([tool_security.rs])

    An MCP tool call or a system command is classified into a risk tier; the
    tiers above [FileRead] need human approval.  The theorems say what an
    automatic command can be, and that a server's own annotations never make a
    call automatic. *)
From S2P Require Import Prelude.
From S2P Require Import RustStr.
From S2P Require Import JsonValue.

Module CapabilityRiskTier.
Inductive t : Type := ReadOnly | FileRead | FileWrite | SystemExec | Network | Unknown.
Definition requires_human_approval (self : t) : bool :=
  match self with ReadOnly | FileRead => false | _ => true end.
Definition requires_sandbox (self : t) : bool :=
  match self with ReadOnly => false | _ => true end.
Definition as_str (self : t) : str :=
  match self with
  | ReadOnly => lit "READ_ONLY"
  | FileRead => lit "FILE_READ"
  | FileWrite => lit "FILE_WRITE"
  | SystemExec => lit "SYSTEM_EXEC"
  | Network => lit "NETWORK"
  | Unknown => lit "UNKNOWN"
  end.
End CapabilityRiskTier.

Module CapabilityClassification.
Record t : Type := mk { tier : CapabilityRiskTier.t; reason : str }.
Definition new (tier : CapabilityRiskTier.t) (reason : string) : t := mk tier (lit reason).
Definition requires_human_approval (self : t) : bool :=
  CapabilityRiskTier.requires_human_approval (tier self).
End CapabilityClassification.
Notation Classification := CapabilityClassification.t.
Notation classified := CapabilityClassification.new.

Module SandboxPolicy.
Record t : Type := mk { required : bool; network_enabled : bool; reason : str }.
End SandboxPolicy.

Definition sandbox_policy (self : Classification) : SandboxPolicy.t :=
  let required := CapabilityRiskTier.requires_sandbox (CapabilityClassification.tier self) in
  let reason := CapabilityClassification.reason self ++
    (if required then lit "; routed through local code sandbox"
     else lit "; native execution allowed") in
  SandboxPolicy.mk required false reason.

Module SystemActionClass.
Inductive t : Type := Shell | Python | Binary.
End SystemActionClass.

(** ** Words *)
Definition identifier_tokens (value : str) : list str :=
  map to_ascii_lowercase
    (List.filter not_empty (split_by (fun ch => negb (is_ascii_alphanumeric ch)) value)).
Definition normalize_identifier (value : str) : str := join (lit "_") (identifier_tokens value).
Definition has_any_token (tokens : list str) (candidates : list string) : bool :=
  existsb (fun token => in_list token candidates) tokens.

Definition is_quote (c : char) : bool := (c =? 34)%Z || (c =? 39)%Z.
(** [trim_matches] with the two quote characters. *)
Definition trim_command_quotes (value : str) : str :=
  trim_end_by is_quote (trim_start_by is_quote value).

(** [Path::file_name] of a path given as text: separators and [.] segments at
    the end do not count, [..] has no name. *)
Definition path_file_name (s : str) : option str :=
  match rev (List.filter (fun w => not_empty w && negb (equals w ".")) (split_char (ch "/") s)) with
  | [] => None
  | w :: _ => if equals w ".." then None else Some w
  end.
Definition command_basename (command : str) : str := default command (path_file_name command).

Definition contains_shell_control_syntax (value : str) : bool :=
  existsb (fun c => existsb (Z.eqb c)
    [ch "&"; ch "|"; ch ";"; ch "`"; 10; 13; 9; ch ">"; ch "<"; ch "$"]%Z) value.
Definition command_fragment_char_is_allowed (c : char) : bool :=
  is_ascii_alphanumeric c
  || existsb (Z.eqb c)
       [ch " "; ch "-"; ch "_"; ch "."; ch "/"; ch ":"; ch "="; ch ","; ch "@"; ch "%"; ch "+";
        ch "*"; ch "?"; 34; 39]%Z.
Definition command_fragment_is_safe (value : str) : bool :=
  negb (contains_shell_control_syntax value) && forallb command_fragment_char_is_allowed value.

Definition shell_command_parts (command : str) : option (str * list str) :=
  match split_whitespace command with
  | [] => None
  | binary :: parts => Some (command_basename (trim_command_quotes binary), parts)
  end.

Definition FILE_WRITE_TOKENS : list string :=
  ["apply"; "copy"; "create"; "delete"; "edit"; "move"; "patch"; "provision"; "remove"; "rename";
   "sync"; "update"; "upload"; "write"]%string.
Definition SYSTEM_EXEC_TOKENS : list string :=
  ["applescript"; "command"; "exec"; "execute"; "osascript"; "process"; "python"; "script";
   "shell"; "terminal"]%string.
Definition NETWORK_TOKENS : list string :=
  ["api"; "deploy"; "download"; "fetch"; "http"; "network"; "remote"; "request"; "rsync"; "scp";
   "ssh"; "terraform"; "url"; "web"]%string.
Definition FIND_SYSTEM_EXEC_PREDICATES : list string := ["exec"; "execdir"; "ok"; "okdir"]%string.
Definition FIND_FILE_WRITE_PREDICATES : list string :=
  ["delete"; "fls"; "fprint"; "fprint0"; "fprintf"; "write"]%string.
Definition FIND_READ_ONLY_PREDICATES : list string :=
  ["a"; "amin"; "and"; "anewer"; "atime"; "cmin"; "cnewer"; "ctime"; "daystart"; "depth"; "empty";
   "false"; "flags"; "follow"; "fstype"; "gid"; "group"; "ilname"; "iname"; "inum"; "ipath";
   "iregex"; "iwholename"; "links"; "lname"; "ls"; "maxdepth"; "mindepth"; "mmin"; "mount"; "mtime";
   "name"; "newer"; "newerxy"; "nogroup"; "not"; "nouser"; "o"; "or"; "path"; "perm"; "print";
   "print0"; "prune"; "readable"; "regex"; "samefile"; "size"; "true"; "type"; "uid"; "user";
   "wholename"; "xdev"; "xtype"]%string.
Definition FIND_MUTATING_PREDICATE_HINTS : list string :=
  ["append"; "create"; "delete"; "output"; "remove"; "save"; "truncate"; "unlink"; "write"]%string.

(** ** System commands *)
Definition classify_rg_command (args : list str) : Classification :=
  if existsb (fun arg => let arg := trim_command_quotes arg in
                equals arg "--pre" || begins "--pre=" arg) args
  then classified CapabilityRiskTier.SystemExec "ripgrep arguments can execute a preprocessing command"
  else classified CapabilityRiskTier.FileRead "ripgrep reads local filesystem state".

Definition find_predicate_key (arg : str) : option str :=
  let trimmed := trim_command_quotes arg in
  if negb (begins "-" trimmed) then None
  else Some (normalize_identifier (trim_start_by (Z.eqb (ch "-")) trimmed)).

Definition find_predicate_requires_file_write_fallback (key : str) : bool :=
  if in_list key FIND_SYSTEM_EXEC_PREDICATES || in_list key FIND_FILE_WRITE_PREDICATES
     || in_list key FIND_READ_ONLY_PREDICATES
  then false
  else if begins "f" key && negb (equals key "follow") then true
  else existsb (fun hint => contains_str (lit hint) key) FIND_MUTATING_PREDICATE_HINTS.

Definition classify_find_command (args : list str) : Classification :=
  let keys := omap find_predicate_key args in
  if existsb (fun key => in_list key FIND_SYSTEM_EXEC_PREDICATES) keys
  then classified CapabilityRiskTier.SystemExec
         "find command can execute local commands through its arguments"
  else if existsb (fun key => in_list key FIND_FILE_WRITE_PREDICATES) keys
  then classified CapabilityRiskTier.FileWrite
         "find command can modify or write local filesystem state through its arguments"
  else if existsb find_predicate_requires_file_write_fallback keys
  then classified CapabilityRiskTier.FileWrite
         "find command includes an unclassified predicate that may write local filesystem state"
  else classified CapabilityRiskTier.FileRead
         "find command arguments are limited to filesystem traversal or filtering".

Definition git_arg_writes_output (arg : str) : bool :=
  let arg := trim_command_quotes arg in equals arg "--output" || begins "--output=" arg.

Definition git_arg_can_execute_helper (arg : str) : bool :=
  let arg := trim_command_quotes arg in
  equals arg "-c"
  || (begins "-c" arg && (2 <? str_len arg)%Z)
  || equals arg "-p"
  || equals arg "--paginate"
  || equals arg "--config-env"
  || begins "--config-env=" arg
  || equals arg "--exec-path"
  || begins "--exec-path=" arg
  || equals arg "--ext-diff"
  || equals arg "--textconv"
  || equals arg "--open-files-in-pager"
  || begins "--open-files-in-pager=" arg
  || equals arg "-O"
  || (begins "-O" arg && (2 <? str_len arg)%Z)
  || equals arg "--help".

Definition git_global_arg_takes_value (arg : str) : bool :=
  in_list arg ["-C"; "-c"; "--git-dir"; "--work-tree"; "--namespace"; "--exec-path"; "--super-prefix"]%string.
Definition git_global_arg_contains_value (arg : str) : bool :=
  existsb (fun prefix => begins prefix arg)
    ["--git-dir="; "--work-tree="; "--namespace="; "--exec-path="; "--super-prefix="]%string.

(** The loop over the arguments: [index] is the position of the first of them. *)
Fixpoint git_subcommand_loop (index : nat) (skip_next : bool) (args : list str)
  : option (nat * str) :=
  match args with
  | [] => None
  | arg :: args =>
      let trimmed := trim_command_quotes arg in
      if skip_next then git_subcommand_loop (S index) false args
      else if git_global_arg_takes_value trimmed then git_subcommand_loop (S index) true args
      else if git_global_arg_contains_value trimmed then git_subcommand_loop (S index) false args
      else if begins "-" trimmed then git_subcommand_loop (S index) false args
      else Some (index, normalize_identifier trimmed)
  end.
Definition git_subcommand (args : list str) : option (nat * str) := git_subcommand_loop 0 false args.

Definition git_branch_arg_is_mutating (arg : str) : bool :=
  in_list (normalize_identifier (trim_start_by (Z.eqb (ch "-")) arg))
    ["d"; "delete"; "force_delete"; "m"; "move"; "force_move"; "c"; "copy"; "force_copy";
     "set_upstream_to"; "unset_upstream"; "edit_description"]%string
  || (negb (begins "--" arg) && begins "-" arg
      && existsb (fun c => (c =? ch "d")%Z || (c =? ch "D")%Z) arg).
Definition git_branch_read_only_arg_takes_value (arg : str) : bool :=
  in_list arg ["--contains"; "--no-contains"; "--points-at"; "--merged"; "--no-merged"; "--format";
               "--sort"; "--list"]%string.

Fixpoint git_branch_loop (skip_next_read_only_value : bool) (args : list str) : Classification :=
  match args with
  | [] => classified CapabilityRiskTier.ReadOnly "git branch read-only listing"
  | arg :: args =>
      let trimmed := trim_command_quotes arg in
      if skip_next_read_only_value then git_branch_loop false args
      else if git_branch_arg_is_mutating trimmed
      then classified CapabilityRiskTier.FileWrite
             "git branch arguments can delete or rewrite repository refs"
      else if git_branch_read_only_arg_takes_value trimmed then git_branch_loop true args
      else if begins "-" trimmed then git_branch_loop false args
      else classified CapabilityRiskTier.FileWrite
             "git branch can create repository refs when given a branch target"
  end.
Definition classify_git_branch_command (args : list str) (subcommand_index : nat) : Classification :=
  git_branch_loop false (drop (S subcommand_index) args).

Definition classify_git_remote_command (args : list str) (subcommand_index : nat) : Classification :=
  let action :=
    match List.find (fun arg => negb (begins "-" (trim_command_quotes arg))) (drop (S subcommand_index) args) with
    | Some arg => normalize_identifier (trim_command_quotes arg)
    | None => []
    end in
  if is_empty action then classified CapabilityRiskTier.ReadOnly "git remote listing"
  else if in_list action ["show"; "update"]%string
  then classified CapabilityRiskTier.Network "git remote action can access remote repositories"
  else if in_list action ["add"; "remove"; "rm"; "delete"; "rename"; "set_url"; "set_branches";
                          "set_head"; "prune"]%string
  then classified CapabilityRiskTier.FileWrite
         "git remote arguments can modify repository remote configuration or refs"
  else if in_list action ["get_url"]%string
  then classified CapabilityRiskTier.ReadOnly "git remote get-url reads repository remote configuration"
  else classified CapabilityRiskTier.FileWrite
         "git remote action is not explicitly classified as read-only".

Definition classify_git_command (args : list str) : Classification :=
  if existsb git_arg_writes_output args
  then classified CapabilityRiskTier.FileWrite "git arguments can write command output to a file"
  else if existsb git_arg_can_execute_helper args
  then classified CapabilityRiskTier.SystemExec
         "git arguments can execute a configured helper, pager, filter, or external command"
  else match git_subcommand args with
  | None => classified CapabilityRiskTier.FileWrite "git command has no explicit read-only subcommand"
  | Some (subcommand_index, subcommand) =>
      if in_list subcommand ["fetch"; "pull"; "push"; "clone"; "ls_remote"]%string
      then classified CapabilityRiskTier.Network "git subcommand can access remote repositories"
      else if equals subcommand "branch" then classify_git_branch_command args subcommand_index
      else if equals subcommand "remote" then classify_git_remote_command args subcommand_index
      else if in_list subcommand
                ["add"; "am"; "apply"; "bisect"; "checkout"; "cherry_pick"; "clean"; "commit"; "merge";
                 "mv"; "rebase"; "reset"; "restore"; "revert"; "rm"; "stash"; "switch"; "tag";
                 "write_tree"]%string
      then classified CapabilityRiskTier.FileWrite
             "git subcommand can modify the working tree or repository"
      else if in_list subcommand
                ["status"; "diff"; "log"; "show"; "rev_parse"; "ls_files"; "grep"]%string
      then classified CapabilityRiskTier.ReadOnly "git read-only subcommand"
      else classified CapabilityRiskTier.FileWrite
             "git subcommand is not explicitly classified as read-only"
  end.

Definition classify_binary_command (command : str) (args : list str) : Classification :=
  let binary := command_basename command in
  if is_empty (trim binary)
  then classified CapabilityRiskTier.SystemExec "System action command is empty"
  else if negb (command_fragment_is_safe command)
          || existsb (fun arg => negb (command_fragment_is_safe arg)) args
  then classified CapabilityRiskTier.SystemExec
         "System action contains shell control syntax or unsafe characters"
  else
    let binary_key := normalize_identifier binary in
    if in_list binary_key ["echo"; "pwd"; "whoami"; "date"; "uname"]%string
    then classified CapabilityRiskTier.ReadOnly "system command is a read-only diagnostic"
    else if in_list binary_key ["cat"; "head"; "tail"; "wc"; "ls"; "grep"]%string
    then classified CapabilityRiskTier.FileRead "system command reads local filesystem state"
    else if equals binary_key "rg" then classify_rg_command args
    else if equals binary_key "find" then classify_find_command args
    else if equals binary_key "git" then classify_git_command args
    else if in_list binary_key ["curl"; "wget"; "ssh"; "scp"; "rsync"]%string
    then classified CapabilityRiskTier.Network "system command can access remote network resources"
    else if in_list binary_key
              ["npm"; "npx"; "pnpm"; "yarn"; "cargo"; "python"; "python3"; "node"; "bash"; "sh"; "zsh";
               "osascript"; "open"]%string
    then classified CapabilityRiskTier.SystemExec
           "system command executes scripts, packages, or macOS system actions"
    else if in_list binary_key
              ["rm"; "rmdir"; "mv"; "cp"; "mkdir"; "touch"; "tee"; "chmod"; "chown"; "plutil";
               "defaults"]%string
    then classified CapabilityRiskTier.FileWrite
           "system command can modify local files or settings"
    else classified CapabilityRiskTier.SystemExec
           "system command is not explicitly classified as read-only".

Definition classify_system_action (action_type : SystemActionClass.t) (command : str) (args : list str)
  : Classification :=
  match action_type with
  | SystemActionClass.Python =>
      classified CapabilityRiskTier.SystemExec "Python system action executes local code"
  | SystemActionClass.Shell =>
      if contains_shell_control_syntax command
      then classified CapabilityRiskTier.SystemExec "Shell action contains control syntax"
      else match shell_command_parts command with
           | None => classified CapabilityRiskTier.SystemExec
                       "Shell action could not be parsed into a single command"
           | Some (binary, shell_args) => classify_binary_command binary shell_args
           end
  | SystemActionClass.Binary => classify_binary_command command args
  end.

(** ** MCP tools *)
Section Mcp.
Context {J : JsonLib}.

Definition annotation_bool (annotations : option Value) (key : string) : option bool :=
  match annotations with Some v => mbind as_bool (get (lit key) v) | None => None end.

Definition classify_mcp_tool_call (server_name tool_name : str) (annotations : option Value)
  : Classification :=
  let server_key := normalize_identifier server_name in
  let tool_key := normalize_identifier tool_name in
  let tokens := identifier_tokens tool_name in
  let filesystem := in_list server_key ["local_filesystem"; "filesystem"; "file_system"]%string in
  if filesystem && in_list tool_key ["list_directory"; "read_file"; "stat_file"; "search_files"]%string
  then classified CapabilityRiskTier.ReadOnly
         "filesystem MCP read-only tool is safe for automatic execution"
  else if filesystem && in_list tool_key
            ["write_file"; "delete_file"; "remove_file"; "move_file"; "copy_file"; "create_directory";
             "delete_directory"]%string
  then classified CapabilityRiskTier.FileWrite "filesystem MCP write tool"
  else if in_list server_key ["local_search"; "web_search"; "search"]%string
  then classified CapabilityRiskTier.Network
         "local search MCP tool performs outbound public web requests through an isolated profile"
  else if equals server_key "macos_applescript" && in_list tool_key
            ["read_apple_app_ui"; "read_system_calendar"; "read_system_contacts"; "read_system_emails";
             "read_system_music"; "read_system_notes"; "read_system_photos"; "read_system_reminders"]%string
  then classified CapabilityRiskTier.FileRead
         (if equals tool_key "read_system_photos"
          then "native PhotoKit tool reads bounded local photo metadata"
          else if equals tool_key "read_system_music"
          then "native MediaPlayer tool reads bounded local music library metadata"
          else "macOS AppleScript MCP tool reads bounded local personal data")
  else if equals server_key "macos_applescript" && equals tool_key "trigger_system_notification"
  then classified CapabilityRiskTier.FileWrite
         "native local notification changes visible system state"
  else if equals server_key "macos_applescript" && equals tool_key "preview_camera"
  then classified CapabilityRiskTier.SystemExec "native camera preview temporarily uses the Mac camera"
  else if equals server_key "macos_applescript" && in_list tool_key
            ["add_system_reminder"; "create_system_note"; "draft_system_email";
             "prepare_system_message"; "send_system_email"]%string
  then classified CapabilityRiskTier.FileWrite
         "macOS AppleScript MCP tool modifies local Apple app data"
  else if has_any_token tokens SYSTEM_EXEC_TOKENS
  then classified CapabilityRiskTier.SystemExec "MCP tool advertises process execution capability"
  else if has_any_token tokens FILE_WRITE_TOKENS
  then classified CapabilityRiskTier.FileWrite
         "MCP tool advertises modifying file or resource capability"
  else if has_any_token tokens NETWORK_TOKENS
  then classified CapabilityRiskTier.Network "MCP tool advertises network or remote capability"
  else if bool_decide (annotation_bool annotations "destructiveHint" = Some true)
  then classified CapabilityRiskTier.FileWrite "MCP tool annotations declare destructive behavior"
  else if bool_decide (annotation_bool annotations "openWorldHint" = Some true)
  then classified CapabilityRiskTier.Network "MCP tool annotations declare open-world access"
  else classified CapabilityRiskTier.Unknown "MCP tool capability is not explicitly classified".
End Mcp.

(** ** Identifiers ignore surrounding blanks *)
Lemma split_by_nonempty f s : exists w l, split_by f s = w :: l.
Proof.
  destruct s as [|c s]; simpl; [by eexists _, _|]. destruct (f c); [by eexists _, _|].
  destruct (split_by f s); by eexists _, _.
Qed.

Lemma split_by_cons f c s : f c = true -> split_by f (c :: s) = [] :: split_by f s.
Proof. simpl. by intros ->. Qed.

Lemma split_by_snoc f s c : f c = true -> split_by f (s ++ [c]) = split_by f s ++ [[]].
Proof.
  intros Hc. induction s as [|d s IH]; simpl; [by rewrite Hc|].
  rewrite IH. destruct (f d); [done|].
  by destruct (split_by_nonempty f s) as (w & l & ->).
Qed.

Lemma whitespace_not_alphanumeric c :
  is_whitespace c = true -> negb (is_ascii_alphanumeric c) = true.
Proof.
  unfold is_whitespace, is_ascii_alphanumeric, is_ascii_alphabetic, is_ascii_digit,
    is_ascii_lowercase, is_ascii_uppercase, in_range.
  rewrite negb_true_iff, !orb_false_iff, !andb_false_iff, !orb_true_iff, !andb_true_iff.
  rewrite ?Z.eqb_eq, ?Z.leb_le, ?Z.leb_gt. lia.
Qed.

Lemma identifier_tokens_trim s : identifier_tokens (trim s) = identifier_tokens s.
Proof.
  unfold identifier_tokens. f_equal. unfold trim, trim_end_by.
  set (f := fun c => negb (is_ascii_alphanumeric c)).
  assert (forall s, List.filter not_empty (split_by f (trim_start_by is_whitespace s)) =
                    List.filter not_empty (split_by f s)) as Hstart.
  { intros t. induction t as [|c t IH]; [done|]. cbn [trim_start_by].
    destruct (is_whitespace c) eqn:Hc; [|done].
    by rewrite IH, split_by_cons by (by apply whitespace_not_alphanumeric). }
  assert (forall t, List.filter not_empty (split_by f (rev (trim_start_by is_whitespace t))) =
                    List.filter not_empty (split_by f (rev t))) as Hend.
  { intros t. induction t as [|c t IH]; [done|]. cbn [trim_start_by rev].
    destruct (is_whitespace c) eqn:Hc; [|done].
    rewrite IH, split_by_snoc by (by apply whitespace_not_alphanumeric).
    by rewrite List.filter_app, app_nil_r. }
  unfold trim_start. by rewrite Hend, rev_involutive, Hstart.
Qed.

Lemma normalize_identifier_trim s : normalize_identifier (trim s) = normalize_identifier s.
Proof. unfold normalize_identifier. by rewrite identifier_tokens_trim. Qed.

(** ** What runs without a person *)
Lemma in_list_spec s names : in_list s names = true <-> s ∈ map lit names.
Proof.
  unfold in_list. rewrite existsb_exists. setoid_rewrite str_eqb_eq.
  rewrite list_elem_of_fmap. setoid_rewrite list_elem_of_In. naive_solver.
Qed.
Lemma equals_eq s name : equals s name = true <-> s = lit name.
Proof. apply str_eqb_eq. Qed.

Notation asks c := (CapabilityClassification.requires_human_approval c).

(** What runs on its own, by the key of its program and its words.  [git branch]
    lists when every word is an option that changes nothing, or the value of one. *)
Inductive lists_branches : list str -> Prop :=
  | lists_nothing : lists_branches []
  | lists_with_value word words :
      git_branch_arg_is_mutating (trim_command_quotes word) = false ->
      git_branch_read_only_arg_takes_value (trim_command_quotes word) = true ->
      lists_branches (tail words) -> lists_branches (word :: words)
  | lists_with_flag word words :
      git_branch_arg_is_mutating (trim_command_quotes word) = false ->
      git_branch_read_only_arg_takes_value (trim_command_quotes word) = false ->
      begins "-" (trim_command_quotes word) = true ->
      lists_branches words -> lists_branches (word :: words).
(** The first word of [git remote] that is no option. *)
Definition reads_remotes (words : list str) : Prop :=
  forall word, List.find (fun w => negb (begins "-" (trim_command_quotes w))) words = Some word ->
    normalize_identifier (trim_command_quotes word) ∈ [[]; lit "get_url"].
Definition harmless_predicate (key : str) : Prop :=
  key ∉ map lit FIND_SYSTEM_EXEC_PREDICATES /\ key ∉ map lit FIND_FILE_WRITE_PREDICATES /\
  (key ∈ map lit FIND_READ_ONLY_PREDICATES \/
   (begins "f" key = false /\
    forall hint, hint ∈ FIND_MUTATING_PREDICATE_HINTS -> contains_str (lit hint) key = false)).
Inductive automatic_program : str -> list str -> Prop :=
  | automatic_reader key words :
      key ∈ map lit ["echo"; "pwd"; "whoami"; "date"; "uname"; "cat"; "head"; "tail"; "wc"; "ls";
                     "grep"]%string ->
      automatic_program key words
  | automatic_rg words :
      (forall word, word ∈ words -> trim_command_quotes word <> lit "--pre" /\
         forall rest, trim_command_quotes word <> lit "--pre=" ++ rest) ->
      automatic_program (lit "rg") words
  | automatic_find words :
      (forall word key, word ∈ words -> find_predicate_key word = Some key -> harmless_predicate key) ->
      automatic_program (lit "find") words
  | automatic_git words i subcommand :
      (forall word, word ∈ words ->
         git_arg_writes_output word = false /\ git_arg_can_execute_helper word = false) ->
      git_subcommand words = Some (i, subcommand) ->
      (subcommand ∈ map lit ["status"; "diff"; "log"; "show"; "rev_parse"; "ls_files"; "grep"]%string \/
       subcommand = lit "branch" /\ lists_branches (drop (S i) words) \/
       subcommand = lit "remote" /\ reads_remotes (drop (S i) words)) ->
      automatic_program (lit "git") words.

Definition allowed_text (s : str) : Prop := Forall (fun c => command_fragment_char_is_allowed c = true) s.

Lemma allowed_no_control s : allowed_text s -> contains_shell_control_syntax s = false.
Proof.
  intros Hs. apply existsb_false. eapply list.Forall_impl; [exact Hs|]. intros c Hc.
  destruct (existsb _ _) eqn:He; [|done]. apply existsb_exists in He as (x & Hx & ->%Z.eqb_eq).
  simpl in Hx. repeat destruct Hx as [<-|Hx]; try discriminate Hc. done.
Qed.
Lemma fragment_is_safe s : command_fragment_is_safe s = true <-> allowed_text s.
Proof.
  unfold command_fragment_is_safe. rewrite andb_true_iff, negb_true_iff. rewrite forallb_forall.
  unfold allowed_text at 1. rewrite list.Forall_forall. setoid_rewrite list_elem_of_In.
  split; [by intros [_ ?]|]. intros H. split; [|done]. apply allowed_no_control, list.Forall_forall.
  setoid_rewrite list_elem_of_In. exact H.
Qed.
Lemma unsafe_words words :
  existsb (fun word => negb (command_fragment_is_safe word)) words = false <->
  forall word, word ∈ words -> allowed_text word.
Proof.
  rewrite existsb_false, list.Forall_forall. setoid_rewrite negb_false_iff.
  by setoid_rewrite fragment_is_safe.
Qed.
Lemma in_list_false s names : in_list s names = false <-> s ∉ map lit names.
Proof. rewrite <- in_list_spec. by destruct (in_list s names). Qed.
Lemma asks_if (b : bool) (x y : Classification) :
  asks x = true -> asks (if b then x else y) = false <-> b = false /\ asks y = false.
Proof. intros Hx. destruct b; [rewrite Hx|]; naive_solver. Qed.

Lemma rg_automatic words :
  asks (classify_rg_command words) = false <->
  forall word, word ∈ words -> trim_command_quotes word <> lit "--pre" /\
    forall rest, trim_command_quotes word <> lit "--pre=" ++ rest.
Proof.
  unfold classify_rg_command. rewrite asks_if by done.
  rewrite existsb_false, list.Forall_forall. cbv zeta. split.
  - intros [He _] word Hin. specialize (He word Hin). apply orb_false_iff in He as [Hp Hq]. split.
    + intros Heq. unfold equals in Hp. by rewrite Heq, str_eqb_refl in Hp.
    + intros rest Heq. unfold begins, starts_with in Hq. by rewrite Heq, strip_prefix_app in Hq.
  - intros He. split; [|done]. intros word Hin. destruct (He word Hin) as [Hp Hq].
    apply orb_false_iff. split; [by apply not_true_iff_false; rewrite equals_eq|].
    unfold begins, starts_with. destruct (strip_prefix _ _) as [rest|] eqn:Hs; [|done].
    apply strip_prefix_Some in Hs. by destruct (Hq rest).
Qed.

Lemma find_fallback key :
  key ∉ map lit FIND_SYSTEM_EXEC_PREDICATES -> key ∉ map lit FIND_FILE_WRITE_PREDICATES ->
  find_predicate_requires_file_write_fallback key = false <-> harmless_predicate key.
Proof.
  intros He Hw. unfold find_predicate_requires_file_write_fallback, harmless_predicate.
  rewrite (proj2 (in_list_false _ _) He), (proj2 (in_list_false _ _) Hw). cbn [orb].
  destruct (in_list key FIND_READ_ONLY_PREDICATES) eqn:Hr.
  { apply in_list_spec in Hr. naive_solver. }
  apply in_list_false in Hr. assert (equals key "follow" = false) as ->.
  { apply not_true_iff_false. rewrite equals_eq. intros ->. apply Hr. apply in_list_spec. by vm_compute. }
  rewrite andb_true_r. destruct (begins "f" key); [naive_solver|].
  rewrite existsb_false, list.Forall_forall. naive_solver.
Qed.
Lemma find_automatic words :
  asks (classify_find_command words) = false <->
  forall word key, word ∈ words -> find_predicate_key word = Some key -> harmless_predicate key.
Proof.
  unfold classify_find_command. cbv zeta. rewrite !asks_if by done.
  rewrite !existsb_false, !list.Forall_forall.
  assert (forall key, key ∈ omap find_predicate_key words <->
    exists word, word ∈ words /\ find_predicate_key word = Some key) as Hkeys by apply list_elem_of_omap.
  split.
  - intros (He & Hw & Hf & _) word key Hin Hk.
    assert (key ∈ omap find_predicate_key words) as Hkey by (apply Hkeys; eauto).
    apply find_fallback; [by apply in_list_false, He|by apply in_list_false, Hw|by apply Hf].
  - intros H. split_and!; [| | |done]; intros key (word & Hin & Hk)%Hkeys;
      destruct (H word key Hin Hk) as (He & Hw & Hr);
      [by apply in_list_false|by apply in_list_false|by apply find_fallback].
Qed.

Lemma branch_automatic words : forall skip,
  asks (git_branch_loop skip words) = false <->
  lists_branches (if skip then tail words else words).
Proof.
  induction words as [|word words IH]; intros skip.
  { split; [intros _|done]. destruct skip; constructor. }
  cbn [git_branch_loop]. cbv zeta. destruct skip; [apply (IH false)|].
  rewrite asks_if by done.
  destruct (git_branch_read_only_arg_takes_value _) eqn:Hv.
  { rewrite (IH true). split; [intros []; by constructor 2|].
    intros H. inversion H; subst; [done|congruence]. }
  destruct (begins "-" (trim_command_quotes word)) eqn:Hb.
  - rewrite (IH false). split; [intros []; by constructor 3|].
    intros H. inversion H; subst; [congruence|done].
  - split; [by intros []|]. intros H. inversion H; congruence.
Qed.
Lemma remote_automatic words i :
  asks (classify_git_remote_command words i) = false <-> reads_remotes (drop (S i) words).
Proof.
  unfold classify_git_remote_command, reads_remotes. cbv zeta.
  destruct (List.find _ _) as [word|]; [|by split].
  transitivity (normalize_identifier (trim_command_quotes word) ∈ [[]; lit "get_url"]);
    [|split; [by intros H w [= <-]|intros H; by apply H]].
  generalize (normalize_identifier (trim_command_quotes word)) as action. intros action.
  destruct (is_empty action) eqn:He.
  { destruct action; [|discriminate He]. split; [left|done]. }
  rewrite !asks_if by done.
  destruct (in_list action ["get_url"%string]) eqn:Hg.
  - apply in_list_spec, list_elem_of_singleton in Hg as ->. split; [right; left|].
    intros _. split_and!; by vm_compute.
  - apply in_list_false in Hg. split; [by intros (_ & _ & ?)|].
    intros [-> | [-> | []%elem_of_nil]%elem_of_cons]%elem_of_cons; [done|].
    destruct Hg. by left.
Qed.

Lemma git_automatic words :
  asks (classify_git_command words) = false <-> automatic_program (lit "git") words.
Proof.
  unfold classify_git_command. rewrite !asks_if, !existsb_false, !list.Forall_forall by done. split.
  - intros (Ho & Hh & Hs). destruct (git_subcommand words) as [[i sub]|] eqn:Hsub; [|done].
    apply (automatic_git _ i sub); [by split; auto|done|].
    rewrite asks_if in Hs by done. destruct Hs as [_ Hs].
    destruct (equals sub "branch") eqn:Hb.
    { apply equals_eq in Hb. right; left. split; [done|]. by apply (branch_automatic _ false). }
    destruct (equals sub "remote") eqn:Hr.
    { apply equals_eq in Hr. right; right. split; [done|]. by apply remote_automatic. }
    rewrite asks_if in Hs by done. destruct Hs as [_ Hs]. left. apply in_list_spec.
    by destruct (in_list sub ["status"; _; _; _; _; _; _]).
  - intros H. inversion H as [? ? Hk|? ?|? ?|? i sub Hw Hsub Hcase]; subst.
    { exfalso. apply in_list_spec in Hk. by vm_compute in Hk. }
    split; [by apply Hw|]. split; [by apply Hw|]. rewrite Hsub.
    destruct Hcase as [Hs|[[-> Hb]|[-> Hr]]].
    + apply in_list_spec in Hs. unfold in_list in Hs. cbn [existsb] in Hs.
      rewrite !orb_true_iff, !str_eqb_eq in Hs.
      by repeat destruct Hs as [->|Hs].
    + by apply (branch_automatic _ false).
    + by apply remote_automatic.
Qed.

(** The programs with a classifier of their own, and the rest. *)
Definition classify_key (key : str) (words : list str) : Classification :=
  if in_list key ["echo"; "pwd"; "whoami"; "date"; "uname"; "cat"; "head"; "tail"; "wc"; "ls"; "grep"]%string
  then classified CapabilityRiskTier.FileRead ""
  else if equals key "rg" then classify_rg_command words
  else if equals key "find" then classify_find_command words
  else if equals key "git" then classify_git_command words
  else classified CapabilityRiskTier.SystemExec "".
Lemma key_automatic key words :
  asks (classify_key key words) = false <-> automatic_program key words.
Proof.
  unfold classify_key. destruct (in_list key _) eqn:H1.
  { split; [intros _|done]. by apply automatic_reader, in_list_spec. }
  apply in_list_false in H1. destruct (equals key "rg") eqn:H2.
  { apply equals_eq in H2 as ->. rewrite rg_automatic. split; [apply automatic_rg|]. by inversion 1. }
  destruct (equals key "find") eqn:H3.
  { apply equals_eq in H3 as ->. rewrite find_automatic. split; [apply automatic_find|]. by inversion 1. }
  destruct (equals key "git") eqn:H4; [apply equals_eq in H4 as ->; apply git_automatic|].
  split; [done|]. inversion 1; subst; done.
Qed.
Lemma binary_key command words :
  is_empty (trim (command_basename command)) = false ->
  command_fragment_is_safe command = true ->
  existsb (fun word => negb (command_fragment_is_safe word)) words = false ->
  asks (classify_binary_command command words) =
  asks (classify_key (normalize_identifier (command_basename command)) words).
Proof.
  intros He Hc Hw. unfold classify_binary_command, classify_key. cbv zeta. rewrite He, Hc, Hw. cbn [negb orb].
  generalize (normalize_identifier (command_basename command)) as key. intros key.
  change (in_list key ["echo"; "pwd"; "whoami"; "date"; "uname"; "cat"; "head"; "tail"; "wc"; "ls"; "grep"]%string)
    with (in_list key (["echo"; "pwd"; "whoami"; "date"; "uname"]%string ++ ["cat"; "head"; "tail"; "wc"; "ls"; "grep"]%string)).
  replace (in_list key (_ ++ _)) with
    (in_list key ["echo"; "pwd"; "whoami"; "date"; "uname"]%string
     || in_list key ["cat"; "head"; "tail"; "wc"; "ls"; "grep"]%string) by (symmetry; apply existsb_app).
  destruct (in_list key ["echo"; _; _; _; _]%string); [done|]. destruct (in_list key ["cat"; _; _; _; _; _]%string); [done|].
  cbn [orb]. repeat (destruct (equals key _); [done|]). by repeat (destruct (in_list key _); [done|]).
Qed.
Lemma binary_automatic command words :
  asks (classify_binary_command command words) = false <->
  allowed_text command /\ (forall word, word ∈ words -> allowed_text word) /\
  automatic_program (normalize_identifier (command_basename command)) words.
Proof.
  split.
  - intros Ha. destruct (is_empty (trim (command_basename command))) eqn:He.
    { unfold classify_binary_command in Ha. cbv zeta in Ha. by rewrite He in Ha. }
    destruct (negb (command_fragment_is_safe command)
      || existsb (fun word => negb (command_fragment_is_safe word)) words) eqn:Hs.
    { unfold classify_binary_command in Ha. cbv zeta in Ha. by rewrite He, Hs in Ha. }
    apply orb_false_iff in Hs as [Hc%negb_false_iff Hw]. rewrite binary_key in Ha by done.
    split_and!; [by apply fragment_is_safe|by apply unsafe_words|by apply key_automatic].
  - intros (Hc & Hw & Ha). rewrite binary_key;
      [by apply key_automatic| |by apply fragment_is_safe|by apply unsafe_words].
    destruct (trim (command_basename command)) as [|c s] eqn:Ht; [exfalso|done].
    rewrite <- normalize_identifier_trim, Ht in Ha. change (normalize_identifier []) with ([] : str) in Ha.
    inversion Ha as [? ? Hk| | |]. apply in_list_spec in Hk. by vm_compute in Hk.
Qed.


(** Quotes inside a word: the classifier keeps them, a shell does not. *)
Example inner_quotes_hide_a_predicate :
  let split_word := lit "-del" ++ [34; 34]%Z ++ lit "ete" in
  asks (classify_system_action SystemActionClass.Shell (lit "find . -delete") []) = true /\
  asks (classify_system_action SystemActionClass.Shell (lit "find . " ++ split_word) []) = false.
Proof. split; by vm_compute. Qed.

(** A shell reads [X=/ls] as an assignment and runs the next word; the classifier
    reads it as a path whose last segment is [ls]. *)
Lemma split_ws_aux_chars (P : char -> Prop) s cur w :
  Forall P s -> Forall P cur -> w ∈ split_ws_aux s cur -> Forall P w.
Proof.
  revert cur. induction s as [|c s IH]; intros cur Hs Hcur; simpl.
  - destruct (is_empty cur); [by intros ?%elem_of_nil|].
    intros ->%list_elem_of_singleton. by apply Forall_rev.
  - apply Forall_cons_iff in Hs as [Hc Hs]. destruct (is_whitespace c).
    + intros [Hw|Hw]%elem_of_app.
      * destruct (is_empty cur); [by apply elem_of_nil in Hw|].
        apply list_elem_of_singleton in Hw as ->. by apply Forall_rev.
      * by apply (IH []).
    + apply IH; [done|by constructor].
Qed.

Lemma contains_shell_control_app s t :
  contains_shell_control_syntax (s ++ t) = contains_shell_control_syntax s || contains_shell_control_syntax t.
Proof. apply existsb_app. Qed.

(** A shell command that begins with an assignment such as [X=/ls] runs whatever
    program follows without asking, as long as the rest is written in the allowed
    characters: the classifier takes the assignment for the program. *)
Theorem assignment_hides_the_program rest :
  command_fragment_is_safe rest = true ->
  asks (classify_system_action SystemActionClass.Shell (lit "X=/ls " ++ rest) []) = false.
Proof.
  intros Htext%fragment_is_safe. pose proof (allowed_no_control _ Htext) as Hctl.
  unfold classify_system_action.
  rewrite contains_shell_control_app, Hctl. change (contains_shell_control_syntax (lit "X=/ls ")) with false.
  cbn [orb]. unfold shell_command_parts.
  change (lit "X=/ls " ++ rest) with (lit "X=/ls" ++ 32%Z :: rest).
  rewrite split_whitespace_cons; [|done|by repeat constructor].
  change (command_basename (trim_command_quotes (lit "X=/ls"))) with (lit "ls").
  unfold classify_binary_command. cbv zeta.
  change (command_basename (lit "ls")) with (lit "ls").
  change (is_empty (trim (lit "ls"))) with false. cbv iota.
  change (command_fragment_is_safe (lit "ls")) with true. cbn [negb orb].
  assert (existsb (fun arg => negb (command_fragment_is_safe arg)) (split_whitespace rest) = false) as ->.
  { apply unsafe_words. intros w Hw. unfold split_whitespace in Hw.
    eapply split_ws_aux_chars; [exact Htext|constructor|exact Hw]. }
  by vm_compute.
Qed.

Lemma assignment_hides_the_program_witness :
  command_fragment_is_safe (lit "rm -rf notes") = true /\
  asks (classify_system_action SystemActionClass.Shell (lit "rm -rf notes") []) = true /\
  asks (classify_system_action SystemActionClass.Shell (lit "X=/ls " ++ lit "rm -rf notes") []) = false.
Proof.
  split_and!; [by vm_compute..|]. apply (assignment_hides_the_program (lit "rm -rf notes")). by vm_compute.
Defined.

Section McpTheorems.
Context {J : JsonLib}.

Lemma annotations_irrelevant server_name tool_name annotations :
  asks (classify_mcp_tool_call server_name tool_name annotations) =
  asks (classify_mcp_tool_call server_name tool_name None).
Proof.
  unfold classify_mcp_tool_call. cbv zeta.
  repeat (destruct (_ && _); [done|]). destruct (in_list _ _); [done|].
  repeat (destruct (_ && _); [done|]). repeat (destruct (has_any_token _ _); [done|]).
  destruct (bool_decide _); [done|]. by destruct (bool_decide _).
Qed.

(** Whether a call of an MCP tool needs a person does not depend on the annotations
    its server provides: a hint can neither waive nor cause the question. *)
Theorem annotations_never_waive_approval server_name tool_name annotations :
  asks (classify_mcp_tool_call server_name tool_name annotations) =
  asks (classify_mcp_tool_call server_name tool_name None).
Proof. apply annotations_irrelevant. Qed.
End McpTheorems.
