(* ===== verification/WorkflowReview.v ===== *)
(** * The review of a workflow ([workflow_ir/review.rs])

    Before a Routine may run unattended its workflow is reviewed: every MCP tool
    must be on a closed list, and the tools with an effect on other people
    (calendar events, mail) must sit directly behind a permission node whose
    denial leads elsewhere.  [node_reaches] decides reachability in the graph. *)
From stdpp Require Import relations.
From S2P Require Import Prelude.
From S2P Require Import RustStr.
From S2P Require Import JsonValue.
From S2P Require Import Graph.
From S2P Require Import WorkflowIr.
From S2P Require Import WorkflowIrTheorems.
From S2P Require Import ToolSecurity.

Module WorkflowReviewCapabilities.
Record t : Type := mk {
  status : str;
  calendar_create : bool;
  calendar_read : bool;
  email_draft : bool;
  email_read : bool;
  email_send : bool;
  official_web : bool;
  project_file_read : bool;
  project_file_write : bool;
}.
Definition ready : t := mk (lit "ready") false false false false false false false false.
Definition unavailable : t := mk (lit "unavailable") false false false false false false false false.

Definition with_calendar_create (c : t) : t :=
  mk (status c) true (calendar_read c) (email_draft c) (email_read c) (email_send c)
    (official_web c) (project_file_read c) (project_file_write c).
Definition with_calendar_read (c : t) : t :=
  mk (status c) (calendar_create c) true (email_draft c) (email_read c) (email_send c)
    (official_web c) (project_file_read c) (project_file_write c).
Definition with_email_draft (c : t) : t :=
  mk (status c) (calendar_create c) (calendar_read c) true (email_read c) (email_send c)
    (official_web c) (project_file_read c) (project_file_write c).
Definition with_email_read (c : t) : t :=
  mk (status c) (calendar_create c) (calendar_read c) (email_draft c) true (email_send c)
    (official_web c) (project_file_read c) (project_file_write c).
Definition with_email_send (c : t) : t :=
  mk (status c) (calendar_create c) (calendar_read c) (email_draft c) (email_read c) true
    (official_web c) (project_file_read c) (project_file_write c).
Definition with_official_web (c : t) : t :=
  mk (status c) (calendar_create c) (calendar_read c) (email_draft c) (email_read c) (email_send c)
    true (project_file_read c) (project_file_write c).
Definition with_project_file_read (c : t) : t :=
  mk (status c) (calendar_create c) (calendar_read c) (email_draft c) (email_read c) (email_send c)
    (official_web c) true (project_file_write c).
Definition with_project_file_write (c : t) : t :=
  mk (status c) (calendar_create c) (calendar_read c) (email_draft c) (email_read c) (email_send c)
    (official_web c) (project_file_read c) true.
End WorkflowReviewCapabilities.
Notation Capabilities := WorkflowReviewCapabilities.t.

Module ReviewedAction.
Inductive t : Type :=
| ProjectFileRead | ProjectDirectoryRead | VerifiedDocumentWrite | OfficialPageRead
| DeterministicAnalysis | NativePersonalDataRead.
End ReviewedAction.

Module ToolPolicy.
Record t : Type := mk {
  action : ReviewedAction.t;
  path_keys : list str;
  extensions : list str;
}.
End ToolPolicy.

Definition reviewed_effect_requires_explicit_approval (server tool : str) : bool :=
  (equals (trim server) "oomu_task_tools"
   && in_list (trim tool) ["create_conflict_free_calendar_event"; "send_system_email"])
  || (equals (trim server) "macos_applescript" && equals (trim tool) "draft_system_email").

Definition effect_requires_denial_branch (server tool : str) : bool :=
  equals (trim server) "oomu_task_tools"
  && in_list (trim tool) ["create_conflict_free_calendar_event"; "send_system_email"].

Definition reviewed_tool_policy (server tool : str) : option ToolPolicy.t :=
  let server := trim server in
  let tool := trim tool in
  let policy action keys exts := Some (ToolPolicy.mk action (map lit keys) (map lit exts)) in
  if equals server "local_filesystem" then
    if equals tool "read_file" then policy ReviewedAction.ProjectFileRead ["/path"] []
    else if equals tool "list_directory" then policy ReviewedAction.ProjectDirectoryRead ["/path"] []
    else if equals tool "write_file" then policy ReviewedAction.VerifiedDocumentWrite ["/path"] ["md"]
    else None
  else if equals server "taskflow_native" then
    if equals tool "folder_read" then
      policy ReviewedAction.ProjectDirectoryRead ["/folderPath"; "/folder_path"; "/path"] []
    else if equals tool "preview_report" then
      policy ReviewedAction.ProjectFileRead ["/reportPath"; "/report_path"; "/path"] ["md"]
    else if equals tool "write_markdown_report" then
      policy ReviewedAction.VerifiedDocumentWrite ["/reportPath"; "/report_path"; "/path"] ["md"]
    else None
  else if equals server "oomu_task_tools" then
    if equals tool "create_file" then
      policy ReviewedAction.VerifiedDocumentWrite ["/file/destinationPath"] ["md"; "pdf"]
    else if equals tool "read_project_file" then policy ReviewedAction.ProjectFileRead ["/path"] []
    else if equals tool "fetch_official_page" then policy ReviewedAction.OfficialPageRead [] []
    else if in_list tool ["analyze_supplier_exceptions"; "analyze_project_milestones";
                         "compose_evidence_report"; "validate_evidence_report"]
    then policy ReviewedAction.DeterministicAnalysis [] []
    else None
  else if equals server "macos_applescript" then
    if in_list tool ["read_system_emails"; "read_system_calendar"]
    then policy ReviewedAction.NativePersonalDataRead [] []
    else None
  else None.

Section Review.
Context {J : JsonLib}.

(** The edges out of one node of the search: [None] when one reaches the target,
    else the stack with the others pushed (its top first). *)
Fixpoint push_targets (edges : list WorkflowEdge.t) (target : str) (pending : list str)
  : option (list str) :=
  match edges with
  | [] => Some pending
  | edge :: edges =>
      if str_eqb (WorkflowEdge.target_node_id edge) target then None
      else push_targets edges target (WorkflowEdge.target_node_id edge :: pending)
  end.

Fixpoint node_reaches_loop (fuel : nat) (edges : list WorkflowEdge.t) (target : str)
    (seen : gset str) (pending : list str) : bool :=
  match fuel, pending with
  | S fuel, node_id :: pending =>
      if decide (node_id ∈ seen) then node_reaches_loop fuel edges target seen pending
      else match push_targets (out_edges edges node_id) target pending with
           | None => true
           | Some pending => node_reaches_loop fuel edges target ({[node_id]} ∪ seen) pending
           end
  | _, _ => false
  end.

Definition node_reaches (ir : WorkflowIr.t) (start target : str) : bool :=
  if str_eqb start target then true
  else node_reaches_loop (S (S (length (WorkflowIr.edges ir)))) (WorkflowIr.edges ir) target ∅ [start].

(** The permission node with that id that grants MCP tools, if its denial
    branches where that is required. *)
Definition exact_permission (require_denial_branch : bool) (id : str) (node : WorkflowNode.t)
  : option PermissionNode.t :=
  match node with
  | WorkflowNode.Permission permission =>
      if str_eqb (PermissionNode.id permission) id
         && match PermissionNode.permission permission with
            | PermissionKind.McpTool => true | _ => false end
         && (negb require_denial_branch
             || match PermissionNode.on_denied permission with
                | PermissionDeniedBehavior.Branch => true
                | PermissionDeniedBehavior.Fail => false
                end)
      then Some permission else None
  | _ => None
  end.

Definition directly_guarded_by_exact_permission (ir : WorkflowIr.t) (effect_id : str)
    (require_denial_branch : bool) : bool :=
  let edges := WorkflowIr.edges ir in
  let incoming :=
    List.filter (fun edge => str_eqb (WorkflowEdge.target_node_id edge) effect_id
                             && equals (WorkflowEdge.source_port edge) "approved") edges in
  match incoming with
  | [approved_edge] =>
      match find_map (exact_permission require_denial_branch (WorkflowEdge.source_node_id approved_edge))
              (WorkflowIr.nodes ir) with
      | None => false
      | Some permission =>
          let from port :=
            List.filter (fun edge => str_eqb (WorkflowEdge.source_node_id edge) (PermissionNode.id permission)
                                     && equals (WorkflowEdge.source_port edge) port) edges in
          match from "approved"%string with
          | [approved] =>
              if negb (str_eqb (WorkflowEdge.target_node_id approved) effect_id) then false
              else match PermissionNode.on_denied permission with
                   | PermissionDeniedBehavior.Fail => negb require_denial_branch
                   | PermissionDeniedBehavior.Branch =>
                       match from "denied"%string with
                       | [denied] =>
                           existsb (fun node => is_output node
                                     && node_reaches ir (WorkflowEdge.target_node_id denied) (WorkflowNode.id node))
                             (WorkflowIr.nodes ir)
                           && negb (node_reaches ir (WorkflowEdge.target_node_id denied) effect_id)
                       | _ => false
                       end
                   end
          | _ => false
          end
      end
  | _ => false
  end.

(** One MCP tool node: [None] is the early return of [unavailable]. *)
Definition review_tool (ir : WorkflowIr.t) (node : McpToolNode.t) (capabilities : Capabilities)
  : option Capabilities :=
  let server := McpToolNode.server_name node in
  let tool := McpToolNode.tool_name node in
  if reviewed_effect_requires_explicit_approval server tool then
    if negb (directly_guarded_by_exact_permission ir (McpToolNode.id node)
               (effect_requires_denial_branch server tool))
    then None
    else if equals server "oomu_task_tools" && equals tool "create_conflict_free_calendar_event"
    then Some (WorkflowReviewCapabilities.with_calendar_create capabilities)
    else if equals server "oomu_task_tools" && equals tool "send_system_email"
    then Some (WorkflowReviewCapabilities.with_email_send capabilities)
    else if equals server "macos_applescript" && equals tool "draft_system_email"
    then Some (WorkflowReviewCapabilities.with_email_draft capabilities)
    else None
  else
    match reviewed_tool_policy server tool with
    | None => None
    | Some policy =>
        match ToolPolicy.action policy with
        | ReviewedAction.ProjectFileRead | ReviewedAction.ProjectDirectoryRead =>
            Some (WorkflowReviewCapabilities.with_project_file_read capabilities)
        | ReviewedAction.VerifiedDocumentWrite =>
            if equals server "oomu_task_tools" && equals tool "create_file"
               && negb (match pointer ["file"; "format"]%string (McpToolNode.arguments node) ≫= as_str with
                        | Some format => in_list format ["md"; "pdf"]
                        | None => false
                        end)
            then None
            else Some (WorkflowReviewCapabilities.with_project_file_write capabilities)
        | ReviewedAction.OfficialPageRead =>
            Some (WorkflowReviewCapabilities.with_official_web capabilities)
        | ReviewedAction.DeterministicAnalysis => Some capabilities
        | ReviewedAction.NativePersonalDataRead =>
            if equals tool "read_system_calendar"
            then Some (WorkflowReviewCapabilities.with_calendar_read capabilities)
            else if equals tool "read_system_emails"
            then Some (WorkflowReviewCapabilities.with_email_read capabilities)
            else None
        end
    end.

Fixpoint review_nodes (ir : WorkflowIr.t) (nodes : list WorkflowNode.t) (capabilities : Capabilities)
  : Capabilities :=
  match nodes with
  | [] => capabilities
  | WorkflowNode.McpTool node :: nodes =>
      match review_tool ir node capabilities with
      | Some capabilities => review_nodes ir nodes capabilities
      | None => WorkflowReviewCapabilities.unavailable
      end
  | _ :: nodes => review_nodes ir nodes capabilities
  end.

Definition workflow_review_capabilities (ir : WorkflowIr.t) : Capabilities :=
  review_nodes ir (WorkflowIr.nodes ir) WorkflowReviewCapabilities.ready.

(** ** Reviewed effects always ask *)
Lemma reviewed_effect_cases server tool :
  reviewed_effect_requires_explicit_approval server tool = true ->
  (trim server = lit "oomu_task_tools" /\ trim tool = lit "create_conflict_free_calendar_event") \/
  (trim server = lit "oomu_task_tools" /\ trim tool = lit "send_system_email") \/
  (trim server = lit "macos_applescript" /\ trim tool = lit "draft_system_email").
Proof.
  unfold reviewed_effect_requires_explicit_approval, in_list. cbn [existsb].
  rewrite !orb_true_iff, !andb_true_iff, !equals_eq, !orb_true_iff, !str_eqb_eq.
  intuition discriminate.
Qed.

Lemma classify_mcp_tool_call_trim server tool annotations :
  classify_mcp_tool_call server tool annotations =
  classify_mcp_tool_call (trim server) (trim tool) annotations.
Proof. unfold classify_mcp_tool_call. by rewrite !normalize_identifier_trim, identifier_tokens_trim. Qed.

(** C37: a tool on the list of reviewed effects (creating a calendar event, sending or
    drafting mail) always needs a person, however its server spells the names'
    surrounding blanks and whatever it annotates. *)
Theorem reviewed_effects_always_ask server tool annotations :
  reviewed_effect_requires_explicit_approval server tool = true ->
  asks (classify_mcp_tool_call server tool annotations) = true.
Proof.
  intros He. rewrite annotations_irrelevant, classify_mcp_tool_call_trim.
  by destruct (reviewed_effect_cases server tool He) as [[-> ->]|[[-> ->]|[-> ->]]]; vm_compute.
Qed.

(** ** The search decides reachability *)
Lemma push_targets_list l target pending (targets := map WorkflowEdge.target_node_id l) :
  match push_targets l target pending with
  | None => target ∈ targets
  | Some pending' =>
      target ∉ targets /\ length pending' = (length pending + length l)%nat /\
      forall v, v ∈ pending' <-> v ∈ pending \/ v ∈ targets
  end.
Proof.
  subst targets. revert pending.
  induction l as [|e l IH]; intros pending; cbn [push_targets map].
  - split_and!; [apply not_elem_of_nil|simpl; lia|]. intros v. rewrite elem_of_nil. tauto.
  - destruct (str_eqb _ target) eqn:Ht.
    + apply str_eqb_eq in Ht as <-. left.
    + assert (target <> WorkflowEdge.target_node_id e) as Hne
        by (intros Heq; by rewrite <- Heq, str_eqb_refl in Ht).
      specialize (IH (WorkflowEdge.target_node_id e :: pending)).
      destruct (push_targets l target _) as [pending'|]; [|by right].
      destruct IH as (Hn & Hlen & IH). rewrite not_elem_of_cons. split_and!; try done.
      * rewrite Hlen. simpl. lia.
      * intros v. rewrite IH, !elem_of_cons. tauto.
Qed.

Lemma push_targets_spec es u target pending :
  match push_targets (out_edges es u) target pending with
  | None => step (arrows es) u target
  | Some pending' =>
      ~ step (arrows es) u target /\
      length pending' = (length pending + length (succs (arrows es) u))%nat /\
      forall v, v ∈ pending' <-> v ∈ pending \/ step (arrows es) u v
  end.
Proof.
  assert (forall v, step (arrows es) u v <-> v ∈ map WorkflowEdge.target_node_id (out_edges es u)) as Hstep.
  { intros v. by rewrite <- elem_of_succs, succs_arrows. }
  pose proof (push_targets_list (out_edges es u) target pending) as Hl.
  destruct (push_targets _ target pending) as [pending'|]; [|by apply Hstep].
  rewrite succs_arrows, length_map. setoid_rewrite Hstep. apply Hl.
Qed.

Lemma node_reaches_loop_spec fuel es target start seen pending :
  searching (arrows es) anywhere [start] seen pending ->
  target ∉ seen -> target ∉ pending -> (work (arrows es) seen pending < fuel)%nat ->
  node_reaches_loop fuel es target seen pending = true <-> rtc (step (arrows es)) start target.
Proof.
  assert (reached (arrows es) anywhere [start] target <-> rtc (step (arrows es)) start target) as Hreach.
  { unfold reached, kept_step. split.
    - intros (s & ->%list_elem_of_singleton & _ & Hr).
      by eapply rtc_subrel; [|exact Hr]; intros ? ? [? _].
    - intros Hr. exists start. split_and!; [left|done|].
      by eapply rtc_subrel; [|exact Hr]; intros ? ? ?; split. }
  rewrite <- Hreach. clear Hreach. revert seen pending.
  induction fuel as [|fuel IH]; intros seen pending Hs Ht Hp Hw; [lia|].
  destruct pending as [|u pending]; cbn [node_reaches_loop].
  { rewrite <- (searching_done _ _ _ _ _ Hs). naive_solver. }
  apply not_elem_of_cons in Hp as [Hu Hp].
  destruct (decide (u ∈ seen)) as [Hin|Hin].
  - apply IH; try done; [|unfold work in *; simpl in Hw; lia].
    apply (searching_skip _ _ _ _ (u :: pending) _ u Hs); [|by left].
    intros v. apply elem_of_cons.
  - pose proof (push_targets_spec es u target pending) as Hpush.
    destruct (push_targets _ target pending) as [pending'|] eqn:Hpushed.
    + destruct Hpush as (Hno & Hlen & Hpush). apply IH.
      * apply (searching_visit _ _ _ _ (u :: pending) _ u Hs); try done.
        -- left.
        -- intros v [->|Hv]%elem_of_cons; [by left|right]. apply Hpush. by left.
        -- intros v [Hv|Hv]%Hpush; [left; by right|right; by apply elem_of_succs].
        -- intros v [Hv _]. apply Hpush. by right.
      * intros [Heq%elem_of_singleton|?]%elem_of_union; [by destruct Hu|done].
      * by intros [?|?]%Hpush.
      * pose proof (work_visit (arrows es) seen u Hin). unfold work in *. simpl in Hw.
        lia.
    + split; [intros _|done].
      destruct (se_pending _ _ _ _ _ Hs u (list_elem_of_here _ _) I) as (s & Hss & _ & Hr).
      exists s. split_and!; [done|done|]. by eapply rtc_r; [exact Hr|].
Qed.

(** The search of the review decides reachability: [node_reaches] answers yes
    exactly when a path of edges leads from one node to the other. *)
Theorem node_reaches_decides (ir : WorkflowIr.t) (start target : str) :
  node_reaches ir start target = true <-> rtc (step (graph ir)) start target.
Proof.
  unfold node_reaches, graph. destruct (str_eqb start target) eqn:Heq.
  { apply str_eqb_eq in Heq as ->. split; [intros _; apply rtc_refl|done]. }
  assert (start <> target) as Hne by (intros ->; by rewrite str_eqb_refl in Heq).
  apply node_reaches_loop_spec.
  - apply searching_start.
  - apply not_elem_of_empty.
  - by intros ->%list_elem_of_singleton.
  - rewrite work_start. unfold arrows. rewrite length_map. simpl. lia.
Qed.
End Review.

Lemma reviewed_effects_always_ask_witness :
  reviewed_effect_requires_explicit_approval (lit " oomu_task_tools") (lit "send_system_email ") = true /\
  asks (@classify_mcp_tool_call IntegerJson.lib (lit " oomu_task_tools") (lit "send_system_email ") None) = true.
Proof.
  split; [by vm_compute|]. apply (reviewed_effects_always_ask (J := IntegerJson.lib)). by vm_compute.
Defined.
