(* ===== verification/Program.v ===== *)
(** * Programs that share a database

    A function of the engine that talks to the database, the clock or a tool is
    a [prog]: a tree whose nodes are the points where something outside the
    function decides what comes next.  One SQL statement, or one transaction, is
    one node, so whatever else is running may come in between two statements.

    [io E A] is the type of a function returning [Result<A, E>].  [solo] runs a
    program alone, every statement succeeding.  [system] holds any number of
    threads over one database and steps them in any order; a statement may fail,
    a thread may disappear at any moment (a crash), and the rest of the
    application may change the tables that a frame condition leaves to it.
    [protocol] is the proof rule for such a system, [learns] its form for threads that
    only learn; [stays] is the rule for what lasts; [drive] plays a run. *)
From S2P Require Import Prelude.
From S2P Require Import RustStr.

Section Programs.
Context {Db Req Ans : Type}.

Inductive prog (A : Type) : Type :=
  | Ret (a : A)
  | Sql {X : Type} (q : Db -> res str X * Db) (k : res str X -> prog A)
  | Clock (k : Z -> prog A)
  | Entropy (k : list Z -> prog A)
  | Start (r : Req) (p : prog A)
  | Await (r : Req) (k : Ans -> prog A).
Arguments Ret {A} a.
Arguments Sql {A X} q k.
Arguments Clock {A} k.
Arguments Entropy {A} k.
Arguments Start {A} r p.
Arguments Await {A} r k.

Fixpoint bind {A B} (f : A -> prog B) (p : prog A) : prog B :=
  match p with
  | Ret a => f a
  | Sql q k => Sql q (fun r => bind f (k r))
  | Clock k => Clock (fun n => bind f (k n))
  | Entropy k => Entropy (fun b => bind f (k b))
  | Start r p => Start r (bind f p)
  | Await r k => Await r (fun a => bind f (k a))
  end.

#[export] Instance prog_ret : MRet prog := @Ret.
#[export] Instance prog_bind : MBind prog := @bind.

(** A function returning [Result<A, E>]. *)
Definition io (E A : Type) : Type := prog (res E A).
#[export] Instance io_ret E : MRet (io E) := fun A a => Ret (Ok a).
#[export] Instance io_bind E : MBind (io E) := fun A B f p =>
  bind (fun r => match r with
                 | Ok a => f a
                 | Err e => Ret (Err e)
                 | Panic => Ret Panic
                 end) p.

Definition lift {E A} (r : res E A) : io E A := Ret r.
Definition throw {E A} (e : E) : io E A := Ret (Err e).
(** One statement or transaction; a failure is the text of its error. *)
Definition sql {X} (q : Db -> res str X * Db) : io str X := Sql q Ret.
Definition io_map_err {E E' A} (f : E -> E') (p : io E A) : io E' A :=
  bind (fun r => Ret (map_err f r)) p.
(** [match p { Ok .. , Err .. }] without leaving the function. *)
Definition attempt {E E' A} (p : io E A) : io E' (res E A) := bind (fun r => Ret (Ok r)) p.
Definition unix_time_ms_i64 {E} : io E Z := Clock (fun n => Ret (Ok n)).
Definition random_bytes {E} : io E (list Z) := Entropy (fun b => Ret (Ok b)).

Fixpoint io_for_each {E A} (f : A -> io E unit) (l : list A) : io E unit :=
  match l with
  | [] => mret tt
  | x :: l' => mbind (fun _ => io_for_each f l') (f x)
  end.
Fixpoint io_for_fold {E A S} (f : S -> A -> io E S) (s : S) (l : list A) : io E S :=
  match l with
  | [] => mret s
  | x :: l' => mbind (fun s' => io_for_fold f s' l') (f s x)
  end.

(** ** Running one program alone *)
Inductive note : Type :=
  | Started (r : Req)
  | Answered (r : Req) (a : Ans).

Section Solo.
Context (now : Z) (bytes : list Z) (tool : Req -> Ans).

Fixpoint solo {A} (p : prog A) (db : Db) : A * Db * list note :=
  match p with
  | Ret a => (a, db, [])
  | Sql q k => let '(r, db') := q db in solo (k r) db'
  | Clock k => solo (k now) db
  | Entropy k => solo (k bytes) db
  | Start r p => let '(a, db', l) := solo p db in (a, db', Started r :: l)
  | Await r k =>
      let '(a, db', l) := solo (k (tool r)) db in (a, db', Answered r (tool r) :: l)
  end.

Lemma solo_bind {A B} (f : A -> prog B) (p : prog A) db :
  solo (bind f p) db =
  let '(a, db1, l1) := solo p db in
  let '(b, db2, l2) := solo (f a) db1 in (b, db2, l1 ++ l2).
Proof.
  revert db. induction p as [a|X q k IH|k IH|k IH|r p IH|r k IH]; intros db; simpl.
  - by destruct (solo (f a) db) as [[b db2] l2].
  - destruct (q db) as [r db']. apply IH.
  - apply IH.
  - apply IH.
  - rewrite IH. destruct (solo p db) as [[a db1] l1].
  by destruct (solo (f a) db1) as [[b db2] l2].
  - rewrite IH. destruct (solo (k (tool r)) db) as [[a db1] l1].
  by destruct (solo (f a) db1) as [[b db2] l2].
Qed.
End Solo.

(** ** Threads *)
Inductive input : Type :=
  | Commit
  | Fail (e : str)
  | Tick (now : Z)
  | Bytes (b : list Z)
  | Go
  | Answer (a : Ans).

(** What a thread does next, and what it leaves in the log. *)
Definition advance {A} (p : prog A) (i : input) (db : Db) : option (prog A * Db * list note) :=
  match p, i with
  | Sql q k, Commit => let '(r, db') := q db in Some (k r, db', [])
  | Sql q k, Fail e => Some (k (Err e), db, [])
  | Clock k, Tick now => Some (k now, db, [])
  | Entropy k, Bytes b => Some (k b, db, [])
  | Start r p, Go => Some (p, db, [Started r])
  | Await r k, Answer a => Some (k a, db, [Answered r a])
  | _, _ => None
  end.
End Programs.
Arguments prog : clear implicits.
Arguments io : clear implicits.
Arguments note : clear implicits.
Arguments input : clear implicits.
Arguments Ret {Db Req Ans A} a.
Arguments Sql {Db Req Ans A X} q k.
Arguments Clock {Db Req Ans A} k.
Arguments Entropy {Db Req Ans A} k.
Arguments Start {Db Req Ans A} r p.
Arguments Await {Db Req Ans A} r k.

(** ** Statements and transactions

    A statement reads the database and leaves another one; a failure is the text
    of SQLite's error. *)
Definition tx (Db X : Type) : Type := Db -> res str X * Db.
#[export] Instance tx_ret {Db} : MRet (tx Db) := fun X x db => (Ok x, db).
#[export] Instance tx_bind {Db} : MBind (tx Db) := fun X Y f q db =>
  match q db with
  | (Ok x, db') => f x db'
  | (Err e, db') => (Err e, db')
  | (Panic, db') => (Panic, db')
  end.

Section Statements.
Context {Db : Type}.

Definition tx_err {X} (e : str) : tx Db X := fun db => (Err e, db).
Definition tx_lift {X} (r : res str X) : tx Db X := fun db => (r, db).
(** A query, and a change that reports the number of rows it changed. *)
Definition select {X} (f : Db -> X) : tx Db X := fun db => (Ok (f db), db).
Definition change (f : Db -> Z * Db) : tx Db Z := fun db => (Ok (f db).1, (f db).2).
(** [BEGIN IMMEDIATE .. COMMIT]: nothing remains of a transaction that fails. *)
Definition transaction {X} (q : tx Db X) : tx Db X := fun db =>
  match q db with
  | (Ok x, db') => (Ok x, db')
  | (Err e, _) => (Err e, db)
  | (Panic, _) => (Panic, db)
  end.
End Statements.

(** ** Critical sections

    A critical section is one node, like a statement: [critical] on a mutex that
    cannot be poisoned (when the thread does not come back from it, nothing more of
    it is seen), [locked] on one whose poisoning is an error. *)
Section Critical.
Context {Db Req Ans : Type}.
Definition critical {E X} (f : Db -> X * Db) : io Db Req Ans E X :=
  Sql (fun db => (Ok (f db).1, (f db).2))
    (fun r => match r with Ok x => Ret (Ok x) | _ => Ret Panic end).
Definition locked {E X} (e : E) (f : Db -> res E X * Db) : io Db Req Ans E X :=
  Sql (fun db => (Ok (f db).1, (f db).2))
    (fun r => match r with Ok x => Ret x | Err _ => Ret (Err e) | Panic => Ret Panic end).
End Critical.

(** ** Programs side by side

    [both p q] runs two programs until both are done; who moves next is an answer
    from outside, asked for with the call [turn]. *)
Section Both.
Context {Db Req Ans : Type} (turn : Req) (first : Ans -> bool).
Notation prog := (prog Db Req Ans).

Fixpoint both {A B} (p : prog A) : prog B -> prog (A * B) :=
  fix go (q : prog B) : prog (A * B) :=
    let left :=
      match p with
      | Ret a => bind (fun b => Ret (a, b)) q
      | Sql f k => Sql f (fun r => both (k r) q)
      | Clock k => Clock (fun n => both (k n) q)
      | Entropy k => Entropy (fun b => both (k b) q)
      | Start r p => Start r (both p q)
      | Await r k => Await r (fun a => both (k a) q)
      end in
    let right :=
      match q with
      | Ret b => bind (fun a => Ret (a, b)) p
      | Sql f k => Sql f (fun r => go (k r))
      | Clock k => Clock (fun n => go (k n))
      | Entropy k => Entropy (fun b => go (k b))
      | Start r q => Start r (go q)
      | Await r k => Await r (fun a => go (k a))
      end in
    match p, q with
    | Ret _, _ => left
    | _, Ret _ => right
    | _, _ => Await turn (fun a => if first a then left else right)
    end.
(** [futures_util::future::join_all] *)
Fixpoint join_all {A} (ps : list (prog A)) : prog (list A) :=
  match ps with
  | [] => Ret []
  | p :: ps => bind (fun '(a, l) => Ret (a :: l)) (both p (join_all ps))
  end.
End Both.

(** ** Programs that leave something alone

    [within keeps p]: every statement of [p] relates the database before and
    after by [keeps], and [p] calls no tool. *)
Section Within.
Context {Db Req Ans : Type} (keeps : Db -> Db -> Prop).
Notation prog := (prog Db Req Ans).
Notation io := (io Db Req Ans).

Fixpoint within {A} (p : prog A) : Prop :=
  match p with
  | Ret _ => True
  | Sql q k =>
      (forall e, within (k (Err e))) /\ forall db, keeps db (q db).2 /\ within (k (q db).1)
  | Clock k => forall n, within (k n)
  | Entropy k => forall b, within (k b)
  | Start _ _ | Await _ _ => False
  end.

Lemma within_bind {A B} (f : A -> prog B) (p : prog A) :
  within p -> (forall a, within (f a)) -> within (bind f p).
Proof.
  intros Hp Hf. induction p as [a|X q k IH|k IH|k IH|r p IH|r k IH]; simpl in *;
    [done| |by intros n; apply IH|by intros b; apply IH|done|done].
  destruct Hp as [He Hc]. split; [by intros e; apply IH|].
  intros db. destruct (Hc db) as [Hk Hw]. split; [done|by apply IH].
Qed.

Lemma within_io_bind {E A B} (f : A -> io E B) (p : io E A) :
  within p -> (forall a, within (f a)) -> within (p ≫= f).
Proof. intros Hp Hf. apply within_bind; [done|]. by intros [a|e|]. Qed.
Lemma within_mret {E A} (a : A) : within (mret a : io E A).
Proof. done. Qed.
Lemma within_lift {E A} (r : res E A) : within (lift r : io E A).
Proof. done. Qed.
Lemma within_throw {E A} (e : E) : within (throw e : io E A).
Proof. done. Qed.
Lemma within_sql {X} (q : Db -> res str X * Db) :
  (forall db, keeps db (q db).2) -> within (sql q : io str X).
Proof. intros H. split; [done|]. by intros db. Qed.
Lemma within_map_err {E E' A} (f : E -> E') (p : io E A) : within p -> within (io_map_err f p).
Proof. intros H. by apply within_bind. Qed.
Lemma within_attempt {E E' A} (p : io E A) : within p -> within (attempt p : io E' _).
Proof. intros H. by apply within_bind. Qed.
Lemma within_time {E} : within (unix_time_ms_i64 : io E Z).
Proof. done. Qed.
Lemma within_random {E} : within (random_bytes : io E (list Z)).
Proof. done. Qed.
Lemma within_for_each {E A} (f : A -> io E unit) l :
  (forall x, within (f x)) -> within (io_for_each f l).
Proof. intros Hf. induction l as [|x l IH]; [done|]. by apply within_io_bind. Qed.
Lemma within_for_fold {E A T} (f : T -> A -> io E T) l s :
  (forall s x, within (f s x)) -> within (io_for_fold f s l).
Proof.
  intros Hf. revert s. induction l as [|x l IH]; intros s; [done|]. by apply within_io_bind.
Qed.
End Within.

(** ** Systems of threads *)
Section Systems.
Context {Db Req Ans J R : Type}.
Context (body : J -> prog Db Req Ans R) (outside : Db -> Db -> Prop).

Inductive event : Type :=
  | Spawned (j : J)
  | Noted (n : note Req Ans)
  | Returned (j : J) (r : R).

(** A slot is empty once its thread has returned or crashed. *)
Record system : Type := {
  database : Db;
  threads : list (option (J * prog Db Req Ans R));
  log : list event;
}.

Inductive step (s : system) : system -> Prop :=
  | step_spawn j :
    step s {| database := database s;
              threads := threads s ++ [Some (j, body j)];
              log := log s ++ [Spawned j] |}
  | step_advance n j p i p' db' l :
    threads s !! n = Some (Some (j, p)) ->
    advance p i (database s) = Some (p', db', l) ->
    step s {| database := db';
              threads := <[n := Some (j, p')]> (threads s);
              log := log s ++ map Noted l |}
  | step_return n j r :
    threads s !! n = Some (Some (j, Ret r)) ->
    step s {| database := database s;
              threads := <[n := None]> (threads s);
              log := log s ++ [Returned j r] |}
  | step_crash n :
    step s {| database := database s;
              threads := <[n := None]> (threads s);
              log := log s |}
  | step_outside db' :
    outside (database s) db' ->
    step s {| database := db'; threads := threads s; log := log s |}.

Definition started_from (db : Db) : system :=
  {| database := db; threads := []; log := [] |}.
Definition reachable (db : Db) (s : system) : Prop := rtc step (started_from db) s.

(** A schedule, played step by step. *)
Inductive move : Type :=
  | Spawn (j : J)
  | Advance (n : nat) (i : input Ans)
  | Finish (n : nat)
  | Crash (n : nat).

Definition play_move (s : system) (m : move) : option system :=
  match m with
  | Spawn j =>
      Some {| database := database s;
              threads := threads s ++ [Some (j, body j)];
              log := log s ++ [Spawned j] |}
  | Advance n i =>
      match threads s !! n with
      | Some (Some (j, p)) =>
          match advance p i (database s) with
          | Some (p', db', l) =>
              Some {| database := db';
                      threads := <[n := Some (j, p')]> (threads s);
                      log := log s ++ map Noted l |}
          | None => None
          end
      | _ => None
      end
  | Finish n =>
      match threads s !! n with
      | Some (Some (j, Ret r)) =>
          Some {| database := database s;
                  threads := <[n := None]> (threads s);
                  log := log s ++ [Returned j r] |}
      | _ => None
      end
  | Crash n =>
      Some {| database := database s; threads := <[n := None]> (threads s); log := log s |}
  end.
Fixpoint play (ms : list move) (s : system) : option system :=
  match ms with
  | [] => Some s
  | m :: ms => match play_move s m with Some s' => play ms s' | None => None end
  end.

Lemma play_steps ms s s' : play ms s = Some s' -> rtc step s s'.
Proof.
  revert s. induction ms as [|m ms IH]; intros s; simpl; [intros [= ->]; apply rtc_refl|].
  destruct (play_move s m) as [s1|] eqn:Hm; [|done]. intros Hp.
  apply (rtc_l _ _ s1); [|by apply IH]. destruct m as [j|n i|n|n]; simpl in Hm.
  - simplify_eq. constructor.
  - destruct (threads s !! n) as [[[j p]|]|] eqn:Hn; [|done..].
    destruct (advance p i (database s)) as [[[p' db'] l]|] eqn:Ha; [|done].
    simplify_eq. by econstructor.
  - destruct (threads s !! n) as [[[j p]|]|] eqn:Hn; [|done..].
    destruct p; try done. simplify_eq. by constructor.
  - simplify_eq. constructor.
Qed.

Lemma thread_can_advance s n j p i p' db' l :
  threads s !! n = Some (Some (j, p)) -> advance p i (database s) = Some (p', db', l) ->
  exists s', step s s' /\ threads s' !! n = Some (Some (j, p')).
Proof.
  intros Hn Ha. eexists. split; [by eapply step_advance|].
  apply list_lookup_insert_eq. by eapply lookup_lt_Some.
Qed.
(** A thread is never stuck: with statements that succeed and an answer to each
    call it comes to its end. *)
Lemma thread_can_finish (a : Ans) s n j p :
  threads s !! n = Some (Some (j, p)) ->
  exists s' r, rtc step s s' /\ Returned j r ∈ log s'.
Proof.
  revert s. induction p as [r|X q k IH|k IH|k IH|c p IH|c k IH]; intros s Hn.
  - eexists _, r. split; [apply rtc_once; by eapply step_return|]. apply elem_of_app. right. by left.
  - destruct (thread_can_advance s n j _ Commit (k (q (database s)).1) (q (database s)).2 [] Hn)
      as (s1 & Hs & Hn1); [cbn; by destruct (q (database s))|].
    destruct (IH _ s1 Hn1) as (s' & r & Hr & Hin). exists s', r. split; [by eapply rtc_l|done].
  - destruct (thread_can_advance s n j _ (Tick 0) (k 0%Z) (database s) [] Hn) as (s1 & Hs & Hn1); [done|].
    destruct (IH _ s1 Hn1) as (s' & r & Hr & Hin). exists s', r. split; [by eapply rtc_l|done].
  - destruct (thread_can_advance s n j _ (Bytes []) (k []) (database s) [] Hn) as (s1 & Hs & Hn1); [done|].
    destruct (IH _ s1 Hn1) as (s' & r & Hr & Hin). exists s', r. split; [by eapply rtc_l|done].
  - destruct (thread_can_advance s n j _ Go p (database s) [Started c] Hn) as (s1 & Hs & Hn1); [done|].
    destruct (IH s1 Hn1) as (s' & r & Hr & Hin). exists s', r. split; [by eapply rtc_l|done].
  - destruct (thread_can_advance s n j _ (Answer a) (k a) (database s) [Answered c a] Hn) as (s1 & Hs & Hn1);
      [done|].
    destruct (IH a s1 Hn1) as (s' & r & Hr & Hin). exists s', r. split; [by eapply rtc_l|done].
Qed.

(** ** Protocols

    Each thread carries a token.  [moves], [starts], [answers] say how a
    statement, the start of a tool call and its answer may change the token;
    [Inv] is the invariant over the database, the tokens and the log. *)
Section Protocol.
Context {T : Type}.
Context (init : J -> T) (moves : T -> T -> Db -> Db -> Prop)
  (starts : T -> Req -> T -> Prop) (answers : T -> Req -> Ans -> T -> Prop)
  (returns : J -> T -> R -> Prop)
  (Inv : Db -> list (option T) -> list event -> Prop).

Fixpoint wp {A} (t : T) (p : prog Db Req Ans A) (Q : T -> A -> Prop) : Prop :=
  match p with
  | Ret a => Q t a
  | Sql q k =>
      (forall e, wp t (k (Err e)) Q) /\
      forall db, exists t', moves t t' db (q db).2 /\ wp t' (k (q db).1) Q
  | Clock k => forall n, wp t (k n) Q
  | Entropy k => forall b, wp t (k b) Q
  | Start r p => exists t', starts t r t' /\ wp t' p Q
  | Await r k => forall a, exists t', answers t r a t' /\ wp t' (k a) Q
  end.

Lemma wp_mono {A} (p : prog Db Req Ans A) (Q Q' : T -> A -> Prop) t :
  (forall t a, Q t a -> Q' t a) -> wp t p Q -> wp t p Q'.
Proof.
  intros HQ. revert t.
  induction p as [a|X q k IH|k IH|k IH|r p IH|r k IH]; intros t; simpl.
  - apply HQ.
  - intros [Hf Hc]. split; [intros e; by apply IH|].
  intros db. destruct (Hc db) as (t' & Hm & Hw). exists t'. split; [done|by apply IH].
  - intros H n. by apply IH.
  - intros H b. by apply IH.
  - intros (t' & Hs & Hw). exists t'. split; [done|by apply IH].
  - intros H a. destruct (H a) as (t' & Ha & Hw). exists t'. split; [done|by apply IH].
Qed.

Lemma wp_bind {A B} (f : A -> prog Db Req Ans B) p Q t :
  wp t p (fun t' a => wp t' (f a) Q) -> wp t (bind f p) Q.
Proof.
  revert t. induction p as [a|X q k IH|k IH|k IH|r p IH|r k IH]; intros t; simpl.
  - done.
  - intros [Hf Hc]. split; [intros e; by apply IH|].
  intros db. destruct (Hc db) as (t' & Hm & Hw). exists t'. split; [done|by apply IH].
  - intros H n. by apply IH.
  - intros H b. by apply IH.
  - intros (t' & Hs & Hw). exists t'. split; [done|by apply IH].
  - intros H a. destruct (H a) as (t' & Ha & Hw). exists t'. split; [done|by apply IH].
Qed.

Lemma wp_io_bind {E A B} (f : A -> io Db Req Ans E B) (p : io Db Req Ans E A) Q t :
  wp t p (fun t' r => match r with
                      | Ok a => wp t' (f a) Q
                      | Err e => Q t' (Err e)
                      | Panic => Q t' Panic
                      end) ->
  wp t (p ≫= f) Q.
Proof. intros H. apply wp_bind. eapply wp_mono, H. by intros t' [a|e|]. Qed.

Lemma wp_within {A} (keeps : Db -> Db -> Prop) (p : prog Db Req Ans A) Q t :
  (forall db db', keeps db db' -> moves t t db db') -> within keeps p ->
  (forall a, Q t a) -> wp t p Q.
Proof.
  intros Hm Hp HQ. induction p as [a|X q k IH|k IH|k IH|r p IH|r k IH]; simpl in *;
  [done| |by intros n; apply IH|by intros b; apply IH|done|done].
  destruct Hp as [He Hc]. split; [by intros e; apply IH|].
  intros db. destruct (Hc db) as [Hk Hw]. exists t. split; [by apply Hm|by apply IH].
Qed.

Lemma wp_sql {X} (q : Db -> res str X * Db) Q t :
  (forall e, Q t (Err e)) ->
  (forall db, exists t', moves t t' db (q db).2 /\ Q t' (q db).1) ->
  wp t (sql q) Q.
Proof. by split. Qed.

Lemma wp_map_err {E E' A} (f : E -> E') (p : io Db Req Ans E A) Q t :
  wp t p (fun t' r => Q t' (map_err f r)) -> wp t (io_map_err f p) Q.
Proof. intros H. by apply wp_bind. Qed.

Lemma wp_attempt {E E' A} (p : io Db Req Ans E A) (Q : T -> res E' (res E A) -> Prop) t :
  wp t p (fun t' r => Q t' (Ok r)) -> wp t (attempt p) Q.
Proof. intros H. by apply wp_bind. Qed.

(** What the invariant needs from each kind of step. *)
Class Sound : Prop := {
  sound_spawn db ts l j :
  Inv db ts l -> Inv db (ts ++ [Some (init j)]) (l ++ [Spawned j]);
  sound_moves db db' ts l n t t' :
  Inv db ts l -> ts !! n = Some (Some t) -> moves t t' db db' ->
  Inv db' (<[n := Some t']> ts) l;
  sound_starts db ts l n t t' r :
  Inv db ts l -> ts !! n = Some (Some t) -> starts t r t' ->
  Inv db (<[n := Some t']> ts) (l ++ [Noted (Started r)]);
  sound_answers db ts l n t t' r a :
  Inv db ts l -> ts !! n = Some (Some t) -> answers t r a t' ->
  Inv db (<[n := Some t']> ts) (l ++ [Noted (Answered r a)]);
  sound_returns db ts l n t j r :
  Inv db ts l -> ts !! n = Some (Some t) -> returns j t r ->
  Inv db (<[n := None]> ts) (l ++ [Returned j r]);
  sound_crash db ts l n : Inv db ts l -> Inv db (<[n := None]> ts) l;
  sound_outside db db' ts l : Inv db ts l -> outside db db' -> Inv db' ts l;
}.

Definition thread_ok (th : option (J * prog Db Req Ans R)) (ot : option T) : Prop :=
  match th, ot with
  | Some (j, p), Some t => wp t p (returns j)
  | None, None => True
  | _, _ => False
  end.

Lemma thread_ok_lookup ths ts n j p :
  Forall2 thread_ok ths ts -> ths !! n = Some (Some (j, p)) ->
  exists t, ts !! n = Some (Some t) /\ wp t p (returns j).
Proof.
  intros HF Hn. destruct (Forall2_lookup_l _ _ _ _ _ HF Hn) as ([t|] & Ht & Hok); [|done].
  by exists t.
Qed.

Lemma protocol_step `{Sound} s s' ts :
  (forall j, wp (init j) (body j) (returns j)) ->
  Inv (database s) ts (log s) -> Forall2 thread_ok (threads s) ts -> step s s' ->
  exists ts', Inv (database s') ts' (log s') /\ Forall2 thread_ok (threads s') ts'.
Proof.
  intros Hb HI HF Hst. destruct Hst as [j|n j p i p' db' l Hn Ha|n j r Hn|n|db' Ho]; simpl.
  - exists (ts ++ [Some (init j)]). split; [by apply sound_spawn|].
  apply Forall2_app; [done|]. apply List.Forall2_cons; [exact (Hb j)|apply List.Forall2_nil].
  - destruct (thread_ok_lookup _ _ _ _ _ HF Hn) as (t & Ht & Hw).
  assert (exists t', Inv db' (<[n := Some t']> ts) (log s ++ map Noted l)
                       /\ wp t' p' (returns j)) as (t' & HI' & Hw').
  { assert (<[n := Some t]> ts = ts) as Hsame by (by apply list_insert_id).
      destruct p as [a|X q k|k|k|r p|r k], i as [|e|now|b| |a']; simplify_eq/=.
      - destruct (q (database s)) as [r db1] eqn:Hq; simplify_eq.
        destruct Hw as [_ Hw]. destruct (Hw (database s)) as (t' & Hm & Hw').
        rewrite Hq in Hm, Hw'. exists t'. rewrite app_nil_r.
        split; [by eapply sound_moves|done].
      - exists t. rewrite app_nil_r, Hsame. by split; [|apply Hw].
      - exists t. rewrite app_nil_r, Hsame. by split; [|apply Hw].
      - exists t. rewrite app_nil_r, Hsame. by split; [|apply Hw].
      - destruct Hw as (t' & Hs & Hw'). exists t'. split; [by eapply sound_starts|done].
      - destruct (Hw a') as (t' & Hs & Hw'). exists t'. split; [by eapply sound_answers|done]. }
  exists (<[n := Some t']> ts). split; [done|]. by apply Forall2_insert.
  - destruct (thread_ok_lookup _ _ _ _ _ HF Hn) as (t & Ht & Hw).
  exists (<[n := None]> ts). split; [by eapply sound_returns|by apply Forall2_insert].
  - exists (<[n := None]> ts). split; [by apply sound_crash|by apply Forall2_insert].
  - exists ts. split; [by eapply sound_outside|done].
Qed.

Lemma protocol `{Sound} db s :
  (forall j, wp (init j) (body j) (returns j)) -> Inv db [] [] -> reachable db s ->
  exists ts, Inv (database s) ts (log s).
Proof.
  intros Hb HI Hr.
  assert (exists ts, Inv (database s) ts (log s) /\ Forall2 thread_ok (threads s) ts)
  as (ts & ? & _); [|by exists ts].
  assert (exists ts, Inv (database (started_from db)) ts (log (started_from db))
            /\ Forall2 thread_ok (threads (started_from db)) ts) as Hini
  by (exists []; split; [done|constructor]).
  revert Hini. induction Hr as [s|s s1 s2 Hst _ IH]; intros (ts & HI1 & HF); [by exists ts|].
  apply IH. by eapply protocol_step.
Qed.
End Protocol.
End Systems.
Arguments event : clear implicits.
Arguments move : clear implicits.
Arguments system : clear implicits.

(** ** Threads that learn

    The tokens of many protocols are lists of facts that only grow.  [learns t p P]:
    from the facts [t] the program keeps to the protocol, forgets nothing, and when
    it succeeds with [a] the facts satisfy [P] with [a]. *)
Section Learning.
Context {Db Req Ans F : Type}.
Notation io := (io Db Req Ans).
Notation prog := (prog Db Req Ans).
Implicit Types t u : list F.
Context (moves : list F -> list F -> Db -> Db -> Prop)
  (answers : list F -> Req -> Ans -> list F -> Prop).
Definition never_starts (t : list F) (r : Req) (t' : list F) : Prop := False.
Notation wp := (wp moves never_starts answers).

(** A step only adds facts; in some protocols it is as good when more is known. *)
Class Growing : Prop := {
  moves_grow t t' db db' : moves t t' db db' -> t ⊆ t';
  answers_grow t t' r a : answers t r a t' -> t ⊆ t';
}.
Class Monotone : Prop := {
  moves_more t t' u db db' : moves t t' db db' -> t ⊆ u -> exists u', moves u u' db db' /\ t' ⊆ u';
  answers_more t t' u r a : answers t r a t' -> t ⊆ u -> exists u', answers u r a u' /\ t' ⊆ u';
}.
Context {G : Growing}.

(** *** Functions that may fail *)
Definition learns {E A} (t : list F) (p : io E A) (P : list F -> A -> Prop) : Prop :=
  wp t p (fun t' r => t ⊆ t' /\ match r with Ok a => P t' a | _ => True end).

Lemma learns_weaken {E A} t (p : io E A) (P P' : list F -> A -> Prop) :
  learns t p P -> (forall t' a, t ⊆ t' -> P t' a -> P' t' a) -> learns t p P'.
Proof. intros Hp HP. eapply wp_mono, Hp. intros t' [a|e|] [Ht H]; split; auto. Qed.
Lemma learns_bind {E A B} t (f : A -> io E B) (p : io E A) P (P' : list F -> B -> Prop) :
  learns t p P -> (forall t' a, t ⊆ t' -> P t' a -> learns t' (f a) P') -> learns t (p ≫= f) P'.
Proof.
  intros Hp Hf. apply wp_io_bind. eapply wp_mono, Hp. intros t' [a|e|] [Ht H]; [|done..].
  eapply wp_mono, (Hf t' a Ht H). intros t'' r [Ht' Hr]. split; [by etransitivity|done].
Qed.
Lemma learns_lift {E A} t (r : res E A) (P : list F -> A -> Prop) :
  (forall a, r = Ok a -> P t a) -> learns t (lift r) P.
Proof. intros H. split; [done|]. destruct r; [by apply H|done..]. Qed.
Lemma learns_mret {E A} t (a : A) (P : list F -> A -> Prop) : P t a -> learns t (mret a : io E A) P.
Proof. by split. Qed.
Lemma learns_throw {E A} t (e : E) (P : list F -> A -> Prop) : learns t (throw e) P.
Proof. by split. Qed.
Lemma learns_clock {E} t (P : list F -> Z -> Prop) :
  (forall n, P t n) -> learns t (unix_time_ms_i64 : io E Z) P.
Proof. by intros H n. Qed.
Lemma learns_bytes {E} t (P : list F -> list Z -> Prop) :
  (forall b, P t b) -> learns t (random_bytes : io E (list Z)) P.
Proof. by intros H n. Qed.
Lemma learns_await {E X} t (c : Req) (f : Ans -> res E X) (P : list F -> X -> Prop) :
  (forall a, exists t', answers t c a t' /\ forall x, f a = Ok x -> P t' x) ->
  learns t (Await c (fun a => Ret (f a))) P.
Proof.
  intros H a. destruct (H a) as (t' & Ha & HP). exists t'. split; [done|].
  split; [by eapply answers_grow|]. destruct (f a); [by apply HP|done..].
Qed.
Lemma learns_map_err {E E' A} t (f : E -> E') (p : io E A) P :
  learns t p P -> learns t (io_map_err f p) P.
Proof. intros H. apply wp_map_err. eapply wp_mono, H. by intros t' [a|e|]. Qed.
Lemma learns_attempt {E E' A} t (p : io E A) (P : list F -> A -> Prop) :
  learns t p P ->
  learns t (attempt p : io E' _) (fun t' r => match r with Ok a => P t' a | _ => True end).
Proof. intros H. apply wp_attempt. eapply wp_mono, H. by intros t' [a|e|]. Qed.
Lemma learns_sql {X} t (q : Db -> res str X * Db) (P : list F -> X -> Prop) :
  (forall db, exists t', moves t t' db (q db).2 /\ forall x, (q db).1 = Ok x -> P t' x) ->
  learns t (sql q) P.
Proof.
  intros H. split; [done|]. intros db. destruct (H db) as (t' & Hm & HP). exists t'.
  split; [done|]. split; [by eapply moves_grow|]. destruct (q db).1; [by apply HP|done..].
Qed.
Lemma learns_locked {E X} t (e : E) (f : Db -> res E X * Db) (P : list F -> X -> Prop) :
  (forall db, exists t', moves t t' db (f db).2 /\ forall x, (f db).1 = Ok x -> P t' x) ->
  learns t (locked e f) P.
Proof.
  intros H. split; [done|]. intros db. destruct (H db) as (t' & Hm & HP). exists t'.
  split; [done|]. split; [by eapply moves_grow|]. cbn [fst]. destruct (f db).1; [by apply HP|done..].
Qed.
Lemma learns_critical {E X} t (f : Db -> X * Db) (P : list F -> X -> Prop) :
  (forall db, exists t', moves t t' db (f db).2 /\ P t' (f db).1) ->
  learns t (critical f : io E X) P.
Proof.
  intros H. split; [done|]. intros db. destruct (H db) as (t' & Hm & HP). exists t'.
  split; [done|]. split; [by eapply moves_grow|done].
Qed.
Lemma learns_for_each {E A} t (f : A -> io E unit) l :
  (forall x t', x ∈ l -> t ⊆ t' -> learns t' (f x) (fun _ _ => True)) ->
  learns t (io_for_each f l) (fun _ _ => True).
Proof.
  revert t. induction l as [|x l IH]; intros t Hf; [by apply learns_mret|]. cbn [io_for_each].
  eapply learns_bind; [apply Hf; [left|done]|]. intros t' [] Ht _. apply IH.
  intros y t'' Hy Ht'. apply Hf; [by right|by etransitivity].
Qed.
Lemma learns_for_fold {E A S} t (f : S -> A -> io E S) (P : list F -> S -> list A -> Prop) l s :
  P t s [] ->
  (forall seen x rest t' s, l = seen ++ x :: rest -> t ⊆ t' -> P t' s seen ->
     learns t' (f s x) (fun t'' s' => P t'' s' (seen ++ [x]))) ->
  learns t (io_for_fold f s l) (fun t' s' => P t' s' l).
Proof.
  intros Hs Hf. assert (forall seen rest t' s, l = seen ++ rest -> t ⊆ t' -> P t' s seen ->
    learns t' (io_for_fold f s rest) (fun t'' s' => P t'' s' l)) as H.
  { intros dn rest. revert dn. induction rest as [|x rest IH]; intros dn t' s' -> Ht HP.
    - apply learns_mret. by rewrite app_nil_r.
    - cbn [io_for_fold]. eapply learns_bind; [by eapply Hf|]. intros t'' s'' Ht' HP'.
      apply (IH (dn ++ [x])); [by rewrite <- app_assoc|by etransitivity|done]. }
  by apply (H [] l).
Qed.
(** *** Side by side *)
Section Sides.
Context {M : Monotone}.
Lemma wp_more {A} (p : prog A) (Q Q' : list F -> A -> Prop) : forall t u,
  t ⊆ u -> (forall t' u' a, t' ⊆ u' -> u ⊆ u' -> Q t' a -> Q' u' a) -> wp t p Q -> wp u p Q'.
Proof.
  induction p as [a|X q k IH|k IH|k IH|r p IH|r k IH]; intros t u Htu HQ; simpl.
  - by apply HQ.
  - intros [Hf Hc]. split; [intros e; by apply (IH (Err e) t u)|].
    intros db. destruct (Hc db) as (t' & Hm & Hw). destruct (moves_more _ _ _ _ _ Hm Htu) as (u' & Hu & Ht').
    exists u'. split; [done|]. apply (IH _ t' u'); [done| |done].
    intros t2 u2 a ? Hu2. apply HQ; [done|]. etransitivity; [by eapply moves_grow|done].
  - intros Hw n. by apply (IH n t u).
  - intros Hw b. by apply (IH b t u).
  - by intros (t' & [] & _).
  - intros Hw a. destruct (Hw a) as (t' & Ha & Hw'). destruct (answers_more _ _ _ _ _ Ha Htu) as (u' & Hu & Ht').
    exists u'. split; [done|]. apply (IH _ t' u'); [done| |done].
    intros t2 u2 x ? Hu2. apply HQ; [done|]. etransitivity; [by eapply answers_grow|done].
Qed.

Context (turn : Req) (first : Ans -> bool).
Context (Hturn : forall t a, exists t', answers t turn a t').
Definition persistent {A} (Q : list F -> A -> Prop) : Prop := forall t u a, t ⊆ u -> Q t a -> Q u a.

Lemma wp_persists {A} t u (p : prog A) (Q : list F -> A -> Prop) :
  persistent Q -> t ⊆ u -> wp t p Q -> wp u p Q.
Proof. intros HQ Htu. apply wp_more; [done|]. intros t' u' a Ht' _. by apply HQ. Qed.

Lemma wp_both {A B} (p : prog A) (P : list F -> A -> Prop) (Q : list F -> B -> Prop) :
  persistent P -> persistent Q -> forall (q : prog B) t,
  wp t p P -> wp t q Q -> wp t (both turn first p q) (fun t' '(a, b) => P t' a /\ Q t' b).
Proof.
  intros HP HQ. induction p as [a|X f k IHp|k IHp|k IHp|r p IHp|r k IHp].
  { intros q t Ha Hq. assert (wp t (bind (fun b => Ret (a, b)) q) (fun t' '(a, b) => P t' a /\ Q t' b)) as H.
    { apply wp_bind. eapply wp_more; [reflexivity| |exact Hq]. intros t' u' b Ht' Hu' Hb.
      split; [exact (HP _ _ _ Hu' Ha)|exact (HQ _ _ _ Ht' Hb)]. }
    destruct q; exact H. }
  all: induction q as [b|Y g l IHq|l IHq|l IHq|s q IHq|s l IHq]; intros t Hp Hq.
  all: try (match goal with
            | |- Program.wp _ _ _ _ (both _ _ ?p (Ret ?b)) _ =>
                assert (wp t (bind (fun a => Ret (a, b)) p) (fun t' '(a, b) => P t' a /\ Q t' b)) as H;
                [apply wp_bind; eapply wp_more; [reflexivity| |exact Hp];
                 intros t' u' a Ht' Hu' Ha; split; [exact (HP _ _ _ Ht' Ha)|exact (HQ _ _ _ Hu' Hq)]
                |exact H]
            end).
  all: try (by destruct Hp as (? & [] & _)).
  all: try (by destruct Hq as (? & [] & _)).
  all: intros a0; destruct (Hturn t a0) as (t0 & Ht0); exists t0; split; [done|].
  all: pose proof (answers_grow _ _ _ _ Ht0) as Hg.
  all: apply (wp_persists _ _ _ _ HP Hg) in Hp; apply (wp_persists _ _ _ _ HQ Hg) in Hq.
  all: destruct (first a0); [clear IHq; revert Hp; simpl | clear IHp; revert Hq; simpl]; intros Hs.
  all: first
    [ destruct Hs as [Hf Hc]; split; [intros e | intros db; destruct (Hc db) as (t1 & Hm & Hw);
        exists t1; split; [exact Hm|]; pose proof (moves_grow _ _ _ _ Hm) as Hg1]
    | intros x; destruct (Hs x) as (t1 & Hm & Hw); exists t1; split; [exact Hm|];
      pose proof (answers_grow _ _ _ _ Hm) as Hg1
    | intros x; pose proof (Hs x) as Hw; pose proof (reflexivity t0 : t0 ⊆ t0) as Hg1 ].
  all: try (pose proof (Hf e) as Hw; pose proof (reflexivity t0 : t0 ⊆ t0) as Hg1).
  all: first
    [ refine (IHp _ _ _ Hw _); exact (wp_persists _ _ _ _ HQ Hg1 Hq)
    | refine (IHq _ _ _ Hw); exact (wp_persists _ _ _ _ HP Hg1 Hp) ].
Qed.

Lemma wp_join_all {I A} (P : I -> list F -> A -> Prop) (js : list I) (ps : list (prog A)) t :
  (forall i, persistent (P i)) -> Forall2 (fun i p => wp t p (P i)) js ps ->
  wp t (join_all turn first ps) (fun t' l => t ⊆ t' /\ Forall2 (fun i a => P i t' a) js l).
Proof.
  intros HP Hps. induction Hps as [|i p js ps Hp _ IH]; [by split|]. cbn [join_all].
  apply wp_bind.
  eapply wp_mono, (wp_both p (P i) (fun t' l => t ⊆ t' /\ Forall2 (fun i a => P i t' a) js l));
    [|apply HP| |exact Hp|exact IH].
  - intros t' [a l] [Ha [Ht Hl]]. split; [done|by constructor].
  - intros t' u l Hu [Ht Hl]. split; [by etransitivity|]. apply (list.Forall2_impl _ _ _ _ Hl). intros j a. exact (HP j _ _ a Hu).
Qed.
End Sides.
End Learning.

(** ** What stays so

    [stable P p Q]: as long as [P] holds of the database when a statement of [p] runs,
    it holds after it, and what [p] returns satisfies [Q].  What every thread leaves
    so stays so, once no older thread is left. *)
Section Stable.
Context {Db Req Ans : Type} (P : Db -> Prop).
Notation prog := (prog Db Req Ans).
Notation io := (io Db Req Ans).

Fixpoint stable {A} (p : prog A) (Q : A -> Prop) : Prop :=
  match p with
  | Ret a => Q a
  | Sql q k => (forall e, stable (k (Err e)) Q) /\
      forall db, P db -> P (q db).2 /\ stable (k (q db).1) Q
  | Clock k => forall n, stable (k n) Q
  | Entropy k => forall b, stable (k b) Q
  | Start _ p => stable p Q
  | Await _ k => forall a, stable (k a) Q
  end.

Lemma stable_mono {A} (p : prog A) (Q Q' : A -> Prop) :
  (forall a, Q a -> Q' a) -> stable p Q -> stable p Q'.
Proof.
  intros HQ. induction p as [a|X q k IH|k IH|k IH|r p IH|r k IH]; simpl; [apply HQ| |auto..].
  intros [He Hc]. split; [auto|]. intros db Hdb. destruct (Hc db Hdb). auto.
Qed.
Lemma stable_bind {A B} (f : A -> prog B) p Q :
  stable p (fun a => stable (f a) Q) -> stable (bind f p) Q.
Proof.
  induction p as [a|X q k IH|k IH|k IH|r p IH|r k IH]; simpl; [done| |auto..].
  intros [He Hc]. split; [auto|]. intros db Hdb. destruct (Hc db Hdb). auto.
Qed.
(** Of a function that may fail, [Q] is about what it returns. *)
Definition stably {E A} (p : io E A) (Q : A -> Prop) : Prop :=
  stable p (fun r => match r with Ok a => Q a | _ => True end).
Lemma stably_mono {E A} (p : io E A) (Q Q' : A -> Prop) :
  (forall a, Q a -> Q' a) -> stably p Q -> stably p Q'.
Proof. intros HQ. apply stable_mono. intros [a|e|]; auto. Qed.
Lemma stably_bind {E A B} (f : A -> io E B) (p : io E A) Q Q' :
  stably p Q -> (forall a, Q a -> stably (f a) Q') -> stably (p ≫= f) Q'.
Proof. intros Hp Hf. apply stable_bind. eapply stable_mono, Hp. intros [a|e|] Ha; [by apply Hf|done..]. Qed.
Lemma stably_lift {E A} (r : res E A) (Q : A -> Prop) : (forall a, r = Ok a -> Q a) -> stably (lift r) Q.
Proof. intros H. unfold stably. simpl. destruct r; auto. Qed.
Lemma stably_sql {X} (q : Db -> res str X * Db) (Q : X -> Prop) :
  (forall db, P db -> P (q db).2 /\ forall x, (q db).1 = Ok x -> Q x) -> stably (sql q) Q.
Proof.
  intros H. split; [done|]. intros db Hdb. destruct (H db Hdb) as [HP HQ]. split; [done|].
  simpl. destruct (q db).1; auto.
Qed.
Lemma stably_locked {E X} (e : E) (f : Db -> res E X * Db) (Q : X -> Prop) :
  (forall db, P db -> P (f db).2 /\ forall x, (f db).1 = Ok x -> Q x) -> stably (locked e f) Q.
Proof.
  intros H. split; [done|]. intros db Hdb. destruct (H db Hdb) as [HP HQ]. split; [done|].
  simpl. destruct (f db).1; auto.
Qed.
Lemma stably_critical {E X} (f : Db -> X * Db) (Q : X -> Prop) :
  (forall db, P db -> P (f db).2 /\ Q (f db).1) -> stably (critical f : io E X) Q.
Proof. intros H. split; [done|]. intros db Hdb. by destruct (H db Hdb). Qed.
Lemma stably_attempt {E E' A} (p : io E A) :
  stably p (fun _ => True) -> stably (attempt p : io E' _) (fun _ => True).
Proof. intros Hp. apply stable_bind. by eapply stable_mono, Hp. Qed.
Lemma stably_for_each {E A} (f : A -> io E unit) l :
  (forall x, x ∈ l -> stably (f x) (fun _ => True)) -> stably (io_for_each f l) (fun _ => True).
Proof.
  induction l as [|x l IH]; intros Hf; [done|]. cbn [io_for_each].
  eapply stably_bind; [apply Hf; left|]. intros [] _. apply IH. intros y Hy. apply Hf. by right.
Qed.
Lemma stably_for_fold {E A S} (f : S -> A -> io E S) l s :
  (forall s x, stably (f s x) (fun _ => True)) -> stably (io_for_fold f s l) (fun _ => True).
Proof.
  intros Hf. revert s. induction l as [|x l IH]; intros s; [done|]. cbn [io_for_fold].
  eapply stably_bind; [apply Hf|]. intros s' _. apply IH.
Qed.
Lemma stable_both {A B} (turn : Req) (first : Ans -> bool) (p : prog A) : forall (q : prog B),
  stable p (fun _ => True) -> stable q (fun _ => True) ->
  stable (both turn first p q) (fun _ => True).
Proof.
  induction p as [a|X f k IHp|k IHp|k IHp|r p IHp|r k IHp].
  { intros q _ Hq. assert (stable (bind (fun b => Ret (a, b)) q) (fun _ => True)) as H.
    { apply stable_bind. by eapply stable_mono, Hq. }
    destruct q; exact H. }
  all: induction q as [b|Y g l IHq|l IHq|l IHq|s q IHq|s l IHq]; intros Hp Hq.
  all: try (match goal with
            | |- stable (both _ _ ?p (Ret ?b)) _ =>
                assert (stable (bind (fun a => Ret (a, b)) p) (fun _ => True)) as H;
                [apply stable_bind; by eapply stable_mono, Hp|exact H]
            end).
  all: intros a0; destruct (first a0).
  all: first
    [ exact (IHp _ Hp Hq) | exact (IHq Hp Hq)
    | intros x; exact (IHp _ _ (Hp x) Hq) | intros x; exact (IHq _ Hp (Hq x))
    | destruct Hp as [He Hc]; split; [intros e; exact (IHp _ _ (He e) Hq)
        |intros db Hdb; destruct (Hc db Hdb) as [? Hk]; split; [done|exact (IHp _ _ Hk Hq)]]
    | destruct Hq as [He Hc]; split; [intros e; exact (IHq _ Hp (He e))
        |intros db Hdb; destruct (Hc db Hdb) as [? Hk]; split; [done|exact (IHq _ Hp Hk)]] ].
Qed.
Lemma stable_join_all {A} (turn : Req) (first : Ans -> bool) (ps : list (prog A)) :
  Forall (fun p => stable p (fun _ => True)) ps -> stable (join_all turn first ps) (fun _ => True).
Proof.
  induction 1 as [|p ps Hp _ IH]; [done|]. cbn [join_all]. apply stable_bind.
  eapply stable_mono, (stable_both turn first p (join_all turn first ps)); [by intros [a l]|done|done].
Qed.

Context {J R : Type} (body : J -> prog R) (outside : Db -> Db -> Prop).
Lemma stays s s' :
  (forall j, stable (body j) (fun _ => True)) ->
  (forall db db', P db -> outside db db' -> P db') ->
  Forall (fun th => th = None) (threads s) -> P (database s) ->
  rtc (step body outside) s s' -> P (database s').
Proof.
  intros Hb Ho Hnone HP Hr.
  assert (Forall (fun th => match th with
    | Some (_, p) => stable p (fun _ => True) | None => True end) (threads s)) as Hths
    by (eapply list.Forall_impl; [exact Hnone|]; by intros ? ->).
  clear Hnone. revert HP Hths. induction Hr as [s|s s1 s2 Hst _ IH]; intros HP Hths; [done|].
  destruct Hst as [j|n j p i p' db' l Hn Ha|n j r Hn|n|db' Hout]; apply IH; cbn.
  - done.
  - apply Forall_app. split; [done|]. constructor; [apply Hb|constructor].
  - pose proof (Forall_lookup_1 _ _ _ _ Hths Hn) as Hp. cbn in Hp.
    destruct p as [a|X q k|k|k|r p|r k], i as [|e|now|b| |a']; simplify_eq/=; try done.
    destruct (q (database s)) as [x db1] eqn:Hq. simplify_eq/=.
    destruct Hp as [_ Hc]. specialize (Hc _ HP). rewrite Hq in Hc. apply Hc.
  - pose proof (Forall_lookup_1 _ _ _ _ Hths Hn) as Hp. cbn in Hp. apply Forall_insert; [done|].
    destruct p as [a|X q k|k|k|r p|r k], i as [|e|now|b| |a']; simplify_eq/=; try done; try apply Hp.
    destruct (q (database s)) as [x db1] eqn:Hq. simplify_eq/=.
    destruct Hp as [_ Hc]. specialize (Hc _ HP). rewrite Hq in Hc. apply Hc.
  - done.
  - by apply Forall_insert.
  - done.
  - by apply Forall_insert.
  - by eapply Ho.
  - done.
Qed.
End Stable.

(** ** Letting one thread go on, with fixed answers *)
Section Drive.
Context {Db Req Ans J R : Type} (body : J -> prog Db Req Ans R) (outside : Db -> Db -> Prop).
Context (now : Z) (bytes : list Z) (answer : Ans).
Definition input_for {A} (p : prog Db Req Ans A) : option (input Ans) :=
  match p with
  | Ret _ => None
  | Sql _ _ => Some Commit
  | Clock _ => Some (Tick now)
  | Entropy _ => Some (Bytes bytes)
  | Start _ _ => Some Go
  | Await _ _ => Some (Answer answer)
  end.
Definition next_move (n : nat) (s : system Db Req Ans J R) : option (move Ans J) :=
  match threads s !! n with
  | Some (Some (_, p)) =>
      Some (match input_for p with Some i => Advance n i | None => Finish n end)
  | _ => None
  end.
Fixpoint drive (fuel n : nat) (s : system Db Req Ans J R) : system Db Req Ans J R :=
  match fuel with
  | O => s
  | S fuel =>
      match next_move n s ≫= play_move body s with
      | Some s' => drive fuel n s'
      | None => s
      end
  end.
Lemma drive_steps fuel n s : rtc (step body outside) s (drive fuel n s).
Proof.
  revert s. induction fuel as [|fuel IH]; intros s; [apply rtc_refl|]. cbn [drive].
  destruct (next_move n s) as [m|]; [|apply rtc_refl]. cbn [mbind option_bind].
  destruct (play_move body s m) as [s'|] eqn:Hm; [|apply rtc_refl].
  transitivity s'; [|apply IH]. apply (play_steps body outside [m]). cbn. by rewrite Hm.
Qed.
Definition spawned (j : J) (s : system Db Req Ans J R) : system Db Req Ans J R :=
  {| database := database s; threads := threads s ++ [Some (j, body j)]; log := log s ++ [Spawned j] |}.
Lemma spawned_steps j s : rtc (step body outside) s (spawned j s).
Proof. apply rtc_once. constructor. Qed.
End Drive.

(** The token of a thread after one of them was replaced. *)
Lemma lookup_insert_thread {T} (ts : list (option T)) n m (o : option T) t :
  <[n := o]> ts !! m = Some (Some t) -> (n = m /\ o = Some t) \/ ts !! m = Some (Some t).
Proof. intros [(? & ? & _)|[_ ?]]%list_lookup_insert_Some; auto. Qed.

(** ** Counting *)
Section Counting.
Context {T : Type}.

(** What all threads hold together, and how often something is in the log. *)
Definition held (f : T -> nat) (ts : list (option T)) : nat :=
  sum_list_with (from_option f 0%nat) ts.

Lemma held_app f ts t : held f (ts ++ [Some t]) = (held f ts + f t)%nat.
Proof. unfold held. rewrite sum_list_with_app. simpl. lia. Qed.

Lemma held_insert f ts n (o o' : option T) :
  ts !! n = Some o ->
  (held f (<[n := o']> ts) + from_option f 0 o = held f ts + from_option f 0 o')%nat.
Proof.
  unfold held. revert n. induction ts as [|x ts IH]; intros [|n] Hn; simplify_eq/=; [lia|].
  specialize (IH n Hn). lia.
Qed.

Lemma held_same f ts n (o o' : option T) :
  ts !! n = Some o -> from_option f 0%nat o = from_option f 0%nat o' ->
  held f (<[n := o']> ts) = held f ts.
Proof. intros Hn He. pose proof (held_insert f _ _ _ o' Hn). lia. Qed.

Lemma held_none f ts n : (held f (<[n := None]> ts) <= held f ts)%nat.
Proof.
  unfold held. revert n. induction ts as [|x ts IH]; intros [|n]; simpl; [done..|lia|].
  specialize (IH n). lia.
Qed.
End Counting.
