(* ===== verification/TaskStore.v ===== *)
(** * The tables of the task control plane

    [migrations/0011_unified_task_control_plane.sql] and the columns of the
    runtime tables that [tasks/] reads and writes.  A table is a map from its
    primary key to a row; [task_events] keeps the order of insertion.  Each SQL
    statement that more than one function uses is a definition here, on the
    whole database, with the constraints the schema puts on it; the others stand
    beside the function that issues them. *)
From S2P Require Import Prelude.
From S2P Require Import RustStr.
From S2P Require Import P0Contracts.
From S2P Require Import RustHash.
From S2P Require Import JsonValue.
From S2P Require Import Program.
Local Open Scope Z_scope.

(** What [tasks/] uses of other crates: the text of a serialised struct (its
    fields in the order of their declaration) and chrono's RFC 3339 form. *)
Class StoreLib `{J : JsonLib} : Type := {
  store_text :: JsonText;
  store_order :: HashOrder;
  struct_to_string : list (str * Value) -> str;
  rfc3339_millis : Z -> option str;
  parse_from_rfc3339 : str -> bool;
}.

(** ** Columns with a fixed vocabulary *)
Module RuntimeKind.
Inductive t : Type := taskflow | workflow | agent | queued_message.
Definition text (k : t) : str :=
  match k with
  | taskflow => lit "taskflow" | workflow => lit "workflow"
  | agent => lit "agent" | queued_message => lit "queued_message"
  end.
End RuntimeKind.
#[export] Instance RuntimeKind_eq_dec : EqDecision RuntimeKind.t.
Proof. solve_decision. Defined.

Module RecoveryState.
Inductive t : Type := not_required | reconciled | recoverable | lost | runtime_unavailable.
End RecoveryState.
#[export] Instance RecoveryState_eq_dec : EqDecision RecoveryState.t.
Proof. solve_decision. Defined.

Module EffectState.
Inductive t : Type := reserved | executed | verified.
End EffectState.
#[export] Instance EffectState_eq_dec : EqDecision EffectState.t.
Proof. solve_decision. Defined.

(** The serde names of [TaskState] and [EvidenceClass]. *)
Definition task_state_text (s : TaskState) : str :=
  match s with
  | Queued => lit "queued" | Planning => lit "planning"
  | AwaitingApproval => lit "awaiting_approval" | Running => lit "running"
  | Blocked => lit "blocked" | Completed => lit "completed"
  | Failed => lit "failed" | Cancelled => lit "cancelled"
  end.
Definition evidence_text (e : EvidenceClass) : str :=
  match e with
  | ModelAssertion => lit "model_assertion" | ObservedResult => lit "observed_result"
  | ExecutedMutation => lit "executed_mutation"
  | VerifiedPostcondition => lit "verified_postcondition"
  | SignedArtifact => lit "signed_artifact"
  end.
Definition read_evidence (s : str) : option EvidenceClass :=
  find (fun e => str_eqb (evidence_text e) s)
    [ModelAssertion; ObservedResult; ExecutedMutation; VerifiedPostcondition; SignedArtifact].

(** ** Rows *)
Module TaskRun.
Record t : Type := mk {
  task_id : str;
  project_id : option str;
  runtime_kind : RuntimeKind.t;
  runtime_record_id : str;
  state : TaskState;
  origin : str;
  correlation_id : str;
  summary : str;
  last_error : option str;
  created_at_ms : Z;
  updated_at_ms : Z;
  completed_at_ms : option Z;
  acknowledged_at_ms : option Z;
  recovery_state : RecoveryState.t;
}.
End TaskRun.

Module TaskEvent.
Record t : Type := mk {
  task_run_id : str;
  sequence : Z;
  event_json : str;
  created_at_ms : Z;
}.
End TaskEvent.

Module TaskEffect.
Record t : Type := mk {
  effect_kind : str;
  state : EffectState.t;
  result_digest : option str;
  updated_at_ms : Z;
}.
End TaskEffect.

Module TaskRecoveryAudit.
Record t : Type := mk {
  task_run_id : str;
  previous_state : str;
  resolved_state : str;
  decision : str;
  next_action : str;
  created_at_ms : Z;
}.
End TaskRecoveryAudit.

(** The columns of the runtime tables that [tasks/] uses. *)
Module Taskflow.
Record t : Type := mk {
  parent_session_id : str; status : str; directive : str;
  created_at_ms : Z; updated_at_ms : Z; steps : list str;
}.
End Taskflow.
Module ExecutionRow.
Record t : Type := mk {
  project_id : option str; workflow_id : str; status : str;
  active_node_id : option str; error_json : option str; node_payloads_json : str;
  created_at_ms : Z; updated_at_ms : Z; completed_at_ms : option Z;
}.
End ExecutionRow.
Module AgentExecution.
Record t : Type := mk {
  project_id : option str; session_id : str; agent_id : str; status : str;
  logs : list str; created_at_ms : Z; updated_at_ms : Z;
}.
End AgentExecution.
Module QueuedMessage.
Record t : Type := mk {
  project_id : option str; status : str; message : str; error_message : option str;
  created_at_ms : Z; updated_at_ms : Z;
}.
End QueuedMessage.
Module RoutineRun.
Record t : Type := mk { execution_instance_id : str; task_run_id : str; schedule_id : str }.
End RoutineRun.
Module ScheduleRow.
Record t : Type := mk {
  schedule_kind : str; is_active : bool; claimed_at_ms : option Z;
  next_run_at_ms : option Z; paused_reason : option str; last_status : option str;
  last_error : option str; last_instance_id : option str; updated_at_ms : Z;
}.
End ScheduleRow.

Module Db.
Record t : Type := mk {
  task_runs : gmap str TaskRun.t;
  task_events : list TaskEvent.t;
  task_effects : gmap (str * str) TaskEffect.t;
  task_recovery_audit : list TaskRecoveryAudit.t;
  taskflows : gmap str Taskflow.t;
  execution_instances : gmap str ExecutionRow.t;
  agent_executions : gmap str AgentExecution.t;
  message_queue : gmap str QueuedMessage.t;
  chat_sessions : gmap str (option str);
  routine_runs : list RoutineRun.t;
  workflow_schedules : gmap str ScheduleRow.t;
}.
Definition empty : t := mk ∅ [] ∅ [] ∅ ∅ ∅ ∅ ∅ [] ∅.
Definition with_runs (v : gmap str TaskRun.t) (db : t) : t :=
  mk v (task_events db) (task_effects db) (task_recovery_audit db) (taskflows db)
    (execution_instances db) (agent_executions db) (message_queue db) (chat_sessions db)
    (routine_runs db) (workflow_schedules db).
Definition with_events (v : list TaskEvent.t) (db : t) : t :=
  mk (task_runs db) v (task_effects db) (task_recovery_audit db) (taskflows db)
    (execution_instances db) (agent_executions db) (message_queue db) (chat_sessions db)
    (routine_runs db) (workflow_schedules db).
Definition with_effects (v : gmap (str * str) TaskEffect.t) (db : t) : t :=
  mk (task_runs db) (task_events db) v (task_recovery_audit db) (taskflows db)
    (execution_instances db) (agent_executions db) (message_queue db) (chat_sessions db)
    (routine_runs db) (workflow_schedules db).
Definition with_audit (v : list TaskRecoveryAudit.t) (db : t) : t :=
  mk (task_runs db) (task_events db) (task_effects db) v (taskflows db)
    (execution_instances db) (agent_executions db) (message_queue db) (chat_sessions db)
    (routine_runs db) (workflow_schedules db).
Definition with_taskflows (v : gmap str Taskflow.t) (db : t) : t :=
  mk (task_runs db) (task_events db) (task_effects db) (task_recovery_audit db) v
    (execution_instances db) (agent_executions db) (message_queue db) (chat_sessions db)
    (routine_runs db) (workflow_schedules db).
Definition with_instances (v : gmap str ExecutionRow.t) (db : t) : t :=
  mk (task_runs db) (task_events db) (task_effects db) (task_recovery_audit db)
    (taskflows db) v (agent_executions db) (message_queue db) (chat_sessions db)
    (routine_runs db) (workflow_schedules db).
Definition with_agents (v : gmap str AgentExecution.t) (db : t) : t :=
  mk (task_runs db) (task_events db) (task_effects db) (task_recovery_audit db)
    (taskflows db) (execution_instances db) v (message_queue db) (chat_sessions db)
    (routine_runs db) (workflow_schedules db).
Definition with_messages (v : gmap str QueuedMessage.t) (db : t) : t :=
  mk (task_runs db) (task_events db) (task_effects db) (task_recovery_audit db)
    (taskflows db) (execution_instances db) (agent_executions db) v (chat_sessions db)
    (routine_runs db) (workflow_schedules db).
Definition with_schedules (v : gmap str ScheduleRow.t) (db : t) : t :=
  mk (task_runs db) (task_events db) (task_effects db) (task_recovery_audit db)
    (taskflows db) (execution_instances db) (agent_executions db) (message_queue db)
    (chat_sessions db) (routine_runs db) v.
End Db.
Notation Db := Db.t.

(** ** Statements *)
Notation tx := (Program.tx Db).

(** [UPDATE table SET .. WHERE key=? AND condition]: zero or one row. *)
Definition update_one {K A} `{Countable K} (m : gmap K A) (k : K) (cond : A -> bool)
    (set : A -> A) : Z * gmap K A :=
  match m !! k with
  | Some row => if cond row then (1, <[k := set row]> m) else (0, m)
  | None => (0, m)
  end.

Definition foreign_key_failed : str := lit "FOREIGN KEY constraint failed".

(** [INSERT INTO task_effects(..) VALUES (?1,?2,?3,'reserved',?4)
    ON CONFLICT(task_run_id,idempotency_key) DO NOTHING] *)
Definition insert_effect (task_run_id key effect_kind : str) (now : Z) : tx Z := fun db =>
  match Db.task_effects db !! (task_run_id, key) with
  | Some _ => (Ok 0, db)
  | None =>
      match Db.task_runs db !! task_run_id with
      | None => (Err foreign_key_failed, db)
      | Some _ =>
          (Ok 1, Db.with_effects
                   (<[(task_run_id, key) :=
                        TaskEffect.mk effect_kind EffectState.reserved None now]>
                      (Db.task_effects db)) db)
      end
  end.

(** [UPDATE task_effects SET .. WHERE task_run_id=?1 AND idempotency_key=?2 AND ..] *)
Definition update_effect (task_run_id key : str) (cond : TaskEffect.t -> bool)
    (set : TaskEffect.t -> TaskEffect.t) : tx Z :=
  change (fun db =>
    let '(n, m) := update_one (Db.task_effects db) (task_run_id, key) cond set in
    (n, Db.with_effects m db)).

(** [DELETE FROM task_effects WHERE task_run_id=?1 AND idempotency_key=?2
    AND effect_kind=?3 AND state='executed' AND result_digest IS NULL] *)
Definition delete_unverified_effect (task_run_id key effect_kind : str) : tx Z :=
  change (fun db =>
    match Db.task_effects db !! (task_run_id, key) with
    | Some row =>
        if str_eqb (TaskEffect.effect_kind row) effect_kind
           && bool_decide (TaskEffect.state row = EffectState.executed)
           && bool_decide (TaskEffect.result_digest row = None)
        then (1, Db.with_effects (delete (task_run_id, key) (Db.task_effects db)) db)
        else (0, db)
    | None => (0, db)
    end).

Definition update_run (task_run_id : str) (cond : TaskRun.t -> bool)
    (set : TaskRun.t -> TaskRun.t) : tx Z :=
  change (fun db =>
    let '(n, m) := update_one (Db.task_runs db) task_run_id cond set in
    (n, Db.with_runs m db)).

Definition update_instance (id : str) (cond : ExecutionRow.t -> bool)
    (set : ExecutionRow.t -> ExecutionRow.t) : tx Z :=
  change (fun db =>
    let '(n, m) := update_one (Db.execution_instances db) id cond set in
    (n, Db.with_instances m db)).

Definition update_schedule (id : str) (cond : ScheduleRow.t -> bool)
    (set : ScheduleRow.t -> ScheduleRow.t) : tx Z :=
  change (fun db =>
    let '(n, m) := update_one (Db.workflow_schedules db) id cond set in
    (n, Db.with_schedules m db)).

(** Setting columns. *)
Definition set_effect (state : EffectState.t) (digest : option str) (now : Z)
    (row : TaskEffect.t) : TaskEffect.t :=
  TaskEffect.mk (TaskEffect.effect_kind row) state digest now.

Definition set_run (project : option str) (state : TaskState) (summary : str)
    (last_error : option str) (updated : Z) (completed : option Z)
    (recovery : RecoveryState.t) (row : TaskRun.t) : TaskRun.t :=
  TaskRun.mk (TaskRun.task_id row) project (TaskRun.runtime_kind row)
    (TaskRun.runtime_record_id row) state (TaskRun.origin row)
    (TaskRun.correlation_id row) summary last_error (TaskRun.created_at_ms row)
    updated completed (TaskRun.acknowledged_at_ms row) recovery.

Definition set_instance_status (status : str) (active : option str) (error : option str)
    (now : Z) (completed : option Z) (row : ExecutionRow.t) : ExecutionRow.t :=
  ExecutionRow.mk (ExecutionRow.project_id row) (ExecutionRow.workflow_id row) status
    active error (ExecutionRow.node_payloads_json row) (ExecutionRow.created_at_ms row)
    now completed.

(** ** Events *)
Section Events.
Context `{S : StoreLib}.

(** The serde form of [P0EventEnvelope]. *)
Definition event_fields (e : P0EventEnvelope Value) : list (str * Value) :=
  [(lit "schemaVersion", json_u64 (schema_version e));
   (lit "eventType", Value.String (event_type e));
   (lit "projectId", Value.String (P0Contracts.as_str (project_id e)));
   (lit "taskId", Value.String (P0Contracts.as_str (task_id e)))]
  ++ match task_run_id e with
     | Some id => [(lit "taskRunId", Value.String (P0Contracts.as_str id))]
     | None => []
     end
  ++ [(lit "correlationId", Value.String (correlation_id e));
      (lit "sequence", json_u64 (sequence e));
      (lit "timestamp", Value.String (timestamp e));
      (lit "evidenceClass", Value.String (evidence_text (evidence_class e)));
      (lit "payload", payload e)].

(** [json_extract(event_json, path)] of a stored event. *)
Definition extract (path : list string) (row : TaskEvent.t) : option Value :=
  match from_str (TaskEvent.event_json row) with Some v => pointer path v | None => None end.
Definition extract_is (path : list string) (text : str) (row : TaskEvent.t) : bool :=
  bool_decide (extract path row = Some (Value.String text)).
Definition has_event_type (name : string) (row : TaskEvent.t) : bool :=
  extract_is ["eventType"%string] (lit name) row.

Definition events_of (task_run_id : str) (db : Db) : list TaskEvent.t :=
  List.filter (fun e => str_eqb (TaskEvent.task_run_id e) task_run_id) (Db.task_events db).
(** [SELECT COALESCE(MAX(sequence), -1) + 1 FROM task_events WHERE task_run_id=?1] *)
Definition next_sequence (task_run_id : str) (db : Db) : Z :=
  foldr (fun e => Z.max (TaskEvent.sequence e)) (-1) (events_of task_run_id db) + 1.
(** [ORDER BY sequence DESC LIMIT 1] *)
Definition latest (l : list TaskEvent.t) : option TaskEvent.t :=
  foldr (fun e best =>
    match best with
    | Some b => if TaskEvent.sequence b <? TaskEvent.sequence e then Some e else Some b
    | None => Some e
    end) None l.

Definition insert_event (row : TaskEvent.t) : tx unit := fun db =>
  match Db.task_runs db !! TaskEvent.task_run_id row with
  | None => (Err foreign_key_failed, db)
  | Some _ => (Ok tt, Db.with_events (Db.task_events db ++ [row]) db)
  end.
End Events.

(** An instance: documents in the prefix code, times as their number. *)
Module PlainStore.
Import IntegerJson.
#[export] Instance store : StoreLib := {|
  store_text := PrefixText.text;
  store_order := KeyOrder.order;
  struct_to_string fields := PrefixText.write (Value.Object (obj_from fields));
  rfc3339_millis n := Some (show_int n ++ lit "Z");
  parse_from_rfc3339 _ := true;
  |}.
End PlainStore.
