(* ===== verification/TaskRepository.v ===== *)
(** * Tasks: the repository and its runtime adapters

    [tasks/adapters.rs] and [tasks/repository.rs]: one record per run of a
    taskflow, a workflow, an agent or a queued message, kept in line with the
    table of the runtime that owns it.  Every statement is one node of a
    program; SQLite's errors are strings. *)
From S2P Require Import Prelude.
From S2P Require Import RustStr.
From S2P Require Import P0Contracts.
From S2P Require Import RustHash.
From S2P Require Import JsonValue.
From S2P Require Import Program.
From S2P Require Import TaskStore.
From stdpp Require Import sorting.
Local Open Scope Z_scope.

(** ** [tasks/adapters.rs] *)
Section Adapters.
Context `{S : StoreLib} {Req Ans : Type}.
Notation io A := (io Db Req Ans str A).

Definition canonical_state (state : str) : TaskState :=
  let s := to_ascii_lowercase state in
  if in_list s ["queued"; "pending"] then Queued
  else if in_list s ["planning"] then Planning
  else if in_list s ["awaitingapproval"; "awaiting_approval"; "secure_pause"]
  then AwaitingApproval
  else if in_list s ["running"; "active"; "processing"] then Running
  else if in_list s ["paused"; "diagnostic"; "halted"] then Blocked
  else if in_list s ["completed"; "verified"] then Completed
  else if in_list s ["cancelled"] then Cancelled
  else Failed.

(** The row of the owning runtime: its status and its error. *)
Definition runtime_row (runtime : RuntimeKind.t) (id : str) (db : Db)
  : option (str * option str) :=
  match runtime with
  | RuntimeKind.taskflow =>
      row ← Db.taskflows db !! id; Some (Taskflow.status row, None)
  | RuntimeKind.workflow =>
      row ← Db.execution_instances db !! id;
      Some (ExecutionRow.status row, ExecutionRow.error_json row)
  | RuntimeKind.agent =>
      row ← Db.agent_executions db !! id;
      Some (AgentExecution.status row,
            if in_list (AgentExecution.status row) ["failed"; "halted"]
            then last (AgentExecution.logs row) else None)
  | RuntimeKind.queued_message =>
      row ← Db.message_queue db !! id;
      Some (QueuedMessage.status row, QueuedMessage.error_message row)
  end.

Definition runtime_state (runtime : RuntimeKind.t) (id : str)
  : io (option (TaskState * option str)) :=
  value ← sql (select (runtime_row runtime id));
  mret (option_map (fun '(state, error) => (canonical_state state, error)) value).

Definition set_taskflow (status : str) (now : Z) (row : Taskflow.t) : Taskflow.t :=
  Taskflow.mk (Taskflow.parent_session_id row) status (Taskflow.directive row)
    (Taskflow.created_at_ms row) now (Taskflow.steps row).
Definition update_taskflow (id : str) (cond : Taskflow.t -> bool)
    (set : Taskflow.t -> Taskflow.t) : tx Z :=
  change (fun db =>
    let '(n, m) := update_one (Db.taskflows db) id cond set in (n, Db.with_taskflows m db)).
(** [UPDATE taskflow_steps SET status='cancelled'
    WHERE flow_id=?1 AND status IN ('queued','active')] *)
Definition cancel_steps (id : str) : tx Z :=
  update_taskflow id (fun _ => true) (fun row =>
    Taskflow.mk (Taskflow.parent_session_id row) (Taskflow.status row)
      (Taskflow.directive row) (Taskflow.created_at_ms row) (Taskflow.updated_at_ms row)
      (map (fun s => if in_list s ["queued"; "active"] then lit "cancelled" else s)
         (Taskflow.steps row))).

Definition update_agent (id : str) (cond : AgentExecution.t -> bool) (status : str)
    (now : Z) : tx Z :=
  change (fun db =>
    let '(n, m) := update_one (Db.agent_executions db) id cond (fun row =>
      AgentExecution.mk (AgentExecution.project_id row) (AgentExecution.session_id row)
        (AgentExecution.agent_id row) status (AgentExecution.logs row)
        (AgentExecution.created_at_ms row) now) in
    (n, Db.with_agents m db)).

Definition update_message (id : str) (cond : QueuedMessage.t -> bool) (status : str)
    (error : option str) (now : Z) : tx Z :=
  change (fun db =>
    let '(n, m) := update_one (Db.message_queue db) id cond (fun row =>
      QueuedMessage.mk (QueuedMessage.project_id row) status (QueuedMessage.message row)
        error (QueuedMessage.created_at_ms row) now) in
    (n, Db.with_messages m db)).

Definition adapters_cancel (runtime : RuntimeKind.t) (id : str) : io unit :=
  changed ←
    match runtime with
    | RuntimeKind.taskflow =>
        _ ← sql (cancel_steps id);
        now ← unix_time_ms_i64;
        sql (update_taskflow id
               (fun row => negb (in_list (Taskflow.status row) ["verified"; "cancelled"]))
               (set_taskflow (lit "cancelled") now))
    | RuntimeKind.agent =>
        now ← unix_time_ms_i64;
        sql (update_agent id
               (fun row => in_list (AgentExecution.status row) ["running"; "halted"])
               (lit "cancelled") now)
    | RuntimeKind.queued_message =>
        now ← unix_time_ms_i64;
        sql (update_message id (fun row => equals (QueuedMessage.status row) "queued")
               (lit "cancelled") (Some (lit "Cancelled by user.")) now)
    | RuntimeKind.workflow =>
        throw (lit "This runtime does not support cancellation at its current safe boundary.")
    end;
  lift (guard_not (changed =? 0) (lit "The owning runtime rejected cancellation.")).

Definition adapters_resume (runtime : RuntimeKind.t) (id : str) : io unit :=
  now ← unix_time_ms_i64;
  changed ←
    match runtime with
    | RuntimeKind.taskflow =>
        sql (update_taskflow id
               (fun row => in_list (Taskflow.status row) ["paused"; "diagnostic"])
               (set_taskflow (lit "queued") now))
    | RuntimeKind.workflow =>
        sql (update_instance id (fun row => equals (ExecutionRow.status row) "Paused")
               (fun row => set_instance_status (lit "Pending")
                  (ExecutionRow.active_node_id row) (ExecutionRow.error_json row) now
                  (ExecutionRow.completed_at_ms row) row))
    | _ => throw (lit "This runtime does not support resume.")
    end;
  lift (guard_not (changed =? 0) (lit "The owning runtime rejected resume.")).

Definition adapters_retry (runtime : RuntimeKind.t) (id : str) : io unit :=
  now ← unix_time_ms_i64;
  changed ←
    match runtime with
    | RuntimeKind.taskflow =>
        sql (update_taskflow id
               (fun row => in_list (Taskflow.status row) ["failed"; "diagnostic"])
               (set_taskflow (lit "queued") now))
    | RuntimeKind.workflow =>
        sql (update_instance id (fun row => equals (ExecutionRow.status row) "Failed")
               (fun row => set_instance_status (lit "Pending") None None now
                  (ExecutionRow.completed_at_ms row) row))
    | RuntimeKind.queued_message =>
        sql (update_message id
               (fun row => in_list (QueuedMessage.status row) ["failed"; "cancelled"])
               (lit "queued") None now)
    | RuntimeKind.agent => throw (lit "This runtime cannot safely reconstruct a retry.")
    end;
  lift (guard_not (changed =? 0) (lit "The owning runtime rejected retry.")).
End Adapters.

(** ** Records, as [TASK_SELECT] returns them *)
Module TaskRunRecord.
Record t : Type := mk {
  task_run_id : str;
  row : TaskRun.t;
  effect_verification_required : bool;
  valid_controls : list str;
}.
End TaskRunRecord.

Module TaskFilter.
Record t : Type := mk {
  project_id : option str;
  state : option TaskState;
  origin : option str;
  runtime_kind : option str;
  from_ms : option Z;
  to_ms : option Z;
}.
Definition all : t := mk None None None None None None.
End TaskFilter.

Module TaskRecoveryReport.
Record t : Type := mk { inspected : Z; reconciled : Z; lost : Z; runtime_unavailable : Z }.
End TaskRecoveryReport.

(** The rows each [ingest] query selects. *)
Module RuntimeRow.
Record t : Type := mk {
  id : str; project : option str; raw_state : str; summary : str;
  error : option str; created : Z; updated : Z;
}.
End RuntimeRow.

Definition controls (state : TaskState) (runtime : RuntimeKind.t)
    (effect_verification_required has_unverified_effects : bool) : list str :=
  if effect_verification_required
     && bool_decide (state = Blocked \/ state = Failed) then []
  else match state, runtime with
  | Queued, (RuntimeKind.taskflow | RuntimeKind.agent | RuntimeKind.queued_message)
  | (Planning | AwaitingApproval | Running), (RuntimeKind.taskflow | RuntimeKind.agent) =>
      [lit "cancel"]
  | Blocked, RuntimeKind.taskflow => [lit "resume"; lit "cancel"]
  | Blocked, RuntimeKind.workflow => [lit "resume"]
  | Blocked, RuntimeKind.agent => [lit "resume"; lit "cancel"]
  | Failed, _ =>
      if has_unverified_effects then [lit "acknowledge_failure"]
      else match runtime with
           | RuntimeKind.taskflow | RuntimeKind.workflow | RuntimeKind.queued_message =>
               [lit "retry"; lit "acknowledge_failure"]
           | RuntimeKind.agent => [lit "acknowledge_failure"]
           end
  | _, _ => []
  end.

Definition terminal (state : TaskState) : bool :=
  bool_decide (state = Completed \/ state = Failed \/ state = Cancelled).

Section Repository.
Context `{S : StoreLib} {Req Ans : Type}.
Notation io A := (io Db Req Ans str A).

(** The two [EXISTS] columns of [TASK_SELECT]. *)
Definition effect_of_event (task_run_id : str) (db : Db) (required : TaskEvent.t)
  : option (str * TaskEffect.t) :=
  match extract ["payload"; "idempotencyKey"]%string required with
  | Some (Value.String key) =>
      effect ← Db.task_effects db !! (task_run_id, key);
      if extract_is ["payload"; "effectKind"]%string (TaskEffect.effect_kind effect) required
      then Some (key, effect) else None
  | _ => None
  end.
Definition same_node (resolved required : TaskEvent.t) : bool :=
  match extract ["payload"; "nodeId"]%string resolved,
        extract ["payload"; "nodeId"]%string required with
  | Some a, Some b => bool_decide (a = b)
  | _, _ => false
  end.
Definition effect_verification_required (task_run_id : str) (db : Db) : bool :=
  let events := events_of task_run_id db in
  existsb (fun required =>
    match effect_of_event task_run_id db required with
    | None => false
    | Some (key, effect) =>
        bool_decide (TaskEffect.state effect = EffectState.executed)
        && has_event_type "workflow.effect.verification_required" required
        && negb (existsb (fun resolved =>
             (TaskEvent.sequence required <? TaskEvent.sequence resolved)
             && has_event_type "workflow.effect.verification_resolved" resolved
             && extract_is ["payload"; "idempotencyKey"]%string key resolved
             && extract_is ["payload"; "effectKind"]%string
                  (TaskEffect.effect_kind effect) resolved
             && same_node resolved required) events)
    end) events.
Definition has_unverified_effects (task_run_id : str) (db : Db) : bool :=
  existsb (fun '((run, _), effect) =>
    str_eqb run task_run_id
    && negb (bool_decide (TaskEffect.state effect = EffectState.verified)))
    (map_to_list (Db.task_effects db)).

Definition task_from_row (db : Db) (task_run_id : str) (row : TaskRun.t) : TaskRunRecord.t :=
  let required := effect_verification_required task_run_id db in
  TaskRunRecord.mk task_run_id row required
    (controls (TaskRun.state row) (TaskRun.runtime_kind row) required
       (has_unverified_effects task_run_id db)).

Definition unresolved_effect_verification_exists (task_run_id : str) : io bool :=
  found ← sql (select (fun db =>
    option_map (fun _ => effect_verification_required task_run_id db)
      (Db.task_runs db !! task_run_id)));
  lift (ok_or (lit "Query returned no rows") found).

Definition newest_first (a b : TaskRunRecord.t) : Prop :=
  TaskRun.updated_at_ms (TaskRunRecord.row b) <= TaskRun.updated_at_ms (TaskRunRecord.row a).
#[export] Instance newest_first_dec a b : Decision (newest_first a b).
Proof. unfold newest_first. apply _. Defined.

(** [TASK_SELECT ORDER BY updated_at_ms DESC LIMIT 500] *)
Definition select_newest (db : Db) : list TaskRunRecord.t :=
  take 500 (merge_sort newest_first
    (map (fun '(id, row) => task_from_row db id row) (map_iter (Db.task_runs db)))).

Definition allows {A} (o : option A) (f : A -> bool) : bool :=
  match o with Some a => f a | None => true end.

Definition list_tasks (filter : TaskFilter.t) : io (list TaskRunRecord.t) :=
  project ← lift (match TaskFilter.project_id filter with
                  | Some p => id ← id_parse KProject p; Ok (Some (P0Contracts.as_str id))
                  | None => Ok None
                  end);
  rows ← sql (select select_newest);
  mret (List.filter (fun task =>
    let row := TaskRunRecord.row task in
    allows project (fun value => bool_decide (TaskRun.project_id row = Some value))
    && allows (TaskFilter.state filter) (fun value => bool_decide (TaskRun.state row = value))
    && allows (TaskFilter.origin filter) (str_eqb (TaskRun.origin row))
    && allows (TaskFilter.runtime_kind filter)
         (str_eqb (RuntimeKind.text (TaskRun.runtime_kind row)))
    && allows (TaskFilter.from_ms filter) (fun value => value <=? TaskRun.created_at_ms row)
    && allows (TaskFilter.to_ms filter) (fun value => TaskRun.created_at_ms row <=? value))
    rows).

Definition get_task (raw_id : str) : io TaskRunRecord.t :=
  id ← lift (id_parse KTaskRun raw_id);
  let id := P0Contracts.as_str id in
  row ← sql (select (fun db =>
    option_map (task_from_row db id) (Db.task_runs db !! id)));
  lift (ok_or (lit "Task run was not found.") row).

(** ** Events *)
(** The clock is read twice: for the envelope and for the row. *)
Definition append_event_in_transaction (event_ms row_ms : Z) (task : TaskRunRecord.t)
    (event_type : str) (evidence : EvidenceClass) (payload : Value) : tx (option Z) :=
  let row := TaskRunRecord.row task in
  match TaskRun.project_id row with
  | None => mret None
  | Some project_id =>
      sequence ← select (next_sequence (TaskRunRecord.task_run_id task));
      timestamp ← tx_lift (ok_or (lit "Invalid task event time.") (rfc3339_millis event_ms));
      project_id ← tx_lift (id_parse KProject project_id);
      task_id ← tx_lift (id_parse KTask (TaskRun.task_id row));
      task_run_id ← tx_lift (id_parse KTaskRun (TaskRunRecord.task_run_id task));
      let event := {|
        schema_version := P0_CONTRACT_VERSION;
        P0Contracts.event_type := event_type;
        P0Contracts.project_id := project_id;
        P0Contracts.task_id := task_id;
        P0Contracts.task_run_id := Some task_run_id;
        P0Contracts.correlation_id := TaskRun.correlation_id row;
        P0Contracts.sequence := sequence;
        P0Contracts.timestamp := timestamp;
        evidence_class := evidence;
        P0Contracts.payload := payload |} in
      _ ← insert_event (TaskEvent.mk (TaskRunRecord.task_run_id task) sequence
                          (struct_to_string (event_fields event)) row_ms);
      mret (Some sequence)
  end.

Definition append_event_with_sequence (task : TaskRunRecord.t) (event_type : str)
    (evidence : EvidenceClass) (payload : Value) : io (option Z) :=
  match TaskRun.project_id (TaskRunRecord.row task) with
  | None => mret None
  | Some _ =>
      event_ms ← unix_time_ms_i64;
      row_ms ← unix_time_ms_i64;
      sql (transaction (append_event_in_transaction event_ms row_ms task event_type evidence payload))
  end.

Definition append_event (task : TaskRunRecord.t) (event_type : str)
    (evidence : EvidenceClass) (payload : Value) : io unit :=
  _ ← append_event_with_sequence task event_type evidence payload; mret tt.

Definition record_domain_event (task_run_id event_type : str) (evidence : EvidenceClass)
    (payload : Value) : io unit :=
  task ← get_task task_run_id; append_event task event_type evidence payload.

Definition record_domain_event_with_sequence (task_run_id event_type : str)
    (evidence : EvidenceClass) (payload : Value) : io Z :=
  task ← get_task task_run_id;
  sequence ← append_event_with_sequence task event_type evidence payload;
  lift (ok_or (lit "Task event requires a Project binding.") sequence).

Definition require_bound_task (task_run_id project_id : str) : io TaskRunRecord.t :=
  task ← get_task task_run_id;
  if bool_decide (TaskRun.project_id (TaskRunRecord.row task) = Some project_id)
  then mret task
  else throw (lit "Task is not bound to the requested Project.").

(** ** Keeping the records in line with their runtimes *)
Definition bound_run (runtime : RuntimeKind.t) (id : str) (db : Db)
  : option (str * TaskRun.t) :=
  find (fun '(_, row) =>
    bool_decide (TaskRun.runtime_kind row = runtime)
    && str_eqb (TaskRun.runtime_record_id row) id) (map_to_list (Db.task_runs db)).

(** [INSERT INTO task_runs ..], under its primary key and
    [UNIQUE(runtime_kind, runtime_record_id)]. *)
Definition insert_run (run_id : str) (row : TaskRun.t) : tx unit := fun db =>
  match Db.task_runs db !! run_id,
        bound_run (TaskRun.runtime_kind row) (TaskRun.runtime_record_id row) db with
  | None, None => (Ok tt, Db.with_runs (<[run_id := row]> (Db.task_runs db)) db)
  | _, _ => (Err (lit "UNIQUE constraint failed"), db)
  end.

Definition or_else {A} (o p : option A) : option A :=
  match o with Some _ => o | None => p end.

Definition upsert_runtime (runtime : RuntimeKind.t) (id : str) (project : option str)
    (state : TaskState) (origin summary : str) (error : option str) (created updated : Z)
  : io bool :=
  existing ← sql (select (fun db => option_map fst (bound_run runtime id db)));
  match existing with
  | Some run_id =>
      unresolved ← unresolved_effect_verification_exists run_id;
      if (unresolved : bool) then
        _ ← sql (update_run run_id (fun _ => true) (fun row =>
              set_run (or_else project (TaskRun.project_id row)) (TaskRun.state row) summary
                (TaskRun.last_error row) (Z.max (TaskRun.updated_at_ms row) updated)
                (TaskRun.completed_at_ms row) (TaskRun.recovery_state row) row));
        mret false
      else
        _ ← sql (update_run run_id (fun _ => true) (fun row =>
              set_run (or_else project (TaskRun.project_id row)) state summary error updated
                (if terminal state
                 then or_else (TaskRun.completed_at_ms row) (Some updated) else None)
                RecoveryState.reconciled row));
        mret false
  | None =>
      task_bytes ← random_bytes;
      run_bytes ← random_bytes;
      let task_id := P0Contracts.as_str (id_new KTask task_bytes) in
      let run_id := P0Contracts.as_str (id_new KTaskRun run_bytes) in
      _ ← sql (insert_run run_id
            (TaskRun.mk task_id project runtime id state origin task_id summary error
               created updated (if terminal state then Some updated else None) None
               RecoveryState.reconciled));
      mret true
  end.

Definition taskflow_rows (db : Db) : list RuntimeRow.t :=
  map (fun '(id, row) =>
    RuntimeRow.mk id (mjoin (Db.chat_sessions db !! Taskflow.parent_session_id row))
      (Taskflow.status row) (Taskflow.directive row) None (Taskflow.created_at_ms row)
      (Taskflow.updated_at_ms row)) (map_iter (Db.taskflows db)).
Definition workflow_rows (db : Db) : list RuntimeRow.t :=
  map (fun '(id, row) =>
    RuntimeRow.mk id (ExecutionRow.project_id row) (ExecutionRow.status row)
      (lit "Workflow run " ++ ExecutionRow.workflow_id row) (ExecutionRow.error_json row)
      (ExecutionRow.created_at_ms row) (ExecutionRow.updated_at_ms row))
    (map_iter (Db.execution_instances db)).
Definition agent_rows (db : Db) : list RuntimeRow.t :=
  map (fun '(id, row) =>
    RuntimeRow.mk id (AgentExecution.project_id row) (AgentExecution.status row)
      (lit "Agent execution " ++ AgentExecution.agent_id row) None
      (AgentExecution.created_at_ms row) (AgentExecution.updated_at_ms row))
    (map_iter (Db.agent_executions db)).
Definition message_rows (db : Db) : list RuntimeRow.t :=
  map (fun '(id, row) =>
    RuntimeRow.mk id (QueuedMessage.project_id row) (QueuedMessage.status row)
      (take 240 (QueuedMessage.message row)) (QueuedMessage.error_message row)
      (QueuedMessage.created_at_ms row) (QueuedMessage.updated_at_ms row))
    (map_iter (Db.message_queue db)).

(** The closure [ingest]: how many rows it inspected and how many it inserted. *)
Definition ingest (rows : Db -> list RuntimeRow.t) (runtime : RuntimeKind.t) (origin : str)
    (counts : Z * Z) : io (Z * Z) :=
  found ← sql (select rows);
  io_for_fold (fun counts row =>
    let '(inspected, reconciled) := counts in
    inserted ← upsert_runtime runtime (RuntimeRow.id row) (RuntimeRow.project row)
      (canonical_state (RuntimeRow.raw_state row)) origin (RuntimeRow.summary row)
      (RuntimeRow.error row) (RuntimeRow.created row) (RuntimeRow.updated row);
    mret (inspected + 1, if (inserted : bool) then reconciled + 1 else reconciled))
    counts found.

Definition task_state_value (state : TaskState) : Value := Value.String (task_state_text state).
Definition runtime_value (runtime : RuntimeKind.t) : Value := Value.String (RuntimeKind.text runtime).

Definition register_task (task : TaskRunRecord.t) : io unit :=
  let row := TaskRunRecord.row task in
  event_count ← sql (select (fun db =>
    Z.of_nat (length (events_of (TaskRunRecord.task_run_id task) db))));
  if event_count =? 0 then
    append_event task (lit "task.registered") ObservedResult
      (json_obj [("state", task_state_value (TaskRun.state row));
                 ("runtime", runtime_value (TaskRun.runtime_kind row));
                 ("origin", Value.String (TaskRun.origin row))])
  else mret tt.

(** One turn of the loop over the tasks that are not terminal; [lost] counts. *)
Definition reconcile_task (lost : Z) (task : TaskRunRecord.t) : io Z :=
  let row := TaskRunRecord.row task in
  let task_run_id := TaskRunRecord.task_run_id task in
  if TaskRunRecord.effect_verification_required task then mret lost
  else
    owner ← runtime_state (TaskRun.runtime_kind row) (TaskRun.runtime_record_id row);
    match owner with
    | Some (state, error) =>
        now ← unix_time_ms_i64;
        _ ← sql (update_run task_run_id (fun _ => true) (fun r =>
              set_run (TaskRun.project_id r) state (TaskRun.summary r) error now
                (TaskRun.completed_at_ms r) RecoveryState.reconciled r));
        if bool_decide (state = TaskRun.state row) then mret lost
        else
          updated ← get_task task_run_id;
          _ ← append_event updated (lit "task.reconciled") ObservedResult
            (json_obj [("previousState", task_state_value (TaskRun.state row));
                       ("state", task_state_value (TaskRun.state (TaskRunRecord.row updated)));
                       ("runtime", runtime_value (TaskRun.runtime_kind (TaskRunRecord.row updated)))]);
          mret lost
    | None =>
        now ← unix_time_ms_i64;
        _ ← sql (update_run task_run_id (fun _ => true) (fun r =>
              set_run (TaskRun.project_id r) Failed (TaskRun.summary r)
                (Some (lit "Owning runtime record is missing.")) now
                (TaskRun.completed_at_ms r) RecoveryState.lost r));
        updated ← get_task task_run_id;
        _ ← append_event updated (lit "task.recovery_failed") ObservedResult
          (json_obj [("previousState", task_state_value (TaskRun.state row));
                     ("state", task_state_value (TaskRun.state (TaskRunRecord.row updated)));
                     ("recoveryState", json_str "lost")]);
        mret (lost + 1)
    end.

(** [DELETE FROM task_runs WHERE state IN ('completed','cancelled') AND
    completed_at_ms < ?1 AND task_run_id NOT IN (SELECT task_run_id FROM task_effects)],
    with its cascade. *)
Definition has_effects (task_run_id : str) (db : Db) : bool :=
  existsb (fun '((run, _), _) => str_eqb run task_run_id) (map_to_list (Db.task_effects db)).
Definition expired (cutoff : Z) (db : Db) (task_run_id : str) (row : TaskRun.t) : bool :=
  bool_decide (TaskRun.state row = Completed \/ TaskRun.state row = Cancelled)
  && match TaskRun.completed_at_ms row with Some at_ms => at_ms <? cutoff | None => false end
  && negb (has_effects task_run_id db).
Definition is_deleted (cutoff : Z) (db : Db) (task_run_id : str) : bool :=
  match Db.task_runs db !! task_run_id with
  | Some row => expired cutoff db task_run_id row
  | None => false
  end.
Definition delete_expired (cutoff : Z) : tx unit := fun db =>
  (Ok tt,
   Db.with_effects (filter (fun '((run, _), _) => is_deleted cutoff db run = false) (Db.task_effects db))
     (Db.with_events
        (List.filter (fun e => negb (is_deleted cutoff db (TaskEvent.task_run_id e)))
           (Db.task_events db))
        (Db.with_runs (filter (fun '(id, _) => is_deleted cutoff db id = false) (Db.task_runs db)) db))).

Definition reconcile_all : io TaskRecoveryReport.t :=
  counts ← ingest taskflow_rows RuntimeKind.taskflow (lit "taskflow") (0, 0);
  counts ← ingest workflow_rows RuntimeKind.workflow (lit "workflow") counts;
  counts ← ingest agent_rows RuntimeKind.agent (lit "agent") counts;
  counts ← ingest message_rows RuntimeKind.queued_message (lit "chat_queue") counts;
  all_tasks ← list_tasks TaskFilter.all;
  _ ← io_for_each register_task all_tasks;
  lost ← io_for_fold reconcile_task 0
    (List.filter (fun task => negb (terminal (TaskRun.state (TaskRunRecord.row task)))) all_tasks);
  now ← unix_time_ms_i64;
  _ ← sql (delete_expired (now - 90 * 24 * 60 * 60 * 1000));
  mret (TaskRecoveryReport.mk counts.1 counts.2 lost 0).

(** ** Controls *)
Definition unverified_effects (task_run_id : str) (db : Db) : Z :=
  Z.of_nat (length (List.filter (fun '((run, _), effect) =>
    str_eqb run task_run_id
    && negb (bool_decide (TaskEffect.state effect = EffectState.verified)))
    (map_to_list (Db.task_effects db)))).

Definition apply_control (action : str) (before : TaskRunRecord.t) : io unit :=
  let row := TaskRunRecord.row before in
  let runtime := TaskRun.runtime_kind row in
  let id := TaskRun.runtime_record_id row in
  if equals action "cancel"
     && bool_decide (TaskRun.state row ∈ [Queued; Planning; AwaitingApproval; Running; Blocked])
  then adapters_cancel runtime id
  else if equals action "resume" && bool_decide (TaskRun.state row = Blocked)
  then adapters_resume runtime id
  else if equals action "retry" && bool_decide (TaskRun.state row = Failed)
  then
    unverified ← sql (select (unverified_effects (TaskRunRecord.task_run_id before)));
    if 0 <? unverified
    then throw (lit "Retry is blocked until every prior effect has a verified postcondition.")
    else adapters_retry runtime id
  else throw (lit "Unsupported task transition.").

(** [durable] is the outcome of [require_durable_store]. *)
Definition control (durable : res str unit) (raw_id action : str) : io TaskRunRecord.t :=
  _ ← lift durable;
  before ← get_task raw_id;
  _ ← apply_control action before;
  _ ← reconcile_all;
  after ← get_task raw_id;
  _ ← append_event after (lit "task." ++ action) ExecutedMutation
        (json_obj [("previousState", task_state_value (TaskRun.state (TaskRunRecord.row before)));
                   ("state", task_state_value (TaskRun.state (TaskRunRecord.row after)));
                   ("runtime", runtime_value (TaskRun.runtime_kind (TaskRunRecord.row after)))]);
  mret after.

Definition cancel durable (id : str) : io TaskRunRecord.t := control durable id (lit "cancel").
Definition resume durable (id : str) : io TaskRunRecord.t := control durable id (lit "resume").
Definition retry durable (id : str) : io TaskRunRecord.t := control durable id (lit "retry").

Definition acknowledge (id : str) : io TaskRunRecord.t :=
  task ← get_task id;
  if negb (bool_decide (TaskRun.state (TaskRunRecord.row task) = Failed))
  then throw (lit "Only failed work can be acknowledged.")
  else
    now ← unix_time_ms_i64;
    _ ← sql (update_run (TaskRunRecord.task_run_id task) (fun _ => true) (fun r =>
          TaskRun.mk (TaskRun.task_id r) (TaskRun.project_id r) (TaskRun.runtime_kind r)
            (TaskRun.runtime_record_id r) (TaskRun.state r) (TaskRun.origin r)
            (TaskRun.correlation_id r) (TaskRun.summary r) (TaskRun.last_error r)
            (TaskRun.created_at_ms r) (TaskRun.updated_at_ms r) (TaskRun.completed_at_ms r)
            (Some now) (TaskRun.recovery_state r)));
    get_task id.

(** The task an execution belongs to.  An agent's own table may still have to be
    bound to the internal project, whose identifier is an argument. *)
Definition set_project (project : str) (now : Z) (r : TaskRun.t) : TaskRun.t :=
  set_run (Some project) (TaskRun.state r) (TaskRun.summary r) (TaskRun.last_error r) now
    (TaskRun.completed_at_ms r) (TaskRun.recovery_state r) r.
Definition agent_binding (execution_id : str) (db : Db) : option (str * option str) :=
  '(task_run_id, row) ← bound_run RuntimeKind.agent execution_id db;
  agent ← Db.agent_executions db !! execution_id;
  session_project ← Db.chat_sessions db !! AgentExecution.session_id agent;
  Some (task_run_id,
        or_else (AgentExecution.project_id agent)
          (or_else session_project (TaskRun.project_id row))).
Definition bind_agent_project (execution_id project : str) (now : Z) : tx Z :=
  change (fun db =>
    let '(n, m) := update_one (Db.agent_executions db) execution_id
      (fun a => bool_decide (AgentExecution.project_id a = None))
      (fun a => AgentExecution.mk (Some project) (AgentExecution.session_id a)
         (AgentExecution.agent_id a) (AgentExecution.status a) (AgentExecution.logs a)
         (AgentExecution.created_at_ms a) now) in
    (n, Db.with_agents m db)).

Definition require_agent_runtime_task (ensure_internal_project : tx str) (execution_id : str)
  : io TaskRunRecord.t :=
  _ ← reconcile_all;
  let id := trim execution_id in
  workflow_binding ← sql (select (fun db =>
    option_map (fun '(run, row) => (run, TaskRun.project_id row))
      (bound_run RuntimeKind.workflow id db)));
  match workflow_binding with
  | Some (task_run_id, project_id) =>
      project_id ← lift (ok_or (lit "Scheduled Workflow Task requires a Project binding.") project_id);
      _ ← lift (id_parse KProject project_id);
      task ← get_task task_run_id;
      if bool_decide (TaskRun.project_id (TaskRunRecord.row task) = Some project_id)
      then mret task
      else throw (lit "Scheduled Workflow Task Project binding changed.")
  | None =>
      binding ← sql (select (agent_binding id));
      '(task_run_id, project_id) ← lift (ok_or (lit "connector_agent_task_not_found") binding);
      project_id ←
        match project_id with
        | Some value => p ← lift (id_parse KProject value); mret (P0Contracts.as_str p)
        | None =>
            project_id ← sql ensure_internal_project;
            now ← unix_time_ms_i64;
            _ ← sql (bind_agent_project id project_id now);
            mret project_id
        end;
      now ← unix_time_ms_i64;
      _ ← sql (update_run task_run_id
            (fun r => match TaskRun.project_id r with
                      | None => true
                      | Some p => str_eqb p project_id
                      end) (set_project project_id now));
      task ← get_task task_run_id;
      if bool_decide (TaskRun.project_id (TaskRunRecord.row task) = Some project_id)
      then mret task
      else throw (lit "connector_task_binding_mismatch")
  end.
End Repository.

(** ** The commands on effects *)
Module TaskEffectRequest.
Record t : Type := mk {
  task_run_id : str; idempotency_key : str; effect_kind : str; result_digest : option str;
}.
End TaskEffectRequest.

Section EffectCommands.
Context {Req Ans : Type}.
Notation io A := (io Db Req Ans str A).
Implicit Types request : TaskEffectRequest.t.

Definition reserve_task_effect request : io bool :=
  id ← lift (id_parse KTaskRun (TaskEffectRequest.task_run_id request));
  if is_empty (trim (TaskEffectRequest.idempotency_key request))
     || is_empty (trim (TaskEffectRequest.effect_kind request))
  then throw (lit "Effect identity is required.")
  else
    now ← unix_time_ms_i64;
    changed ← sql (insert_effect (P0Contracts.as_str id)
      (TaskEffectRequest.idempotency_key request) (TaskEffectRequest.effect_kind request) now);
    mret (changed =? 1).

Definition verify_task_effect request : io unit :=
  digest ← lift (ok_or (lit "Verified effect requires a result digest.")
    (match TaskEffectRequest.result_digest request with
     | Some value => if 16 <=? str_len value then Some value else None
     | None => None
     end));
  now ← unix_time_ms_i64;
  changed ← sql (update_effect (TaskEffectRequest.task_run_id request)
    (TaskEffectRequest.idempotency_key request)
    (fun row => bool_decide (TaskEffect.state row ∈ [EffectState.reserved; EffectState.executed]))
    (set_effect EffectState.verified (Some digest) now));
  lift (guard_not (changed =? 0) (lit "Effect reservation was not found.")).
End EffectCommands.
