(* ===== verification/TaskTools.v ===== *)
(** * Native task tools: the registry and its errors

    [tools/task_tool_error.rs], the registry of [tools/task_tool_runtime.rs] and
    the error and result handling of [workflow_runtime/task_tools.rs].  A tool is
    an entry of the registry: its functions are the fields of the entry.  A tool
    reports what it changed through [changedState]; everything the engine later
    treats as "nothing happened, may be tried again" goes through here. *)
From S2P Require Import Prelude.
From S2P Require Import RustStr.
From S2P Require Import RustHash.
From S2P Require Import JsonValue.
From S2P Require Import Program.
From S2P Require Import TaskStore.
Local Open Scope Z_scope.

(** [char::is_control]: the category Cc. *)
Definition is_control (c : char) : bool := in_range 0 31 c || in_range 127 159 c.

(** ** [workflow_runtime.rs]: the error type *)
Module WorkflowRuntimeError.
Record t : Type := mk {
  code : str; boundary : str; message : str; instance_id : option str;
}.
Definition new (code : string) (message : str) : t :=
  mk (lit code) (lit "workflow_runtime") message None.
Definition database (error : str) : t := new "workflow_runtime_database_failed" error.
Definition runtime (message : str) : t := new "workflow_runtime_worker_failed" message.
Definition execution (message : str) : t := new "workflow_runtime_execution_failed" message.
Definition serialization (error : str) : t :=
  new "workflow_runtime_serialization_failed" error.
Definition node_timeout (node_id label : str) (timeout_ms : Z) : t :=
  new "workflow_runtime_node_timeout"
    (lit "Node Execution Timed Out: node " ++ node_id ++ lit " (" ++ label
     ++ lit ") exceeded " ++ show_nat timeout_ms ++ lit "ms.").
End WorkflowRuntimeError.

(** ** [tools/task_tool_error.rs] *)
Module ChangedState.
Inductive t : Type := None | CheckpointSaved | ExternalChanges.
(** The serde name. *)
Definition text (s : t) : str :=
  match s with
  | None => lit "none" | CheckpointSaved => lit "checkpoint_saved"
  | ExternalChanges => lit "external_changes"
  end.
End ChangedState.
#[export] Instance ChangedState_eq_dec : EqDecision ChangedState.t.
Proof. solve_decision. Defined.

Module TaskToolAgentError.
Record t `{J : JsonLib} : Type := mk {
  code : str;
  boundary : str;
  message : str;
  context : list (str * Value);
  changed_state : ChangedState.t;
  changed_state_verified : bool;
}.
End TaskToolAgentError.

Definition MAX_CODE_CHARS : Z := 128.
Definition MAX_MESSAGE_CHARS : Z := 1000.
Definition MAX_CONTEXT_KEYS : nat := 32.
Definition MAX_CONTEXT_DEPTH : nat := 4.
Definition MAX_CONTEXT_STRING_CHARS : nat := 500.
Definition MAX_CONTEXT_ARRAY_ITEMS : nat := 32.

Definition valid_code (value : str) : bool :=
  let value := trim value in
  not_empty value && (chars_count value <=? MAX_CODE_CHARS)
  && forallb (fun byte => is_ascii_lowercase byte || is_ascii_digit byte || (byte =? 95))
       (as_bytes value).
Definition valid_boundary (value : str) : bool :=
  let value := trim value in
  not_empty value && (chars_count value <=? MAX_CODE_CHARS)
  && forallb (fun byte => is_ascii_alphanumeric byte || (byte =? 95) || (byte =? 45))
       (as_bytes value).
Definition valid_plain_message (value : str) : bool :=
  let value := trim value in
  not_empty value && (chars_count value <=? MAX_MESSAGE_CHARS)
  && negb (existsb (fun c => is_control c && negb (existsb (Z.eqb c) [10; 13; 9])) value)
  && negb (contains_char (ch "<") value) && negb (contains_char (ch ">") value).
Definition valid_context_key (value : str) : bool :=
  not_empty value && (str_len value <=? 64)
  && forallb (fun byte => is_ascii_alphanumeric byte || (byte =? 95)) (as_bytes value).

Section Errors.
Context `{J : JsonLib} {T : JsonText}.
Notation Fields := (list (str * Value)).
Notation AgentError := TaskToolAgentError.t.

Definition take_changed_state (context : Fields) : Fields * (ChangedState.t * bool) :=
  (obj_remove (lit "changedState") context,
   match obj_get (lit "changedState") context with
   | Some (Value.Bool false) => (ChangedState.None, true)
   | Some (Value.Bool true) => (ChangedState.ExternalChanges, true)
   | Some (Value.String value) =>
       if equals value "checkpoint_saved" then (ChangedState.CheckpointSaved, true)
       else if equals value "external_changes" then (ChangedState.ExternalChanges, true)
       else (ChangedState.None, false)
   | _ => (ChangedState.None, false)
   end).

(** [sanitize_value] at depth [d] is [sanitize_value (MAX_CONTEXT_DEPTH - d)]. *)
Fixpoint sanitize_value (levels : nat) (value : Value) : option Value :=
  match levels with
  | O => None
  | S levels =>
      match value with
      | Value.Null | Value.Bool _ | Value.Number _ => Some value
      | Value.String s => Some (Value.String (take MAX_CONTEXT_STRING_CHARS s))
      | Value.Array values =>
          Some (Value.Array (omap (sanitize_value levels) (take MAX_CONTEXT_ARRAY_ITEMS values)))
      | Value.Object fields =>
          Some (Value.Object
            (omap (fun kv => option_map (pair kv.1) (sanitize_value levels kv.2))
               (take MAX_CONTEXT_KEYS
                  (List.filter (fun kv => valid_context_key kv.1) fields))))
      end
  end.
Definition sanitize_context (context : Fields) : Fields :=
  omap (fun kv => option_map (pair kv.1) (sanitize_value MAX_CONTEXT_DEPTH kv.2))
    (take MAX_CONTEXT_KEYS (List.filter (fun kv => valid_context_key kv.1) context)).

(** A struct read from an object: no field but the named ones. *)
Definition only_fields (names : list string) (o : Fields) : bool :=
  forallb (fun kv => in_list kv.1 names) o.
Definition str_field (name : string) (o : Fields) : option str :=
  match obj_get (lit name) o with Some (Value.String s) => Some s | _ => None end.
Definition envelope (raw : str) : option Fields :=
  match from_str raw with
  | Some (Value.Object o) =>
      if only_fields ["taskToolError"] o
      then match obj_get (lit "taskToolError") o with
           | Some (Value.Object e) => Some e
           | _ => None
           end
      else None
  | _ => None
  end.

(** [serde_json::from_str::<TaskToolErrorEnvelope>]: code, message, context. *)
Definition read_raw (raw : str) : option (str * str * Fields) :=
  match envelope raw with
  | Some e =>
      if negb (only_fields ["code"; "message"; "context"] e) then None
      else match str_field "code" e, str_field "message" e,
                 obj_get (lit "context") e with
           | Some code, Some message, None => Some (code, message, [])
           | Some code, Some message, Some (Value.Object context) =>
               Some (code, message, context)
           | _, _, _ => None
           end
  | None => None
  end.

Definition fallback (code boundary message : str) : AgentError :=
  TaskToolAgentError.mk _ code boundary message [] ChangedState.None false.

Definition decode (raw fallback_code fallback_boundary fallback_message : str) : AgentError :=
  match read_raw raw with
  | None => fallback fallback_code fallback_boundary fallback_message
  | Some (code, message, context) =>
      if negb (valid_code code) || negb (valid_plain_message message)
      then fallback fallback_code fallback_boundary fallback_message
      else
        let '(context, (changed_state, verified)) :=
          take_changed_state (sanitize_context context) in
        TaskToolAgentError.mk _ code fallback_boundary (trim message) context
          changed_state verified
  end.

Definition encode_value (error : AgentError) : Value :=
  json_obj [("taskToolError"%string,
    json_obj [("code"%string, Value.String (TaskToolAgentError.code error));
              ("boundary"%string, Value.String (TaskToolAgentError.boundary error));
              ("message"%string, Value.String (TaskToolAgentError.message error));
              ("context"%string, Value.Object (TaskToolAgentError.context error));
              ("changedState"%string,
               Value.String (ChangedState.text (TaskToolAgentError.changed_state error)));
              ("changedStateVerified"%string,
               Value.Bool (TaskToolAgentError.changed_state_verified error))])].
Definition encode (error : AgentError) : str := to_string (encode_value error).

Definition read_changed_state (s : str) : option ChangedState.t :=
  if equals s "none" then Some ChangedState.None
  else if equals s "checkpoint_saved" then Some ChangedState.CheckpointSaved
  else if equals s "external_changes" then Some ChangedState.ExternalChanges
  else None.

(** [NormalizedTaskToolErrorEnvelope], then the checks of [decode_normalized]. *)
Definition decode_normalized (raw : str) : option AgentError :=
  match envelope raw with
  | None => None
  | Some e =>
      if negb (only_fields ["code"; "boundary"; "message"; "context"; "changedState";
                            "changedStateVerified"] e)
      then None
      else match str_field "code" e, str_field "boundary" e, str_field "message" e,
                 obj_get (lit "context") e, str_field "changedState" e,
                 obj_get (lit "changedStateVerified") e with
           | Some code, Some boundary, Some message, Some (Value.Object context),
             Some changed, Some (Value.Bool verified) =>
               if negb (valid_code code) || negb (valid_boundary boundary)
                  || negb (valid_plain_message message)
               then None
               else match read_changed_state changed with
                    | None => None
                    | Some changed_state =>
                        if negb verified && negb (bool_decide (changed_state = ChangedState.None))
                        then None
                        else Some (TaskToolAgentError.mk _ code boundary (trim message)
                                     (sanitize_context context) changed_state verified)
                    end
           | _, _, _, _, _, _ => None
           end
  end.
End Errors.

(** ** The registry *)
Module CommandStatus.
Inductive t : Type := Completed | Failed.
End CommandStatus.
(** The fields of [shield_gate::ExecuteCommandResponse] that are read here. *)
Module ExecuteCommandResponse.
Record t : Type := mk {
  operation : str; status : CommandStatus.t; message : str; verified : bool;
}.
End ExecuteCommandResponse.

Module TaskToolApprovalTier.
Inductive t : Type := Background | Visual | Explicit.
End TaskToolApprovalTier.
Module TaskToolMetadata.
Record t : Type := mk {
  description : str;
  approval_tier : TaskToolApprovalTier.t;
  agent_error_code : str;
  agent_error_boundary : str;
}.
End TaskToolMetadata.
Module TaskToolValidation.
Record t `{J : JsonLib} : Type := mk { arguments : Value; potentially_effectful : bool }.
End TaskToolValidation.
Module ValidatedTaskToolRequest.
Record t `{J : JsonLib} : Type := mk {
  operation : str; arguments : Value; potentially_effectful : bool;
}.
End ValidatedTaskToolRequest.

(** [D] is the database, which a tool's [resolve] may read. *)
Module TaskToolRegistration.
Record t `{J : JsonLib} {D : Type} : Type := mk {
  operation : str;
  validate : Value -> res str TaskToolValidation.t;
  validate_resolved : Value -> res str TaskToolValidation.t;
  resolve : D -> option str -> Value -> list ExecuteCommandResponse.t -> res str Value;
  metadata : TaskToolMetadata.t;
}.
Arguments t {J} D.
End TaskToolRegistration.

Section Registry.
Context `{J : JsonLib} {T : JsonText} {D : Type}.
Notation Registration := (TaskToolRegistration.t D).
Notation Registry := (gmap str Registration).
Implicit Types registry : Registry.
Notation AgentError := TaskToolAgentError.t.
Notation Request := ValidatedTaskToolRequest.t.

Definition register (registration : Registration) registry : res str Registry :=
  let operation := TaskToolRegistration.operation registration in
  if is_empty operation || (64 <? str_len operation)
     || negb (forallb (fun byte => is_ascii_lowercase byte || (byte =? 95)) (as_bytes operation))
  then Err (lit "task_tool_registration_name_invalid")
  else match registry !! operation with
       | Some _ => Err (lit "task_tool_registration_duplicate")
       | None => Ok (<[operation := registration]> registry)
       end.

Definition registration registry (operation : str) : res str Registration :=
  ok_or (lit "task_tool_not_registered") (registry !! operation).

Definition normalize_operation (value : str) : str :=
  to_ascii_lowercase (map (fun c => if c =? ch "-" then ch "_" else c) (trim value)).

Definition request_of (operation : str) (v : TaskToolValidation.t) : Request :=
  ValidatedTaskToolRequest.mk _ operation (TaskToolValidation.arguments v)
    (TaskToolValidation.potentially_effectful v).

Definition validate registry (operation : str) (arguments : Value) : res str Request :=
  r ← registration registry (normalize_operation operation);
  v ← TaskToolRegistration.validate r arguments;
  Ok (request_of (TaskToolRegistration.operation r) v).

Definition validate_if_registered registry (operation : str) (arguments : Value)
  : option (res str TaskToolValidation.t) :=
  match registration registry (normalize_operation operation) with
  | Ok r => Some (TaskToolRegistration.validate r arguments)
  | _ => None
  end.

Definition approval_tier registry (operation : str) : option TaskToolApprovalTier.t :=
  match registration registry (normalize_operation operation) with
  | Ok r => Some (TaskToolMetadata.approval_tier (TaskToolRegistration.metadata r))
  | _ => None
  end.
Definition requires_explicit_approval registry (operation : str) : bool :=
  match approval_tier registry operation with
  | Some TaskToolApprovalTier.Explicit => true
  | _ => false
  end.

Definition resolve registry (db : D) (execution_id : option str) (request : Request)
    (outputs : list ExecuteCommandResponse.t) : res str Request :=
  let operation := ValidatedTaskToolRequest.operation request in
  r ← registration registry operation;
  arguments ← TaskToolRegistration.resolve r db execution_id
                (ValidatedTaskToolRequest.arguments request) outputs;
  v ← TaskToolRegistration.validate_resolved r arguments;
  Ok (request_of operation v).

Definition normalize_agent_error registry (operation raw : str) : str :=
  encode
    (match registration registry operation with
     | Ok r =>
         let m := TaskToolRegistration.metadata r in
         decode raw (TaskToolMetadata.agent_error_code m)
           (TaskToolMetadata.agent_error_boundary m)
           (TaskToolMetadata.description m ++ lit " could not finish safely.")
     | _ =>
         decode raw (lit "registered_task_tool_failed") (lit "RegisteredTaskTool")
           (lit "The registered task could not finish safely.")
     end).

Definition parse_agent_error (raw : str) : option AgentError := decode_normalized raw.

(** The codes that allow another attempt, per operation. *)
Definition code_is_retry_safe (operation code : str) : bool :=
  (in_list operation ["create_decision_pack"]
   && in_list code ["decision_pack_research_network_unavailable";
                    "decision_pack_research_evidence_unavailable"])
  || (in_list operation ["fetch_official_page"]
      && in_list code ["network_unavailable"; "dns_resolution_failed"; "network_timeout";
                       "connection_failed"])
  || (in_list operation ["create_conflict_free_calendar_event"; "create_system_calendar_event";
                         "create_release_recovery_calendar_event"]
      && in_list code ["calendar_action_denied"; "calendar_not_found";
                       "calendar_name_ambiguous"; "calendar_read_only";
                       "calendar_availability_unsupported"; "calendar_permission_denied";
                       "calendar_permission_restricted"; "calendar_permission_write_only";
                       "calendar_permission_unavailable"; "calendar_authorization_timeout";
                       "calendar_agenda_binding_changed"])
  || (in_list operation ["draft_system_email"; "draft_decision_pack_email";
                         "draft_release_recovery_email"]
      && in_list code ["mail_automation_permission_required"; "mail_automation_timeout";
                       "mail_automation_unavailable"; "mail_draft_creation_failed_cleanly";
                       "mail_agenda_binding_changed"])
  || (in_list operation ["prepare_background_agent_comparison";
                         "prepare_milestone_constraint_recovery_plan"]
      && in_list code ["evidence_artifact_preparation_failed"]).

Definition parse_retry_safe_unchanged_error registry (operation raw : str)
  : option AgentError :=
  match registration registry operation, parse_agent_error raw with
  | Ok r, Some error =>
      if str_eqb (TaskToolAgentError.boundary error)
           (TaskToolMetadata.agent_error_boundary (TaskToolRegistration.metadata r))
         && TaskToolAgentError.changed_state_verified error
         && bool_decide (TaskToolAgentError.changed_state error = ChangedState.None)
         && code_is_retry_safe (TaskToolRegistration.operation r)
              (TaskToolAgentError.code error)
      then Some error else None
  | _, _ => None
  end.

(** ** [workflow_runtime/task_tools.rs] *)
Definition validate_registered_task_arguments registry (tool_name : str) (arguments : Value)
  : res WorkflowRuntimeError.t TaskToolValidation.t :=
  match validate_if_registered registry tool_name arguments with
  | None =>
      Err (WorkflowRuntimeError.new "workflow_registered_task_unknown"
        (lit "Registered Workflow tool " ++ tool_name ++ lit " is unavailable."))
  | Some v => map_err (WorkflowRuntimeError.new "workflow_registered_task_invalid") v
  end.

Definition registered_operation registry (tool_name : str) : res WorkflowRuntimeError.t str :=
  match registry !! tool_name with
  | Some _ => Ok tool_name
  | None =>
      Err (WorkflowRuntimeError.new "workflow_registered_task_unknown"
        (lit "Registered Workflow tool " ++ tool_name ++ lit " is unavailable."))
  end.

Definition verified_result (response : ExecuteCommandResponse.t)
  : res WorkflowRuntimeError.t Value :=
  let completed :=
    match ExecuteCommandResponse.status response with
    | CommandStatus.Completed => true | CommandStatus.Failed => false
    end in
  let operation := ExecuteCommandResponse.operation response in
  if negb completed || negb (ExecuteCommandResponse.verified response)
  then Err (WorkflowRuntimeError.new "workflow_registered_task_unverified"
         (lit "Registered Workflow tool " ++ operation
          ++ lit " did not return a verified result."))
  else
    let message := ExecuteCommandResponse.message response in
    let parsed := default (Value.String message) (from_str message) in
    let result :=
      match parsed with
      | Value.Object object => object
      | value => [(lit "result", value)]
      end in
    Ok (Value.Object
      (if equals operation "create_file" && negb (obj_contains_key (lit "structuredContent") result)
       then obj_insert (lit "structuredContent") (Value.Object result) result
       else result)).

Definition stable_error_code (code : str) : str :=
  if in_list code
       ["network_unavailable"; "dns_resolution_failed"; "network_timeout"; "connection_failed";
        "calendar_action_denied"; "calendar_not_found"; "calendar_permission_denied";
        "calendar_permission_restricted"; "calendar_permission_write_only";
        "calendar_permission_unavailable"; "calendar_authorization_timeout";
        "mail_automation_permission_required"; "mail_automation_timeout";
        "mail_automation_unavailable"; "file_creation_failed"; "official_page_fetch_failed"]
  then code
  else if in_list code ["mail_send_unverified"; "mail_send_result_unverified"]
  then lit "mail_send_result_unverified"
  else lit "workflow_registered_task_failed".

Definition task_tool_error registry (operation raw : str) : WorkflowRuntimeError.t :=
  let normalized := normalize_agent_error registry operation raw in
  match parse_agent_error normalized with
  | None => WorkflowRuntimeError.new "workflow_registered_task_failed" normalized
  | Some error =>
      WorkflowRuntimeError.mk (stable_error_code (TaskToolAgentError.code error))
        (lit "workflow_runtime") (TaskToolAgentError.message error) None
  end.
End Registry.

(** ** What a tool's error report means

    The two readings of an error: [decode] takes a tool's own report, bounds it
    and gives it the tool's metadata; [decode_normalized] takes what [encode]
    made of it.  A report survives the second trip, and only a tool that says
    [changedState: false] itself is ever believed to have changed nothing. *)
Section Errors.
Context `{J : JsonLib} {T : JsonText}.
Notation Fields := (list (str * Value)).
Notation AgentError := TaskToolAgentError.t.

(** ** Bounded contexts *)
Lemma take_filter_id {A} (f : A -> bool) n (l : list A) :
  Forall (fun x => f x = true) l -> (length l <= n)%nat -> take n (List.filter f l) = l.
Proof.
  intros Hf Hn. replace (List.filter f l) with l; [by apply take_ge|].
  induction Hf as [|x l Hx _ IH]; [done|]. simpl in *. rewrite Hx, <- IH by lia. done.
Qed.

Lemma omap_id {A} (f : A -> option A) (l : list A) :
  Forall (fun x => f x = Some x) l -> omap f l = l.
Proof. induction 1 as [|x l Hx _ IH]; [done|]. csimpl. by rewrite Hx, IH. Qed.

Lemma length_omap_le {A B} (f : A -> option B) (l : list A) : (length (omap f l) <= length l)%nat.
Proof. induction l as [|x l IH]; csimpl; [done|]. destruct (f x); simpl; lia. Qed.

Lemma Forall_omap {A B} (P : A -> Prop) (Q : B -> Prop) (f : A -> option B) (l : list A) :
  Forall P l -> (forall x y, P x -> f x = Some y -> Q y) -> Forall Q (omap f l).
Proof.
  intros HP HQ. induction HP as [|x l Hx _ IH]; csimpl; [constructor|].
  destruct (f x) as [y|] eqn:E; [|done]. constructor; [by eapply HQ|done].
Qed.

(** Fields that sanitising at a level leaves alone. *)
Definition clean (levels : nat) (o : Fields) : Prop :=
  Forall (fun kv => valid_context_key kv.1 = true /\ sanitize_value levels kv.2 = Some kv.2) o
  /\ (length o <= MAX_CONTEXT_KEYS)%nat.

Lemma clean_fields levels o :
  clean levels o ->
  omap (fun kv => option_map (pair kv.1) (sanitize_value levels kv.2))
    (take MAX_CONTEXT_KEYS (List.filter (fun kv => valid_context_key kv.1) o)) = o.
Proof.
  intros [Hc Hn]. rewrite take_filter_id; [|by eapply list.Forall_impl; [exact Hc|intros ? []]|done].
  apply omap_id. eapply list.Forall_impl; [exact Hc|]. intros [k v] [_ Hv]. simpl in *. by rewrite Hv.
Qed.

Lemma sanitized_fields_clean levels (o : Fields) :
  (forall v w, sanitize_value levels v = Some w -> sanitize_value levels w = Some w) ->
  clean levels
    (omap (fun kv => option_map (pair kv.1) (sanitize_value levels kv.2))
       (take MAX_CONTEXT_KEYS (List.filter (fun kv => valid_context_key kv.1) o))).
Proof.
  intros Hs. split.
  - apply (Forall_omap (fun kv => valid_context_key kv.1 = true)).
    + apply Forall_take. apply List.Forall_forall. intros x Hx.
      by apply filter_In in Hx as [_ Hx].
    + intros [k v] [k' w] Hk Hkv. simpl in *.
      destruct (sanitize_value levels v) as [w'|] eqn:E; simplify_eq/=. split; [done|by eapply Hs].
  - etransitivity; [apply length_omap_le|]. rewrite length_take. lia.
Qed.

Lemma sanitize_value_idem levels v w :
  sanitize_value levels v = Some w -> sanitize_value levels w = Some w.
Proof.
  revert v w. induction levels as [|levels IH]; intros v w; [done|].
  destruct v as [|b|n|s|l|o]; cbn [sanitize_value]; intros [= <-]; try done.
  - by rewrite take_take, Nat.min_id.
  - cbn [sanitize_value]. do 2 f_equal. rewrite take_ge.
    + apply omap_id, (Forall_omap (fun _ => True)); [by apply Forall_true|].
      intros x y _ Hx. by eapply IH.
    + etransitivity; [apply length_omap_le|]. rewrite length_take. lia.
  - cbn [sanitize_value]. do 2 f_equal. by apply clean_fields, sanitized_fields_clean.
Qed.

Lemma sanitize_context_clean o : clean MAX_CONTEXT_DEPTH (sanitize_context o).
Proof. apply sanitized_fields_clean, sanitize_value_idem. Qed.

Lemma clean_obj_remove levels k o : clean levels o -> clean levels (obj_remove k o).
Proof.
  intros [Hc Hn]. split.
  - apply List.Forall_forall. intros x [Hx _]%filter_In.
    rewrite List.Forall_forall in Hc. by apply Hc.
  - etransitivity; [apply filter_length_le|done].
Qed.

(** ** Reading back *)
Definition checks_out (e : AgentError) : bool :=
  valid_code (TaskToolAgentError.code e) && valid_boundary (TaskToolAgentError.boundary e)
  && valid_plain_message (TaskToolAgentError.message e)
  && (TaskToolAgentError.changed_state_verified e
      || bool_decide (TaskToolAgentError.changed_state e = ChangedState.None)).

Lemma read_changed_state_text s : read_changed_state (ChangedState.text s) = Some s.
Proof. by destruct s. Qed.

Lemma envelope_encode e :
  from_str (encode e) = Some (encode_value e) ->
  envelope (encode e) =
    Some [(lit "boundary", Value.String (TaskToolAgentError.boundary e));
          (lit "changedState", Value.String (ChangedState.text (TaskToolAgentError.changed_state e)));
          (lit "changedStateVerified", Value.Bool (TaskToolAgentError.changed_state_verified e));
          (lit "code", Value.String (TaskToolAgentError.code e));
          (lit "context", Value.Object (TaskToolAgentError.context e));
          (lit "message", Value.String (TaskToolAgentError.message e))].
Proof. intros H. unfold envelope. by rewrite H. Qed.

Lemma decode_normalized_encode e :
  from_str (encode e) = Some (encode_value e) ->
  decode_normalized (encode e) =
    if checks_out e then
      Some (TaskToolAgentError.mk _ (TaskToolAgentError.code e) (TaskToolAgentError.boundary e)
              (trim (TaskToolAgentError.message e))
              (sanitize_context (TaskToolAgentError.context e))
              (TaskToolAgentError.changed_state e) (TaskToolAgentError.changed_state_verified e))
    else None.
Proof.
  intros H. unfold decode_normalized. rewrite (envelope_encode _ H). unfold checks_out.
  destruct e as [code boundary message context changed verified]. cbn [TaskToolAgentError.code
    TaskToolAgentError.boundary TaskToolAgentError.message TaskToolAgentError.context
    TaskToolAgentError.changed_state TaskToolAgentError.changed_state_verified].
  change (only_fields _ _) with true.
  change (str_field "code" _) with (Some code).
  change (str_field "boundary" _) with (Some boundary).
  change (str_field "message" _) with (Some message).
  change (obj_get (lit "context") _) with (Some (Value.Object context)).
  change (str_field "changedState" _) with (Some (ChangedState.text changed)).
  change (obj_get (lit "changedStateVerified") _) with (Some (Value.Bool verified)).
  cbn [negb]. cbv iota. rewrite read_changed_state_text.
  by destruct (valid_code code), (valid_boundary boundary), (valid_plain_message message),
    verified, changed.
Qed.

Lemma valid_plain_message_trim m : valid_plain_message m = true -> valid_plain_message (trim m) = true.
Proof. unfold valid_plain_message. by rewrite trim_idem. Qed.

(** The error a tool's metadata gives when its report cannot be read. *)
Definition metadata_ok (code boundary message : str) : bool :=
  valid_code code && valid_boundary boundary && valid_plain_message message
  && str_eqb (trim message) message.

Lemma take_changed_state_checked context o changed verified :
  take_changed_state context = (o, (changed, verified)) ->
  verified = true \/ changed = ChangedState.None.
Proof.
  unfold take_changed_state. intros Hc%(f_equal snd). cbn [snd] in Hc.
  destruct (obj_get (lit "changedState") context) as [[|[]| |s| |]|]; try (injection Hc as <- <-; by auto).
  destruct (equals s "checkpoint_saved"); [injection Hc as <- <-; by auto|].
  destruct (equals s "external_changes"); injection Hc as <- <-; by auto.
Qed.

(** What [decode] returns is in the form [decode_normalized] keeps. *)
Lemma decode_normal raw code boundary message :
  metadata_ok code boundary message = true ->
  let e := decode raw code boundary message in
  checks_out e = true /\ trim (TaskToolAgentError.message e) = TaskToolAgentError.message e
  /\ sanitize_context (TaskToolAgentError.context e) = TaskToolAgentError.context e.
Proof.
  unfold metadata_ok. rewrite !andb_true_iff, str_eqb_eq. intros [[[Hc Hb] Hm] Ht].
  assert (checks_out (fallback code boundary message) = true) as Hf.
  { unfold checks_out, fallback. simpl. by rewrite Hc, Hb, Hm. }
  unfold decode. destruct (read_raw raw) as [[[code' message'] context']|]; [|done].
  destruct (valid_code code') eqn:Hc'; [|done].
  destruct (valid_plain_message message') eqn:Hm'; [|done]. cbn [negb orb].
  destruct (take_changed_state (sanitize_context context')) as [o [changed verified]] eqn:Hs.
  split; [|split; [apply trim_idem|]].
  - unfold checks_out. simpl. rewrite Hc', Hb, (valid_plain_message_trim _ Hm'). simpl.
    destruct (take_changed_state_checked _ _ _ _ Hs) as [->| ->]; [done|apply orb_true_r].
  - simpl. apply (f_equal fst) in Hs. simpl in Hs. subst o. apply clean_fields, clean_obj_remove,
      sanitize_context_clean.
Qed.

(** An error survives the trip to the engine: what [decode] makes of a tool's
    report and [encode] writes down, [decode_normalized] reads back field by field,
    bounds, trimming and sanitising included, whatever the report was. *)
Theorem error_reports_round_trip raw code boundary message :
  let e := decode raw code boundary message in
  metadata_ok code boundary message = true ->
  from_str (encode e) = Some (encode_value e) ->
  decode_normalized (encode e) = Some e.
Proof.
  intros e Hok Hread. destruct (decode_normal raw code boundary message Hok) as (Hc & Ht & Hs).
  fold e in Hc, Ht, Hs. rewrite (decode_normalized_encode _ Hread), Hc, Ht, Hs. by destruct e.
Qed.

(** ** Nothing changed *)
Lemma obj_get_filter k (f : str * Value -> bool) (o : Fields) :
  (forall v, f (k, v) = true) -> obj_get k (List.filter f o) = obj_get k o.
Proof.
  intros Hf. induction o as [|[k' v] o IH]; [done|]. simpl.
  destruct (str_eqb k k') eqn:E.
  - apply str_eqb_eq in E as <-. by rewrite Hf; simpl; rewrite str_eqb_refl.
  - destruct (f (k', v)); simpl; [by rewrite E|done].
Qed.

Lemma obj_get_take k v n (o : Fields) : obj_get k (take n o) = Some v -> obj_get k o = Some v.
Proof.
  revert n. induction o as [|[k' w] o IH]; intros [|n]; try done. simpl.
  destruct (str_eqb k k'); [done|]. apply IH.
Qed.

Lemma sanitize_context_value levels (o : Fields) k w :
  obj_get k (omap (fun kv => option_map (pair kv.1) (sanitize_value (S levels) kv.2)) o) = Some w ->
  exists v, obj_get k o = Some v /\ sanitize_value (S levels) v = Some w.
Proof.
  induction o as [|[k' v] o IH]; [done|]. cbn [omap list_omap fst snd].
  destruct (sanitize_value (S levels) v) as [v'|] eqn:E; [|by destruct v].
  cbn [option_map obj_get]. destruct (str_eqb k k').
  - intros [= <-]. by exists v.
  - exact IH.
Qed.

Lemma sanitize_value_bool levels v b :
  sanitize_value (S levels) v = Some (Value.Bool b) -> v = Value.Bool b.
Proof. destruct v; simpl; congruence. Qed.

(** The tool's own report says that nothing changed. *)
Definition reports_unchanged (raw code : str) : Prop :=
  exists message context,
    read_raw raw = Some (code, message, context)
    /\ obj_get (lit "changedState") context = Some (Value.Bool false).

Lemma decode_unchanged raw code boundary message :
  let e := decode raw code boundary message in
  TaskToolAgentError.changed_state_verified e = true ->
  TaskToolAgentError.changed_state e = ChangedState.None ->
  reports_unchanged raw (TaskToolAgentError.code e).
Proof.
  unfold decode. destruct (read_raw raw) as [[[code' message'] context']|] eqn:Hr; [|done].
  destruct (negb (valid_code code') || negb (valid_plain_message message')); [done|].
  destruct (take_changed_state (sanitize_context context')) as [o [changed verified]] eqn:Hs.
  simpl. intros -> ->. exists message', context'. split; [done|].
  unfold take_changed_state in Hs. apply (f_equal snd) in Hs. cbn [snd] in Hs.
  destruct (obj_get (lit "changedState") (sanitize_context context')) as [v|] eqn:Hv; [|done].
  assert (v = Value.Bool false) as ->.
  { destruct v as [|[]| |s| |]; try done. destruct (equals s "checkpoint_saved"); [done|].
    by destruct (equals s "external_changes"). }
  apply sanitize_context_value in Hv as (v & Hv & ->%sanitize_value_bool).
  apply obj_get_take in Hv. by rewrite obj_get_filter in Hv.
Qed.

Section Registry.
Context {D : Type} (registry : gmap str (TaskToolRegistration.t D)).

(** The engine takes a failed call for one that changed nothing, and lets it be
    tried again, only when the tool's own report says [changedState: false] and carries
    one of the codes listed for that tool. A report that cannot be read, or that leaves
    the field out, never has that meaning. *)
Theorem only_the_tool_vouches_for_no_change operation raw e :
  let written := normalize_agent_error registry operation raw in
  (forall e', written = encode e' -> from_str written = Some (encode_value e')) ->
  parse_retry_safe_unchanged_error registry operation written = Some e ->
  exists r, registry !! operation = Some r
  /\ code_is_retry_safe (TaskToolRegistration.operation r) (TaskToolAgentError.code e) = true
  /\ reports_unchanged raw (TaskToolAgentError.code e).
Proof.
  unfold parse_retry_safe_unchanged_error, normalize_agent_error, registration, parse_agent_error.
  destruct (registry !! operation) as [r|]; [|done]. cbn [ok_or].
  set (e' := decode raw _ _ _). intros Hread. rewrite (decode_normalized_encode e' (Hread e' eq_refl)).
  destruct (checks_out e'); [|done]. cbn [TaskToolAgentError.boundary
  TaskToolAgentError.changed_state_verified TaskToolAgentError.changed_state
  TaskToolAgentError.code].
  destruct (str_eqb _ _ && _ && _ && _) eqn:Hall; [|done]. intros [= <-].
  apply andb_true_iff in Hall as [[[_ Hv]%andb_true_iff Hn%bool_decide_eq_true]%andb_true_iff Hcode].
  exists r. split; [done|]. split; [done|]. by apply decode_unchanged.
Qed.
End Registry.
End Errors.

(** ** A page that could not be fetched *)
Module PageFetch.
Import IntegerJson PrefixText.

Definition report : str :=
  to_string (json_obj [("taskToolError", json_obj
    [("code", json_str "network_timeout"); ("message", json_str " The page did not answer. ");
     ("context", json_obj [("changedState", Value.Bool false); ("attempts", json_u64 2)])])]%string).
Definition tool : TaskToolRegistration.t unit :=
  TaskToolRegistration.mk _ _ (lit "fetch_official_page")
    (fun v => Ok (TaskToolValidation.mk _ v false)) (fun v => Ok (TaskToolValidation.mk _ v false))
    (fun _ _ v _ => Ok v)
    (TaskToolMetadata.mk (lit "Fetching the official page") TaskToolApprovalTier.Background
       (lit "official_page_fetch_failed") (lit "OfficialPage")).
Definition registry : gmap str (TaskToolRegistration.t unit) :=
  {[lit "fetch_official_page" := tool]}.
Definition read : option TaskToolAgentError.t :=
  parse_retry_safe_unchanged_error registry (lit "fetch_official_page")
    (normalize_agent_error registry (lit "fetch_official_page") report).
End PageFetch.
Import IntegerJson PrefixText.

Lemma error_reports_round_trip_witness :
  let e := decode PageFetch.report (lit "official_page_fetch_failed") (lit "OfficialPage")
             (lit "Fetching the official page could not finish safely.") in
  decode_normalized (encode e) = Some e.
Proof.
  apply (error_reports_round_trip PageFetch.report).
  - by vm_compute.
  - apply PrefixText.from_str_to_string.
Defined.

Lemma only_the_tool_vouches_for_no_change_witness :
  exists e r, PageFetch.registry !! lit "fetch_official_page" = Some r
    /\ code_is_retry_safe (TaskToolRegistration.operation r) (TaskToolAgentError.code e) = true
    /\ reports_unchanged PageFetch.report (TaskToolAgentError.code e).
Proof.
  assert (is_Some PageFetch.read) as [e He].
  { assert (match PageFetch.read with Some _ => true | None => false end = true) as H
      by (by vm_compute).
    by destruct PageFetch.read as [e|]; [exists e|]. }
  exists e.
  apply (only_the_tool_vouches_for_no_change PageFetch.registry (lit "fetch_official_page")
           PageFetch.report e); [|exact He].
  intros e' ->. apply PrefixText.from_str_to_string.
Defined.
