(* ===== verification/EffectJournal.v ===== *)
(** * The journal of protected effects

    [workflow_runtime/task_tools/effect_journal.rs] and
    [execute_registered_task_tool] of [workflow_runtime/task_tools.rs].  Before a
    tool that may change something outside the application is called, its effect
    is reserved in [task_effects] under a key made of the node, the operation and
    a digest of the arguments; the reservation is claimed; after the call the
    result is stored as an event and the row is marked verified.  What happened
    in between when the application dies, or when the call fails or times out, is
    not known, so the row is left for a person to decide on. *)
From S2P Require Import Prelude.
From S2P Require Import RustStr.
From S2P Require Import P0Contracts.
From S2P Require Import JsonValue.
From S2P Require Import Program.
From S2P Require Import TaskStore.
From S2P Require Import TaskRepository.
From S2P Require Import TaskTools.
Local Open Scope Z_scope.

(** [foundation/digest.rs]: SHA-256 itself comes from the [sha2] crate. *)
Class Digest : Type := sha256 : list Z -> list Z.
Definition sha256_hex `{Digest} (bytes : list Z) : str := hex_encode (sha256 bytes).

Module ReservedEffect.
Record t `{J : JsonLib} : Type := mk {
  task_run_id : str; node_id : str; key : str; operation : str; summary : Value;
}.
End ReservedEffect.

Module EffectReservation.
Inductive t `{J : JsonLib} : Type :=
  | Execute (effect : ReservedEffect.t)
  | Replay (result : Value).
End EffectReservation.

Module VerifiedEffectReceipt.
Record t `{J : JsonLib} : Type := mk { digest : str; result : Value }.
End VerifiedEffectReceipt.

(** A call of a tool, and how the wait for it ends.  The reservation the call is
    made under is kept beside the request, for the log. *)
Module ToolCall.
Record t `{J : JsonLib} : Type := mk {
  execution_id : str;
  request : ValidatedTaskToolRequest.t;
  effect : option ReservedEffect.t;
}.
End ToolCall.
Module ToolOutcome.
Inductive t : Type :=
  | Responded (response : ExecuteCommandResponse.t)
  | Refused (raw : str)
  | TimedOut
  | NoRuntime (raw : str).
End ToolOutcome.

Section Journal.
Context `{S : StoreLib} {D : Digest}.
Notation prog := (prog Db ToolCall.t ToolOutcome.t).
Notation io A := (io Db ToolCall.t ToolOutcome.t WorkflowRuntimeError.t A).
Notation error := WorkflowRuntimeError.new.
Implicit Types effect : ReservedEffect.t.

(** [serde_json::to_vec] *)
Definition to_vec (v : Value) : list Z := as_bytes (to_string v).
Definition value_digest (v : Value) : str := sha256_hex (to_vec v).

(** A statement, its failure reported as the journal does. *)
Definition db_op {X} (q : tx X) : io X := io_map_err WorkflowRuntimeError.database (sql q).

Definition row_key effect : str * str :=
  (ReservedEffect.task_run_id effect, ReservedEffect.key effect).
(** [.. AND effect_kind=? AND state IN (..)] *)
Definition row_matches effect (states : list EffectState.t) (row : TaskEffect.t) : bool :=
  str_eqb (TaskEffect.effect_kind row) (ReservedEffect.operation effect)
  && bool_decide (TaskEffect.state row ∈ states).
Definition any_state : list EffectState.t :=
  [EffectState.reserved; EffectState.executed; EffectState.verified].

(** ** What the person is shown *)
Definition bounded_recovery_text (value : str) (limit : Z) : option str :=
  let value := trim value in
  if not_empty value && (chars_count value <=? limit) && negb (existsb is_control value)
  then Some value else None.

Definition effect_recovery_summary (operation : str) (arguments : Value) : Value :=
  let text (field : string) (limit : Z) :=
    json_opt (option_map Value.String
      (match get (lit field) arguments with
       | Some (Value.String value) => bounded_recovery_text value limit
       | _ => None
       end)) in
  if in_list operation ["create_system_calendar_event"; "create_conflict_free_calendar_event"]
  then json_obj [("surface", json_str "calendar"); ("calendarName", text "calendarName" 160);
                 ("title", text "title" 240)]
  else if in_list operation ["draft_system_email"; "draft_decision_pack_email";
                             "draft_release_recovery_email"]
  then json_obj [("surface", json_str "mail_draft"); ("recipient", text "to" 4096);
                 ("subject", text "subject" 998)]
  else if in_list operation ["send_system_email"]
  then json_obj [("surface", json_str "mail_send"); ("recipient", text "to" 4096);
                 ("subject", text "subject" 998)]
  else json_obj [("surface", json_str "protected_action")].

(** ** Stopping for verification *)
Definition halt_message : str :=
  lit "OOMU could not confirm whether this protected action already happened. It will not repeat the action automatically. The Task is saved for verification-only recovery.".

Definition block_run (now : Z) (row : TaskRun.t) : TaskRun.t :=
  set_run (TaskRun.project_id row)
    (if bool_decide (TaskRun.state row ∈ [Queued; Planning; AwaitingApproval; Running])
     then Blocked else TaskRun.state row)
    (TaskRun.summary row) (Some halt_message) now (TaskRun.completed_at_ms row)
    RecoveryState.recoverable row.

Definition has_recoverable_schedule (task_run_id : str) (db : Db) : bool :=
  match Db.task_runs db !! task_run_id with
  | Some task =>
      bool_decide (TaskRun.runtime_kind task = RuntimeKind.workflow)
      && existsb (fun run =>
           str_eqb (RoutineRun.execution_instance_id run) (TaskRun.runtime_record_id task)
           && str_eqb (RoutineRun.task_run_id run) task_run_id) (Db.routine_runs db)
  | None => false
  end.

Definition halt_for_effect_verification {A} effect (reason_code : str) : io A :=
  let run := ReservedEffect.task_run_id effect in
  now ← unix_time_ms_i64;
  effect_changed ← db_op (update_effect run (ReservedEffect.key effect)
    (row_matches effect any_state)
    (fun row => set_effect EffectState.executed (TaskEffect.result_digest row) now row));
  if negb (effect_changed =? 1)
  then throw (error "workflow_effect_recovery_persistence_failed"
         (lit "OOMU stopped the external action, but could not preserve its verification boundary."))
  else
    now ← unix_time_ms_i64;
    changed ← db_op (update_run run (fun _ => true) (block_run now));
    if negb (changed =? 1)
    then throw (error "workflow_effect_recovery_persistence_failed"
           (lit "OOMU stopped the external action, but could not save its recovery state."))
    else
      found ← attempt (sql (select (has_recoverable_schedule run)));
      let retry_supported := match found with Ok b => b | _ => false end in
      _ ← io_map_err
            (fun detail => error "workflow_effect_recovery_persistence_failed"
               (halt_message ++ lit " Recovery audit failed: " ++ detail))
            (record_domain_event run (lit "workflow.effect.verification_required")
               ObservedResult
               (json_obj [("nodeId", Value.String (ReservedEffect.node_id effect));
                          ("idempotencyKey", Value.String (ReservedEffect.key effect));
                          ("effectKind", Value.String (ReservedEffect.operation effect));
                          ("effectSummary", ReservedEffect.summary effect);
                          ("reasonCode", Value.String reason_code);
                          ("nextAction", json_str "verify_only");
                          ("retrySupported", Value.Bool retry_supported)]));
      throw (error "workflow_effect_verification_required" halt_message).

(** ** The receipt *)
Definition receipt_event effect (db : Db) : option str :=
  option_map TaskEvent.event_json (latest (List.filter (fun e =>
    has_event_type "workflow.effect.verified" e
    && extract_is ["payload"; "idempotencyKey"]%string (ReservedEffect.key effect) e)
    (events_of (ReservedEffect.task_run_id effect) db))).

Definition string_at (name : string) (v : Value) : option str :=
  match get (lit name) v with Some (Value.String s) => Some s | _ => None end.

Definition read_receipt effect (raw : str) : res WorkflowRuntimeError.t VerifiedEffectReceipt.t :=
  let invalid (message : string) := Err (error "workflow_effect_receipt_invalid" (lit message)) in
  event ← ok_or (WorkflowRuntimeError.serialization (lit "invalid JSON")) (from_str raw);
  match get (lit "payload") event with
  | Some (Value.Object fields) =>
      let payload := Value.Object fields in
      if negb (bool_decide (string_at "idempotencyKey" payload = Some (ReservedEffect.key effect)))
         || negb (bool_decide (string_at "effectKind" payload = Some (ReservedEffect.operation effect)))
      then invalid "The durable effect receipt no longer matches its reservation."
      else match string_at "resultDigest" payload with
           | Some digest =>
               if negb ((str_len digest =? 64) && forallb is_ascii_hexdigit digest)
               then invalid "The durable effect receipt has no valid result digest."
               else match get (lit "result") payload with
                    | None => invalid "The durable effect receipt has no replayable result."
                    | Some result =>
                        if negb (str_eqb (value_digest result) digest)
                        then Err (error "workflow_effect_receipt_digest_changed"
                               (lit "The durable effect receipt failed its integrity check."))
                        else Ok (VerifiedEffectReceipt.mk _ digest result)
                    end
           | None => invalid "The durable effect receipt has no valid result digest."
           end
  | _ => invalid "The durable effect receipt has no verified payload."
  end.

Definition load_verified_effect_receipt effect : io (option VerifiedEffectReceipt.t) :=
  raw ← db_op (select (receipt_event effect));
  match raw with
  | None => mret None
  | Some raw => receipt ← lift (read_receipt effect raw); mret (Some receipt)
  end.

Definition reconcile_verified_effect effect (digest : str) : io unit :=
  now ← unix_time_ms_i64;
  changed ← db_op (update_effect (ReservedEffect.task_run_id effect) (ReservedEffect.key effect)
    (fun row => row_matches effect any_state row
                && match TaskEffect.result_digest row with
                   | None => true
                   | Some d => str_eqb d digest
                   end)
    (set_effect EffectState.verified (Some digest) now));
  if negb (changed =? 1)
  then throw (error "workflow_effect_verification_lost"
         (lit "The scheduled effect completed, but its durable receipt could not be verified. OOMU stopped before reporting success."))
  else mret tt.

Definition verify_effect effect (result : Value) : io unit :=
  let digest := value_digest result in
  receipt ← load_verified_effect_receipt effect;
  match receipt with
  | Some receipt =>
      if negb (str_eqb (VerifiedEffectReceipt.digest receipt) digest)
         || negb (bool_decide (VerifiedEffectReceipt.result receipt = result))
      then throw (error "workflow_effect_receipt_conflict"
             (lit "The durable effect receipt does not match the verified result."))
      else reconcile_verified_effect effect digest
  | None =>
      _ ← io_map_err (error "workflow_effect_receipt_persistence_failed")
            (record_domain_event (ReservedEffect.task_run_id effect)
               (lit "workflow.effect.verified") VerifiedPostcondition
               (json_obj [("idempotencyKey", Value.String (ReservedEffect.key effect));
                          ("effectKind", Value.String (ReservedEffect.operation effect));
                          ("resultDigest", Value.String digest);
                          ("result", result)]));
      reconcile_verified_effect effect digest
  end.

(** ** Reserving *)
(** The match on the loaded receipt that reserving and claiming share: [stored]
    is the digest of the row read before, [otherwise] the case of no receipt. *)
Definition replay_receipt {A} effect (stored : option str) (found : Value -> A)
    (otherwise : io A) : io A :=
  receipt ← attempt (load_verified_effect_receipt effect);
  match receipt with
  | Ok (Some receipt) =>
      let digest := VerifiedEffectReceipt.digest receipt in
      if match stored with Some d => negb (str_eqb d digest) | None => false end
      then halt_for_effect_verification effect (lit "workflow_effect_receipt_digest_changed")
      else
        reconciled ← attempt (reconcile_verified_effect effect digest);
        match reconciled with
        | Ok _ => mret (found (VerifiedEffectReceipt.result receipt))
        | Err e => halt_for_effect_verification effect (WorkflowRuntimeError.code e)
        | Panic => lift Panic
        end
  | Ok None => otherwise
  | Err e => halt_for_effect_verification effect (WorkflowRuntimeError.code e)
  | Panic => lift Panic
  end.

Definition effect_key (node_id operation : str) (arguments : Value) : str :=
  lit "workflow-task:" ++ node_id ++ lit ":" ++ operation ++ lit ":" ++ value_digest arguments.

Definition new_effect (task_run_id node_id operation : str) (arguments : Value)
  : ReservedEffect.t :=
ReservedEffect.mk _ task_run_id node_id (effect_key node_id operation arguments) operation
    (effect_recovery_summary operation arguments).

Definition reserve_effect_for_task (task_run_id node_id operation : str) (arguments : Value)
  : io EffectReservation.t :=
  let effect := new_effect task_run_id node_id operation arguments in
  now ← unix_time_ms_i64;
  inserted ← db_op (insert_effect task_run_id (ReservedEffect.key effect) operation now);
  bound ← db_op (select (fun db => Db.task_effects db !! row_key effect));
  match bound with
  | None =>
      throw (error "workflow_effect_reservation_lost"
        (lit "The scheduled effect reservation could not be read back."))
  | Some row =>
      if negb (str_eqb (TaskEffect.effect_kind row) operation)
      then throw (error "workflow_effect_binding_changed"
             (lit "The scheduled effect no longer matches its durable reservation."))
      else
        replay_receipt effect (TaskEffect.result_digest row) EffectReservation.Replay
          (if (inserted =? 1) && bool_decide (TaskEffect.state row = EffectState.reserved)
           then mret (EffectReservation.Execute effect)
           else halt_for_effect_verification effect
                  (if bool_decide (TaskEffect.state row = EffectState.verified)
                   then lit "workflow_effect_verified_receipt_missing"
                   else lit "workflow_effect_execution_ambiguous"))
  end.

Definition reserve_effect (ensure_internal_project : tx str)
    (execution_id node_id operation : str) (arguments : Value) : io EffectReservation.t :=
  task ← io_map_err (error "workflow_task_binding_missing")
    (require_agent_runtime_task ensure_internal_project execution_id);
  reserve_effect_for_task (TaskRunRecord.task_run_id task) node_id operation arguments.

Definition claim_effect_execution effect : io (option Value) :=
  now ← unix_time_ms_i64;
  changed ← db_op (update_effect (ReservedEffect.task_run_id effect) (ReservedEffect.key effect)
    (row_matches effect [EffectState.reserved])
    (fun row => set_effect EffectState.executed (TaskEffect.result_digest row) now row));
  if changed =? 1 then mret None
  else replay_receipt effect None Some
         (halt_for_effect_verification effect (lit "workflow_effect_execution_ambiguous")).

Definition release_unchanged_effect effect (error_code : str) : io unit :=
  changed ← db_op (delete_unverified_effect (ReservedEffect.task_run_id effect)
    (ReservedEffect.key effect) (ReservedEffect.operation effect));
  if negb (changed =? 1)
  then halt_for_effect_verification effect (lit "workflow_effect_unchanged_release_failed")
  else io_map_err (error "workflow_effect_receipt_persistence_failed")
         (record_domain_event (ReservedEffect.task_run_id effect)
            (lit "workflow.effect.unchanged") ObservedResult
            (json_obj [("idempotencyKey", Value.String (ReservedEffect.key effect));
                       ("effectKind", Value.String (ReservedEffect.operation effect));
                       ("errorCode", Value.String error_code);
                       ("changedState", Value.Bool false)])).

(** ** Calling the tool *)
Section Execute.
Context (registry : gmap str (TaskToolRegistration.t Db)).

(** The end of [execute_registered_task_tool], from the call on. *)
Definition fail_after_call {A} (effect : option ReservedEffect.t) (e : WorkflowRuntimeError.t)
  : io A :=
  match effect with
  | Some effect => halt_for_effect_verification effect (WorkflowRuntimeError.code e)
  | None => throw e
  end.

Definition conclude_call (node_id label tool_name : str) (timeout_ms : Z)
  (effect : option ReservedEffect.t) (outcome : ToolOutcome.t) : io Value :=
  match outcome with
  | ToolOutcome.NoRuntime raw => fail_after_call effect (WorkflowRuntimeError.runtime raw)
  | ToolOutcome.TimedOut =>
      fail_after_call effect (WorkflowRuntimeError.node_timeout node_id label timeout_ms)
  | ToolOutcome.Refused raw =>
      let normalized := normalize_agent_error registry tool_name raw in
      let e := task_tool_error registry tool_name raw in
      match effect, parse_retry_safe_unchanged_error registry tool_name normalized with
      | Some effect, Some _ =>
          _ ← release_unchanged_effect effect (WorkflowRuntimeError.code e); throw e
      | _, _ => fail_after_call effect e
      end
  | ToolOutcome.Responded response =>
      match verified_result response with
      | Ok result =>
          match effect with
          | None => mret result
          | Some effect =>
              verified ← attempt (verify_effect effect result);
              match verified with
              | Ok _ => mret result
              | Err e => halt_for_effect_verification effect (WorkflowRuntimeError.code e)
              | Panic => lift Panic
              end
          end
      | Err e => fail_after_call effect e
      | Panic => lift Panic
      end
  end.

Definition call_tool (execution_id node_id label tool_name : str) (timeout_ms : Z)
  (request : ValidatedTaskToolRequest.t) (effect : option ReservedEffect.t) : io Value :=
  let call := ToolCall.mk _ execution_id request effect in
  Start call (Await call (conclude_call node_id label tool_name timeout_ms effect)).

(** From a reservation to the result: the [match effect] of the source. *)
Definition carry_out (execution_id node_id label tool_name : str) (timeout_ms : Z)
  (request : ValidatedTaskToolRequest.t) (reservation : EffectReservation.t) : io Value :=
  match reservation with
  | EffectReservation.Replay result => mret result
  | EffectReservation.Execute effect =>
      claimed ← claim_effect_execution effect;
      match claimed with
      | Some result => mret result
      | None => call_tool execution_id node_id label tool_name timeout_ms request (Some effect)
      end
  end.

(** The scope a reviewed Routine allows ([routines/authority.rs]) and the
  internal project are arguments. *)
Definition execute_registered_task_tool (ensure_internal_project : tx str)
  (scope_required : str -> tx bool)
  (scope_allows : str -> str -> str -> Value -> tx bool)
  (execution_id node_id label tool_name : str) (arguments : Value) (timeout_ms : Z)
  : io Value :=
  validation ← lift (validate_registered_task_arguments registry tool_name arguments);
  operation ← lift (registered_operation registry tool_name);
  let unresolved := request_of operation validation in
  request ← io_map_err (error "workflow_registered_task_resolution_failed")
  (sql (fun db => (TaskTools.resolve registry db (Some execution_id) unresolved [], db)));
  let arguments := ValidatedTaskToolRequest.arguments request in
  required ← io_map_err WorkflowRuntimeError.runtime (sql (scope_required execution_id));
  allowed ←
  (if (required : bool) && negb (requires_explicit_approval registry tool_name)
     then io_map_err WorkflowRuntimeError.runtime
            (sql (scope_allows execution_id node_id tool_name arguments))
     else mret true);
  if negb allowed
  then throw (error "workflow_routine_scope_denied"
         (lit "This scheduled step resolved outside the Workflow scope you reviewed."))
  else if ValidatedTaskToolRequest.potentially_effectful request
  then
  reservation ← reserve_effect ensure_internal_project execution_id node_id tool_name arguments;
  carry_out execution_id node_id label tool_name timeout_ms request reservation
  else call_tool execution_id node_id label tool_name timeout_ms request None.
End Execute.
End Journal.
