(* ===== verification/EffectVerification.v ===== *)
(** * A person's decision on an effect whose outcome is not known

    [tasks/effect_verification.rs]: the decision is checked against the saved
    boundary (the exact event, the exact row, the stopped checkpoint) and applied
    in one immediate transaction. *)
From S2P Require Import Prelude.
From S2P Require Import RustStr.
From S2P Require Import P0Contracts.
From S2P Require Import JsonValue.
From S2P Require Import Program.
From S2P Require Import TaskStore.
From S2P Require Import TaskRepository.
From S2P Require Import TaskTools.
Local Open Scope Z_scope.

Local Notation "'let?' x := e 'in' k" :=
  (match e with Some x => k | None => None end)
  (at level 200, x pattern, e at level 100, k at level 200).

Module TaskEffectVerificationDecision.
Inductive t : Type := DidNotHappen | Happened | StopWithoutRepeating.
(** The serde name. *)
Definition text (d : t) : str :=
  match d with
  | DidNotHappen => lit "did_not_happen"
  | Happened => lit "happened"
  | StopWithoutRepeating => lit "stop_without_repeating"
  end.
Definition outcome (d : t) : string :=
  match d with
  | DidNotHappen => "observed_not_happened"
  | Happened => "observed_happened"
  | StopWithoutRepeating => "outcome_unknown"
  end.
End TaskEffectVerificationDecision.

Module ResolveTaskEffectVerificationRequest.
Record t : Type := mk {
  task_run_id : str;
  task_id : str;
  runtime_record_id : str;
  verification_sequence : option Z;
  node_id : option str;
  idempotency_key : option str;
  effect_kind : option str;
  decision : TaskEffectVerificationDecision.t;
}.
End ResolveTaskEffectVerificationRequest.

Module ExactEffectVerification.
Record t : Type := mk {
  verification_sequence : Z;
  node_id : str;
  idempotency_key : str;
  effect_kind : str;
}.
End ExactEffectVerification.

Definition validate_identity (label : string) (value : str) (maximum : Z) : res str unit :=
  guard_not (is_empty (trim value) || (maximum <? str_len value) || existsb is_control value)
    (lit "The protected action " ++ lit label ++ lit " identity is invalid.").
Definition validate_runtime_identity (runtime_record_id : str) : res str unit :=
  validate_identity "runtime" runtime_record_id 256.
Definition validate_exact_identity (exact : ExactEffectVerification.t) : res str unit :=
  _ ← validate_identity "node" (ExactEffectVerification.node_id exact) 256;
  _ ← validate_identity "effect" (ExactEffectVerification.idempotency_key exact) 1024;
  validate_identity "effect kind" (ExactEffectVerification.effect_kind exact) 256.

Section Verification.
Context `{S : StoreLib} {Req Ans : Type}.
Notation io A := (io Db Req Ans str A).
Notation Request := ResolveTaskEffectVerificationRequest.t.
Notation Exact := ExactEffectVerification.t.
Notation Decision := TaskEffectVerificationDecision.t.
Implicit Types (request : Request) (exact : Exact).

(** [serde_json::from_str::<P0EventEnvelope>] *)
Definition id_field (k : id_kind) (name : string) (v : Value) : option (opaque_id k) :=
  match get (lit name) v with
  | Some (Value.String s) =>
      match id_parse k s with Ok id => Some id | _ => None end
  | _ => None
  end.
Definition event_names : list string :=
  ["schemaVersion"; "eventType"; "projectId"; "taskId"; "taskRunId"; "correlationId";
   "sequence"; "timestamp"; "evidenceClass"; "payload"].
Definition text_field (name : string) (v : Value) : option str :=
  match get (lit name) v with Some (Value.String s) => Some s | _ => None end.
Definition u64_field (name : string) (v : Value) : option Z :=
  match get (lit name) v with Some n => as_u64 n | None => None end.
Definition run_field (v : Value) : option (option TaskRunId) :=
  match get (lit "taskRunId") v with
  | None | Some Value.Null => Some None
  | Some _ => option_map Some (id_field KTaskRun "taskRunId" v)
  end.
Definition known_fields (v : Value) : option unit :=
  match v with
  | Value.Object o => if only_fields event_names o then Some tt else None
  | _ => None
  end.
Definition read_raw_event (v : Value) : option (RawP0EventEnvelope Value) :=
  let? _ := known_fields v in
  let? schema := u64_field "schemaVersion" v in
  let? event_type := text_field "eventType" v in
  let? project_id := id_field KProject "projectId" v in
  let? task_id := id_field KTask "taskId" v in
  let? task_run_id := run_field v in
  let? correlation_id := text_field "correlationId" v in
  let? sequence := u64_field "sequence" v in
  let? timestamp := text_field "timestamp" v in
  let? evidence_name := text_field "evidenceClass" v in
  let? evidence := read_evidence evidence_name in
  let? payload := get (lit "payload") v in
  if u16_max <? schema then None
  else Some (Build_RawP0EventEnvelope schema event_type project_id task_id task_run_id
               correlation_id sequence timestamp evidence payload).
Definition read_event (text : str) : option (P0EventEnvelope Value) :=
  let? v := from_str text in
  let? raw := read_raw_event v in
  match P0EventEnvelope_deserialize parse_from_rfc3339 raw with
  | Ok event => Some event
  | _ => None
  end.

Definition payload_is (name : string) (text : str) (event : P0EventEnvelope Value) : bool :=
  bool_decide (get (lit name) (payload event) = Some (Value.String text)).
Definition bound_to (task_run_id task_id : str) (sequence : Z) (event : P0EventEnvelope Value)
  : bool :=
  equals (event_type event) "workflow.effect.verification_required"
  && (P0Contracts.sequence event =? sequence)
  && str_eqb (P0Contracts.as_str (P0Contracts.task_id event)) task_id
  && bool_decide (option_map P0Contracts.as_str (P0Contracts.task_run_id event)
                  = Some task_run_id)
  && payload_is "nextAction" (lit "verify_only") event.

Definition stale {X} : tx X := tx_err (lit "The protected action decision is stale.").
Definition audit_invalid {X} : tx X := tx_err (lit "The protected action audit is invalid.").
Definition boundary_changed {X} : tx X :=
  tx_err (lit "The protected action decision no longer matches its saved boundary.").

Definition required_event_identity (event : P0EventEnvelope Value) (key : string) : tx str :=
  match get (lit key) (payload event) with
  | Some (Value.String s) => mret s
  | _ => audit_invalid
  end.

Definition resolves_sequence (required resolved : TaskEvent.t) : bool :=
  (TaskEvent.sequence required <? TaskEvent.sequence resolved)
  && has_event_type "workflow.effect.verification_resolved" resolved
  && bool_decide (extract ["payload"; "verificationSequence"]%string resolved
                  = Some (json_u64 (TaskEvent.sequence required))).
Definition unresolved_events (task_run_id : str) (db : Db) : list TaskEvent.t :=
  let events := events_of task_run_id db in
  List.filter (fun required =>
    has_event_type "workflow.effect.verification_required" required
    && negb (existsb (resolves_sequence required) events)) events.

Definition derive_single_unresolved_verification (task_run_id task_id : str) : tx Exact :=
  rows ← select (unresolved_events task_run_id);
  match rows with
  | [] => stale
  | [row] =>
      if TaskEvent.sequence row <? 0 then stale
      else match read_event (TaskEvent.event_json row) with
           | None => audit_invalid
           | Some event =>
               if negb (bound_to task_run_id task_id (TaskEvent.sequence row) event)
               then boundary_changed
               else
                 node_id ← required_event_identity event "nodeId";
                 key ← required_event_identity event "idempotencyKey";
                 kind ← required_event_identity event "effectKind";
                 let exact := ExactEffectVerification.mk (TaskEvent.sequence row) node_id key kind in
                 _ ← tx_lift (validate_exact_identity exact);
                 mret exact
           end
  | _ => tx_err (lit "More than one protected action still needs verification. Load the exact action details before stopping this run.")
  end.

Definition exact_verification_for_request (task_run_id task_id : str) request : tx Exact :=
  exact ←
    match ResolveTaskEffectVerificationRequest.verification_sequence request,
          ResolveTaskEffectVerificationRequest.node_id request,
          ResolveTaskEffectVerificationRequest.idempotency_key request,
          ResolveTaskEffectVerificationRequest.effect_kind request with
    | Some sequence, Some node_id, Some key, Some kind =>
        mret (ExactEffectVerification.mk sequence node_id key kind)
    | None, None, None, None =>
        match ResolveTaskEffectVerificationRequest.decision request with
        | TaskEffectVerificationDecision.StopWithoutRepeating =>
            derive_single_unresolved_verification task_run_id task_id
        | _ => tx_err (lit "The protected action details are required for this decision.")
        end
    | _, _, _, _ =>
        tx_err (lit "The protected action details must be supplied together or omitted together.")
    end;
  _ ← tx_lift (validate_exact_identity exact);
  mret exact.

Definition require_current_task_binding (task_run_id task_id runtime_record_id : str)
  : tx unit :=
  row ← select (fun db => Db.task_runs db !! task_run_id);
  match row with
  | None => tx_err (lit "Query returned no rows")
  | Some row =>
      tx_lift (ensure
        (str_eqb (TaskRun.task_id row) task_id
         && bool_decide (TaskRun.runtime_kind row = RuntimeKind.workflow)
         && str_eqb (TaskRun.runtime_record_id row) runtime_record_id
         && bool_decide (TaskRun.state row = Blocked)
         && bool_decide (TaskRun.recovery_state row = RecoveryState.recoverable))
        (lit "The protected action decision no longer matches this Task."))
  end.

Definition names_exact exact (e : TaskEvent.t) : bool :=
  extract_is ["payload"; "nodeId"]%string (ExactEffectVerification.node_id exact) e
  && extract_is ["payload"; "idempotencyKey"]%string
       (ExactEffectVerification.idempotency_key exact) e
  && extract_is ["payload"; "effectKind"]%string (ExactEffectVerification.effect_kind exact) e.
Definition latest_unresolved (task_run_id : str) exact (db : Db) : option Z :=
  let events := events_of task_run_id db in
  option_map TaskEvent.sequence (latest (List.filter (fun required =>
    has_event_type "workflow.effect.verification_required" required
    && names_exact exact required
    && negb (existsb (fun resolved =>
         (TaskEvent.sequence required <? TaskEvent.sequence resolved)
         && has_event_type "workflow.effect.verification_resolved" resolved
         && names_exact exact resolved) events)) events)).

Definition require_exact_unresolved_event (task_run_id task_id : str)
    (verification_sequence : Z) exact : tx unit :=
  found ← select (fun db =>
    find (fun e => TaskEvent.sequence e =? verification_sequence) (events_of task_run_id db));
  match found with
  | None => stale
  | Some row =>
      match read_event (TaskEvent.event_json row) with
      | None => audit_invalid
      | Some event =>
          if negb (bound_to task_run_id task_id
                     (ExactEffectVerification.verification_sequence exact) event
                   && payload_is "nodeId" (ExactEffectVerification.node_id exact) event
                   && payload_is "idempotencyKey"
                        (ExactEffectVerification.idempotency_key exact) event
                   && payload_is "effectKind" (ExactEffectVerification.effect_kind exact) event)
          then boundary_changed
          else
            newest ← select (latest_unresolved task_run_id exact);
            if bool_decide (newest = Some verification_sequence) then mret tt else stale
      end
  end.

Definition require_exact_effect_and_checkpoint (task_run_id runtime_record_id : str) exact
  : tx unit :=
  effect ← select (fun db =>
    Db.task_effects db !! (task_run_id, ExactEffectVerification.idempotency_key exact));
  let matches :=
    match effect with
    | Some row =>
        str_eqb (TaskEffect.effect_kind row) (ExactEffectVerification.effect_kind exact)
        && bool_decide (TaskEffect.state row = EffectState.executed)
        && bool_decide (TaskEffect.result_digest row = None)
    | None => false
    end in
  _ ← tx_lift (ensure matches
        (lit "The protected action has changed since OOMU asked you to inspect it."));
  instance ← select (fun db => Db.execution_instances db !! runtime_record_id);
  match instance with
  | None => tx_err (lit "Query returned no rows")
  | Some row =>
      match from_str (ExecutionRow.node_payloads_json row) with
      | None => tx_err (lit "The stopped workflow checkpoint is invalid.")
      | Some payloads =>
          tx_lift (ensure
            (equals (ExecutionRow.status row) "Failed"
             && bool_decide
                  (match get (ExactEffectVerification.node_id exact) payloads with
                   | Some payload => pointer ["error"; "code"]%string payload
                   | None => None
                   end = Some (json_str "workflow_effect_verification_required")))
            (lit "The workflow is no longer stopped at this protected action."))
      end
  end.

Definition waiting_run (row : TaskRun.t) : bool :=
  bool_decide (TaskRun.state row = Blocked)
  && bool_decide (TaskRun.recovery_state row = RecoveryState.recoverable).

Definition release_exact_effect_once (task_run_id runtime_record_id : str) exact (now : Z)
  : tx unit :=
  schedule ← select (fun db =>
    find (fun run => str_eqb (RoutineRun.execution_instance_id run) runtime_record_id
                     && str_eqb (RoutineRun.task_run_id run) task_run_id)
      (Db.routine_runs db));
  match schedule with
  | None => tx_err (lit "This protected action is not bound to a recoverable scheduled run.")
  | Some run =>
      released ← delete_unverified_effect task_run_id
        (ExactEffectVerification.idempotency_key exact) (ExactEffectVerification.effect_kind exact);
      instance ← update_instance runtime_record_id
        (fun row => equals (ExecutionRow.status row) "Failed")
        (set_instance_status (lit "Pending") None None now None);
      schedule ← update_schedule (RoutineRun.schedule_id run)
        (fun row => bool_decide (ScheduleRow.last_instance_id row = Some runtime_record_id))
        (fun row => ScheduleRow.mk (ScheduleRow.schedule_kind row) true None (Some now)
           (ScheduleRow.paused_reason row) (Some (lit "Pending")) None
           (Some runtime_record_id) now);
      task_change ← update_run task_run_id waiting_run (fun row =>
        set_run (TaskRun.project_id row) Queued (TaskRun.summary row) None now None
          RecoveryState.reconciled row);
      tx_lift (guard_not
        (negb (released =? 1) || negb (instance =? 1) || negb (schedule =? 1)
         || negb (task_change =? 1))
        (lit "OOMU could not preserve the exact retry boundary."))
  end.

(** What [stop_after_observed_occurrence] and [stop_with_unknown_outcome] share. *)
Definition stop_run (task_run_id runtime_record_id : str) (stop_error : Value)
    (state : TaskState) (last_error : string) (now : Z) : tx unit :=
  instance ← update_instance runtime_record_id
    (fun row => equals (ExecutionRow.status row) "Failed")
    (fun row => set_instance_status (lit "Failed") None (Some (to_string stop_error)) now
       (or_else (ExecutionRow.completed_at_ms row) (Some now)) row);
  task_change ← update_run task_run_id waiting_run (fun row =>
    set_run (TaskRun.project_id row) state (TaskRun.summary row) (Some (lit last_error)) now
      (Some now) RecoveryState.reconciled row);
  tx_lift (guard_not (negb (instance =? 1) || negb (task_change =? 1))
    (lit "OOMU could not preserve the stop-without-repeating decision.")).

Definition stop_after_observed_occurrence (task_run_id runtime_record_id : str) (now : Z)
  : tx unit :=
  stop_run task_run_id runtime_record_id
    (json_obj [("code", json_str "workflow_effect_stopped_after_user_observation");
               ("message", json_str "The user observed that the protected action happened. OOMU stopped without repeating it and did not mark the workflow complete.")])
    Failed "The protected action happened, so OOMU stopped without repeating it. This Task was not marked complete." now.

Definition stop_with_unknown_outcome (task_run_id runtime_record_id : str) (now : Z)
  : tx unit :=
  stop_run task_run_id runtime_record_id
    (json_obj [("code", json_str "workflow_effect_stopped_outcome_unknown");
               ("message", json_str "The user stopped this run without repeating the protected action. Its outcome remains unknown, and OOMU did not mark the workflow complete.")])
    Cancelled "The protected action outcome is unknown. OOMU stopped this run without repeating it." now.

(** The three arms of [match request.decision]. *)
Definition apply_decision (decision : Decision) (task_run_id runtime_record_id : str) exact
    (now : Z) : tx (string * string) :=
  match decision with
  | TaskEffectVerificationDecision.DidNotHappen =>
      _ ← release_exact_effect_once task_run_id runtime_record_id exact now;
      mret ("retry_requested", "retry_exact_effect_once")%string
  | TaskEffectVerificationDecision.Happened =>
      _ ← stop_after_observed_occurrence task_run_id runtime_record_id now;
      mret ("stopped_unverified", "none")%string
  | TaskEffectVerificationDecision.StopWithoutRepeating =>
      _ ← stop_with_unknown_outcome task_run_id runtime_record_id now;
      mret ("stopped_outcome_unknown", "none")%string
  end.

Definition insert_audit (row : TaskRecoveryAudit.t) : tx unit := fun db =>
  match Db.task_runs db !! TaskRecoveryAudit.task_run_id row with
  | None => (Err foreign_key_failed, db)
  | Some _ => (Ok tt, Db.with_audit (Db.task_recovery_audit db ++ [row]) db)
  end.

Definition resolve_in_transaction (now event_ms row_ms : Z) (task : TaskRunRecord.t)
    (task_run_id task_id : str) request : tx unit :=
  let runtime := ResolveTaskEffectVerificationRequest.runtime_record_id request in
  let decision := ResolveTaskEffectVerificationRequest.decision request in
  _ ← require_current_task_binding task_run_id task_id runtime;
  exact ← exact_verification_for_request task_run_id task_id request;
  let sequence := ExactEffectVerification.verification_sequence exact in
  if i64_max <? sequence then stale
  else
    _ ← require_exact_unresolved_event task_run_id task_id sequence exact;
    _ ← require_exact_effect_and_checkpoint task_run_id runtime exact;
    '(resolved_state, next_action) ← apply_decision decision task_run_id runtime exact now;
    _ ← insert_audit (TaskRecoveryAudit.mk task_run_id (lit "effect_verification_required")
          (lit resolved_state) (TaskEffectVerificationDecision.text decision)
          (lit next_action) now);
    appended ← append_event_in_transaction event_ms row_ms task
      (lit "workflow.effect.verification_resolved") ExecutedMutation
      (json_obj [("verificationSequence", json_u64 sequence);
                 ("nodeId", Value.String (ExactEffectVerification.node_id exact));
                 ("idempotencyKey", Value.String (ExactEffectVerification.idempotency_key exact));
                 ("effectKind", Value.String (ExactEffectVerification.effect_kind exact));
                 ("decision", Value.String (TaskEffectVerificationDecision.text decision));
                 ("nextAction", json_str next_action);
                 ("runtimeRecordId", Value.String runtime);
                 ("outcome", json_str (TaskEffectVerificationDecision.outcome decision));
                 ("postconditionVerified", Value.Bool false)]);
    match appended with
    | Some _ => mret tt
    | None => tx_err (lit "Protected action recovery requires a Project audit binding.")
    end.

(** [durable] is the outcome of [require_durable_store].  The clock is read
    before the transaction opens; the source reads it inside, as often. *)
Definition resolve (durable : res str unit) request : io TaskRunRecord.t :=
  _ ← lift durable;
  run ← lift (id_parse KTaskRun (ResolveTaskEffectVerificationRequest.task_run_id request));
  id ← lift (id_parse KTask (ResolveTaskEffectVerificationRequest.task_id request));
  let task_run_id := P0Contracts.as_str run in
  let task_id := P0Contracts.as_str id in
  let runtime := ResolveTaskEffectVerificationRequest.runtime_record_id request in
  _ ← lift (validate_runtime_identity runtime);
  task ← get_task task_run_id;
  let row := TaskRunRecord.row task in
  if negb (str_eqb (TaskRun.task_id row) task_id)
     || negb (bool_decide (TaskRun.runtime_kind row = RuntimeKind.workflow))
     || negb (str_eqb (TaskRun.runtime_record_id row) runtime)
     || negb (bool_decide (TaskRun.state row = Blocked))
     || negb (bool_decide (TaskRun.recovery_state row = RecoveryState.recoverable))
     || negb (TaskRunRecord.effect_verification_required task)
  then throw (lit "The protected action decision no longer matches this Task.")
  else
    now ← unix_time_ms_i64;
    event_ms ← unix_time_ms_i64;
    row_ms ← unix_time_ms_i64;
    _ ← sql (transaction (resolve_in_transaction now event_ms row_ms task task_run_id task_id request));
    get_task task_run_id.
End Verification.
