(* ===== verification/TaskFrame.v ===== *)
(** * What the repository leaves alone

    No function of [tasks/repository.rs] other than the two commands on effects
    changes a row of [task_effects]: in particular reconciliation, which removes
    expired runs together with what hangs on them, spares every run that has an
    effect.  The second half compares what the task centre offers with what the
    runtimes accept. *)
From S2P Require Import Prelude.
From S2P Require Import RustStr.
From S2P Require Import P0Contracts.
From S2P Require Import RustHash.
From S2P Require Import JsonValue.
From S2P Require Import Program.
From S2P Require Import TaskStore.
From S2P Require Import TaskRepository.
From S2P Require Import TaskTools.
Local Open Scope Z_scope.

Definition keeps_effects (db db' : Db) : Prop := Db.task_effects db' = Db.task_effects db.

(** Statements. *)
Definition spares {X} (q : tx X) : Prop := forall db, keeps_effects db (q db).2.

Create HintDb frame discriminated.

Lemma spares_ret {X} (x : X) : spares (mret x).
Proof. done. Qed.
Lemma spares_err {X} e : spares (tx_err e : tx X).
Proof. done. Qed.
Lemma spares_lift {X} (r : res str X) : spares (tx_lift r).
Proof. done. Qed.
Lemma spares_bind {X Y} (q : tx X) (f : X -> tx Y) :
  spares q -> (forall x, spares (f x)) -> spares (q ≫= f).
Proof.
  intros Hq Hf db. specialize (Hq db). unfold mbind, tx_bind, keeps_effects in *.
  destruct (q db) as [[x|e|] db1]; simpl in *; [|done|done].
  rewrite <- Hq. apply (Hf x db1).
Qed.
Lemma spares_transaction {X} (q : tx X) : spares q -> spares (transaction q).
Proof.
  intros Hq db. specialize (Hq db). unfold transaction.
  by destruct (q db) as [[x|e|] db1].
Qed.
Lemma spares_select {X} (f : Db -> X) : spares (select f).
Proof. done. Qed.

Ltac spare_update := intros db; unfold keeps_effects, change; simpl; by destruct (update_one _ _ _ _).
Lemma spares_update_run id c f : spares (update_run id c f).
Proof. spare_update. Qed.
Lemma spares_update_instance id c f : spares (update_instance id c f).
Proof. spare_update. Qed.
Lemma spares_update_schedule id c f : spares (update_schedule id c f).
Proof. spare_update. Qed.
Lemma spares_update_taskflow id c f : spares (update_taskflow id c f).
Proof. spare_update. Qed.
Lemma spares_cancel_steps id : spares (cancel_steps id).
Proof. apply spares_update_taskflow. Qed.
Lemma spares_update_agent id c s n : spares (update_agent id c s n).
Proof. spare_update. Qed.
Lemma spares_update_message id c s e n : spares (update_message id c s e n).
Proof. spare_update. Qed.
Lemma spares_bind_agent_project id p n : spares (bind_agent_project id p n).
Proof. spare_update. Qed.
Lemma spares_insert_event row : spares (insert_event row).
Proof. intros db. unfold insert_event. by case_match. Qed.
Lemma spares_insert_run id row : spares (insert_run id row).
Proof. intros db. unfold insert_run. by repeat case_match. Qed.
#[export] Hint Resolve spares_ret spares_err spares_lift spares_bind spares_transaction
  spares_select spares_update_run spares_update_instance spares_update_schedule
  spares_update_taskflow spares_cancel_steps spares_update_agent spares_update_message
  spares_bind_agent_project spares_insert_event spares_insert_run : frame.

Section Frame.
Context `{S : StoreLib} {Req Ans : Type}.
Notation io A := (io Db Req Ans str A).
Notation quiet := (within keeps_effects).

(** A run that is removed has no effect. *)
Lemma expired_no_effect cutoff db run key row effect :
  Db.task_effects db !! (run, key) = Some effect -> expired cutoff db run row = false.
Proof.
  intros He. unfold expired. apply andb_false_intro2, negb_false_iff.
  unfold has_effects. apply existsb_exists. exists ((run, key), effect).
  split; [|apply str_eqb_refl]. by apply list_elem_of_In, elem_of_map_to_list.
Qed.

Lemma spares_delete_expired cutoff : spares (delete_expired cutoff).
Proof.
  intros db. unfold keeps_effects. simpl. apply map_filter_id.
  intros [run key] effect He. simpl. unfold is_deleted. case_match; [|done].
  by eapply expired_no_effect.
Qed.

Lemma spares_append event_ms row_ms task event_type evidence payload :
  spares (append_event_in_transaction event_ms row_ms task event_type evidence payload).
Proof.
  unfold append_event_in_transaction. case_match; [|apply spares_ret].
  auto 20 with frame.
Qed.

Lemma quiet_sql {X} (q : tx X) : spares q -> quiet (sql q : io X).
Proof. intros H. apply within_sql, H. Qed.
End Frame.
#[export] Hint Resolve spares_delete_expired spares_append quiet_sql
  within_mret within_lift within_throw within_time within_random within_map_err
  within_attempt within_for_each within_for_fold : frame.

(** Walk through the binds and the branches of a program. *)
Ltac quiet_step :=
  match goal with
  | |- within _ (mbind _ _) => apply within_io_bind; [|intros ?]
  | |- within _ (io_for_each _ _) => apply within_for_each; intros ?
  | |- within _ (io_for_fold _ _ _) => apply within_for_fold; intros ? ?
  | |- within _ (match ?x with _ => _ end) => destruct x
  | |- within _ _ => progress cbv beta
  | |- within _ _ => solve [eauto 12 with frame]
  end.
Ltac quiet_program := repeat quiet_step.

Section Repository.
Context `{S : StoreLib} {Req Ans : Type}.
Notation io A := (io Db Req Ans str A).
Notation quiet := (within (Req := Req) (Ans := Ans) keeps_effects).

Lemma quiet_runtime_state k id : quiet (runtime_state k id).
Proof. unfold runtime_state. quiet_program. Qed.
Lemma quiet_adapters_cancel k id : quiet (adapters_cancel k id).
Proof. unfold adapters_cancel. quiet_program. Qed.
Lemma quiet_adapters_resume k id : quiet (adapters_resume k id).
Proof. unfold adapters_resume. quiet_program. Qed.
Lemma quiet_adapters_retry k id : quiet (adapters_retry k id).
Proof. unfold adapters_retry. quiet_program. Qed.
Lemma quiet_unresolved run : quiet (unresolved_effect_verification_exists run).
Proof. unfold unresolved_effect_verification_exists. quiet_program. Qed.
Lemma quiet_list_tasks filter : quiet (list_tasks filter).
Proof. unfold list_tasks. quiet_program. Qed.
Lemma quiet_get_task id : quiet (get_task id).
Proof. unfold get_task. quiet_program. Qed.
Lemma quiet_append_event task event_type evidence payload :
  quiet (append_event task event_type evidence payload).
Proof. unfold append_event, append_event_with_sequence. quiet_program. Qed.
#[local] Hint Resolve quiet_runtime_state quiet_adapters_cancel quiet_adapters_resume
  quiet_adapters_retry quiet_unresolved quiet_list_tasks quiet_get_task
  quiet_append_event : frame.
Lemma quiet_record_domain_event run event_type evidence payload :
  quiet (record_domain_event run event_type evidence payload).
Proof. unfold record_domain_event. quiet_program. Qed.
Lemma quiet_upsert_runtime k id project state origin summary error created updated :
  quiet (upsert_runtime k id project state origin summary error created updated).
Proof. unfold upsert_runtime. quiet_program. Qed.
#[local] Hint Resolve quiet_upsert_runtime : frame.
Lemma quiet_ingest rows k origin counts : quiet (ingest rows k origin counts).
Proof. unfold ingest. quiet_program. Qed.
Lemma quiet_register_task task : quiet (register_task task).
Proof. unfold register_task. quiet_program. Qed.
Lemma quiet_reconcile_task lost task : quiet (reconcile_task lost task).
Proof. unfold reconcile_task. quiet_program. Qed.
#[local] Hint Resolve quiet_ingest quiet_register_task quiet_reconcile_task : frame.
Lemma quiet_reconcile_all : quiet reconcile_all.
Proof. unfold reconcile_all. quiet_program. Qed.
#[local] Hint Resolve quiet_reconcile_all : frame.
Lemma quiet_control durable id action : quiet (control durable id action).
Proof. unfold control, apply_control. quiet_program. Qed.
Lemma quiet_acknowledge id : quiet (acknowledge id).
Proof. unfold acknowledge. quiet_program. Qed.
Lemma quiet_require_agent_runtime_task ensure id :
  spares ensure -> quiet (require_agent_runtime_task ensure id).
Proof. intros H. unfold require_agent_runtime_task. quiet_program. Qed.
End Repository.
#[export] Hint Resolve quiet_list_tasks quiet_get_task quiet_record_domain_event
  quiet_reconcile_all quiet_control quiet_acknowledge quiet_require_agent_runtime_task : frame.

(** ** Controls and errors of tasks

    What the task centre offers and what its runtimes accept; what a tool's error
    report means once it has been decoded. *)
(** ** Controls *)

(** The statuses each runtime's table admits: CHECK constraints for agents and
    workflow instances (as of migration 0004), the serde names of
    [TaskFlowStatus], the statuses the message queue is given. *)
Definition statuses (k : RuntimeKind.t) : list string :=
  match k with
  | RuntimeKind.taskflow =>
      ["queued"; "active"; "verified"; "failed"; "diagnostic"; "paused"; "secure_pause";
       "cancelled"]
  | RuntimeKind.workflow => ["Pending"; "Running"; "AwaitingApproval"; "Completed"; "Failed"]
  | RuntimeKind.agent => ["running"; "completed"; "failed"; "halted"; "cancelled"]
  | RuntimeKind.queued_message => ["queued"; "processing"; "completed"; "failed"; "cancelled"]
  end%string.

Section Controls.
Context `{S : StoreLib} {Req Ans : Type} (now : Z) (bytes : list Z) (tool : Req -> Ans).
Notation solo := (solo now bytes tool).

(** The record agrees with its owner, whose status is one its table admits. *)
Definition in_line (row : TaskRun.t) (db : Db) : Prop :=
  exists status error,
    runtime_row (TaskRun.runtime_kind row) (TaskRun.runtime_record_id row) db
      = Some (status, error)
    /\ in_list status (statuses (TaskRun.runtime_kind row)) = true
    /\ canonical_state status = TaskRun.state row.

Lemma no_unverified id db :
  has_unverified_effects id db = false -> unverified_effects id db = 0.
Proof.
  unfold has_unverified_effects, unverified_effects. intros H.
  replace (List.filter _ _) with (@nil (str * str * TaskEffect.t)); [done|].
  induction (map_to_list (Db.task_effects db)) as [|[[run k] e] l IH]; [done|].
  cbn in H |- *. apply orb_false_iff in H as [-> H]. by apply IH.
Qed.

Lemma in_list_cases s names :
  in_list s names = true -> exists name, name ∈ names /\ s = lit name.
Proof.
  unfold in_list. intros H. apply existsb_exists in H as (name & Hin & Heq).
  apply str_eqb_eq in Heq as ->. exists name. split; [by apply list_elem_of_In|done].
Qed.

(** The statuses in which each runtime accepts a control. *)
Definition cancellable (k : RuntimeKind.t) (status : str) : bool :=
  match k with
  | RuntimeKind.taskflow => negb (in_list status ["verified"; "cancelled"])
  | RuntimeKind.workflow => false
  | RuntimeKind.agent => in_list status ["running"; "halted"]
  | RuntimeKind.queued_message => equals status "queued"
  end.
Definition resumable (k : RuntimeKind.t) (status : str) : bool :=
  match k with
  | RuntimeKind.taskflow => in_list status ["paused"; "diagnostic"]
  | RuntimeKind.workflow => equals status "Paused"
  | _ => false
  end.
Definition retryable (k : RuntimeKind.t) (status : str) : bool :=
  match k with
  | RuntimeKind.taskflow => in_list status ["failed"; "diagnostic"]
  | RuntimeKind.workflow => equals status "Failed"
  | RuntimeKind.agent => false
  | RuntimeKind.queued_message => in_list status ["failed"; "cancelled"]
  end.

(** [p] succeeds from [db], leaving the owner's row in a state. *)
Definition leaves (k : RuntimeKind.t) (id : str) (target : TaskState)
    (p : io Db Req Ans str unit) (db : Db) : Prop :=
  exists db' log status error,
    solo p db = (Ok tt, db', log) /\ runtime_row k id db' = Some (status, error)
    /\ canonical_state status = target.

Local Arguments lit : simpl never.
Local Arguments in_list : simpl never.
Local Arguments equals : simpl never.
Local Arguments canonical_state : simpl never.

Ltac owner_row H :=
  unfold runtime_row in H;
  match type of H with context [?m !! ?i] =>
    let row := fresh "row" in destruct (m !! i) as [row|] eqn:?; [|done]
  end; injection H as <- <-.
(** Runs a program of updates whose conditions are known. *)
Ltac updated :=
  cbn; unfold update_one;
  repeat match goal with
    | H : ?m !! ?i = Some _ |- context [?m !! ?i] => rewrite H; cbn
    | H : ?b = true |- context [if ?b then _ else _] => rewrite H; cbn
    | |- context [<[?i := ?x]> ?m !! ?i] => rewrite (lookup_insert_eq m i x); cbn
    end.

(** Compares literals. *)
Ltac literals :=
  repeat match goal with |- context [equals (lit ?a) ?b] =>
    let v := eval vm_compute in (equals (lit a) b) in change (equals (lit a) b) with v
  end; cbn [andb].

Lemma runtime_cancels k id db status error :
  runtime_row k id db = Some (status, error) -> cancellable k status = true ->
  leaves k id Cancelled (adapters_cancel k id) db.
Proof.
  intros Hrow Ha. destruct k; try done; owner_row Hrow; cbn in Ha;
    do 4 eexists; (split; [updated; reflexivity|]; split; [updated; reflexivity|done]).
Qed.

Lemma runtime_resumes k id db status error :
  runtime_row k id db = Some (status, error) -> resumable k status = true ->
  leaves k id Queued (adapters_resume k id) db.
Proof.
  intros Hrow Ha. destruct k; try done; owner_row Hrow; cbn in Ha;
    do 4 eexists; (split; [updated; reflexivity|]; split; [updated; reflexivity|done]).
Qed.

Lemma runtime_retries k id db status error :
  runtime_row k id db = Some (status, error) -> retryable k status = true ->
  leaves k id Queued (adapters_retry k id) db.
Proof.
  intros Hrow Ha. destruct k; try done; owner_row Hrow; cbn in Ha;
    do 4 eexists; (split; [updated; reflexivity|]; split; [updated; reflexivity|done]).
Qed.

(** Which controls go with which status. *)
Definition control_fits (k : RuntimeKind.t) (name : str) (unverified : bool) (action : str)
  : bool :=
  let state := canonical_state name in
  (equals action "cancel" && cancellable k name
     && bool_decide (state ∈ [Queued; Planning; AwaitingApproval; Running; Blocked]))
  || (equals action "resume" && bool_decide (state = Blocked)
      && (resumable k name || bool_decide (k = RuntimeKind.agent)))
  || (equals action "retry" && bool_decide (state = Failed) && retryable k name
      && negb unverified)
  || equals action "acknowledge_failure".

Lemma controls_fit k name required unverified action :
  in_list name (statuses k) = true ->
  action ∈ controls (canonical_state name) k required unverified ->
  control_fits k name unverified action = true.
Proof.
  intros (text & Hin & ->)%in_list_cases Hact.
  apply list_elem_of_In in Hact. revert action Hact. apply List.forallb_forall.
  revert text Hin. apply list.Forall_forall.
  destruct k, required, unverified; repeat constructor; by vm_compute.
Qed.

(** What a control makes of its task. *)
Definition outcome (action : str) : TaskState :=
  if equals action "cancel" then Cancelled else Queued.

(** Every control that is offered for a task in the state of its own runtime's row
    ([in_line]) is accepted by that runtime, and does what it says: the row shows the
    task cancelled, or queued again. Two exceptions: acknowledging a failure is a command
    of its own, and the resume of a halted agent goes to the agent runtime. The scheduler
    marks the task of a workflow as blocked whatever its row says; see
    [workflow_resume_is_always_refused]. *)
Theorem offered_controls_are_accepted db before action :
  let row := TaskRunRecord.row before in
  let kind := TaskRun.runtime_kind row in
  in_line row db ->
  action ∈ controls (TaskRun.state row) kind
             (TaskRunRecord.effect_verification_required before)
             (has_unverified_effects (TaskRunRecord.task_run_id before) db) ->
  action <> lit "acknowledge_failure" ->
  (kind = RuntimeKind.agent -> action <> lit "resume") ->
  leaves kind (TaskRun.runtime_record_id row) (outcome action) (apply_control action before) db.
Proof.
  intros row kind (status & error & Hrow & Hst & Hcan) Hact Hack Hagent.
  rewrite <- Hcan in Hact. pose proof (controls_fit _ _ _ _ _ Hst Hact) as Hfit.
  unfold control_fits in Hfit. rewrite Hcan in Hfit. unfold apply_control.
  fold row. fold kind.
  apply orb_true_iff in Hfit as [[[Hfit|Hfit]%orb_true_iff|Hfit]%orb_true_iff|Hfit%str_eqb_eq];
    [..|done]; repeat (apply andb_true_iff in Hfit as [Hfit ?]);
    pose proof (proj1 (str_eqb_eq _ _) Hfit) as ->.
  - literals. rewrite H. by eapply runtime_cancels.
  - literals. rewrite H0. apply orb_true_iff in H as [H|H%bool_decide_eq_true].
    + by eapply runtime_resumes.
    + by destruct (Hagent H).
  - literals. rewrite H1.
    apply negb_true_iff in H.
    destruct (runtime_retries _ _ _ _ _ Hrow H0) as (db' & log & rest).
    exists db', log. cbn -[adapters_retry unverified_effects]. rewrite (no_unverified _ _ H). exact rest.
Qed.

(** The resume offered for a blocked workflow is refused in every status its row can
    have: [adapters_resume] waits for "Paused", which the table does not admit. *)
Theorem workflow_resume_is_always_refused before db unverified status error :
  let row := TaskRunRecord.row before in
  TaskRun.runtime_kind row = RuntimeKind.workflow -> TaskRun.state row = Blocked ->
  runtime_row RuntimeKind.workflow (TaskRun.runtime_record_id row) db = Some (status, error) ->
  in_list status (statuses RuntimeKind.workflow) = true ->
  lit "resume" ∈ controls Blocked RuntimeKind.workflow false unverified /\
  exists e log, solo (apply_control (lit "resume") before) db = (Err e, db, log).
Proof.
  intros row Hk Hb Hrow Hst. split; [by left|].
  unfold apply_control. fold row. literals. rewrite Hb, Hk, bool_decide_eq_true_2 by done.
  owner_row Hrow. assert (equals (ExecutionRow.status row0) "Paused" = false) as Hp.
  { apply in_list_cases in Hst as (text & Hin & ->). revert text Hin.
    apply list.Forall_forall. repeat constructor. }
  do 2 eexists. cbn. unfold update_one. rewrite Heqo. cbn. rewrite Hp. by destruct db.
Qed.
End Controls.

(** ** A paused flow *)
Module PausedFlow.
Import IntegerJson PlainStore.

Definition run (k : RuntimeKind.t) : TaskRun.t :=
  TaskRun.mk (lit "task:1") None k (lit "owner") Blocked (lit "taskflow") (lit "task:1")
    (lit "tidy up") None 0 0 None None RecoveryState.reconciled.
Definition record (k : RuntimeKind.t) : TaskRunRecord.t :=
  TaskRunRecord.mk (lit "task_run:1") (run k) false
    (controls Blocked k false false).
Definition db : Db :=
  Db.with_taskflows {[lit "owner" := Taskflow.mk (lit "s") (lit "paused") (lit "tidy up") 0 0 []]}
    Db.empty.
End PausedFlow.

Lemma offered_controls_are_accepted_witness :
  lit "resume" ∈ TaskRunRecord.valid_controls (PausedFlow.record RuntimeKind.taskflow)
  /\ leaves (Req := unit) (Ans := unit) 7 [] id RuntimeKind.taskflow (lit "owner") Queued
       (apply_control (lit "resume") (PausedFlow.record RuntimeKind.taskflow)) PausedFlow.db.
Proof.
  split; [by left|].
  apply (offered_controls_are_accepted 7 [] id PausedFlow.db
           (PausedFlow.record RuntimeKind.taskflow) (lit "resume")).
  - by exists (lit "paused"), None.
  - by left.
  - done.
  - done.
Defined.
