(* ===== verification/EffectSystem.v ===== *)
(** * The journal under concurrency

    Runs of tools, a person's decisions, the commands of the task centre and
    reconciliation as threads over one database ([Program.system]).  The protocol
    below follows one row of [task_effects]: a thread holds the right to call the
    tool from the moment it has claimed the row until it has called; a thread
    holds the right to delete the row after the tool has reported that nothing
    changed, or because a person has decided that nothing happened. *)
From S2P Require Import Prelude.
From S2P Require Import RustStr.
From S2P Require Import P0Contracts.
From S2P Require Import JsonValue.
From S2P Require Import Program.
From S2P Require Import TaskStore.
From S2P Require Import TaskRepository.
From S2P Require Import TaskTools.
From S2P Require Import EffectJournal.
From S2P Require Import EffectVerification.
From S2P Require Import TaskFrame.
Local Open Scope Z_scope.

(** What can be going on at the same time. *)
Module EffectJob.
Inductive t `{J : JsonLib} : Type :=
  | ExecuteTool (execution_id node_id label tool_name : str) (arguments : Value) (timeout_ms : Z)
  | RunEffect (task_run_id node_id label : str) (request : ValidatedTaskToolRequest.t)
    (timeout_ms : Z)
  | ResolveVerification (request : ResolveTaskEffectVerificationRequest.t)
  | ReserveCommand (request : TaskEffectRequest.t)
  | VerifyCommand (request : TaskEffectRequest.t)
  | ControlTask (task_run_id action : str)
  | AcknowledgeTask (task_run_id : str)
  | ReconcileAll.
End EffectJob.

Module Reply.
Inductive t `{J : JsonLib} : Type :=
  | Tool (r : res WorkflowRuntimeError.t Value)
  | Other.
End Reply.

Section System.
Context `{S : StoreLib} {D : Digest}.
Context (registry : gmap str (TaskToolRegistration.t Db)).
Context (ensure_internal_project : tx str) (durable : res str unit).
Context (scope_required : str -> tx bool) (scope_allows : str -> str -> str -> Value -> tx bool).
Notation Job := EffectJob.t.
Notation prog := (prog Db ToolCall.t ToolOutcome.t).
Notation io := (io Db ToolCall.t ToolOutcome.t).
Notation Event := (event ToolCall.t ToolOutcome.t Job Reply.t).

Definition reply {E A} (f : res E A -> Reply.t) (p : io E A) : prog Reply.t :=
  bind (fun r => Ret (f r)) p.
Definition other {E A} (p : io E A) : prog Reply.t := reply (fun _ => Reply.Other) p.

(** [RunEffect] is the part of [ExecuteTool] from the reservation on. *)
Definition run_effect (task_run_id node_id label : str) (request : ValidatedTaskToolRequest.t)
    (timeout_ms : Z) : io WorkflowRuntimeError.t Value :=
  let tool_name := ValidatedTaskToolRequest.operation request in
  reservation ← reserve_effect_for_task task_run_id node_id tool_name
    (ValidatedTaskToolRequest.arguments request);
  carry_out registry task_run_id node_id label tool_name timeout_ms request reservation.

Definition effect_job_body (j : Job) : prog Reply.t :=
  match j with
  | EffectJob.ExecuteTool execution_id node_id label tool_name arguments timeout_ms =>
      reply Reply.Tool
        (execute_registered_task_tool registry ensure_internal_project scope_required
           scope_allows execution_id node_id label tool_name arguments timeout_ms)
  | EffectJob.RunEffect task_run_id node_id label request timeout_ms =>
      reply Reply.Tool (run_effect task_run_id node_id label request timeout_ms)
  | EffectJob.ResolveVerification request => other (EffectVerification.resolve durable request)
  | EffectJob.ReserveCommand request => other (reserve_task_effect request)
  | EffectJob.VerifyCommand request => other (verify_task_effect request)
  | EffectJob.ControlTask id action => other (control durable id action)
  | EffectJob.AcknowledgeTask id => other (acknowledge id)
  | EffectJob.ReconcileAll => other reconcile_all
  end.

(** ** What the log says about one effect *)
Section Key.
Context (key : str * str).

Definition call_on (call : ToolCall.t) : bool :=
  match ToolCall.effect call with
  | Some effect => bool_decide (row_key effect = key)
  | None => false
  end.
(** The tool said, in a way that may be believed, that it changed nothing. *)
Definition reported_unchanged (call : ToolCall.t) (outcome : ToolOutcome.t) : bool :=
  match ToolCall.effect call, outcome with
  | Some effect, ToolOutcome.Refused raw =>
      let operation := ReservedEffect.operation effect in
      match parse_retry_safe_unchanged_error registry operation
              (normalize_agent_error registry operation raw) with
      | Some _ => true
      | None => false
      end
  | _, _ => false
  end.
(** A person decided that the effect did not happen. *)
Definition decides_absent (j : Job) : bool :=
  match j with
  | EffectJob.ResolveVerification request =>
      match ResolveTaskEffectVerificationRequest.decision request,
            ResolveTaskEffectVerificationRequest.idempotency_key request with
      | TaskEffectVerificationDecision.DidNotHappen, Some k =>
          bool_decide ((ResolveTaskEffectVerificationRequest.task_run_id request, k) = key)
      | _, _ => false
      end
  | _ => false
  end.
Definition overwrites (j : Job) : bool :=
  match j with
  | EffectJob.VerifyCommand request =>
      bool_decide ((TaskEffectRequest.task_run_id request,
                    TaskEffectRequest.idempotency_key request) = key)
  | _ => false
  end.
Definition runs_effect (j : Job) : bool :=
  match j with
  | EffectJob.RunEffect task_run_id node_id _ request _ =>
      bool_decide (row_key (new_effect task_run_id node_id
        (ValidatedTaskToolRequest.operation request)
        (ValidatedTaskToolRequest.arguments request)) = key)
  | _ => false
  end.

Definition count (f : Event -> bool) (log : list Event) : nat :=
  sum_list_with (fun e => if f e then 1%nat else 0%nat) log.
Definition calls (log : list Event) : nat :=
  count (fun e => match e with Noted (Started call) => call_on call | _ => false end) log.
Definition unchanged_reports (log : list Event) : nat :=
  count (fun e => match e with
                  | Noted (Answered call outcome) =>
                      call_on call && reported_unchanged call outcome
                  | _ => false
                  end) log.
Definition absence_decisions (log : list Event) : nat :=
  count (fun e => match e with Spawned j => decides_absent j | _ => false end) log.

Definition row_state (db : Db) : option EffectState.t :=
  option_map TaskEffect.state (Db.task_effects db !! key).
Definition row_digest (db : Db) : option str :=
  match Db.task_effects db !! key with Some row => TaskEffect.result_digest row | None => None end.
(** The row says that the effect may already have been asked for. *)
Definition spent (db : Db) : nat :=
  match row_state db with
  | Some (EffectState.executed | EffectState.verified) => 1
  | _ => 0
  end.

(** ** The protocol *)
Inductive role : Type := Idle | Claimed | Calling | Spare | Overwriter.
Record token : Type := Token { holds : role; seal : option str }.

Inductive role_move : role -> role -> option EffectState.t -> option EffectState.t -> Prop :=
  | move_same r s : role_move r r s s
  | move_reserve r : role_move r r None (Some EffectState.reserved)
  | move_on r s s' : s' <> EffectState.reserved -> role_move r r (Some s) (Some s')
  | move_claim : role_move Idle Claimed (Some EffectState.reserved) (Some EffectState.executed)
  | move_release : role_move Spare Idle (Some EffectState.executed) None.

Definition moves (t t' : token) (db db' : Db) : Prop :=
  role_move (holds t) (holds t') (row_state db) (row_state db')
  /\ (seal t' = seal t \/ exists d, seal t' = Some d /\ row_digest db' = Some d)
  /\ (holds t = Overwriter
      \/ forall d, row_digest db = Some d -> row_digest db' = Some d).
Definition starts (t : token) (call : ToolCall.t) (t' : token) : Prop :=
  if call_on call then t = Token Claimed (seal t) /\ t' = Token Calling (seal t)
  else t' = t.
Definition answers (t : token) (call : ToolCall.t) (outcome : ToolOutcome.t) (t' : token)
  : Prop :=
  if call_on call
  then t' = Token (if reported_unchanged call outcome then Spare else Idle) (seal t)
  else t' = t.
Definition init (j : Job) : token :=
  Token (if decides_absent j then Spare else if overwrites j then Overwriter else Idle) None.
Definition returns (j : Job) (t : token) (r : Reply.t) : Prop :=
  forall v, r = Reply.Tool (Ok v) -> runs_effect j = true -> seal t = Some (value_digest v).

Definition is_claimed (t : token) : nat := match holds t with Claimed => 1 | _ => 0 end.
Definition is_spare (t : token) : nat := match holds t with Spare => 1 | _ => 0 end.

Definition accounts (spent_at_start : nat) (db : Db) (ts : list (option token))
  (log : list Event) : Prop :=
  exists claims deletes : nat,
  (claims <= deletes + spent db)%nat
  /\ (spent_at_start + calls log + held is_claimed ts <= claims)%nat
  /\ (deletes + held is_spare ts <= unchanged_reports log + absence_decisions log)%nat.

Definition overwritten (log : list Event) : Prop :=
  exists j, Spawned j ∈ log /\ overwrites j = true.
Definition digests (db : Db) (ts : list (option token)) (log : list Event) : Prop :=
  (forall n t, ts !! n = Some (Some t) -> holds t = Overwriter -> overwritten log)
  /\ (overwritten log
      \/ (forall n t d, ts !! n = Some (Some t) -> seal t = Some d -> row_digest db = Some d)
         /\ (forall j v, Returned j (Reply.Tool (Ok v)) ∈ log -> runs_effect j = true ->
                row_digest db = Some (value_digest v))).

Definition effect_invariant (spent_at_start : nat) (db : Db) (ts : list (option token))
  (log : list Event) : Prop :=
  accounts spent_at_start db ts log /\ digests db ts log.

(** ** The protocol keeps the invariant *)
Lemma count_snoc f l e : count f (l ++ [e]) = (count f l + if f e then 1 else 0)%nat.
Proof. unfold count. rewrite sum_list_with_app. simpl. lia. Qed.

Lemma role_move_accounts r r' s s' sp :
  role_move r r' s s' ->
  forall claims deletes : nat,
  (claims <= deletes + match s with Some (EffectState.executed | EffectState.verified) => 1
                       | _ => 0 end)%nat ->
  sp = (match r with Spare => 1 | _ => 0 end)%nat ->
  exists claims' deletes' : nat,
  (claims' <= deletes' + match s' with Some (EffectState.executed | EffectState.verified) => 1
                           | _ => 0 end)%nat
  /\ (match r' with Claimed => 1 | _ => 0 end + claims
        <= claims' + match r with Claimed => 1 | _ => 0 end)%nat
  /\ (deletes' + match r' with Spare => 1 | _ => 0 end <= deletes + sp)%nat.
Proof.
  intros Hm claims deletes Hle ->. destruct Hm as [r s|r|r s s' Hs| |].
  - exists claims, deletes. split_and!; [done|lia|lia].
  - exists claims, deletes. split_and!; [lia|lia|lia].
  - exists claims, deletes. split_and!; [|lia|lia].
  destruct s'; [done|destruct s; lia..].
  - exists (claims + 1)%nat, deletes. split_and!; lia.
  - exists claims, (deletes + 1)%nat. split_and!; lia.
Qed.

Lemma accounts_moves n0 db db' ts log n t t' :
  accounts n0 db ts log -> ts !! n = Some (Some t) -> moves t t' db db' ->
  accounts n0 db' (<[n := Some t']> ts) log.
Proof.
  intros (claims & deletes & H1 & H2 & H3) Hn (Hm & _).
  destruct (role_move_accounts _ _ _ _ _ Hm claims deletes H1 eq_refl)
  as (claims' & deletes' & H1' & H2' & H3').
  exists claims', deletes'.
  pose proof (held_insert is_claimed ts n (Some t) (Some t') Hn) as Hc.
  pose proof (held_insert is_spare ts n (Some t) (Some t') Hn) as Hs.
  simpl in Hc, Hs. unfold is_claimed, is_spare in *.
  split_and!; [done|lia|lia].
Qed.

Lemma accounts_log n0 db ts log e :
  (forall j, e = Spawned j -> decides_absent j = false) -> 
  (forall call, e = Noted (Started call) -> call_on call = false) ->
  accounts n0 db ts log -> accounts n0 db ts (log ++ [e]).
Proof.
  intros Hj Hc (claims & deletes & H1 & H2 & H3). exists claims, deletes.
  unfold calls, unchanged_reports, absence_decisions in *. rewrite !count_snoc.
  split_and!; [done| |lia].
  destruct e as [j|[call|call a]|j r]; [lia| |lia|lia]. rewrite (Hc call eq_refl). lia.
Qed.

Lemma digests_log db ts log e :
  (forall j v, e = Returned j (Reply.Tool (Ok v)) -> runs_effect j = true ->
     overwritten log \/ row_digest db = Some (value_digest v)) ->
  digests db ts log -> digests db ts (log ++ [e]).
Proof.
  intros He [Ho Hd].
  assert (overwritten log -> overwritten (log ++ [e])) as Hgrow.
  { intros (j & Hj & Hk). exists j. split; [|done]. apply elem_of_app. by left. }
  split; [by intros n t Hn Hh; eauto|].
  destruct Hd as [Hd|[Hs Hr]]; [left; eauto|].
  destruct e as [j|nt|j [[v|er|]|]]; try (right; split; [done|]; intros j' v' Hin Hj;
  apply elem_of_app in Hin as [Hin|Hin%list_elem_of_singleton]; [by eapply Hr|done]).
  destruct (runs_effect j) eqn:Hj.
  - destruct (He j v eq_refl Hj) as [Hov|Hrow]; [left; eauto|].
  right. split; [done|]. intros j' v' Hin Hj'.
  apply elem_of_app in Hin as [Hin|Hin%list_elem_of_singleton]; [by eapply Hr|by simplify_eq].
  - right. split; [done|]. intros j' v' Hin Hj'.
  apply elem_of_app in Hin as [Hin|Hin%list_elem_of_singleton]; [by eapply Hr|congruence].
Qed.

Lemma digests_threads db ts ts' log :
  (forall n t, ts' !! n = Some (Some t) ->
     exists n0 t0, ts !! n0 = Some (Some t0) /\ seal t0 = seal t
       /\ (holds t = Overwriter -> holds t0 = Overwriter)) ->
  digests db ts log -> digests db ts' log.
Proof.
  intros Hsub [Ho Hd]. split.
  - intros n t Hn Hh. destruct (Hsub n t Hn) as (n0 & t0 & Hn0 & _ & Hi). eauto.
  - destruct Hd as [Hd|[Hs Hr]]; [by left|right]. split; [|done].
  intros n t d Hn Hd. destruct (Hsub n t Hn) as (n0 & t0 & Hn0 & He & _).
  eapply Hs; [done|congruence].
Qed.

Lemma inserted_thread (ts : list (option token)) n (t t' : token) m t1 :
  ts !! n = Some (Some t) -> <[n := Some t']> ts !! m = Some (Some t1) ->
  seal t' = seal t -> (holds t' = Overwriter -> holds t = Overwriter) ->
  exists n0 t0, ts !! n0 = Some (Some t0) /\ seal t0 = seal t1
  /\ (holds t1 = Overwriter -> holds t0 = Overwriter).
Proof.
  intros Hn Hm Hs Hh. destruct (decide (m = n)) as [->|Hne].
  - rewrite list_lookup_insert_eq in Hm by (by eapply lookup_lt_Some). simplify_eq.
  by exists n, t.
  - rewrite list_lookup_insert_ne in Hm by done. by exists m, t1.
Qed.

Lemma digests_moves db db' ts log n t t' :
  digests db ts log -> ts !! n = Some (Some t) -> moves t t' db db' ->
  digests db' (<[n := Some t']> ts) log.
Proof.
  intros [Ho Hd] Hn (Hm & Hseal & Hkeep).
  assert (holds t' = Overwriter -> holds t = Overwriter) as Hover
  by (inversion Hm; congruence).
  split.
  { intros m t1 Hm1 Hh. destruct (decide (m = n)) as [->|Hne].
  - rewrite list_lookup_insert_eq in Hm1 by (by eapply lookup_lt_Some). simplify_eq. eauto.
  - rewrite list_lookup_insert_ne in Hm1 by done. eauto. }
  destruct Hd as [Hd|[Hs Hr]]; [by left|].
  destruct Hkeep as [Hk|Hk]; [left; eauto|right]. split.
  - intros m t1 d Hm1 Hd. destruct (decide (m = n)) as [->|Hne].
  + rewrite list_lookup_insert_eq in Hm1 by (by eapply lookup_lt_Some). simplify_eq.
      destruct Hseal as [Hsame|(d' & Hd' & Hrow)]; [|by simplify_eq].
      eapply Hk, Hs; [done|congruence].
  + rewrite list_lookup_insert_ne in Hm1 by done. eauto.
  - intros j v Hin Hj. eauto.
Qed.

Lemma kept_row db db' : keeps_effects db db' ->
  row_state db' = row_state db /\ row_digest db' = row_digest db.
Proof. intros H. unfold row_state, row_digest. by rewrite H. Qed.

#[export] Instance effect_protocol n0 :
  Sound keeps_effects init moves starts answers returns (effect_invariant n0).
Proof.
  split.
  - intros db ts l j [(c & d & H1 & H2 & H3) HD]. split.
  + exists c, d. unfold calls, unchanged_reports, absence_decisions in *.
      rewrite !count_snoc, !held_app. unfold init, is_claimed, is_spare in *.
      split_and!; [done|destruct (decides_absent j), (overwrites j); simpl; lia|].
      destruct (decides_absent j), (overwrites j); simpl; lia.
  + destruct HD as [Ho Hd].
      assert (forall t n, (ts ++ [Some (init j)]) !! n = Some (Some t) ->
                t = init j \/ ts !! n = Some (Some t)) as Hcases.
      { intros t n Hn. apply lookup_app_Some in Hn as [Hn|[_ Hn]]; [by right|].
        apply list_lookup_singleton_Some in Hn as [_ Hn]. simplify_eq. by left. }
      assert (forall l', overwritten l -> overwritten (l ++ l')) as Hgrow.
      { intros l' (j' & Hj & Hk). exists j'. split; [|done]. apply elem_of_app. by left. }
      split.
      * intros n t Hn Hh. destruct (Hcases t n Hn) as [->|Hn']; [|eauto].
        exists j. split; [apply elem_of_app; right; apply list_elem_of_here|].
        unfold init in Hh. simpl in Hh. by destruct (decides_absent j), (overwrites j).
      * destruct Hd as [Hd|[Hs Hr]]; [left; auto|right]. split.
        -- intros n t d' Hn Hd'. destruct (Hcases t n Hn) as [->|Hn']; [done|eauto].
        -- intros j' v Hin. apply elem_of_app in Hin as [Hin|Hin%list_elem_of_singleton];
             [eauto|done].
  - intros db db' ts l n t t' [HA HD] Hn Hm.
  split; [by eapply accounts_moves|by eapply digests_moves].
  - intros db ts l n t t' call [HA HD] Hn Hst. unfold starts in Hst.
  destruct (call_on call) eqn:Hc.
  + destruct Hst as [Ht ->]. rewrite Ht in Hn. split.
      * destruct HA as (c & d & H1 & H2 & H3). exists c, d.
        pose proof (held_insert is_claimed ts n _ (Some (Token Calling (seal t))) Hn) as Hcl.
        pose proof (held_insert is_spare ts n _ (Some (Token Calling (seal t))) Hn) as Hsp.
        simpl in Hcl, Hsp. unfold calls, unchanged_reports, absence_decisions in *.
        rewrite !count_snoc, Hc.
        unfold is_claimed, is_spare in *. simpl in *. split_and!; [done|lia|lia].
      * apply digests_log; [done|]. eapply digests_threads, HD.
        intros m t1 Hm1. eapply inserted_thread; [exact Hn|exact Hm1|done|done].
  + subst t'. rewrite (list_insert_id ts n (Some t)) by done. split.
      * apply accounts_log; [done| |done]. by intros c' [= <-].
      * by apply digests_log.
  - intros db ts l n t t' call a [HA HD] Hn Hans. unfold answers in Hans.
  destruct (call_on call) eqn:Hc.
  + split.
      * destruct HA as (c & d & H1 & H2 & H3). exists c, d.
        pose proof (held_insert is_claimed ts n _ (Some t') Hn) as Hcl.
        pose proof (held_insert is_spare ts n _ (Some t') Hn) as Hsp.
        simpl in Hcl, Hsp. subst t'. unfold calls, unchanged_reports, absence_decisions in *.
        rewrite !count_snoc, Hc. unfold is_claimed, is_spare in *.
        destruct (reported_unchanged call a); simpl in *; split_and!; try done; lia.
      * apply digests_log; [done|]. eapply digests_threads, HD.
        intros m t1 Hm1. subst t'. eapply inserted_thread; [exact Hn|exact Hm1|done|].
        simpl. by destruct (reported_unchanged call a).
  + subst t'. rewrite (list_insert_id ts n (Some t)) by done. split.
      * by apply accounts_log.
      * by apply digests_log.
  - intros db ts l n t j r [HA HD] Hn Hret. split.
  + apply accounts_log; [done|done|]. destruct HA as (c & d & H1 & H2 & H3). exists c, d.
      pose proof (held_none is_claimed ts n). pose proof (held_none is_spare ts n).
      split_and!; [done|lia|lia].
  + eapply digests_threads.
      { intros m t1 Hm1. destruct (decide (m = n)) as [->|Hne].
        - by rewrite list_lookup_insert_eq in Hm1 by (by eapply lookup_lt_Some).
        - rewrite list_lookup_insert_ne in Hm1 by done. by exists m, t1. }
      apply digests_log; [|done]. intros j' v [= -> ->] Hj.
      destruct HD as [_ [Hd|[Hs _]]]; [by left|right].
      eapply Hs; [done|by apply Hret].
  - intros db ts l n [HA HD]. split.
  + destruct HA as (c & d & H1 & H2 & H3). exists c, d.
      pose proof (held_none is_claimed ts n). pose proof (held_none is_spare ts n).
      split_and!; [done|lia|lia].
  + eapply digests_threads, HD. intros m t1 Hm1.
      destruct (decide (m = n)) as [->|Hne].
      * destruct (decide (n < length ts)%nat).
        -- by rewrite list_lookup_insert_eq in Hm1.
        -- rewrite list_insert_ge in Hm1 by lia. by exists n, t1.
      * rewrite list_lookup_insert_ne in Hm1 by done. by exists m, t1.
  - intros db db' ts l [HA HD] Hk. destruct (kept_row _ _ Hk) as [Hs Hd]. split.
  + destruct HA as (c & d & H1 & H2 & H3). exists c, d.
      split_and!; [|done|done]. unfold spent in *. by rewrite Hs.
  + unfold digests in *. by rewrite Hd.
Qed.

(** ** What each part of the journal does to the token *)
Notation wp := (wp moves starts answers).
Implicit Types (effect : ReservedEffect.t) (t : token).

Lemma moves_kept t db db' : keeps_effects db db' -> moves t t db db'.
Proof.
  intros Hk. destruct (kept_row _ _ Hk) as [Hs Hd]. unfold moves. rewrite Hs, Hd.
  split; [constructor|]. split; [by left|by right].
Qed.

Lemma wp_quiet {A} (p : prog A) (Q : token -> A -> Prop) t :
  within keeps_effects p -> (forall a, Q t a) -> wp t p Q.
Proof. intros Hp HQ. by eapply wp_within; [apply moves_kept| |]. Qed.

(** One conditional update of the row, elsewhere or here. *)
Lemma update_effect_cases run k cond set db :
  ((update_effect run k cond set db).1 = Ok 0
  /\ keeps_effects db (update_effect run k cond set db).2)
  \/ exists row, Db.task_effects db !! (run, k) = Some row /\ cond row = true
     /\ (update_effect run k cond set db).1 = Ok 1
     /\ Db.task_effects (update_effect run k cond set db).2
        = <[(run, k) := set row]> (Db.task_effects db).
Proof.
  unfold update_effect, change, update_one, keeps_effects.
  destruct (Db.task_effects db !! (run, k)) as [row|] eqn:Hrow; simpl; [|by left].
  destruct (cond row) eqn:Hc; simpl; [|by left]. right. by exists row.
Qed.

Lemma moves_update t t' db db' run k row row' :
  Db.task_effects db !! (run, k) = Some row ->
  Db.task_effects db' = <[(run, k) := row']> (Db.task_effects db) ->
  ((run, k) = key ->
     role_move (holds t) (holds t') (Some (TaskEffect.state row)) (Some (TaskEffect.state row'))
     /\ (seal t' = seal t \/ seal t' = TaskEffect.result_digest row'
                            /\ is_Some (seal t'))
     /\ (holds t = Overwriter \/ forall d, TaskEffect.result_digest row = Some d ->
                                 TaskEffect.result_digest row' = Some d)) ->
  ((run, k) <> key -> t' = t) ->
  moves t t' db db'.
Proof.
  intros Hrow Hset Hhere Haway. unfold moves, row_state, row_digest. rewrite Hset.
  destruct (decide ((run, k) = key)) as [<-|Hne].
  - rewrite lookup_insert_eq, Hrow. simpl. destruct (Hhere eq_refl) as (? & Hs & ?).
  split_and!; [done| |done]. destruct Hs as [?|[Hs [d Hd]]]; [by left|right].
  exists d. by rewrite <- Hs.
  - rewrite lookup_insert_ne by done. rewrite (Haway Hne).
  split; [constructor|]. split; [by left|by right].
Qed.

(** A function that does not return [Ok]. *)
Definition failed {E A} (r : res E A) : Prop := match r with Ok _ => False | _ => True end.

Lemma wp_quiet_bind {E A B} (p : io E A) (f : A -> io E B)
  (Q : token -> res E B -> Prop) t :
  within keeps_effects p -> (forall r, failed r -> Q t r) -> (forall a, wp t (f a) Q) ->
  wp t (p ≫= f) Q.
Proof.
  intros Hp Hf Ha. apply wp_io_bind, wp_quiet; [done|].
  intros [a|e|]; [apply Ha|by apply Hf..].
Qed.

(** Errors of the journal's statements, and its halting. *)
Lemma wp_db_op {X} (q : tx X) (Q : token -> res WorkflowRuntimeError.t X -> Prop) t :
  (forall e, Q t (Err e)) ->
  (forall db, exists t', moves t t' db (q db).2
     /\ Q t' (map_err WorkflowRuntimeError.database (q db).1)) ->
  wp t (db_op q) Q.
Proof. intros He Hc. apply wp_map_err, wp_sql; [by intros e; apply He|done]. Qed.

Lemma quiet_db_op {X} (q : tx X) : spares q -> within keeps_effects (db_op q : io _ X).
Proof. intros H. apply within_map_err, quiet_sql, H. Qed.
#[local] Hint Resolve quiet_db_op : frame.

(** Take the branch a statement's answer selects, and no more. *)
Ltac answered := cbn beta iota delta [map_err negb Z.eqb Pos.eqb].

Lemma wp_halt {A} effect reason t (Q : token -> res WorkflowRuntimeError.t A -> Prop) :
  (forall r, failed r -> Q t r) -> wp t (halt_for_effect_verification effect reason) Q.
Proof.
  intros HQ. unfold halt_for_effect_verification. apply wp_io_bind. intros now.
  apply wp_io_bind, wp_db_op; [by intros e; apply HQ|]. intros db. exists t.
  destruct (update_effect_cases (ReservedEffect.task_run_id effect) (ReservedEffect.key effect)
  (row_matches effect any_state)
  (fun row => set_effect EffectState.executed (TaskEffect.result_digest row) now row) db)
  as [[Hr Hk]|(row & Hrow & _ & Hr & Hset)]; rewrite Hr; answered.
  - split; [by apply moves_kept|by apply HQ].
  - split.
  { eapply moves_update; [exact Hrow|exact Hset| |done]. intros _. simpl.
      split_and!; [by constructor|by left|by right]. }
  apply wp_io_bind. intros n'. apply wp_quiet_bind; [quiet_program|done|]. intros changed.
  destruct (negb (changed =? 1)); [by apply HQ|].
  apply wp_quiet_bind; [quiet_program|done|]. intros found.
  apply wp_quiet_bind; [quiet_program|done|]. intros _. by apply HQ.
Qed.

Lemma read_receipt_digest effect raw receipt :
  read_receipt effect raw = Ok receipt ->
  value_digest (VerifiedEffectReceipt.result receipt) = VerifiedEffectReceipt.digest receipt.
Proof.
  unfold read_receipt. intros H. apply bind_Ok in H as (event & _ & H).
  repeat (case_match; try discriminate). simplify_eq/=.
  match goal with H : negb (str_eqb _ _) = false |- _ =>
  by apply negb_false_iff, str_eqb_eq in H end.
Qed.

Lemma wp_load effect t
  (Q : token -> res WorkflowRuntimeError.t (option VerifiedEffectReceipt.t) -> Prop) :
  (forall r, failed r -> Q t r) -> Q t (Ok None) ->
  (forall receipt, value_digest (VerifiedEffectReceipt.result receipt)
                   = VerifiedEffectReceipt.digest receipt -> Q t (Ok (Some receipt))) ->
  wp t (load_verified_effect_receipt effect) Q.
Proof.
  intros Hf Hn Hs. apply wp_quiet_bind; [quiet_program|done|]. intros [raw|]; [|done].
  destruct (read_receipt effect raw) as [receipt|e|] eqn:Hr; [|by apply Hf..].
  by apply Hs, (read_receipt_digest effect raw).
Qed.

(** A successful reconciliation leaves the digest in the row, for good. *)
Lemma wp_reconcile effect digest t (Q : token -> res WorkflowRuntimeError.t unit -> Prop) :
  (forall r, failed r -> Q t r) ->
  (forall t', holds t' = holds t -> (row_key effect = key -> seal t' = Some digest) ->
     Q t' (Ok tt)) ->
  wp t (reconcile_verified_effect effect digest) Q.
Proof.
  intros Hf Hs. unfold reconcile_verified_effect. apply wp_io_bind. intros now.
  apply wp_io_bind, wp_db_op; [by intros e; apply Hf|]. intros db.
  match goal with |- context [update_effect ?r ?k ?c ?s db] =>
  destruct (update_effect_cases r k c s db) as [[Hr Hk]|(row & Hrow & Hc & Hr & Hset)] end;
  rewrite Hr; answered.
  - exists t. split; [by apply moves_kept|by apply Hf].
  - set (t' := if decide (row_key effect = key) then Token (holds t) (Some digest) else t).
  exists t'. apply andb_true_iff in Hc as [_ Hd]. split.
  + eapply moves_update; [exact Hrow|exact Hset| |].
      * intros Heq. unfold t'. rewrite decide_True by done. simpl.
        split_and!; [by constructor|right; split; [done|by eexists]|right].
        intros d Hrd. rewrite Hrd in Hd. by apply str_eqb_eq in Hd as ->.
      * intros Hne. unfold t'. by rewrite decide_False.
  + apply Hs; unfold t'; [by case_decide|]. intros Heq. by rewrite decide_True.
Qed.

Lemma wp_replay {A} effect stored (found : Value -> A) otherwise t
  (Q : token -> res WorkflowRuntimeError.t A -> Prop) :
  (forall t' r, holds t' = holds t -> failed r -> Q t' r) ->
  (forall t' v, holds t' = holds t ->
     (row_key effect = key -> seal t' = Some (value_digest v)) -> Q t' (Ok (found v))) ->
  wp t otherwise Q ->
  wp t (replay_receipt effect stored found otherwise) Q.
Proof.
  intros Hf Hs Ho. unfold replay_receipt. apply wp_io_bind, wp_attempt, wp_load.
  - intros [r|e|] Hr; [done| |]; [|by apply Hf]. apply wp_halt. auto.
  - done.
  - intros receipt Hd. destruct (match stored with Some d => _ | None => false end).
  { apply wp_halt. auto. }
  apply wp_io_bind, wp_attempt, wp_reconcile.
  + intros [[]|e|] Hr; [done| |]; [|by apply Hf]. apply wp_halt. auto.
  + intros t' Hh Hseal. apply Hs; [done|]. by rewrite Hd.
Qed.

Lemma insert_effect_cases run k kind now db :
  let r := (insert_effect run k kind now db).1 in
  let db' := (insert_effect run k kind now db).2 in
  ((exists n, r = Ok n) /\ keeps_effects db db') \/ (exists e, r = Err e /\ keeps_effects db db')
  \/ (r = Ok 1 /\ Db.task_effects db !! (run, k) = None
      /\ Db.task_effects db'
         = <[(run, k) := TaskEffect.mk kind EffectState.reserved None now]>
             (Db.task_effects db)).
Proof.
  unfold insert_effect. destruct (Db.task_effects db !! (run, k)) eqn:Hrow; simpl.
  - left. split; [by eexists|done].
  - destruct (Db.task_runs db !! run); simpl; [by right; right|right; left; by eexists].
Qed.

Lemma wp_insert run k kind now t (Q : token -> res str Z -> Prop) :
  (forall r, Q t r) -> wp t (sql (insert_effect run k kind now)) Q.
Proof.
  intros HQ. apply wp_sql; [by intros e|]. intros db. exists t. split; [|done].
  destruct (insert_effect_cases run k kind now db) as [[_ Hk]|[(e & _ & Hk)|(_ & Hn & Hset)]];
  [by apply moves_kept..|].
  unfold moves, row_state, row_digest. rewrite Hset.
  destruct (decide ((run, k) = key)) as [<-|Hne].
  - rewrite lookup_insert_eq, Hn. simpl. split; [constructor|]. split; [by left|by right].
  - rewrite lookup_insert_ne by done. split; [constructor|]. split; [by left|by right].
Qed.

Lemma wp_reserve_for_task run node op args t
  (Q : token -> res WorkflowRuntimeError.t EffectReservation.t -> Prop) :
  let effect := new_effect run node op args in
  (forall t' r, holds t' = holds t -> failed r -> Q t' r) ->
  (forall t' v, holds t' = holds t ->
     (row_key effect = key -> seal t' = Some (value_digest v)) ->
     Q t' (Ok (EffectReservation.Replay v))) ->
  Q t (Ok (EffectReservation.Execute effect)) ->
  wp t (reserve_effect_for_task run node op args) Q.
Proof.
  intros effect Hf Hr He. apply wp_io_bind. intros now.
  apply wp_io_bind, wp_map_err, wp_insert. intros [inserted|e|]; [|by apply Hf..].
  apply wp_quiet_bind; [quiet_program|by intros r; apply Hf|]. intros [row|]; [|by apply Hf].
  destruct (negb (str_eqb (TaskEffect.effect_kind row) op)); [by apply Hf|].
  apply wp_replay; [done|done|].
  destruct ((inserted =? 1) && bool_decide (TaskEffect.state row = EffectState.reserved));
  [exact He|].
  apply wp_halt. auto.
Qed.

Lemma wp_claim effect t (Q : token -> res WorkflowRuntimeError.t (option Value) -> Prop) :
  holds t = Idle ->
  (forall t' r, failed r -> Q t' r) ->
  (forall t' v, (row_key effect = key -> seal t' = Some (value_digest v)) -> Q t' (Ok (Some v))) ->
  (forall t', holds t' = (if decide (row_key effect = key) then Claimed else Idle) ->
     Q t' (Ok None)) ->
  wp t (claim_effect_execution effect) Q.
Proof.
  intros Hidle Hf Hs Hn. unfold claim_effect_execution. apply wp_io_bind. intros now.
  apply wp_io_bind, wp_db_op; [by intros e; apply Hf|]. intros db.
  match goal with |- context [update_effect ?r ?k ?c ?s db] =>
  destruct (update_effect_cases r k c s db) as [[Hr Hk]|(row & Hrow & Hc & Hr & Hset)] end;
  rewrite Hr; answered.
  - exists t. split; [by apply moves_kept|].
  apply wp_replay; [by intros; apply Hf|by intros; apply Hs|]. apply wp_halt. auto.
  - exists (if decide (row_key effect = key) then Token Claimed (seal t) else t).
  split; [|apply Hn; by case_decide].
  apply andb_true_iff in Hc as [_ Hc%bool_decide_eq_true].
  apply list_elem_of_singleton in Hc.
  eapply moves_update; [exact Hrow|exact Hset| |].
  + intros Heq. rewrite decide_True by done. simpl. rewrite Hidle, Hc.
      split_and!; [constructor|by left|by right].
  + intros Hne. by rewrite decide_False.
Qed.

(** Deleting the row takes the right to do so. *)
Lemma moves_delete t db run k kind :
  ((run, k) = key -> holds t = Spare) ->
  exists t', moves t t' db (delete_unverified_effect run k kind db).2 /\ seal t' = seal t.
Proof.
  intros Hspare. unfold delete_unverified_effect, change.
  destruct (Db.task_effects db !! (run, k)) as [row|] eqn:Hrow; simpl;
  [|exists t; split; [by apply moves_kept|done]].
  destruct (_ && _ && _) eqn:Hc; simpl; [|exists t; split; [by apply moves_kept|done]].
  split_bools. unfold moves, row_state, row_digest. simpl.
  destruct (decide ((run, k) = key)) as [<-|Hne].
  - exists (Token Idle (seal t)). rewrite lookup_delete_eq, Hrow. simpl.
  rewrite (Hspare eq_refl).
  match goal with H : TaskEffect.state row = _ |- _ => rewrite H end.
  match goal with H : TaskEffect.result_digest row = _ |- _ => rewrite H end.
  split; [|done]. split; [constructor|]. split; [by left|by right].
  - exists t. rewrite lookup_delete_ne by done. split; [|done].
  split; [constructor|]. split; [by left|by right].
Qed.

Lemma wp_release effect code t (Q : token -> res WorkflowRuntimeError.t unit -> Prop) :
  (row_key effect = key -> holds t = Spare) -> (forall t' r, Q t' r) ->
  wp t (release_unchanged_effect effect code) Q.
Proof.
  intros Hspare HQ. unfold release_unchanged_effect.
  apply wp_io_bind, wp_db_op; [by intros e|]. intros db.
  destruct (moves_delete t db _ _ (ReservedEffect.operation effect) Hspare) as (t' & Hm & _).
  exists t'. split; [exact Hm|].
  destruct (map_err _ _) as [changed|e|]; [|apply HQ..].
  destruct (negb (changed =? 1)); [by apply wp_halt|].
  apply wp_quiet; [quiet_program|done].
Qed.

(** ** Calling the tool *)
Lemma wp_fail {A} eff e t (Q : token -> res WorkflowRuntimeError.t A -> Prop) :
  (forall r, failed r -> Q t r) -> wp t (fail_after_call eff e) Q.
Proof. intros HQ. destruct eff; [by apply wp_halt|by apply HQ]. Qed.

(** What a run may report: a success on this effect carries the row's digest. *)
Definition sealed (eff : option ReservedEffect.t) (t : token)
  (r : res WorkflowRuntimeError.t Value) : Prop :=
  forall v, r = Ok v -> (exists effect, eff = Some effect /\ row_key effect = key) ->
  seal t = Some (value_digest v).

Lemma sealed_failed eff t r : failed r -> sealed eff t r.
Proof. by destruct r. Qed.

Lemma wp_conclude node label op timeout eff outcome t :
  (forall effect, eff = Some effect -> row_key effect = key ->
     ReservedEffect.operation effect = op
     /\ (match outcome with
         | ToolOutcome.Refused raw =>
             parse_retry_safe_unchanged_error registry op (normalize_agent_error registry op raw)
             <> None
         | _ => False
         end -> holds t = Spare)) ->
  wp t (conclude_call registry node label op timeout eff outcome) (sealed eff).
Proof.
  intros Hpre. unfold conclude_call. destruct outcome as [response|raw| |raw].
  - destruct (verified_result response) as [result|e|]; [| |done].
  2: { apply wp_fail. intros. by apply sealed_failed. }
  destruct eff as [effect|]; [|by intros v _ (? & ? & _)].
  apply wp_io_bind, wp_attempt. unfold verify_effect. apply wp_io_bind, wp_load.
  + intros [r|e|] Hr; [done| |done]. apply wp_halt. intros. by apply sealed_failed.
  + apply wp_quiet_bind.
      * quiet_program.
      * intros [[]|e|] Hr; [done| |done]. apply wp_halt. intros. by apply sealed_failed.
      * intros _. apply wp_reconcile.
        -- intros [[]|e|] Hr; [done| |done]. apply wp_halt. intros. by apply sealed_failed.
        -- intros t' _ Hseal v [= <-] (effect' & [= <-] & Hk). by apply Hseal.
  + intros receipt _. destruct (negb _ || negb _).
      * apply wp_halt. intros. by apply sealed_failed.
      * apply wp_reconcile.
        -- intros [[]|e|] Hr; [done| |done]. apply wp_halt. intros. by apply sealed_failed.
        -- intros t' _ Hseal v [= <-] (effect' & [= <-] & Hk). by apply Hseal.
  - destruct eff as [effect|]; [|apply wp_fail; intros; by apply sealed_failed].
  destruct (parse_retry_safe_unchanged_error _ _ _) eqn:Hu;
      [|apply wp_fail; intros; by apply sealed_failed].
  apply wp_io_bind, wp_release.
  + intros Hk. apply (Hpre effect eq_refl Hk). congruence.
  + intros t' [[]|e|]; by apply sealed_failed.
  - apply wp_fail. intros. by apply sealed_failed.
  - apply wp_fail. intros. by apply sealed_failed.
Qed.

Lemma wp_call exec node label op timeout request eff t :
  (forall effect, eff = Some effect -> ReservedEffect.operation effect = op) ->
  (forall effect, eff = Some effect -> row_key effect = key -> holds t = Claimed) ->
  wp t (call_tool registry exec node label op timeout request eff) (sealed eff).
Proof.
  intros Hop Hclaimed. unfold call_tool. simpl. unfold starts, answers.
  assert (call_on (ToolCall.mk _ exec request eff) = true <->
          exists effect, eff = Some effect /\ row_key effect = key) as Hon.
  { unfold call_on. simpl. destruct eff as [effect|]; [|naive_solver].
  rewrite bool_decide_eq_true. naive_solver. }
  destruct (call_on (ToolCall.mk _ exec request eff)) eqn:Hc.
  - destruct (proj1 Hon eq_refl) as (effect & -> & Hk).
  exists (Token Calling (seal t)). split.
  { split; [|done]. destruct t as [h s]. by rewrite <- (Hclaimed effect). }
  intros outcome. eexists. split; [reflexivity|].
  apply wp_conclude. intros effect' [= <-] _. split; [by apply Hop|].
  unfold reported_unchanged. simpl. rewrite (Hop effect eq_refl).
  destruct outcome as [?|raw| |?]; [done| |done..]. simpl.
  by destruct (parse_retry_safe_unchanged_error _ _ _).
  - exists t. split; [done|]. intros outcome. exists t. split; [done|].
  apply wp_conclude. intros effect -> Hk. exfalso.
  assert (false = true) by (apply Hon; eauto). done.
Qed.

Lemma wp_carry_out exec node label op timeout request reservation t :
  holds t = Idle ->
  match reservation with
  | EffectReservation.Execute effect => ReservedEffect.operation effect = op
  | EffectReservation.Replay _ => True
  end ->
  wp t (carry_out registry exec node label op timeout request reservation)
  (fun t' r => forall effect, reservation = EffectReservation.Execute effect ->
                 sealed (Some effect) t' r).
Proof.
  intros Hidle Hop. destruct reservation as [effect|v]; [|done]. simpl carry_out.
  eapply wp_mono with (Q := sealed (Some effect)); [by intros t' r Hr effect' [= <-]|].
  apply wp_io_bind, wp_claim; [done| | |].
  - intros t' [r|e|] Hr; [done|by apply sealed_failed..].
  - intros t' v Hv v' [= <-] (effect' & [= <-] & Hk). by apply Hv.
  - intros t' Hh. apply wp_call; [by intros effect' [= <-]|].
  intros effect' [= <-] Hk. by rewrite decide_True in Hh.
Qed.

Lemma wp_run_effect run node label request timeout t :
  holds t = Idle ->
  wp t (run_effect run node label request timeout)
  (sealed (Some (new_effect run node (ValidatedTaskToolRequest.operation request)
                     (ValidatedTaskToolRequest.arguments request)))).
Proof.
  intros Hidle. unfold run_effect. apply wp_io_bind, wp_reserve_for_task.
  - intros t' [r|e|] _ Hr; [done|by apply sealed_failed..].
  - intros t' v Hh Hseal. intros v' [= <-] (effect' & [= <-] & Hk). by apply Hseal.
  - eapply wp_mono; [|by apply wp_carry_out]. by intros t' r Hr; apply Hr.
Qed.

(** ** Every job *)
Section Jobs.
Context (Hensure : spares ensure_internal_project)
  (Hrequired : forall e, spares (scope_required e))
  (Hallows : forall e n o v, spares (scope_allows e n o v)).

Lemma wp_execute exec node label op args timeout t :
  holds t = Idle ->
  wp t (execute_registered_task_tool registry ensure_internal_project scope_required
          scope_allows exec node label op args timeout) (fun _ _ => True).
Proof.
  intros Hidle. unfold execute_registered_task_tool.
  apply wp_quiet_bind; [quiet_program|done|]. intros validation.
  apply wp_quiet_bind; [quiet_program|done|]. intros operation.
  apply wp_quiet_bind; [apply within_map_err, within_sql; by intros db|done|]. intros request.
  apply wp_quiet_bind; [apply within_map_err, quiet_sql, Hrequired|done|]. intros required.
  apply wp_quiet_bind.
  { case_match; [apply within_map_err, quiet_sql, Hallows|quiet_program]. }
  { done. }
  intros allowed. destruct (negb allowed); [done|].
  destruct (ValidatedTaskToolRequest.potentially_effectful request).
  - unfold reserve_effect. apply wp_io_bind, wp_quiet_bind.
  + apply within_map_err, quiet_require_agent_runtime_task, Hensure.
  + by intros [r|e|].
  + intros task. apply wp_reserve_for_task; [by intros t' [r|e|]| |].
  * by intros t' v Hh _.
  * eapply wp_mono; [|by apply wp_carry_out]. done.
  - eapply wp_mono; [|by apply wp_call]. done.
Qed.

(** The part of a decision that touches the row: at most one deletion, of a key
  that satisfies [P]. *)
Definition deletes_only {X} (run : str) (P : str -> Prop) (q : tx X) : Prop :=
  forall db, keeps_effects db (q db).2
  \/ exists k kind db1, P k /\ keeps_effects db db1
       /\ keeps_effects (delete_unverified_effect run k kind db1).2 (q db).2.

Lemma deletes_none {X} run P (q : tx X) : spares q -> deletes_only run P q.
Proof. intros Hq db. left. apply Hq. Qed.

Lemma deletes_after {X Y} run P (q : tx X) (f : X -> tx Y) :
  spares q ->
  (forall db x db', q db = (Ok x, db') -> deletes_only run P (f x)) ->
  deletes_only run P (q ≫= f).
Proof.
  intros Hq Hf db. specialize (Hq db). specialize (Hf db).
  unfold mbind, tx_bind. destruct (q db) as [[x|e|] db1] eqn:E; simpl in *; [|by left..].
  destruct (Hf x db1 eq_refl db1) as [Hk|(k & kind & db2 & HP & H1 & H2)].
  - left. unfold keeps_effects in *. congruence.
  - right. exists k, kind, db2. unfold keeps_effects in *. split_and!; [done|congruence|done].
Qed.

Lemma deletes_before {X Y} run P (q : tx X) (f : X -> tx Y) :
  deletes_only run P q -> (forall x, spares (f x)) -> deletes_only run P (q ≫= f).
Proof.
  intros Hq Hf db. specialize (Hq db). unfold mbind, tx_bind.
  destruct (q db) as [[x|e|] db1] eqn:E; simpl in *; [|done..].
  specialize (Hf x db1). destruct Hq as [Hk|(k & kind & db2 & HP & H1 & H2)].
  - left. unfold keeps_effects in *. congruence.
  - right. exists k, kind, db2. unfold keeps_effects in *. split_and!; [done..|congruence].
Qed.

Lemma deletes_transaction {X} run P (q : tx X) :
  deletes_only run P q -> deletes_only run P (transaction q).
Proof.
  intros Hq db. specialize (Hq db). unfold transaction.
  destruct (q db) as [[x|e|] db1]; [done|by left..].
Qed.

Lemma deletes_delete run (P : str -> Prop) k kind :
  P k -> deletes_only run P (delete_unverified_effect run k kind).
Proof. intros HP db. right. by exists k, kind, db. Qed.

Lemma tx_bind_Ok {X Y} (q : tx X) (f : X -> tx Y) db y db' :
  (q ≫= f) db = (Ok y, db') -> exists x db1, q db = (Ok x, db1) /\ f x db1 = (Ok y, db').
Proof.
  unfold mbind, tx_bind. destruct (q db) as [[x|e|] db1]; intros H; [by exists x, db1|done..].
Qed.

Lemma exact_key run id request db exact db' :
  exact_verification_for_request run id request db = (Ok exact, db') ->
  ResolveTaskEffectVerificationRequest.decision request
  = TaskEffectVerificationDecision.DidNotHappen ->
  ResolveTaskEffectVerificationRequest.idempotency_key request
  = Some (ExactEffectVerification.idempotency_key exact).
Proof.
  unfold exact_verification_for_request. intros H Hd.
  apply tx_bind_Ok in H as (e & db1 & H1 & H2). apply tx_bind_Ok in H2 as (_ & db2 & _ & H2).
  rewrite Hd in H1. unfold mret, tx_ret, tx_err in *. by repeat case_match; simplify_eq/=.
Qed.

Ltac spares_program :=
  repeat match goal with
  | |- spares (mbind _ _) => apply spares_bind; [|intros ?]
  | |- spares (match ?x with _ => _ end) => destruct x
  | |- spares _ => solve [eauto 12 with frame]
  end.

Lemma spares_exact run id request : spares (exact_verification_for_request run id request).
Proof.
  unfold exact_verification_for_request, derive_single_unresolved_verification,
  required_event_identity, stale, audit_invalid, boundary_changed. spares_program.
Qed.
Lemma spares_binding run id runtime : spares (require_current_task_binding run id runtime).
Proof. unfold require_current_task_binding. spares_program. Qed.
Lemma spares_unresolved run id sequence exact :
  spares (require_exact_unresolved_event run id sequence exact).
Proof.
  unfold require_exact_unresolved_event, stale, audit_invalid, boundary_changed. spares_program.
Qed.
Lemma spares_checkpoint run runtime exact :
  spares (require_exact_effect_and_checkpoint run runtime exact).
Proof. unfold require_exact_effect_and_checkpoint. spares_program. Qed.
Lemma spares_stop run runtime e s l now : spares (stop_run run runtime e s l now).
Proof. unfold stop_run. spares_program. Qed.
Lemma spares_insert_audit row : spares (insert_audit row).
Proof. intros db. unfold insert_audit. by case_match. Qed.
#[local] Hint Resolve spares_exact spares_binding spares_unresolved spares_checkpoint
  spares_stop spares_insert_audit : frame.

Lemma deletes_decision decision run runtime exact now (P : str -> Prop) :
  (decision = TaskEffectVerificationDecision.DidNotHappen ->
  P (ExactEffectVerification.idempotency_key exact)) ->
  deletes_only run P (apply_decision decision run runtime exact now).
Proof.
  intros HP. destruct decision; simpl.
  - apply deletes_before; [|intros; apply spares_ret].
  apply deletes_after; [apply spares_select|]. intros db schedule _ _.
  destruct schedule as [schedule|]; [|apply deletes_none, spares_err].
  apply deletes_before; [by apply deletes_delete, HP|]. intros released. spares_program.
  - apply deletes_none. unfold stop_after_observed_occurrence. spares_program.
  - apply deletes_none. unfold stop_with_unknown_outcome. spares_program.
Qed.

Lemma deletes_resolution now event_ms row_ms task run id request :
  deletes_only run
  (fun k => ResolveTaskEffectVerificationRequest.decision request
                = TaskEffectVerificationDecision.DidNotHappen
              /\ ResolveTaskEffectVerificationRequest.idempotency_key request = Some k)
  (transaction (resolve_in_transaction now event_ms row_ms task run id request)).
Proof.
  apply deletes_transaction. unfold resolve_in_transaction.
  apply deletes_after; [apply spares_binding|]. intros _ _ _ _.
  apply deletes_after; [apply spares_exact|]. intros db exact db' Hexact.
  destruct (i64_max <? ExactEffectVerification.verification_sequence exact).
  { apply deletes_none, spares_err. }
  apply deletes_after; [apply spares_unresolved|]. intros _ _ _ _.
  apply deletes_after; [apply spares_checkpoint|]. intros _ _ _ _.
  apply deletes_before; [|intros [resolved next]; unfold tx_err; spares_program].
  apply deletes_decision. intros Hd. split; [done|]. by eapply exact_key.
Qed.

Lemma wp_resolve request t :
  (decides_absent (EffectJob.ResolveVerification request) = true -> holds t = Spare) ->
  wp t (EffectVerification.resolve durable request) (fun _ _ => True).
Proof.
  intros Hspare. unfold EffectVerification.resolve.
  apply wp_quiet_bind; [quiet_program|done|]. intros _.
  apply wp_io_bind. unfold lift. cbn [Program.wp].
  destruct (id_parse KTaskRun (ResolveTaskEffectVerificationRequest.task_run_id request))
  as [run|e|] eqn:Hrun; [|done..].
  apply wp_quiet_bind; [quiet_program|done|]. intros id.
  apply wp_quiet_bind; [quiet_program|done|]. intros _.
  apply wp_quiet_bind; [quiet_program|done|]. intros task.
  destruct (negb _ || _ || _ || _ || _ || _); [done|].
  apply wp_io_bind. intros now. apply wp_io_bind. intros event_ms. apply wp_io_bind. intros row_ms.
  apply wp_io_bind, wp_sql; [done|]. intros db.
  assert (exists t', moves t t' db (transaction (resolve_in_transaction now event_ms row_ms task
            (P0Contracts.as_str run) (P0Contracts.as_str id) request) db).2) as (t' & Hm).
  { destruct (deletes_resolution now event_ms row_ms task (P0Contracts.as_str run) (P0Contracts.as_str id)
  request db) as [Hk|(k & kind & db1 & [Hd Hk] & H1 & H2)].
  - exists t. by apply moves_kept.
  - destruct (moves_delete t db1 (P0Contracts.as_str run) k kind) as (t' & Hm & _).
  + intros Heq. apply Hspare. unfold decides_absent. rewrite Hd, Hk.
        apply bool_decide_eq_true. by rewrite <- Heq, (id_parse_as_str _ _ _ Hrun).
  + exists t'. unfold moves in *.
        destruct (kept_row _ _ H1) as [Hs1 Hd1], (kept_row _ _ H2) as [Hs2 Hd2].
        by rewrite <- Hs1, <- Hd1, Hs2, Hd2. }
  exists t'. split; [exact Hm|].
  destruct (transaction _ db).1 as [u|e|]; [|done..]. apply wp_quiet; [quiet_program|done].
Qed.

(** The commands of the task centre. *)
Lemma wp_reserve_command request t :
  wp t (reserve_task_effect request) (fun _ _ => True).
Proof.
  unfold reserve_task_effect. apply wp_quiet_bind; [quiet_program|done|]. intros id.
  destruct (_ || _); [done|]. apply wp_io_bind. intros now.
  apply wp_io_bind, wp_insert. by intros [r|e|].
Qed.

Lemma wp_verify_command request t :
  (overwrites (EffectJob.VerifyCommand request) = true -> holds t = Overwriter) ->
  wp t (verify_task_effect request) (fun _ _ => True).
Proof.
  intros Hover. unfold verify_task_effect.
  apply wp_quiet_bind; [quiet_program|done|]. intros digest. apply wp_io_bind. intros now.
  apply wp_io_bind, wp_sql; [done|]. intros db. exists t.
  match goal with |- context [update_effect ?r ?k ?c ?s db] =>
  destruct (update_effect_cases r k c s db) as [[Hr Hk]|(row & Hrow & Hc & Hr & Hset)] end;
  rewrite Hr.
  - split; [by apply moves_kept|]. by apply wp_quiet; [quiet_program|].
  - split; [|by apply wp_quiet; [quiet_program|]].
  eapply moves_update; [exact Hrow|exact Hset| |done]. intros Heq. simpl.
  split_and!; [by constructor|by left|left]. apply Hover. unfold overwrites.
  by apply bool_decide_eq_true.
Qed.

Lemma job_ok j : wp (init j) (effect_job_body j) (returns j).
Proof.
  assert (forall {E A} (p : io E A), wp (init j) p (fun _ _ => True) ->
            wp (init j) (other p) (returns j)) as Hother.
  { intros E A p Hp. apply wp_bind. eapply wp_mono, Hp. by intros t' r _ v. }
  destruct j as [exec node label op args timeout|run node label request timeout|request
  |request|request|id action|id|]; simpl effect_job_body.
  - apply wp_bind. eapply wp_mono; [|by apply wp_execute]. by intros t' r _ v _.
  - apply wp_bind. eapply wp_mono; [|by apply wp_run_effect].
  intros t' r Hs v [= ->] Hj. apply (Hs v eq_refl). eexists. split; [done|].
  by apply bool_decide_eq_true in Hj.
  - apply Hother, wp_resolve. intros Hd. unfold init. by rewrite Hd.
  - apply Hother, wp_reserve_command.
  - apply Hother, wp_verify_command. intros Ho. unfold init. by rewrite Ho.
  - apply Hother, wp_quiet; [quiet_program|done].
  - apply Hother, wp_quiet; [quiet_program|done].
  - apply Hother, wp_quiet; [quiet_program|done].
Qed.

Lemma reachable_invariant db s :
  reachable effect_job_body keeps_effects db s ->
  exists ts, effect_invariant (spent db) (database s) ts (log s).
Proof.
  intros Hr. apply (protocol effect_job_body keeps_effects init moves starts answers returns
  (effect_invariant (spent db)) db s); [apply job_ok| |done]. split.
  - exists (spent db), 0%nat. simpl. lia.
  - split; [by intros n t Hn|right]. split; [by intros n t d Hn|].
  intros j v Hin. by apply elem_of_nil in Hin.
Qed.
End Jobs.
End Key.
End System.
