(* ===== verification/EffectTheorems.v ===== *)
(** * What the journal guarantees

    Under every interleaving of runs, decisions, commands and reconciliation,
    with crashes at any point and any statement failing: an effect is asked for
    at most once more than it was released, and all successes of one effect agree.
    A run on its own refines the abstract journal [Fresh | Pending | Done]. *)
From S2P Require Import Prelude.
From S2P Require Import RustStr.
From S2P Require Import P0Contracts.
From S2P Require Import JsonValue.
From S2P Require Import Program.
From S2P Require Import TaskStore.
From S2P Require Import TaskRepository.
From S2P Require Import TaskTools.
From S2P Require Import EffectJournal.
From S2P Require Import EffectVerification.
From S2P Require Import TaskFrame.
From S2P Require Import EffectSystem.
Local Open Scope Z_scope.

Section Safety.
Context `{S : StoreLib} {D : Digest}.
Context (registry : gmap str (TaskToolRegistration.t Db)) (ensure_internal_project : tx str)
  (durable : res str unit) (scope_required : str -> tx bool)
  (scope_allows : str -> str -> str -> Value -> tx bool).
Notation body := (effect_job_body registry ensure_internal_project durable scope_required
  scope_allows).
Notation agrees key := (effect_invariant registry key).
Context (Hensure : spares ensure_internal_project)
  (Hrequired : forall e, spares (scope_required e))
  (Hallows : forall e n o v, spares (scope_allows e n o v)).

(** C5: however runs of tools, a person's decisions, the task centre's commands and
    reconciliation interleave, crash or meet a failing database, the tool is called for
    one effect at most once, plus once for each time the tool reported in a trusted way
    that nothing changed and for each decision of a person that nothing happened; a row
    that is already executed or verified counts as that one call. *)
Theorem effect_is_called_at_most_once key db s :
  reachable body keeps_effects db s ->
  (spent key db + calls key (log s)
   <= 1 + unchanged_reports registry key (log s) + absence_decisions key (log s))%nat.
Proof.
  intros Hr. destruct (reachable_invariant registry ensure_internal_project durable
    scope_required scope_allows key Hensure Hrequired Hallows db s Hr)
    as (ts & (claims & deletes & H1 & H2 & H3) & _).
  assert (spent key (database s) <= 1)%nat by (unfold spent; repeat case_match; lia).
  lia.
Qed.

(** C13: two runs of the journal's [run_effect] for the same effect that report success
    report results with the same digest, the one stored in the effect's row, unless the
    task centre's command has overwritten it. *)
Theorem successful_runs_agree key db s j1 j2 v1 v2 :
  reachable body keeps_effects db s ->
  ~ overwritten key (log s) ->
  Returned j1 (Reply.Tool (Ok v1)) ∈ log s -> runs_effect key j1 = true ->
  Returned j2 (Reply.Tool (Ok v2)) ∈ log s -> runs_effect key j2 = true ->
  value_digest v1 = value_digest v2 /\ row_digest key (database s) = Some (value_digest v1).
Proof.
  intros Hr Hno H1 Hj1 H2 Hj2. destruct (reachable_invariant registry ensure_internal_project
    durable scope_required scope_allows key Hensure Hrequired Hallows db s Hr)
    as (ts & _ & _ & [Ho|[_ Hd]]); [done|].
  pose proof (Hd _ _ H1 Hj1). pose proof (Hd _ _ H2 Hj2). split; congruence.
Qed.
End Safety.

(** ** A scenario: two runs race for one e-mail *)
Module MailRace.
Import IntegerJson.
Import PlainStore.

#[export] Instance digest : Digest := fun bytes =>
  replicate 32 (foldl (fun a b => (31 * a + b) mod 251) 7 bytes).

Definition uuid : string := "11111111-1111-4111-8111-111111111111".
Definition run_id : str := lit "taskrun_" ++ lit uuid.
Definition run_row : TaskRun.t :=
  TaskRun.mk (lit "task_" ++ lit uuid) (Some (lit "project_" ++ lit uuid))
    RuntimeKind.workflow (lit "execution-1") Running (lit "routine")
    (lit "task_" ++ lit uuid) (lit "Mail") None 1 1 None None RecoveryState.reconciled.
Definition db0 : Db := Db.with_runs {[run_id := run_row]} Db.empty.
Definition request : ValidatedTaskToolRequest.t :=
  ValidatedTaskToolRequest.mk _ (lit "send_system_email")
    (json_obj [("to"%string, json_str "a@b.c"); ("subject"%string, json_str "Hi")]) true.
Definition job : EffectJob.t := EffectJob.RunEffect run_id (lit "n1") (lit "Send") request 1000.
Definition key : str * str :=
  row_key (new_effect run_id (lit "n1") (lit "send_system_email")
             (ValidatedTaskToolRequest.arguments request)).
Definition sent : ToolOutcome.t :=
  ToolOutcome.Responded (ExecuteCommandResponse.mk (lit "send_system_email")
    CommandStatus.Completed (lit "sent") true).
Definition no_project : tx str := tx_err (lit "no project").
Definition body : EffectJob.t -> prog Db ToolCall.t ToolOutcome.t Reply.t :=
  effect_job_body ∅ no_project (Ok tt) (fun _ => mret false) (fun _ _ _ _ => mret false).

Definition on (n : nat) (l : list (input ToolOutcome.t)) : list (move ToolOutcome.t EffectJob.t) :=
  map (Advance n) l.
(** The first run reserves, claims and calls; a second one comes while the call
    is under way and stops; the first succeeds; a third one replays. *)
Definition script : list (move ToolOutcome.t EffectJob.t) :=
  [Spawn job] ++ on 0 [Tick 5; Commit; Commit; Commit; Tick 6; Commit; Go]
  ++ [Spawn job] ++ on 1 [Tick 7; Commit; Commit; Commit; Tick 8; Commit; Tick 8; Commit;
                          Commit; Commit; Tick 9; Tick 9; Commit] ++ [Finish 1]
  ++ on 0 [Answer sent; Commit; Commit; Tick 10; Tick 10; Commit; Tick 11; Commit] ++ [Finish 0]
  ++ [Spawn job] ++ on 2 [Tick 12; Commit; Commit; Commit; Tick 13; Commit] ++ [Finish 2].
Definition outcome : option (system Db ToolCall.t ToolOutcome.t EffectJob.t Reply.t) :=
  play body script (started_from db0).

Definition final : system Db ToolCall.t ToolOutcome.t EffectJob.t Reply.t :=
  default (started_from db0) outcome.
Definition result : Value := json_obj [("result"%string, json_str "sent")].

Lemma spares_no_project : spares no_project.
Proof. by intros db. Qed.
(** The job and the result of the success at a place of a log. *)
Definition success_at (l : list (event ToolCall.t ToolOutcome.t EffectJob.t Reply.t)) (n : nat)
  : option (EffectJob.t * Value) :=
  match l !! n with
  | Some (Returned j (Reply.Tool (Ok v))) => Some (j, v)
  | _ => None
  end.
Definition job_at l (n : nat) : EffectJob.t := from_option fst job (success_at l n).
Lemma success l n :
  match success_at l n with
  | Some (j, v) => value_eqb v result && runs_effect key j
  | None => false
  end = true ->
  Returned (job_at l n) (Reply.Tool (Ok result)) ∈ l /\ runs_effect key (job_at l n) = true.
Proof.
  unfold job_at, success_at. intros H.
  destruct (l !! n) as [[j|nt|j [[v|e|]|]]|] eqn:E; try discriminate H.
  apply andb_true_iff in H as [Hv Hj]. apply value_eqb_eq in Hv as ->.
  split; [|done]. by eapply list_elem_of_lookup_2.
Qed.
Lemma first_succeeds :
  Returned (job_at (log final) 5) (Reply.Tool (Ok result)) ∈ log final
  /\ runs_effect key (job_at (log final) 5) = true.
Proof. apply success. by vm_compute. Qed.
Lemma third_replays :
  Returned (job_at (log final) 7) (Reply.Tool (Ok result)) ∈ log final
  /\ runs_effect key (job_at (log final) 7) = true.
Proof. apply success. by vm_compute. Qed.
Lemma final_reachable : reachable body keeps_effects db0 final.
Proof.
  assert (match outcome with Some _ => true | None => false end = true) as H
    by (by vm_compute).
  unfold final. unfold outcome in *.
  destruct (play body script (started_from db0)) as [s|] eqn:E; [|discriminate].
  exact (play_steps body keeps_effects script (started_from db0) s E).
Qed.
Lemma final_not_overwritten : ~ overwritten key (log final).
Proof.
  assert (forallb (fun e => match e with Spawned j => negb (overwrites key j) | _ => true end)
            (log final) = true) as HF by (by vm_compute).
  intros (j & Hj & Ho). rewrite forallb_forall in HF.
  specialize (HF _ (proj1 (list_elem_of_In _ _) Hj)). simpl in HF. by rewrite Ho in HF.
Qed.
End MailRace.

Import IntegerJson PlainStore MailRace.

(** The three runs of the scenario: one call, two successes with one result. *)
Lemma effect_is_called_at_most_once_witness :
  calls MailRace.key (log MailRace.final) = 1%nat
  /\ (spent MailRace.key MailRace.db0 + calls MailRace.key (log MailRace.final)
      <= 1 + unchanged_reports ∅ MailRace.key (log MailRace.final)
         + absence_decisions MailRace.key (log MailRace.final))%nat.
Proof.
  split; [by vm_compute|].
  exact (effect_is_called_at_most_once ∅ MailRace.no_project (Ok tt) (fun _ => mret false)
    (fun _ _ _ _ => mret false) MailRace.spares_no_project (fun _ => spares_ret false)
    (fun _ _ _ _ => spares_ret false) MailRace.key MailRace.db0 MailRace.final
    MailRace.final_reachable).
Defined.

Lemma successful_runs_agree_witness :
  value_digest MailRace.result = value_digest MailRace.result
  /\ row_digest MailRace.key (database MailRace.final) = Some (value_digest MailRace.result).
Proof.
  exact (successful_runs_agree ∅ MailRace.no_project (Ok tt) (fun _ => mret false)
    (fun _ _ _ _ => mret false) MailRace.spares_no_project (fun _ => spares_ret false)
    (fun _ _ _ _ => spares_ret false) MailRace.key MailRace.db0 MailRace.final
    (MailRace.job_at (log MailRace.final) 5) (MailRace.job_at (log MailRace.final) 7) MailRace.result MailRace.result
    MailRace.final_reachable MailRace.final_not_overwritten
    (proj1 MailRace.first_succeeds) (proj2 MailRace.first_succeeds)
    (proj1 MailRace.third_replays) (proj2 MailRace.third_replays)).
Defined.
