(* ===== verification/EffectRefinement.v ===== *)
(** * The journal as an abstract machine

    An effect is fresh, pending (nobody knows) or done with a result.  A run of
    [run_effect] that nothing interferes with is one step of that machine: it
    calls the tool once, with the request of the effect, when the effect is fresh,
    gives back the recorded result when it is done, and asks a person when it is
    pending. *)
From S2P Require Import Prelude.
From S2P Require Import RustStr.
From S2P Require Import P0Contracts.
From S2P Require Import JsonValue.
From S2P Require Import Program.
From S2P Require Import TaskStore.
From S2P Require Import TaskRepository.
From S2P Require Import TaskTools.
From S2P Require Import EffectJournal.
From S2P Require Import EffectSystem.
From S2P Require Import EffectTheorems.
Local Open Scope Z_scope.

(** ** Evaluation of one program *)
Section Runs.
Context {Db Req Ans : Type} (now : Z) (bytes : list Z) (tool : Req -> Ans).
Notation io := (io Db Req Ans).
Notation solo := (solo now bytes tool).

Lemma solo_ok {E A B} (f : A -> io E B) (p : io E A) db a db1 l1 :
  solo p db = (Ok a, db1, l1) ->
  solo (p ≫= f) db = let '(r, db2, l2) := solo (f a) db1 in (r, db2, l1 ++ l2).
Proof. intros H. unfold mbind, io_bind. by rewrite solo_bind, H. Qed.

Lemma solo_quiet_ok {E A B} (f : A -> io E B) (p : io E A) db a db1 :
  solo p db = (Ok a, db1, []) -> solo (p ≫= f) db = solo (f a) db1.
Proof. intros H. rewrite (solo_ok _ _ _ _ _ _ H). by destruct (solo (f a) db1) as [[r db2] l2]. Qed.

Lemma solo_err {E A B} (f : A -> io E B) (p : io E A) db e db1 l1 :
  solo p db = (Err e, db1, l1) -> solo (p ≫= f) db = (Err e, db1, l1).
Proof. intros H. unfold mbind, io_bind. rewrite solo_bind, H. simpl. by rewrite app_nil_r. Qed.

Lemma solo_map_err {E E' A} (f : E -> E') (p : io E A) db r db1 l1 :
  solo p db = (r, db1, l1) -> solo (io_map_err f p) db = (map_err f r, db1, l1).
Proof. intros H. unfold io_map_err. rewrite solo_bind, H. simpl. by rewrite app_nil_r. Qed.

Lemma solo_attempt {E E' A} (p : io E A) db r db1 l1 :
  solo p db = (r, db1, l1) -> solo (attempt p : io E' _) db = (Ok r, db1, l1).
Proof. intros H. unfold attempt. rewrite solo_bind, H. simpl. by rewrite app_nil_r. Qed.

Lemma solo_sql {X} (q : Db -> res str X * Db) db r db1 :
  q db = (r, db1) -> solo (sql q) db = (r, db1, []).
Proof. intros H. simpl. by rewrite H. Qed.
End Runs.

(** ** Documented behaviour of the libraries

    [exact] are the values whose text is read back as the same value: all that
    hold strings, booleans and machine integers do (a float may come back as its
    neighbour, the crate being built without [float_roundtrip]). *)
Class StoreLaws `{S : StoreLib} : Type := {
  exact : Value -> Prop;
  exact_null : exact Value.Null;
  exact_bool b : exact (Value.Bool b);
  exact_string s : exact (Value.String s);
  exact_u64 n : exact (json_u64 n);
  exact_object o : Forall (fun kv => exact kv.2) o -> exact (Value.Object o);
  read_struct fields :
    Forall (fun kv => exact kv.2) fields ->
    from_str (struct_to_string fields) = Some (Value.Object (obj_from fields));
}.
Class DigestLaws `{D : Digest} : Prop := {
  sha256_length bytes : length (sha256 bytes) = 32%nat;
  sha256_bytes bytes : Forall (fun b => 0 <= b < 256) (sha256 bytes);
}.

Lemma hex_byte_ok b : 0 <= b < 256 ->
  str_len (hex_byte b) = 2 /\ forallb is_ascii_hexdigit (hex_byte b) = true.
Proof.
  intros Hb. assert (forallb (fun b => (str_len (hex_byte b) =? 2)
    && forallb is_ascii_hexdigit (hex_byte b)) (seqZ 0 256) = true) as H by (by vm_compute).
  rewrite forallb_forall in H.
  assert (b ∈ seqZ 0 256) as Hin by (apply elem_of_seqZ; lia).
  specialize (H b (proj1 (list_elem_of_In _ _) Hin)).
  apply andb_true_iff in H as [H1%Z.eqb_eq H2]. by split.
Qed.

Lemma str_len_app s t : str_len (s ++ t) = str_len s + str_len t.
Proof. induction s as [|c s IH]; simpl; [done|]. unfold str_len in *. simpl. lia. Qed.

Lemma hex_encode_ok l : Forall (fun b => 0 <= b < 256) l ->
  str_len (hex_encode l) = 2 * Z.of_nat (length l)
  /\ forallb is_ascii_hexdigit (hex_encode l) = true.
Proof.
  induction 1 as [|b l Hb _ [IH1 IH2]]; [done|].
  destruct (hex_byte_ok b Hb) as [H1 H2]. unfold hex_encode in *. cbn [flat_map].
  rewrite str_len_app, forallb_app, H2, IH2, H1. split; [|done]. rewrite IH1. cbn [length]. lia.
Qed.

(** ** The abstract journal *)
Inductive journal `{J : JsonLib} : Type :=
| Fresh
| Pending
| Done (result : Value).

Section Refinement.
Context `{L : StoreLaws} `{DL : DigestLaws}.
Context (registry : gmap str (TaskToolRegistration.t Db)).
Notation io A := (io Db ToolCall.t ToolOutcome.t WorkflowRuntimeError.t A).
Implicit Types effect : ReservedEffect.t.

(** The result the tool reports and the engine accepts. *)
Definition accepted (outcome : ToolOutcome.t) : option Value :=
  match outcome with
  | ToolOutcome.Responded response =>
      match verified_result response with Ok v => Some v | _ => None end
  | _ => None
  end.
(** The error of a tool that is trusted to have changed nothing. *)
Definition unchanged (operation : str) (outcome : ToolOutcome.t) : option WorkflowRuntimeError.t :=
  match outcome with
  | ToolOutcome.Refused raw =>
      match parse_retry_safe_unchanged_error registry operation
              (normalize_agent_error registry operation raw) with
      | Some _ => Some (task_tool_error registry operation raw)
      | None => None
      end
  | _ => None
  end.
(** What a run ends with when nobody knows whether the effect happened. *)
Definition unconfirmed : WorkflowRuntimeError.t :=
  WorkflowRuntimeError.new "workflow_effect_verification_required" halt_message.

(** One step: the result, the journal after it, and the calls of the tool. *)
Definition journal_step (call : ToolCall.t) (outcome : ToolOutcome.t) (j : journal)
  : res WorkflowRuntimeError.t Value * journal * list ToolCall.t :=
  match j with
  | Done v => (Ok v, Done v, [])
  | Pending => (Err unconfirmed, Pending, [])
  | Fresh =>
      match accepted outcome with
      | Some v => (Ok v, Done v, [call])
      | None =>
          match unchanged (ValidatedTaskToolRequest.operation (ToolCall.request call)) outcome with
          | Some e => (Err e, Fresh, [call])
          | None => (Err unconfirmed, Pending, [call])
          end
      end
  end.

Lemma verified_result_total response : verified_result response <> Panic.
Proof. unfold verified_result. by destruct (_ || _). Qed.
Lemma read_receipt_total effect raw : read_receipt effect raw <> Panic.
Proof.
  unfold read_receipt, ok_or. destruct (from_str raw) as [event|]; [|done]. simpl.
  repeat case_match; done.
Qed.

(** What the tables say. *)
Definition journal_of effect (db : Db) : journal :=
  match receipt_event effect db with
  | Some raw =>
      match read_receipt effect raw with
      | Ok receipt => Done (VerifiedEffectReceipt.result receipt)
      | _ => Pending
      end
  | None =>
      match Db.task_effects db !! row_key effect with Some _ => Pending | None => Fresh end
  end.

(** The task is one that events can be written for, and the row, if there is one,
    is this effect's. *)
Definition task_in_order (run : str) (db : Db) : Prop :=
  is_ok (id_parse KTaskRun run) = true /\
  exists row p, Db.task_runs db !! run = Some row /\ TaskRun.project_id row = Some p
    /\ is_ok (id_parse KProject p) = true /\ is_ok (id_parse KTask (TaskRun.task_id row)) = true.
Definition row_in_order effect (db : Db) : Prop :=
  forall row, Db.task_effects db !! row_key effect = Some row ->
    TaskEffect.effect_kind row = ReservedEffect.operation effect
    /\ forall v, journal_of effect db = Done v -> forall d, TaskEffect.result_digest row = Some d ->
       d = value_digest v.
Definition in_order effect (db : Db) : Prop :=
  task_in_order (ReservedEffect.task_run_id effect) db /\ row_in_order effect db.

Lemma exact_json_obj (l : list (string * Value)) :
  Forall (fun kv => exact kv.2) l -> exact (json_obj l).
Proof.
  intros Hl. apply exact_object.
  assert (forall k v o, exact v -> Forall (fun kv : str * Value => exact kv.2) o ->
            Forall (fun kv : str * Value => exact kv.2) (obj_insert k v o)) as Hins.
  { intros k v o Hv. induction 1 as [|[k' v'] o Hv' Ho IH]; simpl; [by repeat constructor|].
    repeat case_match; by repeat constructor. }
  unfold obj_from.
  assert (forall o, Forall (fun kv : str * Value => exact kv.2) o ->
    Forall (fun kv : str * Value => exact kv.2)
      (foldl (fun o kv => obj_insert kv.1 kv.2 o) o
         (map (fun kv : string * Value => (lit kv.1, kv.2)) l))) as H; [|apply H; constructor].
  induction Hl as [|[k v] l Hv _ IH]; intros o Ho; [done|]. apply IH. by apply Hins.
Qed.

(** ** Reading back what was written *)
Lemma value_digest_ok v :
  str_len (value_digest v) = 64 /\ forallb is_ascii_hexdigit (value_digest v) = true.
Proof.
  unfold value_digest, sha256_hex.
  destruct (hex_encode_ok _ (sha256_bytes (to_vec v))) as [H1 H2].
  rewrite sha256_length in H1. split; [lia|done].
Qed.

Lemma latest_snoc l e :
  Forall (fun x => TaskEvent.sequence x < TaskEvent.sequence e) l -> latest (l ++ [e]) = Some e.
Proof.
  unfold latest. intros H. rewrite foldr_app. simpl.
  induction H as [|x l Hx _ IH]; [done|]. simpl. rewrite IH.
  by rewrite (proj2 (Z.ltb_ge _ _)) by lia.
Qed.

Lemma next_sequence_above run db x :
  x ∈ events_of run db -> TaskEvent.sequence x < next_sequence run db.
Proof.
  unfold next_sequence. induction 1 as [x l|x y l _ IH]; simpl in *; lia.
Qed.

Lemma events_of_snoc run db rows :
  events_of run (Db.with_events (Db.task_events db ++ rows) db)
  = events_of run db ++ List.filter (fun e => str_eqb (TaskEvent.task_run_id e) run) rows.
Proof. unfold events_of. simpl. apply List.filter_app. Qed.

(** The event [append_event] writes. *)
Definition written_event (task : TaskRun.t) (run p event_type : str) (evidence : EvidenceClass)
    (payload : Value) (sequence : Z) (timestamp : str) : P0EventEnvelope Value := {|
  schema_version := P0_CONTRACT_VERSION;
  P0Contracts.event_type := event_type;
  P0Contracts.project_id := OpaqueId p;
  P0Contracts.task_id := OpaqueId (TaskRun.task_id task);
  P0Contracts.task_run_id := Some (OpaqueId run);
  P0Contracts.correlation_id := TaskRun.correlation_id task;
  P0Contracts.sequence := sequence;
  P0Contracts.timestamp := timestamp;
  evidence_class := evidence;
  P0Contracts.payload := payload |}.

Definition written_row (task : TaskRun.t) (run p event_type : str) (evidence : EvidenceClass)
    (payload : Value) (sequence : Z) (timestamp : str) (now : Z) : TaskEvent.t :=
  TaskEvent.mk run sequence
    (struct_to_string (event_fields
       (written_event task run p event_type evidence payload sequence timestamp))) now.

Lemma stored_event_reads task run p event_type evidence payload sequence timestamp now :
  exact payload ->
  exists v, from_str (TaskEvent.event_json
      (written_row task run p event_type evidence payload sequence timestamp now)) = Some v
    /\ get (lit "eventType") v = Some (Value.String event_type)
    /\ get (lit "payload") v = Some payload.
Proof.
  intros Hp. unfold written_row. simpl TaskEvent.event_json.
  rewrite read_struct.
  - eexists. split; [done|]. by split.
  - repeat (constructor; [first [apply exact_u64|apply exact_string|exact Hp]|]). constructor.
Qed.

Lemma id_parse_is_ok k s : is_ok (id_parse k s) = true -> id_parse k s = Ok (OpaqueId s).
Proof.
  intros H. apply is_ok_true in H as [i Hi]. rewrite Hi.
  apply id_parse_as_str in Hi. destruct i. simpl in Hi. by subst.
Qed.

(** ** The journal's parts, run alone *)
Section Alone.
Context (now : Z) (bytes : list Z) (outcome : ToolOutcome.t) (timestamp : str).
Hypothesis (Htime : rfc3339_millis now = Some timestamp).
Notation solo := (solo now bytes (fun _ : ToolCall.t => outcome)).

Lemma solo_get_task run row db :
  is_ok (id_parse KTaskRun run) = true -> Db.task_runs db !! run = Some row ->
  solo (get_task run) db = (Ok (task_from_row db run row), db, []).
Proof.
  intros Hp Hrow. unfold get_task. rewrite (id_parse_is_ok _ _ Hp).
  change (lift (Ok (OpaqueId run)) : Program.io Db ToolCall.t ToolOutcome.t str _)
with (mret (OpaqueId run) : Program.io Db ToolCall.t ToolOutcome.t str (opaque_id KTaskRun)).
  erewrite solo_quiet_ok by done.
  erewrite solo_quiet_ok by (by apply solo_sql). simpl. by rewrite Hrow.
Qed.

Lemma solo_record run row p event_type evidence payload db :
  is_ok (id_parse KTaskRun run) = true -> Db.task_runs db !! run = Some row ->
  TaskRun.project_id row = Some p -> is_ok (id_parse KProject p) = true ->
  is_ok (id_parse KTask (TaskRun.task_id row)) = true ->
  solo (record_domain_event run event_type evidence payload) db
  = (Ok tt,
     Db.with_events (Db.task_events db ++
       [written_row row run p event_type evidence payload (next_sequence run db) timestamp now]) db,
     []).
Proof.
  intros Hrun Hrow Hproj Hp Ht. unfold record_domain_event.
  rewrite (solo_quiet_ok _ _ _ _ _ _ _ _ (solo_get_task run row db Hrun Hrow)).
  unfold task_from_row, append_event, append_event_with_sequence.
  cbn [TaskRunRecord.row]. rewrite Hproj.
  erewrite solo_quiet_ok; [done|]. do 2 (erewrite solo_quiet_ok by done).
  apply solo_sql. unfold transaction, append_event_in_transaction. cbn [TaskRunRecord.row].
  rewrite Hproj. unfold mbind, tx_bind, select, tx_lift, insert_event. simpl.
  rewrite Htime. simpl. rewrite (id_parse_is_ok _ _ Hp), (id_parse_is_ok _ _ Ht),
  (id_parse_is_ok _ _ Hrun). simpl. by rewrite Hrow.
Qed.

(** The receipt after an event has been appended. *)
Definition is_receipt effect (e : TaskEvent.t) : bool :=
  has_event_type "workflow.effect.verified" e
  && extract_is ["payload"; "idempotencyKey"]%string (ReservedEffect.key effect) e.

Lemma receipt_snoc effect db e :
  TaskEvent.task_run_id e = ReservedEffect.task_run_id effect ->
  TaskEvent.sequence e = next_sequence (ReservedEffect.task_run_id effect) db ->
  receipt_event effect (Db.with_events (Db.task_events db ++ [e]) db)
  = if is_receipt effect e then Some (TaskEvent.event_json e) else receipt_event effect db.
Proof.
  intros Hrun Hseq. unfold receipt_event. rewrite events_of_snoc. simpl.
  rewrite Hrun, str_eqb_refl, List.filter_app. simpl.
  change (has_event_type "workflow.effect.verified" e
  && extract_is ["payload"%string; "idempotencyKey"%string] (ReservedEffect.key effect) e)
with (is_receipt effect e).
  destruct (is_receipt effect e); [|by rewrite app_nil_r].
  rewrite latest_snoc; [done|]. apply list.Forall_forall. intros x Hx. rewrite Hseq.
  apply next_sequence_above. apply list_elem_of_In in Hx. apply filter_In in Hx as [Hx _].
  by apply list_elem_of_In.
Qed.

Lemma not_receipt effect task run p event_type evidence payload sequence :
  exact payload -> event_type <> lit "workflow.effect.verified" ->
  is_receipt effect (written_row task run p event_type evidence payload sequence timestamp now)
  = false.
Proof.
  intros Hx Hne. destruct (stored_event_reads task run p event_type evidence payload sequence
  timestamp now Hx) as (v & Hread & Htype & _).
  unfold is_receipt, has_event_type, extract_is, extract. rewrite Hread.
  cbn [pointer]. rewrite Htype.
  rewrite bool_decide_eq_false_2 by congruence. done.
Qed.

Lemma summary_exact operation arguments : exact (effect_recovery_summary operation arguments).
Proof.
  assert (forall (o : option str), exact (json_opt (option_map Value.String o))) as Htext
  by (intros [s'|]; [apply exact_string|apply exact_null]).
  unfold effect_recovery_summary. repeat case_match; apply exact_json_obj;
  repeat (constructor; [first [apply exact_string|apply Htext]|]); constructor.
Qed.

(** What halting leaves: the row and the receipt as they were. *)
Lemma solo_halt {A} effect reason db row :
  exact (ReservedEffect.summary effect) ->
  task_in_order (ReservedEffect.task_run_id effect) db ->
  Db.task_effects db !! row_key effect = Some row ->
  TaskEffect.effect_kind row = ReservedEffect.operation effect ->
  exists db' row',
  solo (halt_for_effect_verification effect reason : io A) db = (Err unconfirmed, db', [])
  /\ task_in_order (ReservedEffect.task_run_id effect) db'
  /\ receipt_event effect db' = receipt_event effect db
  /\ Db.task_effects db' !! row_key effect = Some row'
  /\ TaskEffect.effect_kind row' = ReservedEffect.operation effect
  /\ TaskEffect.result_digest row' = TaskEffect.result_digest row.
Proof.
  intros Hx (Hrun & task & p & Htask & Hproj & Hp & Hid) Hrow Hkind.
  set (run := ReservedEffect.task_run_id effect) in *.
  set (row' := set_effect EffectState.executed (TaskEffect.result_digest row) now row).
  set (db1 := Db.with_effects (<[row_key effect := row']> (Db.task_effects db)) db).
  set (db2 := Db.with_runs (<[run := block_run now task]> (Db.task_runs db1)) db1).
  set (payload := json_obj
  [("nodeId", Value.String (ReservedEffect.node_id effect));
     ("idempotencyKey", Value.String (ReservedEffect.key effect));
     ("effectKind", Value.String (ReservedEffect.operation effect));
     ("effectSummary", ReservedEffect.summary effect);
     ("reasonCode", Value.String reason);
     ("nextAction", json_str "verify_only");
     ("retrySupported", Value.Bool (has_recoverable_schedule run db2))]%string).
  set (event := written_row (block_run now task) run p
  (lit "workflow.effect.verification_required") ObservedResult payload
  (next_sequence run db2) timestamp now).
  exists (Db.with_events (Db.task_events db2 ++ [event]) db2), row'.
  split_and!.
  - unfold halt_for_effect_verification. erewrite solo_quiet_ok by done.
  erewrite solo_quiet_ok.
  2: { unfold db_op. apply (solo_map_err _ _ _ _ _ _ (Ok 1) db1), solo_sql.
         unfold update_effect, change, update_one. fold run (row_key effect).
         change (run, ReservedEffect.key effect) with (row_key effect).
         rewrite Hrow. unfold row_matches. rewrite Hkind, str_eqb_refl.
         rewrite bool_decide_eq_true_2; [done|].
         destruct (TaskEffect.state row); set_solver. }
  change (negb (1 =? 1)) with false. cbv iota. erewrite solo_quiet_ok by done.
  erewrite solo_quiet_ok.
  2: { apply (solo_map_err _ _ _ _ _ _ (Ok 1) db2), solo_sql.
         unfold update_run, change, update_one. simpl. fold run. by rewrite Htask. }
  change (negb (1 =? 1)) with false. cbv iota.
  erewrite solo_quiet_ok by (by apply solo_attempt, solo_sql). cbv zeta iota.
  erewrite solo_quiet_ok; [done|]. apply (solo_map_err _ _ _ _ _ _ (Ok tt)).
  apply (solo_record run (block_run now task) p); try done.
  unfold db2. simpl. by rewrite lookup_insert_eq.
  - split; [done|]. exists (block_run now task), p. simpl. by rewrite lookup_insert_eq.
  - rewrite receipt_snoc by done. unfold event. rewrite not_receipt; [done| |done].
  apply exact_json_obj.
  repeat (constructor; [first [apply exact_string|apply exact_bool|done]|]). constructor.
  - unfold db2, db1. simpl. by rewrite lookup_insert_eq.
  - done.
  - done.
Qed.

Lemma solo_load effect db :
  solo (load_verified_effect_receipt effect) db
  = (match receipt_event effect db with
     | None => Ok None
     | Some raw =>
         match read_receipt effect raw with
         | Ok receipt => Ok (Some receipt)
         | Err e => Err e
         | Panic => Panic
         end
     end, db, []).
Proof.
  unfold load_verified_effect_receipt. erewrite solo_quiet_ok.
  2: { unfold db_op. by apply (solo_map_err _ _ _ _ _ _ (Ok (receipt_event effect db))), solo_sql. }
  destruct (receipt_event effect db) as [raw|]; [|done].
  by destruct (read_receipt effect raw).
Qed.

Lemma solo_reconcile effect digest db row :
  Db.task_effects db !! row_key effect = Some row ->
  TaskEffect.effect_kind row = ReservedEffect.operation effect ->
  (forall d, TaskEffect.result_digest row = Some d -> d = digest) ->
  solo (reconcile_verified_effect effect digest) db
  = (Ok tt,
     Db.with_effects (<[row_key effect := set_effect EffectState.verified (Some digest) now row]>
       (Db.task_effects db)) db, []).
Proof.
  intros Hrow Hkind Hd. unfold reconcile_verified_effect. erewrite solo_quiet_ok by done.
  erewrite solo_quiet_ok.
  2: { unfold db_op. apply (solo_map_err _ _ _ _ _ _ (Ok 1)), solo_sql.
       unfold update_effect, change, update_one.
       change (ReservedEffect.task_run_id effect, ReservedEffect.key effect) with (row_key effect).
       rewrite Hrow. unfold row_matches. rewrite Hkind, str_eqb_refl.
       rewrite bool_decide_eq_true_2 by (destruct (TaskEffect.state row); set_solver).
       destruct (TaskEffect.result_digest row) as [d|]; [rewrite (Hd d eq_refl), str_eqb_refl|];
         done. }
  done.
Qed.

(** The row after the insertion with which a reservation begins. *)
Lemma solo_insert effect db :
  task_in_order (ReservedEffect.task_run_id effect) db -> row_in_order effect db ->
  exists n db1 row,
  insert_effect (ReservedEffect.task_run_id effect) (ReservedEffect.key effect)
      (ReservedEffect.operation effect) now db = (Ok n, db1)
  /\ task_in_order (ReservedEffect.task_run_id effect) db1
  /\ receipt_event effect db1 = receipt_event effect db
  /\ Db.task_effects db1 !! row_key effect = Some row
  /\ TaskEffect.effect_kind row = ReservedEffect.operation effect
  /\ (forall v, journal_of effect db = Done v -> forall d,
          TaskEffect.result_digest row = Some d -> d = value_digest v)
  /\ (if decide (Db.task_effects db !! row_key effect = None)
        then n = 1 /\ TaskEffect.state row = EffectState.reserved
             /\ TaskEffect.result_digest row = None
        else n = 0).
Proof.
  intros (Hrun & task & p & Htask & Hrest) Hord. unfold insert_effect.
  change (ReservedEffect.task_run_id effect, ReservedEffect.key effect) with (row_key effect).
  destruct (Db.task_effects db !! row_key effect) as [row|] eqn:Hrow.
  - exists 0, db, row. destruct (Hord row Hrow) as [Hk Hd].
  split_and!; [done| |done|done|done|done|done]. split; [done|]. by exists task, p.
  - rewrite Htask. eexists 1, _, _. split; [done|]. cbn [Db.task_effects Db.with_effects].
  rewrite lookup_insert_eq. split_and!; [|done|done|done|done|done].
  split; [done|]. by exists task, p.
Qed.

(** Reserving, when a receipt is there to be read. *)
Lemma solo_replay {A} effect stored (found : Value -> A) otherwise db row raw receipt :
  receipt_event effect db = Some raw -> read_receipt effect raw = Ok receipt ->
  Db.task_effects db !! row_key effect = Some row ->
  TaskEffect.effect_kind row = ReservedEffect.operation effect ->
  (forall d, TaskEffect.result_digest row = Some d ->
     d = VerifiedEffectReceipt.digest receipt) ->
  (stored = None \/ stored = TaskEffect.result_digest row) ->
  solo (replay_receipt effect stored found otherwise : io A) db
  = (Ok (found (VerifiedEffectReceipt.result receipt)),
     Db.with_effects (<[row_key effect := set_effect EffectState.verified
         (Some (VerifiedEffectReceipt.digest receipt)) now row]> (Db.task_effects db)) db, []).
Proof.
  intros Hraw Hread Hrow Hkind Hd Hstored. unfold replay_receipt.
  pose proof (solo_load effect db) as Hload. rewrite Hraw, Hread in Hload.
  erewrite solo_quiet_ok by (by apply solo_attempt). cbv zeta iota.
  replace (match stored with
           | Some d => negb (str_eqb d (VerifiedEffectReceipt.digest receipt))
           | None => false
           end) with false.
  2: { destruct Hstored as [-> | ->]; [done|].
       destruct (TaskEffect.result_digest row) as [d|]; [|done].
       by rewrite (Hd d eq_refl), str_eqb_refl. }
  erewrite solo_quiet_ok by (by apply solo_attempt, solo_reconcile). done.
Qed.

(** What a halted effect looks like afterwards. *)
Lemma solo_halted {A} effect reason db row :
  exact (ReservedEffect.summary effect) ->
  task_in_order (ReservedEffect.task_run_id effect) db ->
  Db.task_effects db !! row_key effect = Some row ->
  TaskEffect.effect_kind row = ReservedEffect.operation effect ->
  (forall raw receipt, receipt_event effect db = Some raw -> read_receipt effect raw <> Ok receipt) ->
  exists db', solo (halt_for_effect_verification effect reason : io A) db = (Err unconfirmed, db', [])
  /\ journal_of effect db' = Pending /\ in_order effect db'.
Proof.
  intros Hx Ht Hrow Hkind Hno.
  destruct (solo_halt (A := A) effect reason db row Hx Ht Hrow Hkind)
  as (db' & row' & Hsolo & Ht' & Hr & Hrow' & Hk' & _).
  exists db'. split; [done|].
  assert (journal_of effect db' = Pending) as Hj.
  { unfold journal_of. rewrite Hr, Hrow'. destruct (receipt_event effect db) as [raw|]; [|done].
  specialize (Hno raw). destruct (read_receipt effect raw) as [receipt|er|]; [|done..].
  by destruct (Hno receipt eq_refl). }
  split; [done|]. split; [done|]. intros r Hr'. simplify_eq. split; [done|].
  by rewrite Hj.
Qed.

Definition reservation_tail effect (n : Z) (row : TaskEffect.t) : io EffectReservation.t :=
  replay_receipt effect (TaskEffect.result_digest row) EffectReservation.Replay
  (if (n =? 1) && bool_decide (TaskEffect.state row = EffectState.reserved)
     then mret (EffectReservation.Execute effect)
     else halt_for_effect_verification effect
            (if bool_decide (TaskEffect.state row = EffectState.verified)
             then lit "workflow_effect_verified_receipt_missing"
             else lit "workflow_effect_execution_ambiguous")).

Lemma solo_reserve run node op args db :
  let effect := new_effect run node op args in
  in_order effect db ->
  exists n db1 row,
  solo (reserve_effect_for_task run node op args) db = solo (reservation_tail effect n row) db1
  /\ task_in_order run db1
  /\ receipt_event effect db1 = receipt_event effect db
  /\ Db.task_effects db1 !! row_key effect = Some row
  /\ TaskEffect.effect_kind row = op
  /\ (forall v, journal_of effect db = Done v -> forall d,
          TaskEffect.result_digest row = Some d -> d = value_digest v)
  /\ (if decide (Db.task_effects db !! row_key effect = None)
        then n = 1 /\ TaskEffect.state row = EffectState.reserved
             /\ TaskEffect.result_digest row = None
        else n = 0).
Proof.
  intros effect [Ht Hrow]. destruct (solo_insert effect db Ht Hrow)
  as (n & db1 & row & Hins & Ht1 & Hr1 & Hrow1 & Hk1 & Hd1 & Hn).
  exists n, db1, row. split; [|by split_and!].
  unfold reserve_effect_for_task. fold effect. erewrite solo_quiet_ok by done.
  erewrite solo_quiet_ok.
  2: { unfold db_op. by apply (solo_map_err _ _ _ _ _ _ (Ok n) db1), solo_sql. }
  erewrite solo_quiet_ok.
  2: { unfold db_op. by apply (solo_map_err _ _ _ _ _ _ (Ok (Db.task_effects db1 !! row_key effect)) db1),
         solo_sql. }
  rewrite Hrow1. change op with (ReservedEffect.operation effect) at 1.
  by rewrite Hk1, str_eqb_refl.
Qed.

Lemma journal_done effect db v :
  journal_of effect db = Done v ->
  exists raw receipt, receipt_event effect db = Some raw /\ read_receipt effect raw = Ok receipt
  /\ VerifiedEffectReceipt.result receipt = v.
Proof.
  unfold journal_of. destruct (receipt_event effect db) as [raw|]; [|by case_match].
  destruct (read_receipt effect raw) as [receipt|e|] eqn:Hread; [|done..].
  intros [= <-]. by exists raw, receipt.
Qed.

Lemma solo_run_done run node label request timeout db v :
  let op := ValidatedTaskToolRequest.operation request in
  let effect := new_effect run node op (ValidatedTaskToolRequest.arguments request) in
  in_order effect db -> journal_of effect db = Done v ->
  exists db', solo (run_effect registry run node label request timeout) db = (Ok v, db', [])
  /\ journal_of effect db' = Done v /\ in_order effect db'.
Proof.
  intros op effect Hord Hj. destruct (solo_reserve run node op
  (ValidatedTaskToolRequest.arguments request) db Hord)
  as (n & db1 & row & Hsolo & Ht1 & Hr1 & Hrow1 & Hk1 & Hd1 & _).
  fold effect in Hsolo, Hr1, Hrow1, Hd1. specialize (Hd1 v Hj).
  destruct (journal_done effect db v Hj) as (raw & receipt & Hraw & Hread & <-).
  pose proof (read_receipt_digest effect raw receipt Hread) as Hdig.
  rewrite Hraw in Hr1. unfold reservation_tail in Hsolo.
  rewrite (solo_replay effect _ _ _ db1 row raw receipt Hr1 Hread Hrow1 Hk1) in Hsolo;
  [|intros d Hd; rewrite <- Hdig; by apply Hd1|by right].
  eexists. split.
  { unfold run_effect. cbv zeta. erewrite solo_quiet_ok by exact Hsolo. reflexivity. }
  set (db2 := Db.with_effects _ db1).
  assert (journal_of effect db2 = Done (VerifiedEffectReceipt.result receipt)) as Hj2.
  { unfold journal_of. change (receipt_event effect db2) with (receipt_event effect db1).
  by rewrite Hr1, Hread. }
  split; [done|]. split; [done|]. intros r Hr. unfold db2 in Hr. simpl in Hr.
  rewrite lookup_insert_eq in Hr. simplify_eq. split; [done|].
  intros v Hv d [= <-]. rewrite Hj2 in Hv. by injection Hv as <-.
Qed.

(** A reservation's tail without a readable receipt. *)
Lemma solo_no_replay {A} effect stored (found : Value -> A) otherwise db :
  (forall raw receipt, receipt_event effect db = Some raw -> read_receipt effect raw <> Ok receipt) ->
  solo (replay_receipt effect stored found otherwise : io A) db
  = solo (match receipt_event effect db with
          | None => otherwise
          | Some raw =>
              match read_receipt effect raw with
              | Err e => halt_for_effect_verification effect (WorkflowRuntimeError.code e)
              | _ => lift Panic
              end
          end) db.
Proof.
  intros Hno. unfold replay_receipt.
  erewrite solo_quiet_ok by (by apply solo_attempt, solo_load).
  destruct (receipt_event effect db) as [raw|]; [|done]. specialize (Hno raw).
  destruct (read_receipt effect raw) as [receipt|e|]; [|done..].
  by destruct (Hno receipt eq_refl).
Qed.

Lemma solo_run_pending run node label request timeout db :
  let op := ValidatedTaskToolRequest.operation request in
  let effect := new_effect run node op (ValidatedTaskToolRequest.arguments request) in
  in_order effect db -> journal_of effect db = Pending ->
  exists db', solo (run_effect registry run node label request timeout) db = (Err unconfirmed, db', [])
  /\ journal_of effect db' = Pending /\ in_order effect db'.
Proof.
  intros op effect Hord Hj. destruct (solo_reserve run node op
  (ValidatedTaskToolRequest.arguments request) db Hord)
  as (n & db1 & row & Hsolo & Ht1 & Hr1 & Hrow1 & Hk1 & _ & Hn).
  fold effect in Hsolo, Hr1, Hrow1, Hn.
  assert (forall raw receipt, receipt_event effect db1 = Some raw ->
            read_receipt effect raw <> Ok receipt) as Hno.
  { intros raw receipt Hraw Hread. rewrite Hr1 in Hraw. unfold journal_of in Hj.
  by rewrite Hraw, Hread in Hj. }
  assert (exists db', solo (reserve_effect_for_task run node op
            (ValidatedTaskToolRequest.arguments request)) db = (Err unconfirmed, db', [])
          /\ journal_of effect db' = Pending /\ in_order effect db')
  as (db' & Hres & Hrest).
  { rewrite Hsolo. unfold reservation_tail. rewrite solo_no_replay by done.
  pose proof (summary_exact op (ValidatedTaskToolRequest.arguments request)) as Hx.
  destruct (receipt_event effect db1) as [raw|] eqn:Hraw.
  - destruct (read_receipt effect raw) as [receipt|e|] eqn:Hread;
        [by destruct (Hno raw receipt)| |by destruct (read_receipt_total effect raw)].
      destruct (solo_halted (A := EffectReservation.t) effect (WorkflowRuntimeError.code e) db1
        row Hx Ht1 Hrow1 Hk1) as (db2 & Hh & Hj2 & Ho2); [by rewrite Hraw|]. by exists db2.
  - assert (n = 0) as ->.
      { unfold journal_of in Hj. rewrite <- Hr1 in Hj.
        destruct (Db.task_effects db !! row_key effect); [|done].
        by rewrite decide_False in Hn by done. }
      change ((0 =? 1) && _) with false. cbv iota.
      destruct (solo_halted (A := EffectReservation.t) effect
        (if bool_decide (TaskEffect.state row = EffectState.verified)
         then lit "workflow_effect_verified_receipt_missing"
         else lit "workflow_effect_execution_ambiguous") db1 row Hx Ht1 Hrow1 Hk1)
        as (db2 & Hh & Hj2 & Ho2); [by rewrite Hraw|]. by exists db2. }
  unfold run_effect. cbv zeta. exists db'. split; [|done]. by apply solo_err.
Qed.

(** ** A fresh effect *)
(** The receipt just written is read back. *)
Lemma receipt_reads effect task p v sequence :
  exact v ->
  let row := written_row task (ReservedEffect.task_run_id effect) p
  (lit "workflow.effect.verified") VerifiedPostcondition
  (json_obj [("idempotencyKey", Value.String (ReservedEffect.key effect));
               ("effectKind", Value.String (ReservedEffect.operation effect));
               ("resultDigest", Value.String (value_digest v));
               ("result", v)]%string) sequence timestamp now in
  is_receipt effect row = true
  /\ read_receipt effect (TaskEvent.event_json row)
  = Ok (VerifiedEffectReceipt.mk _ (value_digest v) v).
Proof.
  intros Hv row.
  destruct (stored_event_reads task (ReservedEffect.task_run_id effect) p
  (lit "workflow.effect.verified") VerifiedPostcondition
  (json_obj [("idempotencyKey", Value.String (ReservedEffect.key effect));
               ("effectKind", Value.String (ReservedEffect.operation effect));
               ("resultDigest", Value.String (value_digest v));
               ("result", v)]%string) sequence timestamp now) as (w & Hread & Htype & Hpayload).
  { apply exact_json_obj.
  repeat (constructor; [first [apply exact_string|exact Hv]|]). constructor. }
  split.
  - unfold is_receipt, has_event_type, extract_is, extract. fold row in Hread. rewrite Hread.
  cbn [pointer]. rewrite Htype, Hpayload. by rewrite !bool_decide_eq_true_2.
  - unfold read_receipt. fold row in Hread. rewrite Hread. cbn [ok_or mbind res_bind].
  rewrite Hpayload. unfold json_obj.
  rewrite !bool_decide_eq_true_2 by done. cbn [negb orb].
  change (string_at "resultDigest" _) with (Some (value_digest v)). cbv iota.
  destruct (value_digest_ok v) as [-> ->]. cbn [Z.eqb Pos.eqb andb negb].
  change (get (lit "result") _) with (Some v). cbv iota. by rewrite str_eqb_refl.
Qed.

Lemma solo_claim effect db row :
  Db.task_effects db !! row_key effect = Some row ->
  TaskEffect.effect_kind row = ReservedEffect.operation effect ->
  TaskEffect.state row = EffectState.reserved ->
  solo (claim_effect_execution effect) db
  = (Ok None,
     Db.with_effects (<[row_key effect := set_effect EffectState.executed
         (TaskEffect.result_digest row) now row]> (Db.task_effects db)) db, []).
Proof.
  intros Hrow Hkind Hstate. unfold claim_effect_execution. erewrite solo_quiet_ok by done.
  erewrite solo_quiet_ok.
  2: { unfold db_op. apply (solo_map_err _ _ _ _ _ _ (Ok 1)), solo_sql.
       unfold update_effect, change, update_one.
       change (ReservedEffect.task_run_id effect, ReservedEffect.key effect) with (row_key effect).
       rewrite Hrow. unfold row_matches. rewrite Hkind, str_eqb_refl, Hstate.
       by rewrite bool_decide_eq_true_2 by set_solver. }
  done.
Qed.

(** The state between the claim and the answer. *)
Definition called effect (db : Db) : Prop :=
  task_in_order (ReservedEffect.task_run_id effect) db
  /\ receipt_event effect db = None
  /\ exists row, Db.task_effects db !! row_key effect = Some row
     /\ TaskEffect.effect_kind row = ReservedEffect.operation effect
     /\ TaskEffect.state row = EffectState.executed
     /\ TaskEffect.result_digest row = None.

Lemma called_halt {A} effect reason db :
  exact (ReservedEffect.summary effect) -> called effect db ->
  exists db', solo (halt_for_effect_verification effect reason : io A) db = (Err unconfirmed, db', [])
  /\ journal_of effect db' = Pending /\ in_order effect db'.
Proof.
  intros Hx (Ht & Hr & row & Hrow & Hk & _). apply (solo_halted effect reason db row); try done.
  by rewrite Hr.
Qed.

Lemma called_verified effect db v :
  exact v -> called effect db ->
  exists db', solo (verify_effect effect v) db = (Ok tt, db', [])
  /\ journal_of effect db' = Done v /\ in_order effect db'.
Proof.
  intros Hv ((Hrun & task & p & Htask & Hproj & Hp & Hid) & Hr & row & Hrow & Hk & _ & Hd).
  set (event := written_row task (ReservedEffect.task_run_id effect) p
  (lit "workflow.effect.verified") VerifiedPostcondition
  (json_obj [("idempotencyKey", Value.String (ReservedEffect.key effect));
               ("effectKind", Value.String (ReservedEffect.operation effect));
               ("resultDigest", Value.String (value_digest v));
               ("result", v)]%string)
  (next_sequence (ReservedEffect.task_run_id effect) db) timestamp now).
  set (db1 := Db.with_events (Db.task_events db ++ [event]) db).
  set (db2 := Db.with_effects (<[row_key effect := set_effect EffectState.verified
  (Some (value_digest v)) now row]> (Db.task_effects db1)) db1).
  destruct (receipt_reads effect task p v
  (next_sequence (ReservedEffect.task_run_id effect) db) Hv) as [His Hread].
  assert (journal_of effect db2 = Done v) as Hj.
  { unfold journal_of. change (receipt_event effect db2) with (receipt_event effect db1).
  unfold db1. rewrite receipt_snoc by done. unfold event. by rewrite His, Hread. }
  exists db2. split_and!; [|done|].
  - unfold verify_effect. pose proof (solo_load effect db) as Hload. rewrite Hr in Hload.
  erewrite solo_quiet_ok by exact Hload. cbv zeta iota.
  erewrite solo_quiet_ok.
  2: { apply (solo_map_err _ _ _ _ _ _ (Ok tt) db1).
         by apply (solo_record _ task p). }
  apply solo_reconcile; [done..|]. by rewrite Hd.
  - split; [split; [done|by exists task, p]|]. intros r Hr'. unfold db2 in Hr'. simpl in Hr'.
  rewrite lookup_insert_eq in Hr'. simplify_eq. split; [done|].
  intros v' Hv' d [= <-]. rewrite Hj in Hv'. by injection Hv' as <-.
Qed.

Lemma called_released effect code db :
  called effect db ->
  exists db', solo (release_unchanged_effect effect code) db = (Ok tt, db', [])
  /\ journal_of effect db' = Fresh /\ in_order effect db'.
Proof.
  intros ((Hrun & task & p & Htask & Hproj & Hp & Hid) & Hr & row & Hrow & Hk & Hs & Hd).
  set (db1 := Db.with_effects (delete (row_key effect) (Db.task_effects db)) db).
  set (event := written_row task (ReservedEffect.task_run_id effect) p
  (lit "workflow.effect.unchanged") ObservedResult
  (json_obj [("idempotencyKey", Value.String (ReservedEffect.key effect));
               ("effectKind", Value.String (ReservedEffect.operation effect));
               ("errorCode", Value.String code);
               ("changedState", Value.Bool false)]%string)
  (next_sequence (ReservedEffect.task_run_id effect) db1) timestamp now).
  set (db2 := Db.with_events (Db.task_events db1 ++ [event]) db1).
  assert (Db.task_effects db2 !! row_key effect = None) as Hgone
  by (unfold db2, db1; simpl; by rewrite lookup_delete_eq).
  exists db2. split_and!.
  - unfold release_unchanged_effect. erewrite solo_quiet_ok.
  2: { unfold db_op. apply (solo_map_err _ _ _ _ _ _ (Ok 1) db1), solo_sql.
         unfold delete_unverified_effect, change.
         change (ReservedEffect.task_run_id effect, ReservedEffect.key effect)
           with (row_key effect).
         rewrite Hrow, Hk, str_eqb_refl, Hs, Hd. by rewrite !bool_decide_eq_true_2. }
  change (negb (1 =? 1)) with false. cbv iota.
  apply (solo_map_err _ _ _ _ _ _ (Ok tt) db2). by apply (solo_record _ task p).
  - unfold journal_of. unfold db2. rewrite receipt_snoc by done. unfold event.
  rewrite not_receipt; [| |done].
  + change (receipt_event effect db1) with (receipt_event effect db). rewrite Hr.
      fold event db2. by rewrite Hgone.
  + apply exact_json_obj.
      repeat (constructor; [first [apply exact_string|apply exact_bool]|]). constructor.
  - split; [split; [done|by exists task, p]|]. intros r Hr'. congruence.
Qed.

Lemma solo_conclude effect (o : ToolOutcome.t) node label timeout call db :
  let op := ReservedEffect.operation effect in
  ValidatedTaskToolRequest.operation (ToolCall.request call) = op ->
  exact (ReservedEffect.summary effect) ->
  (forall v, accepted o = Some v -> exact v) ->
  called effect db ->
  exists r db',
  solo (conclude_call registry node label op timeout (Some effect) o) db = (r, db', [])
  /\ journal_step call o Fresh = (r, journal_of effect db', [call])
  /\ in_order effect db'.
Proof.
  intros op Hop Hx Hv Hc. unfold journal_step. rewrite Hop.
  assert (forall reason, accepted o = None -> unchanged op o = None ->
  exists r db', solo (halt_for_effect_verification effect reason : io Value) db = (r, db', [])
  /\ match accepted o with
       | Some v => (Ok v, Done v, [call])
       | None => match unchanged op o with
                 | Some e => (Err e, Fresh, [call])
                 | None => (Err unconfirmed, Pending, [call])
                 end
       end = (r, journal_of effect db', [call])
  /\ in_order effect db') as Hhalt.
  { intros reason Ha Hu. destruct (called_halt (A := Value) effect reason db Hx Hc)
      as (db' & Hsolo & Hj & Ho).
  exists (Err unconfirmed), db'. by rewrite Ha, Hu, Hj. }
  unfold conclude_call, fail_after_call.
  destruct o as [response|raw| |raw]; [| |by apply Hhalt|by apply Hhalt].
  - simpl accepted in *. simpl unchanged in *.
  destruct (verified_result response) as [v|e|] eqn:Hres;
    [|by apply Hhalt|by destruct (verified_result_total response)].
  destruct (called_verified effect db v (Hv v eq_refl) Hc) as (db' & Hsolo & Hj & Ho).
  exists (Ok v), db'. split; [|by rewrite Hj].
  by erewrite solo_quiet_ok by (apply solo_attempt, Hsolo).
  - fold op. unfold accepted, unchanged in *.
  destruct (parse_retry_safe_unchanged_error registry op
                (normalize_agent_error registry op raw)) as [er|]; [|by apply Hhalt].
  destruct (called_released effect
      (WorkflowRuntimeError.code (task_tool_error registry op raw)) db Hc)
      as (db' & Hsolo & Hj & Ho).
  eexists (Err _), db'. split; [|by rewrite Hj].
  by erewrite solo_quiet_ok by exact Hsolo.
Qed.

Lemma solo_run_fresh run node label request timeout db :
  let op := ValidatedTaskToolRequest.operation request in
  let effect := new_effect run node op (ValidatedTaskToolRequest.arguments request) in
  let call := ToolCall.mk _ run request (Some effect) in
  (forall v, accepted outcome = Some v -> exact v) ->
  in_order effect db -> journal_of effect db = Fresh ->
  exists r db',
  solo (run_effect registry run node label request timeout) db
    = (r, db', [Started call; Answered call outcome])
  /\ journal_step call outcome Fresh = (r, journal_of effect db', [call])
  /\ in_order effect db'.
Proof.
  intros op effect call Hv Hord Hj. destruct (solo_reserve run node op
  (ValidatedTaskToolRequest.arguments request) db Hord)
  as (n & db1 & row & Hsolo & Ht1 & Hr1 & Hrow1 & Hk1 & _ & Hn).
  fold effect in Hsolo, Hr1, Hrow1, Hn.
  assert (receipt_event effect db = None /\ Db.task_effects db !! row_key effect = None)
  as [Hnone Hempty].
  { unfold journal_of in Hj. destruct (receipt_event effect db) as [raw|].
  - by destruct (read_receipt effect raw).
  - by destruct (Db.task_effects db !! row_key effect). }
  rewrite decide_True in Hn by done. destruct Hn as (-> & Hstate & Hdig).
  rewrite Hnone in Hr1.
  unfold reservation_tail in Hsolo. rewrite solo_no_replay, Hr1, Hstate in Hsolo by (by rewrite Hr1).
  set (db2 := Db.with_effects (<[row_key effect := set_effect EffectState.executed
  (TaskEffect.result_digest row) now row]> (Db.task_effects db1)) db1).
  assert (called effect db2) as Hc.
  { split; [done|]. split; [done|]. eexists. unfold db2. simpl. rewrite lookup_insert_eq.
  split; [done|]. by simpl. }
  destruct (solo_conclude effect outcome node label timeout call db2 eq_refl
  (summary_exact op (ValidatedTaskToolRequest.arguments request)) Hv Hc)
  as (r & db' & Hcon & Hstep & Ho).
  exists r, db'.
  split; [|by split_and!].
  unfold run_effect. cbv zeta. fold op.
  erewrite solo_quiet_ok by exact Hsolo. unfold carry_out.
  erewrite solo_quiet_ok by (by apply (solo_claim effect db1 row)). fold db2.
  change (ReservedEffect.operation effect) with op in Hcon.
  unfold call_tool. cbn [Program.solo]. by rewrite Hcon.
Qed.
End Alone.

(** C11: a run of an effect that nothing interferes with is one step of the abstract
    journal, with the same result or error. A fresh effect is called exactly once, with
    its own request and reservation, and becomes done when the tool reports a verified
    result, fresh again when it is trusted to have changed nothing, and otherwise
    pending. A done effect gives back the recorded result and a pending one the error
    that asks for verification, both without a call. The tables stay in order. *)
Theorem run_refines_the_journal now bytes outcome run node label request timeout db :
  let op := ValidatedTaskToolRequest.operation request in
  let effect := new_effect run node op (ValidatedTaskToolRequest.arguments request) in
  let call := ToolCall.mk _ run request (Some effect) in
  is_Some (rfc3339_millis now) ->
  (forall v, accepted outcome = Some v -> exact v) ->
  in_order effect db ->
  exists r db' calls,
    solo now bytes (fun _ => outcome) (run_effect registry run node label request timeout) db
      = (r, db', flat_map (fun call => [Started call; Answered call outcome]) calls)
    /\ journal_step call outcome (journal_of effect db) = (r, journal_of effect db', calls)
    /\ in_order effect db'.
Proof.
  intros op effect call [timestamp Htime] Hv Hord.
  destruct (journal_of effect db) as [| |v] eqn:Hj.
  - destruct (solo_run_fresh now bytes outcome timestamp Htime run node label request timeout db
      Hv Hord Hj) as (r & db' & Hsolo & Hstep & Ho). by exists r, db', [call].
  - destruct (solo_run_pending now bytes outcome timestamp Htime run node label request timeout
      db Hord Hj) as (db' & Hsolo & Hj' & Ho).
    exists (Err unconfirmed), db', []. fold op effect in Hj', Ho. by rewrite Hj'.
  - destruct (solo_run_done now bytes outcome timestamp Htime run node label request timeout
      db v Hord Hj) as (db' & Hsolo & Hj' & Ho).
    exists (Ok v), db', []. fold op effect in Hj', Ho. by rewrite Hj'.
Qed.
End Refinement.

(** The mail scenario again: fresh, then done. *)
Import IntegerJson PlainStore MailRace.

Module ExactStore.
#[export] Instance laws : StoreLaws (S := PlainStore.store).
Proof.
  refine {| exact := fun _ => True |}; try done.
  intros fields _. apply PrefixText.from_str_to_string.
Defined.
#[export] Instance digest_laws : DigestLaws (D := MailRace.digest).
Proof.
  split.
  - intros bytes. apply length_replicate.
  - intros bytes. apply list.Forall_forall. intros b Hb.
    apply elem_of_replicate in Hb as [-> _]. unfold MailRace.digest.
    destruct bytes as [|x l _] using rev_ind; [by simpl; lia|].
    rewrite foldl_app. simpl. pose proof (Z.mod_pos_bound
      (31 * foldl (fun a b => (31 * a + b) mod 251) 7 l + x) 251). lia.
Qed.
End ExactStore.
Import ExactStore.

Lemma run_refines_the_journal_witness :
  let effect := new_effect run_id (lit "n1") (lit "send_system_email")
    (ValidatedTaskToolRequest.arguments request) in
  let call := ToolCall.mk _ run_id request (Some effect) in
  journal_of effect db0 = Fresh
  /\ exists r db' calls,
    solo 5 [] (fun _ => sent) (run_effect ∅ run_id (lit "n1") (lit "Send") request 1000) db0
      = (r, db', flat_map (fun call => [Started call; Answered call sent]) calls)
    /\ journal_step ∅ call sent (journal_of effect db0) = (r, journal_of effect db', calls)
    /\ in_order effect db'.
Proof.
  intros effect call. split; [done|].
  apply (run_refines_the_journal ∅ 5 [] sent run_id (lit "n1") (lit "Send") request 1000 db0).
  - by eexists.
  - done.
  - split; [split; [by vm_compute|]|].
    + exists run_row, (lit "project_" ++ lit uuid). by split_and!; vm_compute.
    + intros row Hrow. done.
Defined.
