(* ===== verification/Templates.v ===== *)
(** * Templates and references into a run's memory

    The template part of [workflow_runtime.rs]: a template is a text with
    references such as [{{nodes.read.output.data}}]; a reference names a key of
    the run's memory and a path below it.  The error of a failed resolution is
    kept as the source keeps it, because the engine tells an empty collection
    that is indexed from every other failure. *)
From S2P Require Import Prelude.
From S2P Require Import RustStr.
From S2P Require Import RustHash.
From S2P Require Import JsonValue.
From S2P Require Import TaskTools.
Local Open Scope Z_scope.

(** ** The references of a template

    The pattern [\{\{\s*([^{}]+?)\s*\}\}].  Neither the group nor the spaces
    contain a brace, so a match is two braces, a run of other characters that is
    not empty, and two braces; the group, trimmed, is the run trimmed. *)
Module Capture.
Record t : Type := mk { full : str; key : str }.
End Capture.

Definition is_brace (c : Z) : bool := (c =? 123) || (c =? 125).
Fixpoint span (f : Z -> bool) (s : str) : str * str :=
  match s with
  | c :: s' => if f c then let '(l, r) := span f s' in (c :: l, r) else ([], s)
  | [] => ([], [])
  end.
Definition not_brace (c : Z) : bool := negb (is_brace c).

(** A match that starts at the head of [s]. *)
Definition match_reference (s : str) : option Capture.t :=
  match strip_prefix (lit "{{") s with
  | Some r =>
      let '(run, rest) := span not_brace r in
      if is_empty run then None
      else if starts_with (lit "}}") rest
      then Some (Capture.mk (lit "{{" ++ run ++ lit "}}") (trim run))
      else None
  | None => None
  end.
(** [Regex::captures_iter]: from left to right, [skip] characters of the last
    match still to pass. *)
Fixpoint scan_references (skip : nat) (s : str) : list Capture.t :=
  match s with
  | [] => []
  | _ :: s' =>
      match skip with
      | S skip => scan_references skip s'
      | O =>
          match match_reference s with
          | Some c => c :: scan_references (pred (length (Capture.full c))) s'
          | None => scan_references 0 s'
          end
      end
  end.
Definition captures_iter (template : str) : list Capture.t := scan_references 0 template.
Definition template_references (template : str) : list str :=
  map Capture.key (captures_iter template).

(** [str::replace] with a pattern that is not empty. *)
Fixpoint replace_from (skip : nat) (pattern replacement s : str) : str :=
  match s with
  | [] => []
  | c :: s' =>
      match skip with
      | S skip => replace_from skip pattern replacement s'
      | O =>
          if starts_with pattern s
          then replacement ++ replace_from (pred (length pattern)) pattern replacement s'
          else c :: replace_from 0 pattern replacement s'
      end
  end.
Definition replace (pattern replacement s : str) : str := replace_from 0 pattern replacement s.

(** [Iterator::max_by_key]: the last of the greatest. *)
Definition max_by_key {A} (f : A -> Z) (l : list A) : option A :=
  foldl (fun best x =>
    match best with
    | Some b => if f x <? f b then Some b else Some x
    | None => Some x
    end) None l.
Lemma max_by_key_elem {A} (f : A -> Z) l x : max_by_key f l = Some x -> x ∈ l.
Proof.
  unfold max_by_key. assert (forall acc, foldl (fun best y =>
    match best with Some z => if f y <? f z then Some z else Some y | None => Some y end) acc l = Some x ->
    acc = Some x \/ x ∈ l) as Hall; [|naive_solver].
  induction l as [|y l IH]; intros acc; cbn [foldl]; [by left|]. intros Hx.
  apply IH in Hx as [Hx|Hx]; [|by right; right].
  destruct acc as [z|]; [destruct (f y <? f z)|]; simplify_eq; [by left|by right; left..].
Qed.

(** ** Errors of resolution *)
Module TemplateResolutionErrorKind.
Inductive t : Type :=
| UnknownRoot
| MissingField (field container_reference : str)
| TypeMismatch (segment container_reference actual : str)
| InvalidArrayIndex (segment collection_reference : str)
| EmptyArrayIndexed (collection_reference : str)
| ArrayIndexOutOfBounds (index len : Z) (collection_reference : str).
End TemplateResolutionErrorKind.

Module TemplateResolutionError.
Record t : Type := mk { reference : str; kind : TemplateResolutionErrorKind.t }.
End TemplateResolutionError.

Section Messages.
Context {U : UnicodeTables}.

Definition resolution_message (self : TemplateResolutionError.t) : str :=
  let detail :=
    match TemplateResolutionError.kind self with
    | TemplateResolutionErrorKind.UnknownRoot => lit "no matching runtime value exists"
    | TemplateResolutionErrorKind.MissingField field container =>
        lit "field " ++ debug_str field ++ lit " does not exist beneath " ++ container
    | TemplateResolutionErrorKind.TypeMismatch segment container actual =>
        lit "cannot traverse segment " ++ debug_str segment ++ lit " beneath " ++ container
        ++ lit " because the value is " ++ actual
    | TemplateResolutionErrorKind.InvalidArrayIndex segment collection =>
        lit "segment " ++ debug_str segment ++ lit " is not a numeric index for array "
        ++ collection
    | TemplateResolutionErrorKind.EmptyArrayIndexed collection =>
        lit "array " ++ collection ++ lit " is empty"
    | TemplateResolutionErrorKind.ArrayIndexOutOfBounds index len collection =>
        lit "index " ++ show_nat index ++ lit " is out of bounds for array " ++ collection
        ++ lit " with length " ++ show_nat len
    end in
  lit "Template reference " ++ TemplateResolutionError.reference self
  ++ lit " is unresolved: " ++ detail ++ lit ".".

(** [WorkflowRuntimeError::template_resolution] *)
Definition template_resolution (error : TemplateResolutionError.t) : WorkflowRuntimeError.t :=
  match TemplateResolutionError.kind error with
  | TemplateResolutionErrorKind.EmptyArrayIndexed _ =>
      WorkflowRuntimeError.new "workflow_runtime_empty_collection_indexed"
        (resolution_message error)
  | _ => WorkflowRuntimeError.execution (resolution_message error)
  end.
End Messages.

(** ** Resolution *)
Section Resolve.
Context {J : JsonLib}.
Implicit Types (memory : gmap str Value) (value : Value).

Definition json_value_kind value : str :=
  match value with
  | Value.Null => lit "null"
  | Value.Bool _ => lit "a boolean"
  | Value.Number _ => lit "a number"
  | Value.String _ => lit "a string"
  | Value.Array _ => lit "an array"
  | Value.Object _ => lit "an object"
  end.

(** One turn of the loop over the segments of a path. *)
Definition resolve_segment (segment : str) (current_reference : str) value
  : TemplateResolutionErrorKind.t + Value :=
  if is_empty segment
  then inl (TemplateResolutionErrorKind.MissingField segment current_reference)
  else
    match value with
    | Value.Object object =>
        match obj_get segment object with
        | Some value => inr value
        | None => inl (TemplateResolutionErrorKind.MissingField segment current_reference)
        end
    | Value.Array items =>
        match parse_unsigned usize_max segment with
        | None =>
            inl (TemplateResolutionErrorKind.InvalidArrayIndex segment current_reference)
        | Some index =>
            match items with
            | [] => inl (TemplateResolutionErrorKind.EmptyArrayIndexed current_reference)
            | _ =>
                match items !! Z.to_nat index with
                | Some value => inr value
                | None =>
                    inl (TemplateResolutionErrorKind.ArrayIndexOutOfBounds index
                           (Z.of_nat (length items)) current_reference)
                end
            end
        end
    | value =>
        inl (TemplateResolutionErrorKind.TypeMismatch segment current_reference
               (json_value_kind value))
    end.
Fixpoint resolve_segments (segments : list str) (reference current_reference : str) value
  : res TemplateResolutionError.t Value :=
  match segments with
  | [] => Ok value
  | segment :: segments =>
      match resolve_segment segment current_reference value with
      | inl kind => Err (TemplateResolutionError.mk reference kind)
      | inr value =>
          resolve_segments segments reference
            (current_reference ++ lit "." ++ segment) value
      end
  end.
Definition resolve_value_path value (path reference base_reference : str)
  : res TemplateResolutionError.t Value :=
  resolve_segments (split_char (ch ".") path) reference base_reference value.

(** [reference] goes below [key]. *)
Definition below (key reference : str) : bool :=
  (str_len key <? str_len reference)
  && match strip_prefix key reference with
     | Some (c :: _) => c =? ch "."
     | _ => false
     end.

Section Memory.
Context {H : HashOrder}.

Definition base_of (reference : str) memory : option (str * Value) :=
  max_by_key (fun kv => str_len kv.1)
    (List.filter (fun kv => below kv.1 reference) (map_iter memory)).

Definition resolve_memory_reference (reference : str) memory
  : res TemplateResolutionError.t Value :=
  match memory !! reference with
  | Some value => Ok value
  | None =>
      match base_of reference memory with
      | None => Err (TemplateResolutionError.mk reference TemplateResolutionErrorKind.UnknownRoot)
      | Some (base_key, base_value) =>
          let path := drop (S (length base_key)) reference in
          let direct := resolve_value_path base_value path reference base_key in
          if is_ok direct then direct
          else
            let first_segment := default [] (head (split_char (ch ".") path)) in
            let root_field_is_absent :=
              match as_object base_value with
              | Some object => negb (obj_contains_key first_segment object)
              | None => false
              end in
            match (if root_field_is_absent
                   then pointer ["data"; "structuredContent"]%string base_value else None) with
            | Some structured =>
                resolve_value_path structured path reference
                  (base_key ++ lit ".data.structuredContent")
            | None => direct
            end
      end
  end.

Context {T : JsonText} {U : UnicodeTables}.

(** [match value { Value::String(value) => value, value => value.to_string() }] *)
Definition render value : str :=
  match value with Value.String value => value | value => to_string value end.

Definition resolve_reference (key : str) memory : res WorkflowRuntimeError.t Value :=
  map_err template_resolution (resolve_memory_reference key memory).

(** The loop of [resolve_template]: each reference, in order, replaces all its
    occurrences in what has been rendered so far. *)
Definition render_capture memory (rendered : str) (capture : Capture.t)
  : res WorkflowRuntimeError.t str :=
  value ← resolve_reference (Capture.key capture) memory;
  Ok (replace (Capture.full capture) (render value) rendered).
Definition resolve_template (template : str) memory : res WorkflowRuntimeError.t Value :=
  let captures := captures_iter template in
  let rendered :=
    rendered ← for_fold (render_capture memory) template captures;
    Ok (Value.String rendered) in
  match captures with
  | [capture] =>
      if str_eqb (Capture.full capture) template
      then resolve_reference (Capture.key capture) memory
      else rendered
  | _ => rendered
  end.
Definition resolve_template_to_string (template : str) memory
  : res WorkflowRuntimeError.t str :=
  value ← resolve_template template memory;
  Ok (render value).

(** The strings of a value, resolved; the keys of an object stay. *)
Fixpoint resolve_json_templates value memory : res WorkflowRuntimeError.t Value :=
  match value with
  | Value.String text => resolve_template text memory
  | Value.Array items =>
      items ← try_map (fun item => resolve_json_templates item memory) items;
      Ok (Value.Array items)
  | Value.Object object =>
      fields ← try_map (fun kv =>
                  value ← resolve_json_templates kv.2 memory;
                  Ok (kv.1, value)) object;
      Ok (Value.Object (obj_from fields))
  | value => Ok value
  end.
End Memory.
End Resolve.

(** The strings that are pushed, in order. *)
Fixpoint collect_json_template_strings `{J : JsonLib} (value : Value) : list str :=
  match value with
  | Value.String template => [template]
  | Value.Array items => flat_map collect_json_template_strings items
  | Value.Object object => flat_map (fun kv => collect_json_template_strings kv.2) object
  | _ => []
  end.

(** [exact_template_reference] *)
Definition exact_template_reference (template : str) : option str :=
  let template := trim template in
  match captures_iter template with
  | capture :: _ =>
      if str_eqb (Capture.full capture) template then Some (Capture.key capture) else None
  | [] => None
  end.

(** ** What a reference in a template stands for

    References are looked up in a hash map; the longest key in front of a
    reference wins, and the order of the map decides nothing. *)
(** ** The greatest element *)
Section Greatest.
Context {A : Type} (f : A -> Z).

Lemma max_by_key_spec l :
  match max_by_key f l with
  | Some x => x ∈ l /\ forall y, y ∈ l -> f y <= f x
  | None => l = []
  end.
Proof.
  unfold max_by_key. induction l as [|y l IH] using rev_ind; [done|]. rewrite foldl_app. cbn [foldl].
  destruct (foldl _ None l) as [x|].
  - destruct IH as [Hx Hm]. destruct (Z.ltb_spec (f y) (f x)); (split; [set_solver|]);
      intros z [Hz| ->%list_elem_of_singleton]%elem_of_app; try lia; specialize (Hm z Hz); lia.
  - subst l. split; [by left|]. intros z ->%list_elem_of_singleton. lia.
Qed.
(** With one greatest element the order of the list does not matter. *)
Lemma max_by_key_perm l l' :
  (forall x y, x ∈ l -> y ∈ l -> f x = f y -> x = y) -> l ≡ₚ l' -> max_by_key f l = max_by_key f l'.
Proof.
  intros Hinj Hp. pose proof (max_by_key_spec l) as H1. pose proof (max_by_key_spec l') as H2.
  destruct (max_by_key f l) as [x|], (max_by_key f l') as [y|].
  - destruct H1 as [Hx Hm], H2 as [Hy Hm']. rewrite <- Hp in Hy. f_equal. apply Hinj; [done|done|].
    specialize (Hm y Hy). assert (x ∈ l') as Hx' by (by rewrite <- Hp). specialize (Hm' x Hx'). lia.
  - destruct H1 as [Hx _]. subst l'. rewrite Hp in Hx. by apply elem_of_nil in Hx.
  - destruct H2 as [Hy _]. subst l. rewrite <- Hp in Hy. by apply elem_of_nil in Hy.
  - done.
Qed.
End Greatest.

(** ** Prefixes *)
Lemma below_prefix k reference : below k reference = true -> exists t, reference = k ++ t.
Proof.
  unfold below. intros [_ Hs]%andb_true_iff. destruct (strip_prefix k reference) as [t|] eqn:Hp; [|done].
  exists t. by apply strip_prefix_Some.
Qed.
Lemma str_len_cons c (s : str) : 0 <= str_len s < str_len (c :: s).
Proof.
  assert (forall c, 0 < utf8_width c) as Hw by (intros d; unfold utf8_width; repeat case_match; lia).
  assert (0 <= str_len s) as Hs.
  { induction s as [|d s IH]; [done|]. unfold str_len in *. cbn. specialize (Hw d). lia. }
  unfold str_len in *. cbn. specialize (Hw c). lia.
Qed.
Lemma prefixes_by_length (k k' t t' : str) : k ++ t = k' ++ t' -> str_len k = str_len k' -> k = k'.
Proof.
  revert k'. induction k as [|c k IH]; intros [|c' k'] Happ Hlen; [done| | |].
  - pose proof (str_len_cons c' k'). change (str_len []) with 0 in Hlen. lia.
  - pose proof (str_len_cons c k). change (str_len []) with 0 in Hlen. lia.
  - injection Happ as -> Happ. f_equal. apply IH; [done|]. unfold str_len in *. cbn in Hlen. lia.
Qed.

(** ** References *)
Section References.
Context {J : JsonLib}.
Implicit Types (memory : gmap str Value).

Definition candidates {H : HashOrder} (reference : str) memory : list (str * Value) :=
  List.filter (fun kv => below kv.1 reference) (map_iter memory).
Lemma elem_of_candidates {H : HashOrder} reference memory k v :
  (k, v) ∈ candidates reference memory <-> memory !! k = Some v /\ below k reference = true.
Proof.
  unfold candidates. rewrite list_elem_of_In, List.filter_In, <- list_elem_of_In, elem_of_map_iter. done.
Qed.
Lemma candidates_by_length {H : HashOrder} reference memory x y :
  x ∈ candidates reference memory -> y ∈ candidates reference memory ->
  str_len x.1 = str_len y.1 -> x = y.
Proof.
  destruct x as [k v], y as [k' v']. cbn. intros [Hk Hb]%elem_of_candidates [Hk' Hb']%elem_of_candidates Hlen.
  apply below_prefix in Hb as [t Ht], Hb' as [t' Ht'].
  assert (k = k') as -> by (eapply prefixes_by_length; [|exact Hlen]; by rewrite <- Ht, <- Ht'). congruence.
Qed.
Lemma base_of_order (H H' : HashOrder) reference memory :
  @base_of J H reference memory = @base_of J H' reference memory.
Proof.
  apply max_by_key_perm; [apply (@candidates_by_length H)|].
  apply filter_perm. by rewrite !map_iter_perm.
Qed.
Lemma base_of_spec {H : HashOrder} reference memory k v :
  base_of reference memory = Some (k, v) <->
  memory !! k = Some v /\ below k reference = true /\
  forall k', is_Some (memory !! k') -> below k' reference = true -> str_len k' <= str_len k.
Proof.
  pose proof (max_by_key_spec (fun kv : str * Value => str_len kv.1) (candidates reference memory)) as Hs.
  change (base_of reference memory) with
    (max_by_key (fun kv : str * Value => str_len kv.1) (candidates reference memory)).
  destruct (max_by_key _ _) as [[k0 v0]|].
  - destruct Hs as [Hin Hmax]. split.
    + intros [= -> ->]. apply elem_of_candidates in Hin as Hin'. destruct Hin'. split_and!; [done|done|].
      intros k' [v' Hk'] Hb. apply (Hmax (k', v')), elem_of_candidates. done.
    + intros (Hk & Hb & Hl). f_equal. apply (candidates_by_length reference memory); [done| |].
      * by apply elem_of_candidates.
      * apply elem_of_candidates in Hin as [Hk0 Hb0]. specialize (Hl k0 (mk_is_Some _ _ Hk0) Hb0).
        assert ((k, v) ∈ candidates reference memory) as Hin by by apply elem_of_candidates.
        specialize (Hmax _ Hin). cbn [fst] in *. lia.
  - split; [done|]. intros (Hk & Hb & _). assert ((k, v) ∈ candidates reference memory) as Hin
      by by apply elem_of_candidates. rewrite Hs in Hin. by apply elem_of_nil in Hin.
Qed.

Context {U : UnicodeTables}.
Lemma resolve_reference_order (H H' : HashOrder) key memory :
  @resolve_reference J H U key memory = @resolve_reference J H' U key memory.
Proof. unfold resolve_reference, resolve_memory_reference. by rewrite (base_of_order H H'). Qed.
End References.

(** ** Templates *)
Section Resolution.
Context {J : JsonLib} {T : JsonText} {U : UnicodeTables}.
Implicit Types (memory : gmap str Value).

Lemma for_fold_ext {E A S} (f g : S -> A -> res E S) l s :
  (forall s x, f s x = g s x) -> for_fold f s l = for_fold g s l.
Proof.
  intros Hfg. revert s. induction l as [|x l IH]; intros s; cbn; [done|]. rewrite Hfg.
  destruct (g s x); cbn; [apply IH|done..].
Qed.
Lemma try_map_ext {E A B} (f g : A -> res E B) l :
  Forall (fun x => f x = g x) l -> try_map f l = try_map g l.
Proof. induction 1 as [|x l Hx _ IH]; cbn; [done|]. by rewrite Hx, IH. Qed.
Lemma resolve_template_order (H H' : HashOrder) template memory :
  @resolve_template J H T U template memory = @resolve_template J H' T U template memory.
Proof.
  unfold resolve_template. rewrite (for_fold_ext _ (@render_capture J H' T U memory)).
  - repeat case_match; try done; apply resolve_reference_order.
  - intros s x. unfold render_capture. by rewrite (resolve_reference_order H H').
Qed.

(** C31: What a template stands for is determined by the memory alone. Of the keys in
    front of a reference the longest wins, in bytes, and there is only one such key; so
    a value full of templates resolves to the same value, or to the same error, whatever
    the iteration order of the hash map. *)
Theorem templates_resolve_alike (H H' : HashOrder) value memory :
  @resolve_json_templates J H T U value memory = @resolve_json_templates J H' T U value memory
  /\ forall reference k v, @base_of J H reference memory = Some (k, v) <->
       memory !! k = Some v /\ below k reference = true
       /\ forall k', is_Some (memory !! k') -> below k' reference = true -> str_len k' <= str_len k.
Proof.
  split; [|intros; apply base_of_spec].
  induction value as [|b|n|text|items IH|object IH] using Value_nested_ind; cbn [resolve_json_templates];
    try done; [apply resolve_template_order|by rewrite (try_map_ext _ _ items IH)|].
  rewrite (try_map_ext _ (fun kv => value ← @resolve_json_templates J H' T U kv.2 memory; Ok (kv.1, value)) object);
    [done|]. eapply list.Forall_impl; [exact IH|]. intros [k v] Hv. cbn in *. by rewrite Hv.
Qed.
End Resolution.

(** * Conditions ([condition_expression.rs])

    A router or a conditional first tries to decide its expression itself: a
    boolean literal, or a path, an operator and a literal.  Only what cannot be
    decided here is put to the model. *)
(** ** The pattern [^\s*([A-Za-z0-9_.$:-]+)\s*(==|...|contains)\s*(.+?)\s*$] *)
Definition is_path_char (c : Z) : bool :=
  is_ascii_alphanumeric c || existsb (Z.eqb c) (lit "_.$:-").
Definition operators : list str :=
  [lit "=="; lit "!="; lit ">="; lit "<="; lit ">"; lit "<"; lit "contains"].

(** The last group and the end: as much space as there is, then at least one
    character, none of them a line feed; the expression has been trimmed, so the
    group runs to its end. *)
Definition match_literal (rest : str) : option str :=
  let literal := trim_start rest in
  if is_empty literal || contains_char 10 literal then None else Some literal.
Definition match_operator (rest : str) : option (str * str) :=
  find_map (fun operator =>
    match strip_prefix operator rest with
    | Some rest =>
        match match_literal rest with
        | Some literal => Some (operator, literal)
        | None => None
        end
    | None => None
    end) operators.
(** The first group takes the longest run and gives back one character at a
    time, as the pattern's greedy repetition does. *)
Fixpoint lengths_down (n : nat) : list nat :=
  match n with O => [] | S n => S n :: lengths_down n end.
Definition match_condition (expression : str) : option (str * str * str) :=
  let run := (span is_path_char expression).1 in
  find_map (fun n =>
    match match_operator (trim_start (drop n expression)) with
    | Some (operator, literal) => Some (take n expression, operator, literal)
    | None => None
    end) (lengths_down (length run)).

Section Evaluate.
Context {J : JsonLib} {T : JsonText}.

(** [value.trim_matches(char)] *)
Definition trim_matches_char (c : Z) (s : str) : str :=
  trim_end_by (Z.eqb c) (trim_start_by (Z.eqb c) s).
Definition parse_literal (value : str) : Value :=
  let value := trim value in
  match from_str value with
  | Some literal => literal
  | None => Value.String (trim_matches_char 34 value)
  end.

Fixpoint get_path (segments : list str) (value : Value) : option Value :=
  match segments with
  | [] => Some value
  | segment :: segments =>
      match get segment value with
      | Some value => get_path segments value
      | None => None
      end
  end.
Definition lookup_condition_value (path : str) (memory : gmap str Value) (input : Value)
  : option Value :=
  if equals path "$" || equals path "input" then Some input
  else
    match memory !! path with
    | Some value => Some value
    | None =>
        let path := trim_start_matches (lit "input.") (trim_start_matches (lit "$.") path) in
        get_path (split_char (ch ".") path) input
    end.

Definition compare_numbers (operator : str) (left_value right_value : Value) : option bool :=
  match as_f64 left_value, as_f64 right_value with
  | Some l, Some r =>
      if equals operator ">" then Some (f64_lt r l)
      else if equals operator ">=" then Some (f64_le r l)
      else if equals operator "<" then Some (f64_lt l r)
      else Some (f64_le l r)
  | _, _ => None
  end.
Definition apply_operator (operator : str) (left_value right_value : Value) : option bool :=
  if equals operator "==" then Some (value_eqb left_value right_value)
  else if equals operator "!=" then Some (negb (value_eqb left_value right_value))
  else if equals operator "contains" then
    match left_value, right_value with
    | Value.String l, Value.String r => Some (contains_str r l)
    | Value.Array l, r => Some (existsb (fun item => value_eqb item r) l)
    | _, _ => None
    end
  else if in_list operator [">"; ">="; "<"; "<="] then
    compare_numbers operator left_value right_value
  else None.

Definition evaluate_basic_condition (expression : str) (memory : gmap str Value)
    (input : Value) : option bool :=
  let expression := trim expression in
  if eq_ignore_ascii_case expression (lit "true") then Some true
  else if eq_ignore_ascii_case expression (lit "false") then Some false
  else
    match match_condition expression with
    | Some (path, operator, literal) =>
        match lookup_condition_value path memory input with
        | Some left_value => apply_operator operator left_value (parse_literal literal)
        | None => None
        end
    | None => None
    end.
End Evaluate.
