(* ===== verification/WorkflowRuntime.v ===== *)
(** * The workflow runtime: its data and its pure parts ([workflow_runtime.rs])

    Requests and responses, the errors of the runtime, the order in which nodes
    run, what a node receives from its predecessors, the time a node is given,
    and the small readings of a model's answer. *)
From S2P Require Import Prelude.
From S2P Require Import RustStr.
From S2P Require Import RustHash.
From S2P Require Import JsonValue.
From S2P Require Import WorkflowIr.
From S2P Require Import ToolSecurity.
From S2P Require Import WorkflowReview.
From S2P Require Import TaskTools.
From S2P Require Import Templates.
Local Open Scope Z_scope.

#[export] Instance ExecutionStatus_eq_dec : EqDecision ExecutionStatus.t :=
  ExecutionStatus.eq_dec.
#[export] Instance WorkflowCompletionKind_eq_dec : EqDecision WorkflowCompletionKind.t :=
  WorkflowCompletionKind.eq_dec.

(** ** Requests and responses *)
Module InputBinding.
Inductive t `{J : JsonLib} : Type :=
| Manual (value : Value)
| LocalFile (path : str)
| Environment (name : str).
End InputBinding.

Module OutputBinding.
Inductive t : Type :=
| Ui
| LocalDirectory (directory : str) (file_name : option str).
End OutputBinding.

Module WorkflowPreflightMode.
Inductive t : Type := Skipped | TaskflowAudit.
End WorkflowPreflightMode.

Module RunWorkflowRequest.
Record t `{J : JsonLib} : Type := mk {
  workflow_id : str;
  workflow_version : option Z;
  preflight_mode : WorkflowPreflightMode.t;
  inputs : gmap str InputBinding.t;
  outputs : gmap str OutputBinding.t;
}.
End RunWorkflowRequest.

Module PayloadEnvelope.
Record t `{J : JsonLib} : Type := mk {
  media_type : str;
  data : option Value;
  asset_path : option str;
  metadata : list (str * Value);
}.
(** The serde form. *)
Definition to_value `{J : JsonLib} (self : t) : Value :=
  json_obj [("mediaType", Value.String (media_type self));
            ("data", json_opt (data self));
            ("assetPath", json_opt (option_map Value.String (asset_path self)));
            ("metadata", Value.Object (metadata self))].
End PayloadEnvelope.

Module PermissionDecision.
Inductive t : Type := Approve | Reject.
(** The serde name. *)
Definition text (d : t) : str :=
  match d with Approve => lit "approve" | Reject => lit "reject" end.
End PermissionDecision.
#[export] Instance PermissionDecision_eq_dec : EqDecision PermissionDecision.t.
Proof. solve_decision. Defined.

Module ResolvePermissionRequest.
Record t : Type := mk {
  instance_id : str; approval_token : str; decision : PermissionDecision.t;
}.
End ResolvePermissionRequest.

Module ApprovalRequest.
Record t `{J : JsonLib} : Type := mk {
  instance_id : str;
  workflow_id : str;
  node_id : str;
  message : str;
  context : Value;
  approval_token : str;
  approve_command : Value;
  reject_command : Value;
}.
End ApprovalRequest.

Module RunWorkflowResponse.
Record t `{J : JsonLib} : Type := mk {
  instance : ExecutionInstance.t;
  execution_order : list str;
  approval_request : option ApprovalRequest.t;
  completion : option WorkflowCompletionKind.t;
}.
End RunWorkflowResponse.

Module ModelOutput.
Record t : Type := mk { text : str; prompt_tokens : Z; completion_tokens : Z }.
End ModelOutput.

Module ResumePermission.
Record t : Type := mk { node_id : str; decision : PermissionDecision.t }.
End ResumePermission.

Module NodeOutcome.
Record t `{J : JsonLib} : Type := mk {
  output : Value;
  ports : list str;
  prompt_tokens : Z;
  completion_tokens : Z;
  completion_kind : WorkflowCompletionKind.t;
}.
End NodeOutcome.

Module ActionNodeStep.
Inductive t `{J : JsonLib} : Type :=
| Completed (outcome : NodeOutcome.t)
| Paused (approval : ApprovalRequest.t).
End ActionNodeStep.

Module ExecutionOutcome.
Record t `{J : JsonLib} : Type := mk {
  execution_order : list str;
  approval_request : option ApprovalRequest.t;
}.
End ExecutionOutcome.

(** ** The errors of [workflow_runtime.rs] *)
Definition error_input (message : str) : WorkflowRuntimeError.t :=
  WorkflowRuntimeError.new "workflow_runtime_input_invalid" message.
Definition error_invalid_ir (errors : list str) : WorkflowRuntimeError.t :=
  WorkflowRuntimeError.new "workflow_runtime_ir_invalid" (join (lit "; ") errors).
Definition error_io (error : str) : WorkflowRuntimeError.t :=
  WorkflowRuntimeError.new "workflow_runtime_io_failed" error.
Definition error_mcp_sandbox (message : str) : WorkflowRuntimeError.t :=
  WorkflowRuntimeError.new "workflow_runtime_mcp_sandbox_unavailable"
    (lit "MCP sandbox pre-initialization failed: " ++ message
     ++ lit ". The workflow was halted before any nodes executed.").
Definition error_permission_rejected (reason : str) : WorkflowRuntimeError.t :=
  WorkflowRuntimeError.new "workflow_runtime_permission_rejected"
    (lit "Permission rejected: " ++ reason).
Definition error_approval_unauthorized : WorkflowRuntimeError.t :=
  WorkflowRuntimeError.new "workflow_runtime_approval_unauthorized"
    (lit "The approval token is invalid.").
Definition error_approval_consumed : WorkflowRuntimeError.t :=
  WorkflowRuntimeError.new "workflow_runtime_approval_consumed"
    (lit "This approval request is no longer pending.").
Definition error_approval_state_invalid : WorkflowRuntimeError.t :=
  WorkflowRuntimeError.new "workflow_runtime_approval_state_invalid"
    (lit "The paused execution is missing approval state.").
Definition error_approval_not_verified (node_id tool_name : str) : WorkflowRuntimeError.t :=
  WorkflowRuntimeError.new "workflow_runtime_approval_not_verified"
    (lit "No valid workflow approval ledger entry exists for node " ++ node_id
     ++ lit " and tool " ++ tool_name ++ lit ".").

(** ** Names *)
Definition SERVER_NAME : str := lit "oomu_task_tools".
Definition is_registered_task_server (server_name : str) : bool :=
  eq_ignore_ascii_case (trim server_name) SERVER_NAME.
Definition is_exact_workflow_effect (server_name tool_name : str) : bool :=
  reviewed_effect_requires_explicit_approval server_name tool_name.

Definition SYNC_KNOWLEDGE_VAULT_TOOL : str := lit "sync_knowledge_vault".
Definition normalize_runtime_identifier (value : str) : str :=
  join (lit "_")
    (List.filter not_empty
       (split_char (ch "_")
          (map (fun c => if is_ascii_alphanumeric c then to_ascii_lowercase_char c else ch "_")
             value))).
Definition is_sync_knowledge_vault_mcp_tool (server_name tool_name : str) : bool :=
  str_eqb (normalize_runtime_identifier tool_name) SYNC_KNOWLEDGE_VAULT_TOOL
  && in_list (normalize_runtime_identifier server_name)
       ["system"; "native"; "local"; "oomu"; "oomu_system"].
Definition is_native_calendar_workflow_tool (server_name tool_name : str) : bool :=
  eq_ignore_ascii_case (trim server_name) (lit "macos_applescript")
  && eq_ignore_ascii_case (trim tool_name) (lit "read_system_calendar").
(** [native_notification.rs] *)
Definition is_notification_tool (server_name tool_name : str) : bool :=
  eq_ignore_ascii_case (trim server_name) (lit "macos_applescript")
  && eq_ignore_ascii_case (trim tool_name) (lit "trigger_system_notification").

(** ** The time a node is given *)
Definition APPLE_APP_WORKFLOW_TIMEOUT_MS : Z := MEDIUM_TIMEOUT_MS.
Definition SYSTEM_CALENDAR_WORKFLOW_TIMEOUT_MS : Z := 75000.

Definition bounded_node_timeout_ms (timeout_ms : Z) : Z := clamp 1 LONG_TIMEOUT_MS timeout_ms.
Definition configured_node_timeout_ms (configured : option Z) (default_ms : Z) : Z :=
  bounded_node_timeout_ms (default default_ms configured).
Definition long_running_operation_hint (value : str) : bool :=
  let value := to_ascii_lowercase value in
  existsb (fun needle => contains_str (lit needle) value)
    ["asset sync"; "cloud"; "compute"; "configure"; "deep"; "deploy"; "docker build"; "gcloud";
     "multi-turn"; "provision"; "reasoning"; "recursive"; "remote"; "research"; "rsync"; "scp";
     "ssh"; "sync_web_assets"; "terraform"; "vm"]%string.
Definition hinted (a b : str) (otherwise : Z) : Z :=
  if long_running_operation_hint (a ++ lit " " ++ b) then LONG_TIMEOUT_MS else otherwise.

Definition agent_timeout_ms (agent : AgentNode.t) : Z :=
  configured_node_timeout_ms (AgentNode.system_timeout_ms agent)
    (hinted (AgentNode.label agent) (AgentNode.objective agent) MEDIUM_TIMEOUT_MS).
Definition router_timeout_ms (router : RouterNode.t) : Z :=
  configured_node_timeout_ms (RouterNode.system_timeout_ms router)
    (hinted (RouterNode.label router) (RouterNode.expression router) SHORT_TIMEOUT_MS).
Definition conditional_timeout_ms (conditional : ConditionalNode.t) : Z :=
  configured_node_timeout_ms (ConditionalNode.system_timeout_ms conditional)
    (hinted (ConditionalNode.label conditional) (ConditionalNode.condition conditional)
       SHORT_TIMEOUT_MS).
Definition loop_timeout_ms (loop_node : LoopNode.t) : Z :=
  configured_node_timeout_ms (LoopNode.system_timeout_ms loop_node)
    (hinted (LoopNode.label loop_node) (LoopNode.items_mapping loop_node) MEDIUM_TIMEOUT_MS).

Section Json.
Context {J : JsonLib}.
Notation Memory := (gmap str Value).
Implicit Types (edges : list WorkflowEdge.t) (ir : WorkflowIr.t) (memory : Memory).

Definition default_mcp_tool_timeout_ms (mcp_tool : McpToolNode.t) : Z :=
  let server := McpToolNode.server_name mcp_tool in
  let tool := McpToolNode.tool_name mcp_tool in
  if CapabilityClassification.requires_human_approval (classify_mcp_tool_call server tool None)
     || long_running_operation_hint (server ++ lit " " ++ tool)
  then LONG_TIMEOUT_MS else MEDIUM_TIMEOUT_MS.
Definition minimum_mcp_tool_timeout_ms (mcp_tool : McpToolNode.t) : Z :=
  let server := McpToolNode.server_name mcp_tool in
  if is_native_calendar_workflow_tool server (McpToolNode.tool_name mcp_tool)
  then SYSTEM_CALENDAR_WORKFLOW_TIMEOUT_MS
  else if eq_ignore_ascii_case (trim server) (lit "macos_applescript")
  then APPLE_APP_WORKFLOW_TIMEOUT_MS
  else 1.
Definition mcp_tool_timeout_ms (mcp_tool : McpToolNode.t) : Z :=
  Z.max (configured_node_timeout_ms (McpToolNode.system_timeout_ms mcp_tool)
           (default_mcp_tool_timeout_ms mcp_tool))
        (minimum_mcp_tool_timeout_ms mcp_tool).

(** ** The order of the nodes *)
Definition edges_by_target edges : gmap str (list WorkflowEdge.t) :=
  foldl (fun m edge => entry_push (WorkflowEdge.target_node_id edge) edge m) ∅ edges.
Definition edges_by_source edges : gmap str (list WorkflowEdge.t) :=
  foldl (fun m edge => entry_push (WorkflowEdge.source_node_id edge) edge m) ∅ edges.
(** [map.get(id).into_iter().flatten()] *)
Definition edges_at (m : gmap str (list WorkflowEdge.t)) (id : str) : list WorkflowEdge.t :=
  default [] (m !! id).

(** [original_order]: a later node with the same name replaces an earlier one. *)
Definition original_order ir : gmap str nat :=
  snd (foldl (fun '(index, m) node => (S index, <[WorkflowNode.id node := index]> m))
         (0%nat, ∅) (WorkflowIr.nodes ir)).
(** [original_order[id]] panics on a name that is not there. *)
Definition with_position (order : gmap str nat) (id : str)
  : res WorkflowRuntimeError.t (nat * str) := or_panic (option_map (fun n => (n, id)) (order !! id)).

(** [sort_by_key], a stable sort, on keys read beforehand. *)
Fixpoint insert_by_key {A} (x : nat * A) (l : list (nat * A)) : list (nat * A) :=
  match l with
  | [] => [x]
  | y :: l' => if (x.1 <=? y.1)%nat then x :: l else y :: insert_by_key x l'
  end.
Definition sort_by_key {A} (l : list (nat * A)) : list (nat * A) := foldr insert_by_key [] l.
Definition sort_by_order (order : gmap str nat) (ids : list str)
  : res WorkflowRuntimeError.t (list str) :=
  keyed ← try_map (with_position order) ids;
  Ok (map snd (sort_by_key keyed)).

(** Counting edges down: the targets whose counter reaches zero, in order. *)
Fixpoint release_targets edges (indegree : gmap str Z) (newly_ready : list str)
  : res WorkflowRuntimeError.t (gmap str Z * list str) :=
  match edges with
  | [] => Ok (indegree, newly_ready)
  | edge :: edges =>
      let target := WorkflowEdge.target_node_id edge in
      match indegree !! target with
      | None =>
          Err (error_invalid_ir [lit "edge target " ++ target
                                 ++ lit " is missing from the workflow graph"])
      | Some degree =>
          release_targets edges (<[target := degree - 1]> indegree)
            (if degree - 1 =? 0 then newly_ready ++ [target] else newly_ready)
      end
  end.
(** One turn of the queue.  [fuel] is the number of edges and nodes, one more
    than the queue can ever have held. *)
Fixpoint sort_loop (fuel : nat) (order : gmap str nat) (outgoing : gmap str (list WorkflowEdge.t))
    (indegree : gmap str Z) (queue result : list str) : res WorkflowRuntimeError.t (list str) :=
  match fuel, queue with
  | S fuel, id :: queue =>
      released ← release_targets (edges_at outgoing id) indegree [];
      newly_ready ← sort_by_order order released.2;
      sort_loop fuel order outgoing released.1 (queue ++ newly_ready) (result ++ [id])
  | _, _ => Ok result
  end.

Section Sort.
Context {H : HashOrder}.

Definition topological_sort ir : res WorkflowRuntimeError.t (list str) :=
  let nodes := WorkflowIr.nodes ir in
  let edges := WorkflowIr.edges ir in
  let order := original_order ir in
  let indegree := foldl (fun m node => <[WorkflowNode.id node := 0]> m) (∅ : gmap str Z) nodes in
  let indegree := foldl (fun m edge =>
                    <[WorkflowEdge.target_node_id edge :=
                        default 0 (m !! WorkflowEdge.target_node_id edge) + 1]> m) indegree edges in
  let outgoing := edges_by_source edges in
  let ready := map fst (List.filter (fun kv => kv.2 =? 0) (map_iter indegree)) in
  ready ← sort_by_order order ready;
  result ← sort_loop (S (length nodes + length edges)) order outgoing indegree ready [];
  if Nat.eqb (length result) (length nodes) then Ok result
  else Err (WorkflowRuntimeError.execution (lit "Workflow graph is not acyclic.")).

(** [node_payloads.keys()], sorted. *)
Definition str_leb (s t : str) : bool := negb (str_ltb t s).
Fixpoint insert_str (x : str) (l : list str) : list str :=
  match l with
  | [] => [x]
  | y :: l' => if str_leb x y then x :: l else y :: insert_str x l'
  end.
Definition recorded_execution_order ir (instance : ExecutionInstance.t) : list str :=
  let payloads := ExecutionInstance.node_payloads instance in
  let order :=
    match topological_sort ir with
    | Ok order => order
    | _ => foldr insert_str [] (map fst (map_iter payloads))
    end in
  List.filter (fun id => bool_decide (is_Some (payloads !! id))) order.
End Sort.

(** ** What a node receives *)
Definition selects (selected_edges : gset str) (edge : WorkflowEdge.t) : bool :=
  bool_decide (WorkflowEdge.id edge ∈ selected_edges).
Definition incoming_payload (node_id : str) (incoming : gmap str (list WorkflowEdge.t))
    (selected_edges : gset str) (payloads : gmap str NodeExecutionPayload.t) : option Value :=
  let values :=
    omap (fun edge => payloads !! WorkflowEdge.source_node_id edge ≫= NodeExecutionPayload.output)
      (List.filter (selects selected_edges) (edges_at incoming node_id)) in
  match values with
  | [] => None
  | [value] => Some value
  | _ => Some (Value.Array values)
  end.
(** The edges that leave through one of the ports of an outcome. *)
Definition select_edges edges (ports : list str) (selected_edges : gset str) : gset str :=
  foldl (fun acc edge =>
    if existsb (str_eqb (WorkflowEdge.source_port edge)) ports
    then {[WorkflowEdge.id edge]} ∪ acc else acc) selected_edges edges.

(** [nodes.iter().map(|node| (node.id(), node)).collect::<HashMap<_, _>>()] *)
Definition node_by_id_map ir : gmap str WorkflowNode.t :=
  foldl (fun m node => <[WorkflowNode.id node := node]> m) ∅ (WorkflowIr.nodes ir).

(** ** Readings of a model's answer *)
Definition trim_matches (c : Z) (s : str) : str :=
  trim_end_by (Z.eqb c) (trim_start_by (Z.eqb c) s).
Definition parse_model_boolean (value : str) : option bool :=
  let normalized := to_ascii_lowercase (trim_matches (ch ".") (trim_matches 34 (trim value))) in
  if in_list normalized ["true"; "yes"; "matched"; "pass"; "passed"] then Some true
  else if in_list normalized ["false"; "no"; "not_matched"; "fail"; "failed"] then Some false
  else None.
Definition route_for_boolean (router : RouterNode.t) (result : bool)
  : res WorkflowRuntimeError.t str :=
  let preferred :=
    (if result then ["matched"; "true"; "yes"] else ["not_matched"; "false"; "no"])%string in
  let routes := RouterNode.routes router in
  match find (fun route => in_list (RouterRoute.port route) preferred) routes with
  | Some route => Ok (RouterRoute.port route)
  | None =>
      match routes !! (if result then 0 else 1)%nat with
      | Some route => Ok (RouterRoute.port route)
      | None =>
          Err (WorkflowRuntimeError.execution
                 (lit "Router " ++ RouterNode.id router ++ lit " has no route for boolean result "
                  ++ (if result then lit "true" else lit "false") ++ lit "."))
      end
  end.

Definition validate_request (request : RunWorkflowRequest.t) : res WorkflowRuntimeError.t unit :=
  if is_blank (RunWorkflowRequest.workflow_id request)
  then Err (error_input (lit "workflowId must not be empty."))
  else if bool_decide (RunWorkflowRequest.workflow_version request = Some 0)
  then Err (error_input (lit "workflowVersion must be greater than zero."))
  else Ok tt.
Definition validate_approval_request (request : ResolvePermissionRequest.t)
  : res WorkflowRuntimeError.t unit :=
  if is_blank (ResolvePermissionRequest.instance_id request)
     || is_blank (ResolvePermissionRequest.approval_token request)
  then Err (error_input (lit "instanceId and approvalToken must not be empty."))
  else Ok tt.

(** ** Outcomes *)
Definition EMPTY_COMPLETION_MEDIA_TYPE : str :=
  lit "application/vnd.oomu.workflow-completion+json".
Definition completed_empty_envelope : Value :=
  json_obj [("mediaType", Value.String EMPTY_COMPLETION_MEDIA_TYPE);
            ("data", json_obj [("kind", json_str "empty_collection"); ("items", Value.Array [])]);
            ("assetPath", Value.Null);
            ("metadata", json_obj [("completionKind", json_str "empty_collection")])].
Definition string_is (o : option Value) (text : str) : bool :=
  match o with Some (Value.String s) => str_eqb s text | _ => false end.
Definition is_completed_empty_envelope (value : Value) : bool :=
  string_is (get (lit "mediaType") value) EMPTY_COMPLETION_MEDIA_TYPE
  && string_is (pointer ["data"; "kind"]%string value) (lit "empty_collection")
  && match pointer ["data"; "items"]%string value with
     | Some (Value.Array []) => true
     | _ => false
     end
  && string_is (pointer ["metadata"; "completionKind"]%string value) (lit "empty_collection").

Definition outcome_output (output : Value) (ports : list str) : NodeOutcome.t :=
  NodeOutcome.mk _ output ports 0 0 WorkflowCompletionKind.Result.
Definition outcome_empty_collection : NodeOutcome.t :=
  NodeOutcome.mk _ completed_empty_envelope [] 0 0 WorkflowCompletionKind.EmptyCollection.

Definition run_workflow_response (instance : ExecutionInstance.t) (execution_order : list str)
    (approval_request : option ApprovalRequest.t) : RunWorkflowResponse.t :=
  let completion :=
    if bool_decide (ExecutionInstance.status instance = ExecutionStatus.Completed)
    then match ExecutionInstance.output_payload instance with
         | Some payload =>
             if is_completed_empty_envelope payload
             then Some WorkflowCompletionKind.EmptyCollection else None
         | None => None
         end
    else None in
  RunWorkflowResponse.mk _ instance execution_order approval_request completion.

(** [json!({"mediaType": "application/json", "data": .., "assetPath": null,
    "metadata": ..})] *)
Definition json_envelope (data metadata : Value) : Value :=
  json_obj [("mediaType", json_str "application/json"); ("data", data);
            ("assetPath", Value.Null); ("metadata", metadata)].
Definition mcp_result_envelope (server_name tool_name : str) (arguments result : Value) : Value :=
  let metadata :=
    obj_from ([(lit "serverName", Value.String server_name);
               (lit "toolName", Value.String tool_name); (lit "arguments", arguments)]
              ++ if is_registered_task_server server_name
                 then [(lit "operation", Value.String tool_name); (lit "verified", Value.Bool true)]
                 else []) in
  json_envelope result (Value.Object metadata).

(** ** Arguments of a tool that writes text *)
Definition mcp_text_content (value : Value) : option str :=
  match value with
  | Value.String text => Some text
  | Value.Array items =>
      let text :=
        join [10] (omap (fun item =>
          if string_is (get (lit "type") item) (lit "text")
          then match get (lit "text") item with Some (Value.String s) => Some s | _ => None end
          else None) items) in
      if is_empty text then None else Some text
  | _ => None
  end.
Fixpoint workflow_payload_text (value : Value) : option str :=
  match value with
  | Value.String text => Some text
  | Value.Object object =>
      let data :=
        (fix data_of (o : list (str * Value)) : option str :=
           match o with
           | [] => None
           | (k, v) :: o => if str_eqb (lit "data") k then workflow_payload_text v else data_of o
           end) object in
      match data with
      | Some text => Some text
      | None =>
          match obj_get (lit "text") object with
          | Some (Value.String text) => Some text
          | _ =>
              match (match obj_get (lit "structuredContent") object with
                     | Some structured => get (lit "content") structured
                     | None => None
                     end) with
              | Some (Value.String text) => Some text
              | _ => match obj_get (lit "content") object with
                     | Some content => mcp_text_content content
                     | None => None
                     end
              end
          end
      end
  | _ => None
  end.
Definition normalize_mcp_text_writer_arguments (tool_name : str) (arguments : Value) : Value :=
  if negb (in_list tool_name ["write_markdown_report"; "write_file"]) then arguments
  else
    match arguments with
    | Value.Object object =>
        let text_of (key : string) :=
          match obj_get (lit key) object with
          | Some value => option_map (fun text => (lit key, text)) (workflow_payload_text value)
          | None => None
          end in
        match find_map text_of ["content"; "report"; "markdown"; "body"; "text"]%string with
        | Some (key, text) => Value.Object (obj_insert key (Value.String text) object)
        | None => arguments
        end
    | _ => arguments
    end.
End Json.
