(* ===== verification/EmptyCollections.v ===== *)
(** * When a workflow ends because nothing matched ([workflow_runtime.rs])

    A reader that answers with an empty collection may end the whole run
    successfully: a later step on an unguarded straight path would only index the
    empty collection.  This file follows the source through its walks along the
    straight paths and its reading of the reader's contract. *)
From S2P Require Import Prelude.
From S2P Require Import RustStr.
From S2P Require Import RustHash.
From S2P Require Import JsonValue.
From S2P Require Import WorkflowIr.
From S2P Require Import TaskTools.
From S2P Require Import Templates.
From S2P Require Import WorkflowRuntime.

(** ** Following single edges

    The three loops of the source follow one edge at a time, remember where they
    have been, and leave with [repeated] when they come back.  [stop] is the
    condition of the loop, tested before the node is remembered. *)
Section Walk.
Context {R : Type} (stop : str -> option R) (turn : str -> str + R) (repeated : R).

Fixpoint walk (fuel : nat) (visited : gset str) (current : str) : option R :=
  match fuel with
  | O => None
  | S fuel =>
      match stop current with
      | Some r => Some r
      | None =>
          if decide (current ∈ visited) then Some repeated
          else match turn current with
               | inr r => Some r
               | inl next => walk fuel ({[current]} ∪ visited) next
               end
      end
  end.

(** A walk that goes on only from a finite set of nodes ends. *)
Lemma walk_ends (X : gset str) fuel visited current :
  (forall u v, turn u = inl v -> u ∈ X) -> visited ⊆ X ->
  (size X - size visited < fuel)%nat -> is_Some (walk fuel visited current).
Proof.
  intros HX. revert visited current. induction fuel as [|fuel IH]; intros visited current Hv Hf;
    [lia|]. cbn [walk]. destruct (stop current); [done|].
  destruct (decide (current ∈ visited)) as [|Hn]; [done|].
  destruct (turn current) as [next|r] eqn:Ht; [|done]. apply HX in Ht.
  assert ({[current]} ∪ visited ⊆ X) as Hsub by set_solver.
  apply IH; [done|]. pose proof (subseteq_size _ _ Hsub) as Hs.
  rewrite size_union in * by set_solver. rewrite size_singleton in *. lia.
Qed.
End Walk.

Module PrimaryCollectionEvidence.
Record t : Type := mk { reference : str; is_empty : bool }.
End PrimaryCollectionEvidence.

Module LegacyEmptyCompletion.
Record t : Type := mk { reference : str; collection_reference : str; consumer_node_id : str }.
End LegacyEmptyCompletion.

Section Empty.
Context {J : JsonLib} {H : HashOrder}.
Notation Memory := (gmap str Value).
Notation Edges := (gmap str (list WorkflowEdge.t)).
Notation Nodes := (gmap str WorkflowNode.t).
Implicit Types (memory : Memory) (incoming outgoing : Edges) (node_by_id : Nodes).

(** [nodes.{id}.output] and its short form. *)
Definition canonical_output (node_id : str) : str := lit "nodes." ++ node_id ++ lit ".output".
Definition shorthand_output (node_id : str) : str := node_id ++ lit ".output".
Definition is_whole_producer_output_reference (producer reference : str) : bool :=
  str_eqb reference (canonical_output producer) || str_eqb reference (shorthand_output producer).
Definition is_part_of_producer_output (producer reference : str) : bool :=
  starts_with (canonical_output producer ++ lit ".") reference
  || starts_with (shorthand_output producer ++ lit ".") reference.

(** ** The contract of a reader *)
Definition is_authoritative_legacy_collection_reader (producer : McpToolNode.t) : bool :=
  let server := McpToolNode.server_name producer in
  let tool := McpToolNode.tool_name producer in
  (equals server "taskflow_native" && equals tool "folder_read")
  || (equals server "local_filesystem" && in_list tool ["list_directory"; "read_file"])
  || (equals server "macos_applescript"
      && in_list tool ["read_system_calendar"; "read_system_contacts"; "read_system_emails";
                       "read_system_music"; "read_system_notes"; "read_system_photos";
                       "read_system_reminders"]).

Definition declared_primary_collection_path (output_schema : Value) : option str :=
  contract ← get (lit "x-oomu-result-contract") output_schema;
  if negb (string_is (get (lit "kind") contract) (lit "collection"))
     || negb (match get (lit "emptyIsSuccess") contract with
              | Some (Value.Bool b) => b | _ => false end)
  then None
  else
    path ← get (lit "path") contract;
    path ← JsonValue.as_str path;
    path ← strip_prefix (lit "/") (trim path);
    let segments :=
      map (fun segment => replace (lit "~0") (lit "~") (replace (lit "~1") (lit "/") segment))
        (List.filter not_empty (split_char (ch "/") path)) in
    match segments with [] => None | _ => Some (join (lit ".") segments) end.

(** The arrays among the fields of an object, in the order of its keys. *)
Definition array_fields (object : list (str * Value)) : list (str * list Value) :=
  omap (fun kv => option_map (fun items => (kv.1, items)) (as_array kv.2)) object.
Definition stored_output (node_id : str) memory : option Value :=
  match memory !! canonical_output node_id with
  | Some output => Some output
  | None => memory !! shorthand_output node_id
  end.
Definition structured_content (node_id : str) memory : option (list (str * Value)) :=
  output ← stored_output node_id memory;
  content ← pointer ["data"; "structuredContent"]%string output;
  as_object content.

Definition no_items (items : list Value) : bool := match items with [] => true | _ => false end.
Definition primary_collection_evidence (producer : McpToolNode.t) (producer_node_id : str) memory
  : option PrimaryCollectionEvidence.t :=
  match McpToolNode.output_schema producer with
  | Some output_schema =>
      path ← declared_primary_collection_path output_schema;
      let reference := canonical_output producer_node_id ++ lit ".data." ++ path in
      match resolve_memory_reference reference memory with
      | Ok (Value.Array items) => Some (PrimaryCollectionEvidence.mk reference (no_items items))
      | _ => None
      end
  | None =>
      object ← structured_content producer_node_id memory;
      match array_fields object with
      | [(field, items)] =>
          Some (PrimaryCollectionEvidence.mk
                  (canonical_output producer_node_id ++ lit ".data.structuredContent." ++ field)
                  (no_items items))
      | _ => None
      end
  end.
Definition empty_primary_collection_reference (producer : McpToolNode.t) (producer_node_id : str)
    memory : option str :=
  match McpToolNode.output_schema producer with
  | None => if is_authoritative_legacy_collection_reader producer then Some tt else None
  | Some _ => Some tt
  end ≫= fun _ =>
  evidence ← primary_collection_evidence producer producer_node_id memory;
  if PrimaryCollectionEvidence.is_empty evidence
  then Some (PrimaryCollectionEvidence.reference evidence) else None.

Definition normalize_legacy_collection_reference (producer_node_id reference : str) : option str :=
  let canonical_root := canonical_output producer_node_id ++ lit "." in
  let shorthand_root := shorthand_output producer_node_id ++ lit "." in
  rooted ← (match strip_prefix canonical_root reference with
            | Some suffix => Some (canonical_root, suffix)
            | None => option_map (fun suffix => (shorthand_root, suffix))
                        (strip_prefix shorthand_root reference)
            end);
  let '(root, suffix) := rooted in
  if is_empty suffix then None
  else if starts_with (lit "data.") suffix then Some reference
  else Some (root ++ lit "data.structuredContent." ++ suffix).

Definition legacy_empty_collection_reference (producer : McpToolNode.t)
    (producer_node_id reference : str) memory : option str :=
  match resolve_memory_reference reference memory with
  | Err error =>
      match TemplateResolutionError.kind error with
      | TemplateResolutionErrorKind.EmptyArrayIndexed collection => Some collection
      | _ => None
      end
  | Ok (Value.Array []) => normalize_legacy_collection_reference producer_node_id reference
  | Ok (Value.Object _) =>
      if is_whole_producer_output_reference producer_node_id reference
      then empty_primary_collection_reference producer producer_node_id memory else None
  | _ => None
  end.

(** The field below [structuredContent] that a reference names, if it is one. *)
Definition structured_field (producer_node_id collection_reference : str) : option str :=
  let below_prefix (output : str) :=
    strip_prefix (output ++ lit ".data.structuredContent.") collection_reference in
  field ← (match below_prefix (canonical_output producer_node_id) with
           | Some field => Some field
           | None => below_prefix (shorthand_output producer_node_id)
           end);
  if is_empty field || contains_char (ch ".") field then None else Some field.
Definition schema_less_top_level_empty_collection (producer_node_id collection_reference : str)
    memory : bool :=
  match structured_field producer_node_id collection_reference,
        structured_content producer_node_id memory with
  | Some field, Some object =>
      match array_fields object with
      | [(array_field, items)] => str_eqb array_field field && no_items items
      | _ => false
      end
  | _, _ => false
  end.
Definition empty_collection_matches_producer_contract (producer : McpToolNode.t)
    (producer_node_id collection_reference : str) memory : bool :=
  match McpToolNode.output_schema producer with
  | Some output_schema =>
      match declared_primary_collection_path output_schema with
      | Some path =>
          str_eqb collection_reference (canonical_output producer_node_id ++ lit ".data." ++ path)
          || str_eqb collection_reference
               (shorthand_output producer_node_id ++ lit ".data." ++ path)
      | None => false
      end
  | None =>
      schema_less_top_level_empty_collection producer_node_id collection_reference memory
  end.

(** ** What the templates of a step refer to *)
Definition any_reference (f : str -> bool) (templates : list str) : bool :=
  existsb (fun template => existsb f (template_references template)) templates.
Definition templates_reference_whole_producer_output (templates : list str) (producer : str) : bool :=
  any_reference (is_whole_producer_output_reference producer) templates.
Definition templates_reference_producer (templates : list str) (producer : str) : bool :=
  any_reference (fun reference => is_whole_producer_output_reference producer reference
                                  || is_part_of_producer_output producer reference) templates.
Definition templates_reference_non_whole_producer_output (templates : list str) (producer : str)
  : bool := any_reference (is_part_of_producer_output producer) templates.
Definition collection_aliases (producer_node_id collection_reference : str) : list str :=
  [collection_reference]
  ++ match strip_prefix (lit "nodes.") collection_reference with
     | Some shorthand => [shorthand] | None => []
     end
  ++ match structured_field producer_node_id collection_reference with
     | Some field =>
         [canonical_output producer_node_id ++ lit "." ++ field;
          shorthand_output producer_node_id ++ lit "." ++ field]
     | None => []
     end.
Definition templates_reference_collection (templates : list str)
    (producer_node_id collection_reference : str) : bool :=
  any_reference (fun reference =>
    existsb (fun alias => str_eqb reference alias || starts_with (alias ++ lit ".") reference)
      (collection_aliases producer_node_id collection_reference)) templates.

Definition consumer_referenced_primary_collection_evidence (producer : McpToolNode.t)
    (producer_node_id : str) (consumer_templates : list str) memory
  : option PrimaryCollectionEvidence.t :=
  evidence ← primary_collection_evidence producer producer_node_id memory;
  if templates_reference_collection consumer_templates producer_node_id
       (PrimaryCollectionEvidence.reference evidence)
     || ((bool_decide (is_Some (McpToolNode.output_schema producer))
          || is_authoritative_legacy_collection_reader producer)
         && templates_reference_whole_producer_output consumer_templates producer_node_id)
  then Some evidence else None.

(** The templates that a node resolves when it runs. *)
Definition runtime_node_templates (compiled : CompiledWorkflow.t) (node : WorkflowNode.t)
  : list str :=
  match node with
  | WorkflowNode.Agent agent =>
      match CompiledWorkflow.instructions compiled !! AgentNode.id agent with
      | Some instruction =>
          map snd (map_iter (CompiledInstruction.input_variable_mappings instruction))
      | None => []
      end
  | WorkflowNode.Conditional conditional =>
      match ConditionalNode.input_mapping conditional with Some t => [t] | None => [] end
  | WorkflowNode.Loop loop_node => [LoopNode.items_mapping loop_node]
  | WorkflowNode.McpTool mcp_tool =>
      collect_json_template_strings (McpToolNode.arguments mcp_tool)
  | WorkflowNode.SystemAction action =>
      [SystemActionNode.command action] ++ SystemActionNode.args action
      ++ match SystemActionNode.working_directory action with Some d => [d] | None => [] end
  | WorkflowNode.Output output => [OutputNode.input_mapping output]
  | WorkflowNode.Input _ | WorkflowNode.Router _ | WorkflowNode.Permission _ => []
  end.

(** ** The walks *)
Definition node_map_size {A} (m : gmap str A) : nat := S (S (size m)).

Definition only_edge (m : Edges) (id : str) : option WorkflowEdge.t :=
  match m !! id with Some [edge] => Some edge | _ => None end.
Definition guards (node : WorkflowNode.t) : bool :=
  match node with
  | WorkflowNode.Conditional _ | WorkflowNode.Router _ | WorkflowNode.Loop _ => true
  | _ => false
  end.
Definition unguarded_turn incoming outgoing node_by_id (current : str) : str + bool :=
  match only_edge outgoing current with
  | None => inr false
  | Some edge =>
      let next := WorkflowEdge.target_node_id edge in
      if negb (Nat.eqb (length (edges_at incoming next)) 1) then inr false
      else match node_by_id !! next with
           | None => inr false
           | Some node => if guards node then inr false else inl next
           end
  end.
Definition has_linear_unguarded_path (producer_node_id consumer_node_id : str)
    incoming outgoing node_by_id : bool :=
  default false
    (walk (fun current => if str_eqb current consumer_node_id then Some true else None)
       (unguarded_turn incoming outgoing node_by_id) false
       (node_map_size outgoing) ∅ producer_node_id).

Definition prefix_turn (consumer_templates : list str) memory incoming node_by_id (current : str)
  : str + bool :=
  match incoming !! current with
  | None => inr false
  | Some [edge] =>
      let previous := WorkflowEdge.source_node_id edge in
      match node_by_id !! previous with
      | Some (WorkflowNode.McpTool previous_tool) =>
          match consumer_referenced_primary_collection_evidence previous_tool previous
                  consumer_templates memory with
          | Some evidence =>
              if negb (PrimaryCollectionEvidence.is_empty evidence) then inr true else inl previous
          | None => inl previous
          end
      | _ => inl previous
      end
  | Some _ => inr true
  end.
Definition linear_prefix_has_nonempty_primary_collection (producer_node_id : str)
    (consumer_templates : list str) memory incoming node_by_id : bool :=
  default true
    (walk (fun _ => None) (prefix_turn consumer_templates memory incoming node_by_id) true
       (node_map_size incoming) ∅ producer_node_id).

Definition crosses_unexecuted (consumer_templates : list str) memory (next : str)
    (tool : McpToolNode.t) : bool :=
  let can_produce_collection :=
    match McpToolNode.output_schema tool with
    | Some schema => bool_decide (is_Some (declared_primary_collection_path schema))
    | None => is_authoritative_legacy_collection_reader tool
              || templates_reference_non_whole_producer_output consumer_templates next
    end in
  can_produce_collection
  && negb (bool_decide (is_Some (stored_output next memory)))
  && templates_reference_producer consumer_templates next.
Definition crossing_turn (consumer_node_id : str) (consumer_templates : list str) memory outgoing
    node_by_id (current : str) : str + bool :=
  match only_edge outgoing current with
  | None => inr true
  | Some edge =>
      let next := WorkflowEdge.target_node_id edge in
      match (if str_eqb next consumer_node_id then None else node_by_id !! next) with
      | Some (WorkflowNode.McpTool tool) =>
          if crosses_unexecuted consumer_templates memory next tool then inr true else inl next
      | _ => inl next
      end
  end.
Definition path_crosses_unexecuted_referenced_collection (producer_node_id consumer_node_id : str)
    (consumer_templates : list str) memory outgoing node_by_id : bool :=
  default true
    (walk (fun current => if str_eqb current consumer_node_id then Some false else None)
       (crossing_turn consumer_node_id consumer_templates memory outgoing node_by_id) true
       (node_map_size outgoing) ∅ producer_node_id).

(** ** [legacy_unguarded_empty_completion] *)
Definition empty_reference (tool : McpToolNode.t) (producer_node_id consumer_node_id : str) memory
    (reference : str) : option LegacyEmptyCompletion.t :=
  if is_whole_producer_output_reference producer_node_id reference
     || is_part_of_producer_output producer_node_id reference
  then
    collection ← legacy_empty_collection_reference tool producer_node_id reference memory;
    if empty_collection_matches_producer_contract tool producer_node_id collection memory
    then Some (LegacyEmptyCompletion.mk reference collection consumer_node_id) else None
  else None.
Definition empty_consumer (compiled : CompiledWorkflow.t) (tool : McpToolNode.t)
    (producer_node_id : str) memory incoming outgoing node_by_id (consumer : WorkflowNode.t)
  : option LegacyEmptyCompletion.t :=
  let consumer_id := WorkflowNode.id consumer in
  if str_eqb consumer_id producer_node_id
     || negb (has_linear_unguarded_path producer_node_id consumer_id incoming outgoing node_by_id)
  then None
  else
    let templates := runtime_node_templates compiled consumer in
    if linear_prefix_has_nonempty_primary_collection producer_node_id templates memory incoming
         node_by_id
    then None
    else if path_crosses_unexecuted_referenced_collection producer_node_id consumer_id templates
              memory outgoing node_by_id
    then None
    else find_map (fun template =>
           find_map (empty_reference tool producer_node_id consumer_id memory)
             (template_references template)) templates.
Definition legacy_unguarded_empty_completion (compiled : CompiledWorkflow.t)
    (producer_node_id : str) memory incoming outgoing node_by_id
  : option LegacyEmptyCompletion.t :=
  match node_by_id !! producer_node_id with
  | Some (WorkflowNode.McpTool tool) =>
      find_map (empty_consumer compiled tool producer_node_id memory incoming outgoing node_by_id)
        (WorkflowIr.nodes (CompiledWorkflow.workflow_ir compiled))
  | _ => None
  end.

(** ** The walks end *)
Lemma only_edge_dom (m : Edges) id edge : only_edge m id = Some edge -> id ∈ dom m.
Proof. unfold only_edge. intros H1. apply elem_of_dom. destruct (m !! id) eqn:E; [by eauto|done]. Qed.

Lemma has_linear_unguarded_path_ends producer consumer incoming outgoing node_by_id :
  is_Some (walk (fun current => if str_eqb current consumer then Some true else None)
             (unguarded_turn incoming outgoing node_by_id) false
             (node_map_size outgoing) ∅ producer).
Proof.
  apply (walk_ends _ _ _ (dom outgoing)); [|set_solver|].
  - intros u v. unfold unguarded_turn. destruct (only_edge outgoing u) eqn:E; [|done].
    intros _. by eapply only_edge_dom.
  - unfold node_map_size. rewrite size_dom, size_empty. lia.
Qed.

Lemma linear_prefix_ends producer templates memory incoming node_by_id :
  is_Some (walk (fun _ => None) (prefix_turn templates memory incoming node_by_id) true
             (node_map_size incoming) ∅ producer).
Proof.
  apply (walk_ends _ _ _ (dom incoming)); [|set_solver|].
  - intros u v. unfold prefix_turn. intros H1. apply elem_of_dom.
    destruct (incoming !! u); [by eauto|done].
  - unfold node_map_size. rewrite size_dom, size_empty. lia.
Qed.

Lemma path_crosses_ends producer consumer templates memory outgoing node_by_id :
  is_Some (walk (fun current => if str_eqb current consumer then Some false else None)
             (crossing_turn consumer templates memory outgoing node_by_id) true
             (node_map_size outgoing) ∅ producer).
Proof.
  apply (walk_ends _ _ _ (dom outgoing)); [|set_solver|].
  - intros u v. unfold crossing_turn. destruct (only_edge outgoing u) eqn:E; [|done].
    intros _. by eapply only_edge_dom.
  - unfold node_map_size. rewrite size_dom, size_empty. lia.
Qed.
End Empty.
