(* ===== verification/WorkflowStore.v ===== *)
(** * The tables of workflow runs and their statements

    The methods of [db.rs] and [db/scheduled_execution.rs] that the workflow
    runtime calls: published workflows, execution instances, the approval ledger,
    and the links of a Routine to its runs.  A JSON column holds the value that
    was written to it.  Approvals are looked up by the digest of the canonical
    form of what was approved. *)
From S2P Require Import Prelude.
From S2P Require Import RustStr.
From S2P Require Import RustHash.
From S2P Require Import P0Contracts.
From S2P Require Import JsonValue.
From S2P Require Import WorkflowIr.
From S2P Require Import Program.
From S2P Require TaskStore.
From S2P Require Import EffectJournal.
From S2P Require Import Templates.
From S2P Require Import WorkflowRuntime.
Local Open Scope Z_scope.

(** ** Rows *)
Module WorkflowBlueprint.
Record t `{J : JsonLib} : Type := mk {
  project_id : option str;
  compilation_status : BlueprintCompilationStatus.t;
  workflow_ir : option WorkflowIr.t;
  is_active : bool;
}.
End WorkflowBlueprint.

Module ExecutionRecord.
Record t `{J : JsonLib} : Type := mk { instance : ExecutionInstance.t; project_id : option str }.
End ExecutionRecord.

Module WorkflowApproval.
Record t : Type := mk {
  workflow_instance_id : str;
  node_id : str;
  target_tool_name : str;
  arguments_hash : str;
  decision : str;
  created_at : Z;
  expires_at : Z;
}.
End WorkflowApproval.

Module RoutineAuthorityGrant.
Record t : Type := mk {
  schedule_id : str; action_name : str; arguments_hash : str;
  revoked_at_ms : option Z; expires_at_ms : Z;
}.
End RoutineAuthorityGrant.

(** The columns of a schedule that bind its runs. *)
Module LinkedSchedule.
Record t `{J : JsonLib} : Type := mk {
  workflow_id : str; workflow_version : option Z; project_id : option str;
  delivery_target : Value; authority : Value;
}.
End LinkedSchedule.

Module Db.
Record t `{J : JsonLib} : Type := mk {
  workflow_blueprints : gmap (str * Z) WorkflowBlueprint.t;
  compiled_instructions : list CompiledInstruction.t;
  execution_instances : gmap str ExecutionRecord.t;
  workflow_approvals : gmap str WorkflowApproval.t;
  routine_authority_grants : list RoutineAuthorityGrant.t;
  routine_runs : list TaskStore.RoutineRun.t;
  workflow_schedules : gmap str LinkedSchedule.t;
  task_runs : gmap str TaskStore.TaskRun.t;
  (** the projects that are not archived, and their active folders in the order
      of their paths *)
  active_projects : gset str;
  project_folders : list (str * str);
}.
Definition with_instances `{J : JsonLib} (v : gmap str ExecutionRecord.t) (db : t) : t :=
  mk _ (workflow_blueprints db) (compiled_instructions db) v (workflow_approvals db)
    (routine_authority_grants db) (routine_runs db) (workflow_schedules db) (task_runs db)
    (active_projects db) (project_folders db).
Definition with_approvals `{J : JsonLib} (v : gmap str WorkflowApproval.t) (db : t) : t :=
  mk _ (workflow_blueprints db) (compiled_instructions db) (execution_instances db) v
    (routine_authority_grants db) (routine_runs db) (workflow_schedules db) (task_runs db)
    (active_projects db) (project_folders db).
Definition with_task_runs `{J : JsonLib} (v : gmap str TaskStore.TaskRun.t) (db : t) : t :=
  mk _ (workflow_blueprints db) (compiled_instructions db) (execution_instances db)
    (workflow_approvals db) (routine_authority_grants db) (routine_runs db)
    (workflow_schedules db) v (active_projects db) (project_folders db).
Definition with_routine_runs `{J : JsonLib} (v : list TaskStore.RoutineRun.t) (db : t) : t :=
  mk _ (workflow_blueprints db) (compiled_instructions db) (execution_instances db)
    (workflow_approvals db) (routine_authority_grants db) v (workflow_schedules db)
    (task_runs db) (active_projects db) (project_folders db).
End Db.
Notation Db := Db.t.
Notation tx X := (Program.tx Db X).

Definition WORKFLOW_APPROVAL_TTL_SECONDS : Z := 900.
(** The texts of [rusqlite::Error]. *)
Definition no_rows : str := lit "Query returned no rows".
Definition invalid_parameter (message : str) : str :=
  lit "Invalid parameter name: " ++ message.

Section Store.
Context {J : JsonLib} {T : JsonText} {H : HashOrder} {D : Digest}.

(** ** [db/canonical_json.rs] and the digest of what is approved

    An object is already kept in the order of its keys, so sorting its entries
    leaves them; only what lies below is rebuilt. *)
Fixpoint canonicalize_json (value : Value) : Value :=
  match value with
  | Value.Array items => Value.Array (map canonicalize_json items)
  | Value.Object object =>
      Value.Object (obj_from (map (fun kv => (kv.1, canonicalize_json kv.2)) object))
  | value => value
  end.
Definition hash_arguments (args : Value) : str :=
  hex_encode (sha256 (as_bytes (lit "workflow-approval-arguments-v1:")
                      ++ as_bytes (to_string (canonicalize_json args)))).

(** ** Published workflows *)
Definition compiled_blueprint (row : WorkflowBlueprint.t) : option WorkflowIr.t :=
  match WorkflowBlueprint.compilation_status row with
  | BlueprintCompilationStatus.Compiled => WorkflowBlueprint.workflow_ir row
  | _ => None
  end.
(** [ORDER BY is_active DESC, version DESC LIMIT 1] *)
Definition better_blueprint (best : option (Z * bool * WorkflowIr.t))
    (row : (str * Z) * WorkflowBlueprint.t) : option (Z * bool * WorkflowIr.t) :=
  match compiled_blueprint row.2 with
  | None => best
  | Some ir =>
      let version := row.1.2 in
      let active := WorkflowBlueprint.is_active row.2 in
      match best with
      | Some (v, a, _) =>
          if (active && negb a) || (Bool.eqb active a && (v <? version))
          then Some (version, active, ir) else best
      | None => Some (version, active, ir)
      end
  end.
Definition select_workflow_ir (workflow_id : str) (workflow_version : option Z) : tx (WorkflowIr.t * Z) :=
  fun db =>
    let found :=
      match workflow_version with
      | Some version =>
          row ← Db.workflow_blueprints db !! (workflow_id, version);
          ir ← compiled_blueprint row;
          Some (ir, version)
      | None =>
          '(version, _, ir) ← foldl better_blueprint None
            (List.filter (fun row => str_eqb row.1.1 workflow_id)
               (map_to_list (Db.workflow_blueprints db)));
          Some (ir, version)
      end in
    (match found with Some x => Ok x | None => Err no_rows end, db).
Definition select_instructions (workflow_id : str) (version : Z)
  : tx (gmap str CompiledInstruction.t) :=
  select (fun db =>
    foldl (fun m row => <[CompiledInstruction.node_id row := row]> m) ∅
      (List.filter (fun row => str_eqb (CompiledInstruction.workflow_id row) workflow_id
                               && (CompiledInstruction.workflow_version row =? version))
         (Db.compiled_instructions db))).

(** ** Execution instances *)

(** The [CHECK]s of migration 0004 and the foreign key. *)
Definition instance_row_ok (db : Db) (instance : ExecutionInstance.t) : bool :=
  let created := ExecutionInstance.created_at_ms instance in
  let prompt := ExecutionInstance.prompt_tokens instance in
  let completion := ExecutionInstance.completion_tokens instance in
  let after (o : option Z) := match o with Some n => created <=? n | None => true end in
  (0 <? ExecutionInstance.workflow_version instance)
  && (0 <=? ExecutionInstance.execution_latency_ms instance)
  && (0 <=? prompt) && (0 <=? completion)
  && (ExecutionInstance.total_tokens instance =? prompt + completion)
  && (0 <=? created) && after (ExecutionInstance.started_at_ms instance)
  && (created <=? ExecutionInstance.updated_at_ms instance)
  && after (ExecutionInstance.completed_at_ms instance)
  && bool_decide (is_Some (Db.workflow_blueprints db !!
       (ExecutionInstance.workflow_id instance, ExecutionInstance.workflow_version instance))).
Definition constraint_failed : str := lit "constraint failed".

(** [write_execution_instance(.., false)] *)
Definition insert_instance (instance : ExecutionInstance.t) : tx unit := fun db =>
  match Db.execution_instances db !! ExecutionInstance.id instance with
  | Some _ => (Err constraint_failed, db)
  | None =>
      if instance_row_ok db instance
      then (Ok tt, Db.with_instances
                     (<[ExecutionInstance.id instance := ExecutionRecord.mk _ instance None]>
                        (Db.execution_instances db)) db)
      else (Err constraint_failed, db)
  end.
(** The columns an update leaves: the workflow, its version and the creation. *)
Definition updated_instance (old new : ExecutionInstance.t) : ExecutionInstance.t :=
  ExecutionInstance.mk _ (ExecutionInstance.id old) (ExecutionInstance.workflow_id old)
    (ExecutionInstance.workflow_version old) (ExecutionInstance.status new)
    (ExecutionInstance.active_node_id new) (ExecutionInstance.input_payload new)
    (ExecutionInstance.output_payload new) (ExecutionInstance.node_payloads new)
    (ExecutionInstance.memory new) (ExecutionInstance.selected_edges new)
    (ExecutionInstance.pause_context new) (ExecutionInstance.error new)
    (ExecutionInstance.execution_latency_ms new) (ExecutionInstance.prompt_tokens new)
    (ExecutionInstance.completion_tokens new) (ExecutionInstance.total_tokens new)
    (ExecutionInstance.created_at_ms old) (ExecutionInstance.started_at_ms new)
    (ExecutionInstance.updated_at_ms new) (ExecutionInstance.completed_at_ms new).
(** [write_execution_instance(.., true)] *)
Definition update_execution_instance (instance : ExecutionInstance.t) : tx unit := fun db =>
  match Db.execution_instances db !! ExecutionInstance.id instance with
  | None => (Err no_rows, db)
  | Some row =>
      let new := updated_instance (ExecutionRecord.instance row) instance in
      if instance_row_ok db new
      then (Ok tt, Db.with_instances
                     (<[ExecutionInstance.id instance :=
                          ExecutionRecord.mk _ new (ExecutionRecord.project_id row)]>
                        (Db.execution_instances db)) db)
      else (Err constraint_failed, db)
  end.
Definition load_execution_instance (id : str) : tx ExecutionInstance.t := fun db =>
  match Db.execution_instances db !! id with
  | Some row => (Ok (ExecutionRecord.instance row), db)
  | None => (Err no_rows, db)
  end.
(** The only statement that takes a run out of [AwaitingApproval] for a person's
    decision.  The row it leaves is the one with the identifier [id]. *)
Definition claimed_instance (id : str) (now : Z) (instance : ExecutionInstance.t)
  : ExecutionInstance.t :=
  ExecutionInstance.mk _ id (ExecutionInstance.workflow_id instance)
    (ExecutionInstance.workflow_version instance) ExecutionStatus.Running
    (ExecutionInstance.active_node_id instance) (ExecutionInstance.input_payload instance)
    (ExecutionInstance.output_payload instance) (ExecutionInstance.node_payloads instance)
    (ExecutionInstance.memory instance) (ExecutionInstance.selected_edges instance)
    (ExecutionInstance.pause_context instance) (ExecutionInstance.error instance)
    (ExecutionInstance.execution_latency_ms instance) (ExecutionInstance.prompt_tokens instance)
    (ExecutionInstance.completion_tokens instance) (ExecutionInstance.total_tokens instance)
    (ExecutionInstance.created_at_ms instance) (ExecutionInstance.started_at_ms instance)
    (Z.max (ExecutionInstance.updated_at_ms instance) now)
    (ExecutionInstance.completed_at_ms instance).
Definition claim_execution_instance_for_approval (id : str) (now : Z) : tx ExecutionInstance.t :=
  fun db =>
  match Db.execution_instances db !! id with
  | Some row =>
      let instance := ExecutionRecord.instance row in
      if bool_decide (ExecutionInstance.status instance = ExecutionStatus.AwaitingApproval)
      then
        let claimed := claimed_instance id now instance in
        (Ok claimed, Db.with_instances
                       (<[id := ExecutionRecord.mk _ claimed (ExecutionRecord.project_id row)]>
                          (Db.execution_instances db)) db)
      else (Err no_rows, db)
  | None => (Err no_rows, db)
  end.

(** [UPDATE execution_instances SET project_id=?2 WHERE id=?1 AND project_id IS NULL] *)
Definition bind_project (id project_id : str) : tx unit := fun db =>
  match Db.execution_instances db !! id with
  | Some row =>
      match ExecutionRecord.project_id row with
      | None =>
          (Ok tt, Db.with_instances
                    (<[id := ExecutionRecord.mk _ (ExecutionRecord.instance row) (Some project_id)]>
                       (Db.execution_instances db)) db)
      | Some _ => (Err no_rows, db)
      end
  | None => (Err no_rows, db)
  end.
Definition insert_task_run (task_run_id task_id project_id origin : str)
    (instance : ExecutionInstance.t) (now : Z) : tx unit := fun db =>
  match Db.task_runs db !! task_run_id with
  | Some _ => (Err constraint_failed, db)
  | None =>
      (Ok tt, Db.with_task_runs
                (<[task_run_id :=
                     TaskStore.TaskRun.mk task_id (Some project_id) TaskStore.RuntimeKind.workflow
                       (ExecutionInstance.id instance) P0Contracts.Running origin task_id
                       (lit "Workflow run " ++ ExecutionInstance.workflow_id instance) None now now
                       None None TaskStore.RecoveryState.reconciled]> (Db.task_runs db)) db)
  end.
Definition insert_routine_run (row : TaskStore.RoutineRun.t) : tx unit := fun db =>
  (Ok tt, Db.with_routine_runs (Db.routine_runs db ++ [row]) db).
(** The project a workflow was published for, which has to be available. *)
Definition select_workflow_project (workflow_id : str) (version : Z) : tx (option str) := fun db =>
  match Db.workflow_blueprints db !! (workflow_id, version) with
  | Some row =>
      match compiled_blueprint row with
      | Some _ => (Ok (WorkflowBlueprint.project_id row), db)
      | None => (Err no_rows, db)
      end
  | None => (Err no_rows, db)
  end.
Definition require_active_project (project : str) : tx unit := fun db =>
  match id_parse KProject project with
  | Ok _ =>
      if bool_decide (project ∈ Db.active_projects db) then (Ok tt, db)
      else (Err (invalid_parameter
              (lit "The Project attached to this Workflow is unavailable.")), db)
  | Err e => (Err (invalid_parameter e), db)
  | Panic => (Panic, db)
  end.
(** The identifiers of the task record are drawn by the caller. *)
Definition insert_direct_workflow_execution_instance (instance : ExecutionInstance.t)
    (task_id task_run_id : str) : tx (option str) :=
  transaction (
    project_id ← select_workflow_project (ExecutionInstance.workflow_id instance)
                   (ExecutionInstance.workflow_version instance);
    _ ← (match project_id with None => mret tt | Some project => require_active_project project end);
    _ ← insert_instance instance;
    _ ← (match project_id with
         | None => mret tt
         | Some project =>
             _ ← bind_project (ExecutionInstance.id instance) project;
             insert_task_run task_run_id task_id project (lit "workflow") instance
               (ExecutionInstance.created_at_ms instance)
         end);
    mret project_id).
Definition insert_scheduled_execution_instance (instance : ExecutionInstance.t)
    (project_id schedule_id : str) (task_id task_run_id : str) (now : Z) : tx unit :=
  let project_id := trim project_id in
  let schedule_id := trim schedule_id in
  if is_empty project_id || is_empty schedule_id
  then tx_err (invalid_parameter
         (lit "Scheduled workflow execution requires a Project and Routine identity."))
  else
    transaction (
      _ ← insert_instance instance;
      _ ← bind_project (ExecutionInstance.id instance) project_id;
      _ ← insert_task_run task_run_id task_id project_id (lit "routine") instance now;
      insert_routine_run (TaskStore.RoutineRun.mk (ExecutionInstance.id instance) task_run_id
                            schedule_id)).

(** [SELECT .. WHERE status = 'AwaitingApproval' ORDER BY updated_at_ms ASC, id ASC] *)
Definition pending_before (a b : ExecutionInstance.t) : bool :=
  (ExecutionInstance.updated_at_ms a <? ExecutionInstance.updated_at_ms b)
  || ((ExecutionInstance.updated_at_ms a =? ExecutionInstance.updated_at_ms b)
      && str_leb (ExecutionInstance.id a) (ExecutionInstance.id b)).
Fixpoint insert_pending (x : ExecutionInstance.t) (l : list ExecutionInstance.t)
  : list ExecutionInstance.t :=
  match l with
  | [] => [x]
  | y :: l' => if pending_before x y then x :: l else y :: insert_pending x l'
  end.
Definition pending_instances (db : Db) : list str :=
  map ExecutionInstance.id
    (foldr insert_pending []
       (List.filter (fun instance =>
          bool_decide (ExecutionInstance.status instance = ExecutionStatus.AwaitingApproval))
          (map (fun kv => ExecutionRecord.instance kv.2) (map_to_list (Db.execution_instances db))))).

(** ** The approval ledger *)
Definition delete_expired (now : Z) : tx unit := fun db =>
  (Ok tt, Db.with_approvals
            (filter (fun kv => now < WorkflowApproval.expires_at kv.2) (Db.workflow_approvals db)) db).
(** [INSERT .. ON CONFLICT(approval_token) DO UPDATE SET ..] *)
Definition upsert_approval (token : str) (row : WorkflowApproval.t) : tx unit := fun db =>
  (Ok tt, Db.with_approvals (<[token := row]> (Db.workflow_approvals db)) db).

Definition workflow_version_approval_subject (workflow_id : str) (workflow_version : Z) : str :=
  lit "saved-workflow:" ++ workflow_id ++ lit ":version:" ++ show_nat workflow_version.
Definition workflow_version_approval_target (server_name tool_name : str) : str :=
  to_string (Value.Array [Value.String (trim server_name); Value.String (trim tool_name)]).

(** [ORDER BY expires_at DESC LIMIT 1] *)
Definition latest_approval (instance_id node_id tool_name args_hash : str) (db : Db)
  : option WorkflowApproval.t :=
  option_map snd (max_by_key (fun kv => WorkflowApproval.expires_at kv.2)
    (List.filter (fun kv =>
       str_eqb (WorkflowApproval.workflow_instance_id kv.2) instance_id
       && str_eqb (WorkflowApproval.node_id kv.2) node_id
       && str_eqb (WorkflowApproval.target_tool_name kv.2) tool_name
       && str_eqb (WorkflowApproval.arguments_hash kv.2) args_hash)
       (map_iter (Db.workflow_approvals db)))).
Definition verify_step_approval (instance_id node_id tool_name : str) (args : Value) (now : Z)
  : tx bool :=
  select (fun db =>
    match latest_approval instance_id node_id tool_name (hash_arguments args) db with
    | Some row => equals (WorkflowApproval.decision row) "approve"
                  && (now <? WorkflowApproval.expires_at row)
    | None => false
    end).

Definition verify_routine_authority (instance_id target_action : str) (arguments : Value) (now : Z)
  : tx bool :=
  let arguments_hash := hash_arguments arguments in
  select (fun db =>
    existsb (fun run =>
      str_eqb (TaskStore.RoutineRun.execution_instance_id run) instance_id
      && existsb (fun grant =>
           str_eqb (RoutineAuthorityGrant.schedule_id grant) (TaskStore.RoutineRun.schedule_id run)
           && str_eqb (RoutineAuthorityGrant.action_name grant) target_action
           && str_eqb (RoutineAuthorityGrant.arguments_hash grant) arguments_hash
           && match RoutineAuthorityGrant.revoked_at_ms grant with None => true | Some _ => false end
           && (now <=? RoutineAuthorityGrant.expires_at_ms grant))
           (Db.routine_authority_grants db)) (Db.routine_runs db)).
End Store.
