(* ===== verification/WorkflowEnv.v ===== *)
(** * What a workflow run asks of its surroundings

    [execute_workflow] is generic over the model and the tools ([RuntimeModel],
    [RuntimeExternalTools]) and reaches the file system, the process table and
    the user interface through the standard library.  Each such use is a [Call];
    an environment answers every call with a reply of the call's own type, and
    may answer differently each time.  [run] adds the execution instance, which
    the source passes as [&mut]. *)
From S2P Require Import Prelude.
From S2P Require Import RustStr.
From S2P Require Import JsonValue.
From S2P Require Import WorkflowIr.
From S2P Require Import TaskTools.
From S2P Require Import Program.
From S2P Require Import WorkflowRuntime.
From S2P Require Import WorkflowStore.
Local Open Scope Z_scope.

(** ** [McpToolApprovalBinding] of [mcp/client.rs] *)
Module McpToolApprovalBinding.
Record t : Type := mk {
  server_name : str;
  tool_name : str;
  arguments_binding : str;
  canonical_origin : option str;
  transport : str;
  resolved_destination_class : option str;
  destination_binding : option str;
  server_identity_binding : option str;
  certificate_binding : option str;
  tool_definition_binding : str;
  response_byte_limit : Z;
  requires_native_shield : bool;
}.

Section Serde.
Context {J : JsonLib}.
Definition opt_str (o : option str) : Value := json_opt (option_map Value.String o).
Definition to_value (self : t) : Value :=
  json_obj [("serverName", Value.String (server_name self));
            ("toolName", Value.String (tool_name self));
            ("argumentsBinding", Value.String (arguments_binding self));
            ("canonicalOrigin", opt_str (canonical_origin self));
            ("transport", Value.String (transport self));
            ("resolvedDestinationClass", opt_str (resolved_destination_class self));
            ("destinationBinding", opt_str (destination_binding self));
            ("serverIdentityBinding", opt_str (server_identity_binding self));
            ("certificateBinding", opt_str (certificate_binding self));
            ("toolDefinitionBinding", Value.String (tool_definition_binding self));
            ("responseByteLimit", json_u64 (response_byte_limit self));
            ("requiresNativeShield", Value.Bool (requires_native_shield self))].

Definition str_at (key : string) (v : Value) : option str :=
  match get (lit key) v with Some (Value.String s) => Some s | _ => None end.
(** An [Option<String>] field: absent and [null] are [None]. *)
Definition opt_str_at (key : string) (v : Value) : option (option str) :=
  match get (lit key) v with
  | None | Some Value.Null => Some None
  | Some (Value.String s) => Some (Some s)
  | Some _ => None
  end.
(** [serde_json::from_value(..).ok()] *)
Definition of_value (v : Value) : option t :=
  server_name ← str_at "serverName" v;
  tool_name ← str_at "toolName" v;
  arguments_binding ← str_at "argumentsBinding" v;
  canonical_origin ← opt_str_at "canonicalOrigin" v;
  transport ← str_at "transport" v;
  resolved_destination_class ← opt_str_at "resolvedDestinationClass" v;
  destination_binding ← opt_str_at "destinationBinding" v;
  server_identity_binding ← opt_str_at "serverIdentityBinding" v;
  certificate_binding ← opt_str_at "certificateBinding" v;
  tool_definition_binding ← str_at "toolDefinitionBinding" v;
  limit ← get (lit "responseByteLimit") v;
  response_byte_limit ← as_u64 limit;
  shield ← get (lit "requiresNativeShield") v;
  requires_native_shield ← as_bool shield;
  Some (mk server_name tool_name arguments_binding canonical_origin transport
          resolved_destination_class destination_binding server_identity_binding
          certificate_binding tool_definition_binding response_byte_limit requires_native_shield).
End Serde.
End McpToolApprovalBinding.

(** ** Calls *)
Module SystemActionFailureContext.
Record t : Type := mk {
  action_type : SystemActionType.t;
  command : str;
  args : list str;
  working_directory : str;
  exit_code : option Z;
  stdout : str;
  stderr : str;
}.
End SystemActionFailureContext.

Module LimitedPipeOutput.
Record t : Type := mk { text : str; truncated : bool }.
End LimitedPipeOutput.

(** [sandbox] is the serialised metadata of the sandbox, if one was used. *)
Module SystemActionResult.
Record t `{J : JsonLib} : Type := mk {
  exit_code : option Z;
  timed_out : bool;
  stdout : LimitedPipeOutput.t;
  stderr : LimitedPipeOutput.t;
  duration_ms : Z;
  sandbox : option Value;
}.
End SystemActionResult.

(** The arguments of [RuntimeExternalTools::execute_mcp_tool]. *)
Module McpToolCall.
Record t `{J : JsonLib} : Type := mk {
  execution_id : str;
  node_id : str;
  label : str;
  server_name : str;
  tool_name : str;
  arguments : Value;
  timeout_ms : Z;
  approval_binding : option McpToolApprovalBinding.t;
  human_approved : bool;
}.
End McpToolCall.

(** The arguments of [run_system_action]. *)
Module SystemActionRun.
Record t : Type := mk {
  node_id : str;
  action_type : SystemActionType.t;
  command : str;
  args : list str;
  workspace_root : path;
  working_directory : path;
  timeout_ms : Z;
  max_output_bytes : Z;
}.
End SystemActionRun.

(** How the wait for a worker thread ends ([mpsc::Receiver::recv_timeout]). *)
Module WorkerEnd.
Inductive t : Type := Received | Timeout | Disconnected.
End WorkerEnd.

Inductive Call `{J : JsonLib} : Type :=
| ExecuteAgent (session_id system_prompt : str) (variables : list (str * Value))
| ClassifyRoute (session_id : str) (router : RouterNode.t) (input : Value)
| EvaluateCondition (session_id : str) (conditional : ConditionalNode.t) (input : Value)
| RepairSystemAction (session_id : str) (failure : SystemActionFailureContext.t)
| EnsureMcpServerReady (server_name : str) (timeout_ms : Z)
| PrepareMcpToolApprovalBinding (server_name tool_name : str) (arguments : Value) (timeout_ms : Z)
| ExecuteMcpTool (call : McpToolCall.t)
| ExecuteSyncKnowledgeVault (arguments : Value)
| RunSystemAction (action : SystemActionRun.t)
| JoinWorker (node_id : str) (timeout_ms : Z)
| EnsureDefaultMcpSandboxDir
| ResolveInSandbox (root directory : path)
| Canonicalize (p : path)
| Exists (p : path)
| IsFileWithLen (p : path)
| ReadFile (p : path)
| WriteFile (p : path) (text : str)
| CreateDirAll (p : path)
| EnvironmentVariable (name : str)
| Progress (instance_id node_id : str) (step_index : Z) (status message : str).

(** The reply of each call; a [res str _] fails with the text of an error. *)
Definition Reply `{J : JsonLib} (c : Call) : Type :=
  match c with
  | ExecuteAgent _ _ _ | ClassifyRoute _ _ _ | EvaluateCondition _ _ _
  | RepairSystemAction _ _ => res WorkflowRuntimeError.t ModelOutput.t
  | EnsureMcpServerReady _ _ => res WorkflowRuntimeError.t unit
  | PrepareMcpToolApprovalBinding _ _ _ _ =>
      res WorkflowRuntimeError.t (option McpToolApprovalBinding.t)
  | ExecuteMcpTool _ | ExecuteSyncKnowledgeVault _ => res WorkflowRuntimeError.t Value
  | RunSystemAction _ => res WorkflowRuntimeError.t SystemActionResult.t
  | JoinWorker _ _ => WorkerEnd.t
  | EnsureDefaultMcpSandboxDir => res str unit
  | ResolveInSandbox _ _ | Canonicalize _ => res str path
  | Exists _ => bool
  | IsFileWithLen _ => res str (bool * Z)
  | ReadFile _ => res str (option str)
  | WriteFile _ _ | CreateDirAll _ => res str unit
  | EnvironmentVariable _ => option str
  | Progress _ _ _ _ _ => unit
  end.
Definition Env `{J : JsonLib} : Type := forall c : Call, Reply c.

Notation prog A := (Program.prog Db Call Env A).
Notation io A := (Program.io Db Call Env WorkflowRuntimeError.t A).

Section Run.
Context {J : JsonLib}.

Definition ask {E} (c : Call) : Program.io Db Call Env E (Reply c) :=
  Await c (fun env => Ret (Ok (env c))).
Definition elapsed_ms : io Z := Clock (fun n => Ret (Ok n)).
Definition unix_time_ms : io Z := Clock (fun n => Ret (Ok n)).
(** [RUN_SEQUENCE.fetch_add]: a number of the process. *)
Definition process_sequence : io Z := Clock (fun n => Ret (Ok n)).
Definition unix_time_seconds : io Z := Clock (fun n => Ret (Ok n)).
Definition db_op {X} (q : tx X) : io X := io_map_err WorkflowRuntimeError.database (sql q).

(** [run_blocking_node_with_timeout]: the work goes on in its own thread; when
    the wait ends without it, whatever it does still happens and its result is
    dropped. *)
Definition run_blocking_node_with_timeout {A} (node_id label : str) (timeout_ms : Z) (task : io A)
  : io A :=
  let timeout_ms := bounded_node_timeout_ms timeout_ms in
  ended ← ask (JoinWorker node_id timeout_ms);
  match ended with
  | WorkerEnd.Received => task
  | WorkerEnd.Timeout =>
      _ ← attempt task;
      throw (WorkflowRuntimeError.node_timeout node_id label timeout_ms)
  | WorkerEnd.Disconnected =>
      _ ← attempt task;
      throw (WorkflowRuntimeError.runtime
               (lit "Node " ++ node_id ++ lit " worker exited without returning a result."))
  end.

(** ** Functions that also change the instance *)
Definition run (A : Type) : Type :=
  ExecutionInstance.t -> prog (ExecutionInstance.t * res WorkflowRuntimeError.t A).
#[export] Instance run_ret : MRet run := fun A a instance => Ret (instance, Ok a).
#[export] Instance run_bind : MBind run := fun A B f m instance =>
  bind (fun '(instance, r) =>
          match r with
          | Ok a => f a instance
          | Err e => Ret (instance, Err e)
          | Panic => Ret (instance, Panic)
          end) (m instance).
Definition run_io {A} (p : io A) : run A := fun instance => bind (fun r => Ret (instance, r)) p.
Definition run_res {A} (r : res WorkflowRuntimeError.t A) : run A := fun instance =>
  Ret (instance, r).
Definition run_throw {A} (e : WorkflowRuntimeError.t) : run A := run_res (Err e).
Definition the_instance : run ExecutionInstance.t := fun instance => Ret (instance, Ok instance).
Definition modify (f : ExecutionInstance.t -> ExecutionInstance.t) : run unit := fun instance =>
  Ret (f instance, Ok tt).
(** [match f(instance) { Ok .., Err .. }] *)
Definition run_attempt {A} (m : run A) : run (res WorkflowRuntimeError.t A) := fun instance =>
  bind (fun '(instance, r) => Ret (instance, Ok r)) (m instance).
Fixpoint run_fold {A S} (f : S -> A -> run S) (s : S) (l : list A) : run S :=
  match l with
  | [] => mret s
  | x :: l' => mbind (fun s' => run_fold f s' l') (f s x)
  end.
(** A loop that may leave early with a result. *)
Fixpoint run_until {A S B} (f : S -> A -> run (S + B)) (s : S) (l : list A) : run (S + B) :=
  match l with
  | [] => mret (inl s)
  | x :: l' =>
      mbind (fun r => match r with inl s' => run_until f s' l' | inr b => mret (inr b) end) (f s x)
  end.

Definition progress (node_id : str) (step_index : Z) (status message : str) : run unit :=
  fun instance =>
    Await (Progress (ExecutionInstance.id instance) node_id step_index status message)
      (fun _ => Ret (instance, Ok tt)).
(** The closure both callers pass as [checkpoint]. *)
Definition checkpoint : run unit := fun instance =>
  bind (fun r => Ret (instance, r)) (db_op (update_execution_instance instance)).
End Run.

(** ** Changing fields of the instance *)
Module Instance.
Section Fields.
Context {J : JsonLib}.
Notation t := ExecutionInstance.t.
Import ExecutionInstance.

Definition set_status (v : ExecutionStatus.t) (i : t) : t :=
  mk _ (id i) (workflow_id i) (workflow_version i) v (active_node_id i) (input_payload i)
    (output_payload i) (node_payloads i) (memory i) (selected_edges i) (pause_context i) (error i)
    (execution_latency_ms i) (prompt_tokens i) (completion_tokens i) (total_tokens i)
    (created_at_ms i) (started_at_ms i) (updated_at_ms i) (completed_at_ms i).
Definition set_active (v : option str) (i : t) : t :=
  mk _ (id i) (workflow_id i) (workflow_version i) (status i) v (input_payload i)
    (output_payload i) (node_payloads i) (memory i) (selected_edges i) (pause_context i) (error i)
    (execution_latency_ms i) (prompt_tokens i) (completion_tokens i) (total_tokens i)
    (created_at_ms i) (started_at_ms i) (updated_at_ms i) (completed_at_ms i).
Definition set_output (v : option Value) (i : t) : t :=
  mk _ (id i) (workflow_id i) (workflow_version i) (status i) (active_node_id i) (input_payload i)
    v (node_payloads i) (memory i) (selected_edges i) (pause_context i) (error i)
    (execution_latency_ms i) (prompt_tokens i) (completion_tokens i) (total_tokens i)
    (created_at_ms i) (started_at_ms i) (updated_at_ms i) (completed_at_ms i).
Definition set_payloads (v : gmap str NodeExecutionPayload.t) (i : t) : t :=
  mk _ (id i) (workflow_id i) (workflow_version i) (status i) (active_node_id i) (input_payload i)
    (output_payload i) v (memory i) (selected_edges i) (pause_context i) (error i)
    (execution_latency_ms i) (prompt_tokens i) (completion_tokens i) (total_tokens i)
    (created_at_ms i) (started_at_ms i) (updated_at_ms i) (completed_at_ms i).
Definition set_memory (v : gmap str Value) (i : t) : t :=
  mk _ (id i) (workflow_id i) (workflow_version i) (status i) (active_node_id i) (input_payload i)
    (output_payload i) (node_payloads i) v (selected_edges i) (pause_context i) (error i)
    (execution_latency_ms i) (prompt_tokens i) (completion_tokens i) (total_tokens i)
    (created_at_ms i) (started_at_ms i) (updated_at_ms i) (completed_at_ms i).
Definition set_selected (v : gset str) (i : t) : t :=
  mk _ (id i) (workflow_id i) (workflow_version i) (status i) (active_node_id i) (input_payload i)
    (output_payload i) (node_payloads i) (memory i) v (pause_context i) (error i)
    (execution_latency_ms i) (prompt_tokens i) (completion_tokens i) (total_tokens i)
    (created_at_ms i) (started_at_ms i) (updated_at_ms i) (completed_at_ms i).
Definition set_pause (v : option Value) (i : t) : t :=
  mk _ (id i) (workflow_id i) (workflow_version i) (status i) (active_node_id i) (input_payload i)
    (output_payload i) (node_payloads i) (memory i) (selected_edges i) v (error i)
    (execution_latency_ms i) (prompt_tokens i) (completion_tokens i) (total_tokens i)
    (created_at_ms i) (started_at_ms i) (updated_at_ms i) (completed_at_ms i).
Definition set_error (v : option Value) (i : t) : t :=
  mk _ (id i) (workflow_id i) (workflow_version i) (status i) (active_node_id i) (input_payload i)
    (output_payload i) (node_payloads i) (memory i) (selected_edges i) (pause_context i) v
    (execution_latency_ms i) (prompt_tokens i) (completion_tokens i) (total_tokens i)
    (created_at_ms i) (started_at_ms i) (updated_at_ms i) (completed_at_ms i).
(** [prompt_tokens += ..; completion_tokens += ..; total_tokens = ..] *)
Definition add_tokens (prompt completion : Z) (i : t) : t :=
  let prompt := wrapping_add_u64 (prompt_tokens i) prompt in
  let completion := wrapping_add_u64 (completion_tokens i) completion in
  mk _ (id i) (workflow_id i) (workflow_version i) (status i) (active_node_id i) (input_payload i)
    (output_payload i) (node_payloads i) (memory i) (selected_edges i) (pause_context i) (error i)
    (execution_latency_ms i) prompt completion (wrapping_add_u64 prompt completion)
    (created_at_ms i) (started_at_ms i) (updated_at_ms i) (completed_at_ms i).
(** The columns of time. *)
Definition set_times (latency : Z) (started : option Z) (updated : Z) (completed : option Z) (i : t)
  : t :=
  mk _ (id i) (workflow_id i) (workflow_version i) (status i) (active_node_id i) (input_payload i)
    (output_payload i) (node_payloads i) (memory i) (selected_edges i) (pause_context i) (error i)
    latency (prompt_tokens i) (completion_tokens i) (total_tokens i)
    (created_at_ms i) started updated completed.
Definition set_updated (v : Z) (i : t) : t :=
  set_times (execution_latency_ms i) (started_at_ms i) v (completed_at_ms i) i.
Definition insert_payload (node_id : str) (payload : NodeExecutionPayload.t) (i : t) : t :=
  set_payloads (<[node_id := payload]> (node_payloads i)) i.

(** [finish_timing] after its reading of the clock; [as u64] of a saturated
    difference. *)
Definition finish_timing_at (now : Z) (completed : bool) (i : t) : t :=
  let latency :=
    match started_at_ms i with
    | Some started => saturating_sub_i64 now started mod 2 ^ 64
    | None => 0
    end in
  set_times latency (started_at_ms i) now (if completed then Some now else completed_at_ms i) i.
End Fields.
End Instance.
Notation clock_now := (run_io unix_time_ms).
Definition finish_timing `{J : JsonLib} (completed : bool) : run unit :=
  now ← clock_now;
  modify (Instance.finish_timing_at now completed).
