(* ===== verification/WorkflowApprovals.v ===== *)
(** * Pausing for a person and taking the answer

    The approval parts of [workflow_runtime.rs] and
    [workflow_runtime/task_tools.rs]: the token of a pause and its digest, the
    context that is shown and the one that is kept, the material an approval is
    bound to, and the ledger entries a decision leaves. *)
From S2P Require Import Prelude.
From S2P Require Import RustStr.
From S2P Require Import RustHash.
From S2P Require Import JsonValue.
From S2P Require Import WorkflowIr.
From S2P Require Import ToolSecurity.
From S2P Require Import P0Contracts.
From S2P Require Import Program.
From S2P Require Import TaskTools.
From S2P Require Import EffectJournal.
From S2P Require Import Templates.
From S2P Require Import WorkflowRuntime.
From S2P Require Import WorkflowStore.
From S2P Require Import WorkflowEnv.
Local Open Scope Z_scope.

(** The serde names of the enums that a pause shows. *)
Definition permission_kind_text (k : PermissionKind.t) : str :=
  match k with
  | PermissionKind.FileRead => lit "file_read" | PermissionKind.FileWrite => lit "file_write"
  | PermissionKind.Network => lit "network" | PermissionKind.Process => lit "process"
  | PermissionKind.McpTool => lit "mcp_tool" | PermissionKind.Custom => lit "custom"
  end.
Definition on_denied_text (b : PermissionDeniedBehavior.t) : str :=
  match b with
  | PermissionDeniedBehavior.Fail => lit "fail"
  | PermissionDeniedBehavior.Branch => lit "branch"
  end.

Definition TASK_RUN_TIMESTAMP_TOKEN : str := lit "<YYYY-MM-DD_HH-mm>".

Section Approvals.
Context {J : JsonLib} {T : JsonText} {H : HashOrder} {D : Digest} {U : UnicodeTables}.
Context {R : Type} (registry : gmap str (TaskToolRegistration.t R)).
Notation Memory := (gmap str Value).
Notation Edges := (gmap str (list WorkflowEdge.t)).
Notation Nodes := (gmap str WorkflowNode.t).
Implicit Types (memory : Memory) (incoming outgoing : Edges) (node_by_id : Nodes).

(** ** Tokens *)
Definition generate_approval_token : io str :=
  bytes ← random_bytes;
  mret (hex_encode bytes).
Definition hash_approval_token (token : str) : str :=
  hex_encode (sha256 (as_bytes (lit "workflow-approval-v1:") ++ as_bytes token)).
Definition constant_time_eq (l r : list Z) : bool :=
  if negb (Nat.eqb (length l) (length r)) then false
  else foldl (fun difference xy => Z.lor difference (Z.lxor xy.1 xy.2)) 0 (zip l r) =? 0.
Definition verify_approval_token (instance : ExecutionInstance.t) (approval_token : str)
  : res WorkflowRuntimeError.t unit :=
  if negb (bool_decide (ExecutionInstance.status instance = ExecutionStatus.AwaitingApproval))
  then Err error_approval_consumed
  else
    match (context ← ExecutionInstance.pause_context instance;
           hash ← get (lit "approvalTokenHash") context;
           JsonValue.as_str hash) with
    | None => Err error_approval_state_invalid
    | Some expected =>
        if constant_time_eq (as_bytes expected) (as_bytes (hash_approval_token approval_token))
        then Ok tt else Err error_approval_unauthorized
    end.

(** ** Pausing *)
Definition approval_command (instance_id approval_token : str) (decision : PermissionDecision.t)
  : Value :=
  json_obj [("command", json_str "resolve_workflow_permission");
            ("request", json_obj [("instanceId", Value.String instance_id);
                                  ("approvalToken", Value.String approval_token);
                                  ("decision", Value.String (PermissionDecision.text decision))])].
Definition approval_request (instance : ExecutionInstance.t) (node_id message : str)
    (context : Value) (approval_token : str) : ApprovalRequest.t :=
  let id := ExecutionInstance.id instance in
  ApprovalRequest.mk _ id (ExecutionInstance.workflow_id instance) node_id message context
    approval_token (approval_command id approval_token PermissionDecision.Approve)
    (approval_command id approval_token PermissionDecision.Reject).

Definition merge_approval_recovery (context : Value) (token_hash approval_token message : str)
  : Value :=
  match context with
  | Value.Object object =>
      Value.Object
        (obj_insert (lit "approvalContext") context
          (obj_insert (lit "approvalMessage") (Value.String message)
            (obj_insert (lit "approvalToken") (Value.String approval_token)
              (obj_insert (lit "approvalTokenHash") (Value.String token_hash) object))))
  | _ =>
      json_obj [("context", context); ("approvalTokenHash", Value.String token_hash);
                ("approvalToken", Value.String approval_token);
                ("approvalMessage", Value.String message); ("approvalContext", context)]
  end.

Definition awaiting_payload (input : option Value) (latency_ms : Z) : NodeExecutionPayload.t :=
  NodeExecutionPayload.mk _ ExecutionStatus.AwaitingApproval input None None latency_ms 0 0.
Definition paused_instance memory (selected_edges : gset str) (pause_context : Value)
    (node_id : str) (input : option Value) (latency_ms : Z) (instance : ExecutionInstance.t)
  : ExecutionInstance.t :=
  Instance.insert_payload node_id (awaiting_payload input latency_ms)
    (Instance.set_pause (Some pause_context)
      (Instance.set_selected selected_edges
        (Instance.set_memory memory
          (Instance.set_status ExecutionStatus.AwaitingApproval instance)))).

Definition pause_for_external_action (node_id message : str) (context : Value)
    (input : option Value) memory (selected_edges : gset str) (latency_ms : Z)
  : run ApprovalRequest.t :=
  approval_token ← run_io generate_approval_token;
  let token_hash := hash_approval_token approval_token in
  let pause_context := merge_approval_recovery context token_hash approval_token message in
  _ ← modify (paused_instance memory selected_edges pause_context node_id input latency_ms);
  _ ← finish_timing false;
  instance ← the_instance;
  mret (approval_request instance node_id message context approval_token).

(** ** Permission nodes *)
Definition approved_edges outgoing (permission : PermissionNode.t) : list WorkflowEdge.t :=
  List.filter (fun edge => equals (WorkflowEdge.source_port edge) "approved")
    (edges_at outgoing (PermissionNode.id permission)).
Definition is_mcp_permission (permission : PermissionNode.t) : bool :=
  match PermissionNode.permission permission with PermissionKind.McpTool => true | _ => false end.
Definition resolved_arguments (tool : McpToolNode.t) memory : res WorkflowRuntimeError.t Value :=
  arguments ← resolve_json_templates (McpToolNode.arguments tool) memory;
  Ok (normalize_mcp_text_writer_arguments (McpToolNode.tool_name tool) arguments).
Definition exact_permission_effect_context (permission : PermissionNode.t) outgoing node_by_id memory
  : res WorkflowRuntimeError.t (option Value) :=
  match approved_edges outgoing permission with
  | [edge] =>
      match node_by_id !! WorkflowEdge.target_node_id edge with
      | Some (WorkflowNode.McpTool tool) =>
          let server := McpToolNode.server_name tool in
          let name := McpToolNode.tool_name tool in
          if negb (is_mcp_permission permission) || negb (is_exact_workflow_effect server name)
          then Ok None
          else
            arguments ← resolved_arguments tool memory;
            _ ← (if is_registered_task_server server
                 then _ ← validate_registered_task_arguments registry name arguments; Ok tt
                 else Ok tt);
            let classification := classify_mcp_tool_call server name None in
            Ok (Some (json_obj
              [("actionType", json_str "mcp_tool"); ("serverName", Value.String server);
               ("toolName", Value.String name); ("arguments", arguments);
               ("actionLabel", Value.String (PermissionNode.label permission));
               ("capabilityReason", Value.String (PermissionNode.reason permission));
               ("capabilityRiskTier",
                  Value.String (CapabilityRiskTier.as_str
                                  (CapabilityClassification.tier classification)));
               ("approvalScope", json_str "exact_workflow_effect")]))
      | _ => Ok None
      end
  | _ => Ok None
  end.

(** The payload of a permission node that a person has approved. *)
Definition approved_payload (payload : NodeExecutionPayload.t) : bool :=
  bool_decide (NodeExecutionPayload.status payload = ExecutionStatus.Completed)
  && match NodeExecutionPayload.output payload with
     | Some output => string_is (pointer ["data"; "decision"]%string output) (lit "approve")
     | None => false
     end.
Definition is_permission_node node_by_id (id : str) : bool :=
  match node_by_id !! id with Some (WorkflowNode.Permission _) => true | _ => false end.
Definition approved_permission_predecessor (tool : McpToolNode.t) incoming
    (selected_edges : gset str) node_by_id (payloads : gmap str NodeExecutionPayload.t)
  : option str :=
  if negb (is_exact_workflow_effect (McpToolNode.server_name tool) (McpToolNode.tool_name tool))
  then None
  else
    let approving edge :=
      equals (WorkflowEdge.source_port edge) "approved" && selects selected_edges edge
      && is_permission_node node_by_id (WorkflowEdge.source_node_id edge)
      && match payloads !! WorkflowEdge.source_node_id edge with
         | Some payload => approved_payload payload
         | None => false
         end in
    match List.filter approving (edges_at incoming (McpToolNode.id tool)) with
    | [edge] => Some (WorkflowEdge.source_node_id edge)
    | _ => None
    end.

(** Only [context] is shown; the other one is kept for the continuation. *)
Definition permission_pause_context (permission : PermissionNode.t) (exact_effect input : option Value)
    (token_hash approval_token : str) : res WorkflowRuntimeError.t (Value * Value) :=
  let context :=
    match exact_effect with
    | Some context => context
    | None =>
        json_obj
          [("actionType", json_str "workflow_permission");
           ("permissionKind",
              Value.String (permission_kind_text (PermissionNode.permission permission)));
           ("actionLabel", Value.String (PermissionNode.label permission));
           ("capabilityReason", Value.String (PermissionNode.reason permission))]
    end in
  match context with
  | Value.Object object =>
      let paused :=
        foldl (fun o kv => obj_insert (lit kv.1) kv.2 o) object
          [("nodeId", Value.String (PermissionNode.id permission));
           ("permission",
              Value.String (permission_kind_text (PermissionNode.permission permission)));
           ("reason", Value.String (PermissionNode.reason permission));
           ("onDenied", Value.String (on_denied_text (PermissionNode.on_denied permission)));
           ("input", json_opt input);
           ("approvalTokenHash", Value.String token_hash);
           ("approvalToken", Value.String approval_token);
           ("approvalMessage", Value.String (PermissionNode.reason permission));
           ("approvalContext", context)]%string in
      Ok (context, Value.Object paused)
  | _ => Err error_approval_state_invalid
  end.
Definition pause_for_permission (permission : PermissionNode.t) (exact_effect input : option Value)
    memory (selected_edges : gset str) (latency_ms : Z) : run ApprovalRequest.t :=
  approval_token ← run_io generate_approval_token;
  let token_hash := hash_approval_token approval_token in
  contexts ← run_res (permission_pause_context permission exact_effect input token_hash
                        approval_token);
  let '(context, pause_context) := contexts in
  let id := PermissionNode.id permission in
  _ ← modify (paused_instance memory selected_edges pause_context id input latency_ms);
  _ ← finish_timing false;
  instance ← the_instance;
  mret (approval_request instance id (PermissionNode.reason permission) context approval_token).

(** ** What is still waiting *)
Definition recovery_keys : list string :=
  ["approvalTokenHash"; "approvalToken"; "approvalMessage"; "approvalContext"].
Definition approval_request_from_instance (instance : ExecutionInstance.t)
  : option ApprovalRequest.t :=
  if negb (bool_decide (ExecutionInstance.status instance = ExecutionStatus.AwaitingApproval))
  then None
  else
    pause_context ← ExecutionInstance.pause_context instance;
    approval_token ← get (lit "approvalToken") pause_context ≫= JsonValue.as_str;
    message ← get (lit "approvalMessage") pause_context ≫= JsonValue.as_str;
    node_id ← ExecutionInstance.active_node_id instance;
    let approval_token := trim approval_token in
    let message := trim message in
    let node_id := trim node_id in
    if is_empty approval_token || is_empty message || is_empty node_id then None
    else
      let context :=
        match get (lit "approvalContext") pause_context with
        | Some context => context
        | None =>
            match pause_context with
            | Value.Object object =>
                Value.Object (foldl (fun o key => obj_remove (lit key) o) object recovery_keys)
            | value => value
            end
        end in
      Some (approval_request instance node_id message context approval_token).
(** [pending_workflow_approvals] *)
Definition pending_workflow_approvals : io (list ApprovalRequest.t) :=
  ids ← db_op (select pending_instances);
  instances ← io_for_fold (fun acc id =>
                instance ← db_op (load_execution_instance id);
                mret (acc ++ [instance])) [] ids;
  mret (omap approval_request_from_instance instances).

(** ** What an approval is bound to *)
Definition workflow_mcp_approval_material (arguments : Value)
    (approval_binding : option McpToolApprovalBinding.t) : Value :=
  json_obj [("arguments", arguments);
            ("approvalBinding", json_opt (option_map McpToolApprovalBinding.to_value approval_binding))].

Definition is_material_target_key (key : str) : bool :=
  in_list (map to_ascii_lowercase_char (List.filter is_ascii_alphanumeric key))
    ["url"; "urls"; "fallbackurl"; "fallbackurls"; "host"; "hostname"; "origin"; "path";
     "filepath"; "targetpath"; "destinationpath"; "outputpath"; "attachmentpath"; "directory";
     "destinationdirectory"; "outputdirectory"; "root"; "projectroot"; "recipient"; "to"; "cc";
     "bcc"; "channel"; "conversation"; "calendar"; "calendarname"; "subject"; "eventtitle"].
Definition strip_suffix (p s : str) : option str := option_map (fun r => rev r) (strip_prefix (rev p) (rev s)).
Definition runtime_timestamp_matches_template (template candidate : str) : bool :=
  match split_once_str TASK_RUN_TIMESTAMP_TOKEN template with
  | None => false
  | Some (before, after) =>
      match strip_prefix before candidate ≫= strip_suffix after with
      | None => false
      | Some timestamp =>
          let bytes := as_bytes timestamp in
          Nat.eqb (length bytes) 16
          && forallb (fun '(index, byte) =>
               if bool_decide (index ∈ [4; 7; 13]%nat) then byte =? 45
               else if Nat.eqb index 10 then byte =? 95
               else is_ascii_digit byte) (imap pair bytes)
      end
  end.
Definition normalize_material_target (authored : option Value) (resolved : Value)
  : res WorkflowRuntimeError.t Value :=
  match authored, resolved with
  | Some (Value.String a), Value.String r =>
      if contains_str TASK_RUN_TIMESTAMP_TOKEN a
      then if str_eqb a r || runtime_timestamp_matches_template a r
           then Ok (Value.String a)
           else Err (WorkflowRuntimeError.new "workflow_reusable_approval_target_changed"
                  (lit "A timestamped Workflow target resolved outside its saved filename pattern."))
      else Ok resolved
  | _, _ => Ok resolved
  end.
(** [collect] below [bounded_runtime_targets]: the targets under a value. *)
Fixpoint collect_targets (resolved : Value) (authored : option Value) (key : option str)
  : res WorkflowRuntimeError.t (option Value) :=
  if match key with Some key => is_material_target_key key | None => false end
  then target ← normalize_material_target authored resolved; Ok (Some target)
  else
    match resolved with
    | Value.Object object =>
        let authored_object := authored ≫= as_object in
        targets ← for_fold (fun targets kv =>
                     found ← collect_targets kv.2 (authored_object ≫= obj_get kv.1) (Some kv.1);
                     Ok (match found with
                         | Some value => obj_insert kv.1 value targets
                         | None => targets
                         end)) [] object;
        Ok (match targets with [] => None | _ => Some (Value.Object targets) end)
    | Value.Array items =>
        let authored_items := authored ≫= as_array in
        state ← for_fold (fun '(index, targets) item =>
                   found ← collect_targets item (authored_items ≫= fun l => l !! index) None;
                   Ok (S index, match found with
                                | Some value => targets ++ [value]
                                | None => targets
                                end)) (0%nat, []) items;
        Ok (match state.2 with [] => None | targets => Some (Value.Array targets) end)
    | _ => Ok None
    end.
Definition bounded_runtime_targets (authored resolved : Value) : res WorkflowRuntimeError.t Value :=
  found ← collect_targets resolved (Some authored) None;
  Ok (default (Value.Object []) found).

Definition workflow_version_mcp_approval_material (tool : McpToolNode.t) (arguments : Value)
    (approval_binding : option McpToolApprovalBinding.t)
  : res WorkflowRuntimeError.t (option Value) :=
  let server := McpToolNode.server_name tool in
  let name := McpToolNode.tool_name tool in
  if negb (is_registered_task_server server)
  then
    Ok (Some (json_obj
      [("schema", json_str "workflow_version_mcp_review_v1"); ("serverName", Value.String server);
       ("toolName", Value.String name);
       ("exactCall", workflow_mcp_approval_material arguments approval_binding)]))
  else
    _ ← validate_registered_task_arguments registry name arguments;
    match approval_tier registry name with
    | None | Some TaskToolApprovalTier.Explicit => Ok None
    | Some _ =>
        runtime_targets ← bounded_runtime_targets (McpToolNode.arguments tool) arguments;
        Ok (Some (json_obj
          [("schema", json_str "workflow_version_task_tool_review_v1");
           ("serverName", Value.String server); ("toolName", Value.String name);
           ("authoredArguments", McpToolNode.arguments tool); ("runtimeTargets", runtime_targets)]))
    end.

(** ** The ledger, as the runtime calls it *)
Definition verify_workflow_approval (instance_id node_id tool_name : str) (material : Value)
  : io bool :=
  now ← unix_time_seconds;
  db_op (verify_step_approval instance_id node_id tool_name material now).
Definition verify_workflow_version_approval (workflow_id : str) (workflow_version : Z)
    (node_id server_name tool_name : str) (material : Value) : io bool :=
  if is_blank workflow_id || (workflow_version =? 0) || is_blank node_id || is_blank server_name
     || is_blank tool_name
  then mret false
  else verify_workflow_approval (workflow_version_approval_subject workflow_id workflow_version)
         node_id (workflow_version_approval_target server_name tool_name) material.
Definition record_workflow_approval (token_hash instance_id node_id tool_name : str)
    (material : Value) (decision : str) : io unit :=
  let token_hash := trim token_hash in
  let instance_id := trim instance_id in
  let node_id := trim node_id in
  let tool_name := trim tool_name in
  let decision := trim decision in
  if is_empty token_hash || is_empty instance_id || is_empty node_id || is_empty tool_name
  then throw (WorkflowRuntimeError.database (invalid_parameter
         (lit "Workflow approval rows require token, instance, node, and tool identifiers.")))
  else if negb (in_list decision ["approve"; "deny"])
  then throw (WorkflowRuntimeError.database (invalid_parameter
         (lit "Unsupported workflow approval decision: " ++ decision)))
  else
    created_at ← unix_time_seconds;
    _ ← db_op (delete_expired created_at);
    db_op (upsert_approval token_hash
             (WorkflowApproval.mk instance_id node_id tool_name (hash_arguments material) decision
                created_at (created_at + WORKFLOW_APPROVAL_TTL_SECONDS))).
Definition record_workflow_version_approval (token_hash workflow_id : str) (workflow_version : Z)
    (node_id server_name tool_name : str) (material : Value) : io unit :=
  let token_hash := trim token_hash in
  let workflow_id := trim workflow_id in
  let node_id := trim node_id in
  let server_name := trim server_name in
  let tool_name := trim tool_name in
  if is_empty token_hash || is_empty workflow_id || (workflow_version =? 0) || is_empty node_id
     || is_empty server_name || is_empty tool_name
  then throw (WorkflowRuntimeError.database (invalid_parameter
         (lit "Reusable Workflow approval rows require a token, Workflow version, node, server, and tool.")))
  else
    created_at ← unix_time_seconds;
    _ ← db_op (delete_expired created_at);
    db_op (upsert_approval (lit "workflow-version:" ++ token_hash)
             (WorkflowApproval.mk (workflow_version_approval_subject workflow_id workflow_version)
                node_id (workflow_version_approval_target server_name tool_name)
                (hash_arguments material) (lit "approve") created_at i64_max)).

Definition load_compiled_workflow (workflow_id : str) (workflow_version : option Z)
  : io CompiledWorkflow.t :=
  found ← db_op (select_workflow_ir workflow_id workflow_version);
  let '(ir, version) := found in
  instructions ← db_op (select_instructions workflow_id version);
  mret (CompiledWorkflow.mk _ ir instructions).

(** The decision of a person on a pause whose context names an MCP tool. *)
Definition mcp_node (id : str) (node : WorkflowNode.t) : option McpToolNode.t :=
  match node with
  | WorkflowNode.McpTool tool => if str_eqb (McpToolNode.id tool) id then Some tool else None
  | _ => None
  end.
Definition decision_row (decision : PermissionDecision.t) : str :=
  match decision with
  | PermissionDecision.Approve => lit "approve"
  | PermissionDecision.Reject => lit "deny"
  end.
Definition record_bound_mcp_approval (request : ResolvePermissionRequest.t)
    (instance : ExecutionInstance.t) (node_id : str) : io unit :=
  match ExecutionInstance.pause_context instance with
  | None => mret tt
  | Some context =>
      if negb (string_is (get (lit "actionType") context) (lit "mcp_tool")) then mret tt
      else
        tool_name ← lift (ok_or error_approval_state_invalid
                            (get (lit "toolName") context ≫= JsonValue.as_str));
        arguments ← lift (ok_or error_approval_state_invalid (get (lit "arguments") context));
        let binding := get (lit "mcpApprovalBinding") context ≫= McpToolApprovalBinding.of_value in
        let token_hash := hash_approval_token (ResolvePermissionRequest.approval_token request) in
        let decision := ResolvePermissionRequest.decision request in
        _ ← record_workflow_approval token_hash (ExecutionInstance.id instance) node_id tool_name
              (workflow_mcp_approval_material arguments binding) (decision_row decision);
        if negb (bool_decide (decision = PermissionDecision.Approve)) then mret tt
        else
          compiled ← load_compiled_workflow (ExecutionInstance.workflow_id instance)
                       (Some (ExecutionInstance.workflow_version instance));
          match find_map (mcp_node node_id)
                  (WorkflowIr.nodes (CompiledWorkflow.workflow_ir compiled)) with
          | None => throw error_approval_state_invalid
          | Some tool =>
              material ← lift (workflow_version_mcp_approval_material tool arguments binding);
              match material with
              | None => mret tt
              | Some material =>
                  record_workflow_version_approval token_hash
                    (ExecutionInstance.workflow_id instance)
                    (ExecutionInstance.workflow_version instance) node_id
                    (McpToolNode.server_name tool) (McpToolNode.tool_name tool) material
              end
          end
  end.

Definition verify_predecessor_mcp_approval (instance_id permission_node_id : str)
    (tool : McpToolNode.t) (arguments : Value)
    (approval_binding : option McpToolApprovalBinding.t) : io bool :=
  let name := McpToolNode.tool_name tool in
  exact_match ← verify_workflow_approval instance_id permission_node_id name
                  (workflow_mcp_approval_material arguments approval_binding);
  if exact_match || negb (is_exact_workflow_effect (McpToolNode.server_name tool) name)
  then mret exact_match
  else verify_workflow_approval instance_id permission_node_id name
         (workflow_mcp_approval_material arguments None).

Definition resume_decision_for_node (node_id : str) (resume : option ResumePermission.t)
  : option PermissionDecision.t :=
  match resume with
  | Some r => if str_eqb (ResumePermission.node_id r) node_id
              then Some (ResumePermission.decision r) else None
  | None => None
  end.
Definition routine_authority_can_satisfy_mcp_review
    (approval_binding : option McpToolApprovalBinding.t) : bool :=
  negb (match approval_binding with
        | Some binding => McpToolApprovalBinding.requires_native_shield binding
        | None => false
        end).
End Approvals.
