(* ===== verification/WorkflowFiles.v ===== *)
(** * The files a workflow may touch ([workflow_runtime.rs])

    Inputs are read from, and outputs written to, the workflow's own workspace: a
    path is resolved through the file system, must not be a sensitive place and
    must lie below the canonical workspace.  Each question to the file system is
    a call, so what is there may change between two questions. *)
From S2P Require Import Prelude.
From S2P Require Import RustStr.
From S2P Require Import JsonValue.
From S2P Require Import WorkflowIr.
From S2P Require Import TaskTools.
From S2P Require Import Program.
From S2P Require Import Templates.
From S2P Require Import WorkflowRuntime.
From S2P Require Import WorkflowStore.
From S2P Require Import WorkflowEnv.
Local Open Scope Z_scope.

(** The home directory, and the directory of the application's data. *)
Class Host : Type := { home_dir : option path; app_data_root : path }.
(** [serde_json::to_vec_pretty] *)
Class JsonPretty `{J : JsonLib} : Type := to_string_pretty : Value -> str.

Definition LARGE_OUTPUT_BYTES : Z := 64 * 1024.
Definition WORKFLOW_WORKSPACE_DIR : str := lit "workspace".
Definition OOMU_ENV_ALLOWLIST : list string := ["LANG"; "PATH"; "USER"; "TZ"]%string.

Definition sanitize_file_name (value : str) : str :=
  map (fun c => if is_ascii_alphanumeric c || existsb (Z.eqb c) (lit ".-_") then c else ch "_")
    value.
(** [text.matches(pattern).count()] *)
Fixpoint count_from (skip : nat) (pattern s : str) : nat :=
  match s with
  | [] => 0
  | _ :: s' =>
      match skip with
      | S skip => count_from skip pattern s'
      | O => if starts_with pattern s then S (count_from (pred (length pattern)) pattern s')
             else count_from 0 pattern s'
      end
  end.
Definition count_matches (pattern s : str) : nat := count_from 0 pattern s.

Section Files.
Context {J : JsonLib} {P : JsonPretty} {Ho : Host}.
(** A function that fails with a text. *)
Notation io_str A := (Program.io Db Call Env str A).

Definition workflow_workspace_root : path := app_data_root ++ [WORKFLOW_WORKSPACE_DIR].
Definition sensitive_roots : list path :=
  map (fun s => path_of_str (lit s))
    ["/etc"; "/private/etc"; "/var/audit"; "/private/var/audit"; "/var/db"; "/private/var/db";
     "/var/log"; "/private/var/log"; "/var/root"; "/private/var/root"; "/var/run";
     "/private/var/run"]%string
  ++ match home_dir with
     | Some home => [home ++ [lit ".aws"]; home ++ [lit ".ssh"]]
     | None => []
     end.
Definition is_sensitive_path (p : path) : bool :=
  existsb (fun root => bool_decide (p = root) || path_starts_with root p) sensitive_roots.
Definition path_within_root (p root : path) : bool :=
  bool_decide (p = root) || path_starts_with root p.

(** The questions, with the type of their reply. *)
Definition exists_at {E} (p : path) : Program.io Db Call Env E bool := ask (Exists p).
Definition fs_canonicalize {E} (p : path) : Program.io Db Call Env E (res str path) :=
  ask (Canonicalize p).
Definition fs_metadata {E} (p : path) : Program.io Db Call Env E (res str (bool * Z)) :=
  ask (IsFileWithLen p).
Definition fs_read {E} (p : path) : Program.io Db Call Env E (res str (option str)) :=
  ask (ReadFile p).
Definition fs_write {E} (p : path) (text : str) : Program.io Db Call Env E (res str unit) :=
  ask (WriteFile p text).
Definition create_dir_all {E} (p : path) : Program.io Db Call Env E (res str unit) :=
  ask (CreateDirAll p).
Definition env_var {E} (name : str) : Program.io Db Call Env E (option str) :=
  ask (EnvironmentVariable name).

(** ** Resolving a path *)
Fixpoint existing_ancestor (fuel : nat) (ancestor : path) : io_str (option path) :=
  match fuel with
  | O => mret None
  | S fuel =>
      exists_ ← exists_at ancestor;
      if (exists_ : bool) then mret (Some ancestor)
      else match parent ancestor with
           | Some up => existing_ancestor fuel up
           | None => mret None
           end
  end.
(** What is left of the candidate below its existing ancestor. *)
Definition push_component (resolved : path) (component : str) : path :=
  if equals component "." || str_eqb component root_dir then resolved
  else if str_eqb component parent_dir then path_pop resolved
  else resolved ++ [component].
Definition resolve_existing_path_prefix (candidate : path) : io_str path :=
  real ← fs_canonicalize candidate;
  match real with
  | Ok real => mret real
  | _ =>
      ancestor ← existing_ancestor (S (length candidate)) candidate;
      match ancestor with
      | None =>
          throw (lit "Unable to resolve path " ++ path_display candidate
                 ++ lit " because no parent exists.")
      | Some ancestor =>
          resolved ← fs_canonicalize ancestor;
          match resolved with
          | Ok resolved =>
              mret (foldl push_component resolved
                      (default [] (path_strip_prefix ancestor candidate)))
          | Err error =>
              throw (lit "Unable to resolve existing path prefix " ++ path_display ancestor
                     ++ lit ": " ++ error)
          | Panic => lift Panic
          end
      end
  end.
Definition canonicalize_and_validate_path (base_root user_path : path) : io_str path :=
  base ← fs_canonicalize base_root;
  match base with
  | Err error =>
      throw (lit "Failed path canonicalization for sandbox root " ++ path_display base_root
             ++ lit ": " ++ error)
  | Panic => lift Panic
  | Ok base_root =>
      if is_sensitive_path base_root
      then throw (lit "Access Denied: sandbox root " ++ path_display base_root
                  ++ lit " is a sensitive system directory.")
      else
        let absolute_path := path_join base_root user_path in
        canonical ← io_map_err (fun error =>
                      lit "Failed path canonicalization for " ++ path_display absolute_path
                      ++ lit ": " ++ error) (resolve_existing_path_prefix absolute_path);
        if is_sensitive_path canonical
        then throw (lit "Access Denied: sensitive path " ++ path_display canonical
                    ++ lit " is not available to workflows.")
        else if negb (path_within_root canonical base_root)
        then throw (lit "Access Denied: Path escape detected outside secure sandbox root "
                    ++ path_display base_root ++ lit ".")
        else mret canonical
  end.

Definition fs_op {A} (p : io (res str A)) : io A :=
  r ← p;
  lift (map_err error_io r).
Definition ensure_workflow_workspace_root : io path :=
  _ ← fs_op (create_dir_all workflow_workspace_root);
  fs_op (fs_canonicalize workflow_workspace_root).
Definition sandboxed (workspace_root user_path : path) : io path :=
  io_map_err error_permission_rejected (canonicalize_and_validate_path workspace_root user_path).
Definition validate_workflow_output_directory (workspace_root directory : path) : io path :=
  directory ← sandboxed workspace_root directory;
  _ ← fs_op (create_dir_all directory);
  sandboxed workspace_root directory.

(** ** Inputs *)
Definition resolve_workflow_environment_value (name : str) : io str :=
  if negb (in_list name OOMU_ENV_ALLOWLIST)
  then throw (error_permission_rejected
         (lit "Environment variable " ++ name ++ lit " is not allowlisted for workflow bindings."))
  else
    value ← env_var name;
    lift (ok_or (error_input (lit "Environment variable " ++ name ++ lit " is not available."))
            value).
Definition size_metadata (len : Z) : list (str * Value) := [(lit "sizeBytes", json_u64 len)].
Definition read_local_file (text : str) : io PayloadEnvelope.t :=
  workspace_root ← ensure_workflow_workspace_root;
  file ← sandboxed workspace_root (path_of_str text);
  metadata ← fs_op (fs_metadata file);
  let '(is_file, len) := metadata in
  if negb is_file
  then throw (error_input (lit "Input path " ++ path_display file ++ lit " is not a file."))
  else if LARGE_OUTPUT_BYTES <? len
  then mret (PayloadEnvelope.mk _ (lit "application/octet-stream") None (Some (path_display file))
               (size_metadata len))
  else
    contents ← fs_op (fs_read file);
    match contents with
    | None =>
        throw (error_input (lit "Small input file " ++ path_display file
                            ++ lit " must contain UTF-8 text."))
    | Some text =>
        mret (PayloadEnvelope.mk _ (lit "text/plain") (Some (Value.String text))
                (Some (path_display file)) (size_metadata len))
    end.
Definition resolve_input (binding : InputBinding.t) : io Value :=
  envelope ← match binding with
             | InputBinding.Manual value =>
                 mret (PayloadEnvelope.mk _ (lit "application/json") (Some value) None [])
             | InputBinding.Environment name =>
                 value ← resolve_workflow_environment_value name;
                 mret (PayloadEnvelope.mk _ (lit "text/plain") (Some (Value.String value)) None
                         [(lit "environmentVariable", Value.String name)])
             | InputBinding.LocalFile text => read_local_file text
             end;
  mret (PayloadEnvelope.to_value envelope).

(** ** What an agent writes *)
Definition materialize_generated_output (text : str) (workspace_root : path)
    (instance_id node_id : str) : io PayloadEnvelope.t :=
  let code_fences := count_matches (lit "```") text in
  if (LARGE_OUTPUT_BYTES <=? str_len text) || (4 <=? code_fences)%nat
  then
    let directory := path_join workspace_root (path_of_str instance_id) ++ [lit "assets"] in
    _ ← fs_op (create_dir_all directory);
    let file := path_join directory (path_of_str (sanitize_file_name node_id ++ lit ".md")) in
    _ ← fs_op (fs_write file text);
    mret (PayloadEnvelope.mk _ (lit "text/markdown") None (Some (path_display file))
            (size_metadata (str_len text)))
  else mret (PayloadEnvelope.mk _ (lit "text/plain") (Some (Value.String text)) None []).

(** ** Outputs *)
Definition write_output (directory : str) (file_name : option str) (instance_id output_id : str)
    (payload : Value) : io unit :=
  workspace_root ← ensure_workflow_workspace_root;
  directory ← validate_workflow_output_directory workspace_root (path_of_str directory);
  let named := option_map sanitize_file_name file_name in
  let file_name :=
    match named with
    | Some name => if is_empty name then instance_id ++ lit "-" ++ output_id ++ lit ".json" else name
    | None => instance_id ++ lit "-" ++ output_id ++ lit ".json"
    end in
  file ← sandboxed workspace_root (path_join directory (path_of_str file_name));
  fs_op (fs_write file (to_string_pretty payload)).
End Files.
