(* ===== verification/WorkflowNodes.v ===== *)
(** * The nodes of a workflow ([workflow_runtime.rs], [evidence_input.rs])

    What each kind of node does: agents, routers, conditionals and outputs; and
    the MCP tool node with the whole decision whether its call needs a person and
    whether a person has agreed. *)
From S2P Require Import Prelude.
From S2P Require Import RustStr.
From S2P Require Import RustHash.
From S2P Require Import JsonValue.
From S2P Require Import WorkflowIr.
From S2P Require Import ToolSecurity.
From S2P Require Import TaskTools.
From S2P Require Import Program.
From S2P Require Import EffectJournal.
From S2P Require Import Templates.
From S2P Require Import WorkflowRuntime.
From S2P Require Import EmptyCollections.
From S2P Require Import WorkflowStore.
From S2P Require Import WorkflowEnv.
From S2P Require Import WorkflowApprovals.
From S2P Require Import WorkflowFiles.
Local Open Scope Z_scope.

(** What the runtime needs of two other components: the reviewed scope of a
    Routine's run ([routines/authority.rs]) and the audit of what a step is about
    to do against the workspace boundary ([security/firewall.rs]). *)
Class RoutineScope `{J : JsonLib} : Type := {
  verify_reviewed_workflow_scope : str -> str -> str -> Value -> Program.io Db Call Env str bool;
  reviewed_workflow_scope_required : str -> Program.io Db Call Env str bool;
}.
Class WorkspaceAudit : Type := audit_workspace_execution_payload : str -> res str unit.

Definition MAX_AGENT_EVIDENCE_CHARS : Z := 3000.
Definition WORKFLOW_AGENT_VARIABLE_MAX_BYTES : Z := 24 * 1024.

Section Nodes.
Context {J : JsonLib} {T : JsonText} {P : JsonPretty} {H : HashOrder} {D : Digest}.
Context {U : UnicodeTables} {Ho : Host} {W : RoutineScope} {A : WorkspaceAudit}.
Context {R : Type} (registry : gmap str (TaskToolRegistration.t R)).
Notation Memory := (gmap str Value).
Implicit Types (memory : Memory).

(** ** Agents *)
Definition has_fields (keys : list string) (value : Value) : bool :=
  forallb (fun key => bool_decide (is_Some (get (lit key) value))) keys.
Fixpoint official_source_content (value : Value) : option str :=
  match value with
  | Value.Object object =>
      if has_fields ["finalUrl"; "accessedAtUtc"; "contentSha256"]%string value
      then get (lit "content") value ≫= JsonValue.as_str
      else
        (fix structured (o : list (str * Value)) : option str :=
           match o with
           | [] => None
           | (k, v) :: o =>
               if str_eqb (lit "structuredContent") k then official_source_content v
               else structured o
           end) object
  | _ => None
  end.
Definition validate_agent_variables (variables : list (str * Value))
  : res WorkflowRuntimeError.t unit :=
  let any_with (keys : list string) := existsb (fun kv => has_fields keys kv.2) variables in
  let official_sources := omap (fun kv => official_source_content kv.2) variables in
  if existsb (fun content => MAX_AGENT_EVIDENCE_CHARS <? chars_count content) official_sources
  then Err (WorkflowRuntimeError.new "workflow_official_evidence_too_large"
         (lit "This Workflow received more than " ++ show_nat MAX_AGENT_EVIDENCE_CHARS
          ++ lit " characters from one official source. Fetch a smaller evidence excerpt before synthesis."))
  else if negb (any_with ["supplierCount"; "sourceSha256"; "suppliers"]%string)
          && negb (any_with ["milestoneCount"; "sourceSha256"; "milestones"]%string)
          && match official_sources with [] => true | _ => false end
  then Ok tt
  else
    let encoded := str_len (to_string (Value.Object variables)) in
    if WORKFLOW_AGENT_VARIABLE_MAX_BYTES <? encoded
    then Err (WorkflowRuntimeError.new "workflow_agent_input_too_large"
           (lit "This Workflow's evidence input is too large for reliable local synthesis ("
            ++ show_nat encoded ++ lit " bytes; limit "
            ++ show_nat WORKFLOW_AGENT_VARIABLE_MAX_BYTES
            ++ lit " bytes). Use typed analysis and smaller source excerpts."))
    else Ok tt.

(** A call whose reply is a result of the runtime. *)
Definition model_call {X} (c : Call) (as_result : Reply c -> res WorkflowRuntimeError.t X) : io X :=
  reply ← ask c;
  lift (as_result reply).

Definition agent_variables (instruction : CompiledInstruction.t) memory
  : res WorkflowRuntimeError.t (list (str * Value)) :=
  for_fold (fun variables nt =>
    value ← resolve_template nt.2 memory;
    Ok (obj_insert nt.1 value variables)) []
    (map_iter (CompiledInstruction.input_variable_mappings instruction)).
Definition execute_agent (agent : AgentNode.t) (instruction : option CompiledInstruction.t) memory
    (workspace_root : path) (instance_id : str) : io NodeOutcome.t :=
  let id := AgentNode.id agent in
  instruction ← lift (ok_or (WorkflowRuntimeError.execution
                  (lit "Agent node " ++ id ++ lit " has no compiled instruction.")) instruction);
  variables ← lift (agent_variables instruction memory);
  _ ← lift (validate_agent_variables variables);
  generated ← model_call (ExecuteAgent (lit "workflow-run:" ++ instance_id ++ lit ":" ++ id)
                            (CompiledInstruction.system_prompt instruction) variables) (fun r => r);
  envelope ← materialize_generated_output (ModelOutput.text generated) workspace_root instance_id id;
  mret (NodeOutcome.mk _ (PayloadEnvelope.to_value envelope) [lit "out"]
          (ModelOutput.prompt_tokens generated) (ModelOutput.completion_tokens generated)
          WorkflowCompletionKind.Result).
Definition execute_agent_with_timeout (agent : AgentNode.t)
    (instruction : option CompiledInstruction.t) memory (workspace_root : path)
    (instance_id : str) : io NodeOutcome.t :=
  run_blocking_node_with_timeout (AgentNode.id agent) (AgentNode.label agent)
    (agent_timeout_ms agent) (execute_agent agent instruction memory workspace_root instance_id).

(** ** Routers and conditionals *)
Definition execute_router (router : RouterNode.t) (input : option Value) memory
    (instance_id : str) : io NodeOutcome.t :=
  let input := json_opt input in
  let id := RouterNode.id router in
  decided ← match evaluate_basic_condition (RouterNode.expression router) memory input with
            | Some result =>
                port ← lift (route_for_boolean router result);
                mret (port, 0, 0)
            | None =>
                classified ← model_call
                  (ClassifyRoute (lit "workflow-route:" ++ instance_id ++ lit ":" ++ id)
                     router input) (fun r => r);
                let selected := trim (ModelOutput.text classified) in
                match find (fun route => str_eqb (RouterRoute.port route) selected)
                        (RouterNode.routes router) with
                | Some route =>
                    mret (RouterRoute.port route, ModelOutput.prompt_tokens classified,
                          ModelOutput.completion_tokens classified)
                | None =>
                    throw (WorkflowRuntimeError.execution
                             (lit "Router " ++ id ++ lit " returned unknown port "
                              ++ debug_str selected ++ lit "."))
                end
            end;
  let '(port, prompt_tokens, completion_tokens) := decided in
  mret (NodeOutcome.mk _
          (json_envelope (json_obj [("selectedPort", Value.String port); ("input", input)])
             (json_obj []))
          [port] prompt_tokens completion_tokens WorkflowCompletionKind.Result).
Definition execute_router_with_timeout (router : RouterNode.t) (input : option Value) memory
    (instance_id : str) : io NodeOutcome.t :=
  run_blocking_node_with_timeout (RouterNode.id router) (RouterNode.label router)
    (router_timeout_ms router) (execute_router router input memory instance_id).

Definition execute_conditional (conditional : ConditionalNode.t) (input : option Value) memory
    (instance_id : str) : io NodeOutcome.t :=
  let id := ConditionalNode.id conditional in
  input ← match ConditionalNode.input_mapping conditional with
          | Some template => lift (resolve_template template memory)
          | None => mret (json_opt input)
          end;
  decided ← match evaluate_basic_condition (ConditionalNode.condition conditional) memory input with
            | Some result => mret (result, 0, 0)
            | None =>
                judged ← model_call
                  (EvaluateCondition (lit "workflow-condition:" ++ instance_id ++ lit ":" ++ id)
                     conditional input) (fun r => r);
                match parse_model_boolean (ModelOutput.text judged) with
                | Some result =>
                    mret (result, ModelOutput.prompt_tokens judged,
                          ModelOutput.completion_tokens judged)
                | None =>
                    throw (WorkflowRuntimeError.execution
                             (lit "Conditional " ++ id ++ lit " returned non-boolean judgment "
                              ++ debug_str (trim (ModelOutput.text judged)) ++ lit "."))
                end
            end;
  let '(result, prompt_tokens, completion_tokens) := decided in
  let port := if (result : bool) then lit "true" else lit "false" in
  mret (NodeOutcome.mk _
          (json_envelope
             (json_obj [("result", Value.Bool result); ("selectedPort", Value.String port);
                        ("input", input)]) (json_obj []))
          [port] prompt_tokens completion_tokens WorkflowCompletionKind.Result).
Definition execute_conditional_with_timeout (conditional : ConditionalNode.t)
    (input : option Value) memory (instance_id : str) : io NodeOutcome.t :=
  run_blocking_node_with_timeout (ConditionalNode.id conditional) (ConditionalNode.label conditional)
    (conditional_timeout_ms conditional) (execute_conditional conditional input memory instance_id).

(** ** Outputs *)
Definition workflow_output_data_reference (reference : str) : option (str * str) :=
  let reference := default reference (strip_prefix (lit "nodes.") reference) in
  match split_once_str (lit ".output.data.") reference with
  | Some (producer, data_path) =>
      if is_empty producer || is_empty data_path then None else Some (producer, data_path)
  | None => None
  end.
Definition empty_collection_error (output : OutputNode.t) (rest : str) : WorkflowRuntimeError.t :=
  WorkflowRuntimeError.execution
    (lit "Output node " ++ OutputNode.id output
     ++ lit " declared completionKind empty_collection" ++ rest).
Definition validate_explicit_empty_collection_output (output : OutputNode.t)
    (workflow_ir : WorkflowIr.t) : res WorkflowRuntimeError.t unit :=
  let fail rest := empty_collection_error output rest in
  reference ← ok_or (fail (lit ", but its inputMapping is not one exact collection reference."))
                (exact_template_reference (OutputNode.input_mapping output));
  parts ← ok_or (fail (lit ", but " ++ reference
                        ++ lit " is not a canonical producer output data reference."))
            (workflow_output_data_reference reference);
  let '(producer_id, data_path) := parts in
  producer ← ok_or (fail (lit ", but producer " ++ producer_id
                           ++ lit " is not an MCP tool with a collection contract."))
    (match find (fun node => str_eqb (WorkflowNode.id node) producer_id)
             (WorkflowIr.nodes workflow_ir) with
     | Some (WorkflowNode.McpTool producer) => Some producer
     | _ => None
     end);
  declared ← ok_or (fail (lit ", but producer " ++ producer_id
                           ++ lit " has no schema-declared primary empty-success collection."))
    (schema ← McpToolNode.output_schema producer; declared_primary_collection_path schema);
  if negb (str_eqb data_path declared)
  then Err (fail (lit " for " ++ reference ++ lit ", but producer " ++ producer_id
                  ++ lit " declares data." ++ declared ++ lit " as its primary collection."))
  else Ok tt.
Definition execute_output (output : OutputNode.t) (binding : option OutputBinding.t) memory
    (instance_id : str) (workflow_ir : WorkflowIr.t) : io NodeOutcome.t :=
  if bool_decide (OutputNode.completion_kind output = WorkflowCompletionKind.EmptyCollection)
  then
    _ ← lift (validate_explicit_empty_collection_output output workflow_ir);
    payload ← lift (resolve_template (trim (OutputNode.input_mapping output)) memory);
    match payload with
    | Value.Array [] => mret outcome_empty_collection
    | _ => throw (empty_collection_error output
                    (lit ", but its inputMapping did not resolve to an empty array."))
    end
  else
    payload ← lift (resolve_template (OutputNode.input_mapping output) memory);
    _ ← match default OutputBinding.Ui binding with
        | OutputBinding.Ui => mret tt
        | OutputBinding.LocalDirectory directory file_name =>
            write_output directory file_name instance_id (OutputNode.id output) payload
        end;
    mret (outcome_output payload []).

(** ** The knowledge vault *)
Definition execute_sync_knowledge_vault_node (node_id label : str) (arguments : Value)
    (timeout_ms : Z) (metadata : list (str * Value)) : io ActionNodeStep.t :=
  result ← run_blocking_node_with_timeout node_id label timeout_ms
             (model_call (ExecuteSyncKnowledgeVault arguments) (fun r => r));
  mret (ActionNodeStep.Completed
          (outcome_output
             (json_envelope result
                (Value.Object (obj_insert (lit "arguments") arguments (obj_from metadata))))
             [lit "out"])).

(** ** MCP tools *)
Definition ensure_mcp_server_ready_once (mcp_tool : McpToolNode.t) (ready : gset str)
  : io (gset str) :=
  let server := McpToolNode.server_name mcp_tool in
  let tool := McpToolNode.tool_name mcp_tool in
  if is_registered_task_server server || is_native_calendar_workflow_tool server tool
     || is_notification_tool server tool || is_sync_knowledge_vault_mcp_tool server tool
     || bool_decide (server ∈ ready)
  then mret ready
  else
    _ ← model_call (EnsureMcpServerReady server (mcp_tool_timeout_ms mcp_tool)) (fun r => r);
    mret ({[server]} ∪ ready).

Definition reviewed_routine_scope_for_call (has_ledger : bool) (instance_id : str)
    (tool : McpToolNode.t) (arguments : Value) : io bool :=
  if negb has_ledger then mret false
  else
    reviewed ← io_map_err WorkflowRuntimeError.runtime
                 (verify_reviewed_workflow_scope instance_id (McpToolNode.id tool)
                    (McpToolNode.tool_name tool) arguments);
    required ← io_map_err WorkflowRuntimeError.runtime
                 (reviewed_workflow_scope_required instance_id);
    if (required : bool) && negb reviewed
       && negb (is_exact_workflow_effect (McpToolNode.server_name tool) (McpToolNode.tool_name tool))
    then throw (WorkflowRuntimeError.new "workflow_routine_scope_denied"
           (lit "This scheduled step is outside the Workflow scope you reviewed."))
    else mret reviewed.

(** What is asked before a call is made: the tool, its resolved arguments, the
    binding the registry prepared, and what may stand for a person's answer. *)
Record review : Type := {
  review_tool : McpToolNode.t;
  review_arguments : Value;
  review_binding : option McpToolApprovalBinding.t;
  review_version_material : option Value;
  review_routine_scope : bool;
  review_permission_node : option str;
}.
Definition needs_review (classification : CapabilityClassification.t)
    (binding : option McpToolApprovalBinding.t) : bool :=
  CapabilityClassification.requires_human_approval classification
  || bool_decide (is_Some binding).
Definition review_material (v : review) : Value :=
  workflow_mcp_approval_material (review_arguments v) (review_binding v).

(** The answers already on record, in the order the source consults them. *)
Definition ledger_approved (instance : ExecutionInstance.t) (v : review) : io bool :=
  let tool := review_tool v in
  let instance_id := ExecutionInstance.id instance in
  workflow_approved ← verify_workflow_approval instance_id (McpToolNode.id tool)
                        (McpToolNode.tool_name tool) (review_material v);
  version_approved ←
    match review_version_material v with
    | Some material =>
        verify_workflow_version_approval (ExecutionInstance.workflow_id instance)
          (ExecutionInstance.workflow_version instance) (McpToolNode.id tool)
          (McpToolNode.server_name tool) (McpToolNode.tool_name tool) material
    | None => mret false
    end;
  if (workflow_approved : bool) || version_approved then mret true
  else
    match review_permission_node v with
    | Some permission_node =>
        verify_predecessor_mcp_approval instance_id permission_node tool (review_arguments v)
          (review_binding v)
    | None =>
        if review_routine_scope v then mret true
        else if routine_authority_can_satisfy_mcp_review (review_binding v)
        then
          now ← unix_time_ms;
          db_op (verify_routine_authority instance_id (McpToolNode.tool_name tool)
                   (review_arguments v) now)
        else mret false
    end.
(** [Some true] to go on as approved, [None] to ask. *)
Definition review_decision (has_ledger : bool) (instance : ExecutionInstance.t)
    (resume : option ResumePermission.t) (v : review) : io bool :=
  let tool := review_tool v in
  match resume_decision_for_node (McpToolNode.id tool) resume with
  | Some PermissionDecision.Approve =>
      if has_ledger
      then
        approved ← verify_workflow_approval (ExecutionInstance.id instance) (McpToolNode.id tool)
                     (McpToolNode.tool_name tool) (review_material v);
        if negb approved
        then throw (error_approval_not_verified (McpToolNode.id tool) (McpToolNode.tool_name tool))
        else mret true
      else mret true
  | Some PermissionDecision.Reject =>
      throw (error_permission_rejected
               (lit "MCP tool " ++ McpToolNode.server_name tool ++ lit " / "
                ++ McpToolNode.tool_name tool ++ lit " was rejected."))
  | None => if has_ledger then ledger_approved instance v else mret false
  end.
Definition mcp_pause_context (instance : ExecutionInstance.t)
    (classification : CapabilityClassification.t) (v : review) (timeout_ms : Z)
    (input : option Value) memory : Value :=
  let tool := review_tool v in
  json_obj
    [("actionType", json_str "mcp_tool");
     ("serverName", Value.String (McpToolNode.server_name tool));
     ("toolName", Value.String (McpToolNode.tool_name tool));
     ("arguments", review_arguments v);
     ("capabilityRiskTier",
        Value.String (CapabilityRiskTier.as_str (CapabilityClassification.tier classification)));
     ("capabilityReason", Value.String (CapabilityClassification.reason classification));
     ("mcpApprovalBinding",
        json_opt (option_map McpToolApprovalBinding.to_value (review_binding v)));
     ("approvalReuse",
        match review_version_material v with
        | Some _ =>
            json_obj [("scope", json_str "workflow_version");
                      ("workflowVersion", json_u64 (ExecutionInstance.workflow_version instance))]
        | None => Value.Null
        end);
     ("timeoutMs", json_u64 timeout_ms); ("systemTimeoutMs", json_u64 timeout_ms);
     ("input", json_opt input);
     ("memoryKeys", Value.Array (map (fun kv => Value.String kv.1) (map_iter memory)))].

Definition call_of (instance : ExecutionInstance.t) (v : review) (timeout_ms : Z)
    (human_approved : bool) : McpToolCall.t :=
  let tool := review_tool v in
  McpToolCall.mk _ (ExecutionInstance.id instance) (McpToolNode.id tool) (McpToolNode.label tool)
    (McpToolNode.server_name tool) (McpToolNode.tool_name tool) (review_arguments v) timeout_ms
    (review_binding v) human_approved.
Definition is_error_result (result : Value) : bool :=
  match get (lit "isError") result with Some (Value.Bool b) => b | _ => false end.
Definition call_mcp_tool (instance : ExecutionInstance.t) (v : review) (timeout_ms : Z)
    (human_approved : bool) : io ActionNodeStep.t :=
  let tool := review_tool v in
  let server := McpToolNode.server_name tool in
  let name := McpToolNode.tool_name tool in
  result ← run_blocking_node_with_timeout (McpToolNode.id tool) (McpToolNode.label tool) timeout_ms
             (model_call (ExecuteMcpTool (call_of instance v timeout_ms human_approved))
                (fun r => r));
  if is_error_result result
  then throw (WorkflowRuntimeError.execution
         (lit "MCP tool " ++ server ++ lit " / " ++ name ++ lit " returned an error result: "
          ++ to_string result))
  else mret (ActionNodeStep.Completed
               (outcome_output (mcp_result_envelope server name (review_arguments v) result)
                  [lit "out"])).

(** The work before the decision, up to the arguments of the call. *)
Definition prepare_review (has_ledger : bool) (instance : ExecutionInstance.t)
    (mcp_tool : McpToolNode.t) (arguments : Value) (timeout_ms : Z)
    (classification : CapabilityClassification.t) (permission_node : option str)
    (ready : gset str) : io (gset str * review) :=
  ready ← ensure_mcp_server_ready_once mcp_tool ready;
  binding ← model_call (PrepareMcpToolApprovalBinding (McpToolNode.server_name mcp_tool)
              (McpToolNode.tool_name mcp_tool) arguments timeout_ms) (fun r => r);
  version_material ←
    (if needs_review classification binding
     then lift (workflow_version_mcp_approval_material registry mcp_tool arguments binding)
     else mret None);
  reviewed ← reviewed_routine_scope_for_call has_ledger (ExecutionInstance.id instance) mcp_tool
               arguments;
  mret (ready, {| review_tool := mcp_tool; review_arguments := arguments;
                  review_binding := binding; review_version_material := version_material;
                  review_routine_scope := reviewed; review_permission_node := permission_node |}).
Definition mcp_audit_payload (mcp_tool : McpToolNode.t) (arguments : Value) : str :=
  to_string (json_obj
    [("actionType", json_str "mcp_tool");
     ("serverName", Value.String (McpToolNode.server_name mcp_tool));
     ("toolName", Value.String (McpToolNode.tool_name mcp_tool)); ("arguments", arguments)]).
Definition execute_mcp_tool_node (mcp_tool : McpToolNode.t) (input : option Value) memory
    (selected_edges : gset str) (latency_ms : Z) (has_ledger : bool)
    (resume : option ResumePermission.t) (permission_node : option str) (ready : gset str)
  : run (gset str * ActionNodeStep.t) :=
  let server := McpToolNode.server_name mcp_tool in
  let name := McpToolNode.tool_name mcp_tool in
  arguments ← run_res (resolved_arguments mcp_tool memory);
  let timeout_ms := mcp_tool_timeout_ms mcp_tool in
  _ ← run_res (map_err WorkflowRuntimeError.execution
                 (audit_workspace_execution_payload (mcp_audit_payload mcp_tool arguments)));
  if is_sync_knowledge_vault_mcp_tool server name
  then
    done ← run_io (execute_sync_knowledge_vault_node (McpToolNode.id mcp_tool)
             (McpToolNode.label mcp_tool) arguments timeout_ms
             [(lit "serverName", Value.String server); (lit "toolName", Value.String name)]);
    mret (ready, done)
  else
    let classification := classify_mcp_tool_call server name None in
    instance ← the_instance;
    prepared ← run_io (prepare_review has_ledger instance mcp_tool arguments timeout_ms
                         classification permission_node ready);
    let '(ready, v) := prepared in
    if negb (needs_review classification (review_binding v))
    then done ← run_io (call_mcp_tool instance v timeout_ms false); mret (ready, done)
    else
      human_approved ← run_io (review_decision has_ledger instance resume v);
      if (human_approved : bool)
      then done ← run_io (call_mcp_tool instance v timeout_ms true); mret (ready, done)
      else
        approval ← pause_for_external_action (McpToolNode.id mcp_tool)
                     (lit "Approve MCP tool " ++ server ++ lit " / " ++ name)
                     (mcp_pause_context instance classification v timeout_ms input memory)
                     input memory selected_edges latency_ms;
        mret (ready, ActionNodeStep.Paused approval).
End Nodes.
