(* ===== verification/SystemActions.v ===== *)
(** * System actions ([workflow_runtime/system_action.rs])

    A step that runs a command: its text is resolved, audited and classified;
    what needs a person waits for one; what fails may be repaired once by the
    model, and the repair must not need a person.  Starting the process in its
    sandbox and the sandbox's resolution of paths are calls. *)
From S2P Require Import Prelude.
From S2P Require Import RustStr.
From S2P Require Import RustHash.
From S2P Require Import JsonValue.
From S2P Require Import WorkflowIr.
From S2P Require Import ToolSecurity.
From S2P Require Import TaskTools.
From S2P Require Import Program.
From S2P Require Import EffectJournal.
From S2P Require Import Templates.
From S2P Require Import WorkflowRuntime.
From S2P Require Import WorkflowStore.
From S2P Require Import WorkflowEnv.
From S2P Require Import WorkflowApprovals.
From S2P Require Import WorkflowFiles.
From S2P Require Import WorkflowNodes.
Local Open Scope Z_scope.

Definition SYSTEM_ACTION_DEFAULT_TIMEOUT_MS : Z := SHORT_TIMEOUT_MS.
Definition SYSTEM_ACTION_MAX_TIMEOUT_MS : Z := LONG_TIMEOUT_MS.
Definition SYSTEM_ACTION_MAX_OUTPUT_BYTES : Z := 50 * 1024.

(** The serde name and the derived [Debug]. *)
Definition action_type_text (a : SystemActionType.t) : str :=
  match a with
  | SystemActionType.Shell => lit "shell" | SystemActionType.Python => lit "python"
  | SystemActionType.Binary => lit "binary"
  end.
Definition action_type_debug (a : SystemActionType.t) : str :=
  match a with
  | SystemActionType.Shell => lit "Shell" | SystemActionType.Python => lit "Python"
  | SystemActionType.Binary => lit "Binary"
  end.
Definition system_action_class (a : SystemActionType.t) : SystemActionClass.t :=
  match a with
  | SystemActionType.Shell => SystemActionClass.Shell
  | SystemActionType.Python => SystemActionClass.Python
  | SystemActionType.Binary => SystemActionClass.Binary
  end.

Definition bounded_system_timeout_ms (timeout_ms : Z) : Z :=
  clamp 1 SYSTEM_ACTION_MAX_TIMEOUT_MS
    (if timeout_ms =? 0 then SYSTEM_ACTION_DEFAULT_TIMEOUT_MS else timeout_ms).
Definition default_system_action_node_timeout_ms (system_action : SystemActionNode.t) : Z :=
  let preview :=
    action_type_debug (SystemActionNode.action_type system_action) ++ lit " "
    ++ SystemActionNode.command system_action ++ lit " "
    ++ join (lit " ") (SystemActionNode.args system_action) ++ lit " "
    ++ default [] (SystemActionNode.working_directory system_action) in
  if long_running_operation_hint preview then LONG_TIMEOUT_MS else SHORT_TIMEOUT_MS.
Definition system_action_timeout_ms (system_action : SystemActionNode.t) : Z :=
  let configured :=
    match SystemActionNode.system_timeout_ms system_action with
    | Some ms => Some ms
    | None =>
        if SystemActionNode.timeout_ms system_action =? SYSTEM_ACTION_DEFAULT_TIMEOUT_MS
        then None else Some (SystemActionNode.timeout_ms system_action)
    end in
  configured_node_timeout_ms configured (default_system_action_node_timeout_ms system_action).
Definition command_preview (command : str) (args : list str) : str :=
  match args with [] => command | _ => command ++ lit " " ++ join (lit " ") args end.
Definition compact_runtime_text (value : str) : str :=
  take 300 (join (lit " ") (split_whitespace value)).

(** ** The knowledge vault behind a command *)
Definition parse_sync_knowledge_max_files (value : str) : res WorkflowRuntimeError.t Z :=
  match parse_unsigned usize_max value with
  | None => Err (WorkflowRuntimeError.execution
                   (lit "sync_knowledge_vault maxFiles must be a positive integer."))
  | Some n =>
      if n =? 0
      then Err (WorkflowRuntimeError.execution
                  (lit "sync_knowledge_vault maxFiles must be greater than zero."))
      else Ok n
  end.
Definition trim_start_matches_char (c : Z) (s : str) : str := trim_start_by (Z.eqb c) s.

(** What the loop over the arguments has found. *)
Record vault_args : Type := {
  vault_path : option str; vault_max_files : option Z; vault_mod_id : option str;
}.
Definition apply_sync_knowledge_vault_arg (key value : str) (found : vault_args)
  : res WorkflowRuntimeError.t vault_args :=
  let value := trim value in
  let key := normalize_runtime_identifier key in
  if in_list key ["path"; "p"]
  then Ok (if is_empty value then found
           else {| vault_path := Some value; vault_max_files := vault_max_files found;
                   vault_mod_id := vault_mod_id found |})
  else if in_list key ["max_files"; "maxfiles"]
  then n ← parse_sync_knowledge_max_files value;
       Ok {| vault_path := vault_path found; vault_max_files := Some n;
             vault_mod_id := vault_mod_id found |}
  else if in_list key ["mod_id"; "modid"]
  then Ok (if is_empty value then found
           else {| vault_path := vault_path found; vault_max_files := vault_max_files found;
                   vault_mod_id := Some value |})
  else Ok found.
Fixpoint read_vault_args (args : list str) (found : vault_args)
  : res WorkflowRuntimeError.t vault_args :=
  match args with
  | [] => Ok found
  | arg :: args' =>
      let arg := trim arg in
      if is_empty arg then read_vault_args args' found
      else
        match split_once_char (ch "=") arg with
        | Some (key, value) =>
            found ← apply_sync_knowledge_vault_arg (trim_start_matches_char (ch "-") key) value
                      found;
            read_vault_args args' found
        | None =>
            let key := trim_start_matches_char (ch "-") arg in
            if in_list (normalize_runtime_identifier key)
                 ["path"; "p"; "max_files"; "maxfiles"; "mod_id"; "modid"]
            then
              match args' with
              | [] =>
                  Err (WorkflowRuntimeError.execution
                         (lit "sync_knowledge_vault argument " ++ arg ++ lit " requires a value."))
              | value :: args'' =>
                  found ← apply_sync_knowledge_vault_arg key value found;
                  read_vault_args args'' found
              end
            else
              read_vault_args args'
                (match vault_path found with
                 | Some _ => found
                 | None => {| vault_path := Some arg; vault_max_files := vault_max_files found;
                              vault_mod_id := vault_mod_id found |}
                 end)
        end
  end.

Section Actions.
Context {J : JsonLib} {T : JsonText} {H : HashOrder} {D : Digest} {U : UnicodeTables}.
Context {A : WorkspaceAudit}.
Notation Memory := (gmap str Value).
Implicit Types (memory : Memory).

Definition sync_knowledge_vault_arguments_from_system_action (args : list str)
    (working_directory : option str) : res WorkflowRuntimeError.t Value :=
  let start :=
    match working_directory with
    | Some directory => if is_blank directory then None else Some (trim directory)
    | None => None
    end in
  found ← read_vault_args args
            {| vault_path := start; vault_max_files := None; vault_mod_id := None |};
  match vault_path found with
  | None =>
      Err (WorkflowRuntimeError.execution
             (lit "sync_knowledge_vault system action requires a path argument or workingDirectory."))
  | Some vault =>
      Ok (Value.Object
            (obj_from ([(lit "path", Value.String vault)]
                       ++ match vault_max_files found with
                          | Some n => [(lit "maxFiles", json_u64 n)] | None => []
                          end
                       ++ match vault_mod_id found with
                          | Some id => [(lit "modId", Value.String id)] | None => []
                          end)))
  end.

(** ** Resolving and auditing *)
Definition json_strs (l : list str) : Value := Value.Array (map Value.String l).
Definition audit_system_action (system_action : SystemActionNode.t) (command : str)
    (args : list str) (working_directory : option str) : res WorkflowRuntimeError.t unit :=
  map_err WorkflowRuntimeError.execution
    (audit_workspace_execution_payload
       (to_string (json_obj
          [("actionType", json_str "system_action");
           ("mode", Value.String (action_type_text (SystemActionNode.action_type system_action)));
           ("command", Value.String command); ("args", json_strs args);
           ("workingDirectory", json_opt (option_map Value.String working_directory))]))).

(** The resolved text of an action. *)
Record resolved_action : Type := {
  action_command : str; action_args : list str; action_directory : option str;
}.
Definition resolve_action (system_action : SystemActionNode.t) memory
  : res WorkflowRuntimeError.t resolved_action :=
  command ← resolve_template_to_string (SystemActionNode.command system_action) memory;
  args ← try_map (fun arg => resolve_template_to_string arg memory)
           (SystemActionNode.args system_action);
  directory ← match SystemActionNode.working_directory system_action with
              | Some directory =>
                  d ← resolve_template_to_string directory memory; Ok (Some d)
              | None => Ok None
              end;
  Ok {| action_command := command; action_args := args; action_directory := directory |}.
Definition classify_action (system_action : SystemActionNode.t) (r : resolved_action)
  : CapabilityClassification.t :=
  classify_system_action (system_action_class (SystemActionNode.action_type system_action))
    (action_command r) (action_args r).

(** ** Waiting for a person *)
Definition system_pause_context (system_action : SystemActionNode.t) (r : resolved_action)
    (timeout_ms : Z) (input : option Value) memory : Value :=
  let classification := classify_action system_action r in
  let policy := sandbox_policy classification in
  json_obj
    [("actionType", json_str "system_action");
     ("mode", Value.String (action_type_text (SystemActionNode.action_type system_action)));
     ("command", Value.String (action_command r)); ("args", json_strs (action_args r));
     ("workingDirectory", json_opt (option_map Value.String (action_directory r)));
     ("capabilityRiskTier",
        Value.String (CapabilityRiskTier.as_str (CapabilityClassification.tier classification)));
     ("capabilityReason", Value.String (CapabilityClassification.reason classification));
     ("sandboxRequired", Value.Bool (SandboxPolicy.required policy));
     ("sandboxReason", Value.String (SandboxPolicy.reason policy));
     ("sandboxNetworkEnabled", Value.Bool (SandboxPolicy.network_enabled policy));
     ("timeoutMs", json_u64 (bounded_system_timeout_ms timeout_ms));
     ("systemTimeoutMs", json_u64 (bounded_system_timeout_ms timeout_ms));
     ("input", json_opt input);
     ("memoryKeys", Value.Array (map (fun kv => Value.String kv.1) (map_iter memory)))].
(** [Some] when the step pauses. *)
Definition system_action_approval_step (system_action : SystemActionNode.t) (r : resolved_action)
    (timeout_ms : Z) (input : option Value) memory (selected_edges : gset str) (latency_ms : Z)
    (resume : option ResumePermission.t) : run (option ApprovalRequest.t) :=
  if negb (CapabilityClassification.requires_human_approval (classify_action system_action r))
  then mret None
  else
    let id := SystemActionNode.id system_action in
    match resume_decision_for_node id resume with
    | Some PermissionDecision.Approve => mret None
    | Some PermissionDecision.Reject =>
        run_throw (error_permission_rejected
          (lit "System action " ++ SystemActionNode.label system_action ++ lit " was rejected."))
    | None =>
        approval ← pause_for_external_action id
          (lit "Approve system action: " ++ command_preview (action_command r) (action_args r))
          (system_pause_context system_action r timeout_ms input memory)
          input memory selected_edges latency_ms;
        mret (Some approval)
    end.

(** ** Running *)
Definition resolve_in_sandbox (root directory : path) : io (res str path) :=
  ask (ResolveInSandbox root directory).
Definition resolve_system_working_directory (workspace_root : path) (directory : option str)
  : io path :=
  let directory :=
    match directory with
    | Some d => if is_blank d then [lit "."] else path_of_str d
    | None => [lit "."]
    end in
  resolved ← resolve_in_sandbox workspace_root (path_join workspace_root directory);
  directory ← lift (map_err WorkflowRuntimeError.execution resolved);
  _ ← fs_op (create_dir_all directory);
  mret directory.
Definition run_system_action (system_action : SystemActionNode.t) (command : str)
    (args : list str) (workspace_root working_directory : path) (timeout_ms max_output_bytes : Z)
  : io SystemActionResult.t :=
  model_call (RunSystemAction
    (SystemActionRun.mk (SystemActionNode.id system_action)
       (SystemActionNode.action_type system_action) command args workspace_root working_directory
       timeout_ms max_output_bytes)) (fun r => r).
Definition system_action_succeeded (result : SystemActionResult.t) : bool :=
  negb (SystemActionResult.timed_out result)
  && bool_decide (SystemActionResult.exit_code result = Some 0).
Definition stderr_text (result : SystemActionResult.t) : str :=
  LimitedPipeOutput.text (SystemActionResult.stderr result).

(** [SystemActionRepairPlan], which denies unknown fields. *)
Record repair_plan : Type := {
  plan_command : str; plan_args : list str; plan_directory : option str; plan_explanation : str;
}.
Definition read_strs (items : list Value) : option (list str) := mapM JsonValue.as_str items.
Definition read_repair_plan (text : str) : option repair_plan :=
  value ← from_str text;
  object ← as_object value;
  if negb (forallb (fun kv => in_list kv.1 ["command"; "args"; "workingDirectory"; "explanation"])
             object)
  then None
  else
    command ← obj_get (lit "command") object ≫= JsonValue.as_str;
    args ← match obj_get (lit "args") object with
           | None => Some []
           | Some (Value.Array items) => read_strs items
           | Some _ => None
           end;
    directory ← match obj_get (lit "workingDirectory") object with
                | None | Some Value.Null => Some None
                | Some (Value.String d) => Some (Some d)
                | Some _ => None
                end;
    explanation ← match obj_get (lit "explanation") object with
                  | None => Some []
                  | Some (Value.String e) => Some e
                  | Some _ => None
                  end;
    Some {| plan_command := command; plan_args := args; plan_directory := directory;
            plan_explanation := explanation |}.
(** The text of a JSON error is not modelled. *)
Definition json_error : str := lit "invalid JSON".

Definition attempt_system_action_self_heal (system_action : SystemActionNode.t)
    (instance_id : str) (command : str) (args : list str) (workspace_root working_directory : path)
    (failed : SystemActionResult.t) (timeout_ms max_output_bytes : Z)
  : io (SystemActionResult.t * repair_plan) :=
  let id := SystemActionNode.id system_action in
  let failure :=
    SystemActionFailureContext.mk (SystemActionNode.action_type system_action) command args
      (path_display working_directory) (SystemActionResult.exit_code failed)
      (LimitedPipeOutput.text (SystemActionResult.stdout failed)) (stderr_text failed) in
  repair ← model_call (RepairSystemAction (lit "workflow-repair:" ++ instance_id ++ lit ":" ++ id)
                         failure) (fun r => r);
  plan ← lift (ok_or (WorkflowRuntimeError.execution
           (lit "System action " ++ id ++ lit " failed with exit code "
            ++ debug_option_int (SystemActionResult.exit_code failed)
            ++ lit ", and Gemma returned invalid repair JSON: " ++ json_error
            ++ lit ". stderr: " ++ compact_runtime_text (stderr_text failed)))
           (read_repair_plan (trim (ModelOutput.text repair))));
  if is_blank (plan_command plan)
  then throw (WorkflowRuntimeError.execution
         (lit "System action " ++ id ++ lit " failed and Gemma returned an empty repair command."))
  else
    let directory :=
      match plan_directory plan with
      | Some d => if is_blank d then path_display working_directory else d
      | None => path_display working_directory
      end in
    directory ← resolve_system_working_directory workspace_root (Some directory);
    let classification :=
      classify_system_action (system_action_class (SystemActionNode.action_type system_action))
        (plan_command plan) (plan_args plan) in
    if CapabilityClassification.requires_human_approval classification
    then throw (WorkflowRuntimeError.execution
           (lit "System action " ++ id
            ++ lit " failed, but the self-heal repair requires human approval: "
            ++ CapabilityClassification.reason classification))
    else
      result ← run_system_action system_action (plan_command plan) (plan_args plan) workspace_root
                 directory (bounded_system_timeout_ms timeout_ms) max_output_bytes;
      if negb (system_action_succeeded result)
      then throw (WorkflowRuntimeError.execution
             (lit "System action " ++ id ++ lit " failed with exit code "
              ++ debug_option_int (SystemActionResult.exit_code failed)
              ++ lit "; self-heal rerun exited with "
              ++ debug_option_int (SystemActionResult.exit_code result)
              ++ lit ". stderr: " ++ compact_runtime_text (stderr_text result)))
      else mret (result, plan).

Definition json_exit_code (o : option Z) : Value :=
  match o with Some n => Value.Number (number_of_i64 n) | None => Value.Null end.
Definition system_action_envelope (system_action : SystemActionNode.t) (r : resolved_action)
    (working_directory : path) (result : SystemActionResult.t) (repair : Value)
    (timeout_ms max_output_bytes : Z) : Value :=
  json_envelope
    (json_obj
       [("actionType", Value.String (action_type_text (SystemActionNode.action_type system_action)));
        ("command", Value.String (action_command r)); ("args", json_strs (action_args r));
        ("workingDirectory", Value.String (path_display working_directory));
        ("exitCode", json_exit_code (SystemActionResult.exit_code result));
        ("timedOut", Value.Bool (SystemActionResult.timed_out result));
        ("stdout", Value.String (LimitedPipeOutput.text (SystemActionResult.stdout result)));
        ("stderr", Value.String (stderr_text result));
        ("stdoutTruncated",
           Value.Bool (LimitedPipeOutput.truncated (SystemActionResult.stdout result)));
        ("stderrTruncated",
           Value.Bool (LimitedPipeOutput.truncated (SystemActionResult.stderr result)));
        ("durationMs", json_u64 (SystemActionResult.duration_ms result))])
    (json_obj
       [("maxOutputBytes", json_u64 max_output_bytes);
        ("timeoutMs", json_u64 (bounded_system_timeout_ms timeout_ms)); ("selfHeal", repair);
        ("sandbox", json_opt (SystemActionResult.sandbox result))]).
(** From the resolved action to its outcome, once nobody needs to be asked. *)
Definition perform_system_action (system_action : SystemActionNode.t) (r : resolved_action)
    (workspace_root : path) (instance_id : str) (timeout_ms : Z) : io ActionNodeStep.t :=
  let run_workspace_root := path_join workspace_root (path_of_str instance_id) in
  working_directory ← resolve_system_working_directory run_workspace_root (action_directory r);
  let max_output_bytes :=
    clamp 1 SYSTEM_ACTION_MAX_OUTPUT_BYTES (SystemActionNode.max_output_bytes system_action) in
  result ← run_system_action system_action (action_command r) (action_args r) run_workspace_root
             working_directory (bounded_system_timeout_ms timeout_ms) max_output_bytes;
  if SystemActionResult.timed_out result
  then throw (WorkflowRuntimeError.node_timeout (SystemActionNode.id system_action)
                (SystemActionNode.label system_action) timeout_ms)
  else
    done ← (if system_action_succeeded result then mret (result, Value.Null)
            else
              healed ← attempt_system_action_self_heal system_action instance_id
                         (action_command r) (action_args r) run_workspace_root working_directory
                         result timeout_ms max_output_bytes;
              let '(repaired, plan) := healed in
              mret (repaired,
                    json_obj [("attempted", Value.Bool true);
                              ("originalExitCode", json_exit_code (SystemActionResult.exit_code result));
                              ("explanation", Value.String (plan_explanation plan));
                              ("command", Value.String (plan_command plan));
                              ("args", json_strs (plan_args plan))]));
    let '(result, repair) := done in
    mret (ActionNodeStep.Completed
            (outcome_output
               (system_action_envelope system_action r working_directory result repair timeout_ms
                  max_output_bytes) [lit "out"])).

Definition execute_system_action_node (system_action : SystemActionNode.t) (workspace_root : path)
    (input : option Value) memory (selected_edges : gset str) (latency_ms : Z)
    (resume : option ResumePermission.t) : run ActionNodeStep.t :=
  r ← run_res (resolve_action system_action memory);
  let timeout_ms := system_action_timeout_ms system_action in
  _ ← run_res (audit_system_action system_action (action_command r) (action_args r)
                 (action_directory r));
  if str_eqb (normalize_runtime_identifier (action_command r)) SYNC_KNOWLEDGE_VAULT_TOOL
  then
    arguments ← run_res (sync_knowledge_vault_arguments_from_system_action (action_args r)
                           (action_directory r));
    run_io (execute_sync_knowledge_vault_node (SystemActionNode.id system_action)
      (SystemActionNode.label system_action) arguments timeout_ms
      [(lit "actionType", json_str "system_action"); (lit "command", Value.String (action_command r));
       (lit "args", json_strs (action_args r));
       (lit "workingDirectory", json_opt (option_map Value.String (action_directory r)))])
  else
    paused ← system_action_approval_step system_action r timeout_ms input memory selected_edges
               latency_ms resume;
    match paused with
    | Some approval => mret (ActionNodeStep.Paused approval)
    | None =>
        instance ← the_instance;
        run_io (perform_system_action system_action r workspace_root
                  (ExecutionInstance.id instance) timeout_ms)
    end.
End Actions.
