(* ===== verification/WorkflowRequests.v ===== *)
(** * The stored form of a run's request ([workflow_runtime.rs])

    A run keeps its request as JSON in its row; the continuation after a pause and
    the retry of a scheduled run read it back.  This is the serde form of
    [RunWorkflowRequest] and its bindings. *)
From S2P Require Import Prelude.
From S2P Require Import RustStr.
From S2P Require Import RustHash.
From S2P Require Import JsonValue.
From S2P Require Import WorkflowIr.
From S2P Require Import TaskTools.
From S2P Require Import WorkflowRuntime.
From S2P Require Import SystemActions.
Local Open Scope Z_scope.

Section Serde.
Context {J : JsonLib} {H : HashOrder}.
Notation Fields := (list (str * Value)).

Definition str_field (key : string) (o : Fields) : option str :=
  obj_get (lit key) o ≫= JsonValue.as_str.
(** An [Option<String>] with [#[serde(default)]]. *)
Definition opt_str_field (key : string) (o : Fields) : option (option str) :=
  match obj_get (lit key) o with
  | None | Some Value.Null => Some None
  | Some v => option_map Some (JsonValue.as_str v)
  end.

(** ** Bindings: enums with the tag inside *)
Definition input_to_value (binding : InputBinding.t) : Value :=
  match binding with
  | InputBinding.Manual value => json_obj [("source", json_str "manual"); ("value", value)]
  | InputBinding.LocalFile path =>
      json_obj [("source", json_str "local_file"); ("path", Value.String path)]
  | InputBinding.Environment name =>
      json_obj [("source", json_str "environment"); ("name", Value.String name)]
  end.
Definition input_of_value (v : Value) : option InputBinding.t :=
  o ← as_object v;
  source ← str_field "source" o;
  if equals source "manual" then option_map InputBinding.Manual (obj_get (lit "value") o)
  else if equals source "local_file" then option_map InputBinding.LocalFile (str_field "path" o)
  else if equals source "environment" then option_map InputBinding.Environment (str_field "name" o)
  else None.
Definition output_to_value (binding : OutputBinding.t) : Value :=
  match binding with
  | OutputBinding.Ui => json_obj [("destination", json_str "ui")]
  | OutputBinding.LocalDirectory directory file_name =>
      json_obj [("destination", json_str "local_directory"); ("directory", Value.String directory);
                ("file_name", json_opt (option_map Value.String file_name))]
  end.
Definition output_of_value (v : Value) : option OutputBinding.t :=
  o ← as_object v;
  destination ← str_field "destination" o;
  if equals destination "ui" then Some OutputBinding.Ui
  else if equals destination "local_directory" then
    directory ← str_field "directory" o;
    file_name ← opt_str_field "file_name" o;
    Some (OutputBinding.LocalDirectory directory file_name)
  else None.

Definition preflight_text (mode : WorkflowPreflightMode.t) : str :=
  match mode with
  | WorkflowPreflightMode.Skipped => lit "skipped"
  | WorkflowPreflightMode.TaskflowAudit => lit "taskflow_audit"
  end.
Definition preflight_named (name : str) : option WorkflowPreflightMode.t :=
  if equals name "skipped" then Some WorkflowPreflightMode.Skipped
  else if equals name "taskflow_audit" then Some WorkflowPreflightMode.TaskflowAudit
  else None.
(** A variant without data is read from its name, or from an object with the
    name as its only key and [null] as the value. *)
Definition preflight_of_value (v : Value) : option WorkflowPreflightMode.t :=
  match v with
  | Value.String name => preflight_named name
  | Value.Object [(name, Value.Null)] => preflight_named name
  | _ => None
  end.

(** ** Maps of bindings *)
Definition map_to_value {X} (f : X -> Value) (m : gmap str X) : Value :=
  Value.Object (obj_from (map (fun kv => (kv.1, f kv.2)) (map_iter m))).
Fixpoint map_of_fields {X} (f : Value -> option X) (o : Fields) (m : gmap str X)
  : option (gmap str X) :=
  match o with
  | [] => Some m
  | (k, v) :: o => x ← f v; map_of_fields f o (<[k := x]> m)
  end.
(** [#[serde(default)]] *)
Definition map_field {X} (f : Value -> option X) (key : string) (o : Fields)
  : option (gmap str X) :=
  match obj_get (lit key) o with
  | None => Some ∅
  | Some v => fields ← as_object v; map_of_fields f fields ∅
  end.

(** ** The request *)
Definition request_to_value (request : RunWorkflowRequest.t) : Value :=
  json_obj
    [("workflowId", Value.String (RunWorkflowRequest.workflow_id request));
     ("workflowVersion",
        json_opt (option_map json_u64 (RunWorkflowRequest.workflow_version request)));
     ("preflightMode", Value.String (preflight_text (RunWorkflowRequest.preflight_mode request)));
     ("inputs", map_to_value input_to_value (RunWorkflowRequest.inputs request));
     ("outputs", map_to_value output_to_value (RunWorkflowRequest.outputs request))].
Definition as_u32 (v : Value) : option Z :=
  n ← as_u64 v; if n <=? u32_max then Some n else None.
Definition request_keys : list string :=
  ["workflowId"; "workflowVersion"; "preflightMode"; "inputs"; "outputs"].
Definition request_of_value (v : Value) : option RunWorkflowRequest.t :=
  o ← as_object v;
  if negb (forallb (fun kv => in_list kv.1 request_keys) o) then None
  else
    workflow_id ← str_field "workflowId" o;
    workflow_version ←
      match obj_get (lit "workflowVersion") o with
      | None | Some Value.Null => Some None
      | Some v => option_map Some (as_u32 v)
      end;
    preflight_mode ←
      match obj_get (lit "preflightMode") o with
      | None => Some WorkflowPreflightMode.Skipped
      | Some v => preflight_of_value v
      end;
    inputs ← map_field input_of_value "inputs" o;
    outputs ← map_field output_of_value "outputs" o;
    Some (RunWorkflowRequest.mk _ workflow_id workflow_version preflight_mode inputs outputs).
(** [serde_json::from_value(..).map_err(WorkflowRuntimeError::serialization)];
    the library's text for what is wrong is not modelled. *)
Definition read_request (v : Value) : res WorkflowRuntimeError.t RunWorkflowRequest.t :=
  ok_or (WorkflowRuntimeError.new "workflow_runtime_serialization_failed" json_error)
    (request_of_value v).
End Serde.
