(* ===== verification/WorkflowLoops.v ===== *)
(** * Loop nodes ([execute_loop_node] of [workflow_runtime.rs])

    A loop runs the nodes behind its [item] port once for each item, in the order
    of the workflow, with a memory of its own that the next item goes on from, and
    leaves the outputs of each body node as one array. *)
From S2P Require Import Prelude.
From S2P Require Import RustStr.
From S2P Require Import RustHash.
From S2P Require Import JsonValue.
From S2P Require Import WorkflowIr.
From S2P Require Import ToolSecurity.
From S2P Require Import TaskTools.
From S2P Require Import Program.
From S2P Require Import EffectJournal.
From S2P Require Import Templates.
From S2P Require Import WorkflowRuntime.
From S2P Require Import EmptyCollections.
From S2P Require Import WorkflowStore.
From S2P Require Import WorkflowEnv.
From S2P Require Import WorkflowApprovals.
From S2P Require Import WorkflowFiles.
From S2P Require Import WorkflowNodes.
From S2P Require Import SystemActions.
Local Open Scope Z_scope.

(** [str::lines]: the pieces between line feeds, without a carriage return at
    their end; nothing after the last line feed. *)
Definition without_final_cr (line : str) : str :=
  match rev line with 13 :: line' => rev line' | _ => line end.
Definition drop_empty_last (pieces : list str) : list str :=
  match rev pieces with [] :: pieces' => rev pieces' | _ => pieces end.
Definition lines (text : str) : list str :=
  map without_final_cr (drop_empty_last (split_char 10 text)).

(** The result of a loop, with the memory and the servers found ready. *)
Module LoopExecutionResult.
Record t `{J : JsonLib} : Type := mk {
  outcome : NodeOutcome.t;
  body_node_ids : gset str;
  execution_order : list str;
  memory : gmap str Value;
  ready : gset str;
}.
End LoopExecutionResult.

(** What has been gathered over the items: the order of execution and, per body
    node, its inputs, outputs, latency and tokens. *)
Module Aggregate.
Record t `{J : JsonLib} : Type := mk {
  execution_order : list str;
  inputs : gmap str (list Value);
  outputs : gmap str (list Value);
  latency : gmap str Z;
  prompt_tokens : gmap str Z;
  completion_tokens : gmap str Z;
  total_prompt_tokens : Z;
  total_completion_tokens : Z;
}.
Definition empty `{J : JsonLib} : t := mk _ [] ∅ ∅ ∅ ∅ ∅ 0 0.
End Aggregate.

(** The state within one item. *)
Module Iteration.
Record t `{J : JsonLib} : Type := mk {
  memory : gmap str Value;
  payloads : gmap str NodeExecutionPayload.t;
  selected : gset str;
  gathered : Aggregate.t;
  ready : gset str;
}.
End Iteration.

Section Items.
Context {J : JsonLib}.

(** The first entry of an object, as the recursion of [coerce_loop_items] and
    [resolves_to_empty_loop_array] need it. *)
Fixpoint coerce_loop_items (value : Value) : option (list Value) :=
  match value with
  | Value.Array items => Some items
  | Value.Object object =>
      let at_key (key : str) :=
        (fix find (o : list (str * Value)) : option (list Value) :=
           match o with
           | [] => None
           | (k, v) :: o => if str_eqb key k then coerce_loop_items v else find o
           end) object in
      match at_key (lit "data") with
      | Some items => Some items
      | None => at_key (lit "items")
      end
  | Value.String text =>
      Some (map Value.String (List.filter not_empty (map trim (lines text))))
  | Value.Null => Some []
  | value => Some [value]
  end.
Fixpoint resolves_to_empty_loop_array (value : Value) : bool :=
  match value with
  | Value.Array items => match items with [] => true | _ => false end
  | Value.Object object =>
      let at_key (key : str) :=
        (fix find (o : list (str * Value)) : option bool :=
           match o with
           | [] => None
           | (k, v) :: o => if str_eqb key k then Some (resolves_to_empty_loop_array v) else find o
           end) object in
      match at_key (lit "data") with
      | Some empty => empty
      | None => default false (at_key (lit "items"))
      end
  | _ => false
  end.
End Items.

Section Loops.
Context {J : JsonLib} {T : JsonText} {P : JsonPretty} {H : HashOrder} {D : Digest}.
Context {U : UnicodeTables} {Ho : Host} {W : RoutineScope} {A : WorkspaceAudit}.
Context {R : Type} (registry : gmap str (TaskToolRegistration.t R)).
Notation Memory := (gmap str Value).
Notation Edges := (gmap str (list WorkflowEdge.t)).
Notation Nodes := (gmap str WorkflowNode.t).
Implicit Types (memory : Memory) (outgoing incoming : Edges) (node_by_id : Nodes).

(** ** The body of a loop *)
Definition item_edges (loop_node : LoopNode.t) outgoing : list WorkflowEdge.t :=
  List.filter (fun edge => equals (WorkflowEdge.source_port edge) "item")
    (edges_at outgoing (LoopNode.id loop_node)).
Definition is_output (node : WorkflowNode.t) : bool :=
  match node with WorkflowNode.Output _ => true | _ => false end.
Definition body_successors outgoing (node_id : str) : list str :=
  map WorkflowEdge.target_node_id
    (List.filter (fun edge => negb (equals (WorkflowEdge.source_port edge) "done"))
       (edges_at outgoing node_id)).
(** One turn of [while let Some(node_id) = queue.pop_front()]. *)
Definition body_turn (loop_node : LoopNode.t) outgoing node_by_id (s : gset str * list str)
  : turn (gset str * list str) (res WorkflowRuntimeError.t (gset str)) :=
  let '(body, queue) := s in
  match queue with
  | [] => Break (Ok body)
  | node_id :: queue =>
      match node_by_id !! node_id with
      | None =>
          Break (Err (WorkflowRuntimeError.execution
                        (lit "Loop node " ++ LoopNode.id loop_node
                         ++ lit " points to unknown body node " ++ node_id ++ lit ".")))
      | Some node =>
          if is_output node || bool_decide (node_id ∈ body) then Continue (body, queue)
          else Continue ({[node_id]} ∪ body, queue ++ body_successors outgoing node_id)
      end
  end.
Definition loop_body_node_ids (loop_node : LoopNode.t) outgoing node_by_id
  : res WorkflowRuntimeError.t (gset str) :=
  match run_loop 64 (body_turn loop_node outgoing node_by_id)
          (∅, map WorkflowEdge.target_node_id (item_edges loop_node outgoing)) with
  | Break r => r
  | Continue _ => Panic
  end.

(** ** The kinds of node a body may hold *)
Definition with_ready (ready : gset str) (m : run ActionNodeStep.t)
  : run (gset str * ActionNodeStep.t) := step ← m; mret (ready, step).
Definition completed_io (m : io NodeOutcome.t) : run ActionNodeStep.t :=
  outcome ← run_io m; mret (ActionNodeStep.Completed outcome).
Definition instruction_for (compiled : CompiledWorkflow.t) (agent : AgentNode.t)
  : option CompiledInstruction.t := CompiledWorkflow.instructions compiled !! AgentNode.id agent.
Definition execute_loop_body_node_step (node : WorkflowNode.t) (compiled : CompiledWorkflow.t)
    (workspace_root : path) (input : option Value) memory (selected_edges : gset str)
    (has_ledger : bool) (ready : gset str) : run (gset str * ActionNodeStep.t) :=
  instance ← the_instance;
  let instance_id := ExecutionInstance.id instance in
  match node with
  | WorkflowNode.Agent agent =>
      with_ready ready (completed_io
        (execute_agent_with_timeout agent (instruction_for compiled agent) memory workspace_root
           instance_id))
  | WorkflowNode.Router router =>
      with_ready ready (completed_io (execute_router_with_timeout router input memory instance_id))
  | WorkflowNode.Conditional conditional =>
      with_ready ready (completed_io
        (execute_conditional_with_timeout conditional input memory instance_id))
  | WorkflowNode.McpTool mcp_tool =>
      execute_mcp_tool_node registry mcp_tool input memory selected_edges 0 has_ledger None None
        ready
  | WorkflowNode.SystemAction system_action =>
      with_ready ready
        (execute_system_action_node system_action workspace_root input memory selected_edges 0 None)
  | WorkflowNode.Input _ | WorkflowNode.Output _ | WorkflowNode.Permission _
  | WorkflowNode.Loop _ =>
      run_throw (WorkflowRuntimeError.execution
        (lit "Node " ++ WorkflowNode.id node ++ lit " cannot execute inside a loop body."))
  end.

(** ** One item *)
Definition entry_add (k : str) (n : Z) (m : gmap str Z) : gmap str Z :=
  <[k := wrapping_add_u64 (default 0 (m !! k)) n]> m.
Definition gather (node_id : str) (input : option Value) (outcome : NodeOutcome.t) (latency_ms : Z)
    (g : Aggregate.t) : Aggregate.t :=
  let prompt := NodeOutcome.prompt_tokens outcome in
  let completion := NodeOutcome.completion_tokens outcome in
  Aggregate.mk _ (Aggregate.execution_order g ++ [node_id])
    (entry_push node_id (json_opt input) (Aggregate.inputs g))
    (entry_push node_id (NodeOutcome.output outcome) (Aggregate.outputs g))
    (entry_add node_id latency_ms (Aggregate.latency g))
    (entry_add node_id prompt (Aggregate.prompt_tokens g))
    (entry_add node_id completion (Aggregate.completion_tokens g))
    (wrapping_add_u64 (Aggregate.total_prompt_tokens g) prompt)
    (wrapping_add_u64 (Aggregate.total_completion_tokens g) completion).
(** The keys under which the output of a node is found again. *)
Definition remember_output (node : WorkflowNode.t) (output : Value) memory : Memory :=
  let id := WorkflowNode.id node in
  <[shorthand_output id := output]> (<[canonical_output id := output]> memory).
Definition remember_agent_output (node : WorkflowNode.t) (output : Value) memory : Memory :=
  match node with
  | WorkflowNode.Agent agent => <[AgentNode.output_key agent := output]> memory
  | _ => memory
  end.
Definition body_memory (node : WorkflowNode.t) (output : Value) memory : Memory :=
  remember_agent_output node output
    (<[lit "workflow.output" := output]> (remember_output node output memory)).
Definition body_payload (node_id : str) (outcome : NodeOutcome.t) (latency_ms : Z)
    (g : Aggregate.t) : NodeExecutionPayload.t :=
  NodeExecutionPayload.mk _ ExecutionStatus.Completed
    (option_map Value.Array (Aggregate.inputs g !! node_id)) (Some (NodeOutcome.output outcome))
    None latency_ms (NodeOutcome.prompt_tokens outcome) (NodeOutcome.completion_tokens outcome).
Definition after_body_node (node : WorkflowNode.t) outgoing (input : option Value)
    (outcome : NodeOutcome.t) (latency_ms : Z) (ready : gset str) (it : Iteration.t)
  : Iteration.t :=
  let id := WorkflowNode.id node in
  let gathered := gather id input outcome latency_ms (Iteration.gathered it) in
  Iteration.mk _ (body_memory node (NodeOutcome.output outcome) (Iteration.memory it))
    (<[id := body_payload id outcome latency_ms gathered]> (Iteration.payloads it))
    (select_edges (edges_at outgoing id) (NodeOutcome.ports outcome) (Iteration.selected it))
    gathered ready.

Definition any_selected (incoming : Edges) (selected_edges : gset str) (node_id : str) : bool :=
  existsb (selects selected_edges) (edges_at incoming node_id).
Definition execute_body_node (compiled : CompiledWorkflow.t) (workspace_root : path)
    incoming outgoing node_by_id (step_index : Z) (has_ledger : bool) (it : Iteration.t)
    (body_node_id : str) : run Iteration.t :=
  node ← run_res (or_panic (node_by_id !! body_node_id));
  let id := WorkflowNode.id node in
  if negb (any_selected incoming (Iteration.selected it) id) then mret it
  else
    let input := incoming_payload id incoming (Iteration.selected it) (Iteration.payloads it) in
    _ ← progress id step_index (lit "running") (lit "Running loop body node.");
    done ← execute_loop_body_node_step node compiled workspace_root input (Iteration.memory it)
             (Iteration.selected it) has_ledger (Iteration.ready it);
    match done.2 with
    | ActionNodeStep.Completed outcome =>
        latency_ms ← run_io elapsed_ms;
        _ ← progress id step_index (lit "success") (lit "Loop body node completed.");
        mret (after_body_node node outgoing input outcome latency_ms done.1 it)
    | ActionNodeStep.Paused _ =>
        run_throw (WorkflowRuntimeError.execution
          (lit "Loop body node " ++ id
           ++ lit " requested approval. Place approval gates outside loop bodies."))
    end.

Definition item_envelope (loop_node : LoopNode.t) (index : nat) (item : Value) : Value :=
  json_envelope item
    (json_obj [("loopNodeId", Value.String (LoopNode.id loop_node));
               ("index", json_u64 (Z.of_nat index))]).
Definition item_memory (loop_node : LoopNode.t) (index : nat) (item : Value) memory : Memory :=
  let prefix := lit "loop." ++ LoopNode.id loop_node in
  <[prefix ++ lit ".index" := json_u64 (Z.of_nat index)]>
    (<[prefix ++ lit ".item" := item]>
      (<[lit "item" := item]> (<[LoopNode.item_variable loop_node := item]> memory))).
Definition running_payload (input : option Value) (output : Value) : NodeExecutionPayload.t :=
  NodeExecutionPayload.mk _ ExecutionStatus.Running input (Some output) None 0 0 0.
(** The memory and what is gathered go on to the next item; the payloads and the
    selected edges start again. *)
Definition execute_item (loop_node : LoopNode.t) (body_order : list str)
    (compiled : CompiledWorkflow.t) (workspace_root : path) incoming outgoing node_by_id
    (input : option Value) (selected_edges : gset str) (step_index : Z) (has_ledger : bool)
    (s : Memory * Aggregate.t * gset str) (indexed : nat * Value)
  : run (Memory * Aggregate.t * gset str) :=
  let '(memory, gathered, ready) := s in
  let '(index, item) := indexed in
  instance ← the_instance;
  let payloads :=
    <[LoopNode.id loop_node := running_payload input (item_envelope loop_node index item)]>
      (ExecutionInstance.node_payloads instance) in
  let selected :=
    foldl (fun acc edge => {[WorkflowEdge.id edge]} ∪ acc) selected_edges
      (item_edges loop_node outgoing) in
  it ← run_fold (execute_body_node compiled workspace_root incoming outgoing node_by_id step_index
                   has_ledger)
         (Iteration.mk _ (item_memory loop_node index item memory) payloads selected gathered ready)
         body_order;
  mret (Iteration.memory it, Iteration.gathered it, Iteration.ready it).

(** ** The result *)
Definition loop_envelope (loop_node : LoopNode.t) (items : list Value)
    (body_outputs : list (str * Value)) : Value :=
  json_envelope
    (json_obj [("itemCount", json_u64 (Z.of_nat (length items))); ("items", Value.Array items);
               ("bodyOutputs", Value.Object body_outputs)])
    (json_obj [("itemVariable", Value.String (LoopNode.item_variable loop_node))]).
Definition loop_outcome (loop_node : LoopNode.t) (items : list Value)
    (body_outputs : list (str * Value)) (prompt completion : Z) : NodeOutcome.t :=
  NodeOutcome.mk _ (loop_envelope loop_node items body_outputs) [lit "done"] prompt completion
    WorkflowCompletionKind.Result.
Definition remember_array (body_node_id : str) (output : Value) memory : Memory :=
  <[shorthand_output body_node_id := output]> (<[canonical_output body_node_id := output]> memory).

(** No item: every body node counts as completed with an empty array. *)
Definition empty_body_payload : NodeExecutionPayload.t :=
  NodeExecutionPayload.mk _ ExecutionStatus.Completed (Some (Value.Array []))
    (Some (Value.Array [])) None 0 0 0.
Definition record_empty_body (s : list (str * Value) * Memory) (body_node_id : str)
  : run (list (str * Value) * Memory) :=
  let '(body_outputs, memory) := s in
  _ ← modify (Instance.insert_payload body_node_id empty_body_payload);
  mret (obj_insert body_node_id (Value.Array []) body_outputs,
        remember_array body_node_id (Value.Array []) memory).

Definition evidence {X} (body_node_id : str) (what : string) (found : option X)
  : res WorkflowRuntimeError.t X :=
  ok_or (WorkflowRuntimeError.execution
           (lit "Loop body node " ++ body_node_id ++ lit " produced output without "
            ++ lit what ++ lit " evidence.")) found.
Definition record_body_outputs (g : Aggregate.t) (s : list (str * Value) * Memory)
    (body_node_id : str) : run (list (str * Value) * Memory) :=
  let '(body_outputs, memory) := s in
  match Aggregate.outputs g !! body_node_id with
  | None => mret s
  | Some outputs =>
      inputs ← run_res (evidence body_node_id "recorded input" (Aggregate.inputs g !! body_node_id));
      latency ← run_res (evidence body_node_id "latency" (Aggregate.latency g !! body_node_id));
      prompt ← run_res (evidence body_node_id "prompt-token"
                          (Aggregate.prompt_tokens g !! body_node_id));
      completion ← run_res (evidence body_node_id "completion-token"
                              (Aggregate.completion_tokens g !! body_node_id));
      let output := Value.Array outputs in
      _ ← modify (Instance.insert_payload body_node_id
                    (NodeExecutionPayload.mk _ ExecutionStatus.Completed
                       (Some (Value.Array inputs)) (Some output) None latency prompt completion));
      mret (obj_insert body_node_id output body_outputs,
            <[lit "workflow.output" := output]> (remember_array body_node_id output memory))
  end.

Definition execute_loop_node (loop_node : LoopNode.t) (order : list str)
    (compiled : CompiledWorkflow.t) (workspace_root : path) incoming outgoing node_by_id
    (input : option Value) memory (selected_edges : gset str) (step_index : Z) (has_ledger : bool)
    (ready : gset str) : run LoopExecutionResult.t :=
  items_value ← run_res (resolve_template (LoopNode.items_mapping loop_node) memory);
  items ← run_res (ok_or (WorkflowRuntimeError.execution
                            (lit "Loop node " ++ LoopNode.id loop_node
                             ++ lit " expected an array or newline-delimited string."))
                     (coerce_loop_items items_value));
  body_node_ids ← run_res (loop_body_node_ids loop_node outgoing node_by_id);
  if bool_decide (body_node_ids = ∅)
  then run_throw (WorkflowRuntimeError.execution
         (lit "Loop node " ++ LoopNode.id loop_node
          ++ lit " has no downstream body nodes on its item port."))
  else
    match items with
    | [] =>
        if negb (resolves_to_empty_loop_array items_value)
        then run_throw (WorkflowRuntimeError.execution
               (lit "Loop node " ++ LoopNode.id loop_node
                ++ lit " resolved zero items from a value that was not an empty array."))
        else
          done ← run_fold record_empty_body ([], memory) (set_iter body_node_ids);
          let '(body_outputs, memory) := done in
          mret (LoopExecutionResult.mk _ (loop_outcome loop_node [] body_outputs 0 0) body_node_ids
                  [] memory ready)
    | _ =>
        let body_order := List.filter (fun id => bool_decide (id ∈ body_node_ids)) order in
        done ← run_fold (execute_item loop_node body_order compiled workspace_root incoming
                           outgoing node_by_id input selected_edges step_index has_ledger)
                 (memory, Aggregate.empty, ready) (imap pair items);
        let '(memory, g, ready) := done in
        recorded ← run_fold (record_body_outputs g) ([], memory) (set_iter body_node_ids);
        let '(body_outputs, memory) := recorded in
        mret (LoopExecutionResult.mk _
                (loop_outcome loop_node items body_outputs (Aggregate.total_prompt_tokens g)
                   (Aggregate.total_completion_tokens g))
                body_node_ids (Aggregate.execution_order g) memory ready)
    end.
End Loops.
