(* ===== verification/WorkflowEngine.v ===== *)
(** * The workflow engine ([execute_workflow] of [workflow_runtime.rs])

    A run goes through the nodes of its workflow in topological order and
    executes those that a selected edge reaches, until a node pauses for a person,
    fails, ends the run with nothing to do, or no node is left.  After each step
    the instance is written to its row. *)
From S2P Require Import Prelude.
From S2P Require Import RustStr.
From S2P Require Import RustHash.
From S2P Require Import JsonValue.
From S2P Require Import P0Contracts.
From S2P Require Import WorkflowIr.
From S2P Require Import ToolSecurity.
From S2P Require Import TaskTools.
From S2P Require Import Program.
From S2P Require Import EffectJournal.
From S2P Require Import Templates.
From S2P Require Import WorkflowRuntime.
From S2P Require Import EmptyCollections.
From S2P Require Import WorkflowStore.
From S2P Require Import WorkflowEnv.
From S2P Require Import WorkflowApprovals.
From S2P Require Import WorkflowFiles.
From S2P Require Import WorkflowNodes.
From S2P Require Import SystemActions.
From S2P Require Import WorkflowRequests.
From S2P Require Import WorkflowLoops.
Local Open Scope Z_scope.

(** The mutable locals of [execute_workflow]. *)
Module Flow.
Record t `{J : JsonLib} : Type := mk {
  memory : gmap str Value;
  selected_edges : gset str;
  executed : list str;
  loop_managed : gset str;
  ready : gset str;
}.
Definition with_memory `{J : JsonLib} (v : gmap str Value) (s : t) : t :=
  mk _ v (selected_edges s) (executed s) (loop_managed s) (ready s).
Definition with_ready `{J : JsonLib} (v : gset str) (s : t) : t :=
  mk _ (memory s) (selected_edges s) (executed s) (loop_managed s) v.
End Flow.

(** What stays the same during a run. *)
Module Plan.
Record t `{J : JsonLib} : Type := mk {
  compiled : CompiledWorkflow.t;
  request : RunWorkflowRequest.t;
  workspace_root : path;
  order : list str;
  incoming : gmap str (list WorkflowEdge.t);
  outgoing : gmap str (list WorkflowEdge.t);
  node_by_id : gmap str WorkflowNode.t;
  has_ledger : bool;
  resume : option ResumePermission.t;
}.
End Plan.

Section Engine.
Context {J : JsonLib} {T : JsonText} {P : JsonPretty} {H : HashOrder} {D : Digest}.
Context {U : UnicodeTables} {Ho : Host} {W : RoutineScope} {A : WorkspaceAudit}.
Context {R : Type} (registry : gmap str (TaskToolRegistration.t R)).
Notation Memory := (gmap str Value).
Notation step_result := (res WorkflowRuntimeError.t ActionNodeStep.t).
Implicit Types (p : Plan.t) (s : Flow.t).

(** ** One node

    The outer result is the [?] of [execute_workflow] itself, the inner one the
    result of the node, which is recorded. *)
Definition recorded {X} s (m : run X) (f : X -> Flow.t * ActionNodeStep.t)
  : run (Flow.t * step_result) :=
  r ← run_attempt m;
  match r with
  | Ok x => let '(s, step) := f x in mret (s, Ok step)
  | Err e => mret (s, Err e)
  | Panic => run_res Panic
  end.
Definition step_of s (m : run ActionNodeStep.t) : run (Flow.t * step_result) :=
  recorded s m (fun step => (s, step)).

Definition input_node_step p s (input_node : InputNode.t) : run (Flow.t * step_result) :=
  let id := InputNode.id input_node in
  binding ← run_res (ok_or (error_input (lit "Input node " ++ id
                                         ++ lit " requires a per-run input binding."))
                       (RunWorkflowRequest.inputs (Plan.request p) !! id));
  envelope ← run_io (resolve_input binding);
  mret (Flow.with_memory
          (<[lit "workflow.input" := envelope]>
            (<[InputNode.output_key input_node := envelope]> (Flow.memory s))) s,
        Ok (ActionNodeStep.Completed (outcome_output envelope [lit "out"]))).

Definition after_loop s (r : LoopExecutionResult.t) : Flow.t * ActionNodeStep.t :=
  (Flow.mk _ (LoopExecutionResult.memory r) (Flow.selected_edges s)
     (Flow.executed s ++ LoopExecutionResult.execution_order r)
     (Flow.loop_managed s ∪ LoopExecutionResult.body_node_ids r) (LoopExecutionResult.ready r),
   ActionNodeStep.Completed (LoopExecutionResult.outcome r)).

Definition decision_envelope (permission : PermissionNode.t) (decision : PermissionDecision.t)
  : Value :=
  json_envelope
    (json_obj [("decision", Value.String (PermissionDecision.text decision));
               ("message", Value.String (PermissionNode.reason permission))])
    (Value.Object []).
Definition fails_when_denied (permission : PermissionNode.t) : bool :=
  match PermissionNode.on_denied permission with
  | PermissionDeniedBehavior.Fail => true
  | _ => false
  end.
(** A permission node on which the run resumes. *)
Definition resumed_permission (permission : PermissionNode.t) (decision : PermissionDecision.t)
  : step_result :=
  match decision with
  | PermissionDecision.Approve =>
      Ok (ActionNodeStep.Completed
            (outcome_output (decision_envelope permission decision) [lit "approved"]))
  | PermissionDecision.Reject =>
      if fails_when_denied permission
      then Err (error_permission_rejected (PermissionNode.reason permission))
      else Ok (ActionNodeStep.Completed
                 (outcome_output (decision_envelope permission decision) [lit "denied"]))
  end.
Definition permission_node_step p s (permission : PermissionNode.t) (input : option Value)
  : run (Flow.t * step_result) :=
  match resume_decision_for_node (PermissionNode.id permission) (Plan.resume p) with
  | Some decision => mret (s, resumed_permission permission decision)
  | None =>
      exact_effect ← run_res (exact_permission_effect_context registry permission (Plan.outgoing p)
                                (Plan.node_by_id p) (Flow.memory s));
      latency_ms ← run_io elapsed_ms;
      recorded s (pause_for_permission permission exact_effect input (Flow.memory s)
                    (Flow.selected_edges s) latency_ms)
        (fun approval => (s, ActionNodeStep.Paused approval))
  end.

Definition mcp_tool_step p s (mcp_tool : McpToolNode.t) (input : option Value)
    (payloads : gmap str NodeExecutionPayload.t) : run (Flow.t * step_result) :=
  let permission_node :=
    approved_permission_predecessor mcp_tool (Plan.incoming p) (Flow.selected_edges s)
      (Plan.node_by_id p) payloads in
  latency_ms ← run_io elapsed_ms;
  recorded s
    (execute_mcp_tool_node registry mcp_tool input (Flow.memory s) (Flow.selected_edges s)
       latency_ms (Plan.has_ledger p) (Plan.resume p) permission_node (Flow.ready s))
    (fun '(ready, step) => (Flow.with_ready ready s, step)).

Definition node_step p s (node : WorkflowNode.t) (step_index : Z) (input : option Value)
  : run (Flow.t * step_result) :=
  instance ← the_instance;
  let instance_id := ExecutionInstance.id instance in
  let memory := Flow.memory s in
  match node with
  | WorkflowNode.Input input_node => input_node_step p s input_node
  | WorkflowNode.Agent agent =>
      step_of s (completed_io
        (execute_agent_with_timeout agent (instruction_for (Plan.compiled p) agent) memory
           (Plan.workspace_root p) instance_id))
  | WorkflowNode.Router router =>
      step_of s (completed_io (execute_router_with_timeout router input memory instance_id))
  | WorkflowNode.Conditional conditional =>
      step_of s (completed_io
        (execute_conditional_with_timeout conditional input memory instance_id))
  | WorkflowNode.Loop loop_node =>
      recorded s
        (execute_loop_node registry loop_node (Plan.order p) (Plan.compiled p)
           (Plan.workspace_root p) (Plan.incoming p) (Plan.outgoing p) (Plan.node_by_id p) input
           memory (Flow.selected_edges s) step_index (Plan.has_ledger p) (Flow.ready s))
        (after_loop s)
  | WorkflowNode.McpTool mcp_tool =>
      mcp_tool_step p s mcp_tool input (ExecutionInstance.node_payloads instance)
  | WorkflowNode.SystemAction system_action =>
      latency_ms ← run_io elapsed_ms;
      step_of s
        (execute_system_action_node system_action (Plan.workspace_root p) input memory
           (Flow.selected_edges s) latency_ms (Plan.resume p))
  | WorkflowNode.Permission permission => permission_node_step p s permission input
  | WorkflowNode.Output output =>
      step_of s (completed_io
        (execute_output output
           (RunWorkflowRequest.outputs (Plan.request p) !! OutputNode.id output) memory instance_id
           (CompiledWorkflow.workflow_ir (Plan.compiled p))))
  end.

(** ** After a node *)
Definition error_value (error : WorkflowRuntimeError.t) : Value :=
  json_obj [("code", Value.String (WorkflowRuntimeError.code error));
            ("boundary", Value.String (WorkflowRuntimeError.boundary error));
            ("message", Value.String (WorkflowRuntimeError.message error))].
Definition failed_payload (input : option Value) (error : WorkflowRuntimeError.t) (latency_ms : Z)
  : NodeExecutionPayload.t :=
  NodeExecutionPayload.mk _ ExecutionStatus.Failed input None (Some (error_value error))
    latency_ms 0 0.
Definition completed_payload (input : option Value) (outcome : NodeOutcome.t) (latency_ms : Z)
  : NodeExecutionPayload.t :=
  NodeExecutionPayload.mk _ ExecutionStatus.Completed input (Some (NodeOutcome.output outcome)) None
    latency_ms (NodeOutcome.prompt_tokens outcome) (NodeOutcome.completion_tokens outcome).

Definition pause_run s (node_id : str) (step_index : Z) (approval : ApprovalRequest.t)
  : run ExecutionOutcome.t :=
  _ ← progress node_id step_index (lit "halted") (lit "Awaiting workflow approval.");
  _ ← checkpoint;
  mret (ExecutionOutcome.mk _ (Flow.executed s) (Some approval)).
Definition fail_run {X} (node_id : str) (step_index : Z) (input : option Value)
    (error : WorkflowRuntimeError.t) : run X :=
  latency_ms ← run_io elapsed_ms;
  _ ← modify (fun instance =>
        Instance.set_status ExecutionStatus.Failed
          (Instance.insert_payload node_id (failed_payload input error latency_ms) instance));
  now ← clock_now;
  _ ← modify (Instance.set_updated now);
  _ ← checkpoint;
  _ ← progress node_id step_index (lit "halted") (WorkflowRuntimeError.message error);
  run_throw error.

Definition is_completed_empty (outcome : NodeOutcome.t) : bool :=
  bool_decide (NodeOutcome.completion_kind outcome = WorkflowCompletionKind.EmptyCollection).
(** The memory, the edges and the output after a node completed; [empty] is what
    [legacy_unguarded_empty_completion] found. *)
Definition completed_memory (node : WorkflowNode.t) (outcome : NodeOutcome.t) (memory : Memory)
  : Memory :=
  remember_agent_output node (NodeOutcome.output outcome)
    (remember_output node (NodeOutcome.output outcome) memory).
Definition legacy_empty p (node_id : str) (outcome : NodeOutcome.t) (memory : Memory)
  : option LegacyEmptyCompletion.t :=
  if is_completed_empty outcome then None
  else legacy_unguarded_empty_completion (Plan.compiled p) node_id memory (Plan.incoming p)
         (Plan.outgoing p) (Plan.node_by_id p).
Definition ends_empty (outcome : NodeOutcome.t) (empty : option LegacyEmptyCompletion.t) : bool :=
  is_completed_empty outcome || bool_decide (is_Some empty).
Definition terminal_output (outcome : NodeOutcome.t) : Value :=
  if is_completed_empty outcome then NodeOutcome.output outcome else completed_empty_envelope.
Definition completed_flow p s (node : WorkflowNode.t) (outcome : NodeOutcome.t)
    (empty : option LegacyEmptyCompletion.t) : Flow.t :=
  let memory := completed_memory node outcome (Flow.memory s) in
  let id := WorkflowNode.id node in
  let terminal := ends_empty outcome empty in
  Flow.mk _
    (if terminal then <[lit "workflow.output" := terminal_output outcome]> memory
     else if is_output node then memory
     else <[lit "workflow.output" := NodeOutcome.output outcome]> memory)
    (if terminal then Flow.selected_edges s
     else select_edges (edges_at (Plan.outgoing p) id) (NodeOutcome.ports outcome)
            (Flow.selected_edges s))
    (Flow.executed s ++ [id]) (Flow.loop_managed s) (Flow.ready s).
Definition completed_output (node : WorkflowNode.t) (outcome : NodeOutcome.t)
    (empty : option LegacyEmptyCompletion.t) (before : option Value) : option Value :=
  if ends_empty outcome empty then Some (terminal_output outcome)
  else if is_output node then Some (NodeOutcome.output outcome)
  else before.
Definition completed_instance (node : WorkflowNode.t) (input : option Value)
    (outcome : NodeOutcome.t) (empty : option LegacyEmptyCompletion.t) (latency_ms : Z) s
    (instance : ExecutionInstance.t) : ExecutionInstance.t :=
  Instance.set_selected (Flow.selected_edges s)
    (Instance.set_memory (Flow.memory s)
      (Instance.set_output
        (completed_output node outcome empty (ExecutionInstance.output_payload instance))
        (Instance.insert_payload (WorkflowNode.id node) (completed_payload input outcome latency_ms)
          (Instance.add_tokens (NodeOutcome.prompt_tokens outcome)
            (NodeOutcome.completion_tokens outcome) instance)))).
Definition finished_instance (instance : ExecutionInstance.t) : ExecutionInstance.t :=
  Instance.set_active None (Instance.set_status ExecutionStatus.Completed instance).

Definition completed_message (empty : option LegacyEmptyCompletion.t) : str :=
  match empty with
  | None => lit "Workflow node completed."
  | Some e =>
      lit "Nothing matched: " ++ LegacyEmptyCompletion.collection_reference e ++ lit " is empty, so "
      ++ LegacyEmptyCompletion.reference e ++ lit " and downstream node "
      ++ LegacyEmptyCompletion.consumer_node_id e ++ lit " were skipped."
  end.
Definition complete_node p s (node : WorkflowNode.t) (step_index : Z) (input : option Value)
    (outcome : NodeOutcome.t) : run (Flow.t + ExecutionOutcome.t) :=
  let id := WorkflowNode.id node in
  let empty := legacy_empty p id outcome (completed_memory node outcome (Flow.memory s)) in
  let s := completed_flow p s node outcome empty in
  latency_ms ← run_io elapsed_ms;
  _ ← modify (completed_instance node input outcome empty latency_ms s);
  now ← clock_now;
  _ ← modify (Instance.set_updated now);
  _ ← (if ends_empty outcome empty
       then
         _ ← modify (fun instance =>
               Instance.set_error None (Instance.set_pause None (finished_instance instance)));
         finish_timing true
       else mret tt);
  _ ← checkpoint;
  _ ← progress id step_index (lit "success") (completed_message empty);
  mret (if ends_empty outcome empty then inr (ExecutionOutcome.mk _ (Flow.executed s) None)
        else inl s).

(** ** The loop over the nodes *)
Definition payload_completed (payloads : gmap str NodeExecutionPayload.t) (node_id : str) : bool :=
  match payloads !! node_id with
  | Some payload => bool_decide (NodeExecutionPayload.status payload = ExecutionStatus.Completed)
  | None => false
  end.
Definition is_input (node : WorkflowNode.t) : bool :=
  match node with WorkflowNode.Input _ => true | _ => false end.
Definition skips p s (node : WorkflowNode.t) (instance : ExecutionInstance.t) : bool :=
  let id := WorkflowNode.id node in
  bool_decide (id ∈ Flow.loop_managed s)
  || payload_completed (ExecutionInstance.node_payloads instance) id
  || negb (is_input node || any_selected (Plan.incoming p) (Flow.selected_edges s) id).
Definition run_node p s (indexed : nat * str) : run (Flow.t + ExecutionOutcome.t) :=
  let '(index, node_id) := indexed in
  let step_index := Z.of_nat index in
  node ← run_res (or_panic (Plan.node_by_id p !! node_id));
  let id := WorkflowNode.id node in
  instance ← the_instance;
  if skips p s node instance then mret (inl s)
  else
    _ ← modify (Instance.set_active (Some id));
    let input := incoming_payload id (Plan.incoming p) (Flow.selected_edges s)
                   (ExecutionInstance.node_payloads instance) in
    _ ← progress id step_index (lit "running") (lit "Running workflow node.");
    stepped ← node_step p s node step_index input;
    let '(s, result) := stepped in
    match result with
    | Ok (ActionNodeStep.Completed outcome) => complete_node p s node step_index input outcome
    | Ok (ActionNodeStep.Paused approval) =>
        outcome ← pause_run s id step_index approval; mret (inr outcome)
    | Err error => fail_run id step_index input error
    | Panic => run_res Panic
    end.

Definition finish_run s : run ExecutionOutcome.t :=
  instance ← the_instance;
  match ExecutionInstance.output_payload instance with
  | None =>
      run_throw (WorkflowRuntimeError.execution (lit "No reachable Output node completed."))
  | Some _ =>
      _ ← modify finished_instance;
      _ ← finish_timing true;
      mret (ExecutionOutcome.mk _ (Flow.executed s) None)
  end.
Definition start_run : run unit :=
  _ ← modify (Instance.set_status ExecutionStatus.Running);
  started ← clock_now;
  _ ← modify (fun instance =>
        Instance.set_times (ExecutionInstance.execution_latency_ms instance)
          (Some (default started (ExecutionInstance.started_at_ms instance)))
          (ExecutionInstance.updated_at_ms instance) (ExecutionInstance.completed_at_ms instance)
          instance);
  _ ← modify (Instance.set_pause None);
  now ← clock_now;
  _ ← modify (Instance.set_updated now);
  checkpoint.
Definition run_nodes p s : run ExecutionOutcome.t :=
  ended ← run_until (run_node p) s (imap pair (Plan.order p));
  match ended with
  | inl s => finish_run s
  | inr outcome => mret outcome
  end.

Definition ensure_workflow_sandbox_ready : io unit :=
  ready ← ask EnsureDefaultMcpSandboxDir;
  lift (map_err error_mcp_sandbox ready).
Definition fail_instance_before_execution (error : WorkflowRuntimeError.t) : run unit :=
  _ ← modify (fun instance =>
        Instance.set_error (Some (error_value error))
          (Instance.set_active None (Instance.set_status ExecutionStatus.Failed instance)));
  _ ← finish_timing true;
  checkpoint.

Definition plan_of (compiled : CompiledWorkflow.t) (request : RunWorkflowRequest.t)
    (workspace_root : path) (order : list str) (has_ledger : bool)
    (resume : option ResumePermission.t) : Plan.t :=
  let ir := CompiledWorkflow.workflow_ir compiled in
  Plan.mk _ compiled request workspace_root order (edges_by_target (WorkflowIr.edges ir))
    (edges_by_source (WorkflowIr.edges ir)) (node_by_id_map ir) has_ledger resume.
Definition execute_workflow (compiled : CompiledWorkflow.t) (request : RunWorkflowRequest.t)
    (workspace_root : path) (has_ledger : bool) (resume : option ResumePermission.t)
  : run ExecutionOutcome.t :=
  let ir := CompiledWorkflow.workflow_ir compiled in
  _ ← run_res (map_err error_invalid_ir (WorkflowIr.validate ir));
  order ← run_res (topological_sort ir);
  ready ← run_attempt (run_io ensure_workflow_sandbox_ready);
  match ready with
  | Err error =>
      _ ← fail_instance_before_execution error;
      run_throw error
  | Panic => run_res Panic
  | Ok _ =>
      instance ← the_instance;
      let s := Flow.mk _ (ExecutionInstance.memory instance)
                 (ExecutionInstance.selected_edges instance) [] ∅ ∅ in
      _ ← start_run;
      run_nodes (plan_of compiled request workspace_root order has_ledger resume) s
  end.

(** ** New instances *)
Definition instance_id (workflow_id : str) (version created_at_ms : Z) : io str :=
  sequence ← process_sequence;
  mret (lit "wfi-" ++ hex_encode (sha256 (as_bytes
          (workflow_id ++ lit ":" ++ show_nat version ++ lit ":" ++ show_int created_at_ms
           ++ lit ":" ++ show_nat sequence)))).
Definition new_instance (ir : WorkflowIr.t) (request : RunWorkflowRequest.t)
  : io ExecutionInstance.t :=
  created_at_ms ← unix_time_ms;
  let workflow_id := WorkflowIr.workflow_id ir in
  let version := WorkflowIr.workflow_version ir in
  id ← instance_id workflow_id version created_at_ms;
  mret (ExecutionInstance.mk _ id workflow_id version ExecutionStatus.Pending None
          (request_to_value request) None ∅ ∅ ∅ None None 0 0 0 0 created_at_ms None created_at_ms
          None).

(** ** The callers *)
Definition short_error_value (error : WorkflowRuntimeError.t) : Value :=
  json_obj [("code", Value.String (WorkflowRuntimeError.code error));
            ("message", Value.String (WorkflowRuntimeError.message error))].
Definition record_failure (error : WorkflowRuntimeError.t) : run unit :=
  _ ← modify (fun instance =>
        Instance.set_active None
          (Instance.set_error (Some (short_error_value error))
            (Instance.set_status ExecutionStatus.Failed instance)));
  finish_timing true.
(** Runs the workflow, records a failure when [fails] says so, writes the row and
    answers; [Err] is only what prevented the last write. *)
Definition run_and_record (compiled : CompiledWorkflow.t) (fails : ExecutionInstance.t -> bool)
    (m : run ExecutionOutcome.t) (instance : ExecutionInstance.t) : io RunWorkflowResponse.t :=
  let recorded : run (res WorkflowRuntimeError.t ExecutionOutcome.t) :=
    result ← run_attempt m;
    match result with
    | Panic => run_res Panic
    | Ok _ => _ ← checkpoint; mret result
    | Err error =>
        instance ← the_instance;
        _ ← (if fails instance then record_failure error else mret tt);
        _ ← checkpoint;
        mret result
    end in
  bind (fun '(instance, r) =>
    match r with
    | Ok (Ok outcome) =>
        Ret (Ok (run_workflow_response instance (ExecutionOutcome.execution_order outcome)
                   (ExecutionOutcome.approval_request outcome)))
    | Ok _ =>
        Ret (Ok (run_workflow_response instance
                   (recorded_execution_order (CompiledWorkflow.workflow_ir compiled) instance) None))
    | Err e => Ret (Err e)
    | Panic => Ret Panic
    end) (recorded instance).

Definition is_awaiting (instance : ExecutionInstance.t) : bool :=
  bool_decide (ExecutionInstance.status instance = ExecutionStatus.AwaitingApproval).

(** [ScheduledExecutionContext] *)
Record scheduled_context : Type := {
  context_schedule_id : str; context_project_id : str; context_project_root : path;
  context_scheduled_for_ms : option Z;
}.
Definition draw_id (k : id_kind) : io str :=
  bytes ← random_bytes; mret (P0Contracts.as_str (id_new k bytes)).
Definition insert_new_instance (instance : ExecutionInstance.t)
    (scheduled : option scheduled_context) : io unit :=
  task_id ← draw_id KTask;
  task_run_id ← draw_id KTaskRun;
  match scheduled with
  | Some context =>
      now ← unix_time_ms;
      db_op (insert_scheduled_execution_instance instance (context_project_id context)
               (context_schedule_id context) task_id task_run_id now)
  | None =>
      _ ← db_op (insert_direct_workflow_execution_instance instance task_id task_run_id);
      mret tt
  end.
Definition run_persisted_workflow (request : RunWorkflowRequest.t) (workspace_root : path)
    (scheduled : option scheduled_context) : io RunWorkflowResponse.t :=
  _ ← lift (validate_request request);
  compiled ← load_compiled_workflow (RunWorkflowRequest.workflow_id request)
               (RunWorkflowRequest.workflow_version request);
  instance ← new_instance (CompiledWorkflow.workflow_ir compiled) request;
  _ ← insert_new_instance instance scheduled;
  run_and_record compiled (fun instance => negb (is_awaiting instance))
    (execute_workflow compiled request workspace_root true None) instance.

Definition resolve_persisted_permission (request : ResolvePermissionRequest.t)
    (workspace_root : path) : io RunWorkflowResponse.t :=
  let instance_id := ResolvePermissionRequest.instance_id request in
  _ ← lift (validate_approval_request request);
  awaiting ← db_op (load_execution_instance instance_id);
  _ ← lift (verify_approval_token awaiting (ResolvePermissionRequest.approval_token request));
  now ← unix_time_ms;
  instance ← io_map_err (fun _ => error_approval_consumed)
               (sql (claim_execution_instance_for_approval instance_id now));
  run_request ← lift (read_request (ExecutionInstance.input_payload instance));
  compiled ← load_compiled_workflow (ExecutionInstance.workflow_id instance)
               (Some (ExecutionInstance.workflow_version instance));
  node_id ← lift (ok_or error_approval_state_invalid (ExecutionInstance.active_node_id instance));
  _ ← record_bound_mcp_approval registry request instance node_id;
  run_and_record compiled (fun _ => true)
    (execute_workflow compiled run_request workspace_root true
       (Some (ResumePermission.mk node_id (ResolvePermissionRequest.decision request)))) instance.
End Engine.
