(* ===== verification/WorkflowOrder.v ===== *)
(** * The order in which a run visits its nodes

    [topological_sort] of [workflow_runtime.rs] on a workflow the validator
    accepts, and the search for the body of a loop. *)
From S2P Require Import Prelude.
From S2P Require Import RustStr.
From S2P Require Import RustHash.
From S2P Require Import JsonValue.
From S2P Require Import Graph.
From S2P Require Import WorkflowIr.
From S2P Require Import WorkflowIrTheorems.
From S2P Require Import TaskTools.
From S2P Require Import EffectJournal.
From S2P Require Import WorkflowRuntime.
From S2P Require Import WorkflowLoops.
Local Open Scope Z_scope.

(** ** Sorting by distinct keys *)
Section Keys.
Context {A : Type}.
Implicit Types (x y : nat * A) (l : list (nat * A)).

Lemma insert_by_key_perm x l : insert_by_key x l ≡ₚ x :: l.
Proof.
  induction l as [|y l IH]; cbn [insert_by_key]; [done|]. case_match; [done|].
  rewrite IH. apply Permutation_swap.
Qed.
Lemma sort_by_key_perm l : sort_by_key l ≡ₚ l.
Proof.
  induction l as [|x l IH]; [done|].
  transitivity (x :: sort_by_key l); [apply insert_by_key_perm|by rewrite IH].
Qed.
Lemma insert_by_key_comm x y l :
  x.1 <> y.1 -> insert_by_key x (insert_by_key y l) = insert_by_key y (insert_by_key x l).
Proof.
  intros Hne. induction l as [|z l IH]; cbn [insert_by_key].
  - destruct (Nat.leb_spec x.1 y.1), (Nat.leb_spec y.1 x.1); done || lia.
  - destruct (Nat.leb_spec x.1 z.1) as [Hxz|Hxz], (Nat.leb_spec y.1 z.1) as [Hyz|Hyz];
      cbn [insert_by_key]; repeat match goal with
      | |- context [(?a <=? ?b)%nat] => destruct (Nat.leb_spec a b)
      end; try lia; try done; by rewrite IH.
Qed.
(** The order of what is sorted is lost when the keys differ. *)
Lemma sort_by_key_unique l l' : NoDup (map fst l) -> l ≡ₚ l' -> sort_by_key l = sort_by_key l'.
Proof.
  intros Hnd Hp. apply (foldr_permutation eq insert_by_key []); [|done].
  intros j1 x j2 y b Hj H1 H2. apply insert_by_key_comm. intros Heq. apply Hj.
  eapply NoDup_lookup; [exact Hnd|rewrite list_lookup_fmap, H1; done|].
  rewrite list_lookup_fmap, H2. cbn. by rewrite Heq.
Qed.
End Keys.

Section Order.
Context {J : JsonLib}.
Implicit Types (order : gmap str nat) (ids : list str) (edges : list WorkflowEdge.t).

Definition ordered order ids : Prop := forall id, id ∈ ids -> is_Some (order !! id).
Definition distinct_positions order : Prop :=
  forall id id' n, order !! id = Some n -> order !! id' = Some n -> id = id'.

Lemma keyed order ids :
  ordered order ids ->
  exists l, try_map (with_position order) ids = Ok l /\ map snd l = ids
            /\ Forall (fun x => order !! x.2 = Some x.1) l.
Proof.
  induction ids as [|id ids IH]; intros Ho; [by exists []|].
  destruct IH as (l & Hl & Hs & Hf); [intros ? ?; apply Ho; by right|].
  destruct (Ho id) as [n Hn]; [by left|]. exists ((n, id) :: l).
  cbn [try_map].
  assert (with_position order id = Ok (n, id)) as -> by (unfold with_position; by rewrite Hn).
  rewrite Hl. cbn. by split_and!; [|rewrite Hs|constructor].
Qed.
Lemma sort_by_order_perm order ids :
  ordered order ids -> exists ids', sort_by_order order ids = Ok ids' /\ ids' ≡ₚ ids.
Proof.
  intros Ho. destruct (keyed order ids Ho) as (l & Hl & Hs & _). unfold sort_by_order. rewrite Hl.
  eexists. split; [done|]. by rewrite sort_by_key_perm, Hs.
Qed.
Lemma sort_by_order_unique order ids ids' :
  ordered order ids -> NoDup ids -> distinct_positions order -> ids ≡ₚ ids' ->
  sort_by_order order ids = sort_by_order order ids'.
Proof.
  intros Ho Hnd Hd Hp. destruct (keyed order ids Ho) as (l & Hl & Hs & Hf).
  assert (ordered order ids') as Ho' by (intros id Hid; apply Ho; by rewrite Hp).
  destruct (keyed order ids' Ho') as (l' & Hl' & Hs' & Hf').
  unfold sort_by_order. rewrite Hl, Hl'. cbn. do 2 f_equal.
  assert (forall l0, Forall (fun x : nat * str => order !! x.2 = Some x.1) l0 ->
    l0 = map (fun id => (default 0%nat (order !! id), id)) (map snd l0)) as Hmap.
  { clear. intros l0 Hl0. induction Hl0 as [|[n id] l0 Hx _ IH]; [done|]. cbn in *.
    rewrite Hx. cbn. by rewrite <- IH. }
  apply sort_by_key_unique.
  - clear Hl Hl' Hs' Hf' l'. rewrite <- Hs in Hnd. clear Hs Hp Ho Ho'.
    induction Hf as [|[n id] l Hx Hf IH]; [constructor|]. cbn [map fst snd] in *.
    apply list.NoDup_cons in Hnd as [Hn Hnd]. constructor; [|by apply IH].
    intros ([m id'] & Hm & Hin)%list_elem_of_fmap. cbn in Hm. subst m. apply Hn.
    rewrite list.Forall_forall in Hf. specialize (Hf _ Hin). cbn in *.
    rewrite (Hd _ _ _ Hx Hf). by apply (list_elem_of_fmap_2 snd _ _ Hin).
  - rewrite (Hmap l), (Hmap l'), Hs, Hs' by done. by apply Permutation_map.
Qed.

Definition positions (nodes : list WorkflowNode.t) (k : nat) (order : gmap str nat) : gmap str nat :=
  snd (foldl (fun '(index, m) node => (S index, <[WorkflowNode.id node := index]> m)) (k, order) nodes).
Lemma positions_lookup (nodes : list WorkflowNode.t) k order id n :
  NoDup (map WorkflowNode.id nodes) -> (forall v, v ∈ map WorkflowNode.id nodes -> order !! v = None) ->
  positions nodes k order !! id = Some n <->
  order !! id = Some n \/ exists j, n = (k + j)%nat /\ map WorkflowNode.id nodes !! j = Some id.
Proof.
  revert k order. induction nodes as [|node nodes IH]; intros k order Hnd Hf; cbn [map].
  - cbn. naive_solver.
  - apply list.NoDup_cons in Hnd as [Hn Hnd].
    change (positions (node :: nodes) k order) with
      (positions nodes (S k) (<[WorkflowNode.id node := k]> order)). rewrite IH; [|done|].
    2: { intros v Hv. rewrite lookup_insert_ne by (by intros <-). apply Hf. by right. }
    rewrite lookup_insert_Some. assert (order !! WorkflowNode.id node = None) as H0 by (apply Hf; left).
    split.
    + intros [[[<- <-]|[_ ?]]|(j & -> & Hj)]; [right; by exists 0%nat; rewrite Nat.add_0_r|by left|].
      right. exists (S j). split; [lia|done].
    + intros [?|([|j] & -> & Hj)]; [left; right; split; [by intros <-; congruence|done]| |].
      * injection Hj as <-. left. left. split; [done|lia].
      * right. exists j. split; [lia|done].
Qed.
Lemma original_order_ok ir :
  NoDup (node_ids ir) ->
  ordered (original_order ir) (node_ids ir) /\ distinct_positions (original_order ir).
Proof.
  intros Hnd. unfold node_ids in *. change (original_order ir) with (positions (WorkflowIr.nodes ir) 0 ∅).
  assert (forall id n, positions (WorkflowIr.nodes ir) 0%nat (∅ : gmap str nat) !! id = Some n <->
    map WorkflowNode.id (WorkflowIr.nodes ir) !! n = Some id) as Hl.
  { intros id n. rewrite positions_lookup by (done || intros; apply lookup_empty).
    rewrite lookup_empty. split; [by intros [?|(j & -> & ?)]|intros ?; right; by exists n]. }
  split.
  - intros id [n Hn]%list_elem_of_lookup. exists n. by apply Hl.
  - intros id id' n H1%Hl H2%Hl. congruence.
Qed.

(** ** The loop *)
Lemma release_targets_spec edges (indegree : gmap str Z) ready :
  (forall t, t ∈ map WorkflowEdge.target_node_id edges -> indegree !! t <> None) ->
  release_targets edges indegree ready = Ok (relax indegree ready (map WorkflowEdge.target_node_id edges)).
Proof.
  revert indegree ready. induction edges as [|e l IH]; intros indegree ready Ht; [done|].
  cbn [release_targets map relax]. destruct (indegree !! _) as [d|] eqn:Hd; [|by edestruct Ht; [left|]].
  apply IH. intros t Hin. destruct (decide (WorkflowEdge.target_node_id e = t)) as [<-|];
    [by rewrite lookup_insert_eq|]. rewrite lookup_insert_ne by done. apply Ht. by right.
Qed.
Lemma sort_loop_spec fuel order outgoing nodes es sorted queue indegree :
  well_joined nodes (arrows es) ->
  (forall u, map WorkflowEdge.target_node_id (edges_at outgoing u) = succs (arrows es) u) ->
  (forall v, v ∈ nodes -> is_Some (order !! v)) ->
  sorting nodes (arrows es) sorted queue indegree -> (size nodes < length sorted + fuel)%nat ->
  exists sorted' indegree',
    sort_loop fuel order outgoing indegree queue sorted = Ok sorted'
    /\ sorting nodes (arrows es) sorted' [] indegree'.
Proof.
  intros Hj Hout Ho. revert sorted queue indegree.
  induction fuel as [|fuel IH]; intros sorted queue indegree Hs Hf.
  - pose proof (sorting_bound _ _ _ _ _ Hs). lia.
  - destruct queue as [|u queue]; cbn [sort_loop]; [by exists sorted, indegree|].
    destruct (sorting_step _ _ _ _ _ _ Hj Hs) as (ind' & new & Hrel & Hs' & Hperm).
    rewrite release_targets_spec, Hout, (Hrel []).
    2: { intros t. rewrite Hout. intros Ht%elem_of_succs.
         rewrite (so_degree _ _ _ _ _ Hs) by (by eapply Hj). done. }
    cbn [app mbind res_bind fst snd].
    destruct (sort_by_order_perm order new) as (new' & Hnew & Hp).
    { intros v Hv. apply Ho, (so_nodes _ _ _ _ _ Hs'). set_solver. }
    rewrite Hnew. apply IH; [apply Hperm; by rewrite Hp|]. rewrite length_app. simpl. lia.
Qed.
Lemma targets_by_source edges u :
  map WorkflowEdge.target_node_id (edges_at (edges_by_source edges) u) = succs (arrows edges) u.
Proof.
  unfold edges_at, edges_by_source. rewrite (entry_push_group _ (fun e => e)), lookup_empty, map_id.
  by rewrite succs_arrows.
Qed.
End Order.

(** ** The whole sort *)
Section Sort.
Context {J : JsonLib}.
Implicit Types (ir : WorkflowIr.t).

Lemma zero_degrees (nodes : list WorkflowNode.t) (m : gmap str Z) v :
  foldl (fun m node => <[WorkflowNode.id node := 0]> m) m nodes !! v
  = if decide (v ∈ map WorkflowNode.id nodes) then Some 0 else m !! v.
Proof.
  revert m. induction nodes as [|node nodes IH]; intros m; cbn [foldl map]; [done|]. rewrite IH.
  destruct (decide (v ∈ map WorkflowNode.id nodes)) as [Hv|Hv].
  - by rewrite decide_True by by right.
  - destruct (decide (WorkflowNode.id node = v)) as [<-|Hne].
    + by rewrite lookup_insert_eq, decide_True by by left.
    + rewrite lookup_insert_ne, decide_False by done || (intros [|]%elem_of_cons; congruence). done.
Qed.
Lemma zero_degrees_of ir :
  foldl (fun m node => <[WorkflowNode.id node := 0]> m) (∅ : gmap str Z) (WorkflowIr.nodes ir)
  = gset_to_gmap 0 (list_to_set (node_ids ir)).
Proof.
  apply map_eq. intros v. rewrite zero_degrees, lookup_empty. fold (node_ids ir).
  destruct (decide (v ∈ node_ids ir)) as [Hv|Hv]; symmetry.
  - apply lookup_gset_to_gmap_Some. by rewrite elem_of_list_to_set.
  - apply lookup_gset_to_gmap_None. by rewrite elem_of_list_to_set.
Qed.

Lemma joined ir : well_formed ir -> well_joined (list_to_set (node_ids ir) : gset str) (graph ir).
Proof.
  intros Hw u v Hs. rewrite !elem_of_list_to_set. by destruct (wf_joined _ Hw u v Hs) as (_ & ? & ?).
Qed.
Lemma topological_sort_spec {H : HashOrder} ir :
  well_formed ir ->
  exists order, topological_sort ir = Ok order /\ order ≡ₚ node_ids ir /\ in_order (graph ir) order.
Proof.
  intros Hw. pose proof (joined ir Hw) as Hj. destruct (original_order_ok ir (wf_ids _ Hw)) as [Ho _].
  pose proof (sorting_of_known (list_to_set (node_ids ir)) (WorkflowIr.edges ir) Hj) as Hs. cbv zeta in Hs.
  unfold topological_sort. cbv zeta. rewrite zero_degrees_of.
  set (indegree := foldl count_in _ _) in Hs. change (foldl _ (gset_to_gmap 0 _) _) with indegree.
  set (ready := map fst _) in *.
  assert (forall v : str, v ∈ (list_to_set (node_ids ir) : gset str) -> is_Some (original_order ir !! v))
    as Ho' by (intros v Hv%elem_of_list_to_set; by apply Ho).
  destruct (sort_by_order_perm (original_order ir) ready) as (ready' & Hr & Hp).
  { intros v Hv. by apply Ho', (so_nodes _ _ _ _ _ Hs). }
  rewrite Hr. cbn [mbind res_bind].
  destruct (sort_loop_spec (S (length (WorkflowIr.nodes ir) + length (WorkflowIr.edges ir)))
    (original_order ir) (edges_by_source (WorkflowIr.edges ir)) _ (WorkflowIr.edges ir) [] ready' indegree
    Hj (targets_by_source _) Ho') as (sorted & indegree' & Hl & Hs').
  { by eapply sorting_permuted. }
  { rewrite size_list_to_set by apply Hw. unfold node_ids. rewrite length_map. simpl. lia. }
  rewrite Hl. cbn [mbind res_bind].
  pose proof (proj2 (sorting_decides _ _ _ _ Hj Hs') (wf_acyclic _ Hw)) as Hlen.
  rewrite size_list_to_set in Hlen by apply Hw. unfold node_ids in Hlen. rewrite length_map in Hlen.
  rewrite Hlen, Nat.eqb_refl. exists sorted. split_and!; [done| |apply Hs'].
  apply NoDup_Permutation; [|apply Hw|].
  - pose proof (so_distinct _ _ _ _ _ Hs') as Hd. by rewrite app_nil_r in Hd.
  - intros v. split.
    + intros Hv. apply (elem_of_list_to_set (C := gset str)), (so_nodes _ _ _ _ _ Hs').
      by rewrite app_nil_r.
    + intros Hv. eapply acyclic_all_sorted; [exact Hj|apply Hw|exact Hs'|by apply elem_of_list_to_set].
Qed.
(** The hash map that holds the counters decides nothing. *)
Lemma topological_sort_unique (H H' : HashOrder) ir :
  well_formed ir -> @topological_sort J H ir = @topological_sort J H' ir.
Proof.
  intros Hw. destruct (original_order_ok ir (wf_ids _ Hw)) as [Ho Hd].
  pose proof (@sorting_of_known H (list_to_set (node_ids ir)) (WorkflowIr.edges ir) (joined ir Hw)) as Hs.
  cbv zeta in Hs. unfold topological_sort. cbv zeta. rewrite zero_degrees_of.
  set (indegree := foldl count_in _ _) in Hs. change (foldl _ (gset_to_gmap 0 _) _) with indegree.
  rewrite (sort_by_order_unique _ _ (map fst (List.filter (fun kv => kv.2 =? 0) (@map_iter H' Z indegree)))).
  - done.
  - intros v Hv. apply Ho. apply (elem_of_list_to_set (C := gset str)). by apply (so_nodes _ _ _ _ _ Hs).
  - apply (so_distinct _ _ _ _ _ Hs).
  - done.
  - apply Permutation_map. apply filter_perm. by rewrite !map_iter_perm.
Qed.

(** C26: A workflow the validator accepts is sorted: the sort ends with an order in
    which every node occurs once and after every node that has an edge to it, and the
    order is the same whatever the iteration order of the hash map that holds the
    counters. *)
Theorem accepted_workflows_are_sorted `{H : HashOrder} ir :
  WorkflowIr.validate ir = Ok tt ->
  exists order, topological_sort ir = Ok order
    /\ order ≡ₚ map WorkflowNode.id (WorkflowIr.nodes ir)
    /\ (forall e before after, e ∈ WorkflowIr.edges ir ->
          order = before ++ WorkflowEdge.target_node_id e :: after ->
          WorkflowEdge.source_node_id e ∈ before)
    /\ forall H', @topological_sort J H' ir = Ok order.
Proof.
  intros Hv%validate_iff. destruct (topological_sort_spec ir Hv) as (order & Ho & Hp & Hin).
  exists order. split_and!; [done|done| |].
  - intros e before after He Heq. eapply Hin; [exact Heq|]. apply step_arrows. by exists e.
  - intros H'. by rewrite (topological_sort_unique H' H).
Qed.
End Sort.

(** ** The body of a loop *)
Section Body.
Context {J : JsonLib}.
Implicit Types (loop : LoopNode.t) (ir : WorkflowIr.t).

(** The edges a loop body goes on by, and the nodes it may hold. *)
Definition inner_edges (edges : list WorkflowEdge.t) : list WorkflowEdge.t :=
  List.filter (fun e => negb (equals (WorkflowEdge.source_port e) "done")) edges.
Definition inner (nodes : gmap str WorkflowNode.t) (v : str) : Prop :=
  exists node, nodes !! v = Some node /\ WorkflowLoops.is_output node = false.
Definition item_targets loop (edges : list WorkflowEdge.t) : list str :=
  map WorkflowEdge.target_node_id (item_edges loop (edges_by_source edges)).

Lemma list_filter_filter {X} (p : X -> bool) (q : X -> Prop) `{forall x, Decision (q x)} l :
  List.filter p (filter q l) = filter q (List.filter p l).
Proof.
  induction l as [|x l IH]; [done|]. rewrite filter_cons. cbn [List.filter].
  destruct (decide (q x)) as [Hq|Hq], (p x) eqn:Hp; cbn [List.filter];
    rewrite ?Hp, ?filter_cons, ?decide_True, ?decide_False, ?IH by done; done.
Qed.
Lemma successors_inner edges u :
  body_successors (edges_by_source edges) u = succs (arrows (inner_edges edges)) u.
Proof.
  rewrite succs_arrows. unfold body_successors, inner_edges, edges_at, edges_by_source.
  rewrite (entry_push_group _ (fun e => e)), lookup_empty, map_id. cbn [default app].
  by rewrite list_filter_filter.
Qed.

Section Turns.
Context loop (edges : list WorkflowEdge.t) (nodes : gmap str WorkflowNode.t).
Context (Hknown : forall e, e ∈ edges -> is_Some (nodes !! WorkflowEdge.target_node_id e)).
Notation es := (arrows (inner_edges edges)).
Notation starts := (item_targets loop edges).

Definition going (s : gset str * list str) : Prop :=
  searching es (inner nodes) starts s.1 s.2 /\ forall v, v ∈ s.2 -> is_Some (nodes !! v).
Definition gone (r : res WorkflowRuntimeError.t (gset str)) : Prop :=
  exists body, r = Ok body /\ forall v, v ∈ body <-> reached es (inner nodes) starts v.

Lemma turn_ok s :
  going s ->
  match body_turn loop (edges_by_source edges) nodes s with
  | Continue s' => going s' /\ 0 <= Z.of_nat (work es s'.1 s'.2) < Z.of_nat (work es s.1 s.2)
  | Break r => gone r
  end.
Proof.
  destruct s as [body [|u queue]]; intros [Hs Hk]; cbn [fst snd] in *; cbn [body_turn].
  - exists body. split; [done|]. intros v. by apply searching_done.
  - destruct (Hk u) as [node Hu]; [by left|]. rewrite Hu.
    destruct (WorkflowLoops.is_output node) eqn:Ho; [|destruct (bool_decide_reflect (u ∈ body)) as [Hb|Hb]];
      cbn [orb].
    1, 2: split; [split; [apply (searching_skip _ _ _ _ (u :: queue) queue u Hs (fun v => elem_of_cons _ _ _))
                         |intros v Hv; apply Hk; by right]|unfold work; cbn; lia].
    + right. intros (n & Hn & Hn'). congruence.
    + by left.
    + rewrite successors_inner. split; [split|].
      * eapply searching_visit; [exact Hs|by left|by exists node|..].
        -- intros v [->|?]%elem_of_cons; [by left|right]. apply elem_of_app. by left.
        -- intros v [?|?]%elem_of_app; [left; by right|by right].
        -- intros v [Hv _]. apply elem_of_app. right. by apply elem_of_succs.
      * intros v [?|Hv]%elem_of_app; [apply Hk; by right|].
        apply elem_of_succs, step_arrows in Hv as (e & He & _ & <-). apply Hknown.
        apply list_elem_of_In, List.filter_In in He as [He _]. by apply list_elem_of_In.
      * pose proof (work_visit es body u Hb). unfold work in *. cbn [fst snd]. rewrite length_app. cbn [length]. lia.
Qed.
Lemma body_found :
  Z.of_nat (length edges) < 2 ^ 63 -> gone (loop_body_node_ids loop (edges_by_source edges) nodes).
Proof.
  intros Hlen. unfold loop_body_node_ids.
  destruct (run_loop_leaves (body_turn loop (edges_by_source edges) nodes)
    (fun s => Z.of_nat (work es s.1 s.2)) going gone turn_ok 64 (∅, starts)) as (r & Hr & Hq).
  - split; [apply searching_start|]. cbn [snd]. intros v (e & -> & He)%list_elem_of_fmap. apply Hknown.
    apply list_elem_of_In, List.filter_In in He as [He _]. apply list_elem_of_In in He.
    unfold edges_at, edges_by_source in He.
    rewrite (entry_push_group _ (fun e => e)), lookup_empty, map_id in He.
    by apply list_elem_of_filter in He as [_ He].
  - cbn [fst snd]. rewrite work_start. unfold arrows, inner_edges, item_targets, item_edges. rewrite !length_map.
    pose proof (List.filter_length_le (fun edge => equals (WorkflowEdge.source_port edge) "item")
      (edges_at (edges_by_source edges) (LoopNode.id loop))) as H1.
    pose proof (List.filter_length_le (fun e => negb (equals (WorkflowEdge.source_port e) "done")) edges) as H2.
    assert (length (edges_at (edges_by_source edges) (LoopNode.id loop)) <= length edges)%nat as H3.
    { unfold edges_at, edges_by_source. rewrite (entry_push_group _ (fun e => e)), lookup_empty, map_id.
      apply length_filter. }
    change (2 ^ Z.of_nat 64) with (2 * 2 ^ 63). lia.
  - unfold item_targets in Hr. by rewrite Hr.
Qed.
End Turns.

(** C30: The body of a loop in an accepted workflow is found, whatever its size: it is
    what the targets of the loop's item edges reach over edges that do not leave through
    a [done] port, without entering an output. *)
Theorem loop_body_is_what_it_reaches `{H : HashOrder} loop ir :
  WorkflowIr.validate ir = Ok tt -> Z.of_nat (length (WorkflowIr.edges ir)) < 2 ^ 63 ->
  exists body,
    loop_body_node_ids loop (edges_by_source (WorkflowIr.edges ir)) (node_by_id_map ir) = Ok body
    /\ forall v, v ∈ body <->
        exists first, first ∈ item_targets loop (WorkflowIr.edges ir)
          /\ inner (node_by_id_map ir) first
          /\ rtc (kept_step (arrows (inner_edges (WorkflowIr.edges ir))) (inner (node_by_id_map ir)))
               first v.
Proof.
  intros Hw%validate_iff Hlen. apply body_found; [|done]. intros e He.
  destruct (wf_joined _ Hw (WorkflowEdge.source_node_id e) (WorkflowEdge.target_node_id e)) as (_ & _ & Ht).
  { apply step_arrows. by exists e. }
  apply not_eq_None_Some. intros Hn%nodes_by_id_None. by apply Hn.
Qed.
End Body.

(** ** A workflow to apply them to *)
Import IntegerJson KeyOrder.
Definition joined_by (name source port target : string) : WorkflowEdge.t :=
  WorkflowEdge.mk (lit name) (lit source) (lit port) (lit target) None.
Definition each : LoopNode.t := LoopNode.mk (lit "each") (lit "each") (lit "{{given}}") (lit "item") None.
Definition looping : WorkflowIr.t :=
  WorkflowIr.mk _ WORKFLOW_IR_SCHEMA_VERSION (lit "wf") 1 (lit "wf") []
    (CompilerTarget.mk WORKFLOW_COMPILER_MODEL) None
    [WorkflowNode.Input (InputNode.mk _ (lit "in") (lit "in") (lit "given") Value.Null);
     WorkflowNode.Loop each;
     WorkflowNode.Agent (AgentNode.mk (lit "work") (lit "work") [] ∅ (lit "result") None);
     WorkflowNode.Output (OutputNode.mk _ (lit "out") (lit "out") (lit "done") Value.Null
                            WorkflowCompletionKind.Result)]
    [joined_by "e1" "in" "out" "each"; joined_by "e2" "each" "item" "work";
     joined_by "e3" "each" "done" "out"; joined_by "e4" "work" "out" "out"].

Lemma accepted_workflows_are_sorted_witness :
  exists order, topological_sort looping = Ok order
    /\ order ≡ₚ map WorkflowNode.id (WorkflowIr.nodes looping).
Proof.
  destruct (accepted_workflows_are_sorted looping) as (order & Ho & Hp & _);
    [vm_compute; reflexivity|].
  exact (ex_intro _ order (conj Ho Hp)).
Defined.
Lemma loop_body_is_what_it_reaches_witness :
  exists body,
    loop_body_node_ids each (edges_by_source (WorkflowIr.edges looping)) (node_by_id_map looping)
    = Ok body.
Proof.
  destruct (loop_body_is_what_it_reaches each looping) as (body & Hb & _);
    [vm_compute; reflexivity|vm_compute; reflexivity|].
  exact (ex_intro _ body Hb).
Defined.
