(* ===== verification/WorkflowSystem.v ===== *)
(** * Runs and decisions that share the database

    The two entry points of the engine as jobs of a [Program.system]: a new run,
    and the continuation of a paused one.  Any number of them run at once. *)
From S2P Require Import Prelude.
From S2P Require Import RustStr.
From S2P Require Import RustHash.
From S2P Require Import JsonValue.
From S2P Require Import WorkflowIr.
From S2P Require Import ToolSecurity.
From S2P Require Import TaskTools.
From S2P Require Import Program.
From S2P Require Import EffectJournal.
From S2P Require Import WorkflowRuntime.
From S2P Require Import WorkflowStore.
From S2P Require Import WorkflowEnv.
From S2P Require Import WorkflowApprovals.
From S2P Require Import WorkflowFiles.
From S2P Require Import WorkflowNodes.
From S2P Require Import WorkflowEngine.
Local Open Scope Z_scope.

Module Job.
Inductive t `{J : JsonLib} : Type :=
| Run (request : RunWorkflowRequest.t) (scheduled : option scheduled_context)
| Resolve (request : ResolvePermissionRequest.t).
End Job.

Section Jobs.
Context {J : JsonLib} {T : JsonText} {P : JsonPretty} {H : HashOrder} {D : Digest}.
Context {U : UnicodeTables} {Ho : Host} {W : RoutineScope} {A : WorkspaceAudit}.
Context {R : Type} (registry : gmap str (TaskToolRegistration.t R)).

Definition job_body (workspace_root : path) (job : Job.t) : io RunWorkflowResponse.t :=
  match job with
  | Job.Run request scheduled => run_persisted_workflow registry request workspace_root scheduled
  | Job.Resolve request => resolve_persisted_permission registry request workspace_root
  end.
End Jobs.

(** ** A world to run concrete workflows in

    Numbers are integers, SHA-256 is a polynomial hash, no tool is registered, no
    step is reviewed or audited, and every call to the outside answers plainly. *)
Module World.
Export IntegerJson.
Export PrefixText.
Export KeyOrder.
Export AsciiTables.

#[export] Instance digest : Digest := fun bytes =>
  let h := foldl (fun a b => (257 * a + b + 1) mod 2 ^ 127) 1 bytes in
  map (fun n => Z.shiftr h (8 * Z.of_nat n) mod 256) (seq 0 32).
#[export] Instance host : Host := {| home_dir := None; app_data_root := [lit "/"; lit "data"] |}.
#[export] Instance pretty : JsonPretty := PrefixText.text.(to_string).
#[export] Instance scope : RoutineScope := {|
  verify_reviewed_workflow_scope _ _ _ _ := mret false;
  reviewed_workflow_scope_required _ := mret false;
|}.
#[export] Instance audit : WorkspaceAudit := fun _ => Ok tt.
Definition registry : gmap str (TaskToolRegistration.t unit) := ∅.
Definition root : path := [lit "/"; lit "runs"].
Definition body : Job.t -> io RunWorkflowResponse.t := job_body registry root.

Definition plain_output : ModelOutput.t := ModelOutput.mk (lit "true") 1 1.
Definition plain_action : SystemActionResult.t :=
  SystemActionResult.mk _ (Some 0) false (LimitedPipeOutput.mk (lit "done") false)
    (LimitedPipeOutput.mk [] false) 5 None.
Definition env : Env := fun c =>
  match c return Reply c with
  | ExecuteAgent _ _ _ | ClassifyRoute _ _ _ | EvaluateCondition _ _ _
  | RepairSystemAction _ _ => Ok plain_output
  | EnsureMcpServerReady _ _ => Ok tt
  | PrepareMcpToolApprovalBinding _ _ _ _ => Ok None
  | ExecuteMcpTool _ | ExecuteSyncKnowledgeVault _ => Ok (Value.Object [])
  | RunSystemAction _ => Ok plain_action
  | JoinWorker _ _ => WorkerEnd.Received
  | EnsureDefaultMcpSandboxDir => Ok tt
  | ResolveInSandbox root directory => Ok (path_join root directory)
  | Canonicalize p => Ok p
  | Exists _ => true
  | IsFileWithLen _ => Ok (true, 1)
  | ReadFile _ => Ok (Some (lit "text"))
  | WriteFile _ _ | CreateDirAll _ => Ok tt
  | EnvironmentVariable _ => None
  | Progress _ _ _ _ _ => tt
  end.

(** What thread [n] is given next: statements succeed, the clock stands at
    [now], random bytes are [bytes]. *)
Section Pilot.
Context (now : Z) (bytes : list Z).

Definition next_input {X} (p : prog X) : option (input Env) :=
  match p with
  | Ret _ => None
  | Sql _ _ => Some Commit
  | Clock _ => Some (Tick now)
  | Entropy _ => Some (Bytes bytes)
  | Start _ _ => Some Go
  | Await _ _ => Some (Answer env)
  end.
Notation sys := (system Db Call Env Job.t (res WorkflowRuntimeError.t RunWorkflowResponse.t)).
(** At most [k] steps of thread [n]. *)
Fixpoint pilot (k n : nat) (s : sys) : list (move Env Job.t) * sys :=
  match k with
  | O => ([], s)
  | S k =>
      match threads s !! n with
      | Some (Some (j, p)) =>
          match next_input p with
          | Some i =>
              match play_move body s (Advance n i) with
              | Some s' => let '(ms, s'') := pilot k n s' in (Advance n i :: ms, s'')
              | None => ([], s)
              end
          | None => ([], s)
          end
      | _ => ([], s)
      end
  end.
End Pilot.
End World.
