(* ===== verification/WorkflowStored.v ===== *)
(** * What a run leaves in its row is what it is resumed with

    The stored request of [workflow_runtime.rs] read back, and a pause recovered
    from its row and answered with the token that was shown. *)
From S2P Require Import Prelude.
From S2P Require Import RustStr.
From S2P Require Import RustHash.
From S2P Require Import JsonValue.
From S2P Require Import P0Contracts.
From S2P Require Import WorkflowIr.
From S2P Require Import TaskTools.
From S2P Require Import Program.
From S2P Require Import EffectJournal.
From S2P Require Import EffectRefinement.
From S2P Require Import WorkflowRuntime.
From S2P Require Import WorkflowStore.
From S2P Require Import WorkflowEnv.
From S2P Require Import WorkflowApprovals.
From S2P Require Import WorkflowRequests.
From S2P Require Import WorkflowSystem.
Local Open Scope Z_scope.

(** Reads fields with literal names. *)
Ltac read_fields :=
  cbn [obj_from map foldl fst snd];
  repeat first
    [ rewrite obj_get_insert_eq
    | rewrite obj_get_insert_ne by (let E := fresh in intros E; vm_compute in E; discriminate E) ].

(** ** Objects made from maps *)
Section Fields.
Context {J : JsonLib} {H : HashOrder}.
Notation Fields := (list (str * Value)).
Implicit Types (o l : Fields).

Lemma obj_insert_fresh k v o : k ∉ map fst o -> obj_insert k v o ≡ₚ (k, v) :: o.
Proof.
  induction o as [|[k' v'] o IH]; cbn [map fst obj_insert]; [done|].
  intros [Hne Ho]%not_elem_of_cons. destruct (str_eqb k k') eqn:Hk; [by apply str_eqb_eq in Hk|].
  case_match; [done|]. rewrite IH by done. apply Permutation_swap.
Qed.
Lemma obj_from_perm_aux o l :
  NoDup (map fst l) -> (forall k, k ∈ map fst l -> k ∉ map fst o) ->
  foldl (fun o kv => obj_insert kv.1 kv.2 o) o l ≡ₚ l ++ o.
Proof.
  revert o. induction l as [|[k v] l IH]; intros o Hnd Hf; [done|]. cbn [map fst foldl snd] in *.
  apply list.NoDup_cons in Hnd as [Hk Hnd].
  assert (obj_insert k v o ≡ₚ (k, v) :: o) as Hp by (apply obj_insert_fresh, Hf; left).
  rewrite IH; [|done|].
  - rewrite Hp. by rewrite <- Permutation_middle.
  - intros k' Hk'. rewrite Hp. cbn [map fst]. apply not_elem_of_cons. split; [by intros ->|].
    apply Hf. by right.
Qed.
Lemma obj_from_perm l : NoDup (map fst l) -> obj_from l ≡ₚ l.
Proof.
  intros Hnd. unfold obj_from. rewrite obj_from_perm_aux; [by rewrite app_nil_r|done|].
  intros k _. apply not_elem_of_nil.
Qed.
Lemma obj_get_elem k v o : NoDup (map fst o) -> obj_get k o = Some v <-> (k, v) ∈ o.
Proof.
  induction o as [|[k' v'] o IH]; cbn [map fst obj_get]; [split; [done|by intros ?%elem_of_nil]|].
  intros [Hk Hnd]%list.NoDup_cons. rewrite elem_of_cons. destruct (str_eqb k k') eqn:E.
  - apply str_eqb_eq in E as ->. split; [intros [= ->]; by left|].
    intros [[= ->]|Hin]; [done|]. by apply (list_elem_of_fmap_2 fst) in Hin.
  - rewrite IH by done. split; [by right|]. intros [[= -> _]|?]; [by rewrite str_eqb_refl in E|done].
Qed.

Lemma map_of_fields_spec {X} (f : Value -> option X) o (m : gmap str X) :
  NoDup (map fst o) -> (forall k v, (k, v) ∈ o -> is_Some (f v)) ->
  exists m', map_of_fields f o m = Some m'
    /\ forall k, m' !! k = match obj_get k o with Some v => f v | None => m !! k end.
Proof.
  revert m. induction o as [|[k v] o IH]; intros m Hnd Hf; [by exists m|]. cbn [map fst map_of_fields] in *.
  apply list.NoDup_cons in Hnd as [Hk Hnd]. destruct (Hf k v) as [x Hx]; [left|]. rewrite Hx. cbn.
  destruct (IH (<[k := x]> m) Hnd) as (m' & Hm & Hl); [intros ? ? ?; eapply Hf; by right|].
  exists m'. split; [done|]. intros k'. rewrite Hl. cbn [obj_get].
  destruct (str_eqb k' k) eqn:E.
  - apply str_eqb_eq in E as ->. destruct (obj_get k o) as [v'|] eqn:Hg.
    + apply obj_get_elem in Hg; [|done]. by apply (list_elem_of_fmap_2 fst) in Hg.
    + by rewrite lookup_insert_eq.
  - case_match; [done|]. rewrite lookup_insert_ne; [done|]. intros ->. by rewrite str_eqb_refl in E.
Qed.
Lemma map_round_trip {X} (f : X -> Value) (g : Value -> option X) (m : gmap str X) :
  (forall x, g (f x) = Some x) ->
  exists o, map_to_value f m = Value.Object o /\ map_of_fields g o ∅ = Some m.
Proof.
  intros Hgf. eexists. split; [reflexivity|]. set (l := map _ _).
  assert (map fst l = map fst (map_iter m)) as Hkeys by (unfold l; by rewrite map_map).
  assert (NoDup (map fst l)) as Hnd by (rewrite Hkeys; apply NoDup_map_iter).
  assert (obj_from l ≡ₚ l) as Hp by by apply obj_from_perm.
  assert (NoDup (map fst (obj_from l))) as Hnd' by (by rewrite Hp).
  assert (forall k v, (k, v) ∈ obj_from l <-> exists x, m !! k = Some x /\ v = f x) as Hin.
  { intros k v. rewrite Hp. unfold l. rewrite list_elem_of_fmap. split.
    - intros ([k' x] & [= -> ->] & Hx%elem_of_map_iter). by exists x.
    - intros (x & Hx%elem_of_map_iter & ->). by exists (k, x). }
  destruct (map_of_fields_spec g (obj_from l) ∅ Hnd') as (m' & Hm & Hl).
  { intros k v (x & _ & ->)%Hin. by rewrite Hgf. }
  rewrite Hm. f_equal. apply map_eq. intros k. rewrite Hl, lookup_empty.
  destruct (obj_get k (obj_from l)) as [v|] eqn:Hg.
  - apply obj_get_elem, Hin in Hg as (x & -> & ->); done.
  - destruct (m !! k) as [x|] eqn:Hx; [|done].
    assert (obj_get k (obj_from l) = Some (f x)) as Hg' by (apply obj_get_elem; [done|]; apply Hin; eauto).
    congruence.
Qed.
End Fields.

(** ** The stored request *)
Section Requests.
Context {J : JsonLib} {H : HashOrder}.
(** What [serde_json] promises of a number made from a [u32]. *)
Context (Hnumber : forall n, 0 <= n <= u32_max -> as_u64_number (number_of_u64 n) = Some n).

Lemma input_round_trip b : input_of_value (input_to_value b) = Some b.
Proof.
  destruct b; unfold input_of_value, input_to_value, json_obj, str_field;
    cbn [as_object mbind option_bind]; by read_fields.
Qed.
Lemma output_round_trip b : output_of_value (output_to_value b) = Some b.
Proof.
  destruct b as [|directory [name|]]; unfold output_of_value, output_to_value, json_obj, str_field,
    opt_str_field; cbn [as_object mbind option_bind]; by read_fields.
Qed.
Lemma preflight_round_trip mode : preflight_of_value (Value.String (preflight_text mode)) = Some mode.
Proof. by destruct mode. Qed.

Lemma request_fields v1 v2 v3 v4 v5 :
  let o := obj_from [(lit "workflowId", v1); (lit "workflowVersion", v2); (lit "preflightMode", v3);
                     (lit "inputs", v4); (lit "outputs", v5)] in
  forallb (fun kv => in_list kv.1 request_keys) o = true
  /\ obj_get (lit "workflowId") o = Some v1 /\ obj_get (lit "workflowVersion") o = Some v2
  /\ obj_get (lit "preflightMode") o = Some v3 /\ obj_get (lit "inputs") o = Some v4
  /\ obj_get (lit "outputs") o = Some v5.
Proof. split_and!; vm_compute; reflexivity. Qed.
Lemma version_round_trip version field :
  (forall n, version = Some n -> 0 <= n <= u32_max) ->
  field = Some (json_opt (option_map json_u64 version)) ->
  match field with
  | None | Some Value.Null => Some None
  | Some v => option_map Some (as_u32 v)
  end = Some version.
Proof.
  intros Hv ->. destruct version as [n|]; [|done]. specialize (Hv n eq_refl). cbn.
  unfold as_u32. cbn. rewrite Hnumber by done. cbn. by destruct (Z.leb_spec n u32_max); [|lia].
Qed.

End Requests.

(** ** A pause *)
Section Pauses.
Context {J : JsonLib} {T : JsonText} {H : HashOrder} {D : Digest} {DL : DigestLaws}.

Lemma hex_not_space : forallb (fun c => negb (is_whitespace c)) (map hex_digit (seqZ 0 16)) = true.
Proof. by vm_compute. Qed.
Lemma hex_ascii : forallb is_ascii_char (map hex_digit (seqZ 0 16)) = true.
Proof. by vm_compute. Qed.
Lemma hex_text_all (p : char -> bool) bytes :
  forallb p (map hex_digit (seqZ 0 16)) = true -> Forall (fun b => 0 <= b < 256) bytes ->
  Forall (fun c => p c = true) (hex_encode bytes).
Proof.
  intros Hp Hb. rewrite forallb_forall in Hp.
  assert (forall d, 0 <= d < 16 -> p (hex_digit d) = true) as Hd.
  { intros d Hd. apply Hp, list_elem_of_In, list_elem_of_fmap_2, elem_of_seqZ. lia. }
  unfold hex_encode. induction Hb as [|b bytes Hb _ IH]; [constructor|]. cbn [flat_map hex_byte app].
  pose proof (Z.div_pos b 16). pose proof (Z.div_lt_upper_bound b 16 16).
  pose proof (Z.mod_pos_bound b 16). repeat constructor; try apply Hd; lia || done.
Qed.
Lemma hex_trim bytes : Forall (fun b => 0 <= b < 256) bytes -> trim (hex_encode bytes) = hex_encode bytes.
Proof.
  intros Hb. apply trim_id_all. eapply list.Forall_impl; [apply (hex_text_all _ _ hex_not_space Hb)|].
  intros c Hc. by apply negb_true_iff.
Qed.
Lemma hash_ascii token : as_bytes (hash_approval_token token) = hash_approval_token token.
Proof.
  apply as_bytes_ascii, forallb_forall. intros c Hc%list_elem_of_In.
  pose proof (hex_text_all _ _ hex_ascii
    (sha256_bytes (as_bytes (lit "workflow-approval-v1:") ++ as_bytes token))) as Hall.
  rewrite list.Forall_forall in Hall. by apply Hall.
Qed.
Lemma constant_time_eq_iff l r : constant_time_eq l r = true <-> l = r.
Proof.
  unfold constant_time_eq. destruct (Nat.eqb_spec (length l) (length r)) as [Hl|Hl]; cbn [negb];
    [|split; [done|by intros ->]].
  assert (forall d, foldl (fun d xy => Z.lor d (Z.lxor xy.1 xy.2)) d (zip l r) = 0 <-> d = 0 /\ l = r)
    as Hfold.
  { revert r Hl. induction l as [|x l IH]; intros [|y r] Hl d; try discriminate Hl;
      cbn [zip zip_with foldl fst snd].
    - naive_solver.
    - injection Hl as Hl. rewrite (IH r Hl), Z.lor_eq_0_iff, Z.lxor_eq_0_iff. split; [by intros [[-> ->] ->]|].
      intros [-> [= -> ->]]. done. }
  rewrite Z.eqb_eq, Hfold. tauto.
Qed.

(** What the row of a pause holds. *)
Record holds (context shown : Value) (token message : str) : Prop := {
  holds_hash : get (lit "approvalTokenHash") context = Some (Value.String (hash_approval_token token));
  holds_token : get (lit "approvalToken") context = Some (Value.String token);
  holds_message : get (lit "approvalMessage") context = Some (Value.String message);
  holds_context : get (lit "approvalContext") context = Some shown;
}.
Lemma merged_holds shown token message :
  holds (merge_approval_recovery shown (hash_approval_token token) token message) shown token message.
Proof. destruct shown; split; cbn [merge_approval_recovery get json_obj]; by read_fields. Qed.

Definition waiting_on (instance : ExecutionInstance.t) (approval : ApprovalRequest.t) : Prop :=
  approval_request_from_instance instance = Some approval
  /\ forall token, verify_approval_token instance token = Ok tt <->
       hash_approval_token token = hash_approval_token (ApprovalRequest.approval_token approval).
Lemma held_is_waiting instance node context shown token message :
  ExecutionInstance.status instance = ExecutionStatus.AwaitingApproval ->
  ExecutionInstance.pause_context instance = Some context ->
  ExecutionInstance.active_node_id instance = Some node ->
  holds context shown token message ->
  trim token = token -> token <> [] -> trim node = node -> node <> [] ->
  trim message = message -> message <> [] ->
  waiting_on instance (approval_request instance node message shown token).
Proof.
  intros Hs Hp Hn [Hh Ht Hm Hc] Htt Ht0 Hnt Hn0 Hmt Hm0. split.
  - unfold approval_request_from_instance. rewrite Hs, Hp, bool_decide_true by done.
    cbn [negb mbind option_bind]. rewrite Ht, Hm, Hn, Hc. cbn [mbind option_bind JsonValue.as_str].
    rewrite Htt, Hnt, Hmt. by destruct token, node, message.
  - intros t. unfold verify_approval_token. rewrite Hs, Hp, bool_decide_true by done.
    cbn [negb mbind option_bind]. rewrite Hh. cbn [mbind option_bind JsonValue.as_str].
    rewrite !hash_ascii. pose proof (constant_time_eq_iff (hash_approval_token token) (hash_approval_token t)).
    cbn [approval_request ApprovalRequest.approval_token]. destruct (constant_time_eq _ _); split; try done;
      naive_solver.
Qed.

(** The two functions that pause a run, with the node and the message they show. *)
Inductive pausing : str -> str -> run ApprovalRequest.t -> Prop :=
| pausing_action node message context input memory selected ms :
    pausing node message (pause_for_external_action node message context input memory selected ms)
| pausing_permission permission effect input memory selected ms :
    (forall v, effect = Some v -> exists o, v = Value.Object o) ->
    pausing (PermissionNode.id permission) (PermissionNode.reason permission)
      (pause_for_permission permission effect input memory selected ms).

Lemma permission_context permission effect input token :
  (forall v, effect = Some v -> exists o, v = Value.Object o) ->
  exists shown context,
    permission_pause_context permission effect input (hash_approval_token token) token = Ok (shown, context)
    /\ holds context shown token (PermissionNode.reason permission).
Proof.
  intros He. unfold permission_pause_context.
  set (shown := match effect with Some context => context | None => _ end).
  assert (exists o, shown = Value.Object o) as [o Ho].
  { unfold shown. destruct effect as [v|]; [by apply He|]. by eexists. }
  rewrite Ho. eexists _, _. split; [reflexivity|]. split; cbn [get]; by read_fields.
Qed.

End Pauses.

(** ** A request and a pause to apply them to *)
Import World.
#[export] Instance digest_laws : DigestLaws.
Proof.
  split.
  - intros bytes. unfold sha256, digest. by rewrite length_map, length_seq.
  - intros bytes. apply list.Forall_forall. intros b (n & -> & _)%list_elem_of_fmap.
    pose proof (Z.mod_pos_bound
      (Z.shiftr (foldl (fun a b => (257 * a + b + 1) mod 2 ^ 127) 1 bytes) (8 * Z.of_nat n)) 256). lia.
Qed.
Definition a_request : RunWorkflowRequest.t :=
  RunWorkflowRequest.mk _ (lit "wf") (Some 3) WorkflowPreflightMode.TaskflowAudit
    {[ lit "file" := InputBinding.LocalFile (lit "notes"); lit "given" := InputBinding.Manual Value.Null ]}
    {[ lit "out" := OutputBinding.LocalDirectory (lit "reports") None ]}.
Definition a_run : ExecutionInstance.t :=
  ExecutionInstance.mk _ (lit "wfi-1") (lit "wf") 3 ExecutionStatus.Running (Some (lit "send"))
    (request_to_value a_request) None ∅ ∅ ∅ None None 0 0 0 0 5 (Some 5) 5 None.

Lemma integer_numbers n : 0 <= n <= u32_max -> as_u64_number (number_of_u64 n) = Some n.
Proof.
  intros Hn. assert (in_u64 n = true) as Hin by (unfold in_u64, in_range, u64_max, u32_max in *; lia).
  cbn. by rewrite Hin.
Qed.
