(* ===== verification/WorkflowTraces.v ===== *)
(** * Two runs of the engine played step by step

    Concrete schedules of [WorkflowSystem]'s jobs that show what the code does
    where it does not do what it means to. *)
From S2P Require Import Prelude.
From S2P Require Import RustStr.
From S2P Require Import RustHash.
From S2P Require Import JsonValue.
From S2P Require Import WorkflowIr.
From S2P Require Import TaskTools.
From S2P Require Import Program.
From S2P Require Import WorkflowRuntime.
From S2P Require Import WorkflowStore.
From S2P Require Import WorkflowEnv.
From S2P Require Import WorkflowApprovals.
From S2P Require Import WorkflowEngine.
From S2P Require Import WorkflowSystem.
Import World.
Local Open Scope Z_scope.

Notation sys := (system Db Call Env Job.t (res WorkflowRuntimeError.t RunWorkflowResponse.t)).

(** ** Workflows *)
Definition edge (name source port target : string) : WorkflowEdge.t :=
  WorkflowEdge.mk (lit name) (lit source) (lit port) (lit target) None.
Definition gate (id : string) (kind : PermissionKind.t) : WorkflowNode.t :=
  WorkflowNode.Permission
    (PermissionNode.mk (lit id) (lit id) kind (lit "Go on?") PermissionDeniedBehavior.Fail).
Definition start : WorkflowNode.t :=
  WorkflowNode.Input (InputNode.mk _ (lit "in") (lit "in") (lit "given") Value.Null).
Definition finish : WorkflowNode.t :=
  WorkflowNode.Output (OutputNode.mk _ (lit "out") (lit "out") (lit "done") Value.Null
                         WorkflowCompletionKind.Result).
Definition workflow (nodes : list WorkflowNode.t) (edges : list WorkflowEdge.t) : WorkflowIr.t :=
  WorkflowIr.mk _ WORKFLOW_IR_SCHEMA_VERSION (lit "wf") 1 (lit "wf") [] (CompilerTarget.mk
    WORKFLOW_COMPILER_MODEL) None nodes edges.
Definition store (ir : WorkflowIr.t) : Db :=
  Db.mk _ {[ (lit "wf", 1) := WorkflowBlueprint.mk _ None BlueprintCompilationStatus.Compiled
                               (Some ir) true ]} [] ∅ ∅ [] [] ∅ ∅ ∅ [].
Definition request : RunWorkflowRequest.t :=
  RunWorkflowRequest.mk _ (lit "wf") (Some 1) WorkflowPreflightMode.Skipped
    {[ lit "in" := InputBinding.Manual Value.Null ]} ∅.

(** ** What a state says *)
Definition begin (ir : WorkflowIr.t) : sys := started_from (store ir).
Definition spawn (j : Job.t) (s : sys) : list (move Env Job.t) * sys :=
  ([Spawn j], default s (play_move body s (Spawn j))).
Definition then_play (m : list (move Env Job.t) * sys)
    (f : sys -> list (move Env Job.t) * sys) : list (move Env Job.t) * sys :=
  let '(ms, s) := m in let '(ms', s') := f s in (ms ++ ms', s').
Notation "m ▷ f" := (then_play m f) (at level 50, left associativity).
Definition the_run (s : sys) : option ExecutionInstance.t :=
  match map_to_list (Db.execution_instances (database s)) with
  | [(_, row)] => Some (ExecutionRecord.instance row)
  | _ => None
  end.
Definition token_of (s : sys) : option (str * str) :=
  instance ← the_run s;
  context ← ExecutionInstance.pause_context instance;
  token ← get (lit "approvalToken") context ≫= JsonValue.as_str;
  Some (ExecutionInstance.id instance, token).
Definition approval (pause : str * str) : ResolvePermissionRequest.t :=
  ResolvePermissionRequest.mk pause.1 pause.2 PermissionDecision.Approve.
(** The decisions a person has made. *)
Definition decisions (s : sys) : list ResolvePermissionRequest.t :=
  omap (fun e => match e with Spawned (Job.Resolve r) => Some r | _ => None end) (log s).

(** ** A token that decides the next pause

    Two answers to the first gate with the same token; one of them is read and
    verified, then the other one takes the run to the second gate, and only then
    the first one claims the run. *)
Definition two_gates : WorkflowIr.t :=
  workflow [start; gate "first" PermissionKind.Custom; gate "second" PermissionKind.Process; finish]
    [edge "e1" "in" "out" "first"; edge "e2" "first" "approved" "second";
     edge "e3" "second" "approved" "out"].
Definition at_first_gate : list (move Env Job.t) * sys :=
  spawn (Job.Run request None) (begin two_gates) ▷ pilot 1000 [1] 400 0.
Definition first_token : str * str := default ([], []) (token_of at_first_gate.2).
Definition at_second_gate : list (move Env Job.t) * sys :=
  at_first_gate ▷ spawn (Job.Resolve (approval first_token))
    ▷ spawn (Job.Resolve (approval first_token))
    ▷ pilot 2000 [2] 1 2 ▷ pilot 2000 [2] 400 1.
Definition at_the_end : list (move Env Job.t) * sys := at_second_gate ▷ pilot 3000 [3] 400 2.

Definition status_of (s : sys) : option (ExecutionStatus.t * option str) :=
  instance ← the_run s;
  Some (ExecutionInstance.status instance, ExecutionInstance.active_node_id instance).
(** The decision a node's output carries. *)
Definition decided (node : string) (s : sys) : option str :=
  instance ← the_run s;
  payload ← ExecutionInstance.node_payloads instance !! lit node;
  output ← NodeExecutionPayload.output payload;
  pointer ["data"; "decision"]%string output ≫= JsonValue.as_str.
Definition verdict (token : str * str) (s : sys) : option (res WorkflowRuntimeError.t unit) :=
  option_map (fun instance => verify_approval_token instance token.2) (the_run s).

(** ** An exact permission

    The gate stands before an e-mail draft, which is one of the effects the
    review of workflows insists on guarding this way. *)
Definition guarded_draft : WorkflowIr.t :=
  workflow [start; gate "gate" PermissionKind.McpTool;
            WorkflowNode.McpTool
              (McpToolNode.mk _ (lit "draft") (lit "draft") (lit "macos_applescript")
                 (lit "draft_system_email") (Value.Object []) None None None); finish]
    [edge "e1" "in" "out" "gate"; edge "e2" "gate" "approved" "draft";
     edge "e3" "draft" "out" "out"].
Definition at_the_gate : list (move Env Job.t) * sys :=
  spawn (Job.Run request None) (begin guarded_draft) ▷ pilot 1000 [1] 400 0.
Definition gate_token : str * str := default ([], []) (token_of at_the_gate.2).
Definition after_approval : list (move Env Job.t) * sys :=
  at_the_gate ▷ spawn (Job.Resolve (approval gate_token)) ▷ pilot 2000 [2] 400 1
    ▷ spawn (Job.Resolve (approval gate_token)) ▷ pilot 3000 [3] 400 2.
(** The error thread [n] has ended with. *)
Definition failed (n : nat) (s : sys) : option WorkflowRuntimeError.t :=
  match threads s !! n with Some (Some (_, Ret (Err e))) => Some e | _ => None end.

(** ** Played schedules are reachable *)
Definition follows (s : sys) (m : list (move Env Job.t) * sys) : Prop := play body m.1 s = Some m.2.

Lemma play_app ms ms' (s s1 : sys) :
  play body ms s = Some s1 -> play body (ms ++ ms') s = play body ms' s1.
Proof.
  revert s. induction ms as [|m ms IH]; intros s; cbn [play app]; [by intros [= ->]|].
  destruct (play_move body s m) as [s'|]; [apply IH|done].
Qed.
Lemma follows_pilot now bytes k n s : follows s (pilot now bytes k n s).
Proof.
  unfold follows. revert s. induction k as [|k IH]; intros s; [done|]. cbn [pilot].
  destruct (threads s !! n) as [[[j p]|]|]; [|done..].
  destruct (next_input now bytes p) as [i|]; [|done].
  destruct (play_move body s (Advance n i)) as [s'|] eqn:Hm; [|done]. specialize (IH s').
  destruct (pilot now bytes k n s') as [ms s'']. cbn [play fst snd] in *. by rewrite Hm.
Qed.
Lemma follows_spawn j s : follows s (spawn j s).
Proof. done. Qed.
Lemma follows_then s m f :
  follows s m -> (forall s', follows s' (f s')) -> follows s (m ▷ f).
Proof.
  unfold follows. destruct m as [ms s1]. cbn [fst snd]. intros Hm Hf. cbn [then_play].
  specialize (Hf s1). destruct (f s1) as [ms' s2]. cbn [fst snd] in *.
  by rewrite (play_app _ _ _ _ Hm).
Qed.
#[local] Hint Resolve follows_pilot follows_spawn follows_then : core.

Definition sealed (_ _ : Db) : Prop := False.
Lemma follows_steps s m : follows s m -> rtc (step body sealed) s m.2.
Proof. apply play_steps. Qed.

(** A decision is checked against the pause it answers by a separate read, and the claim
    that follows takes the run at whatever pause it then is. So one approval token can
    decide two pauses: here both answers carry the token of the first gate, the token is
    refused at the second gate, and yet the second gate ends up approved and the run
    completed. *)
Theorem a_token_can_decide_a_later_pause :
  exists s1 s2 token,
    reachable body sealed (store two_gates) s1 /\ rtc (step body sealed) s1 s2 /\
    status_of s1 = Some (ExecutionStatus.AwaitingApproval, Some (lit "second")) /\
    verdict token s1 = Some (Err error_approval_unauthorized) /\
    decisions s2 = [approval token; approval token] /\
    decided "second" s2 = Some (lit "approve") /\
    status_of s2 = Some (ExecutionStatus.Completed, None).
Proof.
  exists at_second_gate.2, at_the_end.2, first_token. split_and!.
  - apply follows_steps. unfold at_second_gate, at_first_gate. eauto 20.
  - unfold at_the_end. destruct at_second_gate as [ms s].
    pose proof (follows_pilot 3000 [3] 400 2 s) as Hp%follows_steps.
    cbn [then_play snd]. by destruct (pilot 3000 [3] 400 2 s).
  - vm_compute. reflexivity.
  - vm_compute. reflexivity.
  - vm_compute. reflexivity.
  - vm_compute. reflexivity.
  - vm_compute. reflexivity.
Qed.

(** A person who approves the gate in front of a reviewed effect gets an error: the
    approval is written to the ledger, but the tool it names is looked up under the
    gate's own identifier. The run has been claimed by then, stays [Running], and a
    second answer finds nothing to claim. *)
Theorem approving_an_exact_permission_strands_the_run :
  exists s,
    reachable body sealed (store guarded_draft) s /\
    status_of at_the_gate.2 = Some (ExecutionStatus.AwaitingApproval, Some (lit "gate")) /\
    decisions s = [approval gate_token; approval gate_token] /\
    failed 1 s = Some error_approval_state_invalid /\
    failed 2 s = Some error_approval_consumed /\
    status_of s = Some (ExecutionStatus.Running, Some (lit "gate")).
Proof.
  exists after_approval.2. split_and!.
  - apply follows_steps. unfold after_approval, at_the_gate. eauto 20.
  - vm_compute. reflexivity.
  - vm_compute. reflexivity.
  - vm_compute. reflexivity.
  - vm_compute. reflexivity.
  - vm_compute. reflexivity.
Qed.
