(* ===== verification/WorkflowSettled.v ===== *)
(** * Every answer is final

    What the two entry points of the engine answer, in any interleaving, is an
    instance that has ended or waits for a person, and the last statement of the
    run has written it to its row. *)
From S2P Require Import Prelude.
From S2P Require Import RustStr.
From S2P Require Import RustHash.
From S2P Require Import JsonValue.
From S2P Require Import P0Contracts.
From S2P Require Import WorkflowIr.
From S2P Require Import ToolSecurity.
From S2P Require Import TaskTools.
From S2P Require Import Program.
From S2P Require Import EffectJournal.
From S2P Require Import Templates.
From S2P Require Import WorkflowRuntime.
From S2P Require Import WorkflowStore.
From S2P Require Import WorkflowEnv.
From S2P Require Import WorkflowApprovals.
From S2P Require Import WorkflowFiles.
From S2P Require Import WorkflowNodes.
From S2P Require Import SystemActions.
From S2P Require Import WorkflowRequests.
From S2P Require Import WorkflowLoops.
From S2P Require Import WorkflowEngine.
From S2P Require Import WorkflowSystem.
From S2P Require Import WorkflowTraces.
Local Open Scope Z_scope.

(** ** What a program may give *)
Section Results.
Context {J : JsonLib}.

(** [results p Q]: whatever the statements, the clock and the outside give. *)
Fixpoint results {A} (p : prog A) (Q : A -> Prop) : Prop :=
  match p with
  | Ret a => Q a
  | Sql q k => forall r, results (k r) Q
  | Clock k => forall n, results (k n) Q
  | Entropy k => forall b, results (k b) Q
  | Start _ p => results p Q
  | Await _ k => forall env, results (k env) Q
  end.

Lemma results_all {A} (p : prog A) (Q : A -> Prop) : (forall a, Q a) -> results p Q.
Proof. intros HQ. induction p; simpl; naive_solver. Qed.
Lemma results_mono {A} (p : prog A) (Q Q' : A -> Prop) :
  (forall a, Q a -> Q' a) -> results p Q -> results p Q'.
Proof. intros HQ. induction p; simpl; naive_solver. Qed.
Lemma results_bind {A B} (f : A -> prog B) (p : prog A) Q :
  results p (fun a => results (f a) Q) -> results (bind f p) Q.
Proof. induction p; simpl; naive_solver. Qed.

(** ** Triples

    Partial correctness of a function that changes the instance: what holds of its
    value and of the instance when it returns [Ok]. *)
Notation Inst := ExecutionInstance.t.
Definition triple {A} (pre : Inst -> Prop) (m : run A) (post : A -> Inst -> Prop) : Prop :=
  forall i, pre i -> results (m i) (fun r => forall a, r.2 = Ok a -> post a r.1).
Definition anywhere (_ : Inst) : Prop := True.
Implicit Types (pre : Inst -> Prop).

Lemma triple_any {A} pre (m : run A) : triple pre m (fun _ _ => True).
Proof. intros i _. by apply results_all. Qed.
Lemma triple_conseq {A} pre pre' (m : run A) (post post' : A -> Inst -> Prop) :
  triple pre m post -> (forall i, pre' i -> pre i) -> (forall a i, post a i -> post' a i) ->
  triple pre' m post'.
Proof. intros Hm Hpre Hpost i Hi. eapply results_mono; [|by apply Hm, Hpre]. naive_solver. Qed.
Lemma triple_bind {A B} pre (m : run A) (f : A -> run B) (mid : A -> Inst -> Prop) post :
  triple pre m mid -> (forall a, triple (mid a) (f a) post) -> triple pre (m ≫= f) post.
Proof.
  intros Hm Hf i Hi. apply results_bind. eapply results_mono; [|by apply Hm].
  intros [i' [a|e|]] Ha; [by apply Hf, Ha|done..].
Qed.
(** What comes first does not matter. *)
Lemma triple_after {A B} pre (m : run A) (f : A -> run B) post :
  (forall a, triple anywhere (f a) post) -> triple pre (m ≫= f) post.
Proof. intros Hf. eapply triple_bind; [apply triple_any|]. intros a. eapply triple_conseq; [apply Hf|intros; exact I|intros ? ? Ha; exact Ha]. Qed.
Lemma triple_ret {A} pre (a : A) (post : A -> Inst -> Prop) :
  (forall i, pre i -> post a i) -> triple pre (mret a) post.
Proof. intros Hp i Hi b [= <-]. by apply Hp. Qed.
Lemma triple_res {A} pre (r : res WorkflowRuntimeError.t A) (post : A -> Inst -> Prop) :
  (forall a i, r = Ok a -> pre i -> post a i) -> triple pre (run_res r) post.
Proof. intros Hp i Hi b Hb. by apply Hp. Qed.
Lemma triple_throw {A} pre e (post : A -> Inst -> Prop) : triple pre (run_throw e) post.
Proof. by intros i Hi a [=]. Qed.
Lemma triple_modify pre f (post : unit -> Inst -> Prop) :
  (forall i, pre i -> post tt (f i)) -> triple pre (modify f) post.
Proof. intros Hp i Hi [] _. by apply Hp. Qed.
Lemma triple_the_instance pre : triple pre the_instance (fun a i => pre i /\ a = i).
Proof. by intros i Hi a [= <-]. Qed.
Lemma triple_io {A} pre (p : io A) (post : A -> Prop) :
  results p (fun r => forall a, r = Ok a -> post a) ->
  triple pre (run_io p) (fun a i => pre i /\ post a).
Proof. intros Hp i Hi. apply results_bind. eapply results_mono; [|exact Hp]. simpl. naive_solver. Qed.
Lemma triple_keeps_io {A} pre (p : io A) : triple pre (run_io p) (fun _ => pre).
Proof.
  eapply triple_conseq; [exact (triple_io pre p (fun _ => True) (results_all _ _ (fun _ _ _ => I)))|done|naive_solver].
Qed.
Lemma triple_keeps_progress pre id n st msg : triple pre (progress id n st msg) (fun _ => pre).
Proof. by intros i Hi env [] _. Qed.
Lemma triple_keeps_checkpoint pre : triple pre checkpoint (fun _ => pre).
Proof. intros i Hi. apply results_bind, results_all. by intros r a _. Qed.
Lemma triple_attempt {A} pre (m : run A) (post : A -> Inst -> Prop) :
  triple pre m post ->
  triple pre (run_attempt m) (fun r i => forall a, r = Ok a -> post a i).
Proof.
  intros Hm i Hi. apply results_bind. eapply results_mono; [|by apply Hm]. intros [i' r] Hr a [= <-].
  exact Hr.
Qed.
Lemma triple_until {A S B} pre (f : S -> A -> run (S + B)) s xs (post : B -> Inst -> Prop) :
  (forall s x, triple anywhere (f s x) (fun r i => forall b, r = inr b -> post b i)) ->
  triple pre (run_until f s xs) (fun r i => forall b, r = inr b -> post b i).
Proof.
  intros Hf. eapply (triple_conseq anywhere); [|intros; exact I|intros a i Ha; exact Ha].
  revert s. induction xs as [|x xs IH]; intros s; cbn [run_until];
    [by apply triple_ret; intros i _ b [=]|].
  eapply triple_bind; [apply Hf|]. intros [s'|b]; [eapply triple_conseq; [apply IH|intros; exact I|intros ? ? Ha; exact Ha]|].
  apply triple_ret. intros i Hb b' [= <-]. by apply Hb.
Qed.
End Results.

(** ** Pauses *)
Section Pauses.
Context {J : JsonLib} {T : JsonText} {P : JsonPretty} {H : HashOrder} {D : Digest}.
Context {U : UnicodeTables} {Ho : Host} {W : RoutineScope} {A : WorkspaceAudit}.
Context {R : Type} (registry : gmap str (TaskToolRegistration.t R)).

Definition awaits (i : ExecutionInstance.t) : Prop :=
  ExecutionInstance.status i = ExecutionStatus.AwaitingApproval.
Lemma triple_finish_timing (Q : ExecutionInstance.t -> Prop) b :
  (forall now i, Q i -> Q (Instance.finish_timing_at now b i)) ->
  triple Q (finish_timing b) (fun _ => Q).
Proof.
  intros HQ. eapply triple_bind; [apply triple_keeps_io|]. intros now. apply triple_modify. auto.
Qed.
Lemma pause_external_awaits n msg context input memory selected ms :
  triple anywhere (pause_for_external_action n msg context input memory selected ms)
    (fun _ => awaits).
Proof.
  apply triple_after. intros token. eapply triple_bind; [by apply (triple_modify _ _ (fun _ => awaits))|].
  intros []. eapply triple_bind; [by apply triple_finish_timing|].
  intros []. eapply triple_bind; [apply triple_the_instance|]. intros i. apply triple_ret. by intros j [Hj _].
Qed.
Lemma pause_permission_awaits permission effect input memory selected ms :
  triple anywhere (pause_for_permission permission effect input memory selected ms) (fun _ => awaits).
Proof.
  apply triple_after. intros token. apply triple_after. intros [context pause_context].
  eapply triple_bind; [by apply (triple_modify _ _ (fun _ => awaits))|].
  intros []. eapply triple_bind; [by apply triple_finish_timing|].
  intros []. eapply triple_bind; [apply triple_the_instance|]. intros i. apply triple_ret. by intros j [Hj _].
Qed.

(** A step that says it has paused has. *)
Definition pauses_truly (step : ActionNodeStep.t) (i : ExecutionInstance.t) : Prop :=
  forall approval, step = ActionNodeStep.Paused approval -> awaits i.
Definition completes (p : io ActionNodeStep.t) : Prop :=
  results p (fun r => forall step, r = Ok step -> exists outcome, step = ActionNodeStep.Completed outcome).
Lemma completes_bind {X} (p : io X) (f : X -> io ActionNodeStep.t) :
  (forall x, completes (f x)) -> completes (p ≫= f).
Proof. intros Hf. apply results_bind, results_all. by intros [x|e|]; [apply Hf|..]. Qed.
Lemma completes_ret outcome : completes (mret (ActionNodeStep.Completed outcome)).
Proof. intros step [= <-]. by eexists. Qed.
Lemma completes_throw e : completes (throw e).
Proof. by intros step [=]. Qed.
Lemma call_completes instance v ms approved : completes (call_mcp_tool instance v ms approved).
Proof. apply completes_bind. intros r. case_match; [apply completes_throw|apply completes_ret]. Qed.
Lemma vault_completes n label args ms meta :
  completes (execute_sync_knowledge_vault_node n label args ms meta).
Proof.
  unfold execute_sync_knowledge_vault_node. apply completes_bind. intros r.
  repeat case_match; first [apply completes_throw|apply completes_ret].
Qed.
Lemma perform_completes action r ws id ms : completes (perform_system_action action r ws id ms).
Proof.
  unfold perform_system_action. do 2 (apply completes_bind; intros ?).
  case_match; [apply completes_throw|]. apply completes_bind. intros [result repair]. apply completes_ret.
Qed.
Lemma triple_completes pre (p : io ActionNodeStep.t) :
  completes p -> triple pre (run_io p) pauses_truly.
Proof.
  intros Hp. eapply triple_conseq; [by apply triple_io with (post := fun step => exists o, step = ActionNodeStep.Completed o)|done|].
  by intros step i [_ [o ->]] approval.
Qed.

Lemma mcp_node_pauses tool input memory selected ms ledger resume pn ready :
  triple anywhere
    (execute_mcp_tool_node registry tool input memory selected ms ledger resume pn ready)
    (fun x => pauses_truly x.2).
Proof.
  unfold execute_mcp_tool_node. do 2 (apply triple_after; intros ?). case_match.
  { eapply triple_bind; [apply triple_completes, vault_completes|]. intros step. by apply triple_ret. }
  do 2 (apply triple_after; intros ?). case_match. case_match.
  { eapply triple_bind; [apply triple_completes, call_completes|]. intros step. by apply triple_ret. }
  apply triple_after. intros [].
  { eapply triple_bind; [apply triple_completes, call_completes|]. intros step. by apply triple_ret. }
  eapply triple_bind; [apply pause_external_awaits|]. intros approval. apply triple_ret.
  by intros i Hi ? _.
Qed.
Lemma system_node_pauses action ws input memory selected ms resume :
  triple anywhere (execute_system_action_node action ws input memory selected ms resume) pauses_truly.
Proof.
  unfold execute_system_action_node. do 2 (apply triple_after; intros ?). case_match.
  { apply triple_after. intros args. apply triple_completes, vault_completes. }
  eapply triple_bind with (mid := fun o i => is_Some o -> awaits i).
  - unfold system_action_approval_step. case_match; [apply triple_ret; by intros i _ []|].
    case_match; [case_match; [apply triple_ret; by intros i _ []|apply triple_throw]|].
    eapply triple_bind; [apply pause_external_awaits|]. intros approval. by apply triple_ret.
  - intros [approval|]; [apply triple_ret; intros i Hi ? _; by apply Hi|].
    apply triple_after. intros i. apply triple_completes, perform_completes.
Qed.

(** ** The run *)
Definition step_pauses (x : Flow.t * res WorkflowRuntimeError.t ActionNodeStep.t)
    (i : ExecutionInstance.t) : Prop :=
  forall step, x.2 = Ok step -> pauses_truly step i.
Lemma recorded_pauses {X} s (m : run X) (f : X -> Flow.t * ActionNodeStep.t) :
  triple anywhere m (fun x => pauses_truly (f x).2) -> triple anywhere (recorded s m f) step_pauses.
Proof.
  intros Hm. eapply triple_bind; [apply triple_attempt, Hm|]. intros [x|e|].
  - destruct (f x) as [s' step] eqn:Hx. apply triple_ret. intros i Hi step' [= <-].
    specialize (Hi x eq_refl). by rewrite Hx in Hi.
  - apply triple_ret. by intros i Hi step [=].
  - apply triple_res. by intros ? ? [=].
Qed.
Lemma completed_pauses (m : io NodeOutcome.t) :
  triple anywhere (completed_io m) pauses_truly.
Proof. apply triple_after. intros outcome. apply triple_ret. by intros i _ approval [=]. Qed.
Lemma node_step_pauses p s node index input :
  triple anywhere (node_step registry p s node index input) step_pauses.
Proof.
  unfold node_step. apply triple_after. intros instance.
  destruct node; try (apply recorded_pauses, completed_pauses).
  - unfold input_node_step. do 2 (apply triple_after; intros ?). apply triple_ret.
    by intros i _ step [= <-] approval.
  - apply recorded_pauses. eapply triple_conseq; [apply triple_any|done|]. by intros a i _ approval.
  - unfold permission_node_step. case_match.
    + apply triple_ret. intros i _ step Hs approval ->. unfold resumed_permission in Hs. cbn in Hs.
      by repeat case_match.
    + do 2 (apply triple_after; intros ?). apply recorded_pauses.
      eapply triple_conseq; [apply pause_permission_awaits|done|]. by intros a1 i Hi approval _.
  - unfold mcp_tool_step. apply triple_after. intros ms. apply recorded_pauses.
    eapply triple_conseq; [apply mcp_node_pauses|done|]. by intros [ready step] i Hi.
  - apply triple_after. intros ms. apply recorded_pauses, system_node_pauses.
Qed.

(** How a run that returns an outcome has ended. *)
Definition completed (i : ExecutionInstance.t) : Prop :=
  ExecutionInstance.status i = ExecutionStatus.Completed /\ is_Some (ExecutionInstance.output_payload i).
Definition ended (outcome : ExecutionOutcome.t) (i : ExecutionInstance.t) : Prop :=
  match ExecutionOutcome.approval_request outcome with Some _ => awaits i | None => completed i end.
Definition ended_early (r : Flow.t + ExecutionOutcome.t) (i : ExecutionInstance.t) : Prop :=
  forall outcome, r = inr outcome -> ended outcome i.

Lemma complete_node_ends p s node index input outcome :
  triple anywhere (complete_node p s node index input outcome) ended_early.
Proof.
  unfold complete_node. set (empty := legacy_empty _ _ _ _). apply triple_after. intros ms.
  destruct (ends_empty outcome empty) eqn:Hempty.
  2: { do 6 (apply triple_after; intros ?). apply triple_ret. by intros i _ o [=]. }
  eapply triple_bind with (mid := fun _ i => is_Some (ExecutionInstance.output_payload i)).
  { apply triple_modify. intros i _. cbn. unfold completed_output. by rewrite Hempty. }
  intros []. eapply triple_bind; [apply triple_keeps_io|]. intros now.
  eapply triple_bind; [by apply (triple_modify _ _ (fun _ i => is_Some (ExecutionInstance.output_payload i)))|].
  intros []. eapply triple_bind with (mid := fun _ => completed).
  { eapply triple_bind; [by apply (triple_modify _ _ (fun _ => completed))|]. intros [].
    by apply triple_finish_timing. }
  intros []. eapply triple_bind; [apply triple_keeps_checkpoint|]. intros [].
  eapply triple_bind; [apply triple_keeps_progress|]. intros []. apply triple_ret.
  by intros i Hi o [= <-].
Qed.
Lemma run_node_ends p s x : triple anywhere (run_node registry p s x) ended_early.
Proof.
  unfold run_node. destruct x as [index n]. do 2 (apply triple_after; intros ?).
  case_match; [apply triple_ret; by intros i _ o [=]|]. do 2 (apply triple_after; intros ?).
  eapply triple_bind; [apply node_step_pauses|]. intros [s' [[outcome|approval]|e|]]; cbn [fst snd].
  - eapply triple_conseq; [apply complete_node_ends|done|done].
  - eapply triple_bind with (mid := fun outcome i => ended outcome i).
    + eapply triple_conseq with (pre := awaits); [|intros i Hi; by apply (Hi _ eq_refl approval)|].
      * unfold pause_run. eapply triple_bind; [apply triple_keeps_progress|]. intros [].
        eapply triple_bind; [apply triple_keeps_checkpoint|]. intros [].
        apply (triple_ret _ _ (fun outcome => ended outcome)). done.
      * done.
    + intros outcome. apply triple_ret. by intros i Hi o [= <-].
  - unfold fail_run. do 6 (apply triple_after; intros ?). apply triple_throw.
  - apply triple_res. by intros ? ? [=].
Qed.
Lemma run_nodes_ends p s : triple anywhere (run_nodes registry p s) ended.
Proof.
  unfold run_nodes. eapply triple_bind; [apply triple_until, run_node_ends|]. intros [s'|outcome].
  - unfold finish_run. eapply triple_bind; [apply triple_the_instance|]. intros instance.
    destruct (ExecutionInstance.output_payload instance) eqn:Hout; [|apply triple_throw].
    eapply triple_bind with (mid := fun _ => completed).
    { apply triple_modify. intros i [_ <-]. split; [done|]. cbn. by rewrite Hout. }
    intros []. eapply triple_bind; [by apply triple_finish_timing|]. intros []. by apply triple_ret.
  - apply triple_ret. intros i Hi. by apply Hi.
Qed.
Lemma execute_ends compiled request ws ledger resume :
  triple anywhere (execute_workflow registry compiled request ws ledger resume) ended.
Proof.
  unfold execute_workflow. do 3 (apply triple_after; intros ?). case_match.
  - do 2 (apply triple_after; intros ?). apply run_nodes_ends.
  - apply triple_after. intros []. apply triple_throw.
  - apply triple_res. by intros ? ? [=].
Qed.
End Pauses.

(** ** What is written last

    The token of a thread is the database as its last statement left it. *)
Section Written.
Context {J : JsonLib} {T : JsonText} {P : JsonPretty} {H : HashOrder} {D : Digest}.
Context {U : UnicodeTables} {Ho : Host} {W : RoutineScope} {A : WorkspaceAudit}.
Context {R : Type} (registry : gmap str (TaskToolRegistration.t R)) (root : path).

Definition saw (_ t' _ db' : Db) : Prop := t' = db'.
Definition starts_nothing_new (t : Db) (_ : Call) (t' : Db) : Prop := t' = t.
Definition answers_nothing_new (t : Db) (_ : Call) (_ : Env) (t' : Db) : Prop := t' = t.
Notation wp := (wp saw starts_nothing_new answers_nothing_new).

Lemma wp_results {X} (p : prog X) (Q : X -> Prop) t : results p Q -> wp t p (fun _ a => Q a).
Proof.
  revert t. induction p as [a|X' q k IH|k IH|k IH|r p IH|c k IH]; intros t; simpl; [done| |eauto|eauto| |].
  - intros Hr. split; [auto|]. intros db. exists (q db).2. split; [done|auto].
  - intros Hr. exists t. split; [done|auto].
  - intros Hr env. exists t. split; [done|auto].
Qed.
(** Alone, the token is the database. *)
Lemma wp_solo {X} now bytes tool (p : prog X) (Q : Db -> X -> Prop) db :
  wp db p Q -> let '(a, db', _) := solo now bytes tool p db in Q db' a.
Proof.
  revert db. induction p as [a|X' q k IH|k IH|k IH|r p IH|c k IH]; intros db; simpl;
    [done| |intros Hk; by apply IH|intros Hk; by apply IH| |].
  - intros [_ Hc]. destruct (Hc db) as (t' & -> & Hk). destruct (q db) as [r db']. by apply IH.
  - intros (t' & -> & Hk). specialize (IH db Hk). by destruct (solo _ _ _ p db) as [[a db'] l].
  - intros Hk. destruct (Hk (tool c)) as (t' & -> & Hk'). specialize (IH (tool c) db Hk').
    by destruct (solo _ _ _ (k (tool c)) db) as [[a db'] l].
Qed.

(** The row of [i] holds what [i] says. *)
Definition written (db : Db) (i : ExecutionInstance.t) : Prop :=
  exists row old, Db.execution_instances db !! ExecutionInstance.id i = Some row
    /\ ExecutionRecord.instance row = updated_instance old i.
Definition settled (response : RunWorkflowResponse.t) : Prop :=
  let i := RunWorkflowResponse.instance response in
  match ExecutionInstance.status i with
  | ExecutionStatus.Completed =>
      is_Some (ExecutionInstance.output_payload i) /\ RunWorkflowResponse.approval_request response = None
  | ExecutionStatus.Failed =>
      is_Some (ExecutionInstance.error i) /\ RunWorkflowResponse.approval_request response = None
  | ExecutionStatus.AwaitingApproval => True
  | _ => False
  end.
Definition answered (db : Db) (r : res WorkflowRuntimeError.t RunWorkflowResponse.t) : Prop :=
  forall response, r = Ok response ->
    settled response /\ written db (RunWorkflowResponse.instance response).

Definition failed_with (i : ExecutionInstance.t) : Prop :=
  ExecutionInstance.status i = ExecutionStatus.Failed /\ is_Some (ExecutionInstance.error i).
Lemma record_failure_fails error : triple anywhere (record_failure error) (fun _ => failed_with).
Proof.
  eapply triple_bind; [by apply (triple_modify _ _ (fun _ => failed_with))|]. intros [].
  by apply triple_finish_timing.
Qed.
Lemma wp_checkpoint t i :
  wp t (checkpoint i) (fun t' r => r.1 = i /\ (r.2 = Ok tt -> written t' i)).
Proof.
  unfold checkpoint. apply wp_bind, wp_map_err, wp_sql; [done|]. intros db.
  exists (update_execution_instance i db).2. split; [done|]. cbn. split; [done|].
  unfold update_execution_instance. destruct (_ !! _) as [row|] eqn:Hrow; [|done].
  case_match; [|done]. intros _. eexists _, _. split; [apply lookup_insert_eq|reflexivity].
Qed.
Lemma wp_then_write {X} (m : run unit) (x : X) (Q : ExecutionInstance.t -> Prop) i t :
  triple (fun i' => i' = i) m (fun _ => Q) ->
  wp t ((_ ← m; _ ← checkpoint; mret x) i)
    (fun t' r => forall y, r.2 = Ok y -> y = x /\ Q r.1 /\ written t' r.1).
Proof.
  intros Hm. apply wp_bind. eapply wp_mono; [|exact (wp_results _ _ _ (Hm i eq_refl))].
  intros t1 [i1 [[]|e|]] Hi; [|done..]. specialize (Hi tt eq_refl). apply wp_bind.
  eapply wp_mono; [|apply wp_checkpoint]. intros t2 [i2 [[]|e|]] [Hi2 Hw]; [|done..].
  cbn in *. subst i2. intros y [= <-]. auto.
Qed.

Lemma answered_run compiled fails m instance t :
  triple anywhere m ended -> (forall i, fails i = false -> awaits i) ->
  wp t (run_and_record compiled fails m instance) answered.
Proof.
  intros Hm Hfails. unfold run_and_record. apply wp_bind, wp_bind.
  eapply wp_mono; [|exact (wp_results _ _ _ (triple_attempt _ _ _ Hm instance I))].
  intros t1 [i [[outcome|error|]|e|]] Hi; [| |done..]; cbn [fst snd].
  - specialize (Hi _ eq_refl outcome eq_refl). eapply wp_mono;
      [|exact (wp_then_write (mret tt) (Ok outcome) _ i t1 (triple_ret _ tt (fun _ i' => i' = i) (fun _ He => He)))].
    intros t2 [i2 [result|e|]] Hr; [|done..]. destruct (Hr _ eq_refl) as (-> & Hi2 & Hw). cbn in *. subst i2.
    intros response [= <-]. split; [|exact Hw]. unfold settled. cbn. unfold ended, awaits, completed in Hi.
    destruct (ExecutionOutcome.approval_request outcome); [by rewrite Hi|]. by destruct Hi as [-> ?].
  - assert (triple (fun i' => i' = i) (if fails i then record_failure error else mret tt)
      (fun _ i' => failed_with i' \/ awaits i')) as Hrec.
    { destruct (fails i) eqn:Hf.
      - eapply triple_conseq; [apply record_failure_fails|done|by left].
      - apply triple_ret. intros i' ->. right. by apply Hfails. }
    eapply wp_mono; [|exact (wp_then_write _ (Err error) _ i t1 Hrec)].
    intros t2 [i2 [result|e|]] Hr; [|done..]. destruct (Hr _ eq_refl) as (-> & Hi2 & Hw). cbn in *.
    intros response [= <-]. split; [|exact Hw]. unfold settled, failed_with, awaits in *. cbn.
    by destruct Hi2 as [[-> ?]| ->].
Qed.

Lemma wp_after {E X} (p : Program.io Db Call Env E X) (f : X -> io RunWorkflowResponse.t)
    (g : E -> WorkflowRuntimeError.t) t :
  (forall x t, wp t (f x) answered) -> wp t (io_map_err g p ≫= f) answered.
Proof.
  intros Hf. apply wp_bind. eapply wp_mono; [|by apply wp_results, results_all with (Q := fun _ => True)].
  intros t' [x|e|] _; [apply Hf|done..].
Qed.
Lemma wp_then {X} (p : io X) (f : X -> io RunWorkflowResponse.t) t :
  (forall x t, wp t (f x) answered) -> wp t (p ≫= f) answered.
Proof.
  intros Hf. apply wp_bind. eapply wp_mono; [|by apply wp_results, results_all with (Q := fun _ => True)].
  intros t' [x|e|] _; [apply Hf|done..].
Qed.
Lemma job_answers job t : wp t (job_body registry root job) answered.
Proof.
  destruct job as [request scheduled|request]; cbn [job_body].
  - unfold run_persisted_workflow. do 4 (apply wp_then; intros ? ?).
    apply answered_run; [apply execute_ends|]. intros i Hi%negb_false_iff. by apply bool_decide_eq_true in Hi.
  - unfold resolve_persisted_permission. do 9 (apply wp_then; intros ? ?).
    apply answered_run; [apply execute_ends|done].
Qed.

Notation event := (event Call Env Job.t (res WorkflowRuntimeError.t RunWorkflowResponse.t)).
Definition all_settled (_ : Db) (_ : list (option Db)) (l : list event) : Prop :=
  forall job response, Returned job (Ok response) ∈ l -> settled response.
#[export] Instance settled_sound outside db :
  Sound outside (fun _ : Job.t => db) saw starts_nothing_new answers_nothing_new
    (fun _ t r => answered t r) all_settled.
Proof.
  assert (forall l x, all_settled db [] l ->
    (forall job response, x = Returned job (Ok response) -> settled response) ->
    all_settled db [] (l ++ [x])) as Happ.
  { intros l x Hl Hx job response [Hin|Hin%list_elem_of_singleton]%elem_of_app; [by eapply Hl|by eapply Hx]. }
  split.
  - intros db1 ts l job Hl. by apply Happ.
  - done.
  - intros db1 ts l n t t' c Hl _ _. by apply Happ.
  - intros db1 ts l n t t' c a Hl _ _. by apply Happ.
  - intros db1 ts l n t job r Hl _ Hr. apply Happ; [exact Hl|].
    intros job' response [= _ ->]. by destruct (Hr response eq_refl).
  - done.
  - done.
Qed.

Lemma reachable_settled outside db s :
  reachable (job_body registry root) outside db s ->
  forall job response, Returned job (Ok response) ∈ log s -> settled response.
Proof.
  intros Hr.
  destruct (protocol _ outside (fun _ => db) saw starts_nothing_new answers_nothing_new
    (fun _ t r => answered t r) all_settled db s (fun job => job_answers job db)) as [ts Hs];
    [by intros j r ?%not_elem_of_nil|done|exact Hs].
Qed.

(** C14: Every answer is final. Whatever else runs on the database, a run or a decision
    that answers [Ok] answers with an instance that is completed and has an output, has
    failed and says with what error, or waits for a person; only a waiting one comes
    with a request for approval. It is never [Pending], [Running] or [Paused]. *)
Theorem answers_are_final outside db s job response :
  reachable (job_body registry root) outside db s ->
  Returned job (Ok response) ∈ log s -> settled response.
Proof. intros Hr. by apply (reachable_settled outside db s Hr). Qed.

(** A run or a decision that nothing interferes with leaves in its row what it answers:
    the status, the memory, the payloads, the pause and the times, with the columns an
    update does not touch as they were. *)
Theorem the_row_is_what_was_answered now bytes tool job db :
  let '(r, db', _) := solo now bytes tool (job_body registry root job) db in
  forall response, r = Ok response ->
    settled response /\ written db' (RunWorkflowResponse.instance response).
Proof. exact (wp_solo now bytes tool _ answered db (job_answers job db)). Qed.

(** No run is ever stuck. Whatever has happened so far, to it and to others, every run
    or decision in progress can still come to its end, with statements that succeed and
    any answers from outside ([answers]); and when it then answers [Ok], the answer is
    final. *)
Theorem runs_can_always_finish outside db s n job p (answers : Env) :
  reachable (job_body registry root) outside db s ->
  threads s !! n = Some (Some (job, p)) ->
  exists s' r, rtc (step (job_body registry root) outside) s s' /\ Returned job r ∈ log s'
    /\ forall response, r = Ok response -> settled response.
Proof.
  intros Hr Hn. destruct (thread_can_finish (job_body registry root) outside answers s n job p Hn) as (s' & r & Hs & Hin).
  exists s', r. split_and!; [done|done|]. intros response ->.
  apply (reachable_settled outside db s') with (job := job); unfold reachable in *; [by transitivity s|done].
Qed.
End Written.

(** ** Two runs to apply them to *)
Import World.

Definition answer_status (r : res WorkflowRuntimeError.t RunWorkflowResponse.t)
  : option ExecutionStatus.t :=
  match r with
  | Ok response => Some (ExecutionInstance.status (RunWorkflowResponse.instance response))
  | _ => None
  end.
Definition answer_of (n : nat) (s : sys)
  : option (Job.t * res WorkflowRuntimeError.t RunWorkflowResponse.t) :=
  match threads s !! n with Some (Some (j, Ret r)) => Some (j, r) | _ => None end.
Lemma answer_returned outside n (s : sys) j r :
  answer_of n s = Some (j, r) ->
  exists s', step body outside s s' /\ Returned j r ∈ log s'.
Proof.
  unfold answer_of. intros Ha. repeat case_match; simplify_eq. eexists. split; [by eapply step_return|].
  apply elem_of_app. right. by left.
Qed.
Lemma answered_with (r : option (Job.t * res WorkflowRuntimeError.t RunWorkflowResponse.t)) st :
  (jr ← r; answer_status jr.2) = Some st ->
  exists j response, r = Some (j, Ok response)
    /\ ExecutionInstance.status (RunWorkflowResponse.instance response) = st.
Proof. destruct r as [[j [response|e|]]|]; intros [= <-]. by exists j, response. Qed.

Lemma answers_are_final_witness :
  exists response, ExecutionInstance.status (RunWorkflowResponse.instance response)
                   = ExecutionStatus.AwaitingApproval /\ settled response.
Proof.
  destruct (answered_with (answer_of 0 at_first_gate.2) ExecutionStatus.AwaitingApproval)
    as (j & response & Ha & Hs); [vm_compute; reflexivity|].
  destruct (answer_returned sealed 0 at_first_gate.2 j (Ok response) Ha) as (s' & Hstep & Hin).
  exists response. split; [exact Hs|].
  apply (answers_are_final registry root sealed (store two_gates) s' j response).
  - eapply rtc_r; [|exact Hstep].
    apply follows_steps. unfold at_first_gate. auto using follows_then, follows_spawn, follows_pilot.
  - exact Hin.
Defined.
Lemma runs_can_always_finish_witness :
  exists s' job r, Returned job r ∈ log (s' : sys)
    /\ forall response, r = Ok response -> settled response.
Proof.
  destruct (threads (spawn (Job.Run request None) (begin two_gates)).2 !! 0%nat) as [[[j p]|]|] eqn:Hn;
    [|discriminate Hn..].
  destruct (runs_can_always_finish registry root sealed (store two_gates)
    (spawn (Job.Run request None) (begin two_gates)).2 0 j p env) as (s' & r & _ & Hin & Hr).
  - apply follows_steps, follows_spawn.
  - exact Hn.
  - exists s', j, r. exact (conj Hin Hr).
Defined.
Lemma the_row_is_what_was_answered_witness :
  exists db' response, settled response /\ written db' (RunWorkflowResponse.instance response).
Proof.
  pose proof (the_row_is_what_was_answered registry root 5 [1] (fun _ => env) (Job.Run request None)
    (store two_gates)) as Hrow.
  assert (answer_status (solo 5 [1] (fun _ => env) (job_body registry root (Job.Run request None))
    (store two_gates)).1.1 = Some ExecutionStatus.AwaitingApproval) as Hs by (vm_compute; reflexivity).
  destruct (solo _ _ _ _ _) as [[r db'] l]. destruct r as [response|e|]; [|discriminate Hs..].
  exists db', response. exact (Hrow response eq_refl).
Defined.
