(* ===== verification/WorkflowFrame.v ===== *)
(** * What the engine leaves alone

    [quiet] programs neither call a tool nor start a command, and take nothing
    but expired rows out of the approval ledger.  Everything the engine does but
    for its tool and system action nodes is quiet. *)
From S2P Require Import Prelude.
From S2P Require Import RustStr.
From S2P Require Import RustHash.
From S2P Require Import JsonValue.
From S2P Require Import P0Contracts.
From S2P Require Import WorkflowIr.
From S2P Require Import ToolSecurity.
From S2P Require Import TaskTools.
From S2P Require Import Program.
From S2P Require Import EffectJournal.
From S2P Require Import Templates.
From S2P Require Import WorkflowRuntime.
From S2P Require Import WorkflowStore.
From S2P Require Import WorkflowEnv.
From S2P Require Import WorkflowApprovals.
From S2P Require Import WorkflowFiles.
From S2P Require Import WorkflowNodes.
From S2P Require Import SystemActions.
From S2P Require Import WorkflowRequests.
From S2P Require Import WorkflowLoops.
From S2P Require Import WorkflowEngine.
Local Open Scope Z_scope.

Section Quiet.
Context {J : JsonLib}.

(** The ledger may lose rows; the grants stay. *)
Definition calm (db db' : Db) : Prop :=
  Db.workflow_approvals db' ⊆ Db.workflow_approvals db
  /\ Db.routine_authority_grants db' = Db.routine_authority_grants db.
#[export] Instance calm_refl : Reflexive calm.
Proof. done. Qed.
#[export] Instance calm_trans : Transitive calm.
Proof. intros db1 db2 db3 [? H1] [? H2]. split; [by etrans|by rewrite H2]. Qed.

Definition benign (c : Call) : Prop :=
  match c with ExecuteMcpTool _ | RunSystemAction _ => False | _ => True end.

Fixpoint quiet {A} (p : prog A) (Q : A -> Prop) : Prop :=
  match p with
  | Ret a => Q a
  | Sql q k =>
      (forall e, quiet (k (Err e)) Q) /\ forall db, calm db (q db).2 /\ quiet (k (q db).1) Q
  | Clock k => forall n, quiet (k n) Q
  | Entropy k => forall b, quiet (k b) Q
  | Start c p => False
  | Await c k => benign c /\ forall env, quiet (k env) Q
  end.

Lemma quiet_mono {A} (p : prog A) (Q Q' : A -> Prop) :
  (forall a, Q a -> Q' a) -> quiet p Q -> quiet p Q'.
Proof.
  intros HQ. induction p as [a|X q k IH|k IH|k IH|r p IH|r k IH]; simpl; [apply HQ| | | |done|].
  - intros [He Hc]. split; [naive_solver|]. intros db. destruct (Hc db). naive_solver.
  - naive_solver.
  - naive_solver.
  - naive_solver.
Qed.
Lemma quiet_bind {A B} (f : A -> prog B) (p : prog A) Q :
  quiet p (fun a => quiet (f a) Q) -> quiet (bind f p) Q.
Proof.
  induction p as [a|X q k IH|k IH|k IH|r p IH|r k IH]; simpl; [done| | | |done|].
  - intros [He Hc]. split; [naive_solver|]. intros db. destruct (Hc db). naive_solver.
  - naive_solver.
  - naive_solver.
  - naive_solver.
Qed.

(** Programs with no condition on their result. *)
Definition calm_io {E A} (p : Program.io Db Call Env E A) : Prop := quiet p (fun _ => True).
Lemma calm_ret {E A} (a : A) : calm_io (mret a : Program.io Db Call Env E A).
Proof. done. Qed.
Lemma calm_lift {E A} (r : res E A) : calm_io (lift r : Program.io Db Call Env E A).
Proof. done. Qed.
Lemma calm_throw {E A} (e : E) : calm_io (throw e : Program.io Db Call Env E A).
Proof. done. Qed.
Lemma calm_bind {E A B} (p : Program.io Db Call Env E A) (f : A -> Program.io Db Call Env E B) :
  calm_io p -> (forall a, calm_io (f a)) -> calm_io (p ≫= f).
Proof.
  intros Hp Hf. apply quiet_bind. eapply quiet_mono; [|exact Hp]. intros [a|e|] _; [apply Hf|done..].
Qed.
Lemma calm_map_err {E E' A} (f : E -> E') (p : Program.io Db Call Env E A) :
  calm_io p -> calm_io (io_map_err f p).
Proof. intros Hp. apply quiet_bind. by eapply quiet_mono; [|exact Hp]. Qed.
Lemma calm_attempt {E E' A} (p : Program.io Db Call Env E A) :
  calm_io p -> calm_io (attempt p : Program.io Db Call Env E' _).
Proof. intros Hp. apply quiet_bind. by eapply quiet_mono; [|exact Hp]. Qed.
Lemma calm_ask {E} c : benign c -> calm_io (ask c : Program.io Db Call Env E _).
Proof. done. Qed.
Lemma calm_clock {E} : calm_io (Clock (fun n => Ret (Ok n)) : Program.io Db Call Env E Z).
Proof. done. Qed.
Lemma calm_random {E} : calm_io (random_bytes : Program.io Db Call Env E (list Z)).
Proof. done. Qed.
Lemma calm_sql {X} (q : tx X) : (forall db, calm db (q db).2) -> calm_io (sql q).
Proof. done. Qed.
Lemma calm_db_op {X} (q : tx X) : (forall db, calm db (q db).2) -> calm_io (db_op q).
Proof. intros H. by apply calm_map_err, calm_sql. Qed.
Lemma calm_for_fold {E A S} (f : S -> A -> Program.io Db Call Env E S) l s :
  (forall s x, calm_io (f s x)) -> calm_io (io_for_fold f s l).
Proof. intros Hf. revert s. induction l as [|x l IH]; intros s; [done|]. by apply calm_bind. Qed.

(** The same for functions that change the instance, which keep its name. *)
Definition same_id {A} (i : ExecutionInstance.t) (r : ExecutionInstance.t * A) : Prop :=
  ExecutionInstance.id r.1 = ExecutionInstance.id i.
Definition calm_run {A} (m : run A) : Prop := forall i, quiet (m i) (same_id i).
Definition keeps_id (f : ExecutionInstance.t -> ExecutionInstance.t) : Prop :=
  forall i, ExecutionInstance.id (f i) = ExecutionInstance.id i.
Lemma calm_run_ret {A} (a : A) : calm_run (mret a).
Proof. by intros i. Qed.
Lemma calm_run_res {A} (r : res WorkflowRuntimeError.t A) : calm_run (run_res r).
Proof. by intros i. Qed.
Lemma calm_run_throw {A} e : calm_run (run_throw e : run A).
Proof. by intros i. Qed.
Lemma calm_the_instance : calm_run the_instance.
Proof. by intros i. Qed.
Lemma calm_modify f : keeps_id f -> calm_run (modify f).
Proof. intros H i. apply H. Qed.
Lemma calm_run_io {A} (p : io A) : calm_io p -> calm_run (run_io p).
Proof. intros Hp i. apply quiet_bind. by eapply quiet_mono; [|exact Hp]. Qed.
Lemma calm_run_bind {A B} (m : run A) (f : A -> run B) :
  calm_run m -> (forall a, calm_run (f a)) -> calm_run (m ≫= f).
Proof.
  intros Hm Hf i. apply quiet_bind. eapply quiet_mono; [|exact (Hm i)].
  intros [i' [a|e|]] Hi; [|done..]. eapply quiet_mono; [|apply Hf]. intros b Hb.
  unfold same_id in *. by rewrite Hb.
Qed.
Lemma calm_run_attempt {A} (m : run A) : calm_run m -> calm_run (run_attempt m).
Proof.
  intros Hm i. apply quiet_bind. eapply quiet_mono; [|exact (Hm i)]. by intros [i' r].
Qed.
Lemma calm_run_fold {A S} (f : S -> A -> run S) l s :
  (forall s x, calm_run (f s x)) -> calm_run (run_fold f s l).
Proof.
  intros Hf. revert s. induction l as [|x l IH]; intros s; [by intros i|]. by apply calm_run_bind.
Qed.
Lemma calm_progress id n st msg : calm_run (progress id n st msg).
Proof. by intros i. Qed.
End Quiet.

Create HintDb calm discriminated.
#[export] Hint Resolve calm_ret calm_lift calm_throw calm_clock calm_random calm_run_ret
  calm_run_res calm_run_throw calm_the_instance calm_progress : calm.
#[export] Hint Extern 1 (benign _) => exact I : calm.
#[export] Hint Extern 1 (calm _ _) => reflexivity : calm.
#[export] Hint Extern 1 (keeps_id _) => (intros []; reflexivity) : calm.

(** Walks through a program, leaving the calls of functions it has no lemma for. *)
Ltac calmly_step :=
  lazymatch goal with
  | |- forall _, _ => intro
  | |- calm_io (let _ := _ in _) => cbv zeta
  | |- calm_run (let _ := _ in _) => cbv zeta
  | |- calm_io (match ?x with _ => _ end) => destruct x eqn:?
  | |- calm_run (match ?x with _ => _ end) => destruct x eqn:?
  | |- calm_io (mbind _ _) => apply calm_bind
  | |- calm_run (mbind _ _) => apply calm_run_bind
  | |- calm_io (io_map_err _ _) => apply calm_map_err
  | |- calm_io (ask _) => apply calm_ask
  | |- calm_io (db_op _) => apply calm_db_op
  | |- calm_io (io_for_fold _ _ _) => apply calm_for_fold
  | |- calm_run (run_io _) => apply calm_run_io
  | |- calm_run (modify _) => apply calm_modify
  | |- calm_run (run_attempt _) => apply calm_run_attempt
  | |- calm_run (run_fold _ _ _) => apply calm_run_fold
  end.
Ltac calmly := repeat first [calmly_step | progress eauto 2 with calm].

(** ** Statements of the ledger *)
Section Statements.
Context {J : JsonLib} {T : JsonText} {H : HashOrder} {D : Digest}.

Lemma calm_update_instance i db : calm db (update_execution_instance i db).2.
Proof. unfold update_execution_instance. by repeat case_match. Qed.
Lemma calm_load_instance id db : calm db (load_execution_instance id db).2.
Proof. unfold load_execution_instance. by repeat case_match. Qed.
Lemma calm_claim id now db : calm db (claim_execution_instance_for_approval id now db).2.
Proof. unfold claim_execution_instance_for_approval. by repeat case_match. Qed.
Lemma calm_verify_step i n tool args now db : calm db (verify_step_approval i n tool args now db).2.
Proof. done. Qed.
Lemma calm_verify_routine i tool args now db : calm db (verify_routine_authority i tool args now db).2.
Proof. done. Qed.
Lemma calm_select_ir w v db : calm db (select_workflow_ir w v db).2.
Proof. unfold select_workflow_ir. by repeat case_match. Qed.
Lemma calm_select_instructions w v db : calm db (select_instructions w v db).2.
Proof. done. Qed.
Lemma calm_delete_expired now db : calm db (delete_expired now db).2.
Proof. split; [apply map_filter_subseteq|done]. Qed.

Lemma calm_insert_instance i db : calm db (insert_instance i db).2.
Proof. unfold insert_instance. by repeat case_match. Qed.
Lemma calm_bind_project i p db : calm db (bind_project i p db).2.
Proof. unfold bind_project. by repeat case_match. Qed.
Lemma calm_insert_task_run a b c d i n db : calm db (insert_task_run a b c d i n db).2.
Proof. unfold insert_task_run. by repeat case_match. Qed.
Lemma calm_select_project w v db : calm db (select_workflow_project w v db).2.
Proof. unfold select_workflow_project. by repeat case_match. Qed.
Lemma calm_require_project p db : calm db (require_active_project p db).2.
Proof. unfold require_active_project. by repeat case_match. Qed.
Lemma calm_tx_bind {X Y} (q : tx X) (f : X -> tx Y) :
  (forall db, calm db (q db).2) -> (forall x db, calm db (f x db).2) ->
  forall db, calm db (mbind f q db).2.
Proof.
  intros Hq Hf db. specialize (Hq db). unfold mbind, tx_bind. destruct (q db) as [[x|e|] db1]; [|done..].
  etrans; [exact Hq|apply Hf].
Qed.
Lemma calm_transaction {X} (q : tx X) :
  (forall db, calm db (q db).2) -> forall db, calm db (transaction q db).2.
Proof.
  intros Hq db. specialize (Hq db). unfold transaction. by destruct (q db) as [[x|e|] db1].
Qed.
Lemma calm_tx_ret {X} (x : X) db : calm db ((mret x : tx X) db).2.
Proof. done. Qed.
Lemma calm_insert_direct i a b db : calm db (insert_direct_workflow_execution_instance i a b db).2.
Proof.
  revert db. apply calm_transaction. repeat (apply calm_tx_bind; [|intros ?]);
  eauto using calm_select_project, calm_insert_instance, calm_tx_ret; case_match;
    eauto using calm_tx_ret, calm_require_project.
  apply calm_tx_bind; eauto using calm_bind_project, calm_insert_task_run.
Qed.
Lemma calm_insert_scheduled i p s a b n db :
  calm db (insert_scheduled_execution_instance i p s a b n db).2.
Proof.
  revert db. unfold insert_scheduled_execution_instance. case_match; [done|].
  apply calm_transaction. repeat (apply calm_tx_bind; [|intros ?]);
    eauto using calm_insert_instance, calm_bind_project, calm_insert_task_run. done.
Qed.
End Statements.
#[export] Hint Resolve calm_update_instance calm_load_instance calm_claim calm_verify_step
  calm_verify_routine calm_select_ir calm_select_instructions calm_delete_expired
  calm_insert_direct calm_insert_scheduled : calm.

(** ** Everything but tools and commands *)
Section Nodes.
Context {J : JsonLib} {T : JsonText} {P : JsonPretty} {H : HashOrder} {D : Digest}.
Context {U : UnicodeTables} {Ho : Host} {A : WorkspaceAudit}.
Context {R : Type} (registry : gmap str (TaskToolRegistration.t R)).

Lemma calm_time : calm_io WorkflowEnv.unix_time_ms.
Proof. done. Qed.
Lemma calm_seconds : calm_io unix_time_seconds.
Proof. done. Qed.
Lemma calm_elapsed : calm_io elapsed_ms.
Proof. done. Qed.
Lemma calm_sequence : calm_io process_sequence.
Proof. done. Qed.
#[local] Hint Resolve calm_time calm_seconds calm_elapsed calm_sequence : calm.
Lemma calm_model_call {X} c (f : Reply c -> res WorkflowRuntimeError.t X) :
  benign c -> calm_io (model_call c f).
Proof. intros Hc. unfold model_call. calmly. Qed.
#[local] Hint Resolve calm_model_call : calm.
Lemma calm_blocking {X} n l ms (task : io X) :
  calm_io task -> calm_io (run_blocking_node_with_timeout n l ms task).
Proof.
  intros Ht. unfold run_blocking_node_with_timeout. calmly; by apply calm_attempt.
Qed.
#[local] Hint Resolve calm_blocking : calm.
Lemma calm_fs_op {X} (p : io (res str X)) : calm_io p -> calm_io (fs_op p).
Proof. intros Hp. unfold fs_op. calmly. Qed.
#[local] Hint Resolve calm_fs_op : calm.

Lemma calm_existing_ancestor fuel p : calm_io (existing_ancestor fuel p).
Proof.
  revert p. induction fuel as [|fuel IH]; intros p; cbn [existing_ancestor]; [done|].
  unfold exists_at. calmly.
Qed.
#[local] Hint Resolve calm_existing_ancestor : calm.
Lemma calm_resolve_prefix p : calm_io (resolve_existing_path_prefix p).
Proof. unfold resolve_existing_path_prefix, fs_canonicalize. calmly. Qed.
#[local] Hint Resolve calm_resolve_prefix : calm.
Lemma calm_canonicalize base p : calm_io (canonicalize_and_validate_path base p).
Proof. unfold canonicalize_and_validate_path, fs_canonicalize. calmly. Qed.
#[local] Hint Resolve calm_canonicalize : calm.
Lemma calm_sandboxed root p : calm_io (sandboxed root p).
Proof. unfold sandboxed. calmly. Qed.
#[local] Hint Resolve calm_sandboxed : calm.
Lemma calm_ensure_root : calm_io ensure_workflow_workspace_root.
Proof. unfold ensure_workflow_workspace_root, create_dir_all, fs_canonicalize. calmly; by apply calm_fs_op. Qed.
#[local] Hint Resolve calm_ensure_root : calm.
Lemma calm_resolve_input binding : calm_io (resolve_input binding).
Proof.
  unfold resolve_input, read_local_file, resolve_workflow_environment_value, env_var, fs_metadata,
    fs_read. calmly; by apply calm_fs_op.
Qed.
Lemma calm_materialize text root id n : calm_io (materialize_generated_output text root id n).
Proof.
  unfold materialize_generated_output, create_dir_all, fs_write. calmly; by apply calm_fs_op.
Qed.
Lemma calm_write_output d f i o v : calm_io (write_output d f i o v).
Proof.
  unfold write_output, validate_workflow_output_directory, create_dir_all, fs_write.
  calmly; by apply calm_fs_op.
Qed.
#[local] Hint Resolve calm_resolve_input calm_materialize calm_write_output : calm.

Lemma calm_agent agent instruction memory root id :
  calm_io (execute_agent_with_timeout agent instruction memory root id).
Proof. unfold execute_agent_with_timeout, execute_agent. apply calm_blocking. calmly. Qed.
Lemma calm_router router input memory id :
  calm_io (execute_router_with_timeout router input memory id).
Proof. unfold execute_router_with_timeout, execute_router. apply calm_blocking. calmly. Qed.
Lemma calm_conditional conditional input memory id :
  calm_io (execute_conditional_with_timeout conditional input memory id).
Proof. unfold execute_conditional_with_timeout, execute_conditional. apply calm_blocking. calmly. Qed.
Lemma calm_output output binding memory id ir :
  calm_io (execute_output output binding memory id ir).
Proof. unfold execute_output. calmly. Qed.
Lemma calm_vault n l args ms meta : calm_io (execute_sync_knowledge_vault_node n l args ms meta).
Proof. unfold execute_sync_knowledge_vault_node. calmly. apply calm_blocking. calmly. Qed.
Lemma calm_ensure_ready tool ready : calm_io (ensure_mcp_server_ready_once tool ready).
Proof. unfold ensure_mcp_server_ready_once. calmly. Qed.
Lemma calm_working_directory root d : calm_io (resolve_system_working_directory root d).
Proof.
  unfold resolve_system_working_directory, resolve_in_sandbox, create_dir_all.
  calmly; by apply calm_fs_op.
Qed.

Lemma keeps_id_paused memory selected context n input ms :
  keeps_id (paused_instance memory selected context n input ms).
Proof. by intros []. Qed.
Lemma calm_finish_timing b : calm_run (finish_timing b).
Proof. unfold finish_timing. calmly. Qed.
Lemma calm_checkpoint : calm_run checkpoint.
Proof.
  intros i. unfold checkpoint. apply quiet_bind.
  eapply quiet_mono; [|apply calm_db_op; intros db; apply calm_update_instance]. done.
Qed.
Lemma calm_token : calm_io generate_approval_token.
Proof. unfold generate_approval_token. calmly. Qed.
#[local] Hint Resolve keeps_id_paused calm_finish_timing calm_checkpoint calm_token : calm.
Lemma calm_pause_external n msg context input memory selected ms :
  calm_run (pause_for_external_action n msg context input memory selected ms).
Proof. unfold pause_for_external_action. calmly. Qed.
Lemma calm_pause_permission permission effect input memory selected ms :
  calm_run (pause_for_permission permission effect input memory selected ms).
Proof. unfold pause_for_permission. calmly. Qed.
Lemma calm_load_compiled w v : calm_io (load_compiled_workflow w v).
Proof. unfold load_compiled_workflow. calmly. Qed.
End Nodes.
#[export] Hint Resolve calm_time calm_seconds calm_elapsed calm_sequence calm_model_call
  calm_blocking calm_fs_op calm_sandboxed calm_resolve_input calm_agent calm_router
  calm_conditional calm_output calm_vault calm_ensure_ready calm_working_directory
  keeps_id_paused calm_finish_timing calm_checkpoint calm_token calm_pause_external
  calm_pause_permission calm_load_compiled : calm.
