(* ===== verification/WorkflowSafety.v ===== *)
(** * Nothing that asks for a person runs without one

    The proof rule of [Program] applied to the jobs of [WorkflowSystem]: whatever
    number of runs and decisions share the database, in any order and with any
    failure, a tool is called as approved only on evidence, and a command that
    asks for a person runs only in the continuation a person has asked for. *)
From S2P Require Import Prelude.
From S2P Require Import RustStr.
From S2P Require Import RustHash.
From S2P Require Import JsonValue.
From S2P Require Import WorkflowIr.
From S2P Require Import ToolSecurity.
From S2P Require Import TaskTools.
From S2P Require Import Program.
From S2P Require Import EffectJournal.
From S2P Require Import WorkflowRuntime.
From S2P Require Import WorkflowStore.
From S2P Require Import WorkflowEnv.
From S2P Require Import WorkflowApprovals.
From S2P Require Import WorkflowFiles.
From S2P Require Import WorkflowNodes.
From S2P Require Import SystemActions.
From S2P Require Import WorkflowRequests.
From S2P Require Import WorkflowLoops.
From S2P Require Import WorkflowEngine.
From S2P Require Import WorkflowSystem.
From S2P Require Import WorkflowTraces.
From S2P Require Import WorkflowFrame.
Local Open Scope Z_scope.

(** What a thread has read that may stand for a person's answer. *)
Module Evidence.
Inductive t : Type :=
| Row (row : WorkflowApproval.t)
| Grant (grant : RoutineAuthorityGrant.t).
End Evidence.

Section Evidence.
Context {J : JsonLib} {T : JsonText} {D : Digest}.

(** The row names the call: its run, its tool, and the digest of its arguments
    with the binding the registry gave, or without one; or it is a review of
    the workflow version. *)
Definition row_supports (row : WorkflowApproval.t) (c : McpToolCall.t) : Prop :=
  (WorkflowApproval.workflow_instance_id row = McpToolCall.execution_id c
   /\ WorkflowApproval.target_tool_name row = McpToolCall.tool_name c
   /\ exists binding, binding ∈ [McpToolCall.approval_binding c; None]
      /\ WorkflowApproval.arguments_hash row =
         hash_arguments (workflow_mcp_approval_material (McpToolCall.arguments c) binding))
  \/ (exists workflow version,
        WorkflowApproval.workflow_instance_id row = workflow_version_approval_subject workflow version
        /\ WorkflowApproval.target_tool_name row =
           workflow_version_approval_target (McpToolCall.server_name c) (McpToolCall.tool_name c)).
Definition grant_supports (grant : RoutineAuthorityGrant.t) (c : McpToolCall.t) : Prop :=
  RoutineAuthorityGrant.action_name grant = McpToolCall.tool_name c
  /\ RoutineAuthorityGrant.arguments_hash grant = hash_arguments (McpToolCall.arguments c)
  /\ RoutineAuthorityGrant.revoked_at_ms grant = None.
Definition supports (e : Evidence.t) (c : McpToolCall.t) : Prop :=
  match e with
  | Evidence.Row row => row_supports row c
  | Evidence.Grant grant => grant_supports grant c
  end.
Definition in_ledger (db : Db) (row : WorkflowApproval.t) : Prop :=
  WorkflowApproval.decision row = lit "approve"
  /\ exists token, Db.workflow_approvals db !! token = Some row.
Definition truthful (db : Db) (e : Evidence.t) : Prop :=
  match e with
  | Evidence.Row row => in_ledger db row
  | Evidence.Grant grant => grant ∈ Db.routine_authority_grants db
  end.

(** The rows a person's answer [r] leaves. *)
Definition written_by (r : ResolvePermissionRequest.t) (row : WorkflowApproval.t) : Prop :=
  ResolvePermissionRequest.decision r = PermissionDecision.Approve
  /\ (WorkflowApproval.workflow_instance_id row = trim (ResolvePermissionRequest.instance_id r)
      \/ exists workflow version,
           WorkflowApproval.workflow_instance_id row =
           workflow_version_approval_subject workflow version).
End Evidence.

Section Safety.
Context {J : JsonLib} {T : JsonText} {P : JsonPretty} {H : HashOrder} {D : Digest}.
Context {U : UnicodeTables} {Ho : Host} {W : RoutineScope} {A : WorkspaceAudit}.
Context {R : Type} (registry : gmap str (TaskToolRegistration.t R)) (root : path).
(** What the review of a Routine allows, and all the grants there ever are. *)
Context (scope_ok : str -> str -> str -> Value -> Prop).
Context (grants : list RoutineAuthorityGrant.t).
Context (Hscope : forall i n tool args,
           quiet (verify_reviewed_workflow_scope i n tool args)
             (fun r => r = Ok true -> scope_ok i n tool args)).
Context (Hrequired : forall i, calm_io (reviewed_workflow_scope_required i)).

Notation event := (event Call Env Job.t (res WorkflowRuntimeError.t RunWorkflowResponse.t)).
Implicit Types (l : list event).

(** ** What is claimed of a call *)
Definition approved_by_person (l : list event) (c : McpToolCall.t) : Prop :=
  exists r row, Spawned (Job.Resolve r) ∈ l /\ written_by r row /\ row_supports row c.
Definition approved_by_routine (c : McpToolCall.t) : Prop :=
  scope_ok (McpToolCall.execution_id c) (McpToolCall.node_id c) (McpToolCall.tool_name c)
    (McpToolCall.arguments c)
  \/ exists grant, grant ∈ grants /\ grant_supports grant c.
(** A call made as approved has been; one made without needs no review. *)
Definition tool_call_ok (l : list event) (c : McpToolCall.t) : Prop :=
  if McpToolCall.human_approved c
  then approved_by_person l c \/ approved_by_routine c
  else needs_review
         (classify_mcp_tool_call (McpToolCall.server_name c) (McpToolCall.tool_name c) None)
         (McpToolCall.approval_binding c) = false.
Definition asks (a : SystemActionRun.t) : bool :=
  CapabilityClassification.requires_human_approval
    (classify_system_action (system_action_class (SystemActionRun.action_type a))
       (SystemActionRun.command a) (SystemActionRun.args a)).
Definition command_ok (l : list event) (a : SystemActionRun.t) : Prop :=
  asks a = false
  \/ exists r, Spawned (Job.Resolve r) ∈ l
               /\ ResolvePermissionRequest.decision r = PermissionDecision.Approve.

(** ** The protocol

    The token of a thread is its job and the evidence it has read last. *)
Definition approves (job : Job.t) : Prop :=
  exists r, job = Job.Resolve r /\ ResolvePermissionRequest.decision r = PermissionDecision.Approve.
Notation token := (Job.t * option Evidence.t)%type.
Implicit Types (t : token).

Definition moves (t t' : token) (db db' : Db) : Prop :=
  t'.1 = t.1
  /\ Db.routine_authority_grants db' = Db.routine_authority_grants db
  /\ (forall row, in_ledger db' row ->
        in_ledger db row \/ exists r, t.1 = Job.Resolve r /\ written_by r row)
  /\ (t'.2 = t.2 \/ exists e, t'.2 = Some e /\ truthful db e).
Definition call_ok (t : token) (c : McpToolCall.t) : Prop :=
  if McpToolCall.human_approved c
  then (exists e, t.2 = Some e /\ supports e c) \/ approved_by_routine c
  else needs_review
         (classify_mcp_tool_call (McpToolCall.server_name c) (McpToolCall.tool_name c) None)
         (McpToolCall.approval_binding c) = false.
Definition allows (t : token) (c : Call) : Prop :=
  match c with
  | ExecuteMcpTool call => call_ok t call
  | RunSystemAction a => asks a = false \/ approves t.1
  | _ => True
  end.
Definition answers (t : token) (c : Call) (_ : Env) (t' : token) : Prop := t' = t /\ allows t c.
Definition starts (_ : token) (_ : Call) (_ : token) : Prop := False.
Notation wp := (wp moves starts answers).

Lemma moves_calm t db db' : calm db db' -> moves t t db db'.
Proof.
  intros [Ha Hg]. split_and!; [done..| |by left].
  intros row (Hd & key & Hk). left. split; [done|]. exists key. by eapply lookup_weaken.
Qed.
Lemma quiet_keeps {X} (p : prog X) (Q : X -> Prop) (Q' : token -> X -> Prop) t :
  quiet p Q -> (forall x, Q x -> Q' t x) -> wp t p Q'.
Proof.
  intros Hp HQ. induction p as [a|X' q k IH|k IH|k IH|r p IH|c k IH]; simpl in *; [auto| | | |done|].
  - destruct Hp as [He Hc]. split; [naive_solver|]. intros db. destruct (Hc db) as [Hd Hk].
    exists t. split; [by apply moves_calm|by apply IH].
  - naive_solver.
  - naive_solver.
  - destruct Hp as [Hb Hk]. intros env. exists t. split; [|by apply IH].
    split; [done|]. by destruct c.
Qed.

(** [sound_io job p]: in a thread of [job], [p] keeps to the protocol. *)
Definition sound_io {E X} (job : Job.t) (p : Program.io Db Call Env E X) : Prop :=
  forall e, wp (job, e) p (fun t' _ => t'.1 = job).
Definition sound_run {X} (job : Job.t) (m : run X) : Prop :=
  forall e i, wp (job, e) (m i)
    (fun t' r => t'.1 = job /\ ExecutionInstance.id r.1 = ExecutionInstance.id i).

Lemma wp_conseq {X} (p : prog X) (Q Q' : token -> X -> Prop) t :
  wp t p Q -> (forall t a, Q t a -> Q' t a) -> wp t p Q'.
Proof. intros Hw HQ. by eapply wp_mono. Qed.
Lemma sound_calm_io {E X} job (p : Program.io Db Call Env E X) : calm_io p -> sound_io job p.
Proof. intros Hp e. by eapply quiet_keeps; [exact Hp|]. Qed.
Lemma sound_calm_run {X} job (m : run X) : calm_run m -> sound_run job m.
Proof. intros Hm e i. by eapply quiet_keeps; [apply Hm|]. Qed.
Lemma sound_io_bind {E X Y} job (p : Program.io Db Call Env E X)
    (f : X -> Program.io Db Call Env E Y) :
  sound_io job p -> (forall x, sound_io job (f x)) -> sound_io job (p ≫= f).
Proof.
  intros Hp Hf e. apply wp_io_bind. eapply wp_conseq; [apply Hp|].
  intros [j e'] [x|err|]; cbn [fst]; [intros ->; apply Hf|done..].
Qed.
Lemma sound_run_bind {X Y} job (m : run X) (f : X -> run Y) :
  sound_run job m -> (forall x, sound_run job (f x)) -> sound_run job (m ≫= f).
Proof.
  intros Hm Hf e i. apply wp_bind. eapply wp_conseq; [apply Hm|].
  intros [j e'] [i' [x|err|]]; cbn [fst]; [|done..]. intros [-> Hi].
  eapply wp_conseq; [apply Hf|]. intros t'' r [? ?]. split; [done|congruence].
Qed.
Lemma sound_run_io {X} job (p : io X) : sound_io job p -> sound_run job (run_io p).
Proof. intros Hp e i. apply wp_bind. eapply wp_conseq; [apply Hp|]. done. Qed.
Lemma sound_run_attempt {X} job (m : run X) : sound_run job m -> sound_run job (run_attempt m).
Proof. intros Hm e i. apply wp_bind. eapply wp_conseq; [apply Hm|]. by intros t' [i' r]. Qed.
Lemma sound_run_fold {X S} job (f : S -> X -> run S) s xs :
  (forall s x, sound_run job (f s x)) -> sound_run job (run_fold f s xs).
Proof.
  intros Hf. revert s. induction xs as [|x xs IH]; intros s; [by intros e i|]. by apply sound_run_bind.
Qed.
Lemma sound_run_until {X S B} job (f : S -> X -> run (S + B)) s xs :
  (forall s x, sound_run job (f s x)) -> sound_run job (run_until f s xs).
Proof.
  intros Hf. revert s. induction xs as [|x xs IH]; intros s; [by intros e i|].
  apply sound_run_bind; [done|]. intros [s'|b]; [done|by intros e i].
Qed.

(** ** Reading evidence *)
Lemma verify_step_approval_true i n tool args now db :
  (verify_step_approval i n tool args now db).1 = Ok true ->
  exists row, in_ledger db row /\ WorkflowApproval.workflow_instance_id row = i
    /\ WorkflowApproval.target_tool_name row = tool
    /\ WorkflowApproval.arguments_hash row = hash_arguments args.
Proof.
  unfold verify_step_approval, select, latest_approval. cbn [fst].
  destruct (Templates.max_by_key _ _) as [[key row]|] eqn:Hmax; [|done]. cbn [option_map snd].
  intros [= Hrow]. apply andb_true_iff in Hrow as [Hd _]. apply Templates.max_by_key_elem in Hmax.
  apply list_elem_of_In, List.filter_In in Hmax as [Hin Hm].
  rewrite !andb_true_iff, !str_eqb_eq in Hm. destruct Hm as [[[Hi Hn] Ht] Ha].
  exists row. split; [|done]. split; [by apply equals_eq in Hd|].
  exists key. by apply elem_of_map_iter, list_elem_of_In.
Qed.

(** What [p] answers with [true] is backed by evidence for the call; otherwise
    the evidence stays what it was. *)
Definition backs (t : token) (c : McpToolCall.t) : Prop :=
  (exists e, t.2 = Some e /\ supports e c) \/ approved_by_routine c.
Definition shows (job : Job.t) (p : io bool) (c : McpToolCall.t) : Prop :=
  forall e, wp (job, e) p (fun t' r =>
    t'.1 = job /\ (r = Ok true -> backs t' c) /\ (r = Ok true \/ t'.2 = e)).
Lemma shows_ret job b c : (b = true -> approved_by_routine c) -> shows job (mret b) c.
Proof. intros Hb e. split_and!; [done|intros [= ->]; right; by apply Hb|by right]. Qed.
Lemma shows_calm_bind {X} job (p : io X) (f : X -> io bool) c :
  calm_io p -> (forall x, shows job (f x) c) -> shows job (p ≫= f) c.
Proof.
  intros Hp Hf e. apply wp_io_bind. eapply quiet_keeps; [exact Hp|].
  intros [x|err|] _; [apply Hf|..]; cbn.
  - split_and!; [done|done|by right].
  - split_and!; [done|done|by right].
Qed.
Lemma shows_bind job (p : io bool) (f : bool -> io bool) c :
  shows job p c -> (forall t, backs t c -> t.1 = job ->
    wp t (f true) (fun t' r => t'.1 = job /\ (r = Ok true -> backs t' c))) ->
  (forall e, wp (job, e) (f false) (fun t' r => t'.1 = job /\ (r = Ok true -> backs t' c))) ->
  forall e, wp (job, e) (p ≫= f) (fun t' r => t'.1 = job /\ (r = Ok true -> backs t' c)).
Proof.
  intros Hp Ht Hf e. apply wp_io_bind. eapply wp_conseq; [apply Hp|].
  intros [j e'] [[]|err|]; cbn [fst]; intros (-> & Hx & _); [apply Ht; [by apply Hx|done]|apply Hf|done..].
Qed.
Lemma shows_db_op job (q : tx bool) c :
  (forall db, calm db (q db).2) ->
  (forall db, (q db).1 = Ok true -> exists e, truthful db e /\ supports e c) ->
  shows job (db_op q) c.
Proof.
  intros Hq Htrue e. apply wp_map_err, wp_sql; [by intros err; split_and!; [..|right]|]. intros db. specialize (Hq db).
  destruct (q db).1 as [[]|err|] eqn:Hr.
  - destruct (Htrue db Hr) as (e' & He & Hs). exists (job, Some e'). split; [|split; [done|]].
    + destruct (moves_calm (job, e) _ _ Hq) as (_ & ? & ? & _). split_and!; [done..|].
      right. by exists e'.
    + split; [|by left]. intros _. left. by exists e'.
  - exists (job, e). split; [by apply moves_calm|naive_solver].
  - exists (job, e). split; [by apply moves_calm|naive_solver].
  - exists (job, e). split; [by apply moves_calm|naive_solver].
Qed.
Lemma shows_step job i n tool args c :
  (forall row, WorkflowApproval.workflow_instance_id row = i ->
     WorkflowApproval.target_tool_name row = tool ->
     WorkflowApproval.arguments_hash row = hash_arguments args -> row_supports row c) ->
  shows job (verify_workflow_approval i n tool args) c.
Proof.
  intros Hsup. apply shows_calm_bind; [apply calm_seconds|]. intros now.
  apply shows_db_op; [done|]. intros db Hr.
  apply verify_step_approval_true in Hr as (row & Hl & Hi & Ht & Ha).
  exists (Evidence.Row row). split; [done|by apply Hsup].
Qed.
Lemma sound_verify job i n tool args : sound_io job (verify_workflow_approval i n tool args).
Proof.
  apply sound_calm_io. unfold verify_workflow_approval. calmly.
Qed.

(** ** The tool node *)
Lemma quiet_io_bind {E X Y} (p : Program.io Db Call Env E X) (f : X -> Program.io Db Call Env E Y)
    (Q0 : X -> Prop) (Q : res E Y -> Prop) :
  quiet p (fun r => forall x, r = Ok x -> Q0 x) -> (forall x, Q0 x -> quiet (f x) Q) ->
  (forall e, Q (Err e)) -> Q Panic -> quiet (p ≫= f) Q.
Proof.
  intros Hp Hf He HP. apply quiet_bind. eapply quiet_mono; [|exact Hp].
  intros [x|e|] Hr; [by apply Hf, Hr|apply He|apply HP].
Qed.
Lemma quiet_calm_bind {E X Y} (p : Program.io Db Call Env E X) (f : X -> Program.io Db Call Env E Y)
    (Q : res E Y -> Prop) :
  calm_io p -> (forall x, quiet (f x) Q) -> (forall e, Q (Err e)) -> Q Panic -> quiet (p ≫= f) Q.
Proof.
  intros Hp Hf He HP. eapply (quiet_io_bind _ _ (fun _ => True)); [|by intros; apply Hf|done..].
  by eapply quiet_mono; [|exact Hp].
Qed.
Lemma quiet_reviewed_scope i tool args :
  quiet (reviewed_routine_scope_for_call true i tool args)
    (fun r => r = Ok true -> scope_ok i (McpToolNode.id tool) (McpToolNode.tool_name tool) args).
Proof.
  unfold reviewed_routine_scope_for_call. cbn [negb].
  eapply quiet_io_bind with (Q0 := fun reviewed => reviewed = true ->
    scope_ok i (McpToolNode.id tool) (McpToolNode.tool_name tool) args); [| |done..].
  - apply quiet_bind. eapply quiet_mono; [|apply Hscope]. intros [x|e|] Hx y; [|done..].
    intros [= ->] ->. by apply Hx.
  - intros reviewed Hrev. apply quiet_calm_bind; [by apply calm_map_err| |done..].
    intros required. destruct (_ && _); [done|]. intros [= ->]. by apply Hrev.
Qed.
Definition prepared (tool : McpToolNode.t) (args : Value) (instance : ExecutionInstance.t)
    (v : review) : Prop :=
  review_tool v = tool /\ review_arguments v = args
  /\ (review_routine_scope v = true ->
      scope_ok (ExecutionInstance.id instance) (McpToolNode.id tool) (McpToolNode.tool_name tool)
        args).
Lemma quiet_prepare instance tool args ms cls pn ready :
  quiet (prepare_review registry true instance tool args ms cls pn ready)
    (fun r => forall x, r = Ok x -> prepared tool args instance x.2).
Proof.
  unfold prepare_review. apply quiet_calm_bind; [by apply calm_ensure_ready|intros ready'|done..].
  apply quiet_calm_bind; [by apply calm_model_call|intros binding|done..].
  apply quiet_calm_bind; [calmly|intros material|done..].
  eapply quiet_io_bind; [| |done..].
  - eapply quiet_mono; [|apply quiet_reviewed_scope]. intros r Hr x ->. pattern x.
    instantiate (1 := fun x => x = true -> _). intros ->. by apply Hr.
  - intros reviewed Hrev x [= <-]. by split_and!.
Qed.

Lemma shows_predecessor job instance v pn ms :
  shows job (verify_predecessor_mcp_approval (ExecutionInstance.id instance) pn (review_tool v)
               (review_arguments v) (review_binding v)) (call_of instance v ms true).
Proof.
  assert (forall binding, binding ∈ [review_binding v; None] ->
    shows job (verify_workflow_approval (ExecutionInstance.id instance) pn
      (McpToolNode.tool_name (review_tool v))
      (workflow_mcp_approval_material (review_arguments v) binding)) (call_of instance v ms true))
    as Hstep.
  { intros binding Hb. apply shows_step. intros row Hi Ht Ha. left. split_and!; [done..|].
    by exists binding. }
  intros e. unfold verify_predecessor_mcp_approval. apply wp_io_bind.
  eapply wp_conseq; [apply (Hstep (review_binding v)); by left|].
  intros [j e'] [x|err|]; cbn [fst snd]; intros (-> & Hx & He); [|naive_solver..].
  destruct x; [|destruct (is_exact_workflow_effect _ _)]; cbn [negb orb].
  - split_and!; [done|naive_solver|by left].
  - destruct He as [| ->]; [done|]. apply Hstep. by right; left.
  - naive_solver.
Qed.
Lemma shows_version job instance v pn w n args ms :
  shows job (verify_workflow_version_approval w n pn
               (McpToolNode.server_name (review_tool v)) (McpToolNode.tool_name (review_tool v))
               args) (call_of instance v ms true).
Proof.
  unfold verify_workflow_version_approval. case_match; [by apply shows_ret|].
  apply shows_step. intros row Hi Ht _. right. by exists w, n.
Qed.
Lemma shows_routine job instance v ms :
  shows job (now ← WorkflowEnv.unix_time_ms;
             db_op (verify_routine_authority (ExecutionInstance.id instance)
                      (McpToolNode.tool_name (review_tool v)) (review_arguments v) now))
    (call_of instance v ms true).
Proof.
  apply shows_calm_bind; [apply calm_time|]. intros now.
  apply shows_db_op; [done|]. intros db [= Hr].
  apply existsb_exists in Hr as (run & _ & Hr).
  apply andb_true_iff in Hr as [_ Hr]. apply existsb_exists in Hr as (g & Hg & Hr).
  rewrite !andb_true_iff, !str_eqb_eq in Hr. destruct Hr as [[[[_ Hn] Ha] Hrev] _].
  exists (Evidence.Grant g). split; [by apply list_elem_of_In|]. split_and!; [done..|].
  by destruct (RoutineAuthorityGrant.revoked_at_ms g).
Qed.

Lemma shows_ledger job instance v ms :
  (review_routine_scope v = true ->
   scope_ok (ExecutionInstance.id instance) (McpToolNode.id (review_tool v))
     (McpToolNode.tool_name (review_tool v)) (review_arguments v)) ->
  forall e, wp (job, e) (ledger_approved instance v)
    (fun t' r => t'.1 = job /\ (r = Ok true -> backs t' (call_of instance v ms true))).
Proof.
  intros Hscope'. set (c := call_of instance v ms true). unfold ledger_approved.
  assert (forall material, shows job
    (match material with
     | Some material =>
         verify_workflow_version_approval (ExecutionInstance.workflow_id instance)
           (ExecutionInstance.workflow_version instance) (McpToolNode.id (review_tool v))
           (McpToolNode.server_name (review_tool v)) (McpToolNode.tool_name (review_tool v)) material
     | None => mret false
     end) c) as Hversion.
  { intros [material|]; [apply shows_version; exact 0|by apply shows_ret]. }
  apply shows_bind.
  - apply shows_step. intros row Hi Ht Ha. left. split_and!; [done..|].
    exists (review_binding v). split; [by left|done].
  - intros [j e] Hb Hj. cbn in Hj. subst j. apply wp_io_bind. eapply wp_conseq; [apply Hversion|].
    intros [j e'] [[]|err|]; cbn [fst snd orb]; intros (-> & Hx & He); [| |done..].
    + split; [done|]. intros _. by apply Hx.
    + destruct He as [| ->]; [done|]. by split.
  - intros e. apply shows_bind; [apply Hversion|by intros t Hb <-|clear e].
    intros e. cbn [orb]. eapply wp_conseq with (Q := fun t' r => t'.1 = job
      /\ (r = Ok true -> backs t' c) /\ (r = Ok true \/ t'.2 = e)); [|naive_solver].
    destruct (review_permission_node v) as [pn|]; [apply shows_predecessor|].
    destruct (review_routine_scope v); [apply shows_ret; intros _; left; by apply Hscope'|].
    destruct (routine_authority_can_satisfy_mcp_review _); [apply shows_routine|by apply shows_ret].
Qed.

(** [resume] comes from a person's answer only. *)
Definition resumed_by (job : Job.t) (resume : option ResumePermission.t) : Prop :=
  forall r, resume = Some r -> ResumePermission.decision r = PermissionDecision.Approve -> approves job.
Lemma resume_approves job n resume :
  resumed_by job resume ->
  resume_decision_for_node n resume = Some PermissionDecision.Approve -> approves job.
Proof.
  intros Hr. unfold resume_decision_for_node. destruct resume as [r|]; [|done].
  case_match; [|done]. intros [= Hd]. by eapply Hr.
Qed.

Lemma decision_backed job instance resume v ms :
  (review_routine_scope v = true ->
   scope_ok (ExecutionInstance.id instance) (McpToolNode.id (review_tool v))
     (McpToolNode.tool_name (review_tool v)) (review_arguments v)) ->
  forall e, wp (job, e) (review_decision true instance resume v)
    (fun t' r => t'.1 = job /\ (r = Ok true -> backs t' (call_of instance v ms true))).
Proof.
  intros Hscope'. unfold review_decision.
  destruct (resume_decision_for_node _ _) as [[]|]; [| |by apply shows_ledger].
  - apply shows_bind.
    + apply shows_step. intros row Hi Ht Ha. left. split_and!; [done..|].
      exists (review_binding v). split; [by left|done].
    + intros [j e] Hb Hj. cbn in Hj. by subst j.
    + done.
  - done.
Qed.

Lemma wp_blocking {X} n label ms (task : io X) (Q : token -> res WorkflowRuntimeError.t X -> Prop) t :
  wp t task (fun t' r => Q t' r /\ forall e, Q t' (Err e)) ->
  wp t (run_blocking_node_with_timeout n label ms task) Q.
Proof.
  intros Hw. unfold run_blocking_node_with_timeout. intros env. exists t. split; [done|]. cbn.
  destruct (env (JoinWorker n (bounded_node_timeout_ms ms))).
  - eapply wp_conseq; [exact Hw|]. naive_solver.
  - apply wp_io_bind, wp_attempt. eapply wp_conseq; [exact Hw|]. cbn. naive_solver.
  - apply wp_io_bind, wp_attempt. eapply wp_conseq; [exact Hw|]. cbn. naive_solver.
Qed.
Lemma sound_call job e instance v ms approved :
  call_ok (job, e) (call_of instance v ms approved) ->
  wp (job, e) (call_mcp_tool instance v ms approved) (fun t' _ => t'.1 = job).
Proof.
  intros Hok. unfold call_mcp_tool. apply wp_io_bind, wp_blocking.
  intros env. exists (job, e). split; [done|]. cbn.
  destruct (env _) as [result|err|]; cbn; split; try done; by case_match.
Qed.

Lemma wp_run_io {X} (p : io X) i Q t :
  wp t p (fun t' r => Q t' (i, r)) -> wp t (run_io p i) Q.
Proof. intros Hw. by apply wp_bind. Qed.
Lemma wp_run_bind {X Y} (m : run X) (f : X -> run Y) i Q t :
  wp t (m i) (fun t' r => match r.2 with
                         | Ok x => wp t' (f x r.1) Q
                         | Err e => Q t' (r.1, Err e)
                         | Panic => Q t' (r.1, Panic)
                         end) -> wp t ((m ≫= f) i) Q.
Proof. intros Hw. apply wp_bind. eapply wp_conseq; [exact Hw|]. by intros t' [i' []]. Qed.

Lemma sound_mcp_node job tool input memory selected ms resume pn ready :
  sound_run job (execute_mcp_tool_node registry tool input memory selected ms true resume pn ready).
Proof.
  unfold execute_mcp_tool_node. apply sound_run_bind; [by apply sound_calm_run, calm_run_res|].
  intros args. apply sound_run_bind; [by apply sound_calm_run, calm_run_res|]. intros _.
  case_match; [apply sound_calm_run; calmly|].
  intros e i. apply wp_run_bind. cbn [snd fst]. apply wp_run_bind, wp_run_io.
  eapply quiet_keeps; [apply quiet_prepare|]. cbn [snd fst]. intros [[ready' v]|err|] Hv; [|done..].
  destruct (Hv _ eq_refl) as (<- & <- & Hs). cbn [snd] in *. clear Hv.
  assert (forall t approved, t.1 = job -> call_ok t (call_of i v (mcp_tool_timeout_ms (review_tool v)) approved) ->
    wp t ((done ← run_io (call_mcp_tool i v (mcp_tool_timeout_ms (review_tool v)) approved);
           mret (ready', done)) i)
      (fun t' r => t'.1 = job /\ ExecutionInstance.id r.1 = ExecutionInstance.id i)) as Hcall.
  { intros [j e'] approved Hj Hok. cbn in Hj. subst j. apply wp_run_bind, wp_run_io.
    eapply wp_conseq; [by apply sound_call|]. cbn [snd fst]. intros t' [x|err|] ?; by split. }
  destruct (needs_review _ _) eqn:Hneeds; cbn [negb].
  - apply wp_run_bind, wp_run_io. eapply wp_conseq; [apply (decision_backed job i resume v (mcp_tool_timeout_ms (review_tool v)) Hs)|].
    cbn [snd fst]. intros [j e'] [[]|err|] [Hj Hb]; cbn [fst] in Hj; subst j; [|..|done|done].
    + apply Hcall; [done|]. by apply Hb.
    + apply (sound_run_bind job); [apply sound_calm_run; auto with calm|]. intros approval.
      by apply sound_calm_run, calm_run_ret.
  - apply Hcall; [done|]. exact Hneeds.
Qed.

(** ** The system action node *)
Lemma sound_run_action job action command args ws d ms n :
  asks (SystemActionRun.mk (SystemActionNode.id action) (SystemActionNode.action_type action)
          command args ws d ms n) = false \/ approves job ->
  sound_io job (run_system_action action command args ws d ms n).
Proof. intros Hok e env. exists (job, e). by split. Qed.
Lemma sound_self_heal job action id command args ws d failed ms n :
  sound_io job (attempt_system_action_self_heal action id command args ws d failed ms n).
Proof.
  unfold attempt_system_action_self_heal.
  apply sound_io_bind; [by apply sound_calm_io, calm_model_call|]. intros repair.
  apply sound_io_bind; [by apply sound_calm_io|]. intros plan.
  case_match; [by apply sound_calm_io|].
  apply sound_io_bind; [apply sound_calm_io, calm_working_directory|]. intros directory.
  destruct (CapabilityClassification.requires_human_approval _) eqn:Hask; [by apply sound_calm_io|].
  apply sound_io_bind; [apply sound_run_action; by left|]. intros result.
  case_match; by apply sound_calm_io.
Qed.
Lemma sound_perform job action r ws id ms :
  CapabilityClassification.requires_human_approval (classify_action action r) = false
  \/ approves job ->
  sound_io job (perform_system_action action r ws id ms).
Proof.
  intros Hok. unfold perform_system_action.
  apply sound_io_bind; [apply sound_calm_io, calm_working_directory|]. intros d.
  apply sound_io_bind; [by apply sound_run_action|]. intros result.
  case_match; [by apply sound_calm_io|].
  apply sound_io_bind.
  - case_match; [by apply sound_calm_io|]. apply sound_io_bind; [apply sound_self_heal|].
    intros [repaired plan]. by apply sound_calm_io.
  - intros [result' repair]. by apply sound_calm_io.
Qed.
Lemma sound_system_node job action ws input memory selected ms resume :
  resumed_by job resume ->
  sound_run job (execute_system_action_node action ws input memory selected ms resume).
Proof.
  intros Hresume. unfold execute_system_action_node.
  apply sound_run_bind; [by apply sound_calm_run, calm_run_res|]. intros r.
  apply sound_run_bind; [by apply sound_calm_run, calm_run_res|]. intros _.
  case_match; [apply sound_calm_run; calmly|].
  unfold system_action_approval_step.
  destruct (CapabilityClassification.requires_human_approval (classify_action action r)) eqn:Hask;
    cbn [negb].
  - destruct (resume_decision_for_node _ resume) as [[]|] eqn:Hd.
    + apply sound_run_bind; [by apply sound_calm_run, calm_run_ret|]. intros [approval|];
        [by apply sound_calm_run, calm_run_ret|].
      apply sound_run_bind; [apply sound_calm_run, calm_the_instance|]. intros i.
      apply sound_run_io, sound_perform. right. by eapply resume_approves.
    + by intros e i.
    + intros e i. apply wp_run_bind, wp_run_bind. eapply quiet_keeps; [apply calm_pause_external|].
      by intros [i' [approval|err|]] Hi.
  - apply sound_run_bind; [by apply sound_calm_run, calm_run_ret|]. intros [approval|];
      [by apply sound_calm_run, calm_run_ret|].
    apply sound_run_bind; [apply sound_calm_run, calm_the_instance|]. intros i.
    apply sound_run_io, sound_perform. by left.
Qed.

(** ** Loops *)
Ltac calm_part := apply sound_calm_run; calmly.
Ltac calm_first := apply sound_run_bind; [calm_part|].

Lemma sound_body_step job node compiled ws input memory selected ready :
  sound_run job (execute_loop_body_node_step registry node compiled ws input memory selected true
                   ready).
Proof.
  unfold execute_loop_body_node_step, with_ready, completed_io. calm_first. intros instance.
  destruct node; try (by calm_part); [by apply sound_mcp_node|].
  apply sound_run_bind; [by apply sound_system_node|]. intros step. calm_part.
Qed.
Lemma sound_body_node job compiled ws incoming outgoing nodes index it n :
  sound_run job (execute_body_node registry compiled ws incoming outgoing nodes index true it n).
Proof.
  unfold execute_body_node. calm_first. intros node. case_match; [calm_part|]. calm_first. intros _.
  apply sound_run_bind; [apply sound_body_step|]. intros done. calm_part.
Qed.
Lemma sound_item job loop order compiled ws incoming outgoing nodes input selected index s x :
  sound_run job (execute_item registry loop order compiled ws incoming outgoing nodes input selected
                   index true s x).
Proof.
  unfold execute_item. destruct s as [[memory g] ready], x as [n item]. calm_first. intros instance.
  apply sound_run_bind; [apply sound_run_fold; intros; apply sound_body_node|]. intros it. calm_part.
Qed.
Lemma calm_empty_body s n : calm_run (record_empty_body s n).
Proof. unfold record_empty_body. calmly. Qed.
Lemma calm_body_outputs g s n : calm_run (record_body_outputs g s n).
Proof. unfold record_body_outputs. calmly. Qed.
#[local] Hint Resolve calm_empty_body calm_body_outputs : calm.
Lemma sound_loop_node job loop order compiled ws incoming outgoing nodes input memory selected index
    ready :
  sound_run job (execute_loop_node registry loop order compiled ws incoming outgoing nodes input
                   memory selected index true ready).
Proof.
  unfold execute_loop_node. do 3 (calm_first; intros ?). case_match; [calm_part|]. case_match.
  - calm_part.
  - apply sound_run_bind; [apply sound_run_fold; intros; apply sound_item|]. intros [[m g] r].
    calm_part.
Qed.

(** ** The run *)
Lemma sound_recorded {X} job s (m : run X) f : sound_run job m -> sound_run job (recorded s m f).
Proof.
  intros Hm. apply sound_run_bind; [by apply sound_run_attempt|]. intros r. calm_part.
Qed.
Lemma sound_node_step job p s node index input :
  Plan.has_ledger p = true -> resumed_by job (Plan.resume p) ->
  sound_run job (node_step registry p s node index input).
Proof.
  intros Hl Hr. unfold node_step. rewrite Hl. calm_first. intros instance.
  destruct node; try (by apply sound_recorded; unfold completed_io; calm_part).
  - unfold input_node_step. calm_part.
  - apply sound_recorded, sound_loop_node.
  - unfold permission_node_step. case_match; [calm_part|]. calm_first. intros effect. calm_first.
    intros ms. apply sound_recorded. calm_part.
  - unfold mcp_tool_step. rewrite Hl. calm_first. intros ms. apply sound_recorded, sound_mcp_node.
  - calm_first. intros ms. by apply sound_recorded, sound_system_node.
Qed.
Lemma sound_run_node job p s x :
  Plan.has_ledger p = true -> resumed_by job (Plan.resume p) ->
  sound_run job (run_node registry p s x).
Proof.
  intros Hl Hr. unfold run_node. destruct x as [index n]. calm_first. intros node. calm_first.
  intros instance. case_match; [calm_part|]. do 2 (calm_first; intros ?).
  apply sound_run_bind; [by apply sound_node_step|]. intros [s' [[outcome|approval]|err|]].
  - unfold complete_node. calm_part.
  - unfold pause_run. calm_part.
  - unfold fail_run. calm_part.
  - calm_part.
Qed.
Lemma sound_execute job compiled request ws resume :
  resumed_by job resume ->
  sound_run job (execute_workflow registry compiled request ws true resume).
Proof.
  intros Hr. unfold execute_workflow. do 2 (calm_first; intros ?).
  apply sound_run_bind; [unfold ensure_workflow_sandbox_ready; calm_part|]. intros [u|err|].
  - calm_first. intros instance. apply sound_run_bind; [unfold start_run; calm_part|]. intros _.
    unfold run_nodes. apply sound_run_bind.
    + apply sound_run_until. intros. by apply sound_run_node.
    + intros [s|outcome]; unfold finish_run; calm_part.
  - unfold fail_instance_before_execution. calm_part.
  - calm_part.
Qed.

(** ** The two entry points *)
Lemma sound_run_and_record job compiled fails m instance :
  sound_run job m -> sound_io job (run_and_record compiled fails m instance).
Proof.
  intros Hm e. unfold run_and_record. apply wp_bind. eapply wp_conseq.
  - eapply (sound_run_bind job); [by apply sound_run_attempt|]. intros result.
    unfold record_failure. calm_part.
  - intros [j e'] [i r] [Hj _]. by destruct r as [[x|err|]|err|].
Qed.

Lemma sound_upsert r token row :
  (WorkflowApproval.decision row = lit "approve" -> written_by r row) ->
  sound_io (Job.Resolve r) (db_op (upsert_approval token row)).
Proof.
  intros Hrow e. apply wp_map_err, wp_sql; [done|]. intros db. exists (Job.Resolve r, e).
  split; [|done]. split_and!; [done|done| |by left].
  intros row' (Hd & key & Hk). cbn in Hk. apply lookup_insert_Some in Hk as [[_ <-]|[_ Hk]].
  - right. exists r. split; [done|by apply Hrow].
  - left. split; [done|by exists key].
Qed.
Lemma sound_record r token i n tool material decision :
  trim i = trim (ResolvePermissionRequest.instance_id r) ->
  (trim decision = lit "approve" -> ResolvePermissionRequest.decision r = PermissionDecision.Approve) ->
  sound_io (Job.Resolve r) (record_workflow_approval token i n tool material decision).
Proof.
  intros Hi Hd. unfold record_workflow_approval. case_match; [by apply sound_calm_io|].
  case_match; [by apply sound_calm_io|].
  apply sound_io_bind; [apply sound_calm_io; calmly|]. intros now.
  apply sound_io_bind; [apply sound_calm_io; calmly|]. intros _.
  apply sound_upsert. cbn. intros Happ. split; [by apply Hd|by left].
Qed.
Lemma sound_record_version r token w v n server tool material :
  ResolvePermissionRequest.decision r = PermissionDecision.Approve ->
  sound_io (Job.Resolve r) (record_workflow_version_approval token w v n server tool material).
Proof.
  intros Hd. unfold record_workflow_version_approval. case_match; [by apply sound_calm_io|].
  apply sound_io_bind; [apply sound_calm_io; calmly|]. intros now.
  apply sound_io_bind; [apply sound_calm_io; calmly|]. intros _.
  apply sound_upsert. intros _. split; [done|]. right. by exists (trim w), v.
Qed.
Lemma sound_record_bound r instance n :
  ExecutionInstance.id instance = ResolvePermissionRequest.instance_id r ->
  sound_io (Job.Resolve r) (record_bound_mcp_approval registry r instance n).
Proof.
  intros Hi. unfold record_bound_mcp_approval. case_match; [|by apply sound_calm_io].
  case_match; [by apply sound_calm_io|].
  do 2 (apply sound_io_bind; [by apply sound_calm_io|]; intros ?).
  apply sound_io_bind.
  { apply sound_record; [by rewrite Hi|]. by destruct (ResolvePermissionRequest.decision r). }
  intros _. case_bool_decide as Hd; cbn [negb]; [|by apply sound_calm_io].
  apply sound_io_bind; [apply sound_calm_io; calmly|]. intros compiled.
  case_match; [|by apply sound_calm_io].
  apply sound_io_bind; [by apply sound_calm_io|]. intros [material|]; [|by apply sound_calm_io].
  by apply sound_record_version.
Qed.

Lemma sound_insert_new job instance scheduled :
  sound_io job (insert_new_instance instance scheduled).
Proof.
  apply sound_calm_io. unfold insert_new_instance, draw_id. calmly.
Qed.
Lemma sound_run_job request scheduled :
  sound_io (Job.Run request scheduled) (run_persisted_workflow registry request root scheduled).
Proof.
  unfold run_persisted_workflow. do 2 (apply sound_io_bind; [apply sound_calm_io; calmly|]; intros ?).
  apply sound_io_bind; [unfold new_instance, instance_id; apply sound_calm_io; calmly|]. intros instance.
  apply sound_io_bind; [apply sound_insert_new|]. intros _.
  by apply sound_run_and_record, sound_execute.
Qed.
Lemma claimed_id id now db instance :
  (claim_execution_instance_for_approval id now db).1 = Ok instance ->
  ExecutionInstance.id instance = id.
Proof. unfold claim_execution_instance_for_approval. repeat case_match; cbn; by intros [= <-]. Qed.
Lemma sound_resolve_job request :
  sound_io (Job.Resolve request) (resolve_persisted_permission registry request root).
Proof.
  unfold resolve_persisted_permission.
  do 4 (apply sound_io_bind; [apply sound_calm_io; calmly|]; intros ?).
  intros e. apply wp_io_bind, wp_map_err, wp_sql; [done|]. intros db.
  exists (Job.Resolve request, e). split; [apply moves_calm, calm_claim|].
  destruct (_ db).1 as [instance|err|] eqn:Hc; [|done..]. apply claimed_id in Hc.
  refine (sound_io_bind (Job.Resolve request) _ _ _ _ e); [by apply sound_calm_io|]. intros run_request.
  apply sound_io_bind; [apply sound_calm_io; calmly|]. intros compiled.
  apply sound_io_bind; [by apply sound_calm_io|]. intros n.
  apply sound_io_bind; [by apply sound_record_bound|]. intros _.
  apply sound_run_and_record, sound_execute. intros resume [= <-] Hd. by exists request.
Qed.

(** ** The invariant *)
Notation recorded_by l row := (exists r, Spawned (Job.Resolve r) ∈ l /\ written_by r row).
Definition genuine (l : list event) (e : Evidence.t) : Prop :=
  match e with
  | Evidence.Row row => recorded_by l row
  | Evidence.Grant grant => grant ∈ grants
  end.
Definition logged_ok (l : list event) (c : Call) : Prop :=
  match c with
  | ExecuteMcpTool call => tool_call_ok l call
  | RunSystemAction a => command_ok l a
  | _ => True
  end.
Definition ledger_ok (db : Db) (l : list event) : Prop :=
  (forall row, in_ledger db row -> recorded_by l row)
  /\ Db.routine_authority_grants db ⊆ grants.
Definition thread_known (l : list event) (t : token) : Prop :=
  Spawned t.1 ∈ l /\ forall e, t.2 = Some e -> genuine l e.
Definition Inv (db : Db) (ts : list (option token)) (l : list event) : Prop :=
  ledger_ok db l
  /\ (forall t, Some t ∈ ts -> thread_known l t)
  /\ (forall c a, Noted (Answered c a) ∈ l -> logged_ok l c).

(** The rest of the application may do anything but add approvals to the ledger
    or grants beyond [grants]. *)
Definition elsewhere (db db' : Db) : Prop :=
  (forall row, in_ledger db' row -> in_ledger db row)
  /\ Db.routine_authority_grants db' ⊆ grants.

Lemma genuine_app l x e : genuine l e -> genuine (l ++ x) e.
Proof. destruct e; [|done]. intros (r & Hr & ?). exists r. split; [apply elem_of_app; by left|done]. Qed.
Lemma thread_known_app l x t : thread_known l t -> thread_known (l ++ x) t.
Proof.
  intros [Hs He]. split; [apply elem_of_app; by left|]. intros e Hte. by apply genuine_app, He.
Qed.
Lemma logged_ok_app l x c : logged_ok l c -> logged_ok (l ++ x) c.
Proof.
  assert (forall j, Spawned j ∈ l -> Spawned j ∈ l ++ x) as Hl by (intros; apply elem_of_app; by left).
  destruct c; try done; cbn.
  - unfold tool_call_ok, approved_by_person. case_match; [naive_solver|done].
  - unfold command_ok. naive_solver.
Qed.
Lemma ledger_ok_app db l x : ledger_ok db l -> ledger_ok db (l ++ x).
Proof.
  intros [Hrow Hg]. split; [|done]. intros row (r & Hr & Hw)%Hrow. exists r.
  split; [apply elem_of_app; by left|done].
Qed.
(** A log that grows by [x] keeps the invariant when [x] does. *)
Lemma inv_app db ts ts' l x :
  Inv db ts l -> (forall t, Some t ∈ ts' -> Some t ∈ ts \/ thread_known (l ++ x) t) ->
  (forall c a, Noted (Answered c a) ∈ x -> logged_ok l c) -> Inv db ts' (l ++ x).
Proof.
  intros (Hl & Ht & Hc) Hts Hx. split_and!.
  - by apply ledger_ok_app.
  - intros t [Hin|]%Hts; [by apply thread_known_app, Ht|done].
  - intros c a [Hin|Hin]%elem_of_app; apply logged_ok_app; [by eapply Hc|by eapply Hx].
Qed.
Lemma elem_of_slots (ts : list (option token)) n o t :
  Some t ∈ <[n := o]> ts -> Some t ∈ ts \/ o = Some t.
Proof.
  intros [k Hk]%list_elem_of_lookup. apply list_lookup_insert_Some in Hk as [(_ & -> & _)|[_ Hk]];
    [by right|left; by eapply list_elem_of_lookup_2].
Qed.
Lemma slot_known db ts l n t : Inv db ts l -> ts !! n = Some (Some t) -> thread_known l t.
Proof. intros (_ & Ht & _) Hn. apply Ht. by eapply list_elem_of_lookup_2. Qed.

Lemma backs_logged l t c :
  thread_known l t -> backs t c -> approved_by_person l c \/ approved_by_routine c.
Proof.
  intros [_ He] [(e & Hte & Hsup)|?]; [|by right]. apply He in Hte. destruct e as [row|grant]; cbn in *.
  - left. destruct Hte as (r & ? & ?). by exists r, row.
  - right. right. by exists grant.
Qed.
Lemma allowed_logged l t c : thread_known l t -> allows t c -> logged_ok l c.
Proof.
  intros Hk. destruct c; try done; cbn.
  - unfold call_ok, tool_call_ok. case_match; [|done]. by apply backs_logged.
  - intros [?|(r & Hr & Hd)]; [by left|]. right. exists r. destruct Hk as [Hs _]. by rewrite Hr in Hs.
Qed.

(** The database may move on when its ledger stays accounted for. *)
Lemma inv_moves db db' ts ts' l :
  Inv db ts l -> (forall t, Some t ∈ ts' -> Some t ∈ ts \/ thread_known l t) -> ledger_ok db' l ->
  Inv db' ts' l.
Proof. intros (_ & Ht & Hc) Hts Hl. split_and!; [done| |done]. intros t [?|]%Hts; auto. Qed.

#[export] Instance protocol_sound :
  Sound elsewhere (fun job => (job, None)) moves starts answers
    (fun job t (_ : res WorkflowRuntimeError.t RunWorkflowResponse.t) => t.1 = job) Inv.
Proof.
  split.
  - intros db ts l job HI. eapply inv_app; [done| |by intros c a [=]%list_elem_of_singleton].
    intros t [?|[= ->]%list_elem_of_singleton]%elem_of_app; [by left|right].
    split; [apply elem_of_app; right; by left|done].
  - intros db db' ts l n t t' HI Hn (Hj & Hg & Hrow & He). pose proof (slot_known _ _ _ _ _ HI Hn) as [Hs Hte].
    destruct HI as ([Hl Hgr] & HI). assert (ledger_ok db' l) as Hl'.
    { split; [|by rewrite Hg]. intros row [?|(r & Hr & Hw)]%Hrow; [auto|]. exists r. by rewrite <- Hr. }
    eapply inv_moves; [by split|  |done]. intros t0 [?|[= <-]]%elem_of_slots; [by left|right].
    split; [by rewrite Hj|]. destruct He as [->|(e & -> & Htrue)]; [done|]. intros e' [= <-].
    destruct e as [row|grant]; cbn in *; [by apply Hl|by apply Hgr].
  - done.
  - intros db ts l n t t' c a HI Hn [-> Hall]. pose proof (slot_known _ _ _ _ _ HI Hn) as Hk.
    eapply inv_app; [done| |].
    + intros t0 [?|[= <-]]%elem_of_slots; [by left|right]. by apply thread_known_app.
    + intros c' a' [= -> ->]%list_elem_of_singleton. by eapply allowed_logged.
  - intros db ts l n t job r HI Hn Hr. eapply inv_app; [done| |by intros c a [=]%list_elem_of_singleton].
    intros t0 [?|]%elem_of_slots; [by left|done].
  - intros db ts l n HI. eapply inv_moves; [done| |by apply HI]. intros t0 [?|]%elem_of_slots; [by left|done].
  - intros db db' ts l HI [Hrow Hg]. eapply inv_moves; [done|by left|].
    destruct HI as ([Hl _] & _). split; [|done]. intros row ?%Hrow. auto.
Qed.

Lemma jobs_keep_to_the_protocol job :
  wp (job, None) (job_body registry root job) (fun t _ => t.1 = job).
Proof. destruct job; [apply sound_run_job|apply sound_resolve_job]. Qed.
Lemma reachable_inv db s :
  (forall row, ~ in_ledger db row) -> Db.routine_authority_grants db ⊆ grants ->
  reachable (job_body registry root) elsewhere db s -> exists ts, Inv (database s) ts (log s).
Proof.
  intros Hrow Hg. apply (protocol _ _ (fun job => (job, None)) moves starts answers
    (fun job t _ => t.1 = job) Inv); [apply jobs_keep_to_the_protocol|].
  split_and!; [split; [|done]|..].
  - intros row Hr. by destruct (Hrow row).
  - by intros t ?%not_elem_of_nil.
  - by intros c a ?%not_elem_of_nil.
Qed.


(** A command of a system action runs without asking only when it is classified as
    harmless; any other command runs only once a person has approved a pause. *)
Theorem commands_that_ask_were_approved db s action answer :
  (forall row, ~ in_ledger db row) -> Db.routine_authority_grants db ⊆ grants ->
  reachable (job_body registry root) elsewhere db s ->
  Noted (Answered (RunSystemAction action) answer) ∈ log s -> command_ok (log s) action.
Proof.
  intros Hrow Hg Hr Hin. destruct (reachable_inv _ _ Hrow Hg Hr) as (ts & _ & _ & Hc).
  exact (Hc _ _ Hin).
Qed.
End Safety.

(** ** Two runs to apply it to *)
Import World.

(** The calls of a state's log, by what there is to see of them. *)
Definition tool_calls (s : sys) : list McpToolCall.t :=
  omap (fun e => match e with Noted (Answered (ExecuteMcpTool c) _) => Some c | _ => None end)
    (log s).
Definition commands (s : sys) : list SystemActionRun.t :=
  omap (fun e => match e with Noted (Answered (RunSystemAction a) _) => Some a | _ => None end)
    (log s).
Definition tool_workflow : WorkflowIr.t :=
  workflow [start; WorkflowNode.McpTool
              (McpToolNode.mk _ (lit "send") (lit "send") (lit "mail") (lit "send_mail")
                 (Value.Object []) None None None); finish]
    [edge "e1" "in" "out" "send"; edge "e2" "send" "out" "out"].
Definition command_workflow : WorkflowIr.t :=
  workflow [start; WorkflowNode.SystemAction
              (SystemActionNode.mk (lit "send") (lit "send") SystemActionType.Shell
                 (lit "rm") [lit "notes"] None None 1000 1000); finish]
    [edge "e1" "in" "out" "send"; edge "e2" "send" "out" "out"].
Definition paused (ir : WorkflowIr.t) : list (move Env Job.t) * sys :=
  spawn (Job.Run request None) (begin ir) ▷ pilot 1000 [1] 400 0.
Definition resumed (ir : WorkflowIr.t) : list (move Env Job.t) * sys :=
  paused ir ▷ spawn (Job.Resolve (approval (default ([], []) (token_of (paused ir).2))))
    ▷ pilot 2000 [2] 400 1.
Lemma resumed_reachable outside ir : reachable body outside (store ir) (resumed ir).2.
Proof.
  apply (play_steps body outside (resumed ir).1).
  apply follows_then; [apply follows_then|]; [apply follows_then| |]; auto using follows_pilot, follows_spawn.
Qed.
Lemma tool_calls_logged (s : sys) c :
  c ∈ tool_calls s -> exists a, Noted (Answered (ExecuteMcpTool c) a) ∈ log s.
Proof.
  intros (e & He & Hc)%list_elem_of_omap. repeat case_match; simplify_eq. eauto.
Qed.
Lemma commands_logged (s : sys) c :
  c ∈ commands s -> exists a, Noted (Answered (RunSystemAction c) a) ∈ log s.
Proof.
  intros (e & He & Hc)%list_elem_of_omap. repeat case_match; simplify_eq. eauto.
Qed.
Lemma one_of {X Y} (f : X -> Y) l y : map f l = [y] -> exists x, x ∈ l /\ f x = y.
Proof. destruct l as [|x [|]]; intros [= Hx]. exists x. split; [by left|done]. Qed.
Definition nothing_reviewed (_ _ _ : str) (_ : Value) : Prop := False.
Lemma no_review i n tool args :
  quiet (verify_reviewed_workflow_scope i n tool args)
    (fun r => r = Ok true -> nothing_reviewed i n tool args).
Proof. done. Qed.

Lemma commands_that_ask_were_approved_witness :
  exists (s : sys) action, (SystemActionRun.command action, asks action) = (lit "rm", true)
                   /\ command_ok (log s) action.
Proof.
  destruct (one_of (fun c => (SystemActionRun.command c, asks c))
              (commands (resumed command_workflow).2) (lit "rm", true)) as (c & Hin & Hc);
    [vm_compute; reflexivity|].
  destruct (commands_logged _ _ Hin) as [a Ha].
  exists (resumed command_workflow).2, c. split; [exact Hc|].
  apply (commands_that_ask_were_approved registry root nothing_reviewed []
           no_review (fun _ => I) (store command_workflow) _ c a).
  - intros row [_ [token Ht]]. discriminate Ht.
  - done.
  - apply resumed_reachable.
  - exact Ha.
Defined.
