(* ===== verification/Authority.v ===== *)
(** * Native authority ([authority/mod.rs])

    A person who confirms an action in the native dialog leaves a proof: who
    confirmed it, for which session, which classes of operation, where and for
    how many steps.  The proofs live in one map behind a mutex; each operation is
    one critical section.  The dialog itself is outside: what came of it is an
    argument ([PromptOutcome]).  The code is that of a release build, without the
    automation of the dialog that debug builds have. *)
From stdpp Require Import sorting.
From S2P Require Import Prelude.
From S2P Require Import RustStr.
From S2P Require Import P0Contracts.
From S2P Require Import JsonValue.
From S2P Require Import Templates.
From S2P Require Import TaskTools.
From S2P Require Import EffectJournal.
Local Open Scope Z_scope.

(** ** Values *)
Module NativeAuthorityError.
Record t : Type := mk { code : str; boundary : str; message : str }.
End NativeAuthorityError.
Notation AuthorityError := NativeAuthorityError.t.

Definition authority_error (code : string) (message : str) : AuthorityError :=
  NativeAuthorityError.mk (lit code) (lit "NativeAuthorityBoundary") message.

Module NativeAuthorityProof.
Record t : Type := mk {
  proof_id : str;
  actor_id : str;
  session_id : str;
  operation_classes : list str;
  canonical_scopes : list str;
  max_steps : Z;
  issued_at_ms : Z;
  expires_at_ms : Z;
  nonce : str;
  persistence : str;
}.
End NativeAuthorityProof.
Notation Proof := NativeAuthorityProof.t.

Module RequestNativeAuthorityProof.
Record t : Type := mk {
  session_id : str;
  operation_classes : list str;
  scopes : list str;
  max_steps : Z;
  persistence : str;
  locale : option str;
}.
End RequestNativeAuthorityProof.
Notation ProofRequest := RequestNativeAuthorityProof.t.

Module NativeAuthorityProofResponse.
Record t : Type := mk { proof_id : str; expires_at_ms : Z; persistence : str }.
End NativeAuthorityProofResponse.
Notation ProofResponse := NativeAuthorityProofResponse.t.

Module NativeAuthorityExpectation.
Record t : Type := mk {
  actor_id : str;
  session_id : str;
  operation_classes : list str;
  canonical_scopes : list str;
  max_steps : Z;
  allowed_persistences : list str;
}.
End NativeAuthorityExpectation.
Notation Expectation := NativeAuthorityExpectation.t.

Definition MAX_PROOF_TTL_MS : Z := 15 * 60 * 1000.
Definition MAX_AUTHORIZED_STEPS : Z := 50.

(** [u64::saturating_sub] *)
Definition saturating_sub_u64 (a b : Z) : Z := clamp 0 u64_max (a - b).

(** ** Sorting and deduplicating strings *)
Definition str_le (a b : str) : Prop := str_ltb b a = false.
#[export] Instance str_le_dec a b : Decision (str_le a b).
Proof. unfold str_le. apply _. Defined.
(** [Vec::sort] *)
Definition sort (l : list str) : list str := merge_sort str_le l.
(** [Vec::dedup] drops an element equal to the one before it. *)
Fixpoint dedup (l : list str) : list str :=
  match l with
  | x :: l' =>
      match l' with
      | y :: _ => if str_eqb x y then dedup l' else x :: dedup l'
      | [] => [x]
      end
  | [] => []
  end.

(** [value.replace('-', "_")] *)
Definition dashes_to_underscores (s : str) : str :=
  map (fun c => if c =? ch "-" then ch "_" else c) s.

(** ** The checks of a request *)
Definition required_value (label : string) (value : str) : res AuthorityError str :=
  let value := trim value in
  if is_empty value
  then Err (authority_error "authority_value_missing" (lit label ++ lit " is required."))
  else Ok value.

Definition canonical_values (label : string) (values : list str) : res AuthorityError (list str) :=
  values ← try_map (fun value =>
    v ← required_value label value;
    Ok (dashes_to_underscores (to_ascii_lowercase v))) values;
  let values := dedup (sort values) in
  match values with
  | [] => Err (authority_error "authority_operation_missing" (lit "Choose an action to allow."))
  | _ => Ok values
  end.

Definition canonical_persistence (value : str) : res AuthorityError str :=
  v ← required_value "persistence" value;
  let value := dashes_to_underscores (to_ascii_lowercase v) in
  if in_list value ["one_time"; "session_gated"; "global_trust"]
  then Ok value
  else Err (authority_error "authority_persistence_invalid"
              (lit "That permission duration is not available.")).

Definition validate_steps (max_steps : Z) : res AuthorityError unit :=
  ensure (in_range 1 MAX_AUTHORIZED_STEPS max_steps)
    (authority_error "authority_steps_invalid" (lit "Choose between 1 and 50 actions.")).

Definition actuation_prefix : string := "actuation-session:".
Definition mismatch (code : string) (message : string) : AuthorityError :=
  authority_error code (lit message).

(** ** The dialog *)
Module NativePromptCopy.
Record t : Type := mk {
  title : str; body : str; allow_once : str; allow_persistent : str; deny : str;
}.
End NativePromptCopy.

Definition plain_operation (locale operation : str) : str :=
  let label :=
    if equals operation "filesystem_read" then utf8 "read files"
    else if in_list operation ["filesystem_write"; "external_writes"] then utf8 "change files"
    else if in_list operation ["shell_command"; "shell_commands"] then utf8 "run a system command"
    else if equals operation "delete_file" then utf8 "delete files"
    else if equals operation "registered_task_tool" then utf8 "run the approved task"
    else if equals operation "codebase_patch" then utf8 "change project code"
    else if equals operation "codebase_compile" then utf8 "check the project build"
    else utf8 "perform the approved action" in
  if begins "de" locale then
    if equals operation "filesystem_read" then utf8 "Dateien lesen"
    else if in_list operation ["filesystem_write"; "external_writes"] then utf8 "Dateien ändern"
    else if equals operation "delete_file" then utf8 "Dateien löschen"
    else utf8 "die genehmigte Aktion ausführen"
  else if begins "es" locale then
    if equals operation "filesystem_read" then utf8 "leer archivos"
    else if in_list operation ["filesystem_write"; "external_writes"] then utf8 "cambiar archivos"
    else if equals operation "delete_file" then utf8 "eliminar archivos"
    else utf8 "realizar la acción aprobada"
  else if begins "fr" locale then
    if equals operation "filesystem_read" then utf8 "lire des fichiers"
    else if in_list operation ["filesystem_write"; "external_writes"] then utf8 "modifier des fichiers"
    else if equals operation "delete_file" then utf8 "supprimer des fichiers"
    else utf8 "effectuer l’action approuvée"
  else if begins "id" locale then
    if equals operation "filesystem_read" then utf8 "membaca file"
    else if in_list operation ["filesystem_write"; "external_writes"] then utf8 "mengubah file"
    else if equals operation "delete_file" then utf8 "menghapus file"
    else utf8 "melakukan tindakan yang disetujui"
  else if begins "ja" locale then
    if equals operation "filesystem_read" then utf8 "ファイルを読む"
    else if in_list operation ["filesystem_write"; "external_writes"] then utf8 "ファイルを変更します"
    else if equals operation "delete_file" then utf8 "ファイルを削除します"
    else utf8 "承認済みの操作を実行します"
  else if begins "pt" locale then
    if equals operation "filesystem_read" then utf8 "ler arquivos"
    else if in_list operation ["filesystem_write"; "external_writes"] then utf8 "alterar arquivos"
    else if equals operation "delete_file" then utf8 "apagar arquivos"
    else utf8 "realizar a ação aprovada"
  else if begins "ru" locale then
    if equals operation "filesystem_read" then utf8 "читать файлы"
    else if in_list operation ["filesystem_write"; "external_writes"] then utf8 "изменять файлы"
    else if equals operation "delete_file" then utf8 "удалять файлы"
    else utf8 "выполнить одобренное действие"
  else if begins "uk" locale then
    if equals operation "filesystem_read" then utf8 "читати файли"
    else if in_list operation ["filesystem_write"; "external_writes"] then utf8 "змінювати файли"
    else if equals operation "delete_file" then utf8 "видаляти файли"
    else utf8 "виконати схвалену дію"
  else if begins "vi" locale then
    if equals operation "filesystem_read" then utf8 "đọc tệp"
    else if in_list operation ["filesystem_write"; "external_writes"] then utf8 "thay đổi tệp"
    else if equals operation "delete_file" then utf8 "xóa tệp"
    else utf8 "thực hiện thao tác đã duyệt"
  else if begins "zh" locale then
    if equals operation "filesystem_read" then utf8 "读取文件"
    else if in_list operation ["filesystem_write"; "external_writes"] then utf8 "更改文件"
    else if equals operation "delete_file" then utf8 "删除文件"
    else utf8 "执行已批准的操作"
  else label.

Definition plain_operation_group (locale : str) : str :=
  if begins "de" locale then utf8 "genehmigte lokale Aufgaben ausführen"
  else if begins "es" locale then utf8 "ejecutar las tareas locales aprobadas"
  else if begins "fr" locale then utf8 "exécuter les tâches locales approuvées"
  else if begins "id" locale then utf8 "menjalankan tugas lokal yang disetujui"
  else if begins "ja" locale then utf8 "承認済みのローカルタスクを実行します"
  else if begins "pt" locale then utf8 "executar as tarefas locais aprovadas"
  else if begins "ru" locale then utf8 "выполнить одобренные локальные задачи"
  else if begins "uk" locale then utf8 "виконати схвалені локальні завдання"
  else if begins "vi" locale then utf8 "chạy các tác vụ cục bộ đã duyệt"
  else if begins "zh" locale then utf8 "执行已批准的本地任务"
  else utf8 "run the approved local tasks".

Definition plain_scope (locale scope : str) : str :=
  if negb (begins actuation_prefix scope) then scope else
  if begins "de" locale then utf8 "dieser Aufgabe"
  else if begins "es" locale then utf8 "esta tarea"
  else if begins "fr" locale then utf8 "cette tâche"
  else if begins "id" locale then utf8 "tugas ini"
  else if begins "ja" locale then utf8 "このタスク"
  else if begins "pt" locale then utf8 "esta tarefa"
  else if begins "ru" locale then utf8 "этой задаче"
  else if begins "uk" locale then utf8 "цьому завданні"
  else if begins "vi" locale then utf8 "tác vụ này"
  else if begins "zh" locale then utf8 "此任务中"
  else utf8 "this task".

(** The sentence of the dialog and its three labels for a locale: allow once,
    allow for the session, always allow; then the label that denies. *)
Definition prompt_texts (locale operation place : str)
  : str * str * str * str * str * str * str :=
  if begins "de" locale then
    (utf8 "Diese Aktion erlauben?",
     utf8 "OOMU möchte " ++ operation ++ utf8 " in " ++ place ++ utf8 ".",
     utf8 "Sie entscheiden, wie lange.",
     utf8 "Einmal erlauben",
     utf8 "Für diese Sitzung",
     utf8 "Immer erlauben",
     utf8 "Nicht erlauben")
  else if begins "es" locale then
    (utf8 "¿Permitir esta acción?",
     utf8 "OOMU quiere " ++ operation ++ utf8 " en " ++ place ++ utf8 ".",
     utf8 "Tú decides durante cuánto tiempo.",
     utf8 "Permitir una vez",
     utf8 "Durante esta sesión",
     utf8 "Permitir siempre",
     utf8 "No permitir")
  else if begins "fr" locale then
    (utf8 "Autoriser cette action ?",
     utf8 "OOMU souhaite " ++ operation ++ utf8 " dans " ++ place ++ utf8 ".",
     utf8 "Vous choisissez la durée.",
     utf8 "Autoriser une fois",
     utf8 "Pour cette session",
     utf8 "Toujours autoriser",
     utf8 "Ne pas autoriser")
  else if begins "id" locale then
    (utf8 "Izinkan tindakan ini?",
     utf8 "OOMU ingin " ++ operation ++ utf8 " di " ++ place ++ utf8 ".",
     utf8 "Anda menentukan berapa lama.",
     utf8 "Izinkan sekali",
     utf8 "Untuk sesi ini",
     utf8 "Selalu izinkan",
     utf8 "Jangan izinkan")
  else if begins "ja" locale then
    (utf8 "この操作を許可しますか？",
     utf8 "OOMU が " ++ place ++ utf8 " で " ++ operation ++ utf8 "。",
     utf8 "許可する期間を選べます。",
     utf8 "1回だけ許可",
     utf8 "このセッション中",
     utf8 "常に許可",
     utf8 "許可しない")
  else if begins "pt" locale then
    (utf8 "Permitir esta ação?",
     utf8 "O OOMU quer " ++ operation ++ utf8 " em " ++ place ++ utf8 ".",
     utf8 "Você escolhe por quanto tempo.",
     utf8 "Permitir uma vez",
     utf8 "Nesta sessão",
     utf8 "Permitir sempre",
     utf8 "Não permitir")
  else if begins "ru" locale then
    (utf8 "Разрешить это действие?",
     utf8 "OOMU хочет " ++ operation ++ utf8 " в " ++ place ++ utf8 ".",
     utf8 "Вы выбираете срок разрешения.",
     utf8 "Разрешить один раз",
     utf8 "Для этого сеанса",
     utf8 "Разрешать всегда",
     utf8 "Не разрешать")
  else if begins "uk" locale then
    (utf8 "Дозволити цю дію?",
     utf8 "OOMU хоче " ++ operation ++ utf8 " у " ++ place ++ utf8 ".",
     utf8 "Ви обираєте тривалість дозволу.",
     utf8 "Дозволити один раз",
     utf8 "Для цього сеансу",
     utf8 "Завжди дозволяти",
     utf8 "Не дозволяти")
  else if begins "vi" locale then
    (utf8 "Cho phép thao tác này?",
     utf8 "OOMU muốn " ++ operation ++ utf8 " trong " ++ place ++ utf8 ".",
     utf8 "Bạn chọn thời hạn cho phép.",
     utf8 "Chỉ cho phép lần này",
     utf8 "Trong phiên này",
     utf8 "Luôn cho phép",
     utf8 "Không cho phép")
  else if begins "zh" locale then
    (utf8 "允许此操作？",
     utf8 "OOMU 想要在" ++ place ++ operation ++ utf8 "。",
     utf8 "你可以选择允许时长。",
     utf8 "仅允许一次",
     utf8 "本次会话",
     utf8 "始终允许",
     utf8 "不允许")
  else 
    (utf8 "Allow this action?",
     utf8 "OOMU wants to " ++ operation ++ utf8 " in " ++ place ++ utf8 ".",
     utf8 "You choose how long.",
     utf8 "Allow once",
     utf8 "For this session",
     utf8 "Always allow",
     utf8 "Don't allow").

Definition native_prompt_copy (locale : str) (operations scopes : list str) (persistence : str)
    (_max_steps : Z) : NativePromptCopy.t :=
  let operation_labels := dedup (sort (map (plain_operation locale) operations)) in
  let operation :=
    if (3 <? length operation_labels)%nat then plain_operation_group locale
    else join (lit ", ") operation_labels in
  let place := join (lit ", ") (map (plain_scope locale) scopes) in
  let '(title, sentence, choice, allow_once, allow_session, allow_always, deny) :=
    prompt_texts locale operation place in
  NativePromptCopy.mk title (sentence ++ [10; 10] ++ choice) allow_once
    (if equals persistence "global_trust" then allow_always else allow_session) deny.

(** How the dialog ended: rfd reports the label of the button that was pressed. *)
Module MessageDialogResult.
Inductive t : Type := Custom (label : str) | Other.
End MessageDialogResult.
Module PromptOutcome.
Inductive t : Type :=
  | NoWindow
  | NotRestored
  | NotShown
  | NotFocused
  | TimedOut
  | Answered (result : MessageDialogResult.t).
End PromptOutcome.

Definition window_error (message : string) : AuthorityError :=
  mismatch "authority_native_prompt_window_unavailable" message.

Definition selected_persistence (copy : NativePromptCopy.t) (persistence : str)
    (outcome : PromptOutcome.t) : res AuthorityError str :=
  match outcome with
  | PromptOutcome.NoWindow =>
      Err (window_error "OOMU could not attach the approval prompt to its window.")
  | PromptOutcome.NotRestored =>
      Err (window_error "OOMU could not restore its window for the approval prompt.")
  | PromptOutcome.NotShown =>
      Err (window_error "OOMU could not show its window for the approval prompt.")
  | PromptOutcome.NotFocused =>
      Err (window_error "OOMU could not focus its window for the approval prompt.")
  | PromptOutcome.TimedOut =>
      Err (mismatch "authority_native_prompt_timeout"
             "The approval prompt timed out. Return to OOMU and try again.")
  | PromptOutcome.Answered (MessageDialogResult.Custom value) =>
      if str_eqb value (NativePromptCopy.allow_once copy) then Ok (lit "one_time")
      else if str_eqb value (NativePromptCopy.allow_persistent copy) then Ok persistence
      else Err (mismatch "authority_user_denied" "You chose not to allow this action.")
  | PromptOutcome.Answered MessageDialogResult.Other =>
      Err (mismatch "authority_user_denied" "You chose not to allow this action.")
  end.

(** The machine: its disk, its environment and the folders of the application.
    [metadata] is whether a path is a file, and its permission bits. *)
Record Host : Type := {
  files : FileSystem;
  path_exists : path -> bool;
  metadata : path -> option (bool * Z);
  home_variable : option str;
  home_dir : option path;
  search_path : list path;
  app_data_root : path;
  development_repo_root : path;
}.

Section Authority.
Context {D : Digest} (host : Host).

Definition expand_home (p : str) : path :=
  if equals p "~"
  then match home_variable host with
       | Some home => path_of_str home
       | None => path_of_str p
       end
  else match strip_prefix (lit "~/") p with
       | Some rest =>
           match home_variable host with
           | Some home => path_join (path_of_str home) (path_of_str rest)
           | None => path_of_str p
           end
       | None => path_of_str p
       end.

Definition canonicalize_allowing_missing_leaf (p : path) : option path :=
  if path_exists host p then canonicalize (files host) p
  else
    parent ← parent p;
    canonical_parent ← canonicalize (files host) parent;
    Some (match file_name p with
          | Some name => path_join canonical_parent [name]
          | None => canonical_parent
          end).

Definition canonical_scope (scope : str) : res AuthorityError str :=
  scope ← required_value "scope" scope;
  if begins actuation_prefix scope then Ok scope
  else match canonicalize_allowing_missing_leaf (expand_home scope) with
       | Some value => Ok (path_display value)
       | None => Err (authority_error "authority_scope_invalid"
                        (lit "OOMU could not verify that location."))
       end.

Definition canonical_scopes (scopes : list str) : res AuthorityError (list str) :=
  values ← try_map canonical_scope scopes;
  let values := dedup (sort values) in
  match values with
  | [] => Err (authority_error "authority_scope_missing" (lit "Choose a location for this action."))
  | _ => Ok values
  end.

(** ** The proofs *)
Notation Proofs := (gmap str Proof).

(** [bytes]: the 32 random bytes of the nonce. *)
Definition proof_id_of (actor_id session_id nonce : str) (issued_at_ms : Z) : str :=
  lit "authority_" ++ sha256_hex (as_bytes
    (actor_id ++ lit ":" ++ session_id ++ lit ":" ++ nonce ++ lit ":" ++ show_int issued_at_ms)).

Definition insert_after_presence (now : Z) (bytes : list Z) (actor_id : str)
    (request : ProofRequest) (proofs : Proofs) : res AuthorityError (ProofResponse * Proofs) :=
  session_id ← required_value "session_id" (RequestNativeAuthorityProof.session_id request);
  operation_classes ← canonical_values "operation_classes"
    (RequestNativeAuthorityProof.operation_classes request);
  scopes ← canonical_scopes (RequestNativeAuthorityProof.scopes request);
  _ ← validate_steps (RequestNativeAuthorityProof.max_steps request);
  persistence ← canonical_persistence (RequestNativeAuthorityProof.persistence request);
  let expires_at_ms := saturating_add_u64 now MAX_PROOF_TTL_MS in
  let nonce := hex_encode bytes in
  let proof_id := proof_id_of actor_id session_id nonce now in
  Ok (NativeAuthorityProofResponse.mk proof_id expires_at_ms persistence,
      <[proof_id := NativeAuthorityProof.mk proof_id actor_id session_id operation_classes scopes
          (RequestNativeAuthorityProof.max_steps request) now expires_at_ms nonce persistence]> proofs).

(** What a proof that was taken out of the store must satisfy. *)
Definition check_proof (now : Z) (expected : Expectation) (proof : Proof) : res AuthorityError Proof :=
  _ ← guard_not
    ((NativeAuthorityProof.expires_at_ms proof <? now)
     || (MAX_PROOF_TTL_MS <?
         saturating_sub_u64 (NativeAuthorityProof.expires_at_ms proof)
           (NativeAuthorityProof.issued_at_ms proof)))
    (mismatch "authority_proof_expired" "This approval has expired.");
  _ ← ensure (str_eqb (NativeAuthorityProof.actor_id proof) (NativeAuthorityExpectation.actor_id expected))
    (mismatch "authority_actor_mismatch" "This approval belongs to a different local identity.");
  _ ← ensure (str_eqb (NativeAuthorityProof.session_id proof) (NativeAuthorityExpectation.session_id expected))
    (mismatch "authority_session_mismatch" "This approval belongs to a different session.");
  _ ← ensure (bool_decide (NativeAuthorityProof.operation_classes proof =
                           NativeAuthorityExpectation.operation_classes expected))
    (mismatch "authority_operation_mismatch" "This approval does not cover that action.");
  _ ← ensure (bool_decide (NativeAuthorityProof.canonical_scopes proof =
                           NativeAuthorityExpectation.canonical_scopes expected))
    (mismatch "authority_scope_mismatch" "This approval does not cover that location.");
  _ ← ensure (NativeAuthorityProof.max_steps proof =? NativeAuthorityExpectation.max_steps expected)
    (mismatch "authority_step_mismatch" "This approval has a different action limit.");
  _ ← ensure (existsb (fun value => str_eqb value (NativeAuthorityProof.persistence proof))
                (NativeAuthorityExpectation.allowed_persistences expected))
    (mismatch "authority_persistence_mismatch" "This approval has a different duration.");
  Ok proof.

(** The expectation in canonical form. *)
Definition canonical_expectation (expected : Expectation) : res AuthorityError Expectation :=
  operation_classes ← canonical_values "operation_classes"
    (NativeAuthorityExpectation.operation_classes expected);
  scopes ← canonical_scopes (NativeAuthorityExpectation.canonical_scopes expected);
  _ ← validate_steps (NativeAuthorityExpectation.max_steps expected);
  allowed ← try_map canonical_persistence (NativeAuthorityExpectation.allowed_persistences expected);
  Ok (NativeAuthorityExpectation.mk (NativeAuthorityExpectation.actor_id expected)
        (NativeAuthorityExpectation.session_id expected) operation_classes scopes
        (NativeAuthorityExpectation.max_steps expected) allowed).

Definition consume (now : Z) (proof_id : str) (expected : Expectation) (proofs : Proofs)
  : res AuthorityError Proof * Proofs :=
  match canonical_expectation expected with
  | Ok expected =>
      match required_value "proof_id" proof_id with
      | Ok proof_id =>
          match proofs !! proof_id with
          | None =>
              (Err (mismatch "authority_proof_missing" "This approval is no longer available."), proofs)
          | Some proof => (check_proof now expected proof, delete proof_id proofs)
          end
      | Err e => (Err e, proofs)
      | Panic => (Panic, proofs)
      end
  | Err e => (Err e, proofs)
  | Panic => (Panic, proofs)
  end.

Definition request_after_native_presence (outcome : PromptOutcome.t) (now : Z) (bytes : list Z)
    (actor_id : str) (request : ProofRequest) (proofs : Proofs)
  : res AuthorityError (ProofResponse * Proofs) :=
  session_id ← required_value "session_id" (RequestNativeAuthorityProof.session_id request);
  operation_classes ← canonical_values "operation_classes"
    (RequestNativeAuthorityProof.operation_classes request);
  scopes ← canonical_scopes (RequestNativeAuthorityProof.scopes request);
  _ ← validate_steps (RequestNativeAuthorityProof.max_steps request);
  persistence ← canonical_persistence (RequestNativeAuthorityProof.persistence request);
  let copy := native_prompt_copy (default (lit "en-US") (RequestNativeAuthorityProof.locale request))
    operation_classes scopes persistence (RequestNativeAuthorityProof.max_steps request) in
  selected ← selected_persistence copy persistence outcome;
  insert_after_presence now bytes actor_id
    (RequestNativeAuthorityProof.mk session_id operation_classes scopes
       (RequestNativeAuthorityProof.max_steps request) selected
       (RequestNativeAuthorityProof.locale request)) proofs.
End Authority.
