(* ===== verification/TerminalContract.v ===== *)
(** * Terminal commands ([tools/terminal_contract.rs], [shield_gate/terminal_execution.rs],
      [shield_gate/terminal_runtime.rs])

    A command is one executable with its arguments, never a shell line.  The
    contract validates it, classifies it, decides whether it may run in the
    project without asking, and shows it to the person who is asked.  The runtime
    reads a command that was typed and finds the program that is run.  The
    theorems follow the definitions. *)
From S2P Require Import Prelude.
From S2P Require Import RustStr.
From S2P Require Import JsonValue.
From S2P Require Import ToolSecurity.
From S2P Require Import Templates.
From S2P Require Import Authority.
Local Open Scope Z_scope.

Module NativeTerminalRequest.
Record t : Type := mk {
  executable : str;
  args : list str;
  env : gmap str str;
  cwd : option str;
  timeout : option Z;
}.
End NativeTerminalRequest.
Notation TerminalRequest := NativeTerminalRequest.t.

Definition DEFAULT_TERMINAL_TIMEOUT_MS : Z := 30000.
Definition MAX_TERMINAL_TIMEOUT_MS : Z := 300000.
Definition SCRIPT_EXECUTORS : list string :=
  ["bash"; "sh"; "zsh"; "python"; "python3"; "node"; "osascript"]%string.
Definition NETWORK_CLIS : list string :=
  ["aws"; "az"; "curl"; "gcloud"; "gh"; "kubectl"; "scp"; "ssh"; "wget"]%string.

(** ** Characters *)
Definition shell_control_characters : list Z :=
  [ch "&"; ch "|"; ch ";"; ch "`"; 10; 13; ch ">"; ch "<"; ch "$"].
Definition contains_shell_control (value : str) : bool :=
  existsb (fun character => existsb (Z.eqb character) shell_control_characters) value.
Definition contains_nul (value : str) : bool := existsb (Z.eqb 0) (as_bytes value).
Definition command_uses_compound_shell_syntax (request : TerminalRequest) : bool :=
  contains_shell_control (NativeTerminalRequest.executable request)
  || existsb contains_shell_control (NativeTerminalRequest.args request).

Definition executable_key (executable : str) : option str :=
  match file_name (path_of_str executable) with
  | Some name =>
      let name := to_ascii_lowercase (trim name) in
      if not_empty name then Some name else None
  | None => None
  end.
Definition key_among (executable : str) (names : list string) : bool :=
  match executable_key executable with Some key => in_list key names | None => false end.

(** ** Paths *)
Fixpoint normalize_loop (absolute : bool) (normalized p : path) : path :=
  match p with
  | [] => normalized
  | component :: p =>
      if equals component "." then normalize_loop absolute normalized p
      else if str_eqb component parent_dir then
        normalize_loop absolute
          (match parent normalized with
           | Some up => up
           | None => if absolute then normalized else path_join normalized [parent_dir]
           end) p
      else normalize_loop absolute (path_join normalized [component]) p
  end.
Definition normalize_lexically (p : path) : path := normalize_loop (is_absolute p) [] p.

(** How far a typed command has been read. *)
Module Words.
Record t : Type := mk { words : list str; word : str; quote : option Z; escaped : bool }.
End Words.

Section Terminal.
Context (host : Host).

(** The walk up to the nearest ancestor that resolves; [suffix] is what was
    left behind, the last name first.  The path has at most [length] of them. *)
Fixpoint resolve_ancestor (fuel : nat) (ancestor suffix : path) : option path :=
  match fuel with
  | O => None
  | S fuel =>
      match file_name ancestor with
      | None => None
      | Some name =>
          let suffix := suffix ++ [name] in
          match parent ancestor with
          | None => None
          | Some ancestor =>
              match canonicalize (files host) ancestor with
              | Some canonical =>
                  Some (normalize_lexically
                          (foldl (fun p component => path_join p [component]) canonical (rev suffix)))
              | None => resolve_ancestor fuel ancestor suffix
              end
          end
      end
  end.
Definition canonical_or_lexical (p : path) : path :=
  match canonicalize (files host) p with
  | Some canonical => canonical
  | None =>
      match resolve_ancestor (length p) p [] with
      | Some resolved => resolved
      | None => normalize_lexically p
      end
  end.

(** ** Deletions name exact targets *)
Definition deletion_target_refused (request : TerminalRequest) (protected_roots : list path)
    (target : str) : bool :=
  let target_path := path_of_str target in
  let resolved_target :=
    if is_absolute target_path then target_path
    else match NativeTerminalRequest.cwd request with
         | Some cwd => path_join (path_of_str cwd) target_path
         | None => target_path
         end in
  let resolved := canonical_or_lexical resolved_target in
  let lexical_escape := existsb (fun component => str_eqb component parent_dir) target_path in
  let unresolved :=
    contains_char (ch "$") target || equals target "~" || begins "~/" target in
  let broad :=
    in_list target ["/"; "."; ".."]
    || contains_char (ch "*") target || contains_char (ch "?") target
    || contains_char (ch "[") target
    || match home_dir host with
       | Some home => bool_decide (resolved = canonical_or_lexical home)
       | None => false
       end
    || existsb (fun root => bool_decide (resolved = canonical_or_lexical root)) protected_roots in
  unresolved || lexical_escape || broad.

Definition deletes (request : TerminalRequest) : bool :=
  key_among (NativeTerminalRequest.executable request) ["rm"; "rmdir"].

Definition validate_exact_deletion_target (request : TerminalRequest) (protected_roots : list path)
  : res str unit :=
  if negb (deletes request) then Ok tt
  else
    match List.filter (fun arg => negb (begins "-" arg)) (NativeTerminalRequest.args request) with
    | [] => Err (lit "A deletion command requires at least one exact target.")
    | targets =>
        for_each (fun target =>
          guard_not (deletion_target_refused request protected_roots target)
            (lit "A deletion command must name an exact target and cannot remove a protected folder."))
          targets
    end.

(** ** Validation *)
Definition invalid_environment (env : gmap str str) : bool :=
  existsb (fun '(key, value) =>
    is_empty (trim key) || contains_char (ch "=") key || contains_nul key || contains_nul value)
    (map_to_list env).

Definition validate (self : TerminalRequest) : res str TerminalRequest :=
  let self :=
    NativeTerminalRequest.mk (trim (NativeTerminalRequest.executable self))
      (NativeTerminalRequest.args self) (NativeTerminalRequest.env self)
      (NativeTerminalRequest.cwd self) (NativeTerminalRequest.timeout self) in
  _ ← guard_not (is_empty (NativeTerminalRequest.executable self))
        (lit "terminal_execute.executable must not be empty.");
  _ ← guard_not
        (contains_nul (NativeTerminalRequest.executable self)
         || existsb contains_nul (NativeTerminalRequest.args self)
         || invalid_environment (NativeTerminalRequest.env self)
         || match NativeTerminalRequest.cwd self with Some cwd => contains_nul cwd | None => false end)
        (lit "terminal_execute contains an invalid executable, argument, environment key, or working directory.");
  _ ← guard_not
        (match NativeTerminalRequest.timeout self with
         | Some timeout => (timeout =? 0) || (MAX_TERMINAL_TIMEOUT_MS <? timeout)
         | None => false
         end)
        (lit "terminal_execute.timeout must be between 1 and 300000 milliseconds.");
  _ ← validate_exact_deletion_target self [];
  Ok self.

Definition validate_protected_deletion_roots (self : TerminalRequest) (protected_roots : list path)
  : res str unit := validate_exact_deletion_target self protected_roots.

Definition timeout_ms (self : TerminalRequest) : Z :=
  default DEFAULT_TERMINAL_TIMEOUT_MS (NativeTerminalRequest.timeout self).

(** ** Classification *)
Definition reads_only (tier : CapabilityRiskTier.t) : bool :=
  match tier with CapabilityRiskTier.ReadOnly | CapabilityRiskTier.FileRead => true | _ => false end.

Definition classification (self : TerminalRequest) : Classification :=
  if command_uses_compound_shell_syntax self
     || key_among (NativeTerminalRequest.executable self) SCRIPT_EXECUTORS
  then classified CapabilityRiskTier.SystemExec
         "terminal command executes a shell, script, pipeline, redirection, or substitution"
  else if key_among (NativeTerminalRequest.executable self) NETWORK_CLIS
  then classified CapabilityRiskTier.Network
         "terminal command can access a remote service, account, project, or data source"
  else
    let classification :=
      classify_system_action SystemActionClass.Binary (NativeTerminalRequest.executable self)
        (NativeTerminalRequest.args self) in
    if negb (bool_decide (NativeTerminalRequest.env self = ∅))
       && reads_only (CapabilityClassification.tier classification)
    then classified CapabilityRiskTier.SystemExec
           "terminal command changes its process environment"
    else classification.

(** ** What may run in the project without asking *)
Definition resolved_cwd (self : TerminalRequest) (project_root : path) : path :=
  match NativeTerminalRequest.cwd self with
  | Some cwd => canonical_or_lexical (path_of_str cwd)
  | None => project_root
  end.

Definition argument_candidate (arg : str) : option str :=
  if equals arg "--" then None
  else if begins "-" arg
  then match split_once_char (ch "=") arg with
       | Some (_, value) => if is_empty value then None else Some value
       | None => None
       end
  else Some arg.
Definition argument_path_candidates (self : TerminalRequest) (cwd : path) : list path :=
  omap (fun arg =>
    option_map (fun candidate => path_join cwd (path_of_str candidate)) (argument_candidate arg))
    (NativeTerminalRequest.args self).

Definition prompt_free_in_project (self : TerminalRequest) (project_root : path) : bool :=
  if negb (reads_only (CapabilityClassification.tier (classification self))) then false
  else
    let project_root := canonical_or_lexical project_root in
    let cwd := resolved_cwd self project_root in
    path_starts_with project_root cwd
    && forallb (fun p => path_starts_with project_root (canonical_or_lexical p))
         (argument_path_candidates self cwd).

Definition external_read_target (self : TerminalRequest) (project_root : path) : option path :=
  if negb (reads_only (CapabilityClassification.tier (classification self))) then None
  else
    let project_root := canonical_or_lexical project_root in
    let cwd := resolved_cwd self project_root in
    match List.find (fun p => negb (path_starts_with project_root p))
            (map canonical_or_lexical (argument_path_candidates self cwd)) with
    | Some target => Some target
    | None => if negb (path_starts_with project_root cwd) then Some cwd else None
    end.

(** ** Showing a command *)
Definition display_safe (character : Z) : bool :=
  is_ascii_alphanumeric character || contains_char character (lit "-._/:=@%+,").
Definition shell_escape_for_display (value : str) : str :=
  if forallb display_safe value then value
  else lit "'" ++ replace (lit "'") (lit "'\''") value ++ lit "'".
Definition display_command (self : TerminalRequest) : str :=
  join (lit " ") (map shell_escape_for_display
    (NativeTerminalRequest.executable self :: NativeTerminalRequest.args self)).
Definition environment_keys (self : TerminalRequest) : list str :=
  sort (map fst (map_to_list (NativeTerminalRequest.env self))).

(** ** Reading a command *)
Definition push_char (s : Words.t) (character : Z) : Words.t :=
  Words.mk (Words.words s) (Words.word s ++ [character]) (Words.quote s) false.
Definition words_turn (s : Words.t) (character : Z) : Words.t :=
  if Words.escaped s then push_char s character
  else
    let single := match Words.quote s with Some q => q =? ch "'" | None => false end in
    let closes := match Words.quote s with Some q => q =? character | None => false end in
    let quotes := (character =? ch "'") || (character =? 34) in
    if closes && quotes then Words.mk (Words.words s) (Words.word s) None false
    else match Words.quote s with
    | None =>
        if quotes then Words.mk (Words.words s) (Words.word s) (Some character) false
        else if character =? ch "\" then Words.mk (Words.words s) (Words.word s) None true
        else if is_whitespace character then
          if is_empty (Words.word s) then s
          else Words.mk (Words.words s ++ [Words.word s]) [] None false
        else push_char s character
    | Some _ =>
        if single then push_char s character
        else if character =? ch "\" then Words.mk (Words.words s) (Words.word s) (Words.quote s) true
        else push_char s character
    end.

Definition direct_command_words (command : str) : res str (list str) :=
  if contains_shell_control command
  then Err (lit "Run one executable at a time; shell operators and substitutions are not accepted.")
  else
    let s := foldl words_turn (Words.mk [] [] None false) (trim command) in
    if Words.escaped s || match Words.quote s with Some _ => true | None => false end
    then Err (lit "The command contains an unfinished quote or escape.")
    else Ok (if is_empty (Words.word s) then Words.words s else Words.words s ++ [Words.word s]).

Definition direct_command_request (command : str) : res str TerminalRequest :=
  words ← direct_command_words command;
  match words with
  | [] => Err (lit "A terminal command is required.")
  | executable :: args => validate (NativeTerminalRequest.mk executable args ∅ None None)
  end.

(** ** The program that is run *)
Definition executable_unavailable : str := lit "The requested command executable is unavailable.".

Definition checked_executable (p : path) : res str path :=
  canonical ← ok_or executable_unavailable (canonicalize (files host) p);
  meta ← ok_or executable_unavailable (metadata host canonical);
  _ ← ensure (fst meta) (lit "The requested command executable is not a file.");
  _ ← guard_not (Z.land (snd meta) 73 =? 0) (lit "The requested command file is not executable.");
  Ok canonical.

Fixpoint retain_first (seen l : list path) : list path :=
  match l with
  | [] => []
  | p :: l =>
      if bool_decide (p ∈ seen) then retain_first seen l else p :: retain_first (p :: seen) l
  end.
Definition terminal_search_directories : list path :=
  retain_first [] (
    map (fun directory => path_of_str (lit directory))
      ["/opt/homebrew/bin"; "/opt/homebrew/sbin"; "/usr/local/bin"; "/usr/local/sbin"; "/usr/bin";
       "/bin"; "/usr/sbin"; "/sbin"]%string
    ++ match home_dir host with
       | Some home =>
           map (fun relative => path_join home (path_of_str (lit relative)))
             [".cargo/bin"; ".local/bin"; ".volta/bin"; ".bun/bin"; ".nvm/current/bin"; ".asdf/shims";
              ".local/share/mise/shims"]%string
       | None => []
       end
    ++ List.filter is_absolute (search_path host)).

Definition leaves_project : str :=
  lit "The command executable cannot leave the selected Project folder.".

Definition resolve_terminal_executable (executable : str) (working_directory : path) : res str path :=
  project_root ← ok_or (lit "The selected Project folder is unavailable.")
    (canonicalize (files host) working_directory);
  let requested := path_of_str executable in
  if is_absolute requested then checked_executable requested
  else if (1 <? length requested)%nat then
    _ ← guard_not (existsb (fun component => str_eqb component parent_dir) requested) leaves_project;
    resolved ← checked_executable (path_join project_root requested);
    _ ← ensure (path_starts_with project_root resolved) leaves_project;
    Ok resolved
  else
    ok_or (lit "The '" ++ trim executable
           ++ lit "' command is not installed in a verified command location.")
      (find_map (fun directory =>
         match checked_executable (path_join directory requested) with
         | Ok resolved => Some resolved
         | _ => None
         end) terminal_search_directories).

(** [prepare_terminal_execution]: the request, and the folder it runs in. *)
Definition prepare_terminal_execution (request : TerminalRequest) : res str (TerminalRequest * path) :=
  request ← validate request;
  _ ← validate_protected_deletion_roots request [app_data_root host; development_repo_root host];
  cwd ← ok_or (lit "Choose a Project folder before running a local command.")
          (NativeTerminalRequest.cwd request);
  working_directory ← ok_or (lit "The selected working folder is not available.")
    (canonical ← canonicalize (files host) (path_of_str cwd);
     if is_dir (files host) canonical then Some canonical else None);
  executable ← resolve_terminal_executable (NativeTerminalRequest.executable request) working_directory;
  Ok (NativeTerminalRequest.mk (path_display executable) (NativeTerminalRequest.args request)
        (NativeTerminalRequest.env request) (NativeTerminalRequest.cwd request)
        (NativeTerminalRequest.timeout request), working_directory).
End Terminal.

(** ** What runs without asking, and what the person is shown

    A command that needs no approval reads only inside the project, and the line
    shown to the person reads back as the command that runs.  The check looks at
    the name of the program, not at where it is. *)
(** ** Reading back a displayed command *)
Definition readable (word : str) : Prop := word <> [] /\ contains_shell_control word = false.

Notation reading ws w q := (Words.mk ws w q false).

Lemma replace_char c r s :
  replace [c] r s = flat_map (fun d => if d =? c then r else [d]) s.
Proof.
  unfold replace. induction s as [|d s IH]; [done|]. cbn [replace_from flat_map].
  unfold starts_with. cbn [strip_prefix]. rewrite (Z.eqb_sym c d).
  destruct (d =? c); cbn [length pred]; by rewrite IH.
Qed.

Lemma display_safe_plain c :
  display_safe c = true ->
  (c =? ch "'") = false /\ (c =? 34) = false /\ (c =? ch "\") = false /\ is_whitespace c = false.
Proof.
  unfold display_safe, is_ascii_alphanumeric, is_ascii_alphabetic, is_ascii_lowercase,
    is_ascii_uppercase, is_ascii_digit, contains_char, in_range. intros Hc.
  let l := eval vm_compute in (lit "-._/:=@%+,") in change (lit "-._/:=@%+,") with l in Hc.
  cbn [existsb] in Hc. change (ch "'") with 39. change (ch "\") with 92.
  unfold is_whitespace, in_range. lia.
Qed.

Lemma read_plain ws w s :
  Forall (fun c => display_safe c = true) s ->
  foldl words_turn (reading ws w None) s = reading ws (w ++ s) None.
Proof.
  revert w. induction s as [|c s IH]; intros w Hs; simpl; [by rewrite app_nil_r|].
  apply Forall_cons_iff in Hs as [Hc Hs]. apply display_safe_plain in Hc as (H1 & H2 & H3 & H4).
  assert (words_turn (reading ws w None) c = reading ws (w ++ [c]) None) as ->.
  { unfold words_turn. cbn [Words.escaped Words.quote andb]. by rewrite H1, H2, H3, H4. }
  by rewrite IH, <- app_assoc.
Qed.

Lemma read_quoted ws w s :
  foldl words_turn (reading ws w (Some (ch "'")))
    (flat_map (fun d => if d =? ch "'" then lit "'\''" else [d]) s) =
  reading ws (w ++ s) (Some (ch "'")).
Proof.
  revert w. induction s as [|c s IH]; intros w; [by rewrite app_nil_r|].
  cbn [flat_map]. rewrite foldl_app. destruct (c =? ch "'") eqn:Hc.
  - apply Z.eqb_eq in Hc as ->.
    change (foldl words_turn (reading ws w (Some (ch "'"))) (lit "'\''"))
      with (reading ws (w ++ [ch "'"]) (Some (ch "'"))).
    by rewrite IH, <- app_assoc.
  - replace (foldl words_turn (reading ws w (Some (ch "'"))) [c])
      with (reading ws (w ++ [c]) (Some (ch "'"))).
    + by rewrite IH, <- app_assoc.
    + cbn [foldl]. unfold words_turn. cbn [Words.escaped Words.quote].
      by rewrite (Z.eqb_sym (ch "'") c), Hc.
Qed.

Lemma read_escaped ws word :
  word <> [] ->
  foldl words_turn (reading ws [] None) (shell_escape_for_display word) = reading ws word None.
Proof.
  intros Hne. unfold shell_escape_for_display. destruct (forallb display_safe word) eqn:Hs.
  - apply read_plain. rewrite list.Forall_forall. setoid_rewrite list_elem_of_In.
    by apply forallb_forall.
  - change (lit "'") with [ch "'"]. rewrite replace_char, !foldl_app. cbn [foldl].
    change (words_turn (reading ws [] None) (ch "'")) with (reading ws [] (Some (ch "'"))).
    rewrite read_quoted. done.
Qed.

Lemma read_joined ws words :
  Forall (fun word => word <> []) words ->
  foldl words_turn (reading ws [] None) (join (lit " ") (map shell_escape_for_display words)) =
  match rev words with
  | [] => reading ws [] None
  | last :: _ => reading (ws ++ removelast words) last None
  end.
Proof.
  revert ws. induction words as [|word words IH]; intros ws Hw; [done|].
  apply Forall_cons_iff in Hw as [Hne Hw]. destruct words as [|word' words].
  - cbn. rewrite read_escaped by done. by rewrite app_nil_r.
  - change (join (lit " ") (map shell_escape_for_display (word :: word' :: words)))
      with (shell_escape_for_display word ++ lit " " ++
            join (lit " ") (map shell_escape_for_display (word' :: words))).
    rewrite !foldl_app, read_escaped by done.
    change (foldl words_turn (reading ws word None) (lit " "))
      with (if is_empty word then reading ws word None else reading (ws ++ [word]) [] None).
    destruct word as [|c word]; [done|]. cbn [is_empty]. rewrite IH by done.
    change (rev ((c :: word) :: word' :: words)) with (rev (word' :: words) ++ [c :: word]).
    destruct (rev (word' :: words)) as [|last pre] eqn:Hr.
    { apply (f_equal (@length _)) in Hr. rewrite length_rev in Hr. done. }
    cbn [app]. change (removelast ((c :: word) :: word' :: words))
      with ((c :: word) :: removelast (word' :: words)). by rewrite <- app_assoc.
Qed.

(** *** The line has no operator in it and no space around it *)
Lemma no_control_app s t :
  contains_shell_control (s ++ t) = contains_shell_control s || contains_shell_control t.
Proof. apply existsb_app. Qed.

Lemma no_control_quoted s :
  contains_shell_control s = false ->
  contains_shell_control (flat_map (fun d => if d =? ch "'" then lit "'\''" else [d]) s) = false.
Proof.
  induction s as [|c s IH]; [done|]. intros [Hc Hs]%orb_false_iff. cbn [flat_map].
  rewrite no_control_app, IH by done. rewrite orb_false_r. destruct (c =? ch "'"); [done|].
  cbn. by rewrite orb_false_r.
Qed.

Lemma no_control_escaped word :
  contains_shell_control word = false -> contains_shell_control (shell_escape_for_display word) = false.
Proof.
  intros Hw. unfold shell_escape_for_display. destruct (forallb _ _); [done|].
  change (lit "'") with [ch "'"]. rewrite replace_char, !no_control_app, no_control_quoted by done. done.
Qed.

Lemma no_control_line words :
  Forall (fun word => contains_shell_control word = false) words ->
  contains_shell_control (join (lit " ") (map shell_escape_for_display words)) = false.
Proof.
  induction words as [|word words IH]; [done|]. intros [Hw Hws]%Forall_cons_iff.
  destruct words as [|word' words]; [by apply no_control_escaped|].
  change (contains_shell_control (shell_escape_for_display word ++ lit " " ++
            join (lit " ") (map shell_escape_for_display (word' :: words))) = false).
  rewrite !no_control_app, no_control_escaped, IH by done. done.
Qed.

(** No whitespace at either end. *)
Definition solid (s : str) : Prop :=
  (exists c t, s = c :: t /\ is_whitespace c = false) /\
  (exists t c, s = t ++ [c] /\ is_whitespace c = false).

Lemma solid_trim s : solid s -> trim s = s.
Proof.
  intros [(c & t & -> & Hc) (t' & d & Heq & Hd)]. unfold trim, trim_start. cbn [trim_start_by].
  rewrite Hc, Heq. by apply trim_end_by_snoc.
Qed.

Lemma solid_wrap s u t : solid s -> solid t -> solid (s ++ u ++ t).
Proof.
  intros [(c & s' & -> & Hc) _] [_ (t' & d & -> & Hd)]. split.
  - by exists c, (s' ++ u ++ t' ++ [d]).
  - exists ((c :: s') ++ u ++ t'), d. split; [|done]. by rewrite <- !app_assoc.
Qed.

Lemma solid_escaped word : word <> [] -> solid (shell_escape_for_display word).
Proof.
  intros Hne. unfold shell_escape_for_display. destruct (forallb display_safe word) eqn:Hs.
  - rewrite forallb_forall in Hs. split.
    + destruct word as [|c t]; [done|]. exists c, t. split; [done|].
      apply display_safe_plain, Hs. by left.
    + destruct (exists_last Hne) as (t & c & ->). exists t, c. split; [done|].
      apply display_safe_plain, Hs. apply in_app_iff. right. by left.
  - apply (solid_wrap (lit "'") _ (lit "'")); (split; [by exists (ch "'"), []|by exists [], (ch "'")]).
Qed.

Lemma solid_line words :
  words <> [] -> Forall (fun word => word <> []) words ->
  solid (join (lit " ") (map shell_escape_for_display words)).
Proof.
  induction words as [|word words IH]; [done|]. intros _ [Hw Hws]%Forall_cons_iff.
  destruct words as [|word' words]; [by apply solid_escaped|].
  apply (solid_wrap _ (lit " ")); [by apply solid_escaped|by apply IH].
Qed.



(** ** What runs without asking *)
(** [fs::canonicalize] returns an absolute path without [..]. *)
Definition clean (p : path) : Prop := is_absolute p = true /\ parent_dir ∉ p.
Class CanonicalPaths (host : Host) : Prop :=
  canonicalize_clean p q : canonicalize (files host) p = Some q -> clean q.

Lemma path_join_absolute base p : is_absolute base = true -> is_absolute (path_join base p) = true.
Proof.
  intros Hb. unfold path_join. destruct (is_absolute p) eqn:Hp; [done|].
  by destruct base as [|c base].
Qed.
Lemma path_join_one base c :
  is_absolute base = true -> equals c "." = false -> str_eqb c root_dir = false ->
  path_join base [c] = base ++ [c].
Proof.
  intros Hb Hd Hr. unfold path_join, skip_cur_dir. cbn [is_absolute]. rewrite Hr, Hd. by destruct base.
Qed.

Lemma parent_clean p q : clean p -> parent p = Some q -> clean q.
Proof.
  intros [Ha Hn] Hp. unfold parent in Hp.
  destruct (rev p) as [|c r] eqn:Hr; [done|]. destruct (str_eqb c root_dir) eqn:Hc; [done|].
  simplify_eq. assert (p = rev r ++ [c]) as -> by (rewrite <- (rev_involutive p), Hr; done).
  split; [|set_solver]. destruct (rev r) as [|c' r']; [|done].
  change (str_eqb c root_dir = true) in Ha. congruence.
Qed.

Lemma normalize_loop_clean normalized p :
  clean normalized -> clean (normalize_loop true normalized p).
Proof.
  revert normalized. induction p as [|c p IH]; intros normalized Hc; cbn [normalize_loop]; [done|].
  destruct (equals c ".") eqn:Hd; [by apply IH|].
  destruct (str_eqb c parent_dir) eqn:Hp.
  - apply IH. destruct (parent normalized) as [up|] eqn:Hu; [by eapply parent_clean|done].
  - apply IH. split; [by apply path_join_absolute, Hc|].
    destruct (str_eqb c root_dir) eqn:Hr.
    + unfold path_join. cbn [is_absolute]. rewrite Hr. apply str_eqb_eq in Hr as ->.
      by intros Hin%list_elem_of_singleton.
    + rewrite path_join_one by (done || apply Hc). intros [Hin|Hin%list_elem_of_singleton]%elem_of_app.
      * by apply Hc in Hin.
      * rewrite <- Hin, str_eqb_refl in Hp. done.
Qed.

Lemma normalize_clean p : is_absolute p = true -> clean (normalize_lexically p).
Proof.
  intros Ha. unfold normalize_lexically. rewrite Ha. destruct p as [|c p]; [done|].
  change (str_eqb c root_dir = true) in Ha. apply str_eqb_eq in Ha as ->.
  change (clean (normalize_loop true [root_dir] p)). apply normalize_loop_clean.
  split; [done|]. by intros Hin%list_elem_of_singleton.
Qed.

Section Host.
Context (host : Host) `{!CanonicalPaths host}.

Lemma resolve_ancestor_clean fuel p suffix q :
  resolve_ancestor host fuel p suffix = Some q -> clean q.
Proof.
  revert p suffix. induction fuel as [|fuel IH]; intros p suffix; [done|]. cbn [resolve_ancestor].
  destruct (file_name p) as [name|]; [|done]. destruct (parent p) as [up|]; [|done].
  destruct (canonicalize (files host) up) as [canonical|] eqn:Hc; [|apply IH].
  intros [= <-]. apply normalize_clean. apply canonicalize_clean in Hc as [Ha _].
  revert Ha. generalize (rev (suffix ++ [name])) as l. clear. intros l. revert canonical.
  induction l as [|c l IHl]; intros canonical Ha; [done|]. by apply IHl, path_join_absolute.
Qed.

Lemma canonical_or_lexical_clean p : is_absolute p = true -> clean (canonical_or_lexical host p).
Proof.
  intros Ha. unfold canonical_or_lexical.
  destruct (canonicalize (files host) p) as [q|] eqn:Hq; [by eapply canonicalize_clean|].
  destruct (resolve_ancestor host (length p) p []) as [q|] eqn:Hr; [by eapply resolve_ancestor_clean|].
  by apply normalize_clean.
Qed.

Lemma inside_absolute root p :
  is_absolute root = true -> path_starts_with root p = true -> is_absolute p = true.
Proof. intros Ha (q & ->)%path_starts_with_spec. by destruct root. Qed.

(** A path inside [root] that no [..] leads out of. *)
Definition inside (root p : path) : Prop := path_starts_with root p = true /\ clean p.

Lemma candidates_inside request root cwd arg value :
  is_absolute cwd = true ->
  forallb (fun p => path_starts_with root (canonical_or_lexical host p))
    (argument_path_candidates request cwd) = true ->
  arg ∈ NativeTerminalRequest.args request -> argument_candidate arg = Some value ->
  inside root (canonical_or_lexical host (path_join cwd (path_of_str value))).
Proof.
  intros Hcwd Hall Hin Hv. rewrite forallb_forall in Hall. split.
  - apply Hall, list_elem_of_In, list_elem_of_omap. exists arg. by rewrite Hv.
  - by apply canonical_or_lexical_clean, path_join_absolute.
Qed.

Lemma reads_only_program request :
  reads_only (CapabilityClassification.tier (classification request)) = true ->
  NativeTerminalRequest.env request = ∅ /\
  (forall word, word ∈ NativeTerminalRequest.executable request :: NativeTerminalRequest.args request ->
     contains_shell_control word = false /\ allowed_text word) /\
  automatic_program (normalize_identifier (command_basename (NativeTerminalRequest.executable request)))
    (NativeTerminalRequest.args request).
Proof.
  unfold classification. cbv zeta. destruct (_ || _) eqn:Hs; [done|].
  apply orb_false_iff in Hs as [Hs _]. destruct (key_among _ _); [done|].
  destruct (negb _ && _) eqn:He; [done|]. intros Hr. rewrite Hr, andb_true_r in He. split_bools.
  apply orb_false_iff in Hs as [Hx Ha]. apply existsb_false in Ha. rewrite list.Forall_forall in Ha.
  assert (CapabilityClassification.requires_human_approval (classify_binary_command
    (NativeTerminalRequest.executable request) (NativeTerminalRequest.args request)) = false)
    as (Hxt & Hat & Hp)%binary_automatic.
  { unfold classify_system_action in Hr. unfold CapabilityClassification.requires_human_approval.
    by destruct (CapabilityClassification.tier _). }
  split_and!; [done| |done]. intros word [->|Hin]%elem_of_cons; auto.
Qed.
End Host.


(** A machine without links, on which every program is executable. *)
Module Desk.
Definition disk : FileSystem := {|
  canonicalize p := if is_absolute p then Some (normalize_lexically p) else None;
  is_dir _ := true;
  is_file _ := true;
  read_file _ := None;
|}.
Definition host : Host := {|
  files := disk;
  path_exists _ := true;
  metadata _ := Some (true, 493);
  home_variable := Some (lit "/Users/ada");
  home_dir := Some (path_of_str (lit "/Users/ada"));
  search_path := [];
  app_data_root := path_of_str (lit "/Users/ada/Library/OOMU");
  development_repo_root := path_of_str (lit "/work/oomu");
|}.
#[export] Instance canonical : CanonicalPaths host.
Proof. intros p q. simpl. destruct (is_absolute p) eqn:Ha; [|done]. intros [= <-]. by apply normalize_clean. Qed.
Definition root : path := path_of_str (lit "/work/oomu").
Definition request (program : string) (args : list string) : TerminalRequest :=
  NativeTerminalRequest.mk (lit program) (map lit args) ∅ None None.
End Desk.
#[export] Existing Instance Desk.canonical.


(** ** What the check does not see *)
Lemma control_subset s : contains_shell_control_syntax s = false -> contains_shell_control s = false.
Proof.
  unfold contains_shell_control_syntax, contains_shell_control. rewrite !existsb_false, !list.Forall_forall.
  intros Hs c Hc. specialize (Hs c Hc). cbv beta in *. apply existsb_false. apply existsb_false in Hs.
  rewrite list.Forall_forall in *. intros x Hx. apply Hs. revert Hx. unfold shell_control_characters.
  set_solver.
Qed.

Lemma safe_app s t :
  command_fragment_is_safe (s ++ t) = command_fragment_is_safe s && command_fragment_is_safe t.
Proof.
  unfold command_fragment_is_safe. rewrite contains_shell_control_app, forallb_app.
  destruct (contains_shell_control_syntax s), (contains_shell_control_syntax t); cbn [orb negb andb];
    by rewrite ?andb_false_r.
Qed.

Lemma split_char_cut d s t : split_char d (s ++ d :: t) = split_char d s ++ split_char d t.
Proof.
  induction s as [|c s IH]; cbn [app split_char]; [by rewrite Z.eqb_refl|].
  destruct (c =? d); [by rewrite IH|]. rewrite IH.
  destruct (split_char d s) as [|w ws] eqn:Hs; [|done].
  by destruct s as [|c' s]; simpl in Hs; repeat case_match.
Qed.

(** The last segment of a path given as text. *)
Lemma segments_snoc d name :
  contains_char (ch "/") name = false -> name <> [] ->
  List.filter not_empty (split_char (ch "/") (d ++ lit "/" ++ name)) =
  List.filter not_empty (split_char (ch "/") d) ++ [name].
Proof.
  intros Hn Hne. change (lit "/" ++ name) with (ch "/" :: name).
  rewrite split_char_cut, List.filter_app, (split_char_no _ name).
  - f_equal. destruct name as [|c name]; [by destruct Hne|done].
  - unfold contains_char in Hn. apply existsb_false in Hn. eapply list.Forall_impl; [exact Hn|].
    intros c Hc. apply Z.eqb_neq in Hc. by apply not_eq_sym.
Qed.

Lemma path_file_name_snoc d name :
  contains_char (ch "/") name = false -> name <> [] -> equals name "." = false ->
  equals name ".." = false -> command_basename (d ++ lit "/" ++ name) = name.
Proof.
  intros Hs Hne Hd Hdd. unfold command_basename, path_file_name.
  assert (forall s, List.filter (fun w => not_empty w && negb (equals w ".")) s =
                    List.filter (fun w => negb (equals w ".")) (List.filter not_empty s)) as Hf.
  { intros s. induction s as [|w s IH]; [done|]. cbn [List.filter].
    destruct (not_empty w); cbn [List.filter andb]; [|done]. destruct (negb _); by rewrite IH. }
  rewrite Hf, segments_snoc, List.filter_app by done. cbn [List.filter]. rewrite Hd. cbn [negb].
  by rewrite rev_app_distr; cbn [rev app]; rewrite Hdd.
Qed.

Lemma executable_key_snoc d name :
  contains_char (ch "/") name = false -> name <> [] -> equals name "." = false ->
  equals name ".." = false -> to_ascii_lowercase (trim name) = name ->
  executable_key (d ++ lit "/" ++ name) = Some name.
Proof.
  intros Hs Hne Hd Hdd Htrim.
  assert (str_eqb name root_dir = false) as Hr.
  { apply not_true_is_false. intros ->%str_eqb_eq. done. }
  assert (file_name (path_of_str (d ++ lit "/" ++ name)) = Some name) as Hf.
  { unfold path_of_str. rewrite segments_snoc by done. unfold file_name.
    assert (forall l, List.filter (fun c => negb (equals c ".")) (l ++ [name]) =
                      List.filter (fun c => negb (equals c ".")) l ++ [name]) as Hl.
    { intros l. rewrite List.filter_app. cbn [List.filter]. by rewrite Hd. }
    destruct (starts_with (lit "/") _).
    - rewrite Hl. cbn [rev]. rewrite rev_app_distr. cbn [rev app]. unfold parent_dir.
      by rewrite Hr, Hd, (Hdd : str_eqb _ _ = false).
    - destruct (List.filter not_empty (split_char (ch "/") d)) as [|c l]; cbn [app].
      + cbn [rev app List.filter]. unfold parent_dir. by rewrite Hr, Hd, (Hdd : str_eqb _ _ = false).
      + rewrite Hl. cbn [rev]. rewrite rev_app_distr. cbn [rev app]. unfold parent_dir.
        by rewrite Hr, Hd, (Hdd : str_eqb _ _ = false). }
  unfold executable_key. rewrite Hf. cbv zeta. rewrite Htrim. by destruct name.
Qed.


