(* ===== verification/AuthorityTheorems.v ===== *)
(** * What a proof of presence stands for

    Lemmas on the checks of [Authority], and two theorems: what a proof that is
    accepted agrees with, and what each answer to the dialog means, whatever the
    language of its labels. *)
From stdpp Require Import sorting.
From S2P Require Import Prelude.
From S2P Require Import RustStr.
From S2P Require Import JsonValue.
From S2P Require Import ToolSecurity.
From S2P Require Import EffectJournal.
From S2P Require Import Authority.
From S2P Require Import TerminalContract.
Local Open Scope Z_scope.

Lemma dedup_cons x y l :
  dedup (x :: y :: l) = if str_eqb x y then dedup (y :: l) else x :: dedup (y :: l).
Proof. done. Qed.
Lemma elem_of_dedup x l : x ∈ dedup l <-> x ∈ l.
Proof.
  induction l as [|y l IH]; [done|]. destruct l as [|z l]; [done|]. rewrite dedup_cons.
  rewrite (elem_of_cons (z :: l) x y), <- IH. destruct (str_eqb y z) eqn:Hyz.
  - apply str_eqb_eq in Hyz as ->. rewrite IH. set_solver.
  - by rewrite elem_of_cons.
Qed.
Lemma elem_of_sort x l : x ∈ sort l <-> x ∈ l.
Proof. unfold sort. by rewrite merge_sort_Permutation. Qed.

(** [Vec::sort] of strings puts them in the order of their scalar values. *)
Lemma str_ltb_total a b : str_ltb b a = true -> str_ltb a b = false.
Proof.
  revert b. induction a as [|x a IH]; intros [|y b]; simpl; [done..|]. intros Hlt.
  apply orb_true_iff in Hlt as [Hlt|[Heq Hlt]%andb_true_iff].
  - apply orb_false_iff. split; [lia|]. apply andb_false_iff. left. lia.
  - apply Z.eqb_eq in Heq as ->. rewrite Z.ltb_irrefl, Z.eqb_refl. cbn. by apply IH.
Qed.
Lemma str_ltb_antisym a b : str_ltb a b = false -> str_ltb b a = false -> a = b.
Proof.
  revert b. induction a as [|x a IH]; intros [|y b]; simpl; [done..|].
  intros [H1 H2]%orb_false_iff [H3 H4]%orb_false_iff.
  assert (x = y) as -> by lia. rewrite Z.eqb_refl in H2, H4. f_equal. by apply IH.
Qed.
Lemma str_ltb_trans a b c : str_ltb a b = false -> str_ltb b c = false -> str_ltb a c = false.
Proof.
  revert b c. induction a as [|x a IH]; intros [|y b] [|z c]; simpl; try done.
  intros [H1 H2]%orb_false_iff [H3 H4]%orb_false_iff. apply orb_false_iff. split; [lia|].
  destruct (x =? z) eqn:Hxz; [|done]. assert (x = y /\ y = z) as [-> ->] by lia.
  rewrite Z.eqb_refl in H2, H4. cbn in *. eauto.
Qed.
#[export] Instance str_le_total : Total str_le.
Proof.
  intros a b. unfold str_le. destruct (str_ltb b a) eqn:Hba; [|by left]. right.
  by apply str_ltb_total.
Qed.
#[export] Instance str_le_trans : Transitive str_le.
Proof. intros a b c Hab Hbc. unfold str_le in *. by eapply str_ltb_trans. Qed.
#[export] Instance str_le_antisym : AntiSymm (=) str_le.
Proof. intros a b Hab Hba. unfold str_le in *. by apply str_ltb_antisym. Qed.

(** Sorting and deduplicating gives one list for each set of strings. *)
Lemma dedup_sorted l : StronglySorted str_le l -> StronglySorted str_le (dedup l).
Proof.
  induction 1 as [|x l Hl IH Hx]; [constructor|].
  destruct l as [|y l]; [change (StronglySorted str_le [x]); repeat constructor|].
  rewrite dedup_cons. destruct (str_eqb x y); [done|]. constructor; [done|].
  apply list.Forall_forall. intros z Hz. rewrite elem_of_dedup in Hz. rewrite list.Forall_forall in Hx. by apply Hx.
Qed.
Lemma dedup_nodup l : StronglySorted str_le l -> NoDup (dedup l).
Proof.
  induction 1 as [|x l Hl IH Hx]; [constructor|]. destruct l as [|y l]; [apply NoDup_singleton|].
  rewrite dedup_cons. destruct (str_eqb x y) eqn:Hxy; [done|]. constructor; [|done].
  intros Hin. rewrite elem_of_dedup in Hin. assert (x = y) as ->; [|by rewrite str_eqb_refl in Hxy].
  apply Forall_cons_iff in Hx as [Hle _]. apply StronglySorted_inv in Hl as [_ Hl].
  apply elem_of_cons in Hin as [->|Hin]; [done|]. rewrite list.Forall_forall in Hl.
  apply (anti_symm str_le); [done|by apply Hl].
Qed.

Lemma sort_dedup_unique l l' : (forall x, x ∈ l <-> x ∈ l') -> dedup (sort l) = dedup (sort l').
Proof.
  intros Heq. assert (forall l, StronglySorted str_le (sort l)) as Hs by (intros; apply StronglySorted_merge_sort; apply _).
  apply (StronglySorted_unique str_le); [by apply dedup_sorted|by apply dedup_sorted|].
  apply NoDup_Permutation; [by apply dedup_nodup..|]. intros x. by rewrite !elem_of_dedup, !elem_of_sort.
Qed.

(** ** Canonical values *)
(** What a name becomes: trimmed, in lower case, with underscores. *)
Definition canonical_name (value : str) : str := dashes_to_underscores (to_ascii_lowercase (trim value)).

Lemma canonical_values_elem label vs cs :
  canonical_values label vs = Ok cs -> forall c, c ∈ cs <-> exists v, v ∈ vs /\ c = canonical_name v.
Proof.
  unfold canonical_values. intros Hc. apply bind_Ok in Hc as (names & Hn & Hc).
  assert (cs = dedup (sort names)) as -> by (destruct (dedup (sort names)); by simplify_eq).
  intros c. rewrite elem_of_dedup, elem_of_sort. apply try_map_Ok in Hn.
  assert (Forall2 (fun v n => n = canonical_name v) vs names) as Hf.
  { eapply list.Forall2_impl; [exact Hn|]. intros v n Hv. cbv beta in Hv. unfold required_value in Hv.
    cbv zeta in Hv. destruct (is_empty _); [done|]. by simplify_eq/=. }
  clear Hn Hc. induction Hf as [|v n vs names -> Hf IH]; [set_solver|]. rewrite elem_of_cons, IH. set_solver.
Qed.

Lemma canonical_persistence_cases value p :
  canonical_persistence value = Ok p ->
  p = lit "one_time" \/ p = lit "session_gated" \/ p = lit "global_trust".
Proof.
  unfold canonical_persistence. intros Hp. apply bind_Ok in Hp as (v & _ & Hp). cbv zeta in Hp.
  destruct (in_list _ _) eqn:Hin; [|done]. simplify_eq. apply in_list_spec in Hin. set_solver.
Qed.
Lemma canonical_persistence_idem value p :
  canonical_persistence value = Ok p -> canonical_persistence p = Ok p.
Proof. intros [->|[->| ->]]%canonical_persistence_cases; by vm_compute. Qed.
Lemma validate_steps_Ok n : validate_steps n = Ok tt <-> 1 <= n <= 50.
Proof. unfold validate_steps, MAX_AUTHORIZED_STEPS. rewrite ensure_Ok. int_lia. Qed.
Lemma ensure_ok_any {E} (c : bool) (e : E) u : ensure c e = Ok u <-> c = true.
Proof. destruct u. apply ensure_Ok. Qed.

(** ** The dialog *)
Definition labels (copy : NativePromptCopy.t) : list str :=
  [NativePromptCopy.allow_once copy; NativePromptCopy.allow_persistent copy; NativePromptCopy.deny copy].

Lemma labels_distinct locale operations scopes persistence steps :
  NoDup (labels (native_prompt_copy locale operations scopes persistence steps)).
Proof.
  unfold native_prompt_copy, prompt_texts. cbv zeta.
  generalize (if (3 <? length (dedup (sort (map (plain_operation locale) operations))))%nat
              then plain_operation_group locale
              else join (lit ", ") (dedup (sort (map (plain_operation locale) operations)))) as operation.
  generalize (join (lit ", ") (map (plain_scope locale) scopes)) as place. intros place operation.
  repeat (destruct (begins _ locale);
    [by destruct (equals persistence "global_trust"); apply (bool_decide_unpack _); vm_compute|]).
  destruct (equals persistence "global_trust"); apply (bool_decide_unpack _); by vm_compute.
Qed.

Notation answered label := (PromptOutcome.Answered (MessageDialogResult.Custom label)).

Lemma selected_persistence_cases copy persistence outcome selected :
  selected_persistence copy persistence outcome = Ok selected ->
  (outcome = answered (NativePromptCopy.allow_once copy) /\ selected = lit "one_time") \/
  (outcome = answered (NativePromptCopy.allow_persistent copy) /\ selected = persistence).
Proof.
  destruct outcome as [| | | | |[label|]]; try done. unfold selected_persistence.
  destruct (str_eqb label (NativePromptCopy.allow_once copy)) eqn:Ho.
  - intros Hs. simplify_eq. left. apply str_eqb_eq in Ho. by rewrite Ho.
  - destruct (str_eqb label (NativePromptCopy.allow_persistent copy)) eqn:Hp; [|done].
    intros Hs. simplify_eq. right. apply str_eqb_eq in Hp. by rewrite Hp.
Qed.

Section Authority.
Context {D : Digest} (host : Host).

(** What is in the store after a confirmation. *)
Lemma insert_after_presence_spec now bytes actor_id request proofs response proofs' :
  insert_after_presence host now bytes actor_id request proofs = Ok (response, proofs') ->
  exists proof,
    proofs' = <[NativeAuthorityProof.proof_id proof := proof]> proofs /\
    NativeAuthorityProofResponse.proof_id response = NativeAuthorityProof.proof_id proof /\
    NativeAuthorityProof.actor_id proof = actor_id /\
    NativeAuthorityProof.session_id proof = trim (RequestNativeAuthorityProof.session_id request) /\
    NativeAuthorityProof.session_id proof <> [] /\
    NativeAuthorityProof.max_steps proof = RequestNativeAuthorityProof.max_steps request /\
    1 <= NativeAuthorityProof.max_steps proof <= 50 /\
    NativeAuthorityProof.issued_at_ms proof = now /\
    NativeAuthorityProof.expires_at_ms proof = saturating_add_u64 now MAX_PROOF_TTL_MS /\
    canonical_persistence (RequestNativeAuthorityProof.persistence request) =
      Ok (NativeAuthorityProof.persistence proof).
Proof.
  unfold insert_after_presence. intros Hi.
  apply bind_Ok in Hi as (session & Hs & Hi). apply bind_Ok in Hi as (classes & _ & Hi).
  apply bind_Ok in Hi as (scopes & _ & Hi). apply bind_Ok in Hi as ([] & Hst & Hi).
  apply bind_Ok in Hi as (persistence & Hp & Hi). apply validate_steps_Ok in Hst.
  unfold required_value in Hs. cbv zeta in Hs, Hi. destruct (is_empty _) eqn:He; [done|]. simplify_eq.
  eexists (NativeAuthorityProof.mk _ _ _ _ _ _ _ _ _ _). split; [reflexivity|]. cbn [NativeAuthorityProof.session_id NativeAuthorityProof.max_steps].
  split_and!; try done; try lia. by intros Hnil; rewrite Hnil in He.
Qed.

(** C29: the dialog leaves a proof only when the person pressed one of its two allowing
    buttons, and the proof says what that button said: once, or for as long as was asked
    for. In every language the labels of the three buttons differ, so the button that
    denies, and every other end of the dialog, leaves nothing. The proof is for the
    person who was asked, for one named session and between 1 and 50 steps, and lives
    for fifteen minutes. *)
Theorem confirmations_are_what_was_pressed outcome now bytes actor_id request proofs response proofs' :
  request_after_native_presence host outcome now bytes actor_id request proofs = Ok (response, proofs') ->
  exists classes scopes persistence proof,
    canonical_persistence (RequestNativeAuthorityProof.persistence request) = Ok persistence /\
    let copy := native_prompt_copy (default (lit "en-US") (RequestNativeAuthorityProof.locale request))
                  classes scopes persistence (RequestNativeAuthorityProof.max_steps request) in
    NoDup (labels copy) /\
    ((outcome = answered (NativePromptCopy.allow_once copy) /\
      NativeAuthorityProof.persistence proof = lit "one_time") \/
     (outcome = answered (NativePromptCopy.allow_persistent copy) /\
      NativeAuthorityProof.persistence proof = persistence)) /\
    proofs' = <[NativeAuthorityProof.proof_id proof := proof]> proofs /\
    NativeAuthorityProofResponse.proof_id response = NativeAuthorityProof.proof_id proof /\
    NativeAuthorityProof.actor_id proof = actor_id /\
    NativeAuthorityProof.session_id proof <> [] /\
    1 <= NativeAuthorityProof.max_steps proof <= 50 /\
    NativeAuthorityProof.issued_at_ms proof = now /\
    NativeAuthorityProof.expires_at_ms proof = saturating_add_u64 now MAX_PROOF_TTL_MS.
Proof.
  unfold request_after_native_presence. intros Hr.
  apply bind_Ok in Hr as (session & _ & Hr). apply bind_Ok in Hr as (classes & _ & Hr).
  apply bind_Ok in Hr as (scopes & _ & Hr). apply bind_Ok in Hr as ([] & _ & Hr).
  apply bind_Ok in Hr as (persistence & Hp & Hr). cbv zeta in Hr.
  apply bind_Ok in Hr as (selected & Hsel & Hr).
  apply insert_after_presence_spec in Hr as (proof & ? & ? & ? & _ & ? & _ & ? & ? & ? & Hpp).
  exists classes, scopes, persistence, proof. split; [done|]. cbv zeta. split; [apply labels_distinct|].
  cbn [RequestNativeAuthorityProof.persistence] in Hpp. split; [|split_and!; done || lia].
  apply selected_persistence_cases in Hsel as [[-> ->]|[-> ->]]; [left|right]; (split; [done|]).
  - assert (canonical_persistence (lit "one_time") = Ok (lit "one_time")) as Hone by (by vm_compute).
    rewrite Hone in Hpp. by injection Hpp as <-.
  - rewrite (canonical_persistence_idem _ _ Hp) in Hpp. by injection Hpp as <-.
Qed.

Lemma confirmations_are_stored outcome now bytes actor_id request proofs response proofs' :
  request_after_native_presence host outcome now bytes actor_id request proofs = Ok (response, proofs') ->
  exists proof,
    proofs' = <[NativeAuthorityProof.proof_id proof := proof]> proofs /\
    NativeAuthorityProofResponse.proof_id response = NativeAuthorityProof.proof_id proof /\
    1 <= NativeAuthorityProof.max_steps proof <= 50.
Proof.
  unfold request_after_native_presence. intros Hr.
  do 3 apply bind_Ok in Hr as (? & _ & Hr). apply bind_Ok in Hr as ([] & _ & Hr).
  do 2 apply bind_Ok in Hr as (? & _ & Hr).
  apply insert_after_presence_spec in Hr as (proof & ? & ? & _ & _ & _ & _ & ? & _). by exists proof.
Qed.

(** ** Presenting a proof *)
Lemma check_proof_Ok now expected proof p :
  check_proof now expected proof = Ok p ->
  p = proof /\
  now <= NativeAuthorityProof.expires_at_ms proof /\
  NativeAuthorityProof.actor_id proof = NativeAuthorityExpectation.actor_id expected /\
  NativeAuthorityProof.session_id proof = NativeAuthorityExpectation.session_id expected /\
  NativeAuthorityProof.operation_classes proof = NativeAuthorityExpectation.operation_classes expected /\
  NativeAuthorityProof.canonical_scopes proof = NativeAuthorityExpectation.canonical_scopes expected /\
  NativeAuthorityProof.max_steps proof = NativeAuthorityExpectation.max_steps expected /\
  NativeAuthorityProof.persistence proof ∈ NativeAuthorityExpectation.allowed_persistences expected.
Proof.
  unfold check_proof. intros Hc.
  apply bind_Ok in Hc as ([] & Ht%guard_not_Ok & Hc). apply bind_Ok in Hc as ([] & Ha%ensure_Ok & Hc).
  apply bind_Ok in Hc as ([] & Hs%ensure_Ok & Hc). apply bind_Ok in Hc as ([] & Ho%ensure_Ok & Hc).
  apply bind_Ok in Hc as ([] & Hsc%ensure_Ok & Hc). apply bind_Ok in Hc as ([] & Hst%ensure_Ok & Hc).
  apply bind_Ok in Hc as ([] & Hp%ensure_Ok & Hc). simplify_eq.
  apply str_eqb_eq in Ha, Hs. split_bools. split_and!; try done; try lia.
  apply existsb_exists in Hp as (v & Hv%list_elem_of_In & Heq%str_eqb_eq). by subst.
Qed.

(** A proof that is accepted is taken out of the store and agrees with what was
    expected: the person, the session, the classes (up to spelling), the steps. *)
Lemma consume_accepts now proof_id expected proofs proof proofs' :
  consume host now proof_id expected proofs = (Ok proof, proofs') ->
  proofs !! trim proof_id = Some proof /\
  proofs' = delete (trim proof_id) proofs /\
  now <= NativeAuthorityProof.expires_at_ms proof /\
  NativeAuthorityProof.actor_id proof = NativeAuthorityExpectation.actor_id expected /\
  NativeAuthorityProof.session_id proof = NativeAuthorityExpectation.session_id expected /\
  (forall c, c ∈ NativeAuthorityProof.operation_classes proof <->
     exists v, v ∈ NativeAuthorityExpectation.operation_classes expected /\ c = canonical_name v) /\
  NativeAuthorityProof.max_steps proof = NativeAuthorityExpectation.max_steps expected.
Proof.
  unfold consume. destruct (canonical_expectation host expected) as [e|e|] eqn:He; [|done..].
  unfold canonical_expectation in He. apply bind_Ok in He as (classes & Hcl & He).
  apply bind_Ok in He as (scopes & _ & He). apply bind_Ok in He as ([] & _ & He).
  apply bind_Ok in He as (allowed & _ & He). simplify_eq.
  unfold required_value. cbv zeta. destruct (is_empty (trim proof_id)); [done|].
  destruct (proofs !! trim proof_id) as [p|] eqn:Hp; [|done]. intros [= Hc <-].
  apply check_proof_Ok in Hc as (-> & Ht & Ha & Hs & Ho & _ & Hst & _). cbn in *.
  split_and!; try done. rewrite Ho. by apply (canonical_values_elem "operation_classes").
Qed.

Lemma consume_only_removes now proof_id expected proofs :
  (consume host now proof_id expected proofs).2 ⊆ proofs.
Proof.
  unfold consume. destruct (canonical_expectation host expected); [|done..].
  destruct (required_value _ _); [|done..]. destruct (proofs !! _); [|done]. apply delete_subseteq.
Qed.
End Authority.

Lemma confirmations_are_what_was_pressed_witness :
  let request := RequestNativeAuthorityProof.mk (lit " chat-1 ") [lit "Filesystem-Write"]
    [lit "actuation-session:chat-1"] 3 (lit "session-gated") (Some (lit "de-DE")) in
  exists response proofs proof,
    @request_after_native_presence (fun bytes => take 4 bytes) Desk.host (answered (utf8 "Für diese Sitzung"))
      1000 [7; 8] (lit "ada") request ∅ = Ok (response, proofs) /\
    @request_after_native_presence (fun bytes => take 4 bytes) Desk.host (answered (utf8 "Nicht erlauben"))
      1000 [7; 8] (lit "ada") request ∅ =
      Err (mismatch "authority_user_denied" "You chose not to allow this action.") /\
    proofs = <[NativeAuthorityProof.proof_id proof := proof]> ∅ /\
    NativeAuthorityProof.actor_id proof = lit "ada" /\
    1 <= NativeAuthorityProof.max_steps proof <= 50.
Proof.
  intros request.
  assert (is_ok (@request_after_native_presence (fun bytes => take 4 bytes) Desk.host
    (answered (utf8 "Für diese Sitzung")) 1000 [7; 8] (lit "ada") request ∅) = true) as Hr by (by vm_compute).
  apply is_ok_true in Hr as ([response proofs] & Hr).
  destruct (@confirmations_are_what_was_pressed (fun bytes => take 4 bytes) Desk.host _ _ _ _ _ _ _ _ Hr)
    as (classes & scopes & persistence & proof & _ & _ & _ & Hs & _ & Ha & _ & Hm & _).
  exists response, proofs, proof. split; [exact Hr|]. split; [by vm_compute|]. split_and!; done || lia.
Defined.
