(* ===== verification/ActuationLease.v ===== *)
(** * Actuation leases ([shield_gate.rs], [shield_gate/actuation_continuation.rs],
      [agentic_loop/execution_lease.rs])

    While the assistant works on its own, every action that changes something
    needs the lease: a budget of steps for one session and some classes of
    operation, granted against a proof of the person's presence ([Authority]).
    There is one lease, behind a mutex; each operation is one critical section,
    and a command that grants has two, one on the proofs and one on the lease.
    Events for the window are left out. *)
From S2P Require Import Prelude.
From S2P Require Import RustStr.
From S2P Require Import JsonValue.
From S2P Require Import ToolSecurity.
From S2P Require Import TaskTools.
From S2P Require Import EffectJournal.
From S2P Require Import Authority.
From S2P Require Import TerminalContract.
Local Open Scope Z_scope.

Module ShieldGateError.
Record t : Type := mk { code : str; boundary : str; message : str }.
Definition of_authority (error : AuthorityError) : t :=
  mk (NativeAuthorityError.code error) (NativeAuthorityError.boundary error)
    (NativeAuthorityError.message error).
End ShieldGateError.
Notation GateError := ShieldGateError.t.

(** ** Actions *)
Module ApprovedFileIdentity.
Record t : Type := mk { device : Z; inode : Z }.
End ApprovedFileIdentity.
Module ApprovedExternalReadRequest.
Record t : Type := mk { path : str; expected_identity : ApprovedFileIdentity.t }.
End ApprovedExternalReadRequest.
Module ApprovedExternalWriteRequest.
Record t : Type := mk {
  path : str;
  content : str;
  anchor_path : list str;
  anchor_identity : ApprovedFileIdentity.t;
  missing_components : list str;
  expected_target_identity : option ApprovedFileIdentity.t;
}.
End ApprovedExternalWriteRequest.
Module FileWriteRequest.
Record t : Type := mk { path : str; content : str }.
End FileWriteRequest.
Module CodebasePatchRequest.
Record t : Type := mk { target_file_path : str; search_pattern : str; replacement_content : str }.
End CodebasePatchRequest.
Module CodebaseCompileTarget.
Inductive t : Type := Backend | Frontend.
End CodebaseCompileTarget.
Module SovereignDuckDuckGoSearchRequest.
Record t : Type := mk { query : str; max_results : Z; session_id : option str }.
End SovereignDuckDuckGoSearchRequest.
Module AirlockExportRequest.
Record t : Type := mk { artifact_path : str; mount_path : str; mission_id : str }.
End AirlockExportRequest.

Module AuthorizedActions.
Inductive t `{J : JsonLib} : Type :=
  | GetSystemMetrics (principal : str)
  | FileRead (path : str)
  | ApprovedExternalFileRead (request : ApprovedExternalReadRequest.t)
  | FileWrite (request : FileWriteRequest.t)
  | CodebasePatch (request : CodebasePatchRequest.t)
  | CodebaseCompile (target : CodebaseCompileTarget.t)
  | ApprovedExternalFileWrite (request : ApprovedExternalWriteRequest.t)
  | TelemetryArchive (output_path : str)
  | ApprovedFileDelete (path : str)
  | FileList (path : str)
  | ApprovedExternalFileList (request : ApprovedExternalReadRequest.t)
  | ApprovedSystemExecution (request : TerminalRequest)
  | SystemAudit (scope : str)
  | WebFetch
  | DocumentIndex
  | AskLocalDocumentIndex
  | SovereignDuckDuckGoSearch (request : SovereignDuckDuckGoSearchRequest.t)
  | RegisteredTaskTool (request : ValidatedTaskToolRequest.t)
  | AirlockExport (request : AirlockExportRequest.t).
End AuthorizedActions.
Notation AuthorizedAction := AuthorizedActions.t.

Definition normalize_action_kind (action_kind : str) : str :=
  to_ascii_lowercase (dashes_to_underscores (trim action_kind)).
Definition is_project_file_write_action (kind : str) : bool :=
  in_list kind ["file_write"; "create_file"; "configure_channel"; "prepare_release_recovery_agenda";
                "prepare_background_agent_comparison"; "prepare_milestone_constraint_recovery_plan"].
Definition reviewed_action_class (action_kind : str) : str :=
  let normalized := normalize_action_kind action_kind in
  if in_list normalized ["file_read"; "file_list"] then lit "filesystem_read"
  else if is_project_file_write_action normalized then lit "filesystem_write"
  else normalized.

Section Actions.
Context `{J : JsonLib}.
Implicit Types action : AuthorizedAction.

Definition operation_name action : str :=
  match action with
  | AuthorizedActions.GetSystemMetrics _ => lit "get_system_metrics"
  | AuthorizedActions.FileRead _ | AuthorizedActions.ApprovedExternalFileRead _ => lit "file_read"
  | AuthorizedActions.FileWrite _ | AuthorizedActions.ApprovedExternalFileWrite _ => lit "file_write"
  | AuthorizedActions.TelemetryArchive _ => lit "telemetry_archive"
  | AuthorizedActions.ApprovedFileDelete _ => lit "delete_file"
  | AuthorizedActions.CodebasePatch _ => lit "codebase_patch"
  | AuthorizedActions.CodebaseCompile _ => lit "codebase_compile"
  | AuthorizedActions.FileList _ | AuthorizedActions.ApprovedExternalFileList _ => lit "file_list"
  | AuthorizedActions.ApprovedSystemExecution _ => lit "terminal_execute"
  | AuthorizedActions.SystemAudit _ => lit "system_audit"
  | AuthorizedActions.WebFetch => lit "web_fetch"
  | AuthorizedActions.DocumentIndex => lit "document_index"
  | AuthorizedActions.AskLocalDocumentIndex => lit "ask_local_document_index"
  | AuthorizedActions.SovereignDuckDuckGoSearch _ => lit "sovereign_duckduckgo_search"
  | AuthorizedActions.RegisteredTaskTool request => ValidatedTaskToolRequest.operation request
  | AuthorizedActions.AirlockExport _ => lit "airlock_export"
  end.

Definition is_mutating_action action : bool :=
  match action with
  | AuthorizedActions.RegisteredTaskTool request =>
      ValidatedTaskToolRequest.potentially_effectful request
  | AuthorizedActions.ApprovedSystemExecution request =>
      CapabilityClassification.requires_human_approval (classification request)
  | AuthorizedActions.FileWrite _ | AuthorizedActions.CodebasePatch _
  | AuthorizedActions.CodebaseCompile _ | AuthorizedActions.ApprovedExternalFileWrite _
  | AuthorizedActions.TelemetryArchive _ | AuthorizedActions.ApprovedFileDelete _
  | AuthorizedActions.DocumentIndex | AuthorizedActions.AirlockExport _ => true
  | _ => false
  end.

(** The class a lease must name for an action. *)
Definition action_class action : str :=
  match action with
  | AuthorizedActions.RegisteredTaskTool _ => lit "registered_task_tool"
  | _ => reviewed_action_class (operation_name action)
  end.
End Actions.

(** ** The lease *)
Module ActuationLease.
Record t : Type := mk {
  actor_id : str;
  session_id : str;
  operation_classes : list str;
  canonical_scopes : list str;
  expires_at_ms : Z;
  max_steps : Z;
  current_steps : Z;
  is_active : bool;
}.
Definition deactivate (self : t) : t :=
  mk (actor_id self) (session_id self) (operation_classes self) (canonical_scopes self)
    (expires_at_ms self) (max_steps self) (current_steps self) false.
Definition use_step (self : t) : t :=
  mk (actor_id self) (session_id self) (operation_classes self) (canonical_scopes self)
    (expires_at_ms self) (max_steps self) (current_steps self + 1) (is_active self).
Definition continue_until (expires : Z) (self : t) : t :=
  mk (actor_id self) (session_id self) (operation_classes self) (canonical_scopes self)
    expires (max_steps self) (current_steps self) true.
End ActuationLease.
Notation Lease := ActuationLease.t.

Module ActuationLeaseStatus.
Record t : Type := mk {
  lease : option Lease;
  active : bool;
  now_ms : Z;
  remaining_ms : Z;
  remaining_steps : Z;
  reason : option str;
}.
End ActuationLeaseStatus.
Notation LeaseStatus := ActuationLeaseStatus.t.

Module ActuationLeaseOutcome.
Inductive t : Type :=
  | NotRequired
  | Authorized (status : LeaseStatus)
  | Blocked (status : LeaseStatus) (reason : str).
End ActuationLeaseOutcome.
Notation LeaseOutcome := ActuationLeaseOutcome.t.

Definition lease_error (code message : string) : GateError :=
  ShieldGateError.mk (lit code) (lit "ActuationLeaseManager") (lit message).

Definition required_actuation_session_id (session_id : option str) : res GateError str :=
  match session_id with
  | Some value =>
      let value := trim value in
      ensure (not_empty value)
        (lease_error "actuation_session_required"
           "Start this access from a specific chat or task session.") ≫= fun _ => Ok value
  | None => Err (lease_error "actuation_session_required"
                   "Start this access from a specific chat or task session.")
  end.

(** [usize::saturating_sub] and [u64::saturating_sub] are the same on 64 bits. *)
Definition status_from_lease (lease : option Lease) (now_ms : Z) (reason : option str) : LeaseStatus :=
  match lease with
  | Some l =>
      ActuationLeaseStatus.mk lease
        (ActuationLease.is_active l && (now_ms <=? ActuationLease.expires_at_ms l)) now_ms
        (saturating_sub_u64 (ActuationLease.expires_at_ms l) now_ms)
        (saturating_sub_u64 (ActuationLease.max_steps l) (ActuationLease.current_steps l)) reason
  | None => ActuationLeaseStatus.mk None false now_ms 0 0 reason
  end.

Definition MAX_LEASE_MS : Z := 15 * 60 * 1000.
Definition session_scope (session_id : str) : str := lit actuation_prefix ++ session_id.

Definition grant (now : Z) (actor_id session_id : str) (operation_classes canonical_scopes : list str)
    (duration_ms max_steps : Z) (lease : option Lease) : res GateError (LeaseStatus * option Lease) :=
  session_id ← required_actuation_session_id (Some session_id);
  _ ← guard_not (duration_ms =? 0)
    (lease_error "actuation_lease_invalid_duration" "Actuation lease duration must be greater than zero.");
  _ ← guard_not (MAX_LEASE_MS <? duration_ms)
    (lease_error "actuation_lease_invalid_duration" "Actuation access cannot exceed 15 minutes.");
  _ ← ensure (in_range 1 50 max_steps)
    (lease_error "actuation_lease_invalid_steps" "Actuation access must allow between 1 and 50 actions.");
  let lease := Some (ActuationLease.mk actor_id session_id operation_classes canonical_scopes
    (saturating_add_u64 now duration_ms) max_steps 0 true) in
  Ok (status_from_lease lease now None, lease).

Definition snapshot (now : Z) (lease : option Lease) : LeaseStatus * option Lease :=
  match lease with
  | Some l =>
      if ActuationLease.is_active l && (ActuationLease.expires_at_ms l <? now)
      then let lease := Some (ActuationLease.deactivate l) in
           (status_from_lease lease now (Some (lit "expired")), lease)
      else (status_from_lease lease now None, lease)
  | None => (status_from_lease None now None, None)
  end.

Section Leases.
Context `{J : JsonLib}.
Implicit Types action : AuthorizedAction.

Definition validate_and_decrement_lease (now : Z) (lease : Lease) action : bool * Lease :=
  if negb (is_mutating_action action) then (true, lease)
  else if negb (ActuationLease.is_active lease)
          || (ActuationLease.expires_at_ms lease <? now)
          || (ActuationLease.max_steps lease <=? ActuationLease.current_steps lease)
  then (false, ActuationLease.deactivate lease)
  else (true, ActuationLease.use_step lease).

(** The identity, the class and the scope an action must agree with. *)
Definition covers (lease : Lease) (actor_id session_id : str) action : bool :=
  str_eqb (ActuationLease.actor_id lease) actor_id
  && existsb (fun allowed => str_eqb allowed (action_class action)) (ActuationLease.operation_classes lease)
  && bool_decide (ActuationLease.canonical_scopes lease = [session_scope session_id]).

(** [now] is read before the lock, [now'] inside [validate_and_decrement_lease]. *)
Definition evaluate_autonomous_action (now now' : Z) (actor_id session_id : option str) action
    (lease : option Lease) : res GateError LeaseOutcome * option Lease :=
  if negb (is_mutating_action action) then (Ok ActuationLeaseOutcome.NotRequired, lease)
  else match required_actuation_session_id session_id with
  | Err e => (Err e, lease)
  | Panic => (Panic, lease)
  | Ok requested_session_id =>
  match option_map trim actor_id with
  | None | Some [] =>
      (Err (lease_error "actuation_actor_required"
              "The active local identity is required for this action."), lease)
  | Some requested_actor_id =>
  match lease with
  | None =>
      (Ok (ActuationLeaseOutcome.Blocked (status_from_lease None now (Some (lit "missing")))
             (lit "No active actuation lease is available for autonomous mutating actions.")), lease)
  | Some l =>
      if negb (str_eqb (ActuationLease.session_id l) requested_session_id) then
        (Ok (ActuationLeaseOutcome.Blocked (status_from_lease lease now (Some (lit "session_mismatch")))
               (lit "Active actuation lease belongs to session '" ++ ActuationLease.session_id l
                ++ lit "' and cannot authorize session '" ++ requested_session_id ++ lit "'.")), lease)
      else if negb (covers l requested_actor_id requested_session_id action) then
        (Ok (ActuationLeaseOutcome.Blocked (status_from_lease lease now (Some (lit "authority_mismatch")))
               (lit "Active access does not cover this identity, action, and session scope.")), lease)
      else
        let '(allowed, l) := validate_and_decrement_lease now' l action in
        let lease := Some l in
        let status := status_from_lease lease now (if allowed then None else Some (lit "decayed")) in
        (Ok (if allowed then ActuationLeaseOutcome.Authorized status
             else ActuationLeaseOutcome.Blocked status
                    (lit "Actuation lease expired or exhausted its step budget.")), lease)
  end end end.

Definition show_bool (b : bool) : str := if b then lit "true" else lit "false".

Definition enforce_autonomous_action (now now' : Z) (actor_id session_id : option str) action
    (lease : option Lease) : res GateError unit * option Lease :=
  match evaluate_autonomous_action now now' actor_id session_id action lease with
  | (Ok (ActuationLeaseOutcome.Blocked status reason), lease) =>
      (Err (ShieldGateError.mk (lit "actuation_lease_required") (lit "ActuationLeaseManager")
              (reason ++ lit " Manual approval is required before execution can continue. Lease active="
               ++ show_bool (ActuationLeaseStatus.active status) ++ lit " remaining_steps="
               ++ show_int (ActuationLeaseStatus.remaining_steps status) ++ lit ".")), lease)
  | (Ok _, lease) => (Ok tt, lease)
  | (Err e, lease) => (Err e, lease)
  | (Panic, lease) => (Panic, lease)
  end.
End Leases.

(** [session_id.map(str::trim).unwrap_or_default()] *)
Definition trimmed_or_empty (session_id : option str) : str := default [] (option_map trim session_id).

Definition terminate_for_review (now : Z) (session_id : option str) (reason : str)
    (lease : option Lease) : LeaseStatus * option Lease :=
  let requested := trimmed_or_empty session_id in
  let lease := option_map (fun l =>
    if not_empty requested && str_eqb (ActuationLease.session_id l) requested
    then ActuationLease.deactivate l else l) lease in
  (status_from_lease lease now (Some reason), lease).

Definition finish_session (now : Z) (session_id : option str) (reason : str) (lease : option Lease)
  : option LeaseStatus * option Lease :=
  let requested := trimmed_or_empty session_id in
  match lease with
  | None => (None, lease)
  | Some l =>
      if negb (str_eqb (ActuationLease.session_id l) requested) || negb (ActuationLease.is_active l)
      then (None, lease)
      else let lease := Some (ActuationLease.deactivate l) in
           (Some (status_from_lease lease now (Some reason)), lease)
  end.

Definition refresh_for_continuation (now : Z) (actor_id session_id : str) (duration_ms : Z)
    (lease : option Lease) : res GateError (LeaseStatus * option Lease) :=
  _ ← guard_not ((duration_ms =? 0) || (MAX_LEASE_MS <? duration_ms))
    (lease_error "actuation_lease_invalid_duration" "Actuation access cannot exceed 15 minutes.");
  session_id ← required_actuation_session_id (Some session_id);
  let actor_id := trim actor_id in
  l ← ok_or (lease_error "actuation_lease_missing"
               "No active actuation lease is available for this continuation.") lease;
  _ ← guard_not
    (is_empty actor_id
     || negb (str_eqb (ActuationLease.actor_id l) actor_id)
     || negb (str_eqb (ActuationLease.session_id l) session_id)
     || negb (bool_decide (ActuationLease.canonical_scopes l = [session_scope session_id]))
     || (ActuationLease.max_steps l <=? ActuationLease.current_steps l))
    (lease_error "actuation_lease_continuation_mismatch"
       "The active actuation lease does not cover this continuation.");
  let lease := Some (ActuationLease.continue_until (saturating_add_u64 now duration_ms) l) in
  Ok (status_from_lease lease now (Some (lit "continued")), lease).

(** [agentic_loop/execution_lease.rs], called before each step of a plan. *)
Definition APPROVED_AGENT_PLAN_LEASE_DURATION_MS : Z := 15 * 60 * 1000.
Definition refresh_before_effectful_step (plan_approved potentially_effectful : bool) (now : Z)
    (active_actor_id : str) (session_id : option str) (lease : option Lease)
  : res GateError (option Lease) :=
  if negb plan_approved || negb potentially_effectful then Ok lease
  else
    r ← refresh_for_continuation now active_actor_id (default [] session_id)
          APPROVED_AGENT_PLAN_LEASE_DURATION_MS lease;
    Ok (snd r).

(** ** Granting a lease *)
Module GrantActuationLeaseRequest.
Record t : Type := mk {
  session_id : str;
  duration_ms : Z;
  max_steps : Z;
  authority_proof_id : str;
  operation_classes : list str;
}.
End GrantActuationLeaseRequest.
Notation GrantRequest := GrantActuationLeaseRequest.t.

(** What is in hand between the two critical sections of a grant: the proof that
    was used up, and what the lease will say. *)
Module PendingGrant.
Record t : Type := mk {
  proof : Proof;
  actor_id : str;
  session_id : str;
  operation_classes : list str;
  duration_ms : Z;
  max_steps : Z;
}.
End PendingGrant.

Section Grants.
Context (host : Host).
Notation Proofs := (gmap str Proof).

Definition lease_persistences : list str := [lit "one_time"; lit "session_gated"].

Definition consume_for_lease (now : Z) (proof_id actor_id session_id : str)
    (operation_classes : list str) (max_steps duration_ms : Z) (proofs : Proofs)
  : res AuthorityError PendingGrant.t * Proofs :=
  let '(r, proofs) := consume host now proof_id
    (NativeAuthorityExpectation.mk actor_id session_id operation_classes [session_scope session_id]
       max_steps lease_persistences) proofs in
  (r ≫= fun proof =>
     Ok (PendingGrant.mk proof actor_id session_id operation_classes duration_ms max_steps), proofs).

Definition complete_grant (now : Z) (pending : PendingGrant.t) (lease : option Lease)
  : res GateError (LeaseStatus * option Lease) :=
  grant now (PendingGrant.actor_id pending) (PendingGrant.session_id pending)
    (PendingGrant.operation_classes pending) [session_scope (PendingGrant.session_id pending)]
    (PendingGrant.duration_ms pending) (PendingGrant.max_steps pending) lease.

(** [grant_actuation_lease] up to the lock of the lease; [actor] is what
    [current_actor_id] answered. *)
Definition begin_grant (now : Z) (actor : res AuthorityError str) (request : GrantRequest)
    (proofs : Proofs) : res GateError PendingGrant.t * Proofs :=
  match map_err ShieldGateError.of_authority actor with
  | Ok actor_id =>
      match required_actuation_session_id (Some (GrantActuationLeaseRequest.session_id request)) with
      | Ok session_id =>
          let '(r, proofs) := consume_for_lease now
            (GrantActuationLeaseRequest.authority_proof_id request) actor_id session_id
            (GrantActuationLeaseRequest.operation_classes request)
            (GrantActuationLeaseRequest.max_steps request)
            (GrantActuationLeaseRequest.duration_ms request) proofs in
          (map_err ShieldGateError.of_authority r, proofs)
      | Err e => (Err e, proofs)
      | Panic => (Panic, proofs)
      end
  | Err e => (Err e, proofs)
  | Panic => (Panic, proofs)
  end.

(** The whole command: [emitted] is what came of telling the window. *)
Definition grant_actuation_lease (now now' now'' : Z) (actor : res AuthorityError str)
    (request : GrantRequest) (emitted : res str unit) (proofs : Proofs) (lease : option Lease)
  : res GateError LeaseStatus * Proofs * option Lease :=
  let '(r, proofs) := begin_grant now actor request proofs in
  match r with
  | Ok pending =>
      match complete_grant now' pending lease with
      | Ok (status, lease) =>
          match emitted with
          | Err error =>
              let '(_, lease) := finish_session now'' (Some (PendingGrant.session_id pending))
                (lit "actuation_lease_event_failed") lease in
              (Err (ShieldGateError.mk (lit "actuation_lease_event_failed") (lit "ActuationLeaseManager")
                      (lit "Unable to emit actuation lease update: " ++ error)), proofs, lease)
          | _ => (Ok status, proofs, lease)
          end
      | Err e => (Err e, proofs, lease)
      | Panic => (Panic, proofs, lease)
      end
  | Err e => (Err e, proofs, lease)
  | Panic => (Panic, proofs, lease)
  end.

Definition revoke_actuation_lease (now : Z) (session_id : str) (reason : option str)
    (lease : option Lease) : LeaseStatus * option Lease :=
  terminate_for_review now (Some session_id) (default (lit "manual_revocation") reason) lease.

(** [provision_approved_agent_plan_lease] up to the lock of the lease: nothing is
    granted to a plan that changes nothing. *)
Definition begin_plan_grant (now : Z) (actor : res AuthorityError str) (session_id : str)
    (authority_proof_id : option str) (operation_classes : list str) (max_steps : Z) (proofs : Proofs)
  : res GateError (option PendingGrant.t) * Proofs :=
  if max_steps =? 0 then (Ok None, proofs)
  else match authority_proof_id with
  | None =>
      (Err (ShieldGateError.mk (lit "native_authority_required") (lit "NativeAuthorityBoundary")
              (lit "Confirm this plan on your Mac before it starts.")), proofs)
  | Some proof_id =>
      match map_err ShieldGateError.of_authority actor with
      | Ok actor_id =>
          let '(r, proofs) := consume_for_lease now proof_id actor_id (trim session_id)
            operation_classes max_steps APPROVED_AGENT_PLAN_LEASE_DURATION_MS proofs in
          (map_err ShieldGateError.of_authority (r ≫= fun pending => Ok (Some pending)), proofs)
      | Err e => (Err e, proofs)
      | Panic => (Panic, proofs)
      end
  end.
End Grants.
