(* ===== verification/LeaseSystem.v ===== *)
(** * Autonomous actions are paid for by the person's confirmations

    [access] is the state the operations of [Authority] and [ActuationLease]
    share, with a log of what happened; [perform] takes one critical section.
    Sections of any number of commands, plans and actions may follow each other
    in any order, and a command may stop between its two sections. *)
From stdpp Require Import sorting.
From S2P Require Import Prelude.
From S2P Require Import RustStr.
From S2P Require Import JsonValue.
From S2P Require Import ToolSecurity.
From S2P Require Import EffectJournal.
From S2P Require Import Authority.
From S2P Require Import AuthorityTheorems.
From S2P Require Import TerminalContract.
From S2P Require Import ActuationLease.
Local Open Scope Z_scope.

Module Access.
Inductive event `{J : JsonLib} : Type :=
  | Confirmed (proof : Proof)
  | Granted (proof : Proof) (at_ms : Z)
  | Extended (at_ms : Z)
  | Acted (at_ms : Z) (actor_id session_id : str) (action : AuthorizedAction).
Record t `{J : JsonLib} : Type := mk {
  proofs : gmap str Proof;
  pending : list PendingGrant.t;
  lease : option Lease;
  log : list event;
}.
End Access.
Notation access := Access.t.

(** One critical section. *)
Module Section_.
Inductive t `{J : JsonLib} : Type :=
  | Confirm (outcome : PromptOutcome.t) (now : Z) (bytes : list Z) (actor_id : str)
      (request : ProofRequest)
  | BeginGrant (now : Z) (actor : res AuthorityError str) (request : GrantRequest)
  | BeginPlan (now : Z) (actor : res AuthorityError str) (session_id : str) (proof_id : option str)
      (operation_classes : list str) (max_steps : Z)
  | CompleteGrant (now : Z) (n : nat)
  | GiveUp (n : nat)
  | Evaluate (now now' : Z) (actor_id session_id : option str) (action : AuthorizedAction)
  | Snapshot (now : Z)
  | Revoke (now : Z) (session_id : option str) (reason : str)
  | Finish (now : Z) (session_id : option str) (reason : str)
  | Continue (plan_approved potentially_effectful : bool) (now : Z) (actor_id : str)
      (session_id : option str).
End Section_.

Section Machine.
Context `{J : JsonLib} {D : Digest} (host : Host).
Implicit Types s : access.
Notation event := Access.event.

Definition with_lease (l : option Lease) s : access :=
  Access.mk _ (Access.proofs s) (Access.pending s) l (Access.log s).
Definition note (e : event) s : access :=
  Access.mk _ (Access.proofs s) (Access.pending s) (Access.lease s) (Access.log s ++ [e]).

Definition perform (o : Section_.t) s : access :=
  match o with
  | Section_.Confirm outcome now bytes actor_id request =>
      match request_after_native_presence host outcome now bytes actor_id request (Access.proofs s) with
      | Ok (response, proofs) =>
          match proofs !! NativeAuthorityProofResponse.proof_id response with
          | Some proof =>
              Access.mk _ proofs (Access.pending s) (Access.lease s)
                (Access.log s ++ [Access.Confirmed proof])
          | None => s
          end
      | _ => s
      end
  | Section_.BeginGrant now actor request =>
      let '(r, proofs) := begin_grant host now actor request (Access.proofs s) in
      Access.mk _ proofs (match r with Ok p => Access.pending s ++ [p] | _ => Access.pending s end)
        (Access.lease s) (Access.log s)
  | Section_.BeginPlan now actor session_id proof_id operation_classes max_steps =>
      let '(r, proofs) := begin_plan_grant host now actor session_id proof_id operation_classes max_steps
                            (Access.proofs s) in
      Access.mk _ proofs
        (match r with Ok (Some p) => Access.pending s ++ [p] | _ => Access.pending s end)
        (Access.lease s) (Access.log s)
  | Section_.CompleteGrant now n =>
      match Access.pending s !! n with
      | None => s
      | Some p =>
          let pending := delete n (Access.pending s) in
          match complete_grant now p (Access.lease s) with
          | Ok (_, lease) =>
              Access.mk _ (Access.proofs s) pending lease
                (Access.log s ++ [Access.Granted (PendingGrant.proof p) now])
          | _ => Access.mk _ (Access.proofs s) pending (Access.lease s) (Access.log s)
          end
      end
  | Section_.GiveUp n =>
      Access.mk _ (Access.proofs s) (delete n (Access.pending s)) (Access.lease s) (Access.log s)
  | Section_.Evaluate now now' actor_id session_id action =>
      let '(r, lease) := evaluate_autonomous_action now now' actor_id session_id action (Access.lease s) in
      let s := with_lease lease s in
      match r with
      | Ok (ActuationLeaseOutcome.Authorized _) =>
          note (Access.Acted now' (trimmed_or_empty actor_id) (trimmed_or_empty session_id) action) s
      | _ => s
      end
  | Section_.Snapshot now => with_lease (snd (snapshot now (Access.lease s))) s
  | Section_.Revoke now session_id reason =>
      with_lease (snd (terminate_for_review now session_id reason (Access.lease s))) s
  | Section_.Finish now session_id reason =>
      with_lease (snd (finish_session now session_id reason (Access.lease s))) s
  | Section_.Continue plan_approved potentially_effectful now actor_id session_id =>
      match refresh_before_effectful_step plan_approved potentially_effectful now actor_id session_id
              (Access.lease s) with
      | Ok lease =>
          if plan_approved && potentially_effectful
          then note (Access.Extended now) (with_lease lease s) else s
      | _ => s
      end
  end.

Definition nothing_yet : access := Access.mk _ ∅ [] None [].
Definition runs_to (s : access) : Prop := exists os, s = foldl (fun s o => perform o s) nothing_yet os.

(** ** What the log says *)
Definition confirmed_steps (l : list event) : Z :=
  foldr (fun e n => match e with Access.Confirmed p => NativeAuthorityProof.max_steps p + n | _ => n end) 0 l.
Definition acted (l : list event) : Z :=
  foldr (fun e n => match e with Access.Acted _ _ _ _ => 1 + n | _ => n end) 0 l.
(** The steps of the last grant, and what was done since. *)
Definition last_grant (l : list event) : Z * Z :=
  foldl (fun '(granted, used) e =>
    match e with
    | Access.Granted p _ => (NativeAuthorityProof.max_steps p, 0)
    | Access.Acted _ _ _ _ => (granted, used + 1)
    | _ => (granted, used)
    end) (0, 0) l.
(** An action at [at_ms] was confirmed by the person who is acting, for its session
    and its class, and comes within fifteen minutes of a grant or a continuation. *)
Definition confirmed_for (before : list event) (e : event) : Prop :=
  match e with
  | Access.Acted at_ms actor_id session_id action =>
      exists p t,
        Access.Confirmed p ∈ before /\
        NativeAuthorityProof.actor_id p = actor_id /\
        NativeAuthorityProof.session_id p = session_id /\
        action_class action ∈ NativeAuthorityProof.operation_classes p /\
        (Access.Granted p t ∈ before \/ Access.Extended t ∈ before) /\
        at_ms <= saturating_add_u64 t MAX_LEASE_MS
  | _ => True
  end.
Definition each_confirmed (l : list event) : Prop :=
  forall before e after, l = before ++ e :: after -> confirmed_for before e.

(** ** Counting *)
Lemma confirmed_steps_app l l' : confirmed_steps (l ++ l') = confirmed_steps l + confirmed_steps l'.
Proof. induction l as [|e l IH]; [done|]. simpl. rewrite IH. destruct e; lia. Qed.
Lemma acted_app l l' : acted (l ++ l') = acted l + acted l'.
Proof. induction l as [|e l IH]; [done|]. simpl. rewrite IH. destruct e; lia. Qed.
Lemma last_grant_snoc l e :
  last_grant (l ++ [e]) =
  match e with
  | Access.Granted p _ => (NativeAuthorityProof.max_steps p, 0)
  | Access.Acted _ _ _ _ => ((last_grant l).1, (last_grant l).2 + 1)
  | _ => last_grant l
  end.
Proof. unfold last_grant. rewrite foldl_app. simpl. by destruct (foldl _ _ _), e. Qed.

Lemma each_confirmed_snoc l e : each_confirmed l -> confirmed_for l e -> each_confirmed (l ++ [e]).
Proof.
  intros Hl He before e' after Heq. destruct after as [|x after] using rev_ind.
  - apply app_inj_tail in Heq as [-> ->]. done.
  - clear IHafter. assert (l = before ++ e' :: after) as ->.
    { rewrite app_comm_cons, app_assoc in Heq. by apply app_inj_tail in Heq as [-> _]. }
    by eapply Hl.
Qed.

(** The steps of the proofs in the store and of the grants under way. *)
Definition stored_steps (proofs : gmap str Proof) : Z :=
  foldr Z.add 0 (map (fun '(_, p) => NativeAuthorityProof.max_steps p) (map_to_list proofs)).
Definition pending_steps (pending : list PendingGrant.t) : Z :=
  foldr Z.add 0 (map (fun p => NativeAuthorityProof.max_steps (PendingGrant.proof p)) pending).

Lemma foldr_add_perm (l l' : list Z) : l ≡ₚ l' -> foldr Z.add 0 l = foldr Z.add 0 l'.
Proof. induction 1; simpl; lia. Qed.

Lemma stored_steps_insert proofs k p :
  proofs !! k = None -> stored_steps (<[k := p]> proofs) = NativeAuthorityProof.max_steps p + stored_steps proofs.
Proof.
  intros Hk. unfold stored_steps.
  rewrite (foldr_add_perm _ (map (fun '(_, p) => NativeAuthorityProof.max_steps p) ((k, p) :: map_to_list proofs))).
  - done.
  - apply Permutation_map. by apply map_to_list_insert.
Qed.
Lemma stored_steps_delete proofs k p :
  proofs !! k = Some p -> stored_steps proofs = NativeAuthorityProof.max_steps p + stored_steps (delete k proofs).
Proof.
  intros Hk. rewrite <- (insert_delete_id proofs k p) at 1 by done.
  apply stored_steps_insert. apply lookup_delete_eq.
Qed.
Lemma pending_steps_delete pending n p :
  pending !! n = Some p ->
  pending_steps pending = NativeAuthorityProof.max_steps (PendingGrant.proof p) + pending_steps (delete n pending).
Proof.
  intros Hn. unfold pending_steps. rewrite (foldr_add_perm _ (map (fun p =>
    NativeAuthorityProof.max_steps (PendingGrant.proof p)) (p :: delete n pending))); [done|].
  apply Permutation_map. by apply delete_Permutation.
Qed.
Lemma pending_steps_snoc pending p :
  pending_steps (pending ++ [p]) = pending_steps pending + NativeAuthorityProof.max_steps (PendingGrant.proof p).
Proof. unfold pending_steps. rewrite map_app, foldr_app. simpl. induction (map _ pending); simpl; lia. Qed.

(** ** The invariant *)
Definition known (l : list event) (p : Proof) : Prop :=
  Access.Confirmed p ∈ l /\ 1 <= NativeAuthorityProof.max_steps p <= 50.
(** What a grant under way, and then the lease, takes from its proof. *)
Definition drawn_from (p : Proof) (actor_id session_id : str) (classes : list str) (steps : Z) : Prop :=
  NativeAuthorityProof.actor_id p = actor_id /\
  NativeAuthorityProof.session_id p = session_id /\
  NativeAuthorityProof.max_steps p = steps /\
  forall c, c ∈ classes -> canonical_name c ∈ NativeAuthorityProof.operation_classes p.
Definition pending_ok (l : list event) (p : PendingGrant.t) : Prop :=
  known l (PendingGrant.proof p) /\
  trim (PendingGrant.session_id p) = PendingGrant.session_id p /\
  drawn_from (PendingGrant.proof p) (PendingGrant.actor_id p) (PendingGrant.session_id p)
    (PendingGrant.operation_classes p) (PendingGrant.max_steps p).
Definition lease_ok (l : list event) (x : Lease) : Prop :=
  (exists p t,
    known l p /\
    drawn_from p (ActuationLease.actor_id x) (ActuationLease.session_id x)
      (ActuationLease.operation_classes x) (ActuationLease.max_steps x) /\
    (Access.Granted p t ∈ l \/ Access.Extended t ∈ l) /\
    ActuationLease.expires_at_ms x <= saturating_add_u64 t MAX_LEASE_MS) /\
  ActuationLease.current_steps x <= ActuationLease.max_steps x /\
  last_grant l = (ActuationLease.max_steps x, ActuationLease.current_steps x).

Definition steps_left (lease : option Lease) : Z :=
  match lease with Some x => ActuationLease.max_steps x - ActuationLease.current_steps x | None => 0 end.

Record access_ok s : Prop := {
  ok_proofs : map_Forall (fun _ p => known (Access.log s) p) (Access.proofs s);
  ok_pending : Forall (pending_ok (Access.log s)) (Access.pending s);
  ok_lease : match Access.lease s with
             | Some x => lease_ok (Access.log s) x
             | None => last_grant (Access.log s) = (0, 0)
             end;
  ok_paid : acted (Access.log s) + steps_left (Access.lease s) + pending_steps (Access.pending s)
            + stored_steps (Access.proofs s) <= confirmed_steps (Access.log s);
  ok_each : each_confirmed (Access.log s);
}.

Lemma known_app l l' p : known l p -> known (l ++ l') p.
Proof. intros [Hc Hs]. split; [set_solver|done]. Qed.
Lemma pending_ok_app l l' p : pending_ok l p -> pending_ok (l ++ l') p.
Proof. intros [Hk Hd]. split; [by apply known_app|done]. Qed.

(** A lease that changed in nothing but its activity, its end and the step it used. *)
Lemma lease_ok_change l l' x x' :
  lease_ok l x ->
  ActuationLease.actor_id x' = ActuationLease.actor_id x ->
  ActuationLease.session_id x' = ActuationLease.session_id x ->
  ActuationLease.operation_classes x' = ActuationLease.operation_classes x ->
  ActuationLease.max_steps x' = ActuationLease.max_steps x ->
  ActuationLease.current_steps x' <= ActuationLease.max_steps x ->
  last_grant (l ++ l') = (ActuationLease.max_steps x, ActuationLease.current_steps x') ->
  (ActuationLease.expires_at_ms x' = ActuationLease.expires_at_ms x \/
   exists t, Access.Extended t ∈ l' /\
     ActuationLease.expires_at_ms x' <= saturating_add_u64 t MAX_LEASE_MS) ->
  lease_ok (l ++ l') x'.
Proof.
  intros [(p & t & Hk & Hd & Ht & He) _] Ha Hs Ho Hm Hc Hg Hx. split; [|by rewrite Hm].
  destruct Hx as [Hx|(t' & Hin & Hx)].
  - exists p, t. rewrite Ha, Hs, Ho, Hm, Hx. split_and!; [by apply known_app|by apply Hd..|set_solver|done].
  - exists p, t'. rewrite Ha, Hs, Ho, Hm. split_and!; [by apply known_app|by apply Hd..|set_solver|done].
Qed.

Lemma action_class_canonical (action : AuthorizedAction) : canonical_name (action_class action) = action_class action.
Proof. destruct action; by vm_compute. Qed.

(** What an evaluation answers, and what it does to the lease. *)
Definition authorizes (r : res GateError LeaseOutcome) : Prop :=
  exists status, r = Ok (ActuationLeaseOutcome.Authorized status).

Lemma evaluate_cases now now' actor_id session_id action lease r lease' :
  evaluate_autonomous_action now now' actor_id session_id action lease = (r, lease') ->
  (lease' = lease /\ ~ authorizes r) \/
  exists x, lease = Some x /\
    ((lease' = Some (ActuationLease.deactivate x) /\ ~ authorizes r) \/
     (lease' = Some (ActuationLease.use_step x) /\ authorizes r /\
      ActuationLease.is_active x = true /\
      now' <= ActuationLease.expires_at_ms x /\
      ActuationLease.current_steps x < ActuationLease.max_steps x /\
      ActuationLease.session_id x = trimmed_or_empty session_id /\
      ActuationLease.actor_id x = trimmed_or_empty actor_id /\
      action_class action ∈ ActuationLease.operation_classes x)).
Proof.
  assert (forall l l' : option Lease, (Ok ActuationLeaseOutcome.NotRequired, l) = (r, l') \/
            (exists status text, (Ok (ActuationLeaseOutcome.Blocked status text), l) = (r, l')) \/
            (exists e, (Err e, l) = (r, l')) -> l' = l /\ ~ authorizes r) as Hout.
  { intros l l' [Heq|[(status & text & Heq)|(e & Heq)]]; injection Heq as <- <-;
      (split; [done|by intros [? [=]]]). }
  unfold evaluate_autonomous_action.
  destruct (is_mutating_action action) eqn:Hm; cbn [negb]; [|intros Hr; left; apply Hout; by left].
  destruct session_id as [sid|]; cbn [required_actuation_session_id];
    [|intros Hr; left; apply Hout; right; right; by eexists].
  cbv zeta. destruct (not_empty (trim sid)); cbn [ensure mbind res_bind];
    [|intros Hr; left; apply Hout; right; right; by eexists].
  destruct actor_id as [aid|]; cbn [option_map]; [|intros Hr; left; apply Hout; right; right; by eexists].
  destruct (trim aid) as [|c a] eqn:Haid; [intros Hr; left; apply Hout; right; right; by eexists|].
  rewrite <- Haid. destruct lease as [x|]; [|intros Hr; left; apply Hout; right; left; by eexists _, _].
  destruct (str_eqb _ _) eqn:Hs; cbn [negb]; [|intros Hr; left; apply Hout; right; left; by eexists _, _].
  destruct (covers _ _ _ _) eqn:Hc; cbn [negb]; [|intros Hr; left; apply Hout; right; left; by eexists _, _].
  unfold validate_and_decrement_lease. rewrite Hm. cbn [negb]. intros Hr. right. exists x. split; [done|].
  apply str_eqb_eq in Hs. unfold covers in Hc. split_bools.
  destruct (_ || _) eqn:Hlive.
  - left. cbn in Hr. injection Hr as <- <-. split; [done|]. by intros [? [=]].
  - right. injection Hr as <- <-. apply orb_false_iff in Hlive as [Hlive Hsteps].
    apply orb_false_iff in Hlive as [Hact%negb_false_iff Hexp].
    split_and!; try done; try lia; [by eexists|by apply str_eqb_eq|].
    apply existsb_exists in H1 as (v & Hv%list_elem_of_In & Heq%str_eqb_eq). by subst.
Qed.

(** ** Each critical section keeps the invariant *)
Lemma sat_mono a b : b <= MAX_LEASE_MS -> saturating_add_u64 a b <= saturating_add_u64 a MAX_LEASE_MS.
Proof. unfold_ints. lia. Qed.

Lemma stored_steps_nonneg l proofs : map_Forall (fun _ p => known l p) proofs -> 0 <= stored_steps proofs.
Proof.
  induction proofs as [|k p proofs Hk IH] using map_ind; [done|]. intros Hp.
  rewrite stored_steps_insert by done. apply map_Forall_insert in Hp as [[_ Hs] Hp]; [|done].
  specialize (IH Hp). lia.
Qed.

Lemma stored_steps_put l proofs k p :
  map_Forall (fun _ p => known l p) proofs ->
  stored_steps (<[k := p]> proofs) <= NativeAuthorityProof.max_steps p + stored_steps proofs.
Proof.
  intros Hp. destruct (proofs !! k) as [q|] eqn:Hk.
  - rewrite <- insert_delete_eq, stored_steps_insert by apply lookup_delete_eq.
    rewrite (stored_steps_delete proofs k q) by done. destruct (Hp k q Hk) as [_ ?]. lia.
  - rewrite stored_steps_insert by done. lia.
Qed.

Lemma ok_deactivated s lease :
  access_ok s ->
  lease = Access.lease s \/
  (exists x, Access.lease s = Some x /\ lease = Some (ActuationLease.deactivate x)) ->
  access_ok (with_lease lease s).
Proof.
  intros [Hp Hpe Hl Hpaid He] [->|(x & Hx & ->)]; [by destruct s|].
  rewrite Hx in *. by constructor.
Qed.

Lemma consume_cases now proof_id expected proofs r proofs' :
  consume host now proof_id expected proofs = (r, proofs') ->
  proofs' = proofs \/ exists k p, proofs !! k = Some p /\ proofs' = delete k proofs.
Proof.
  unfold consume. destruct (canonical_expectation host expected); [|intros [= _ <-]; by left..].
  destruct (required_value _ _); [|intros [= _ <-]; by left..].
  destruct (proofs !! _) as [p|] eqn:Hp; intros [= _ <-]; [right; eauto|by left].
Qed.

(** Presenting a proof: it is used up, and what is under way draws from it. *)
Lemma ok_consumed s now proof_id actor_id session_id classes steps duration r proofs :
  access_ok s -> trim session_id = session_id ->
  consume_for_lease host now proof_id actor_id session_id classes steps duration (Access.proofs s) = (r, proofs) ->
  access_ok (Access.mk _ proofs (match r with Ok p => Access.pending s ++ [p] | _ => Access.pending s end)
               (Access.lease s) (Access.log s)).
Proof.
  intros [Hp Hpe Hl Hpaid He] Htrim. unfold consume_for_lease.
  destruct (consume host now proof_id _ (Access.proofs s)) as [c proofs1] eqn:Hc.
  intros [= <- <-].
  assert (map_Forall (fun _ p => known (Access.log s) p) proofs1 /\
          forall extra, (match c with Ok p => extra = NativeAuthorityProof.max_steps p | _ => extra = 0 end) ->
            extra + stored_steps proofs1 <= stored_steps (Access.proofs s)) as [Hp1 Hsum].
  { destruct c as [p|e|].
    - apply consume_accepts in Hc as (Hk & -> & _). split; [by apply map_Forall_delete|].
      intros extra ->. by rewrite (stored_steps_delete _ _ p Hk).
    - apply consume_cases in Hc as [->|(k & p & Hk & ->)]; (split; [by apply map_Forall_delete || done|]).
      + intros extra ->. lia.
      + intros extra ->. rewrite (stored_steps_delete _ _ p Hk). destruct (Hp k p Hk) as [_ ?]. lia.
    - apply consume_cases in Hc as [->|(k & p & Hk & ->)]; (split; [by apply map_Forall_delete || done|]).
      + intros extra ->. lia.
      + intros extra ->. rewrite (stored_steps_delete _ _ p Hk). destruct (Hp k p Hk) as [_ ?]. lia. }
  destruct c as [p|e|]; cbn [mbind res_bind]; constructor; simpl; try done.
  - apply Forall_app. split; [done|]. apply Forall_singleton.
    apply consume_accepts in Hc as (Hk & _ & _ & Ha & Hs & Ho & Hst). split; [by eapply Hp|]. split; [done|].
    split_and!; [done..|]. intros cl Hcl. apply Ho. by exists cl.
  - rewrite pending_steps_snoc. specialize (Hsum _ eq_refl). simpl. lia.
  - specialize (Hsum 0 eq_refl). lia.
  - specialize (Hsum 0 eq_refl). lia.
Qed.

Lemma ok_confirmed s proofs k p :
  access_ok s -> 1 <= NativeAuthorityProof.max_steps p <= 50 -> proofs = <[k := p]> (Access.proofs s) ->
  access_ok (Access.mk _ proofs (Access.pending s) (Access.lease s) (Access.log s ++ [Access.Confirmed p])).
Proof.
  intros [Hp Hpe Hl Hpaid He] Hs ->. constructor; simpl.
  - apply map_Forall_insert_2.
    + split; [|done]. apply elem_of_app. right. by left.
    + eapply map_Forall_impl; [exact Hp|]. intros ? ? ?. by apply known_app.
  - eapply list.Forall_impl; [exact Hpe|]. intros ? ?. by apply pending_ok_app.
  - destruct (Access.lease s) as [x|]; [|by rewrite last_grant_snoc].
    apply (lease_ok_change _ _ x); auto; [by destruct Hl as (_ & ? & _)|].
    rewrite last_grant_snoc. by destruct Hl as (_ & _ & ?).
  - rewrite acted_app, confirmed_steps_app. pose proof (stored_steps_put _ _ k p Hp). simpl. lia.
  - by apply each_confirmed_snoc.
Qed.

Lemma ok_granted s now n p status lease :
  access_ok s -> Access.pending s !! n = Some p ->
  complete_grant now p (Access.lease s) = Ok (status, lease) ->
  access_ok (Access.mk _ (Access.proofs s) (delete n (Access.pending s)) lease
               (Access.log s ++ [Access.Granted (PendingGrant.proof p) now])).
Proof.
  intros [Hp Hpe Hl Hpaid He] Hn. unfold complete_grant, grant. intros Hg.
  assert (pending_ok (Access.log s) p) as (Hk & Htrim & Ha & Hs & Hst & Ho).
  { rewrite list.Forall_lookup in Hpe. by eapply Hpe. }
  apply bind_Ok in Hg as (sid & Hsid & Hg). cbn in Hsid.
  apply bind_Ok in Hsid as ([] & _ & Hsid). rewrite Htrim in Hsid. simplify_eq.
  apply bind_Ok in Hg as ([] & _ & Hg). apply bind_Ok in Hg as ([] & Hd%guard_not_Ok & Hg).
  apply bind_Ok in Hg as ([] & _ & Hg). simplify_eq.
  assert (0 <= steps_left (Access.lease s)) as Hleft.
  { destruct (Access.lease s) as [l0|]; simpl; [|done]. destruct Hl as (_ & ? & _). lia. }
  constructor; simpl.
  - eapply map_Forall_impl; [exact Hp|]. intros ? ? ?. by apply known_app.
  - apply Forall_delete. eapply list.Forall_impl; [exact Hpe|]. intros ? ?. by apply pending_ok_app.
  - split.
    + exists (PendingGrant.proof p), now. simpl. split_and!; [by apply known_app|done| |apply sat_mono; lia].
      left. apply elem_of_app. right. by left.
    + simpl. rewrite last_grant_snoc, Hst. split; [destruct Hk as [_ ?]; lia|done].
  - rewrite acted_app, confirmed_steps_app, (pending_steps_delete _ n p) in * by done. simpl. lia.
  - by apply each_confirmed_snoc.
Qed.

Lemma ok_dropped s n :
  access_ok s ->
  access_ok (Access.mk _ (Access.proofs s) (delete n (Access.pending s)) (Access.lease s) (Access.log s)).
Proof.
  intros [Hp Hpe Hl Hpaid He]. constructor; simpl; try done; [by apply Forall_delete|].
  destruct (Access.pending s !! n) as [p|] eqn:Hn.
  - rewrite (pending_steps_delete _ n p) in Hpaid by done.
    assert (pending_ok (Access.log s) p) as [[_ ?] _]; [|lia].
    rewrite list.Forall_lookup in Hpe. by eapply Hpe.
  - apply lookup_ge_None in Hn.
    by rewrite delete_take_drop, take_ge, drop_ge, app_nil_r by lia.
Qed.

Lemma ok_evaluated s now now' actor_id session_id action :
  access_ok s -> access_ok (perform (Section_.Evaluate now now' actor_id session_id action) s).
Proof.
  intros Hok. cbn [perform].
  destruct (evaluate_autonomous_action now now' actor_id session_id action (Access.lease s)) as [r lease] eqn:He.
  apply evaluate_cases in He as [[-> Hr]|(x & Hx & [[-> Hr]|Hused])].
  - destruct r as [[|status|]| |]; try (by apply ok_deactivated; [done|left]). by destruct Hr; eexists.
  - destruct r as [[|status|]| |]; try (by apply ok_deactivated; [done|right; eauto]). by destruct Hr; eexists.
  - destruct Hused as (-> & (status & ->) & Hact & Hexp & Hst & Hsid & Haid & Hcl).
    destruct Hok as [Hp Hpe Hl Hpaid Hec]. rewrite Hx in *. constructor; simpl.
    + eapply map_Forall_impl; [exact Hp|]. intros ? ? ?. by apply known_app.
    + eapply list.Forall_impl; [exact Hpe|]. intros ? ?. by apply pending_ok_app.
    + apply (lease_ok_change _ _ x); simpl; auto; [lia|]. rewrite last_grant_snoc.
      destruct Hl as (_ & _ & ->). done.
    + rewrite acted_app, confirmed_steps_app. simpl in *. lia.
    + apply each_confirmed_snoc; [done|]. destruct Hl as [(p & t & Hk & Hd & Ht & Hte) _].
      destruct Hd as (Ha & Hs & _ & Ho). exists p, t. split_and!; [by apply Hk|congruence..| |done|lia].
      rewrite <- action_class_canonical. by apply Ho.
Qed.

Lemma ok_continued s now actor_id session_id status lease :
  access_ok s ->
  refresh_for_continuation now actor_id session_id APPROVED_AGENT_PLAN_LEASE_DURATION_MS (Access.lease s) =
    Ok (status, lease) ->
  access_ok (note (Access.Extended now) (with_lease lease s)).
Proof.
  intros [Hp Hpe Hl Hpaid He]. unfold refresh_for_continuation. intros Hr.
  apply bind_Ok in Hr as ([] & _ & Hr). apply bind_Ok in Hr as (sid & _ & Hr). cbv zeta in Hr.
  apply bind_Ok in Hr as (x & Hx%ok_or_Ok & Hr). apply bind_Ok in Hr as ([] & _ & Hr). simplify_eq.
  rewrite Hx in *. constructor; simpl.
  - eapply map_Forall_impl; [exact Hp|]. intros ? ? ?. by apply known_app.
  - eapply list.Forall_impl; [exact Hpe|]. intros ? ?. by apply pending_ok_app.
  - apply (lease_ok_change _ _ x); simpl; auto; [by destruct Hl as (_ & ? & _)| |].
    + rewrite last_grant_snoc. by destruct Hl as (_ & _ & ?).
    + right. exists now. split; [by left|]. done.
  - rewrite acted_app, confirmed_steps_app. simpl in *. lia.
  - by apply each_confirmed_snoc.
Qed.

Lemma perform_ok s o : access_ok s -> access_ok (perform o s).
Proof.
  intros Hok. destruct o as [outcome now bytes actor_id request|now actor request
    |now actor session_id proof_id classes steps|now n|n|now now' actor_id session_id action|now
    |now session_id reason|now session_id reason|approved effectful now actor_id session_id].
  - cbn [perform]. destruct (request_after_native_presence _ _ _ _ _ _ _) as [[response proofs]|e|] eqn:Hr; [|done..].
    destruct (proofs !! _) as [p|] eqn:Hp; [|done].
    apply confirmations_are_stored in Hr as (q & -> & Hid & Hs). rewrite Hid, lookup_insert_eq in Hp.
    simplify_eq. by eapply ok_confirmed.
  - cbn [perform]. unfold begin_grant. destruct actor as [actor|e|]; cbn [map_err]; [|by destruct s..].
    cbn [required_actuation_session_id]. cbv zeta.
    destruct (not_empty _); cbn [ensure mbind res_bind]; [|by destruct s].
    destruct (consume_for_lease _ _ _ _ _ _ _ _ _) as [r proofs] eqn:Hc.
    apply ok_consumed in Hc; [|done|by apply trim_idem]. by destruct r.
  - cbn [perform]. unfold begin_plan_grant. destruct (steps =? 0); [by destruct s|].
    destruct proof_id as [proof_id|]; [|by destruct s].
    destruct actor as [actor|e|]; cbn [map_err]; [|by destruct s..].
    destruct (consume_for_lease _ _ _ _ _ _ _ _ _) as [r proofs] eqn:Hc.
    apply ok_consumed in Hc; [|done|by apply trim_idem]. by destruct r.
  - cbn [perform]. destruct (Access.pending s !! n) as [p|] eqn:Hn; [|done].
    destruct (complete_grant now p (Access.lease s)) as [[status lease]|e|] eqn:Hg;
      [by eapply ok_granted|by apply ok_dropped..].
  - by apply ok_dropped.
  - by apply ok_evaluated.
  - apply ok_deactivated; [done|]. unfold snapshot. destruct (Access.lease s) as [x|]; [|by left].
    destruct (_ && _); [right; eauto|by left].
  - apply ok_deactivated; [done|]. unfold terminate_for_review. destruct (Access.lease s) as [x|]; [|by left].
    cbn [snd option_map]. destruct (_ && _); [right; eauto|by left].
  - apply ok_deactivated; [done|]. unfold finish_session. destruct (Access.lease s) as [x|]; [|by left].
    destruct (_ || _); [by left|right; eauto].
  - cbn [perform]. unfold refresh_before_effectful_step.
    destruct approved, effectful; cbn [negb orb andb]; try done.
    destruct (refresh_for_continuation _ _ _ _ _) as [[status lease]|e|] eqn:Hr; [|done..].
    by eapply ok_continued.
Qed.

Lemma runs_ok s : runs_to s -> access_ok s.
Proof.
  intros [os ->]. assert (access_ok nothing_yet) as H.
  { constructor; simpl; try done. intros before e after Heq. by destruct before. }
  revert H. generalize nothing_yet. induction os as [|o os IH]; intros s Hs; [done|].
  apply IH. by apply perform_ok.
Qed.
End Machine.

(** C6: what the assistant does on its own is paid for by the person's confirmations.
    Whatever requests, grants, plans, continuations and actions follow each other, in
    whatever order and wherever a command stops half way, the actions authorised so far
    are no more than the steps of all confirmations together, and since the last grant
    no more than that grant allowed. Each of them was confirmed before by the person it
    is done for, for its session and its class of operation, and comes within fifteen
    minutes of a grant or of a continuation of the plan. *)
Theorem autonomous_actions_are_paid_for `{J : JsonLib} `{D : Digest} host s :
  runs_to host s ->
  acted (Access.log s) <= confirmed_steps (Access.log s) /\
  (last_grant (Access.log s)).2 <= (last_grant (Access.log s)).1 <= 50 /\
  each_confirmed (Access.log s).
Proof.
  intros Hr. destruct (runs_ok host s Hr) as [Hp Hpe Hl Hpaid He].
  assert (0 <= steps_left (Access.lease s)) as Hleft.
  { destruct (Access.lease s) as [x|]; [|done]. destruct Hl as (_ & ? & _). simpl. lia. }
  assert (0 <= pending_steps (Access.pending s)) as Hpending.
  { clear Hpaid. induction Hpe as [|p l [[_ Hk] _] _ IH]; [done|]. unfold pending_steps in *. simpl. lia. }
  pose proof (stored_steps_nonneg _ _ Hp). split_and!; [lia| | |done];
    (destruct (Access.lease s) as [x|]; [|rewrite Hl; simpl; lia]);
    destruct Hl as ((p & t & [_ Hk] & (_ & _ & Hm & _) & _) & Hc & ->); simpl; lia.
Qed.

(** A person confirms two steps in a chat; the third action is refused. *)
Module TwoSteps.
#[export] Instance digest : Digest := fun bytes => take 4 bytes.
#[export] Existing Instance IntegerJson.lib.
Definition classes : list str := [lit "filesystem_write"].
Definition asked : ProofRequest :=
  RequestNativeAuthorityProof.mk (lit "chat-1") classes [lit "actuation-session:chat-1"] 2
    (lit "session_gated") None.
Definition proof_id : str := proof_id_of (lit "ada") (lit "chat-1") (P0Contracts.hex_encode [7; 8]) 1000.
Definition write : AuthorizedAction :=
  AuthorizedActions.FileWrite (FileWriteRequest.mk (lit "workspace/notes.md") (lit "hello")).
Definition act (now : Z) : Section_.t :=
  Section_.Evaluate now now (Some (lit "ada")) (Some (lit "chat-1")) write.
Definition run : list Section_.t :=
  [Section_.Confirm (answered (lit "For this session")) 1000 [7; 8] (lit "ada") asked;
   Section_.BeginGrant 2000 (Ok (lit "ada"))
     (GrantActuationLeaseRequest.mk (lit "chat-1") 60000 2 proof_id classes);
   Section_.CompleteGrant 2001 0; act 3000; act 4000; act 5000].
Definition after : access := foldl (fun s o => perform Desk.host o s) nothing_yet run.
Lemma runs : runs_to Desk.host after.
Proof. unfold runs_to. exists run. reflexivity. Qed.
End TwoSteps.

Lemma autonomous_actions_are_paid_for_witness :
  acted (Access.log TwoSteps.after) = 2 /\
  confirmed_steps (Access.log TwoSteps.after) = 2 /\
  acted (Access.log TwoSteps.after) <= confirmed_steps (Access.log TwoSteps.after).
Proof.
  split_and!; [by vm_compute..|].
  exact (proj1 (autonomous_actions_are_paid_for Desk.host TwoSteps.after TwoSteps.runs)).
Defined.

(** ** A revocation does not last *)
Section Revocation.
Context `{J : JsonLib}.

(** C32: revoking the access of a session stops the next action only until the plan that
    is running comes to it. The lease is marked inactive, and nothing it covers is
    authorised; but before each step that changes something the plan continues the
    lease, which makes it active again for fifteen minutes, and the step is authorised
    from the budget that was left. *)
Theorem revocation_is_undone_by_the_next_step lease actor_id session_id (action : AuthorizedAction)
    reason revoked_at continued_at now now' :
  is_mutating_action action = true ->
  trim actor_id = actor_id -> actor_id <> [] -> trim session_id = session_id -> session_id <> [] ->
  ActuationLease.session_id lease = session_id ->
  covers lease actor_id session_id action = true ->
  ActuationLease.current_steps lease < ActuationLease.max_steps lease ->
  now' <= saturating_add_u64 continued_at APPROVED_AGENT_PLAN_LEASE_DURATION_MS ->
  let revoked := (revoke_actuation_lease revoked_at session_id reason (Some lease)).2 in
  (forall t t', ~ authorizes (evaluate_autonomous_action t t' (Some actor_id) (Some session_id) action revoked).1) /\
  exists continued,
    refresh_before_effectful_step true (is_mutating_action action) continued_at actor_id (Some session_id)
      revoked = Ok continued /\
    authorizes (evaluate_autonomous_action now now' (Some actor_id) (Some session_id) action continued).1.
Proof.
  intros Hm Ha Hane Hs Hsne Hls Hc Hsteps Hnow. cbv zeta.
  assert ((revoke_actuation_lease revoked_at session_id reason (Some lease)).2 =
          Some (ActuationLease.deactivate lease)) as ->.
  { unfold revoke_actuation_lease, terminate_for_review. cbn [snd option_map].
    unfold trimmed_or_empty. cbn. rewrite Hs, Hls, str_eqb_refl. by destruct session_id. }
  split.
  - intros t t'. destruct (evaluate_autonomous_action _ _ _ _ _ _) as [r lease'] eqn:He. cbn [fst].
    apply evaluate_cases in He as [[_ Hr]|(x & Hx & [[_ Hr]|(_ & _ & Hact & _)])]; [done..|].
    injection Hx as <-. done.
  - set (continued := ActuationLease.continue_until
      (saturating_add_u64 continued_at APPROVED_AGENT_PLAN_LEASE_DURATION_MS) lease).
    exists (Some continued). split.
    + unfold refresh_before_effectful_step, refresh_for_continuation. rewrite Hm. cbn [negb orb].
      unfold covers in Hc. apply andb_true_iff in Hc as [[Hac _]%andb_true_iff Hsc].
      assert (required_actuation_session_id (Some session_id) = Ok session_id) as Hreq.
      { unfold required_actuation_session_id. rewrite Hs. by destruct session_id. }
      change (default [] (Some session_id)) with session_id. rewrite Hreq, Ha.
      cbn [mbind res_bind ok_or guard_not orb]. cbv zeta.
      change (guard_not (_ || (MAX_LEASE_MS <? APPROVED_AGENT_PLAN_LEASE_DURATION_MS)) _) with (@Ok GateError unit tt).
      cbn [mbind res_bind ok_or].
      cbn [ActuationLease.deactivate ActuationLease.actor_id ActuationLease.session_id
        ActuationLease.canonical_scopes ActuationLease.max_steps ActuationLease.current_steps].
      rewrite Hls, str_eqb_refl, Hsc, Hac.
      assert (is_empty actor_id = false) as -> by (by destruct actor_id).
      assert ((ActuationLease.max_steps lease <=? ActuationLease.current_steps lease) = false) as -> by lia.
      done.
    + unfold evaluate_autonomous_action, required_actuation_session_id. rewrite Hm, Hs. cbn [negb].
      assert (not_empty session_id = true) as -> by (by destruct session_id).
      cbn [ensure mbind res_bind option_map]. cbv zeta. rewrite Ha. destruct actor_id as [|c a]; [done|].
      change (ActuationLease.session_id continued) with (ActuationLease.session_id lease).
      rewrite Hls, str_eqb_refl. cbn [negb].
      change (covers continued (c :: a) session_id action) with (covers lease (c :: a) session_id action).
      rewrite Hc. cbn [negb]. unfold validate_and_decrement_lease. rewrite Hm. cbn [negb].
      unfold continued. cbn [ActuationLease.is_active ActuationLease.expires_at_ms ActuationLease.max_steps
        ActuationLease.current_steps ActuationLease.continue_until negb].
      assert ((saturating_add_u64 continued_at APPROVED_AGENT_PLAN_LEASE_DURATION_MS <? now') = false) as -> by lia.
      assert ((ActuationLease.max_steps lease <=? ActuationLease.current_steps lease) = false) as -> by lia.
      cbn [orb]. by eexists.
Qed.
End Revocation.

Lemma revocation_is_undone_by_the_next_step_witness :
  let lease := ActuationLease.mk (lit "ada") (lit "chat-1") TwoSteps.classes
    [session_scope (lit "chat-1")] 61000 5 1 true in
  let revoked := (revoke_actuation_lease 3000 (lit "chat-1") None (Some lease)).2 in
  option_map ActuationLease.is_active revoked = Some false /\
  exists continued,
    refresh_before_effectful_step true true 4000 (lit "ada") (Some (lit "chat-1")) revoked = Ok continued /\
    authorizes (evaluate_autonomous_action 4001 4001 (Some (lit "ada")) (Some (lit "chat-1")) TwoSteps.write
                  continued).1.
Proof.
  intros lease revoked. split; [by vm_compute|].
  refine (proj2 (revocation_is_undone_by_the_next_step lease (lit "ada") (lit "chat-1") TwoSteps.write None
                   3000 4000 4001 4001 _ _ _ _ _ _ _ _ _)); by vm_compute.
Defined.
