(* ===== verification/ShieldDecision.v ===== *)
(** * Decisions at the shield gate ([authority/shield_decision.rs], the requests of [shield_gate.rs])

    An action that needs the person is put into a [ShieldApprovalRequest]; it is
    frozen, the person decides, and the decision is kept for two minutes until it
    is consumed once against the frozen request.  Serialising a request cannot
    fail, so the errors for that are left out.  The second half is the dialog: its
    texts in every language and what each button means. *)
From S2P Require Import Prelude.
From S2P Require Import RustStr.
From S2P Require Import P0Contracts.
From S2P Require Import JsonValue.
From S2P Require Import TaskStore.
From S2P Require Import EffectJournal.
From S2P Require Import Authority.
From S2P Require Import ActuationLease.
Local Open Scope Z_scope.

Module ShieldApprovalRequest.
Record t : Type := mk {
  approval_token : str;
  session_id : option str;
  turn_id : option str;
  generation_token : option str;
  action_type : str;
  action_label : str;
  target_path : option str;
  principal : option str;
  risk_tier : str;
  reason : str;
  estimated_token_costs : option Z;
  requested_at_ms : Z;
  preview : str;
  semantic_summary : str;
  semantic_detail : str;
  approval_tier : str;
  approval_mode : str;
  diff_preview : option str;
  scope_trust_available : bool;
  scope_trust_prefix : option str;
  scope_trust_duration_ms : Z;
  project_id : option str;
  task_run_id : option str;
  action_class : str;
  argument_class : str;
  canonical_resource : option str;
  mandatory_reconfirm : bool;
  approval_scope_kinds : list str;
}.
End ShieldApprovalRequest.
Notation ApprovalRequest := ShieldApprovalRequest.t.

Module ShieldApprovalDecision.
Inductive t : Type := Approve | Deny.
End ShieldApprovalDecision.
#[export] Instance ShieldApprovalDecision_eq_dec : EqDecision ShieldApprovalDecision.t.
Proof. solve_decision. Defined.

Module FrozenShieldRequest.
Record t : Type := mk {
  approval_token : str;
  request_sha256 : str;
  origin_kind : str;
  session_id : option str;
  turn_id : option str;
  generation_token : option str;
  task_run_id : option str;
  action_class : str;
  normalized_action_kind : str;
  argument_class : str;
  argument_sha256 : str;
  canonical_resource : str;
  permitted_scope_kinds : list str;
}.
End FrozenShieldRequest.
Notation Frozen := FrozenShieldRequest.t.

Module NativeShieldDecision.
Record t : Type := mk {
  decision_id : str;
  approval_token : str;
  request_sha256 : str;
  actor_id : str;
  origin_kind : str;
  session_id : option str;
  turn_id : option str;
  generation_token : option str;
  task_run_id : option str;
  action_class : str;
  normalized_action_kind : str;
  argument_class : str;
  argument_sha256 : str;
  canonical_resource : str;
  scope_kind : str;
  decision : ShieldApprovalDecision.t;
  issued_at_ms : Z;
  expires_at_ms : Z;
  nonce : str;
}.
End NativeShieldDecision.
Notation Decided := NativeShieldDecision.t.

Module NativeShieldPromptSelection.
Record t : Type := mk { decision : ShieldApprovalDecision.t; scope_kind : str }.
End NativeShieldPromptSelection.
Notation Selection := NativeShieldPromptSelection.t.

Definition SHIELD_DECISION_SCHEMA_VERSION : Z := 1.
Definition SHIELD_DECISION_TTL_MS : Z := 2 * 60 * 1000.

Definition required (field : string) (value : str) : res AuthorityError str :=
  let value := trim value in
  if is_empty value
  then Err (authority_error "shield_decision_field_missing"
              (lit "Shield decision field " ++ lit field ++ lit " is required."))
  else Ok value.

(** ** Freezing a request *)
Definition validate_direct_chat_context (request : ApprovalRequest) : res AuthorityError unit :=
  let present (value : option str) := match value with Some _ => true | None => false end in
  let blank (value : option str) :=
    match value with Some value => is_empty (trim value) | None => true end in
  if negb (present (ShieldApprovalRequest.session_id request)
           || present (ShieldApprovalRequest.turn_id request)
           || present (ShieldApprovalRequest.generation_token request))
  then Ok tt
  else for_each (fun '(field, value) =>
         guard_not (blank value)
           (authority_error "shield_request_origin_incomplete"
              (lit "Direct chat actions require immutable " ++ lit field ++ lit ".")))
         [("session_id"%string, ShieldApprovalRequest.session_id request);
          ("turn_id"%string, ShieldApprovalRequest.turn_id request);
          ("generation_token"%string, ShieldApprovalRequest.generation_token request)].

Definition known_scope_kinds : list string :=
  ["once"; "app_session"; "task"; "project_path"; "persistent"]%string.
Definition normalized_scope_kinds (kinds : list str) : list str :=
  dedup (sort (List.filter not_empty (map (fun kind => to_ascii_lowercase (trim kind)) kinds))).

Definition origin_kind_of (request : ApprovalRequest) : str :=
  match ShieldApprovalRequest.turn_id request, ShieldApprovalRequest.generation_token request with
  | None, None =>
      match ShieldApprovalRequest.task_run_id request with
      | Some _ => lit "task"
      | None => lit "system"
      end
  | _, _ => lit "chat"
  end.

Definition first_some {A} (a b : option A) : option A := match a with Some _ => a | None => b end.

Section Freezing.
Context `{S : StoreLib} {D : Digest}.
Definition text_or_null (value : option str) : Value := json_opt (option_map Value.String value).
Definition sha256_text (text : str) : str := sha256_hex (as_bytes text).

(** What the person is asked about: [(&action_type, &preview, &target_path, ..)]. *)
Definition argument_sha256_of (request : ApprovalRequest) : str :=
  sha256_text (to_string (Value.Array
    [Value.String (ShieldApprovalRequest.action_type request);
     Value.String (ShieldApprovalRequest.preview request);
     text_or_null (ShieldApprovalRequest.target_path request);
     text_or_null (ShieldApprovalRequest.principal request);
     Value.String (ShieldApprovalRequest.argument_class request)])).

(** [serde_json::to_vec(&canonical)] of the struct [CanonicalShieldRequest]. *)
Definition request_sha256_of (request : ApprovalRequest)
    (approval_token origin_kind normalized_action_kind action_class argument_class argument_sha256
     canonical_resource : str) (permitted_scope_kinds : list str) : str :=
  sha256_text (struct_to_string
    [(lit "schema_version", json_u64 SHIELD_DECISION_SCHEMA_VERSION);
     (lit "approval_token_sha256", Value.String (sha256_text approval_token));
     (lit "origin_kind", Value.String origin_kind);
     (lit "session_id", text_or_null (ShieldApprovalRequest.session_id request));
     (lit "turn_id", text_or_null (ShieldApprovalRequest.turn_id request));
     (lit "generation_token", text_or_null (ShieldApprovalRequest.generation_token request));
     (lit "task_run_id", text_or_null (ShieldApprovalRequest.task_run_id request));
     (lit "project_id", text_or_null (ShieldApprovalRequest.project_id request));
     (lit "principal", text_or_null (ShieldApprovalRequest.principal request));
     (lit "normalized_action_kind", Value.String normalized_action_kind);
     (lit "action_class", Value.String action_class);
     (lit "argument_class", Value.String argument_class);
     (lit "argument_sha256", Value.String argument_sha256);
     (lit "canonical_resource", Value.String canonical_resource);
     (lit "target_path", text_or_null (ShieldApprovalRequest.target_path request));
     (lit "mandatory_reconfirm", Value.Bool (ShieldApprovalRequest.mandatory_reconfirm request));
     (lit "permitted_scope_kinds", Value.Array (map Value.String permitted_scope_kinds))]).

Definition freeze_request (request : ApprovalRequest) : res AuthorityError Frozen :=
  approval_token ← required "approval_token" (ShieldApprovalRequest.approval_token request);
  normalized_action_kind ← required "action_type"
    (dashes_to_underscores (to_ascii_lowercase (trim (ShieldApprovalRequest.action_type request))));
  action_class ← required "action_class" (ShieldApprovalRequest.action_class request);
  argument_class ← required "argument_class" (ShieldApprovalRequest.argument_class request);
  _ ← validate_direct_chat_context request;
  let permitted_scope_kinds :=
    normalized_scope_kinds (ShieldApprovalRequest.approval_scope_kinds request) in
  _ ← guard_not
    (negb (existsb (fun kind => equals kind "once") permitted_scope_kinds)
     || existsb (fun kind => negb (in_list kind known_scope_kinds)) permitted_scope_kinds
     || (ShieldApprovalRequest.mandatory_reconfirm request
         && negb (bool_decide (permitted_scope_kinds = [lit "once"]))))
    (mismatch "shield_request_scope_invalid" "This action has an invalid permission duration.");
  let origin_kind := origin_kind_of request in
  let canonical_resource := trim (default normalized_action_kind
    (first_some (ShieldApprovalRequest.canonical_resource request)
       (ShieldApprovalRequest.target_path request))) in
  _ ← guard_not (is_empty canonical_resource)
    (mismatch "shield_request_resource_invalid"
       "OOMU could not identify the exact destination for this action.");
  let argument_sha256 := argument_sha256_of request in
  let request_sha256 := request_sha256_of request approval_token origin_kind normalized_action_kind
    action_class argument_class argument_sha256 canonical_resource permitted_scope_kinds in
  Ok (FrozenShieldRequest.mk approval_token request_sha256 origin_kind
        (ShieldApprovalRequest.session_id request) (ShieldApprovalRequest.turn_id request)
        (ShieldApprovalRequest.generation_token request) (ShieldApprovalRequest.task_run_id request)
        action_class normalized_action_kind argument_class argument_sha256 canonical_resource
        permitted_scope_kinds).

(** ** The store of decisions *)
Notation Decisions := (gmap str Decided).

(** [bytes]: the 24 random bytes of the nonce. *)
Definition decision_id_of (frozen : Frozen) (actor_id nonce : str) (issued_at_ms : Z) : str :=
  lit "shielddecision_" ++ sha256_text
    (FrozenShieldRequest.request_sha256 frozen ++ lit ":" ++ actor_id ++ lit ":" ++ nonce ++ lit ":"
     ++ show_int issued_at_ms).

Definition permits (frozen : Frozen) (scope_kind : str) : bool :=
  existsb (fun kind => str_eqb kind scope_kind) (FrozenShieldRequest.permitted_scope_kinds frozen).

Definition issue_after_native_presence (now : Z) (bytes : list Z) (frozen : Frozen) (actor_id : str)
    (selection : Selection) (decisions : Decisions) : res AuthorityError (str * Decisions) :=
  actor_id ← required "actor_id" actor_id;
  _ ← ensure (permits frozen (NativeShieldPromptSelection.scope_kind selection))
    (mismatch "shield_decision_scope_invalid"
       "That permission duration is not available for this action.");
  _ ← guard_not
    (bool_decide (NativeShieldPromptSelection.decision selection = ShieldApprovalDecision.Deny)
     && negb (equals (NativeShieldPromptSelection.scope_kind selection) "once"))
    (mismatch "shield_decision_denial_scope_invalid"
       "A denied action cannot create a permission scope.");
  let expires_at_ms := saturating_add_u64 now SHIELD_DECISION_TTL_MS in
  let nonce := hex_encode bytes in
  let decision_id := decision_id_of frozen actor_id nonce now in
  Ok (decision_id,
      <[decision_id := NativeShieldDecision.mk decision_id
          (FrozenShieldRequest.approval_token frozen) (FrozenShieldRequest.request_sha256 frozen)
          actor_id (FrozenShieldRequest.origin_kind frozen) (FrozenShieldRequest.session_id frozen)
          (FrozenShieldRequest.turn_id frozen) (FrozenShieldRequest.generation_token frozen)
          (FrozenShieldRequest.task_run_id frozen) (FrozenShieldRequest.action_class frozen)
          (FrozenShieldRequest.normalized_action_kind frozen)
          (FrozenShieldRequest.argument_class frozen) (FrozenShieldRequest.argument_sha256 frozen)
          (FrozenShieldRequest.canonical_resource frozen)
          (NativeShieldPromptSelection.scope_kind selection)
          (NativeShieldPromptSelection.decision selection) now expires_at_ms nonce]> decisions).

(** Every field a decision took from the frozen request still agrees with it. *)
Definition bound_to (frozen : Frozen) (actor_id : str) (decision : Decided) : bool :=
  bool_decide (NativeShieldDecision.actor_id decision = actor_id)
  && bool_decide (NativeShieldDecision.approval_token decision = FrozenShieldRequest.approval_token frozen)
  && bool_decide (NativeShieldDecision.request_sha256 decision = FrozenShieldRequest.request_sha256 frozen)
  && bool_decide (NativeShieldDecision.origin_kind decision = FrozenShieldRequest.origin_kind frozen)
  && bool_decide (NativeShieldDecision.session_id decision = FrozenShieldRequest.session_id frozen)
  && bool_decide (NativeShieldDecision.turn_id decision = FrozenShieldRequest.turn_id frozen)
  && bool_decide (NativeShieldDecision.generation_token decision
                  = FrozenShieldRequest.generation_token frozen)
  && bool_decide (NativeShieldDecision.task_run_id decision = FrozenShieldRequest.task_run_id frozen)
  && bool_decide (NativeShieldDecision.action_class decision = FrozenShieldRequest.action_class frozen)
  && bool_decide (NativeShieldDecision.normalized_action_kind decision
                  = FrozenShieldRequest.normalized_action_kind frozen)
  && bool_decide (NativeShieldDecision.argument_class decision = FrozenShieldRequest.argument_class frozen)
  && bool_decide (NativeShieldDecision.argument_sha256 decision
                  = FrozenShieldRequest.argument_sha256 frozen)
  && bool_decide (NativeShieldDecision.canonical_resource decision
                  = FrozenShieldRequest.canonical_resource frozen)
  && permits frozen (NativeShieldDecision.scope_kind decision).

Definition check_decision (now : Z) (frozen : Frozen) (actor_id : str) (decision : Decided)
  : res AuthorityError Decided :=
  _ ← guard_not
    ((NativeShieldDecision.expires_at_ms decision <? now)
     || (SHIELD_DECISION_TTL_MS <?
         saturating_sub_u64 (NativeShieldDecision.expires_at_ms decision)
           (NativeShieldDecision.issued_at_ms decision)))
    (mismatch "shield_decision_expired" "This decision has expired.");
  _ ← ensure (bound_to frozen actor_id decision)
    (mismatch "shield_decision_binding_mismatch" "This decision does not match the frozen action.");
  Ok decision.

Definition consume (now : Z) (decision_id : str) (frozen : Frozen) (actor_id : str)
    (decisions : Decisions) : res AuthorityError Decided * Decisions :=
  match required "decision_id" decision_id ≫= fun decision_id =>
        required "actor_id" actor_id ≫= fun actor_id => Ok (decision_id, actor_id) with
  | Ok (decision_id, actor_id) =>
      match decisions !! decision_id with
      | None =>
          (Err (mismatch "shield_decision_missing" "This decision is no longer available."), decisions)
      | Some decision => (check_decision now frozen actor_id decision, delete decision_id decisions)
      end
  | Err e => (Err e, decisions)
  | Panic => (Panic, decisions)
  end.
End Freezing.

(** ** The dialog of the shield gate ([authority/shield_decision.rs])

    What the person is shown, in their language, and what becomes of the button
    they press.  The buttons are the permitted durations in the order of the
    request, then the one that denies.  The dialog itself (AppKit) is outside:
    the code of its response is an argument.  Debug builds can press a button by
    themselves; this is the code of a release build. *)
(** Unicode's letter case, which the standard library looks up in its tables. *)
Class UnicodeCase : Type := { is_lowercase : Z -> bool; is_uppercase : Z -> bool }.
(** [char::is_control]: the general category Cc. *)
Definition is_control (c : Z) : bool := in_range 0 31 c || in_range 127 159 c.

Module ApprovalPreviewLabels.
Record t : Type := mk {
  calendar : str; when : str; title : str; duration : str; inputs : str; creates : str; web_research : str;
  existing_files : str; next_weekday : str; minutes : str; approved_files : str; decision_pack_files : str; official_sources : str; kept : str;
}.
End ApprovalPreviewLabels.
Definition approval_preview_labels (locale : str) : ApprovalPreviewLabels.t :=
  if begins "de" locale then
    ApprovalPreviewLabels.mk (utf8 "Kalender") (utf8 "Wann") (utf8 "Titel") (utf8 "Dauer")
        (utf8 "Eingaben") (utf8 "Erstellt") (utf8 "Web-Recherche") (utf8 "Vorhandene Dateien")
        (utf8 "nächster Werktag") (utf8 "Minuten") (utf8 "freigegebene Dateien")
        (utf8 "neue Entscheidungspaket-Dateien") (utf8 "offizielle öffentliche Quellen")
        (utf8 "bleiben erhalten")
  else if begins "es" locale then
    ApprovalPreviewLabels.mk (utf8 "Calendario") (utf8 "Cuándo") (utf8 "Título")
        (utf8 "Duración") (utf8 "Entradas") (utf8 "Crea") (utf8 "Investigación web")
        (utf8 "Archivos existentes") (utf8 "próximo día laborable") (utf8 "minutos")
        (utf8 "archivos aprobados") (utf8 "archivos nuevos del paquete de decisión")
        (utf8 "fuentes públicas oficiales") (utf8 "se conservan")
  else if begins "fr" locale then
    ApprovalPreviewLabels.mk (utf8 "Calendrier") (utf8 "Quand") (utf8 "Titre") (utf8 "Durée")
        (utf8 "Entrées") (utf8 "Crée") (utf8 "Recherche web") (utf8 "Fichiers existants")
        (utf8 "prochain jour ouvré") (utf8 "minutes") (utf8 "fichiers approuvés")
        (utf8 "nouveaux fichiers du dossier de décision")
        (utf8 "sources publiques officielles") (utf8 "conservés")
  else if begins "id" locale then
    ApprovalPreviewLabels.mk (utf8 "Kalender") (utf8 "Waktu") (utf8 "Judul") (utf8 "Durasi")
        (utf8 "Masukan") (utf8 "Membuat") (utf8 "Riset web") (utf8 "File yang ada")
        (utf8 "hari kerja berikutnya") (utf8 "menit") (utf8 "file yang disetujui")
        (utf8 "file paket keputusan baru") (utf8 "sumber publik resmi")
        (utf8 "tetap disimpan")
  else if begins "ja" locale then
    ApprovalPreviewLabels.mk (utf8 "カレンダー") (utf8 "日時") (utf8 "タイトル") (utf8 "所要時間") (utf8 "入力")
        (utf8 "作成") (utf8 "ウェブ調査") (utf8 "既存ファイル") (utf8 "次の平日") (utf8 "分") (utf8 "承認済みファイル")
        (utf8 "新しい意思決定パックファイル") (utf8 "公式の公開情報") (utf8 "保持されます")
  else if begins "pt" locale then
    ApprovalPreviewLabels.mk (utf8 "Calendário") (utf8 "Quando") (utf8 "Título")
        (utf8 "Duração") (utf8 "Entradas") (utf8 "Cria") (utf8 "Pesquisa na web")
        (utf8 "Arquivos existentes") (utf8 "próximo dia útil") (utf8 "minutos")
        (utf8 "arquivos aprovados") (utf8 "novos arquivos do pacote de decisão")
        (utf8 "fontes públicas oficiais") (utf8 "preservados")
  else if begins "ru" locale then
    ApprovalPreviewLabels.mk (utf8 "Календарь") (utf8 "Когда") (utf8 "Название")
        (utf8 "Длительность") (utf8 "Исходные файлы") (utf8 "Создаёт")
        (utf8 "Поиск в интернете") (utf8 "Существующие файлы") (utf8 "следующий рабочий день")
        (utf8 "минут") (utf8 "одобренных файлов") (utf8 "новых файлов пакета решений")
        (utf8 "официальные открытые источники") (utf8 "сохраняются")
  else if begins "uk" locale then
    ApprovalPreviewLabels.mk (utf8 "Календар") (utf8 "Коли") (utf8 "Назва") (utf8 "Тривалість")
        (utf8 "Вхідні файли") (utf8 "Створює") (utf8 "Пошук в інтернеті")
        (utf8 "Наявні файли") (utf8 "наступний робочий день") (utf8 "хвилин")
        (utf8 "схвалених файлів") (utf8 "нових файлів пакета рішень")
        (utf8 "офіційні відкриті джерела") (utf8 "зберігаються")
  else if begins "vi" locale then
    ApprovalPreviewLabels.mk (utf8 "Lịch") (utf8 "Thời gian") (utf8 "Tiêu đề")
        (utf8 "Thời lượng") (utf8 "Tệp đầu vào") (utf8 "Tạo") (utf8 "Nghiên cứu web")
        (utf8 "Tệp hiện có") (utf8 "ngày làm việc tiếp theo") (utf8 "phút")
        (utf8 "tệp đã phê duyệt") (utf8 "tệp gói quyết định mới")
        (utf8 "nguồn công khai chính thức") (utf8 "được giữ nguyên")
  else if begins "zh-TW" locale then
    ApprovalPreviewLabels.mk (utf8 "行事曆") (utf8 "時間") (utf8 "標題") (utf8 "時長") (utf8 "輸入")
        (utf8 "建立") (utf8 "網路研究") (utf8 "現有檔案") (utf8 "下一個工作日") (utf8 "分鐘") (utf8 "個已核准檔案")
        (utf8 "個新的決策包檔案") (utf8 "官方公開來源") (utf8 "保留")
  else if begins "zh" locale then
    ApprovalPreviewLabels.mk (utf8 "日历") (utf8 "时间") (utf8 "标题") (utf8 "时长") (utf8 "输入")
        (utf8 "创建") (utf8 "网络研究") (utf8 "现有文件") (utf8 "下一个工作日") (utf8 "分钟") (utf8 "个已批准文件")
        (utf8 "个新的决策包文件") (utf8 "官方公开来源") (utf8 "保留")
  else
    ApprovalPreviewLabels.mk (utf8 "Calendar") (utf8 "When") (utf8 "Title") (utf8 "Duration")
        (utf8 "Inputs") (utf8 "Creates") (utf8 "Web research") (utf8 "Existing files")
        (utf8 "next weekday") (utf8 "minutes") (utf8 "approved files")
        (utf8 "new decision-pack files") (utf8 "official public sources") (utf8 "kept").

(** The words of the dialog for a locale. *)
Module PromptWords.
Record t : Type := mk {
  title : str; wants : str; details : str; deny : str;
  device_location : str; path_preposition : str;
}.
End PromptWords.
Definition prompt_words (locale : str) : PromptWords.t :=
  if begins "de" locale then
    PromptWords.mk (utf8 "Diese Aktion erlauben?") (utf8 "OOMU möchte") (utf8 "Details")
      (utf8 "Nicht erlauben") (utf8 "auf diesem Mac") (utf8 "in")
  else if begins "es" locale then
    PromptWords.mk (utf8 "¿Permitir esta acción?") (utf8 "OOMU quiere") (utf8 "Detalles")
      (utf8 "No permitir") (utf8 "en este Mac") (utf8 "en")
  else if begins "fr" locale then
    PromptWords.mk (utf8 "Autoriser cette action ?") (utf8 "OOMU souhaite") (utf8 "Détails")
      (utf8 "Ne pas autoriser") (utf8 "sur ce Mac") (utf8 "dans")
  else if begins "id" locale then
    PromptWords.mk (utf8 "Izinkan tindakan ini?") (utf8 "OOMU ingin") (utf8 "Detail")
      (utf8 "Jangan Izinkan") (utf8 "di Mac ini") (utf8 "di")
  else if begins "ja" locale then
    PromptWords.mk (utf8 "この操作を許可しますか？") (utf8 "OOMU が実行します:") (utf8 "詳細")
      (utf8 "許可しない") (utf8 "このMac上で") (utf8 "次の場所で")
  else if begins "pt" locale then
    PromptWords.mk (utf8 "Permitir esta ação?") (utf8 "O OOMU quer") (utf8 "Detalhes")
      (utf8 "Não permitir") (utf8 "neste Mac") (utf8 "em")
  else if begins "ru" locale then
    PromptWords.mk (utf8 "Разрешить это действие?") (utf8 "OOMU хочет") (utf8 "Подробности")
      (utf8 "Не разрешать") (utf8 "на этом Mac") (utf8 "в")
  else if begins "uk" locale then
    PromptWords.mk (utf8 "Дозволити цю дію?") (utf8 "OOMU хоче") (utf8 "Докладніше")
      (utf8 "Не дозволяти") (utf8 "на цьому Mac") (utf8 "у")
  else if begins "vi" locale then
    PromptWords.mk (utf8 "Cho phép hành động này?") (utf8 "OOMU muốn") (utf8 "Chi tiết")
      (utf8 "Không cho phép") (utf8 "trên máy Mac này") (utf8 "trong")
  else if begins "zh-TW" locale then
    PromptWords.mk (utf8 "允許此操作？") (utf8 "OOMU 想要") (utf8 "詳細資訊")
      (utf8 "不允許") (utf8 "在這台 Mac 上") (utf8 "在")
  else if begins "zh" locale then
    PromptWords.mk (utf8 "允许此操作？") (utf8 "OOMU 想要") (utf8 "详细信息")
      (utf8 "不允许") (utf8 "在这台 Mac 上") (utf8 "在")
  else
    PromptWords.mk (utf8 "Allow this action?") (utf8 "OOMU wants to") (utf8 "Details")
      (utf8 "Don't Allow") (utf8 "on this Mac") (utf8 "in").

(** ** The labels of the buttons *)
Definition scope_label (kind locale : str) : str :=
  let pick (app_session task project_path persistent once : str) :=
    if equals kind "app_session" then app_session
    else if equals kind "task" then task
    else if equals kind "project_path" then project_path
    else if equals kind "persistent" then persistent
    else once in
  if begins "de" locale then
    pick (utf8 "Für diese Sitzung") (utf8 "Für diese Aufgabe") (utf8 "Für dieses Projekt")
      (utf8 "Immer erlauben") (utf8 "Einmal erlauben")
  else if begins "es" locale then
    pick (utf8 "Durante esta sesión") (utf8 "Para esta tarea") (utf8 "Para este proyecto")
      (utf8 "Permitir siempre") (utf8 "Permitir una vez")
  else if begins "fr" locale then
    pick (utf8 "Pour cette session") (utf8 "Pour cette tâche") (utf8 "Pour ce projet")
      (utf8 "Toujours autoriser") (utf8 "Autoriser une fois")
  else if begins "id" locale then
    pick (utf8 "Untuk Sesi Ini") (utf8 "Untuk Tugas Ini") (utf8 "Untuk Proyek Ini")
      (utf8 "Selalu Izinkan") (utf8 "Izinkan Sekali")
  else if begins "ja" locale then
    pick (utf8 "このセッション中") (utf8 "このタスク中") (utf8 "このプロジェクト中") (utf8 "常に許可") (utf8 "1回だけ許可")
  else if begins "pt" locale then
    pick (utf8 "Nesta sessão") (utf8 "Nesta tarefa") (utf8 "Neste projeto")
      (utf8 "Permitir sempre") (utf8 "Permitir uma vez")
  else if begins "ru" locale then
    pick (utf8 "Для этого сеанса") (utf8 "Для этой задачи") (utf8 "Для этого проекта")
      (utf8 "Разрешать всегда") (utf8 "Разрешить один раз")
  else if begins "uk" locale then
    pick (utf8 "Для цього сеансу") (utf8 "Для цього завдання") (utf8 "Для цього проєкту")
      (utf8 "Завжди дозволяти") (utf8 "Дозволити один раз")
  else if begins "vi" locale then
    pick (utf8 "Trong phiên này") (utf8 "Cho tác vụ này") (utf8 "Cho dự án này")
      (utf8 "Luôn cho phép") (utf8 "Chỉ cho phép một lần")
  else if begins "zh-TW" locale then
    pick (utf8 "本次工作階段") (utf8 "本次任務") (utf8 "本專案") (utf8 "永遠允許") (utf8 "僅允許一次")
  else if begins "zh" locale then
    pick (utf8 "本次会话") (utf8 "本次任务") (utf8 "本项目") (utf8 "始终允许") (utf8 "仅允许一次")
  else
    pick (utf8 "For This Session") (utf8 "For This Task") (utf8 "For This Project")
      (utf8 "Always Allow") (utf8 "Allow Once").

Module ShieldPromptCopy.
Record t : Type := mk { title : str; body : str; choices : list (str * str); deny : str }.
End ShieldPromptCopy.

(** ** What may be shown *)
Definition is_plain_location (value : str) : bool :=
  let value := trim value in
  (begins "/" value || begins "~/" value)
  && negb (contains_char (ch "{") value)
  && negb (contains_char (ch "[") value)
  && negb (contains_str (lit "imported_") value)
  && negb (existsb is_control value).

Section Prompt.
Context `{J : JsonLib} {T : JsonText} {U : UnicodeCase}.

Fixpoint camel_case (value : str) : bool :=
  match value with
  | a :: value' =>
      match value' with
      | b :: _ => (is_lowercase a && is_uppercase b) || camel_case value'
      | [] => false
      end
  | [] => false
  end.
Definition is_plain_approval_text (value : str) : bool :=
  negb (is_empty value)
  && (str_len value <=? 2000)
  && negb (contains_char (ch "{") value)
  && negb (contains_char (ch "[") value)
  && negb (contains_str [34; ch ":"] value)
  && negb (contains_str (lit "researchPolicy") value)
  && negb (contains_str (lit "imported_") value)
  && negb (camel_case value)
  && negb (existsb is_control value).

Definition plain_field (field : option Value) : option str :=
  value ← field;
  text ← as_str value;
  let text := trim text in
  if is_plain_approval_text text then Some text else None.
Definition row (label text : str) : str := label ++ lit ": " ++ text.
Definition lines (rows : list str) : str := join [10] rows.

Definition calendar_event_preview (labels : ApprovalPreviewLabels.t) (value : Value) : option str :=
  let field name := get (lit name) value in
  calendar ← plain_field (field "calendarName"%string);
  title ← plain_field (field "title"%string);
  start ← plain_field (first_some (field "windowStartLocal"%string) (field "startDate"%string));
  end_ ← plain_field (first_some (field "windowEndLocal"%string) (field "endDate"%string));
  let span := start ++ utf8 "–" ++ end_ in
  let when :=
    match plain_field (field "day"%string) with
    | Some day =>
        if equals day "next_weekday"
        then ApprovalPreviewLabels.next_weekday labels ++ lit ", " ++ span
        else day ++ lit ", " ++ span
    | None => span
    end in
  Some (lines
    ([row (ApprovalPreviewLabels.calendar labels) calendar;
      row (ApprovalPreviewLabels.when labels) when;
      row (ApprovalPreviewLabels.title labels) title]
     ++ match field "durationMinutes"%string ≫= as_u64 with
        | Some duration =>
            [row (ApprovalPreviewLabels.duration labels)
               (show_int duration ++ lit " " ++ ApprovalPreviewLabels.minutes labels)]
        | None => []
        end)).

Definition decision_pack_preview (labels : ApprovalPreviewLabels.t) (value : Value) : option str :=
  let field name := get (lit name) value in
  inputs ← field "inputPaths"%string ≫= as_array;
  outputs ← field "outputs"%string ≫= as_object;
  let has_research :=
    match field "researchPolicy"%string ≫= as_object with Some _ => true | None => false end in
  let preserves_existing :=
    bool_decide (field "willOverwrite"%string ≫= as_bool = Some false) in
  if has_research && preserves_existing
  then Some (lines
    [row (ApprovalPreviewLabels.inputs labels)
       (show_int (Z.of_nat (length inputs)) ++ lit " " ++ ApprovalPreviewLabels.approved_files labels);
     row (ApprovalPreviewLabels.creates labels)
       (show_int (Z.of_nat (length outputs)) ++ lit " " ++ ApprovalPreviewLabels.decision_pack_files labels);
     row (ApprovalPreviewLabels.web_research labels) (ApprovalPreviewLabels.official_sources labels);
     row (ApprovalPreviewLabels.existing_files labels) (ApprovalPreviewLabels.kept labels)])
  else None.

Definition human_approval_preview (request : ApprovalRequest) (locale : str) : option str :=
  let labels := approval_preview_labels locale in
  let action_type :=
    to_ascii_lowercase (dashes_to_underscores (trim (ShieldApprovalRequest.action_type request))) in
  let preview := from_str (trim (ShieldApprovalRequest.preview request)) in
  let special :=
    if in_list action_type ["create_conflict_free_calendar_event"; "create_system_calendar_event"]
    then preview ≫= calendar_event_preview labels
    else if equals action_type "create_system_calendar"
    then option_map (row (ApprovalPreviewLabels.calendar labels))
           (plain_field (preview ≫= get (lit "calendarName")))
    else if equals action_type "create_decision_pack"
    then preview ≫= decision_pack_preview labels
    else None in
  first_some special
    (first_some
       (List.find is_plain_approval_text
          [trim (ShieldApprovalRequest.semantic_summary request);
           trim (ShieldApprovalRequest.semantic_detail request)])
       (let action := trim (ShieldApprovalRequest.action_label request) in
        if is_plain_approval_text action then Some (action ++ lit ".") else None)).

Definition prompt_copy (request : ApprovalRequest) (locale : str) : ShieldPromptCopy.t :=
  let words := prompt_words locale in
  let location :=
    match first_some (ShieldApprovalRequest.canonical_resource request)
            (ShieldApprovalRequest.target_path request) with
    | Some place =>
        if is_plain_location place
        then PromptWords.path_preposition words ++ lit " " ++ place
        else PromptWords.device_location words
    | None => PromptWords.device_location words
    end in
  let body :=
    PromptWords.wants words ++ lit " "
    ++ to_ascii_lowercase (trim (ShieldApprovalRequest.action_label request)) ++ lit " "
    ++ location ++ lit "." in
  let body :=
    match human_approval_preview request locale with
    | Some preview => body ++ [10; 10] ++ PromptWords.details words ++ lit ":" ++ [10] ++ preview
    | None => body
    end in
  ShieldPromptCopy.mk (PromptWords.title words) body
    (map (fun kind => (kind, scope_label kind locale))
       (ShieldApprovalRequest.approval_scope_kinds request))
    (PromptWords.deny words).
End Prompt.

(** ** The button *)
Definition isize_max : Z := 2 ^ 63 - 1.
Definition denied : Selection :=
  NativeShieldPromptSelection.mk ShieldApprovalDecision.Deny (lit "once").
Definition selection_for_prompt_response (response first_button_response : Z)
    (choices : list (str * str)) : Selection :=
  let index := response - first_button_response in
  if (index <? 0) || (isize_max <? index) then denied
  else match choices !! Z.to_nat index with
       | Some (scope_kind, _) =>
           NativeShieldPromptSelection.mk ShieldApprovalDecision.Approve scope_kind
       | None => denied
       end.

(** AppKit numbers the buttons of an alert from 1000 on. *)
Definition NSAlertFirstButtonReturn : Z := 1000.

(** How the dialog ends; ten minutes are the limit. *)
Module PromptEnd.
Inductive t : Type :=
  | NoWindow | NotRestored | NotShown | NotFocused
  | NotStarted | Closed | NotPresented | TimedOut
  | Response (code : Z).
End PromptEnd.

Definition prompt_error (code message : string) : res GateError Selection :=
  Err (ShieldGateError.of_authority (mismatch code message)).
Definition native_selection (choices : list (str * str)) (ended : PromptEnd.t)
  : res GateError Selection :=
  match ended with
  | PromptEnd.NoWindow =>
      prompt_error "shield_native_prompt_window_unavailable"
        "OOMU could not attach the permission prompt to its window."
  | PromptEnd.NotRestored =>
      prompt_error "shield_native_prompt_window_unavailable"
        "OOMU could not restore its window for the permission prompt."
  | PromptEnd.NotShown =>
      prompt_error "shield_native_prompt_window_unavailable"
        "OOMU could not show its window for the permission prompt."
  | PromptEnd.NotFocused =>
      prompt_error "shield_native_prompt_window_unavailable"
        "OOMU could not focus its window for the permission prompt."
  | PromptEnd.NotStarted | PromptEnd.NotPresented =>
      prompt_error "shield_native_prompt_failed"
        "OOMU could not present the native permission prompt."
  | PromptEnd.Closed =>
      prompt_error "shield_native_prompt_closed"
        "The native permission prompt closed without a decision."
  | PromptEnd.TimedOut =>
      Err (ShieldGateError.mk (lit "shield_approval_timeout") (lit "ShieldApprovalManager")
             (lit "Shield Gate approval expired before a native decision arrived."))
  | PromptEnd.Response code =>
      Ok (selection_for_prompt_response code NSAlertFirstButtonReturn choices)
  end.
