(* ===== verification/ApprovalScopes.v ===== *)
(** * Reviewed approval scopes ([approval_scopes.rs], migration 0016)

    A person may allow an action not once but for a task, for a folder of a
    project or until revoked.  Such a grant is a row with a budget of uses and an
    end; [authorize] uses one up instead of asking, and every grant, use, refusal
    and revocation leaves an audit row in the transaction that makes it.

    [ShieldDb] holds these tables, the tasks and projects they refer to, and the
    maps of the gate that live in memory; a critical section on such a map is one
    node of a program, like a statement. *)
From stdpp Require Import sorting.
From S2P Require Import Prelude.
From S2P Require Import RustStr.
From S2P Require Import P0Contracts.
From S2P Require Import JsonValue.
From S2P Require Import Program.
From S2P Require Import TaskStore.
From S2P Require Import EffectJournal.
From S2P Require Import Authority.
From S2P Require Import ActuationLease.
From S2P Require Import ShieldDecision.
Local Open Scope Z_scope.

(** ** Tables *)
Module ReviewedScope.
Record t `{J : JsonLib} : Type := mk {
  scope_kind : str;
  principal : str;
  project_id : option str;
  task_run_id : option str;
  action_class : str;
  canonical_resource : str;
  argument_class : str;
  expires_at_ms : Z;
  max_uses : Z;
  used_count : Z;
  resource_budget : Value;
  reviewed_at_ms : Z;
  revoked_at_ms : option Z;
  last_used_at_ms : option Z;
}.
Section Changes.
Context `{J : JsonLib}.
Definition use (uses now : Z) (r : t) : t :=
  mk _ (scope_kind r) (principal r) (project_id r) (task_run_id r) (action_class r)
    (canonical_resource r) (argument_class r) (expires_at_ms r) (max_uses r) (used_count r + uses)
    (resource_budget r) (reviewed_at_ms r) (revoked_at_ms r) (Some now).
Definition revoke (now : Z) (r : t) : t :=
  mk _ (scope_kind r) (principal r) (project_id r) (task_run_id r) (action_class r)
    (canonical_resource r) (argument_class r) (expires_at_ms r) (max_uses r) (used_count r)
    (resource_budget r) (reviewed_at_ms r) (Some now) (last_used_at_ms r).
End Changes.
End ReviewedScope.
Notation Scope := ReviewedScope.t.

Module ApprovalScopeAuditEvent.
Record t `{J : JsonLib} : Type := mk {
  grant_id : option str;
  task_run_id : option str;
  event_type : str;
  action_class : str;
  canonical_resource_hash : str;
  detail : Value;
  created_at_ms : Z;
}.
End ApprovalScopeAuditEvent.
Notation AuditRow := ApprovalScopeAuditEvent.t.

(** ** The state of the gate *)
Module ScopeTrustCache.
Record t : Type := mk {
  authorized_prefix : path;
  allowed_operations : list str;
  expires_at_ms : Z;
  principal : str;
  grant_id : str;
  granted_at_ms : Z;
  app_session : bool;
}.
End ScopeTrustCache.

Module PendingShieldApproval.
Record t : Type := mk { request : ApprovalRequest; frozen : Frozen; display_id : str }.
End PendingShieldApproval.

Module ShieldDb.
Record t `{J : JsonLib} : Type := mk {
  scopes : gmap str Scope;
  audit_rows : list AuditRow;
  task_runs : gset str;
  projects : gset str;
  session_trust : list ScopeTrustCache.t;
  pending : gmap str PendingShieldApproval.t;
  decisions : gmap str Decided;
}.
Section Fields.
Context `{J : JsonLib}.
Definition with_scopes v db : t :=
  mk _ v (audit_rows db) (task_runs db) (projects db) (session_trust db) (pending db) (decisions db).
Definition with_audit v db : t :=
  mk _ (scopes db) v (task_runs db) (projects db) (session_trust db) (pending db) (decisions db).
Definition with_trust v db : t :=
  mk _ (scopes db) (audit_rows db) (task_runs db) (projects db) v (pending db) (decisions db).
Definition with_pending v db : t :=
  mk _ (scopes db) (audit_rows db) (task_runs db) (projects db) (session_trust db) v (decisions db).
Definition with_decisions v db : t :=
  mk _ (scopes db) (audit_rows db) (task_runs db) (projects db) (session_trust db) (pending db) v.
End Fields.
End ShieldDb.
Notation Db := ShieldDb.t.

(** ** What the gate asks of its surroundings *)
Module ShieldApprovalStatus.
Record t : Type := mk {
  display_id : str;
  session_id : option str;
  action_label : str;
  semantic_summary : str;
  requested_at_ms : Z;
  pending : bool;
}.
End ShieldApprovalStatus.

Inductive Call `{J : JsonLib} : Type :=
  | CurrentActor
  | ActiveLocale
  | EmitStatus (status : ShieldApprovalStatus.t)
  | Prompt (request : ApprovalRequest) (copy : ShieldPromptCopy.t)
  | RecordEvent (task_run_id event_type : str) (payload : Value).
Definition Reply `{J : JsonLib} (c : Call) : Type :=
  match c with
  | CurrentActor => res AuthorityError str
  | ActiveLocale => option str
  | EmitStatus _ => res str unit
  | Prompt _ _ => PromptEnd.t
  | RecordEvent _ _ _ => unit
  end.
Definition Env `{J : JsonLib} : Type := forall c : Call, Reply c.
Notation prog A := (Program.prog Db Call Env A).
Notation io E A := (Program.io Db Call Env E A).
Notation tx := (Program.tx Db).

Definition ask `{J : JsonLib} {E} (c : Call) : io E (Reply c) :=
  Await c (fun env => Ret (Ok (env c))).

(** ** Classes of actions *)
Definition mandatory_reconfirmation (action : str) : bool :=
  in_list (to_ascii_lowercase (trim action))
    ["terminal_execute"; "shell_command"; "execute_command"; "delete_file"; "trash";
     "credential_disclosure"; "message_send"; "message_post"; "create_decision_pack";
     "draft_decision_pack_email"; "create_conflict_free_calendar_event";
     "calendar_mutation_with_others"; "external_private_export"; "airlock_export";
     "telemetry_archive"; "artifact_export"; "browser_submit"; "connector_write"].

Definition canonical_resource (host : Host) (p : option str) (fallback : str) : str :=
  match p with
  | Some value =>
      match canonicalize (files host) (path_of_str value) with
      | Some resolved => path_display resolved
      | None => value
      end
  | None => fallback
  end.

Definition is_filesystem_class (action_class : str) : bool :=
  in_list action_class ["filesystem_read"; "filesystem_write"].

Definition argument_class (action preview : str) : str :=
  let normalized := to_ascii_lowercase (trim action) in
  if is_filesystem_class normalized then normalized
  else
    let size :=
      if str_len preview <=? 255 then lit "small"
      else if str_len preview <=? 4095 then lit "medium"
      else lit "large" in
    normalized ++ lit ":" ++ size.

Module ScopeTrustApprovalRequest.
Record t : Type := mk {
  enabled : bool;
  duration_ms : option Z;
  kind : option str;
  max_uses : option Z;
}.
End ScopeTrustApprovalRequest.
Notation TrustRequest := ScopeTrustApprovalRequest.t.

(** Reduction to [i64] ([as i64], and [+] in a release build). *)
Definition to_i64 (z : Z) : Z := (z + 2 ^ 63) mod 2 ^ 64 - 2 ^ 63.
Definition UNTIL_REVOKED_MS : Z := 253402300799000.

Section Scopes.
Context `{S : StoreLib} {D : Digest}.
Implicit Types db : Db.

Definition json_i64 (n : Z) : Value := Value.Number (number_of_i64 n).

(** ** Statements *)

(** [INSERT INTO approval_scope_audit ..], with its two foreign keys. *)
Definition audit (now : Z) (grant_id task : option str) (event action resource : str) (detail : Value)
  : tx unit := fun db =>
  if match grant_id with Some id => bool_decide (is_Some (ShieldDb.scopes db !! id)) | None => true end
     && match task with Some id => bool_decide (id ∈ ShieldDb.task_runs db) | None => true end
  then (Ok tt, ShieldDb.with_audit
                 (ShieldDb.audit_rows db
                  ++ [ApprovalScopeAuditEvent.mk _ grant_id task event action
                        (sha256_hex (as_bytes resource)) detail now]) db)
  else (Err foreign_key_failed, db).

Definition insert_scope (id : str) (row : Scope) : tx unit := fun db =>
  match ShieldDb.scopes db !! id with
  | Some _ => (Err (lit "UNIQUE constraint failed: reviewed_approval_scopes.grant_id"), db)
  | None =>
      if match ReviewedScope.project_id row with
         | Some id => bool_decide (id ∈ ShieldDb.projects db) | None => true end
         && match ReviewedScope.task_run_id row with
            | Some id => bool_decide (id ∈ ShieldDb.task_runs db) | None => true end
      then (Ok tt, ShieldDb.with_scopes (<[id := row]> (ShieldDb.scopes db)) db)
      else (Err foreign_key_failed, db)
  end.

Definition live (now : Z) (row : Scope) : bool :=
  bool_decide (ReviewedScope.revoked_at_ms row = None) && (now <? ReviewedScope.expires_at_ms row).
Definition update_scope (id : str) (cond : Scope -> bool) (set : Scope -> Scope) : tx Z :=
  change (fun db =>
    let '(n, m) := update_one (ShieldDb.scopes db) id cond set in (n, ShieldDb.with_scopes m db)).

Definition concerns (principal action_class argument_class : str) (row : Scope) : bool :=
  str_eqb (ReviewedScope.principal row) principal
  && str_eqb (ReviewedScope.action_class row) action_class
  && str_eqb (ReviewedScope.argument_class row) argument_class.
Definition newer (a b : str * Scope) : Prop :=
  ReviewedScope.reviewed_at_ms b.2 <= ReviewedScope.reviewed_at_ms a.2.
#[local] Instance newer_dec a b : Decision (newer a b).
Proof. unfold newer. apply _. Defined.
(** [SELECT .. AND revoked_at_ms IS NULL AND expires_at_ms>?4 ORDER BY reviewed_at_ms DESC] *)
Definition select_live (now : Z) (principal action_class argument_class : str) : tx (list (str * Scope)) :=
  select (fun db =>
    merge_sort newer (List.filter
      (fun '(_, row) => concerns principal action_class argument_class row && live now row)
      (map_to_list (ShieldDb.scopes db)))).
Definition later (a b : str * Scope) : Prop :=
  ReviewedScope.expires_at_ms b.2 <= ReviewedScope.expires_at_ms a.2.
#[local] Instance later_dec a b : Decision (later a b).
Proof. unfold later. apply _. Defined.
Definition select_expired (now : Z) (principal action_class argument_class : str) : tx (option str) :=
  select (fun db =>
    option_map fst (head (merge_sort later (List.filter
      (fun '(_, row) => concerns principal action_class argument_class row
         && bool_decide (ReviewedScope.revoked_at_ms row = None)
         && (ReviewedScope.expires_at_ms row <=? now))
      (map_to_list (ShieldDb.scopes db)))))).

(** ** Granting *)
Definition new_grant_id (bytes : list Z) : str := lit "trustgrant_" ++ hex_encode bytes.

Definition selected_kind (selection : TrustRequest) : str :=
  match ScopeTrustApprovalRequest.kind selection with
  | Some kind => kind
  | None => if ScopeTrustApprovalRequest.enabled selection then lit "project_path" else lit "once"
  end.
Definition never_reusable (approval : ApprovalRequest) : bool :=
  ShieldApprovalRequest.mandatory_reconfirm approval
  || (negb (equals (ShieldApprovalRequest.action_class approval) "filesystem_read")
      && mandatory_reconfirmation (ShieldApprovalRequest.action_type approval)).

Definition max_duration (kind : str) (now : Z) : res str Z :=
  if equals kind "task" then Ok (24 * 60 * 60 * 1000)
  else if equals kind "project_path" then Ok (7 * 24 * 60 * 60 * 1000)
  else if equals kind "persistent" then Ok (saturating_sub_i64 UNTIL_REVOKED_MS now)
  else Err (lit "Unsupported approval scope.").
Definition default_uses (kind : str) : Z :=
  if equals kind "task" then 25 else if equals kind "project_path" then 100
  else if equals kind "persistent" then 500 else 1.

(** The resource a grant is for. *)
Definition granted_resource (approval : ApprovalRequest) : str :=
  let prefix := ShieldApprovalRequest.scope_trust_prefix approval in
  let resource := ShieldApprovalRequest.canonical_resource approval in
  default (ShieldApprovalRequest.action_type approval)
    (if is_filesystem_class (ShieldApprovalRequest.action_class approval)
     then first_some prefix resource else first_some resource prefix).
Definition granted_principal (approval : ApprovalRequest) : str :=
  default (lit "local_principal") (ShieldApprovalRequest.principal approval).

Definition granted_row (approval : ApprovalRequest) (kind : str) (expires max_uses now : Z) : Scope :=
  ReviewedScope.mk _ kind (granted_principal approval) (ShieldApprovalRequest.project_id approval)
    (ShieldApprovalRequest.task_run_id approval) (ShieldApprovalRequest.action_class approval)
    (granted_resource approval) (ShieldApprovalRequest.argument_class approval) expires max_uses 0
    (json_obj [("maxUses"%string, json_u64 max_uses); ("expiresAtMs"%string, json_i64 expires);
               ("untilRevoked"%string, Value.Bool (equals kind "persistent"))]) now None None.

Definition grant (approval : ApprovalRequest) (selection : TrustRequest) : io str (option str) :=
  let kind := selected_kind selection in
  if equals kind "once" || negb (ScopeTrustApprovalRequest.enabled selection) then mret None
  else if never_reusable approval
  then throw (lit "This high-impact action always requires one-time reconfirmation.")
  else if negb (existsb (fun allowed => str_eqb allowed kind)
                  (ShieldApprovalRequest.approval_scope_kinds approval))
  then throw (lit "The selected approval scope is not available for this action.")
  else
    now ← unix_time_ms_i64;
    let requested := to_i64 (default (15 * 60 * 1000) (ScopeTrustApprovalRequest.duration_ms selection)) in
    max_duration ← lift (max_duration kind now);
    let expires :=
      if equals kind "persistent" then UNTIL_REVOKED_MS
      else to_i64 (now + clamp 60000 max_duration requested) in
    let max_uses :=
      clamp 1 10000 (default (default_uses kind) (ScopeTrustApprovalRequest.max_uses selection)) in
    if equals kind "task"
       && bool_decide (ShieldApprovalRequest.task_run_id approval = None)
    then throw (lit "Task trust requires a bound Task.")
    else if equals kind "project_path"
            && (bool_decide (ShieldApprovalRequest.project_id approval = None)
                || bool_decide (ShieldApprovalRequest.canonical_resource approval = None))
    then throw (lit "Project/path trust requires a bound Project and canonical resource.")
    else
      bytes ← random_bytes;
      let id := new_grant_id bytes in
      audited_at ← unix_time_ms_i64;
      _ ← sql (transaction (
        _ ← insert_scope id (granted_row approval kind expires max_uses now);
        audit audited_at (Some id) (ShieldApprovalRequest.task_run_id approval) (lit "granted")
          (ShieldApprovalRequest.action_class approval) (granted_resource approval)
          (json_obj [("scopeKind"%string, Value.String kind); ("expiresAtMs"%string, json_i64 expires);
                     ("maxUses"%string, json_u64 max_uses)])));
      mret (Some id).

(** ** Using a grant *)
Definition until_revoked (row : Scope) : bool :=
  equals (ReviewedScope.scope_kind row) "persistent"
  && default false (get (lit "untilRevoked") (ReviewedScope.resource_budget row) ≫= as_bool).
Definition resource_inside (prefix resource : str) : bool :=
  path_starts_with (path_of_str prefix) (path_of_str resource).
Definition scope_matches (project_id task_run_id : option str) (resource : str) (row : Scope) : bool :=
  let kind := ReviewedScope.scope_kind row in
  let prefix := ReviewedScope.canonical_resource row in
  if equals kind "task" then bool_decide (ReviewedScope.task_run_id row = task_run_id)
  else if equals kind "project_path"
  then bool_decide (ReviewedScope.project_id row = project_id) && resource_inside prefix resource
  else if equals kind "persistent" then str_eqb resource prefix || resource_inside prefix resource
  else false.
Definition within_use_budget (estimated_uses : Z) (row : Scope) : bool :=
  until_revoked row
  || (saturating_add_i64 (ReviewedScope.used_count row) estimated_uses <=? ReviewedScope.max_uses row).

(** The transaction that uses a grant: whether it was still there to be used. *)
Definition use_scope (now audited_at : Z) (id : str) (row : Scope) (task_run_id : option str)
    (action_class resource : str) (estimated_uses : Z) : tx bool :=
  transaction (
    updated ← update_scope id
      (fun row' => live now row' &&
         (until_revoked row ||
          (ReviewedScope.used_count row' + estimated_uses <=? ReviewedScope.max_uses row')))
      (ReviewedScope.use estimated_uses now);
    if updated =? 0 then mret false
    else
      _ ← audit audited_at (Some id) task_run_id (lit "used") action_class resource
            (json_obj [("scopeKind"%string, Value.String (ReviewedScope.scope_kind row));
                       ("uses"%string, json_u64 estimated_uses)]);
      mret true).

Fixpoint use_first (now : Z) (project_id task_run_id : option str) (action_class resource : str)
    (estimated_uses : Z) (rows : list (str * Scope)) : io str bool :=
  match rows with
  | [] => mret false
  | (id, row) :: rows =>
      if scope_matches project_id task_run_id resource row && within_use_budget estimated_uses row
      then
        audited_at ← unix_time_ms_i64;
        used ← sql (use_scope now audited_at id row task_run_id action_class resource estimated_uses);
        if (used : bool) then mret true
        else use_first now project_id task_run_id action_class resource estimated_uses rows
      else use_first now project_id task_run_id action_class resource estimated_uses rows
  end.

Definition authorize (principal : str) (project_id task_run_id : option str)
    (action_class resource argument_class : str) (estimated_uses : Z) : io str bool :=
  if mandatory_reconfirmation action_class then
    audited_at ← unix_time_ms_i64;
    _ ← sql (audit audited_at None task_run_id (lit "mandatory_reconfirm") action_class resource
               (json_obj [("reason"%string, json_str "irreversible_or_high_impact")]));
    mret false
  else
    now ← unix_time_ms_i64;
    rows ← sql (select_live now principal action_class argument_class);
    used ← use_first now project_id task_run_id action_class resource estimated_uses rows;
    if (used : bool) then mret true
    else
      expired ← sql (select_expired now principal action_class argument_class);
      let found := bool_decide (is_Some (expired : option str)) in
      audited_at ← unix_time_ms_i64;
      _ ← sql (audit audited_at expired task_run_id (if found then lit "expired" else lit "denied")
                 action_class resource
                 (json_obj [("reason"%string, if found then json_str "scope_expired"
                                              else json_str "no_matching_scope")]));
      _ ← match task_run_id return io str unit with
          | Some task =>
              ask (RecordEvent task (lit "trust.scope_unavailable")
                     (json_obj [("actionClass"%string, Value.String action_class);
                                ("reason"%string, if found then json_str "expired"
                                                  else json_str "not_granted")]))
          | None => mret tt
          end;
      mret false.

(** ** Revoking *)
Definition revoke (grant_id : str) (reason : option str) : io str unit :=
  now ← unix_time_ms_i64;
  audited_at ← unix_time_ms_i64;
  sql (transaction (
    binding ← select (fun db =>
      match ShieldDb.scopes db !! grant_id with
      | Some row => if bool_decide (ReviewedScope.revoked_at_ms row = None) then Some row else None
      | None => None
      end);
    match (binding : option Scope) with
    | None => tx_err (lit "Approval scope was not found or is already revoked.")
    | Some row =>
        _ ← update_scope grant_id (fun _ => true) (ReviewedScope.revoke now);
        audit audited_at (Some grant_id) (ReviewedScope.task_run_id row) (lit "revoked")
          (ReviewedScope.action_class row) (ReviewedScope.canonical_resource row)
          (json_obj [("reason"%string, Value.String (default (lit "manual_revocation") reason))])
    end)).
End Scopes.
