(* ===== verification/TerminalScope.v ===== *)
(** * Where a typed command runs ([shield_gate/terminal_runtime.rs], [shield_gate/terminal_execution.rs])

    A command of a conversation is bound, before anything else looks at it, to the
    folder of the conversation's project, or in a global chat to the home folder.
    The conversation and the root of a project come from the database and are
    arguments; the text form of a command is serde's (class [TerminalCodec]). *)
From S2P Require Import Prelude.
From S2P Require Import RustStr.
From S2P Require Import JsonValue.
From S2P Require Import ToolSecurity.
From S2P Require Import Templates.
From S2P Require Import Authority.
From S2P Require Import TerminalContract.
From S2P Require Import ActuationLease.
Local Open Scope Z_scope.

Module RequestedAction.
Record t : Type := mk {
  kind : str;
  principal : option str;
  path : option str;
  content : option str;
}.
End RequestedAction.
Notation Action := RequestedAction.t.

Class TerminalCodec : Type := {
  read_terminal_request : str -> option TerminalRequest;
  write_terminal_request : TerminalRequest -> str;
  read_write_terminal_request r : read_terminal_request (write_terminal_request r) = Some r;
}.

Definition security_boundary_violation (message : str) : GateError :=
  ShieldGateError.mk (lit "security_boundary_violation") (lit "ShieldGate") message.
Definition project_root_error (message : str) : GateError :=
  ShieldGateError.mk (lit "project_root_required") (lit "ProjectTerminalScope") message.

Definition is_terminal_kind (kind : str) : bool :=
  in_list kind ["terminal_execute"; "shell_command"; "execute_command"].

(** ** Home folders *)
(** A backslash takes the next character as it is. *)
Fixpoint unescape (s : str) : str :=
  match s with
  | [] => []
  | c :: s =>
      if c =? ch "\" then
        match s with
        | escaped :: s => escaped :: unescape s
        | [] => [c]
        end
      else c :: unescape s
  end.
Definition normalize_shell_escaped_path (raw_path : str) : str := unescape (trim raw_path).

Section Scope.
Context (host : Host).

Definition expand_shield_home_path (p operation : str) : res GateError path :=
  let trimmed := trim (normalize_shell_escaped_path p) in
  let no_home := security_boundary_violation (lit "Unable to resolve the user home directory.") in
  if is_empty trimmed
  then Err (security_boundary_violation (operation ++ lit " requires a non-empty path."))
  else if equals trimmed "~" then ok_or no_home (option_map path_of_str (home_variable host))
  else match strip_prefix (lit "~/") trimmed with
       | Some rest =>
           home ← ok_or no_home (home_variable host);
           Ok (path_join (path_of_str home) (path_of_str rest))
       | None => Ok (path_of_str trimmed)
       end.

Definition has_parent_dir (p : path) : bool := existsb (fun component => str_eqb component parent_dir) p.

Definition expand_terminal_home_value (value : str) : res GateError str :=
  if negb (equals value "~") && negb (begins "~/" value) then Ok value
  else
    expanded ← expand_shield_home_path value (lit "terminal_execute");
    _ ← guard_not (has_parent_dir expanded)
      (security_boundary_violation (lit "terminal_execute rejected home-relative path traversal."));
    Ok (path_display expanded).
Definition expand_terminal_home_paths (request : TerminalRequest) : res GateError TerminalRequest :=
  cwd ← match NativeTerminalRequest.cwd request with
        | Some cwd => cwd ← expand_terminal_home_value cwd; Ok (Some cwd)
        | None => Ok None
        end;
  args ← try_map expand_terminal_home_value (NativeTerminalRequest.args request);
  Ok (NativeTerminalRequest.mk (NativeTerminalRequest.executable request) args
        (NativeTerminalRequest.env request) cwd (NativeTerminalRequest.timeout request)).

(** ** The command of an action *)
Section Codec.
Context `{C : TerminalCodec}.

Definition protected_roots : list path := [app_data_root host; development_repo_root host].
Definition terminal_request_for_action (action : Action) : res GateError TerminalRequest :=
  let kind := normalize_action_kind (RequestedAction.kind action) in
  if equals kind "terminal_execute" then
    payload ← ok_or (security_boundary_violation (lit "A typed terminal request is required."))
                (RequestedAction.content action);
    request ← ok_or (security_boundary_violation (lit "The terminal request was not valid."))
                (read_terminal_request payload);
    request ← map_err security_boundary_violation (validate host request);
    _ ← map_err security_boundary_violation
          (validate_protected_deletion_roots host request protected_roots);
    Ok request
  else
    let first :=
      match RequestedAction.content action with
      | Some content => Some content
      | None => match RequestedAction.path action with
                | Some path => Some path
                | None => RequestedAction.principal action
                end
      end in
    command ← ok_or (security_boundary_violation (lit "A terminal command is required."))
      (match option_map trim first with
       | Some command => if is_empty command then None else Some command
       | None => None
       end);
    request ← map_err security_boundary_violation (direct_command_request host command);
    _ ← map_err security_boundary_violation
          (validate_protected_deletion_roots host request protected_roots);
    Ok request.

(** ** Binding it to a folder *)
Definition bounded_terminal_working_directory (requested_cwd : option str) (root : path)
    (boundary_message : string) : res GateError path :=
  match requested_cwd with
  | None => Ok root
  | Some cwd =>
      canonical ← ok_or (project_root_error (lit "The requested command folder is unavailable."))
        (canonicalize (files host) (path_join root (path_of_str cwd)));
      _ ← guard_not (negb (is_dir (files host) canonical) || negb (path_starts_with root canonical))
        (project_root_error (lit boundary_message));
      Ok canonical
  end.

(** [session_project] is the project of the conversation, [project_root] what
    [single_active_project_root] answered. *)
Definition project_terminal_working_directory (session_project : option str)
    (project_root : res str path) (project_id : str) (requested_cwd : option str) : res GateError path :=
  _ ← ensure (bool_decide (session_project = Some project_id))
    (project_root_error (lit "This conversation is not bound to the selected Project. Choose the Project again before running the command."));
  root ← map_err project_root_error project_root;
  bounded_terminal_working_directory requested_cwd root
    "The command folder must stay inside the selected Project.".

Definition global_terminal_working_directory (session_project : option str) (terminal : TerminalRequest)
  : res GateError path :=
  _ ← ensure (bool_decide (session_project = None))
    (project_root_error (lit "This conversation is bound to a Project, but the command omitted that Project."));
  _ ← ensure (reads_only (CapabilityClassification.tier (classification terminal)))
    (project_root_error (lit "Choose a Project before running commands that can change files, execute code, or use the network."));
  home ← ok_or (project_root_error (lit "OOMU could not verify the home folder for this read-only command."))
    (home ← home_dir host;
     home ← canonicalize (files host) home;
     if is_dir (files host) home then Some home else None);
  bounded_terminal_working_directory (NativeTerminalRequest.cwd terminal) home
    "A global-chat command folder must stay inside your home folder.".

Definition required_terminal_binding (label : string) (value : option str) : res GateError str :=
  ok_or (project_root_error (lit "OOMU could not verify this command because " ++ lit label
                             ++ lit " is missing."))
    (match option_map trim value with
     | Some value => if is_empty value then None else Some value
     | None => None
     end).

(** [sessions] looks a conversation up: its project; [project_root] is the root of
    a project. *)
Definition bind_direct_terminal_scope (sessions : str -> res str (option str))
    (project_root : str -> res str path) (session_id project_id : option str) (action : Action)
  : res GateError Action :=
  if negb (is_terminal_kind (normalize_action_kind (RequestedAction.kind action))) then Ok action
  else
    session_id ← required_terminal_binding "the conversation" session_id;
    session_project ← map_err
      (fun _ => project_root_error (lit "OOMU could not verify this conversation's terminal scope."))
      (sessions session_id);
    terminal ← terminal_request_for_action action;
    terminal ← expand_terminal_home_paths terminal;
    working_directory ←
      match project_id with
      | Some project_id =>
          project_terminal_working_directory session_project (project_root project_id) project_id
            (NativeTerminalRequest.cwd terminal)
      | None => global_terminal_working_directory session_project terminal
      end;
    Ok (RequestedAction.mk (lit "terminal_execute") None None
          (Some (write_terminal_request
             (NativeTerminalRequest.mk (NativeTerminalRequest.executable terminal)
                (NativeTerminalRequest.args terminal) (NativeTerminalRequest.env terminal)
                (Some (path_display working_directory)) (NativeTerminalRequest.timeout terminal))))).
End Codec.
End Scope.
