(* ===== verification/ScopeTrust.v ===== *)
(** * Access to a folder for a session ([shield_gate.rs], [ScopeTrustManager])

    Besides the reviewed scopes of [ApprovalScopes] there are grants that live in
    memory and end with the application: a person may allow one class of operation
    in one folder "for this session".  The cache of these grants is a list behind
    a mutex; each operation is one critical section. *)
From stdpp Require Import sorting.
From S2P Require Import Prelude.
From S2P Require Import RustStr.
From S2P Require Import P0Contracts.
From S2P Require Import JsonValue.
From S2P Require Import Program.
From S2P Require Import Authority.
From S2P Require Import TerminalContract.
From S2P Require Import ActuationLease.
From S2P Require Import ShieldDecision.
From S2P Require Import TerminalScope.
From S2P Require Import ApprovalScopes.
Local Open Scope Z_scope.

Module SessionScopeTrustGrant.
Record t : Type := mk {
  grant_id : str;
  principal : str;
  canonical_resource : str;
  action_class : str;
  granted_at_ms : Z;
}.
End SessionScopeTrustGrant.
Notation Trust := ScopeTrustCache.t.

Definition DEFAULT_SCOPE_TRUST_DURATION_MS : Z := 15 * 60 * 1000.
Definition trust_error (code message : string) : GateError :=
  ShieldGateError.mk (lit code) (lit "ScopeTrustCache") (lit message).

(** ** What an action would need *)
Section Actions.
Context (host : Host) `{C : TerminalCodec}.

Definition scope_target_for_path (p operation : str) (relative_base : path)
  : res GateError (option path) :=
  requested ← expand_shield_home_path host p operation;
  _ ← guard_not (has_parent_dir requested)
    (security_boundary_violation
       (operation ++ lit " rejected path traversal while preparing temporary folder trust."));
  let candidate := path_join relative_base requested in
  if path_exists host candidate then
    match canonicalize (files host) candidate with
    | Some real => Ok (Some real)
    | None => Err (security_boundary_violation
                     (operation ++ lit " target could not be resolved for approval preview."))
    end
  else match parent candidate with
  | None => Ok None
  | Some parent =>
      match canonicalize (files host) parent with
      | None => Ok None
      | Some parent_real =>
          Ok (Some (match file_name candidate with
                    | Some file_name => path_join parent_real [file_name]
                    | None => parent_real
                    end))
      end
  end.

Definition path_scope (operation : string) (base : path) (action : Action)
  : res GateError (option (str * path)) :=
  match RequestedAction.path action with
  | None => Ok None
  | Some p =>
      target ← scope_target_for_path p (lit operation) base;
      Ok (option_map (fun target => (lit operation, target)) target)
  end.

Definition scope_trust_action_scope (action : Action) : res GateError (option (str * path)) :=
  let kind := normalize_action_kind (RequestedAction.kind action) in
  if in_list kind ["file_read"; "file_list"] then path_scope "filesystem_read" (app_data_root host) action
  else if is_project_file_write_action kind
  then path_scope "filesystem_write" (app_data_root host) action
  else if equals kind "codebase_patch" then path_scope "codebase_patch" (development_repo_root host) action
  else if equals kind "document_index" then path_scope "document_index" (app_data_root host) action
  else if is_terminal_kind kind then
    request ← terminal_request_for_action host action;
    let root := default (development_repo_root host)
                  (canonicalize (files host) (development_repo_root host)) in
    Ok (option_map (fun target => (lit "filesystem_read", target))
          (external_read_target host request root))
  else Ok None.

Definition scope_trust_prefix_for_action (action : Action) : res GateError (option path) :=
  scope ← scope_trust_action_scope action;
  match scope with
  | None => Ok None
  | Some (_, target_path) =>
      let prefix := if is_dir (files host) target_path then Some target_path else parent target_path in
      Ok (prefix ← prefix;
          match parent prefix with Some _ => Some prefix | None => None end)
  end.

(** ** Durations a request may offer *)
Definition protected_folders : list string :=
  ["/System"; "/Library"; "/Applications"; "/bin"; "/sbin"; "/usr"; "/etc"; "/private"; "/dev";
   "/cores"; "/opt"; "/Network"]%string.
Definition sensitive_folders : list string :=
  [".ssh"; ".gnupg"; ".aws"; ".azure"; ".kube"; ".config/gcloud"; ".local/share/keyrings";
   "Library/Keychains"; "Library/Safari"; "Library/Mail"; "Library/Messages";
   "Library/Application Support/Google/Chrome"; "Library/Application Support/Firefox";
   "Library/Application Support/OOMU"; "Library/Application Support/OOMU";
   "Library/Application Support/OOMU"; "Library/Application Support/ai.eldris.oomu.gpd";
   "Library/Containers/ai.eldris.oomu.gpd"]%string.
Definition folder_scope_allows_persistent_access (p : str) : bool :=
  match canonicalize (files host) (path_of_str p) with
  | None => false
  | Some canonical =>
      match parent canonical with
      | None => false
      | Some _ =>
          if existsb (fun root => path_starts_with (path_of_str (lit root)) canonical) protected_folders
          then false
          else if in_list (path_display canonical) ["/Users"; "/Volumes"] then false
          else match home_variable host ≫= fun home => canonicalize (files host) (path_of_str home) with
          | None => true
          | Some home =>
              negb (bool_decide (canonical = home))
              && forallb (fun sensitive =>
                   let sensitive := path_join home (path_of_str (lit sensitive)) in
                   negb (path_starts_with sensitive canonical)
                   && negb (path_starts_with canonical sensitive)) sensitive_folders
          end
      end
  end.

Definition available_scope_kinds (request : ApprovalRequest) : list str :=
  let once := [lit "once"] in
  let has {A} (o : option A) := match o with Some _ => true | None => false end in
  if ShieldApprovalRequest.mandatory_reconfirm request
     || negb (ShieldApprovalRequest.scope_trust_available request)
  then once
  else if is_filesystem_class (ShieldApprovalRequest.action_class request) then
    once ++ [lit "app_session"]
    ++ (if match ShieldApprovalRequest.scope_trust_prefix request with
           | Some prefix => folder_scope_allows_persistent_access prefix
           | None => false
           end
        then [lit "persistent"] else [])
  else
    once
    ++ (if has (ShieldApprovalRequest.task_run_id request) then [lit "task"] else [])
    ++ (if has (ShieldApprovalRequest.project_id request)
           && has (ShieldApprovalRequest.canonical_resource request)
        then [lit "project_path"] else [])
    ++ (if has (ShieldApprovalRequest.canonical_resource request) then [lit "persistent"] else []).

(** ** The cache *)
Notation Cache := (list Trust).

Definition unexpired (now : Z) (cache : Cache) : Cache :=
  List.filter (fun entry => now <? ScopeTrustCache.expires_at_ms entry) cache.

Definition earlier (a b : SessionScopeTrustGrant.t) : Prop :=
  SessionScopeTrustGrant.granted_at_ms a <= SessionScopeTrustGrant.granted_at_ms b.
#[local] Instance earlier_dec a b : Decision (earlier a b).
Proof. unfold earlier. apply _. Defined.
Definition session_grants (now : Z) (cache : Cache) : list SessionScopeTrustGrant.t * Cache :=
  let cache := unexpired now cache in
  (rev (merge_sort earlier
     (flat_map (fun entry =>
        map (fun action_class =>
               SessionScopeTrustGrant.mk (ScopeTrustCache.grant_id entry)
                 (ScopeTrustCache.principal entry)
                 (path_display (ScopeTrustCache.authorized_prefix entry)) action_class
                 (ScopeTrustCache.granted_at_ms entry))
          (ScopeTrustCache.allowed_operations entry))
        (List.filter ScopeTrustCache.app_session cache))), cache).

Definition revoke_session_grant (grant_id : str) (cache : Cache) : bool * Cache :=
  let kept :=
    List.filter (fun entry => negb (str_eqb (ScopeTrustCache.grant_id entry) grant_id)) cache in
  (negb (Nat.eqb (length kept) (length cache)), kept).

Definition trust_covers (principal operation : str) (target_path : path) (entry : Trust) : bool :=
  str_eqb (ScopeTrustCache.principal entry) principal
  && existsb (fun allowed => str_eqb allowed operation) (ScopeTrustCache.allowed_operations entry)
  && path_starts_with (ScopeTrustCache.authorized_prefix entry) target_path.
Definition allows_action_for_principal (now : Z) (action : Action) (principal : str) (cache : Cache)
  : res GateError bool * Cache :=
  match scope_trust_action_scope action with
  | Ok (Some (operation, target_path)) =>
      let cache := unexpired now cache in
      (Ok (existsb (trust_covers principal operation target_path) cache), cache)
  | Ok None => (Ok false, cache)
  | Err e => (Err e, cache)
  | Panic => (Panic, cache)
  end.
End Actions.

(** What a request and a choice come to before the lock is taken: the folder, and
    whether the grant lasts as long as the application. *)
Definition session_trust_terms (approval : ApprovalRequest) (scope_trust : TrustRequest)
  : res GateError (str * bool) :=
  _ ← guard_not (never_reusable approval)
    (trust_error "scope_trust_unavailable" "This action always requires a new approval.");
  let offered := existsb (fun allowed => equals allowed "app_session")
                   (ShieldApprovalRequest.approval_scope_kinds approval) in
  let kind := ScopeTrustApprovalRequest.kind scope_trust in
  _ ← ensure (offered && match kind with Some kind => equals kind "app_session" | None => true end)
    (trust_error "scope_trust_kind_invalid"
       "That permission duration is not available for this action.");
  _ ← ensure (ShieldApprovalRequest.scope_trust_available approval)
    (trust_error "scope_trust_unavailable" "Temporary folder trust is not available for this action.");
  prefix ← ok_or (trust_error "scope_trust_missing_prefix"
                    "Temporary folder trust requires an approved folder prefix.")
    (ShieldApprovalRequest.scope_trust_prefix approval);
  Ok (prefix, match kind with Some _ => true | None => false end).

(** [now] before the lock, [now'] and [bytes] under it. *)
Definition grant_from_approval_with_id (now now' : Z) (bytes : list Z) (approval : ApprovalRequest)
    (scope_trust : option TrustRequest) (cache : list Trust) : res GateError (option str) * list Trust :=
  match scope_trust with
  | None => (Ok None, cache)
  | Some scope_trust =>
      if negb (ScopeTrustApprovalRequest.enabled scope_trust) then (Ok None, cache)
      else match session_trust_terms approval scope_trust with
      | Err e => (Err e, cache)
      | Panic => (Panic, cache)
      | Ok (prefix, app_session) =>
          let duration_ms :=
            clamp 1000 (60 * 60 * 1000)
              (default DEFAULT_SCOPE_TRUST_DURATION_MS
                 (ScopeTrustApprovalRequest.duration_ms scope_trust)) in
          let expires_at_ms := if app_session then u64_max else saturating_add_u64 now duration_ms in
          let grant_id := lit "sessiongrant_" ++ hex_encode bytes in
          (Ok (Some grant_id),
           cache ++ [ScopeTrustCache.mk (path_of_str prefix)
                       [reviewed_action_class (ShieldApprovalRequest.action_type approval)]
                       expires_at_ms (granted_principal approval) grant_id now' app_session])
      end
  end.
