(* ===== verification/ShieldApprovals.v ===== *)
(** * Asking at the shield gate ([shield_gate.rs], [agentic_loop/permission_preflight.rs])

    [request_approval] puts a request among the pending ones, shows the dialog,
    takes the decision through the store of [ShieldDecision] and, when it was an
    approval for more than once, records the grant ([ScopeTrust] in memory,
    [ApprovalScopes] in the database).  [ask_unless_granted] is what an action of
    the agent loop goes through: it asks only when no grant covers it.

    The lock that lets one dialog be open at a time is left out: dialogs of
    different requests may overlap here. *)
From stdpp Require Import sorting.
From S2P Require Import Prelude.
From S2P Require Import RustStr.
From S2P Require Import P0Contracts.
From S2P Require Import JsonValue.
From S2P Require Import Program.
From S2P Require Import TaskStore.
From S2P Require Import EffectJournal.
From S2P Require Import Authority.
From S2P Require Import ActuationLease.
From S2P Require Import ShieldDecision.
From S2P Require Import TerminalScope.
From S2P Require Import ApprovalScopes.
From S2P Require Import ScopeTrust.
Local Open Scope Z_scope.

Definition manager_error (code message : string) : GateError :=
  ShieldGateError.mk (lit code) (lit "ShieldApprovalManager") (lit message).
Definition authority_unavailable (message : string) : GateError :=
  ShieldGateError.of_authority (mismatch "shield_decision_store_unavailable" message).
Definition trust_lock_failed (message : string) : GateError :=
  trust_error "scope_trust_lock_failed" message.

Definition shield_approval_status (pending : PendingShieldApproval.t) (is_pending : bool)
  : ShieldApprovalStatus.t :=
  let request := PendingShieldApproval.request pending in
  ShieldApprovalStatus.mk (PendingShieldApproval.display_id pending)
    (ShieldApprovalRequest.session_id request) (ShieldApprovalRequest.action_label request)
    (ShieldApprovalRequest.semantic_summary request) (ShieldApprovalRequest.requested_at_ms request)
    is_pending.

(** Why an action may not go on: the grants could not be read, or nobody approved. *)
Module PermissionError.
Inductive t : Type :=
  | CheckFailed (error : GateError)
  | StoreFailed (message : str)
  | NotGranted (error : GateError).
End PermissionError.

Section Approvals.
Context `{S : StoreLib} {D : Digest} {U : UnicodeCase} (host : Host) `{C : TerminalCodec}.
Implicit Types db : Db.

Definition unix_time_ms_u64 {E} : io E Z := Clock (fun n => Ret (Ok n)).

(** ** The maps in memory *)
Definition on_trust {E X} (f : list Trust -> res E X * list Trust) : Db -> res E X * Db := fun db =>
  let '(r, cache) := f (ShieldDb.session_trust db) in (r, ShieldDb.with_trust cache db).

Definition issue (frozen : Frozen) (actor_id : str) (selection : Selection) : io GateError str :=
  now ← unix_time_ms_u64;
  bytes ← random_bytes;
  locked (authority_unavailable "OOMU could not secure this decision.") (fun db =>
    match issue_after_native_presence now bytes frozen actor_id selection (ShieldDb.decisions db) with
    | Ok (id, decisions) => (Ok id, ShieldDb.with_decisions decisions db)
    | Err e => (Err (ShieldGateError.of_authority e), db)
    | Panic => (Panic, db)
    end).
Definition consume_decision (decision_id : str) (frozen : Frozen) (actor_id : str)
  : io GateError Decided :=
  now ← unix_time_ms_u64;
  locked (authority_unavailable "OOMU could not verify this decision.") (fun db =>
    let '(r, decisions) := ShieldDecision.consume now decision_id frozen actor_id
                             (ShieldDb.decisions db) in
    (map_err ShieldGateError.of_authority r, ShieldDb.with_decisions decisions db)).

Definition insert_pending (token : str) (entry : PendingShieldApproval.t) : io GateError bool :=
  critical (fun db =>
    match ShieldDb.pending db !! token with
    | Some _ => (false, db)
    | None => (true, ShieldDb.with_pending (<[token := entry]> (ShieldDb.pending db)) db)
    end).
Definition pending_entry (token : str) : io GateError (option PendingShieldApproval.t) :=
  critical (fun db => (ShieldDb.pending db !! token, db)).
Definition remove_pending (token : str) : io GateError (option PendingShieldApproval.t) :=
  critical (fun db =>
    (ShieldDb.pending db !! token,
     ShieldDb.with_pending (delete token (ShieldDb.pending db)) db)).

Definition earlier_request (a b : ShieldApprovalStatus.t) : Prop :=
  ShieldApprovalStatus.requested_at_ms a <= ShieldApprovalStatus.requested_at_ms b.
#[local] Instance earlier_request_dec a b : Decision (earlier_request a b).
Proof. unfold earlier_request. apply _. Defined.
Definition pending_requests : io GateError (list ShieldApprovalStatus.t) :=
  critical (fun db =>
    (merge_sort earlier_request
       (map (fun '(_, entry) => shield_approval_status entry true)
          (map_to_list (ShieldDb.pending db))), db)).

(** ** Recording what was chosen *)
Definition grant_session_trust (request : ApprovalRequest) (selection : TrustRequest)
  : io GateError (option str) :=
  now ← unix_time_ms_u64;
  now' ← unix_time_ms_u64;
  bytes ← random_bytes;
  locked (trust_lock_failed "Unable to update temporary scope trust cache.")
    (on_trust (grant_from_approval_with_id now now' bytes request (Some selection))).

Definition apply_native_scope_selection (request : ApprovalRequest) (scope_kind : str)
  : io GateError unit :=
  if equals scope_kind "once" then mret tt
  else
    let selection :=
      ScopeTrustApprovalRequest.mk true (Some (ShieldApprovalRequest.scope_trust_duration_ms request))
        (Some scope_kind) None in
    if equals scope_kind "app_session"
    then _ ← grant_session_trust request selection; mret tt
    else
      _ ← io_map_err (fun message =>
            ShieldGateError.mk (lit "approval_scope_invalid") (lit "ReviewedApprovalScope") message)
          (grant request selection);
      mret tt.

(** ** The dialog and the decision *)
Definition request_native_selection (request : ApprovalRequest) (locale : str) : io GateError Selection :=
  let copy := prompt_copy request locale in
  ended ← ask (Prompt request copy);
  lift (native_selection (ShieldPromptCopy.choices copy) ended).

Definition decide_request (request : ApprovalRequest) (frozen : Frozen)
  : io GateError ShieldApprovalDecision.t :=
  actor ← ask CurrentActor;
  actor_id ← lift (map_err ShieldGateError.of_authority actor);
  locale ← ask ActiveLocale;
  selection ← request_native_selection request (default (lit "en-US") locale);
  decision_id ← issue frozen actor_id selection;
  decision ← consume_decision decision_id frozen actor_id;
  _ ← lift (guard_not
    (negb (str_eqb (NativeShieldDecision.decision_id decision) decision_id)
     || is_empty (NativeShieldDecision.nonce decision))
    (manager_error "shield_decision_identity_invalid"
       "The native Shield decision could not be verified."));
  _ ← match NativeShieldDecision.decision decision with
      | ShieldApprovalDecision.Approve =>
          apply_native_scope_selection request (NativeShieldDecision.scope_kind decision)
      | ShieldApprovalDecision.Deny => mret tt
      end;
  mret (NativeShieldDecision.decision decision).

Definition request_approval (request : ApprovalRequest) : io GateError ShieldApprovalDecision.t :=
  frozen ← lift (map_err ShieldGateError.of_authority (freeze_request request));
  let token := FrozenShieldRequest.approval_token frozen in
  bytes ← random_bytes;
  let display_id := lit "shieldstatus_" ++ hex_encode bytes in
  fresh ← insert_pending token (PendingShieldApproval.mk request frozen display_id);
  if negb fresh
  then throw (manager_error "shield_approval_duplicate"
                "That Shield Gate action is already awaiting a decision.")
  else
    entry ← pending_entry token;
    emitted ← match (entry : option PendingShieldApproval.t) return io GateError (res str unit) with
              | Some entry => ask (EmitStatus (shield_approval_status entry true))
              | None => mret (Ok tt)
              end;
    match emitted with
    | Err error =>
        _ ← remove_pending token;
        throw (ShieldGateError.mk (lit "shield_approval_event_failed") (lit "ShieldApprovalManager")
                 (lit "Unable to publish Shield Gate status: " ++ error))
    | Panic => lift Panic
    | Ok _ =>
        result ← attempt (decide_request request frozen);
        entry ← remove_pending token;
        _ ← match (entry : option PendingShieldApproval.t) return io GateError (res str unit) with
            | Some entry => ask (EmitStatus (shield_approval_status entry false))
            | None => mret (Ok tt)
            end;
        lift result
    end.

Definition approval_denied : GateError :=
  manager_error "shield_approval_denied"
    "Access denied by the Principal at the Shield Gate approval prompt.".
Definition request_user_approval (request : ApprovalRequest) : io GateError unit :=
  decision ← request_approval request;
  match decision with
  | ShieldApprovalDecision.Approve => mret tt
  | ShieldApprovalDecision.Deny => throw approval_denied
  end.

(** ** An action of the agent loop *)
Definition allows_action (action : Action) (principal : str) : io GateError bool :=
  now ← unix_time_ms_u64;
  locked (trust_lock_failed "Unable to inspect temporary scope trust cache.")
    (on_trust (allows_action_for_principal host now action principal)).

Definition asked_resource (approval : ApprovalRequest) : str :=
  default (ShieldApprovalRequest.action_type approval)
    (first_some (ShieldApprovalRequest.canonical_resource approval)
       (ShieldApprovalRequest.scope_trust_prefix approval)).
(** The grants of the database, with the class filesystem writes had before. *)
Definition durably_authorized (action : Action) (approval : ApprovalRequest) (principal : str)
  : io str bool :=
  let authorize := fun action_class argument_class =>
    authorize principal (ShieldApprovalRequest.project_id approval)
      (ShieldApprovalRequest.task_run_id approval) action_class (asked_resource approval)
      argument_class 1 in
  authorized ← authorize (ShieldApprovalRequest.action_class approval)
                 (ShieldApprovalRequest.argument_class approval);
  if negb authorized && equals (ShieldApprovalRequest.action_class approval) "filesystem_write"
  then
    let legacy_action_class := normalize_action_kind (RequestedAction.kind action) in
    authorize legacy_action_class
      (argument_class legacy_action_class (ShieldApprovalRequest.preview approval))
  else mret authorized.

(** [preflight_action_permission] from the check of grants on; what the loop tells
    the user about an error is left out. *)
Definition ask_unless_granted (action : Action) (approval : ApprovalRequest) (principal : str)
    (requires_one_time_reconfirmation : bool) : io PermissionError.t unit :=
  granted ←
    (if requires_one_time_reconfirmation then mret false
     else
       session ← io_map_err PermissionError.CheckFailed (allows_action action principal);
       durable ← io_map_err PermissionError.StoreFailed
                   (durably_authorized action approval principal);
       mret (session || durable) : io PermissionError.t bool);
  if (granted : bool) then mret tt
  else io_map_err PermissionError.NotGranted (request_user_approval approval).
End Approvals.
