(* ===== verification/ApprovalSystem.v ===== *)
(** * Grants under concurrency

    Requests, actions of the agent loop, uses of grants and revocations as threads
    over one state ([Program.system]), while the rest of the application changes
    projects and tasks and restarts with empty memory.  A thread
    carries the list of what it has come to know ([fact]); the protocol says that
    a grant appears only where the thread that makes it knows of the person's
    decision, and that a use is recorded where it is made. *)
From S2P Require Import Prelude.
From S2P Require Import RustStr.
From S2P Require Import JsonValue.
From S2P Require Import Program.
From S2P Require Import TaskStore.
From S2P Require Import EffectJournal.
From S2P Require Import Authority.
From S2P Require Import ActuationLease.
From S2P Require Import ShieldDecision.
From S2P Require Import TerminalScope.
From S2P Require Import ApprovalScopes.
From S2P Require Import ScopeTrust.
From S2P Require Import ShieldApprovals.
Local Open Scope Z_scope.

Module ShieldJob.
Inductive t : Type :=
  | Ask (action : Action) (approval : ApprovalRequest) (principal : str) (once : bool)
  | Authorize (principal : str) (project_id task_run_id : option str)
      (action_class resource argument_class : str)
  | Request (request : ApprovalRequest)
  | Revoke (grant_id : str) (reason : option str)
  | RevokeSession (grant_id : str)
  | ListSession
  | ListPending.
End ShieldJob.
Notation Job := ShieldJob.t.

Module ShieldReply.
Inductive t : Type :=
  | Asked (r : res PermissionError.t unit)
  | Authorized (r : res str bool)
  | Requested (r : res GateError ShieldApprovalDecision.t)
  | Other.
End ShieldReply.

Section System.
Context `{S : StoreLib} {D : Digest} {U : UnicodeCase} (host : Host) `{C : TerminalCodec}.
Notation Event := (event Call Env Job ShieldReply.t).
Notation prog A := (Program.prog Db Call Env A).

Definition reply {E A} (f : res E A -> ShieldReply.t) (p : io E A) : prog ShieldReply.t :=
  bind (fun r => Ret (f r)) p.
Definition on_session {X} (f : list Trust -> X * list Trust) : io GateError X :=
  locked (trust_lock_failed "Unable to update application-session folder access.")
    (on_trust (fun cache => let '(x, cache) := f cache in (Ok x, cache))).
(** Every caller of [authorize] passes one use. *)
Definition job_body (j : Job) : prog ShieldReply.t :=
  match j with
  | ShieldJob.Ask action approval principal once =>
      reply ShieldReply.Asked (ask_unless_granted host action approval principal once)
  | ShieldJob.Authorize principal project_id task_run_id action_class resource argument_class =>
      reply ShieldReply.Authorized
        (authorize principal project_id task_run_id action_class resource argument_class 1)
  | ShieldJob.Request request => reply ShieldReply.Requested (request_approval request)
  | ShieldJob.Revoke grant_id reason => reply (fun _ => ShieldReply.Other) (revoke grant_id reason)
  | ShieldJob.RevokeSession grant_id =>
      reply (fun _ => ShieldReply.Other) (on_session (revoke_session_grant (trim grant_id)))
  | ShieldJob.ListSession =>
      reply (fun _ => ShieldReply.Other)
        (now ← unix_time_ms_u64; on_session (session_grants now))
  | ShieldJob.ListPending => reply (fun _ => ShieldReply.Other) pending_requests
  end.

(** ** The rest of the application *)
(** Projects and tasks come and go, and a restart empties the memory; grants and
    their audit stay (deleting a project deletes its grants, which is left out). *)
Definition elsewhere (db db' : Db) : Prop :=
  ShieldDb.scopes db' = ShieldDb.scopes db /\
  ShieldDb.audit_rows db' = ShieldDb.audit_rows db /\
  (forall e, e ∈ ShieldDb.session_trust db' -> e ∈ ShieldDb.session_trust db) /\
  ShieldDb.decisions db' ⊆ ShieldDb.decisions db.

(** ** What the person decided *)
Definition same_request (f f' : Frozen) : Prop :=
  FrozenShieldRequest.approval_token f = FrozenShieldRequest.approval_token f' /\
  FrozenShieldRequest.request_sha256 f = FrozenShieldRequest.request_sha256 f' /\
  FrozenShieldRequest.session_id f = FrozenShieldRequest.session_id f' /\
  FrozenShieldRequest.turn_id f = FrozenShieldRequest.turn_id f' /\
  FrozenShieldRequest.generation_token f = FrozenShieldRequest.generation_token f' /\
  FrozenShieldRequest.task_run_id f = FrozenShieldRequest.task_run_id f' /\
  FrozenShieldRequest.action_class f = FrozenShieldRequest.action_class f' /\
  FrozenShieldRequest.normalized_action_kind f = FrozenShieldRequest.normalized_action_kind f' /\
  FrozenShieldRequest.argument_class f = FrozenShieldRequest.argument_class f' /\
  FrozenShieldRequest.argument_sha256 f = FrozenShieldRequest.argument_sha256 f' /\
  FrozenShieldRequest.canonical_resource f = FrozenShieldRequest.canonical_resource f'.

(** The dialog for [request] was shown in some language and the person pressed the
    button for [kind]. *)
Definition pressed (l : list Event) (request : ApprovalRequest) (kind : str) : Prop :=
  exists locale (env : Env) i,
    let copy := prompt_copy request locale in
    Noted (Answered (Prompt request copy) env) ∈ l /\
    (env (Prompt request copy) : PromptEnd.t) = PromptEnd.Response (NSAlertFirstButtonReturn + Z.of_nat i) /\
    ShieldPromptCopy.choices copy !! i = Some (kind, scope_label kind locale).
(** The person allowed the frozen request for [kind]: in a dialog about this very
    request, or about one that froze to the same. *)
Definition allowed_as (l : list Event) (f : Frozen) (kind : str) : Prop :=
  exists shown f',
    pressed l shown kind /\ freeze_request shown = Ok f' /\ same_request f f'.
Definition allowed (l : list Event) (request : ApprovalRequest) (kind : str) : Prop :=
  exists f, freeze_request request = Ok f /\ permits f kind = true /\ allowed_as l f kind.

Definition frozen_of (d : Decided) : Frozen :=
  FrozenShieldRequest.mk (NativeShieldDecision.approval_token d) (NativeShieldDecision.request_sha256 d)
    (NativeShieldDecision.origin_kind d) (NativeShieldDecision.session_id d)
    (NativeShieldDecision.turn_id d) (NativeShieldDecision.generation_token d)
    (NativeShieldDecision.task_run_id d) (NativeShieldDecision.action_class d)
    (NativeShieldDecision.normalized_action_kind d) (NativeShieldDecision.argument_class d)
    (NativeShieldDecision.argument_sha256 d) (NativeShieldDecision.canonical_resource d) [].
Definition decided (l : list Event) (d : Decided) : Prop :=
  NativeShieldDecision.decision d = ShieldApprovalDecision.Approve ->
  allowed_as l (frozen_of d) (NativeShieldDecision.scope_kind d).

(** A grant in the database, and one in memory, as the person gave it. *)
Definition given (l : list Event) (row : Scope) : Prop :=
  exists request,
    allowed l request (ReviewedScope.scope_kind row) /\
    never_reusable request = false /\
    ReviewedScope.scope_kind row <> lit "once" /\
    ReviewedScope.principal row = granted_principal request /\
    ReviewedScope.project_id row = ShieldApprovalRequest.project_id request /\
    ReviewedScope.task_run_id row = ShieldApprovalRequest.task_run_id request /\
    ReviewedScope.action_class row = ShieldApprovalRequest.action_class request /\
    ReviewedScope.argument_class row = ShieldApprovalRequest.argument_class request /\
    ReviewedScope.canonical_resource row = granted_resource request.
Definition entrusted (l : list Event) (e : Trust) : Prop :=
  exists request prefix,
    allowed l request (lit "app_session") /\
    never_reusable request = false /\
    ScopeTrustCache.principal e = granted_principal request /\
    ScopeTrustCache.allowed_operations e =
      [reviewed_action_class (ShieldApprovalRequest.action_type request)] /\
    ShieldApprovalRequest.scope_trust_prefix request = Some prefix /\
    ScopeTrustCache.authorized_prefix e = path_of_str prefix.

(** ** What a thread knows *)
Inductive fact : Type :=
  | Heard (c : Call) (env : Env)
  | Took (d : Decided)
  | Saw (id : str) (row : Scope)
  | Used (row : Scope)
  | Relied (e : Trust).
Definition holds (l : list Event) (f : fact) : Prop :=
  match f with
  | Heard c env => Noted (Answered c env) ∈ l
  | Took d => decided l d
  | Saw _ row | Used row => given l row
  | Relied e => entrusted l e
  end.
(** The same from what a thread has heard. *)
Definition heard (t : list fact) : list Event :=
  omap (fun f => match f with Heard c env => Some (Noted (Answered c env)) | _ => None end) t.

Lemma pressed_mono l l' r k : l ⊆ l' -> pressed l r k -> pressed l' r k.
Proof. intros Hl (locale & env & i & H & ?). exists locale, env, i. split; [by apply Hl|done]. Qed.
Lemma allowed_as_mono l l' f k : l ⊆ l' -> allowed_as l f k -> allowed_as l' f k.
Proof. intros Hl (r & f' & Hp & ?). exists r, f'. split; [by eapply pressed_mono|done]. Qed.
Lemma allowed_mono l l' r k : l ⊆ l' -> allowed l r k -> allowed l' r k.
Proof. intros Hl (f & ? & ? & Ha). exists f. split_and!; [done..|by eapply allowed_as_mono]. Qed.
Lemma given_mono l l' row : l ⊆ l' -> given l row -> given l' row.
Proof. intros Hl (r & Ha & ?). exists r. split; [by eapply allowed_mono|done]. Qed.
Lemma entrusted_mono l l' e : l ⊆ l' -> entrusted l e -> entrusted l' e.
Proof. intros Hl (r & p & Ha & ?). exists r, p. split; [by eapply allowed_mono|done]. Qed.
Lemma decided_mono l l' d : l ⊆ l' -> decided l d -> decided l' d.
Proof. intros Hl Hd Ha. eapply allowed_as_mono; [done|by apply Hd]. Qed.
Lemma holds_mono l l' f : l ⊆ l' -> holds l f -> holds l' f.
Proof.
  intros Hl. destruct f; simpl;
    [by apply Hl|by apply decided_mono|by apply given_mono|by apply given_mono|by apply entrusted_mono].
Qed.
Lemma heard_holds t l : Forall (holds l) t -> heard t ⊆ l.
Proof.
  intros Ht e He. apply list_elem_of_omap in He as (f & Hf & He).
  rewrite list.Forall_forall in Ht. specialize (Ht f Hf). by destruct f; simplify_eq/=.
Qed.

(** Grants that differ in nothing but their use and their end. *)
Definition same_grant (r r' : Scope) : Prop :=
  ReviewedScope.scope_kind r = ReviewedScope.scope_kind r' /\
  ReviewedScope.principal r = ReviewedScope.principal r' /\
  ReviewedScope.project_id r = ReviewedScope.project_id r' /\
  ReviewedScope.task_run_id r = ReviewedScope.task_run_id r' /\
  ReviewedScope.action_class r = ReviewedScope.action_class r' /\
  ReviewedScope.canonical_resource r = ReviewedScope.canonical_resource r' /\
  ReviewedScope.argument_class r = ReviewedScope.argument_class r' /\
  ReviewedScope.max_uses r = ReviewedScope.max_uses r' /\
  ReviewedScope.resource_budget r = ReviewedScope.resource_budget r'.
Lemma same_grant_refl r : same_grant r r.
Proof. by unfold same_grant. Qed.
Lemma same_grant_trans r r' r'' : same_grant r r' -> same_grant r' r'' -> same_grant r r''.
Proof. unfold same_grant. intuition congruence. Qed.
Lemma given_same_grant l r r' : same_grant r r' -> given l r -> given l r'.
Proof.
  intros (Hk & Hp & Hj & Ht & Ha & Hr & Hg & _) (q & Hq & Hn & ? & ? & ? & ? & ? & ? & ?).
  exists q. rewrite <- Hk, <- Hp, <- Hj, <- Ht, <- Ha, <- Hr, <- Hg. done.
Qed.

(** *** The accounts: uses that are recorded *)
Definition is_event (event : string) (id : str) (a : AuditRow) : bool :=
  bool_decide (ApprovalScopeAuditEvent.grant_id a = Some id)
  && equals (ApprovalScopeAuditEvent.event_type a) event.
Definition recorded (event : string) (id : str) (rows : list AuditRow) : nat :=
  length (List.filter (is_event event id) rows).
Definition all_uses (db : Db) : nat :=
  length (List.filter (fun a => equals (ApprovalScopeAuditEvent.event_type a) "used")
            (ShieldDb.audit_rows db)).
Record account (rows : list AuditRow) (id : str) (row : Scope) : Prop := {
  account_uses : ReviewedScope.used_count row = Z.of_nat (recorded "used" id rows);
  account_budget : until_revoked row = false ->
    ReviewedScope.used_count row <= ReviewedScope.max_uses row;
  account_range : 1 <= ReviewedScope.max_uses row <= 10000;
  account_revoked : ReviewedScope.revoked_at_ms row = None -> recorded "revoked" id rows = 0%nat;
}.
Definition no_use_after_revocation (rows : list AuditRow) : Prop :=
  forall id before a after, rows = before ++ a :: after ->
    is_event "used" id a = true -> recorded "revoked" id before = 0%nat.
Record accounts (db : Db) : Prop := {
  accounts_rows : map_Forall (account (ShieldDb.audit_rows db)) (ShieldDb.scopes db);
  accounts_known : forall a id, a ∈ ShieldDb.audit_rows db ->
    ApprovalScopeAuditEvent.grant_id a = Some id -> is_Some (ShieldDb.scopes db !! id);
  accounts_ended : no_use_after_revocation (ShieldDb.audit_rows db);
}.

(** ** The protocol *)
Definition is_use (f : fact) : bool := match f with Used _ => true | _ => false end.
Definition uses (t : list fact) : nat := length (List.filter is_use t).

(** What a critical section may teach. *)
Definition knows (t : list fact) (db : Db) (f : fact) : Prop :=
  match f with
  | Heard _ _ => False
  | Took d => exists id, ShieldDb.decisions db !! id = Some d
  | Saw id row => ShieldDb.scopes db !! id = Some row
  | Used row =>
      exists id row', Saw id row ∈ t /\ ShieldDb.scopes db !! id = Some row' /\
        ReviewedScope.revoked_at_ms row' = None
  | Relied e => e ∈ ShieldDb.session_trust db
  end.
(** The thread has taken an approval of this request for this duration. *)
Definition took_approval (t : list fact) (request : ApprovalRequest) (kind : str) : Prop :=
  exists d f,
    Took d ∈ t /\ NativeShieldDecision.decision d = ShieldApprovalDecision.Approve /\
    NativeShieldDecision.scope_kind d = kind /\
    freeze_request request = Ok f /\ permits f kind = true /\ same_request f (frozen_of d).
Definition may_give (t : list fact) (row : Scope) : Prop :=
  exists request,
    took_approval t request (ReviewedScope.scope_kind row) /\
    never_reusable request = false /\
    ReviewedScope.scope_kind row <> lit "once" /\
    ReviewedScope.principal row = granted_principal request /\
    ReviewedScope.project_id row = ShieldApprovalRequest.project_id request /\
    ReviewedScope.task_run_id row = ShieldApprovalRequest.task_run_id request /\
    ReviewedScope.action_class row = ShieldApprovalRequest.action_class request /\
    ReviewedScope.argument_class row = ShieldApprovalRequest.argument_class request /\
    ReviewedScope.canonical_resource row = granted_resource request.
Definition may_entrust (t : list fact) (e : Trust) : Prop :=
  exists request prefix,
    took_approval t request (lit "app_session") /\
    never_reusable request = false /\
    ScopeTrustCache.principal e = granted_principal request /\
    ScopeTrustCache.allowed_operations e =
      [reviewed_action_class (ShieldApprovalRequest.action_type request)] /\
    ShieldApprovalRequest.scope_trust_prefix request = Some prefix /\
    ScopeTrustCache.authorized_prefix e = path_of_str prefix.
(** The grants a thread has seen are still what they were. *)
Definition sees (t : list fact) (db : Db) : Prop :=
  forall id row, Saw id row ∈ t ->
    exists row', ShieldDb.scopes db !! id = Some row' /\ same_grant row row'.

Record moves (t t' : list fact) (db db' : Db) : Prop := {
  moves_learns : exists new, t' = new ++ t /\ Forall (knows t db) new;
  moves_uses : (uses t' + all_uses db <= uses t + all_uses db')%nat;
  moves_scopes : forall id row', ShieldDb.scopes db' !! id = Some row' ->
    (exists row, ShieldDb.scopes db !! id = Some row /\ same_grant row row') \/ may_give t row';
  moves_keeps : forall id row, ShieldDb.scopes db !! id = Some row ->
    exists row', ShieldDb.scopes db' !! id = Some row' /\ same_grant row row';
  moves_trust : forall e, e ∈ ShieldDb.session_trust db' ->
    e ∈ ShieldDb.session_trust db \/ may_entrust t e;
  moves_decisions : forall id d, ShieldDb.decisions db' !! id = Some d ->
    ShieldDb.decisions db !! id = Some d \/ decided (heard t) d;
  moves_accounts : sees t db -> accounts db -> accounts db';
}.
Definition answers (t : list fact) (c : Call) (env : Env) (t' : list fact) : Prop :=
  t' = Heard c env :: t.

(** ** What an answer needs *)
Definition covers_use (principal : str) (project_id task_run_id : option str)
    (action_class resource argument_class : str) (row : Scope) : Prop :=
  mandatory_reconfirmation action_class = false /\
  concerns principal action_class argument_class row = true /\
  scope_matches project_id task_run_id resource row = true.
Definition covers_action (action : Action) (approval : ApprovalRequest) (principal : str) (row : Scope)
  : Prop :=
  let kind := normalize_action_kind (RequestedAction.kind action) in
  exists action_class argument,
    ((action_class = ShieldApprovalRequest.action_class approval /\
      argument = ShieldApprovalRequest.argument_class approval) \/
     (ShieldApprovalRequest.action_class approval = lit "filesystem_write" /\ action_class = kind /\
      argument = argument_class kind (ShieldApprovalRequest.preview approval))) /\
    covers_use principal (ShieldApprovalRequest.project_id approval)
      (ShieldApprovalRequest.task_run_id approval) action_class (asked_resource approval) argument row.
Definition trusted_for (action : Action) (principal : str) (e : Trust) : Prop :=
  exists operation target,
    scope_trust_action_scope host action = Ok (Some (operation, target)) /\
    trust_covers principal operation target e = true.

Definition grants_use (j : Job) (r : ShieldReply.t) : bool :=
  match j, r with
  | ShieldJob.Authorize _ _ _ _ _ _, ShieldReply.Authorized (Ok true) => true
  | _, _ => false
  end.
Definition returns (j : Job) (t : list fact) (r : ShieldReply.t) : Prop :=
  match j, r with
  | ShieldJob.Authorize principal project_id task_run_id action_class resource argument_class,
    ShieldReply.Authorized (Ok true) =>
      (1 <= uses t)%nat /\
      exists row, Used row ∈ t /\
        covers_use principal project_id task_run_id action_class resource argument_class row
  | ShieldJob.Ask action approval principal once, ShieldReply.Asked (Ok _) =>
      (exists kind, took_approval t approval kind) \/
      (once = false /\
       ((exists e, Relied e ∈ t /\ trusted_for action principal e) \/
        (exists row, Used row ∈ t /\ covers_action action approval principal row)))
  | ShieldJob.Request request, ShieldReply.Requested (Ok ShieldApprovalDecision.Approve) =>
      exists kind, took_approval t request kind
  | _, _ => True
  end.
(** The same, with what is known replaced by what the person did. *)
Definition warranted (l : list Event) (j : Job) (r : ShieldReply.t) : Prop :=
  match j, r with
  | ShieldJob.Authorize principal project_id task_run_id action_class resource argument_class,
    ShieldReply.Authorized (Ok true) =>
      exists row, given l row /\
        covers_use principal project_id task_run_id action_class resource argument_class row
  | ShieldJob.Ask action approval principal once, ShieldReply.Asked (Ok _) =>
      (exists kind, allowed l approval kind) \/
      (once = false /\
       ((exists e, entrusted l e /\ trusted_for action principal e) \/
        (exists row, given l row /\ covers_action action approval principal row)))
  | ShieldJob.Request request, ShieldReply.Requested (Ok ShieldApprovalDecision.Approve) =>
      exists kind, allowed l request kind
  | _, _ => True
  end.
Definition granted_uses (l : list Event) : nat :=
  length (List.filter (fun e => match e with Returned j r => grants_use j r | _ => false end) l).

Record shield_ok (db : Db) (ts : list (option (list fact))) (l : list Event) : Prop := {
  ok_facts : forall n t, ts !! n = Some (Some t) -> Forall (holds l) t /\ sees t db;
  ok_scopes : map_Forall (fun _ row => given l row) (ShieldDb.scopes db);
  ok_trust : forall e, e ∈ ShieldDb.session_trust db -> entrusted l e;
  ok_decisions : map_Forall (fun _ d => decided l d) (ShieldDb.decisions db);
  ok_uses : (held uses ts + granted_uses l <= all_uses db)%nat;
  ok_accounts : accounts db;
  ok_answers : forall j r, Returned j r ∈ l -> warranted l j r;
}.

Lemma same_request_trans f f' f'' : same_request f f' -> same_request f' f'' -> same_request f f''.
Proof. unfold same_request. intuition congruence. Qed.

Lemma took_allowed l t request kind : Forall (holds l) t -> took_approval t request kind -> allowed l request kind.
Proof.
  intros Ht (d & f & Hd & Ha & <- & Hf & Hp & Hs). rewrite list.Forall_forall in Ht.
  destruct (Ht _ Hd Ha) as (shown & f' & Hpr & Hf' & Hsame). exists f. split_and!; [done..|].
  exists shown, f'. split_and!; [done..|by eapply same_request_trans].
Qed.
Lemma may_give_given l t row : Forall (holds l) t -> may_give t row -> given l row.
Proof. intros Ht (r & Ha & ?). exists r. split; [by eapply took_allowed|done]. Qed.
Lemma may_entrust_entrusted l t e : Forall (holds l) t -> may_entrust t e -> entrusted l e.
Proof. intros Ht (r & p & Ha & ?). exists r, p. split; [by eapply took_allowed|done]. Qed.
Lemma returns_warranted l j t r : Forall (holds l) t -> returns j t r -> warranted l j r.
Proof.
  intros Ht Hr. pose proof Ht as Hall. rewrite list.Forall_forall in Hall.
  destruct j, r as [[u|e|]|[[]|e|]|[[]|e|]|]; simpl in *; try done.
  - destruct Hr as [(k & Hk)|(Ho & [(e & He & Hc)|(row & Hrow & Hc)])].
    + left. exists k. by eapply took_allowed.
    + right. split; [done|]. left. exists e. split; [exact (Hall _ He)|done].
    + right. split; [done|]. right. exists row. split; [exact (Hall _ Hrow)|done].
  - destruct Hr as (_ & row & Hrow & Hc). exists row. split; [exact (Hall _ Hrow)|done].
  - destruct Hr as (k & Hk). exists k. by eapply took_allowed.
Qed.
Lemma warranted_mono l l' j r : l ⊆ l' -> warranted l j r -> warranted l' j r.
Proof.
  intros Hl. destruct j, r as [[u|e|]|[[]|e|]|[[]|e|]|]; simpl; try done.
  - intros [(k & Hk)|(Ho & [(e & He & Hc)|(row & Hrow & Hc)])].
    + left. exists k. by eapply allowed_mono.
    + right. split; [done|]. left. exists e. split; [by eapply entrusted_mono|done].
    + right. split; [done|]. right. exists row. split; [by eapply given_mono|done].
  - intros (row & Hrow & Hc). exists row. split; [by eapply given_mono|done].
  - intros (k & Hk). exists k. by eapply allowed_mono.
Qed.

(** ** The protocol is sound *)
Lemma sees_kept t db db' :
  (forall id row, ShieldDb.scopes db !! id = Some row ->
     exists row', ShieldDb.scopes db' !! id = Some row' /\ same_grant row row') ->
  sees t db -> sees t db'.
Proof.
  intros Hk Hs id row Hin. destruct (Hs id row Hin) as (row1 & H1 & Hg).
  destruct (Hk _ _ H1) as (row2 & H2 & Hg2). exists row2. split; [done|by eapply same_grant_trans].
Qed.

Lemma granted_uses_app l l' : granted_uses (l ++ l') = (granted_uses l + granted_uses l')%nat.
Proof. unfold granted_uses. by rewrite List.filter_app, length_app. Qed.

(** Only the log grows, by what is no answer. *)
Lemma shield_ok_log db ts l e :
  match e with Returned _ _ => False | _ => True end ->
  shield_ok db ts l -> shield_ok db ts (l ++ [e]).
Proof.
  intros He [Hf Hs Ht Hd Hu Ha Hr]. assert (l ⊆ l ++ [e]) as Hl by set_solver. constructor; try done.
  - intros n t Hn. destruct (Hf n t Hn) as [Hh Hse]. split; [|done].
    eapply list.Forall_impl; [exact Hh|]. intros f. by apply holds_mono.
  - intros id row Hrow. eapply given_mono; [done|by apply (Hs id)].
  - intros x Hx. eapply entrusted_mono; [done|by apply Ht].
  - intros id d Hid. eapply decided_mono; [done|by apply (Hd id)].
  - rewrite granted_uses_app. destruct e; simpl in *; unfold granted_uses in *; simpl; (done || lia).
  - intros j r [Hin|Hin]%elem_of_app; [by eapply warranted_mono, Hr|].
    apply list_elem_of_singleton in Hin as <-. done.
Qed.
(** Only threads end. *)
Lemma shield_ok_end db ts l n : shield_ok db ts l -> shield_ok db (<[n := None]> ts) l.
Proof.
  intros [Hf Hs Ht Hd Hu Ha Hr]. constructor; try done.
  - intros m t [[_ [=]]|Hm]%lookup_insert_thread. by eapply Hf.
  - pose proof (held_none uses ts n). lia.
Qed.

#[export] Instance shield_sound :
  Sound elsewhere (fun _ : Job => []) moves never_starts answers returns shield_ok.
Proof.
  constructor.
  - intros db ts l j HI. apply shield_ok_log; [done|]. destruct HI as [Hf Hs Ht Hd Hu Ha Hr].
    constructor; try done.
    + intros n t [Hn|(_ & Hn)]%lookup_app_Some; [by eapply Hf|].
      apply list_lookup_singleton_Some in Hn as [_ [= <-]]. split; [done|]. intros id row Hin. set_solver.
    + rewrite held_app. change (uses []) with 0%nat. lia.
  - intros db db' ts l n t t' [Hf Hs Ht Hd Hu Ha Hr] Hn [(new & -> & Hnew) Mu Ms Mk Mt Md Ma].
    destruct (Hf n t Hn) as [Hh Hse].
    assert (Forall (holds l) new) as Hhn.
    { eapply list.Forall_impl; [exact Hnew|]. intros [c env|d|id row|row|e]; simpl.
      - done.
      - intros (id & Hid). by apply (Hd id).
      - intros Hid. by apply (Hs id).
      - intros (id & _ & Hin & _). rewrite list.Forall_forall in Hh. exact (Hh _ Hin).
      - apply Ht. }
    assert (sees new db') as Hsn.
    { intros id row Hin. rewrite list.Forall_forall in Hnew. apply Hnew in Hin. simpl in Hin. by apply Mk. }
    constructor.
    + intros m x [[-> [= <-]]|Hm]%lookup_insert_thread.
      * split; [by apply Forall_app|]. intros id row [Hin|Hin]%elem_of_app; [by apply Hsn|].
        exact (sees_kept t db db' Mk Hse id row Hin).
      * destruct (Hf m x Hm) as [? ?]. split; [done|exact (sees_kept x db db' Mk ltac:(done))].
    + intros id row Hid. destruct (Ms _ _ Hid) as [(row0 & H0 & Hg)|Hg].
      * eapply given_same_grant; [exact Hg|by apply (Hs id)].
      * exact (may_give_given l t row Hh Hg).
    + intros e He. destruct (Mt _ He) as [He0|He0]; [by apply Ht|exact (may_entrust_entrusted l t e Hh He0)].
    + intros id d Hid. destruct (Md _ _ Hid) as [Hid0|Hid0]; [by apply (Hd id)|].
      eapply decided_mono; [|exact Hid0]. by apply heard_holds.
    + pose proof (held_insert uses ts n (Some t) (Some (new ++ t)) Hn) as Hi. simpl in Hi. lia.
    + by apply Ma.
    + done.
  - intros db ts l n t t' c _ _ [].
  - intros db ts l n t t' c env HI Hn ->.
    apply (shield_ok_log _ _ _ (Noted (Answered c env))) in HI; [|done].
    destruct HI as [Hf Hs Ht Hd Hu Ha Hr]. destruct (Hf n t Hn) as [Hh Hse]. constructor; try done.
    + intros m x [[-> [= <-]]|Hm]%lookup_insert_thread; [|by eapply Hf]. split.
      * constructor; [simpl; set_solver|done].
      * intros id row Hin. apply Hse. apply elem_of_cons in Hin as [[=]|Hin]. done.
    + pose proof (held_insert uses ts n (Some t) (Some (Heard c env :: t)) Hn) as Hi.
      change (from_option uses 0%nat (Some (Heard c env :: t))) with (uses t) in Hi. simpl in Hi. lia.
  - intros db ts l n t j r HI Hn Hret. pose proof (ok_facts _ _ _ HI n t Hn) as [Hh _].
    pose proof (held_insert uses ts n (Some t) None Hn) as Hi. simpl in Hi.
    pose proof (ok_uses _ _ _ HI) as Huse.
    destruct (shield_ok_end _ _ _ n HI) as [Hf Hs Ht Hd Hu Ha Hr].
    assert (l ⊆ l ++ [Returned j r]) as Hl by set_solver. constructor; try done.
    + intros m x Hm. destruct (Hf m x Hm) as [Hx Hse]. split; [|done].
      eapply list.Forall_impl; [exact Hx|]. intros f. by apply holds_mono.
    + intros id row Hrow. eapply given_mono; [done|by apply (Hs id)].
    + intros x Hx. eapply entrusted_mono; [done|by apply Ht].
    + intros id d Hid. eapply decided_mono; [done|by apply (Hd id)].
    + rewrite granted_uses_app. unfold granted_uses at 2. simpl.
      destruct (grants_use j r) eqn:Hg; simpl; [|lia].
      assert (1 <= uses t)%nat; [|lia].
      destruct j, r as [[u|e|]|[[]|e|]|[[]|e|]|]; simpl in *; try done. by destruct Hret.
    + intros j' r' [Hin|Hin]%elem_of_app; [by eapply warranted_mono, Hr|].
      apply list_elem_of_singleton in Hin. injection Hin as -> ->.
      eapply warranted_mono; [done|by eapply returns_warranted].
  - intros db ts l n. apply shield_ok_end.
  - intros db db' ts l [Hf Hs Ht Hd Hu Ha Hr] (Es & Ea & Et & Ed). constructor; try done.
    + intros n t Hn. destruct (Hf n t Hn) as [Hh Hse]. split; [done|]. unfold sees in *. by rewrite Es.
    + by rewrite Es.
    + intros e He. by apply Ht, Et.
    + intros id d Hid. apply (Hd id). by eapply lookup_weaken.
    + unfold all_uses in *. by rewrite Ea.
    + destruct Ha as [H1 H2 H3]. constructor; rewrite ?Es, ?Ea; done.
Qed.
End System.
