(* ===== verification/ApprovalAccounts.v ===== *)
(** * What the statements on grants do to the accounts

    Each transaction of [ApprovalScopes] on its own: a use is recorded exactly
    when it counts, nothing is used after its revocation, and a budget is never
    exceeded.  Each is then a move of the protocol of [ApprovalSystem]. *)
From S2P Require Import Prelude.
From S2P Require Import RustStr.
From S2P Require Import JsonValue.
From S2P Require Import ToolSecurity.
From S2P Require Import Program.
From S2P Require Import TaskStore.
From S2P Require Import EffectJournal.
From S2P Require Import Authority.
From S2P Require Import ActuationLease.
From S2P Require Import ShieldDecision.
From S2P Require Import ApprovalScopes.
From S2P Require Import TerminalScope.
From S2P Require Import ScopeTrust.
From S2P Require Import ShieldApprovals.
From S2P Require Import ApprovalSystem.
Local Open Scope Z_scope.

Section Accounts.
Context `{S : StoreLib} {D : Digest}.
Implicit Types (db : Db) (a : AuditRow) (rows : list AuditRow).

Lemma db_eta db : ShieldDb.with_scopes (ShieldDb.scopes db) db = db.
Proof. by destruct db. Qed.

(** ** Recorded events *)
Lemma recorded_snoc event id rows a :
  recorded event id (rows ++ [a]) = (recorded event id rows + if is_event event id a then 1 else 0)%nat.
Proof. unfold recorded. rewrite List.filter_app, length_app. simpl. by destruct (is_event event id a). Qed.
Lemma all_uses_snoc db m a :
  all_uses (ShieldDb.with_audit (ShieldDb.audit_rows db ++ [a]) (ShieldDb.with_scopes m db)) =
  (all_uses db + if equals (ApprovalScopeAuditEvent.event_type a) "used" then 1 else 0)%nat.
Proof. unfold all_uses. simpl. rewrite List.filter_app, length_app. simpl. by destruct (equals _ _). Qed.
Lemma recorded_unknown event id rows :
  (forall a, a ∈ rows -> ApprovalScopeAuditEvent.grant_id a <> Some id) -> recorded event id rows = 0%nat.
Proof.
  intros Hn. unfold recorded. induction rows as [|a rows IH]; [done|]. simpl.
  assert (is_event event id a = false) as ->.
  { unfold is_event. rewrite bool_decide_eq_false_2; [done|]. apply Hn. by left. }
  apply IH. intros b Hb. apply Hn. by right.
Qed.
Lemma is_event_other event id event' id' a :
  ApprovalScopeAuditEvent.grant_id a = id' -> ApprovalScopeAuditEvent.event_type a = event' ->
  is_event event id a = bool_decide (id' = Some id) && equals event' event.
Proof. by intros <- <-. Qed.

Lemma no_use_snoc rows a :
  no_use_after_revocation rows ->
  (forall id, is_event "used" id a = true -> recorded "revoked" id rows = 0%nat) ->
  no_use_after_revocation (rows ++ [a]).
Proof.
  intros Hr Ha id before b after Heq Hb. destruct after as [|x after] using rev_ind.
  - apply app_inj_tail in Heq as [<- <-]. by apply Ha.
  - clear IHafter. assert (rows = before ++ b :: after) as ->.
    { rewrite app_comm_cons, app_assoc in Heq. by apply app_inj_tail in Heq as [-> _]. }
    by eapply Hr.
Qed.

(** One more audit row, next to a change of the grants. *)
Lemma accounts_snoc db m a :
  accounts db ->
  (forall id row', m !! id = Some row' -> account (ShieldDb.audit_rows db ++ [a]) id row') ->
  (forall id, is_Some (ShieldDb.scopes db !! id) -> is_Some (m !! id)) ->
  (forall id, ApprovalScopeAuditEvent.grant_id a = Some id -> is_Some (m !! id)) ->
  (forall id, is_event "used" id a = true -> recorded "revoked" id (ShieldDb.audit_rows db) = 0%nat) ->
  accounts (ShieldDb.with_audit (ShieldDb.audit_rows db ++ [a]) (ShieldDb.with_scopes m db)).
Proof.
  intros [H1 H2 H3] Hrow Hm Hid Hu. constructor; simpl.
  - intros id row. apply Hrow.
  - intros b id [Hb|Hb]%elem_of_app Hg; [by eapply Hm, H2|].
    apply list_elem_of_singleton in Hb as ->. by apply Hid.
  - by apply no_use_snoc.
Qed.

(** An account of a grant the new row is not about, or is about in passing. *)
Lemma account_other rows id row a :
  account rows id row -> is_event "used" id a = false -> is_event "revoked" id a = false ->
  account (rows ++ [a]) id row.
Proof.
  intros [A1 A2 A3 A4] Hu Hr. constructor; try done.
  - rewrite recorded_snoc, Hu, A1. f_equal. lia.
  - intros Hn. rewrite recorded_snoc, Hr, A4 by done. lia.
Qed.

(** ** Auditing *)
Lemma audit_spec now grant_id task event action resource detail db r db' :
  audit now grant_id task event action resource detail db = (r, db') ->
  (db' = db /\ r <> Ok tt) \/
  (r = Ok tt /\
   (forall id, grant_id = Some id -> is_Some (ShieldDb.scopes db !! id)) /\
   exists a, ApprovalScopeAuditEvent.grant_id a = grant_id /\
     ApprovalScopeAuditEvent.event_type a = event /\
     db' = ShieldDb.with_audit (ShieldDb.audit_rows db ++ [a]) db).
Proof.
  unfold audit. destruct (_ && _) eqn:Hc; intros [= <- <-]; [|by left].
  right. split; [done|]. apply andb_true_iff in Hc as [Hc _]. split.
  - intros id ->. by apply bool_decide_eq_true in Hc.
  - eexists (ApprovalScopeAuditEvent.mk _ _ _ _ _ _ _ _). by split_and!.
Qed.

(** An event that is neither a use nor a revocation. *)
Lemma audit_accounts now grant_id task event action resource detail db r db' :
  audit now grant_id task event action resource detail db = (r, db') ->
  equals event "used" = false -> equals event "revoked" = false ->
  (accounts db -> accounts db') /\ all_uses db' = all_uses db /\
  ShieldDb.scopes db' = ShieldDb.scopes db /\ ShieldDb.session_trust db' = ShieldDb.session_trust db /\
  ShieldDb.decisions db' = ShieldDb.decisions db.
Proof.
  intros Ha Hu Hr. apply audit_spec in Ha as [[-> _]|(_ & Hid & a & Hg & He & ->)]; [done|].
  assert (ShieldDb.with_audit (ShieldDb.audit_rows db ++ [a]) db =
          ShieldDb.with_audit (ShieldDb.audit_rows db ++ [a]) (ShieldDb.with_scopes (ShieldDb.scopes db) db))
    as -> by (by destruct db).
  split_and!; try done.
  - intros Hacc. apply accounts_snoc; [done| |done|by intros id Hid'; apply Hid; congruence|].
    + intros id row Hrow. apply account_other; [by apply (accounts_rows _ Hacc id)|..];
        rewrite (is_event_other _ _ event grant_id) by done; rewrite ?Hu, ?Hr; apply andb_false_r.
    + intros id. rewrite (is_event_other _ _ event grant_id) by done. rewrite Hu, andb_false_r. done.
  - rewrite all_uses_snoc, He, Hu. lia.
Qed.

(** ** Using *)
Lemma live_spec now row : live now row = true <->
  ReviewedScope.revoked_at_ms row = None /\ now < ReviewedScope.expires_at_ms row.
Proof. unfold live. rewrite andb_true_iff, bool_decide_eq_true. split; intros [? ?]; split; try done; lia. Qed.

Lemma use_scope_spec now audited_at id row task action resource n db r db' :
  use_scope now audited_at id row task action resource n db = (r, db') ->
  (db' = db /\ r <> Ok true) \/
  (r = Ok true /\ exists row' a,
     ShieldDb.scopes db !! id = Some row' /\ live now row' = true /\
     (until_revoked row = true \/ ReviewedScope.used_count row' + n <= ReviewedScope.max_uses row') /\
     ApprovalScopeAuditEvent.grant_id a = Some id /\
     ApprovalScopeAuditEvent.event_type a = lit "used" /\
     db' = ShieldDb.with_audit (ShieldDb.audit_rows db ++ [a])
             (ShieldDb.with_scopes (<[id := ReviewedScope.use n now row']> (ShieldDb.scopes db)) db)).
Proof.
  unfold use_scope, transaction, mbind, tx_bind, update_scope, change, update_one.
  destruct (ShieldDb.scopes db !! id) as [row'|] eqn:Hid.
  2:{ cbn. rewrite db_eta. intros [= <- <-]. by left. }
  destruct (live now row' && _) eqn:Hc.
  2:{ cbn. rewrite db_eta. intros [= <- <-]. by left. }
  cbn [fst snd Z.eqb]. destruct (audit _ _ _ _ _ _ _ _) as [ra dba] eqn:Ha.
  apply andb_true_iff in Hc as [Hl Hb]. apply audit_spec in Ha as [[-> Hra]|(-> & _ & a & Hg & He & ->)].
  - destruct ra as [[]|e|]; [done|..]; intros [= <- <-]; by left.
  - intros [= <- <-]. right. split; [done|]. exists row', a. split_and!; try done.
    apply orb_true_iff in Hb as [Hb|Hb]; [by left|right; lia].
Qed.

Lemma use_same_grant n now row : same_grant row (ReviewedScope.use n now row).
Proof. by destruct row. Qed.
Lemma revoke_same_grant now row : same_grant row (ReviewedScope.revoke now row).
Proof. by destruct row. Qed.
Lemma same_grant_until row row' : same_grant row row' -> until_revoked row = until_revoked row'.
Proof. intros (Hk & _ & _ & _ & _ & _ & _ & _ & Hb). unfold until_revoked. by rewrite Hk, Hb. Qed.

Lemma use_scope_accounts now audited_at id row row0 task action resource db db' :
  use_scope now audited_at id row task action resource 1 db = (Ok true, db') ->
  ShieldDb.scopes db !! id = Some row0 -> same_grant row row0 ->
  accounts db -> accounts db' /\ all_uses db' = (all_uses db + 1)%nat.
Proof.
  intros Hu Hid Hg Hacc. apply use_scope_spec in Hu as [[_ ?]|(_ & row' & a & Hid' & Hl & Hb & Ha & He & ->)];
    [done|].
  assert (row' = row0) as -> by congruence. apply live_spec in Hl as [Hnr _].
  pose proof (accounts_rows _ Hacc id _ Hid) as [A1 A2 A3 A4].
  split.
  - apply accounts_snoc; [done|..].
    + intros id' row' Hrow'. destruct (decide (id' = id)) as [->|Hne].
      * rewrite lookup_insert_eq in Hrow'. injection Hrow' as <-. constructor; simpl.
        -- rewrite recorded_snoc. unfold is_event at 1. rewrite Ha, He. rewrite bool_decide_eq_true_2 by done.
           change (equals (lit "used") "used") with true. cbn [andb]. rewrite A1. lia.
        -- intros Hur. destruct Hb as [Hb|Hb]; [|done].
           rewrite (same_grant_until _ _ Hg) in Hb. unfold until_revoked in *. simpl in *. congruence.
        -- done.
        -- intros _. rewrite recorded_snoc, A4 by done. unfold is_event. rewrite He.
           change (equals (lit "used") "revoked") with false. by rewrite andb_false_r.
      * rewrite lookup_insert_ne in Hrow' by done. apply account_other.
        -- by apply (accounts_rows _ Hacc id').
        -- unfold is_event. rewrite Ha, bool_decide_eq_false_2 by congruence. done.
        -- unfold is_event. rewrite Ha, bool_decide_eq_false_2 by congruence. done.
    + intros id' Hs. apply lookup_insert_is_Some'. by right.
    + intros id' Hs. rewrite Ha in Hs. injection Hs as <-. rewrite lookup_insert_eq. by eexists.
    + intros id' Hue. unfold is_event in Hue. apply andb_true_iff in Hue as [Hue _].
      apply bool_decide_eq_true in Hue. rewrite Ha in Hue. injection Hue as <-. by apply A4.
  - rewrite all_uses_snoc, He. change (equals (lit "used") "used") with true. done.
Qed.

(** ** Granting and revoking *)
Definition grant_tx (id : str) (row : Scope) (audited_at : Z) (task : option str)
    (action resource : str) (detail : Value) : tx unit :=
  transaction (
    _ ← insert_scope id row;
    audit audited_at (Some id) task (lit "granted") action resource detail).
Lemma grant_tx_spec id row audited_at task action resource detail db r db' :
  grant_tx id row audited_at task action resource detail db = (r, db') ->
  (db' = db /\ r <> Ok tt) \/
  (r = Ok tt /\ ShieldDb.scopes db !! id = None /\
   exists a, ApprovalScopeAuditEvent.grant_id a = Some id /\
     ApprovalScopeAuditEvent.event_type a = lit "granted" /\
     db' = ShieldDb.with_audit (ShieldDb.audit_rows db ++ [a])
             (ShieldDb.with_scopes (<[id := row]> (ShieldDb.scopes db)) db)).
Proof.
  unfold grant_tx, transaction, mbind, tx_bind, insert_scope.
  destruct (ShieldDb.scopes db !! id) eqn:Hid; [intros [= <- <-]; by left|].
  destruct (_ && _); [|intros [= <- <-]; by left]. destruct (audit _ _ _ _ _ _ _ _) as [ra dba] eqn:Ha.
  apply audit_spec in Ha as [[-> Hra]|(-> & _ & a & Hg & He & ->)].
  - destruct ra as [[]|e|]; [done|..]; intros [= <- <-]; by left.
  - intros [= <- <-]. right. split_and!; [done..|]. exists a. done.
Qed.
Lemma grant_tx_accounts id row audited_at task action resource detail db db' :
  grant_tx id row audited_at task action resource detail db = (Ok tt, db') ->
  ReviewedScope.used_count row = 0 -> 1 <= ReviewedScope.max_uses row <= 10000 ->
  accounts db -> accounts db' /\ all_uses db' = all_uses db.
Proof.
  intros Hg Hz Hm Hacc. apply grant_tx_spec in Hg as [[_ ?]|(_ & Hid & a & Ha & He & ->)]; [done|].
  assert (forall event, recorded event id (ShieldDb.audit_rows db) = 0%nat) as Hnone.
  { intros event. apply recorded_unknown. intros b Hb Hbg.
    destruct (accounts_known _ Hacc b id Hb Hbg) as [? Hs]. congruence. }
  assert (forall event id', equals (lit "granted") event = false -> is_event event id' a = false) as Hev.
  { intros event id' Hne. rewrite (is_event_other _ _ (lit "granted") (Some id)) by done.
    by rewrite Hne, andb_false_r. }
  split.
  - apply accounts_snoc; [done|..].
    + intros id' row' Hrow'. destruct (decide (id' = id)) as [->|Hne].
      * rewrite lookup_insert_eq in Hrow'. injection Hrow' as <-. constructor; simpl.
        -- rewrite recorded_snoc, Hnone, Hev by done. done.
        -- lia.
        -- done.
        -- intros _. by rewrite recorded_snoc, Hnone, Hev by done.
      * rewrite lookup_insert_ne in Hrow' by done.
        apply account_other; [by apply (accounts_rows _ Hacc id')|by apply Hev..].
    + intros id' Hs. apply lookup_insert_is_Some'. by right.
    + intros id' Hs. rewrite Ha in Hs. injection Hs as <-. rewrite lookup_insert_eq. by eexists.
    + intros id' Hue. by rewrite Hev in Hue.
  - rewrite all_uses_snoc, He. change (equals (lit "granted") "used") with false. apply Nat.add_0_r.
Qed.

Definition revoke_tx (grant_id : str) (reason : option str) (now audited_at : Z) : tx unit :=
  transaction (
    binding ← select (fun db =>
      match ShieldDb.scopes db !! grant_id with
      | Some row => if bool_decide (ReviewedScope.revoked_at_ms row = None) then Some row else None
      | None => None
      end);
    match (binding : option Scope) with
    | None => tx_err (lit "Approval scope was not found or is already revoked.")
    | Some row =>
        _ ← update_scope grant_id (fun _ => true) (ReviewedScope.revoke now);
        audit audited_at (Some grant_id) (ReviewedScope.task_run_id row) (lit "revoked")
          (ReviewedScope.action_class row) (ReviewedScope.canonical_resource row)
          (json_obj [("reason"%string, Value.String (default (lit "manual_revocation") reason))])
    end).
Lemma revoke_tx_spec id reason now audited_at db r db' :
  revoke_tx id reason now audited_at db = (r, db') ->
  (db' = db /\ r <> Ok tt) \/
  (r = Ok tt /\ exists row a, ShieldDb.scopes db !! id = Some row /\
     ReviewedScope.revoked_at_ms row = None /\
     ApprovalScopeAuditEvent.grant_id a = Some id /\
     ApprovalScopeAuditEvent.event_type a = lit "revoked" /\
     db' = ShieldDb.with_audit (ShieldDb.audit_rows db ++ [a])
             (ShieldDb.with_scopes (<[id := ReviewedScope.revoke now row]> (ShieldDb.scopes db)) db)).
Proof.
  unfold revoke_tx, transaction, mbind, tx_bind, select, tx_err, update_scope, change, update_one.
  destruct (ShieldDb.scopes db !! id) as [row|] eqn:Hid; [|intros [= <- <-]; by left].
  destruct (bool_decide _) eqn:Hn; [|intros [= <- <-]; by left]. apply bool_decide_eq_true in Hn.
  cbn [fst snd]. destruct (audit _ _ _ _ _ _ _ _) as [ra dba] eqn:Ha.
  apply audit_spec in Ha as [[-> Hra]|(-> & _ & a & Hg & He & ->)].
  - destruct ra as [[]|e|]; [done|..]; intros [= <- <-]; by left.
  - intros [= <- <-]. right. split; [done|]. exists row, a. by rewrite Hid; split_and!.
Qed.
Lemma revoke_tx_accounts id reason now audited_at db db' :
  revoke_tx id reason now audited_at db = (Ok tt, db') ->
  accounts db -> accounts db' /\ all_uses db' = all_uses db.
Proof.
  intros Hg Hacc. apply revoke_tx_spec in Hg as [[_ ?]|(_ & row & a & Hid & Hn & Ha & He & ->)]; [done|].
  pose proof (accounts_rows _ Hacc id _ Hid) as [A1 A2 A3 A4].
  assert (forall id', is_event "used" id' a = false) as Hev.
  { intros id'. rewrite (is_event_other _ _ (lit "revoked") (Some id)) by done. apply andb_false_r. }
  split.
  - apply accounts_snoc; [done|..].
    + intros id' row' Hrow'. destruct (decide (id' = id)) as [->|Hne].
      * rewrite lookup_insert_eq in Hrow'. injection Hrow' as <-. constructor; simpl.
        -- rewrite recorded_snoc, Hev, A1. f_equal. lia.
        -- exact A2.
        -- done.
        -- done.
      * rewrite lookup_insert_ne in Hrow' by done. apply account_other; [by apply (accounts_rows _ Hacc id')|done|].
        rewrite (is_event_other _ _ (lit "revoked") (Some id)) by done.
        rewrite bool_decide_eq_false_2 by congruence. done.
    + intros id' Hs. apply lookup_insert_is_Some'. by right.
    + intros id' Hs. rewrite Ha in Hs. injection Hs as <-. rewrite lookup_insert_eq. by eexists.
    + intros id' Hue. by rewrite Hev in Hue.
  - rewrite all_uses_snoc, He. change (equals (lit "revoked") "used") with false. apply Nat.add_0_r.
Qed.
End Accounts.

(** ** The critical sections of the gate keep to the protocol

    Each statement of [ApprovalScopes] and each change of a map in memory is a move
    of [ApprovalSystem]. *)
(** ** Moves *)
Section Moves.
Context `{S : StoreLib} {D : Digest} {U : UnicodeCase} (host : Host) `{C : TerminalCodec}.
Implicit Types (db : Db) (t : list fact).

(** Nothing but facts that are no uses. *)
Lemma moves_teach t new db db' :
  Forall (knows t db) new -> uses new = 0%nat -> elsewhere db db' -> moves t (new ++ t) db db'.
Proof.
  intros Hn Hu (Es & Ea & Et & Ed). constructor.
  - by exists new.
  - unfold all_uses. rewrite Ea. unfold uses in *. rewrite List.filter_app, length_app. lia.
  - intros id row. rewrite Es. intros H. left. exists row. by split; [|apply same_grant_refl].
  - intros id row. rewrite Es. intros H. exists row. by split; [|apply same_grant_refl].
  - intros e He. left. by apply Et.
  - intros id d Hid. left. by eapply lookup_weaken.
  - intros _ [H1 H2 H3]. constructor; rewrite ?Es, ?Ea; done.
Qed.
Lemma moves_quiet t db db' : elsewhere db db' -> moves t t db db'.
Proof. intros H. by apply (moves_teach t []). Qed.
Lemma elsewhere_refl db : elsewhere db db.
Proof. by split_and!. Qed.
Lemma moves_same t db : moves t t db db.
Proof. apply moves_quiet, elsewhere_refl. Qed.

Lemma moves_subseteq t t' db db' : moves t t' db db' -> t ⊆ t'.
Proof. intros [(new & -> & _) _ _ _ _ _ _]. set_solver. Qed.

(** Memory: one more grant, one more decision. *)
Lemma moves_entrust t db e :
  may_entrust t e -> moves t t db (ShieldDb.with_trust (ShieldDb.session_trust db ++ [e]) db).
Proof.
  intros He. constructor; simpl; try done.
  - by exists [].
  - intros id row H. left. exists row. by split; [|apply same_grant_refl].
  - intros id row H. exists row. by split; [|apply same_grant_refl].
  - intros x [Hx|Hx]%elem_of_app; [by left|]. apply list_elem_of_singleton in Hx as ->. by right.
  - intros id d Hd. by left.
  - by intros _ [H1 H2 H3].
Qed.
Lemma moves_decide t db id d :
  decided (heard t) d -> moves t t db (ShieldDb.with_decisions (<[id := d]> (ShieldDb.decisions db)) db).
Proof.
  intros Hd. constructor; simpl; try done.
  - by exists [].
  - intros k row H. left. exists row. by split; [|apply same_grant_refl].
  - intros k row H. exists row. by split; [|apply same_grant_refl].
  - intros x Hx. by left.
  - intros k d' [[-> ->]|[_ Hk]]%lookup_insert_Some; [by right|by left].
  - by intros _ [H1 H2 H3].
Qed.

(** The database: an audit row, a use, a grant, a revocation. *)
Lemma moves_audit t now grant_id task event action resource detail db :
  equals event "used" = false -> equals event "revoked" = false ->
  moves t t db (audit now grant_id task event action resource detail db).2.
Proof.
  intros Hu Hr. destruct (audit _ _ _ _ _ _ _ db) as [r db'] eqn:Ha.
  apply audit_accounts in Ha as (Hacc & Huse & Hs & Ht & Hd); [|done..]. constructor; simpl.
  - by exists [].
  - lia.
  - intros id row. rewrite Hs. intros H. left. exists row. by split; [|apply same_grant_refl].
  - intros id row. rewrite Hs. intros H. exists row. by split; [|apply same_grant_refl].
  - rewrite Ht. by left.
  - rewrite Hd. by left.
  - done.
Qed.

Lemma rows_kept (m : gmap str Scope) id row row' :
  m !! id = Some row -> same_grant row row' ->
  (forall k r, <[id := row']> m !! k = Some r -> exists r0, m !! k = Some r0 /\ same_grant r0 r) /\
  (forall k r, m !! k = Some r -> exists r', <[id := row']> m !! k = Some r' /\ same_grant r r').
Proof.
  intros Hid Hg. split.
  - intros k r [[-> ->]|[Hne Hk]]%lookup_insert_Some; [by exists row|].
    exists r. split; [done|apply same_grant_refl].
  - intros k r Hk. destruct (decide (k = id)) as [->|Hne].
    + exists row'. rewrite lookup_insert_eq. split; [done|]. congruence.
    + exists r. rewrite lookup_insert_ne by done. split; [done|apply same_grant_refl].
Qed.

Lemma moves_use t now audited_at id row task action resource db r db' :
  Saw id row ∈ t ->
  use_scope now audited_at id row task action resource 1 db = (r, db') ->
  (r <> Ok true /\ db' = db) \/ (r = Ok true /\ moves t (Used row :: t) db db').
Proof.
  intros Hsaw Hu. pose proof Hu as Hspec.
  apply use_scope_spec in Hspec as [[-> ?]|(-> & row' & a & Hid & Hl & _ & _ & He & Hdb)]; [by left|].
  right. split; [done|]. apply live_spec in Hl as [Hnr _].
  destruct (rows_kept (ShieldDb.scopes db) id row' _ Hid (use_same_grant 1 now row')) as [Hb Hf].
  constructor.
  - exists [Used row]. split; [done|]. constructor; [|done]. by exists id, row'.
  - rewrite Hdb, all_uses_snoc, He. change (equals (lit "used") "used") with true.
    unfold uses. simpl. lia.
  - rewrite Hdb. simpl. intros k x Hk. left. by apply Hb.
  - rewrite Hdb. simpl. exact Hf.
  - rewrite Hdb. simpl. by left.
  - rewrite Hdb. simpl. by left.
  - intros Hse Hacc. destruct (Hse _ _ Hsaw) as (row0 & H0 & Hg). by eapply use_scope_accounts.
Qed.

Lemma moves_grant t id row audited_at task action resource detail db :
  may_give t row -> ReviewedScope.used_count row = 0 -> 1 <= ReviewedScope.max_uses row <= 10000 ->
  moves t t db (grant_tx id row audited_at task action resource detail db).2.
Proof.
  intros Hm Hz Hr. destruct (grant_tx _ _ _ _ _ _ _ db) as [r db'] eqn:Hg. simpl.
  pose proof Hg as Hs. apply grant_tx_spec in Hs as [[-> _]|(-> & Hid & a & _ & He & Hdb)];
    [apply moves_same|].
  pose proof (grant_tx_accounts _ _ _ _ _ _ _ _ _ Hg Hz Hr) as Hacc.
  constructor.
  - by exists [].
  - rewrite Hdb, all_uses_snoc, He. change (equals (lit "granted") "used") with false. cbn [Nat.add]. lia.
  - rewrite Hdb. simpl. intros k x [[-> <-]|[_ Hk]]%lookup_insert_Some; [by right|].
    left. exists x. split; [done|apply same_grant_refl].
  - rewrite Hdb. simpl. intros k x Hk. exists x. split; [|apply same_grant_refl].
    rewrite lookup_insert_ne; [done|congruence].
  - rewrite Hdb. simpl. by left.
  - rewrite Hdb. simpl. by left.
  - intros _ Ha. by apply Hacc.
Qed.

Lemma moves_revoke t id reason now audited_at db :
  moves t t db (revoke_tx id reason now audited_at db).2.
Proof.
  destruct (revoke_tx _ _ _ _ db) as [r db'] eqn:Hg. simpl.
  pose proof Hg as Hs. apply revoke_tx_spec in Hs as [[-> _]|(-> & row & a & Hid & _ & _ & He & Hdb)];
    [apply moves_same|].
  pose proof (revoke_tx_accounts _ _ _ _ _ _ Hg) as Hacc.
  destruct (rows_kept (ShieldDb.scopes db) id row _ Hid (revoke_same_grant now row)) as [Hb Hf].
  constructor.
  - by exists [].
  - rewrite Hdb, all_uses_snoc, He. change (equals (lit "revoked") "used") with false. cbn [Nat.add]. lia.
  - rewrite Hdb. simpl. intros k x Hk. left. by apply Hb.
  - rewrite Hdb. simpl. exact Hf.
  - rewrite Hdb. simpl. by left.
  - rewrite Hdb. simpl. by left.
  - intros _ Ha. by apply Hacc.
Qed.
End Moves.
