(* ===== verification/ApprovalGate.v ===== *)
(** * What the operations of the gate do to a thread's knowledge

    [spec t p P]: whatever the answers and however the statements of other threads
    come between, [p] keeps to the protocol of [ApprovalSystem] from the facts [t],
    forgets none of them, and when it succeeds with [a] the facts satisfy [P]
    with [a].  Every job keeps to it, which gives the invariant of the system. *)
From stdpp Require Import sorting.
From S2P Require Import Prelude.
From S2P Require Import RustStr.
From S2P Require Import JsonValue.
From S2P Require Import ToolSecurity.
From S2P Require Import Program.
From S2P Require Import TaskStore.
From S2P Require Import EffectJournal.
From S2P Require Import Authority.
From S2P Require Import ActuationLease.
From S2P Require Import ShieldDecision.
From S2P Require Import ApprovalScopes.
From S2P Require Import TerminalScope.
From S2P Require Import ScopeTrust.
From S2P Require Import ShieldApprovals.
From S2P Require Import ApprovalSystem.
From S2P Require Import ApprovalAccounts.
Local Open Scope Z_scope.

Section Specs.
Context `{S : StoreLib} {D : Digest} {U : UnicodeCase} (host : Host) `{C : TerminalCodec}.
Implicit Types (db : Db) (t : list fact).

Definition spec {E A} : list fact -> io E A -> (list fact -> A -> Prop) -> Prop :=
  learns moves answers.
#[export] Instance gate_growing : Growing moves answers.
Proof. constructor; [apply moves_subseteq|]. intros t t' c env ->. set_solver. Qed.

(** ** Rules *)
Lemma spec_weaken {E A} t (p : io E A) (P P' : list fact -> A -> Prop) :
  spec t p P -> (forall t' a, t ⊆ t' -> P t' a -> P' t' a) -> spec t p P'.
Proof. apply learns_weaken. Qed.
Lemma spec_bind {E A B} t (f : A -> io E B) (p : io E A) P (P' : list fact -> B -> Prop) :
  spec t p P -> (forall t' a, t ⊆ t' -> P t' a -> spec t' (f a) P') -> spec t (p ≫= f) P'.
Proof. apply learns_bind. Qed.
Lemma spec_lift {E A} t (r : res E A) (P : list fact -> A -> Prop) :
  (forall a, r = Ok a -> P t a) -> spec t (lift r) P.
Proof. apply learns_lift. Qed.
Lemma spec_mret {E A} t (a : A) (P : list fact -> A -> Prop) : P t a -> spec t (mret a : io E A) P.
Proof. apply learns_mret. Qed.
Lemma spec_throw {E A} t (e : E) (P : list fact -> A -> Prop) : spec t (throw e) P.
Proof. apply learns_throw. Qed.
Lemma spec_clock {E} t (P : list fact -> Z -> Prop) :
  (forall n, P t n) -> spec t (unix_time_ms_i64 : io E Z) P.
Proof. apply learns_clock. Qed.
Lemma spec_clock_u64 {E} t (P : list fact -> Z -> Prop) :
  (forall n, P t n) -> spec t (unix_time_ms_u64 : io E Z) P.
Proof. apply learns_clock. Qed.
Lemma spec_bytes {E} t (P : list fact -> list Z -> Prop) :
  (forall b, P t b) -> spec t (random_bytes : io E (list Z)) P.
Proof. apply learns_bytes. Qed.
Lemma spec_ask {E} t (c : Call) (P : list fact -> Reply c -> Prop) :
  (forall env : Env, P (Heard c env :: t) (env c)) -> spec t (ask c : io E _) P.
Proof.
  intros H. apply (learns_await moves answers t c (fun env => Ok (env c))). intros env.
  exists (Heard c env :: t). split; [done|]. intros x [= <-]. apply H.
Qed.
Lemma spec_map_err {E E' A} t (f : E -> E') (p : io E A) P : spec t p P -> spec t (io_map_err f p) P.
Proof. apply learns_map_err. Qed.
Lemma spec_attempt {E E' A} t (p : io E A) (P : list fact -> A -> Prop) :
  spec t p P ->
  spec t (attempt p : io E' _) (fun t' r => match r with Ok a => P t' a | _ => True end).
Proof. apply learns_attempt. Qed.
Lemma spec_sql {X} t (q : Db -> res str X * Db) (P : list fact -> X -> Prop) :
  (forall db, exists t', moves t t' db (q db).2 /\ forall x, (q db).1 = Ok x -> P t' x) ->
  spec t (sql q) P.
Proof. apply (learns_sql _ _). Qed.
Lemma spec_locked {E X} t (e : E) (f : Db -> res E X * Db) (P : list fact -> X -> Prop) :
  (forall db, exists t', moves t t' db (f db).2 /\ forall x, (f db).1 = Ok x -> P t' x) ->
  spec t (locked e f) P.
Proof. apply (learns_locked _ _). Qed.
Lemma spec_critical {E X} t (f : Db -> X * Db) (P : list fact -> X -> Prop) :
  (forall db, exists t', moves t t' db (f db).2 /\ P t' (f db).1) ->
  spec t (critical f : io E X) P.
Proof. apply (learns_critical _ _). Qed.
End Specs.

(** Steps that teach nothing. *)
Ltac gate_step :=
  match goal with
  | |- spec _ (_ ≫= _) _ => eapply (spec_bind _ _ _ (fun _ _ => True)); [|intros ? ? ? _]
  | |- spec _ (mret _) _ => apply spec_mret
  | |- spec _ (throw _) _ => apply spec_throw
  | |- spec _ unix_time_ms_i64 _ => by apply spec_clock
  | |- spec _ unix_time_ms_u64 _ => by apply spec_clock_u64
  | |- spec _ random_bytes _ => by apply spec_bytes
  | |- spec _ (ask _) _ => by apply spec_ask
  | |- spec _ (io_map_err _ _) _ => apply spec_map_err
  | |- spec _ (lift _) (fun _ _ => True) => by apply spec_lift
  end.
Ltac gate := repeat gate_step.

Section Operations.
Context `{S : StoreLib} {D : Digest} {U : UnicodeCase} (host : Host) `{C : TerminalCodec}.
Implicit Types (db : Db) (t : list fact).

(** ** Grants of the database *)
Lemma spec_audit t now grant_id task event action resource detail (P : list fact -> unit -> Prop) :
  equals event "used" = false -> equals event "revoked" = false -> P t tt ->
  spec t (sql (audit now grant_id task event action resource detail)) P.
Proof.
  intros Hu Hr HP. apply spec_sql. intros db. exists t. split; [by apply moves_audit|by intros []].
Qed.
Lemma spec_select {X} t (f : Db -> X) : spec t (sql (select f)) (fun _ _ => True).
Proof. apply spec_sql. intros db. exists t. split; [apply moves_same|done]. Qed.

Lemma spec_select_live t now principal action_class argument_class :
  spec t (sql (select_live now principal action_class argument_class))
    (fun t' rows => Forall (fun '(id, row) =>
       Saw id row ∈ t' /\ concerns principal action_class argument_class row = true) rows).
Proof.
  apply spec_sql. intros db. unfold select_live, select. cbn [fst snd].
  set (rows := merge_sort _ _).
  assert (Forall (fun '(id, row) => ShieldDb.scopes db !! id = Some row /\
            concerns principal action_class argument_class row = true) rows) as Hrows.
  { apply list.Forall_forall. intros [id row] Hin. unfold rows in Hin.
    rewrite merge_sort_Permutation in Hin. apply list_elem_of_In, filter_In in Hin as [Hin Hc].
    apply list_elem_of_In, elem_of_map_to_list in Hin. apply andb_true_iff in Hc as [Hc _]. done. }
  exists (map (fun '(id, row) => Saw id row) rows ++ t). split.
  - apply moves_teach; [| |apply elsewhere_refl].
    + apply Forall_map. eapply list.Forall_impl; [exact Hrows|]. by intros [id row] [H _].
    + unfold uses. clear. by induction rows as [|[id row] rows IH].
  - intros x [= <-]. rewrite list.Forall_forall in Hrows |- *. intros [id row] Hin. split.
    + apply elem_of_app. left. apply list_elem_of_fmap. by exists (id, row).
    + by apply (Hrows _ Hin).
Qed.

(** A use of a grant the thread has seen. *)
Lemma spec_use t now audited_at id row task action resource :
  Saw id row ∈ t ->
  spec t (sql (use_scope now audited_at id row task action resource 1))
    (fun t' b => b = true -> Used row ∈ t').
Proof.
  intros Hs. apply spec_sql. intros db.
  destruct (use_scope _ _ _ _ _ _ _ _ db) as [r db'] eqn:Hu. simpl.
  destruct (moves_use t _ _ _ _ _ _ _ _ _ _ Hs Hu) as [[Hr ->]|[-> Hm]].
  - exists t. split; [apply moves_same|]. by intros b -> ->.
  - exists (Used row :: t). split; [done|]. intros b _ _. by left.
Qed.

Lemma spec_use_first t now project_id task_run_id principal action_class resource argument_class rows :
  mandatory_reconfirmation action_class = false ->
  Forall (fun '(id, row) =>
    Saw id row ∈ t /\ concerns principal action_class argument_class row = true) rows ->
  spec t (use_first now project_id task_run_id action_class resource 1 rows) (fun t' b => b = true ->
    exists row, Used row ∈ t' /\
      covers_use principal project_id task_run_id action_class resource argument_class row).
Proof.
  intros Hmr. revert t. induction rows as [|[id row] rows IH]; intros t Hrows; [by apply spec_mret|].
  apply Forall_cons_iff in Hrows as [[Hsaw Hc] Hrows]. cbn [use_first].
  destruct (_ && _) eqn:Hm; [|by apply IH]. apply andb_true_iff in Hm as [Hm _].
  gate_step; [gate_step|]. eapply spec_bind; [apply spec_use; set_solver|]. intros t1 [] Ht1 Hused; simpl.
  - apply spec_mret. intros _. exists row. split; [by apply Hused|done].
  - apply IH. eapply list.Forall_impl; [exact Hrows|]. intros [id' row'] [? ?]. split; [|done]. set_solver.
Qed.

Lemma spec_authorize t principal project_id task_run_id action_class resource argument_class :
  spec t (authorize principal project_id task_run_id action_class resource argument_class 1)
    (fun t' b => b = true -> exists row, Used row ∈ t' /\
       covers_use principal project_id task_run_id action_class resource argument_class row).
Proof.
  unfold authorize. destruct (mandatory_reconfirmation action_class) eqn:Hm.
  { gate_step; [gate_step|]. gate_step; [by apply spec_audit|]. by apply spec_mret. }
  gate_step; [gate_step|]. eapply spec_bind; [apply spec_select_live|]. intros t1 rows Ht1 Hrows.
  eapply spec_bind; [eapply spec_use_first; [done|exact Hrows]|]. intros t2 [] Ht2 Hused; [by apply spec_mret; intros _; apply Hused|].
  gate_step; [apply spec_select|]. gate_step; [gate_step|].
  gate_step; [apply spec_audit; [by case_bool_decide..|done]|].
  gate_step; [destruct task_run_id; by gate_step|]. by apply spec_mret.
Qed.

Lemma spec_revoke t grant_id reason : spec t (revoke grant_id reason) (fun _ _ => True).
Proof.
  unfold revoke. gate_step; [gate_step|]. gate_step; [gate_step|]. apply spec_sql. intros db. eexists.
  split; [exact (moves_revoke _ grant_id reason _ _ db)|done].
Qed.

Lemma spec_grant t approval selection :
  took_approval t approval (selected_kind selection) ->
  spec t (grant approval selection) (fun _ _ => True).
Proof.
  intros Hd. unfold grant.
  destruct (_ || negb (ScopeTrustApprovalRequest.enabled selection)) eqn:He; [by gate_step|].
  apply orb_false_iff in He as [Honce _].
  destruct (never_reusable approval) eqn:Hn; [by gate_step|].
  destruct (negb _); [by gate_step|]. gate_step; [gate_step|]. gate_step; [by apply spec_lift|].
  destruct (_ && _); [by gate_step|]. destruct (_ && _); [by gate_step|].
  gate_step; [gate_step|]. gate_step; [gate_step|]. gate_step; [|by gate_step].
  apply spec_sql. intros db. eexists. split; [|done].
  eapply (moves_grant _ _ (granted_row approval _ _ _ _)); [|done|].
  - exists approval. split; [|by split_and!; try (intros Hk; apply equals_eq in Hk; simpl in Hk; congruence)].
    destruct Hd as (d & f & Hd & ?). exists d, f. split; [set_solver|done].
  - unfold granted_row, clamp. simpl. lia.
Qed.
End Operations.

(** ** The gate keeps its promises

    The dialog, the decision and what is recorded of it, as triples; then every job of [ApprovalSystem], and with them the
    invariant of the system. *)
Section Gate.
Context `{S : StoreLib} {D : Digest} {U : UnicodeCase} (host : Host) `{C : TerminalCodec}.
Implicit Types (db : Db) (t : list fact).

Lemma heard_mono t t' : t ⊆ t' -> heard t ⊆ heard t'.
Proof.
  intros Ht e He. apply list_elem_of_omap in He as (f & Hf & He).
  apply list_elem_of_omap. exists f. split; [by apply Ht|done].
Qed.
Lemma took_mono t t' request kind : t ⊆ t' -> took_approval t request kind -> took_approval t' request kind.
Proof. intros Ht (d & f & Hd & ?). exists d, f. split; [by apply Ht|done]. Qed.

(** ** The dialog *)
Lemma approved_button code first choices kind :
  selection_for_prompt_response code first choices =
    NativeShieldPromptSelection.mk ShieldApprovalDecision.Approve kind ->
  exists i label, code = first + Z.of_nat i /\ choices !! i = Some (kind, label).
Proof.
  unfold selection_for_prompt_response. destruct (_ || _) eqn:Hr; [done|].
  destruct (choices !! _) as [[k label]|] eqn:Hc; [|done]. intros [= ->].
  exists (Z.to_nat (code - first)), label. split; [lia|done].
Qed.
Lemma spec_dialog t request locale :
  spec t (request_native_selection request locale) (fun t' s =>
    NativeShieldPromptSelection.decision s = ShieldApprovalDecision.Approve ->
    pressed (heard t') request (NativeShieldPromptSelection.scope_kind s)).
Proof.
  unfold request_native_selection.
  set (copy := prompt_copy request locale).
  eapply (spec_bind _ _ _ (fun t' ended => exists env : Env,
    Heard (Prompt request copy) env ∈ t' /\ ended = env (Prompt request copy))).
  { apply spec_ask. intros env. exists env. split; [by left|done]. }
  intros t' ended _ (env & Hin & ->). apply spec_lift. intros [[] kind] Hs Ha; [|done].
  destruct (env (Prompt request copy) : PromptEnd.t) as [| | | | | | | |code] eqn:He; try done.
  injection Hs as Hs. apply approved_button in Hs as (i & label & -> & Hi).
  exists locale, env, i. split_and!; [|done|].
  - apply list_elem_of_omap. by exists (Heard (Prompt request copy) env).
  - cbn in Hi |- *. rewrite list_lookup_fmap in Hi |- *.
    destruct (ShieldApprovalRequest.approval_scope_kinds request !! i); simplify_eq/=. done.
Qed.

(** ** The decision *)
Lemma spec_issue t request frozen actor_id selection :
  freeze_request request = Ok frozen ->
  (NativeShieldPromptSelection.decision selection = ShieldApprovalDecision.Approve ->
   pressed (heard t) request (NativeShieldPromptSelection.scope_kind selection)) ->
  spec t (issue frozen actor_id selection) (fun _ _ => True).
Proof.
  intros Hf Hp. unfold issue.
  eapply (spec_bind _ _ _ (fun t' _ => t' = t)); [by apply spec_clock_u64|]. intros _ now _ ->.
  eapply (spec_bind _ _ _ (fun t' _ => t' = t)); [by apply spec_bytes|]. intros _ bytes _ ->.
  apply spec_locked. intros db. exists t. split; [|done].
  destruct (issue_after_native_presence _ _ _ _ _ _) as [[id ds]|e|] eqn:Hi; cbn [snd];
    [|apply moves_same..].
  unfold issue_after_native_presence in Hi. apply bind_Ok in Hi as (actor & _ & Hi).
  apply bind_Ok in Hi as ([] & _ & Hi). apply bind_Ok in Hi as ([] & _ & Hi). cbv zeta in Hi.
  injection Hi as <- <-. apply moves_decide. intros Ha. cbn in Ha |- *.
  exists request, frozen. split; [by apply Hp|]. split; [done|]. by destruct frozen.
Qed.

Lemma bound_to_same frozen actor_id d :
  bound_to frozen actor_id d = true ->
  same_request frozen (frozen_of d) /\ permits frozen (NativeShieldDecision.scope_kind d) = true.
Proof.
  unfold bound_to. rewrite !andb_true_iff, !bool_decide_eq_true. intros H.
  split; [|tauto]. unfold same_request. cbn. intuition congruence.
Qed.
Lemma spec_consume t request frozen decision_id actor_id :
  freeze_request request = Ok frozen ->
  spec t (consume_decision decision_id frozen actor_id) (fun t' d =>
    NativeShieldDecision.decision d = ShieldApprovalDecision.Approve ->
    took_approval t' request (NativeShieldDecision.scope_kind d)).
Proof.
  intros Hf. unfold consume_decision.
  eapply (spec_bind _ _ _ (fun t' _ => t' = t)); [by apply spec_clock_u64|]. intros _ now _ ->.
  apply spec_locked. intros db. unfold consume.
  destruct (_ ≫= _) as [[id actor]|e|]; [|exists t; split; [destruct db; apply moves_same|done]..].
  destruct (ShieldDb.decisions db !! id) as [d|] eqn:Hd;
    [|exists t; split; [destruct db; apply moves_same|done]].
  exists (Took d :: t). cbn [fst snd]. split.
  - apply (moves_teach t [Took d]); [|done|].
    + constructor; [by exists id|done].
    + split_and!; [done..|]. apply delete_subseteq.
  - intros d' Hd'. apply map_err_Ok in Hd'. unfold check_decision in Hd'.
    apply bind_Ok in Hd' as ([] & _ & Hd'). apply bind_Ok in Hd' as ([] & Hb%ensure_Ok & Hd').
    injection Hd' as <-. intros Ha. destruct (bound_to_same _ _ _ Hb) as [Hs Hp].
    exists d, frozen. split_and!; try done. by left.
Qed.

(** ** What is recorded of an approval *)
Lemma session_grant_cache now now' bytes approval selection cache r cache' :
  grant_from_approval_with_id now now' bytes approval selection cache = (r, cache') ->
  cache' = cache \/ exists e prefix, cache' = cache ++ [e] /\
    never_reusable approval = false /\
    ScopeTrustCache.principal e = granted_principal approval /\
    ScopeTrustCache.allowed_operations e =
      [reviewed_action_class (ShieldApprovalRequest.action_type approval)] /\
    ShieldApprovalRequest.scope_trust_prefix approval = Some prefix /\
    ScopeTrustCache.authorized_prefix e = path_of_str prefix.
Proof.
  unfold grant_from_approval_with_id. destruct selection as [selection|]; [|intros [= <- <-]; by left].
  destruct (negb _); [intros [= <- <-]; by left|].
  destruct (session_trust_terms approval selection) as [[prefix app]|e|] eqn:Ht;
    [|intros [= <- <-]; by left..].
  unfold session_trust_terms in Ht. apply bind_Ok in Ht as ([] & Hn%guard_not_Ok & Ht). cbv zeta in Ht.
  apply bind_Ok in Ht as ([] & _ & Ht). apply bind_Ok in Ht as ([] & _ & Ht).
  apply bind_Ok in Ht as (p & Hp%ok_or_Ok & Ht). injection Ht as -> _.
  intros [= <- <-]. right. eexists _, prefix. split; [reflexivity|]. by split_and!.
Qed.
Lemma spec_grant_session t request selection :
  took_approval t request (lit "app_session") ->
  spec t (grant_session_trust request selection) (fun _ _ => True).
Proof.
  intros Hd. unfold grant_session_trust. do 2 (gate_step; [gate_step|]). gate_step; [gate_step|].
  apply spec_locked. intros db. eexists. split; [|done]. unfold on_trust.
  destruct (grant_from_approval_with_id _ _ _ _ _ _) as [r cache] eqn:Hg. cbn [fst snd].
  apply session_grant_cache in Hg as [->|(e & prefix & -> & Hn & ?)].
  - assert (ShieldDb.with_trust (ShieldDb.session_trust db) db = db) as -> by (by destruct db).
    apply moves_same.
  - apply moves_entrust. exists request, prefix. split; [|done]. eapply took_mono; [|done]. set_solver.
Qed.
Lemma spec_apply_selection t request kind :
  took_approval t request kind -> spec t (apply_native_scope_selection request kind) (fun _ _ => True).
Proof.
  intros Hd. unfold apply_native_scope_selection. destruct (equals kind "once"); [by gate_step|].
  destruct (equals kind "app_session") eqn:Hk.
  - apply equals_eq in Hk as ->. gate_step; [by apply spec_grant_session|by gate_step].
  - gate_step; [|by gate_step]. apply spec_map_err. by apply spec_grant.
Qed.

Lemma spec_decide t request frozen :
  freeze_request request = Ok frozen ->
  spec t (decide_request request frozen) (fun t' d =>
    d = ShieldApprovalDecision.Approve -> exists kind, took_approval t' request kind).
Proof.
  intros Hf. unfold decide_request. gate_step; [gate_step|]. gate_step; [by apply spec_lift|].
  gate_step; [gate_step|]. eapply spec_bind; [apply spec_dialog|]. intros t1 selection _ Hsel.
  gate_step; [by eapply spec_issue|].
  eapply spec_bind; [by eapply spec_consume|]. intros t2 d _ Hd. gate_step; [by apply spec_lift|].
  eapply (spec_bind _ _ _ (fun _ _ => True)).
  - destruct (NativeShieldDecision.decision d) eqn:He; [|by gate_step]. apply spec_apply_selection.
    eapply took_mono; [|by apply Hd]. set_solver.
  - intros t3 [] Ht3 _. apply spec_mret. intros Ha. eexists. eapply took_mono; [|by apply Hd]. set_solver.
Qed.

(** ** Requests and actions *)
Lemma spec_pending {X} t (f : Db -> X * Db) :
  (forall db, elsewhere db (f db).2) -> spec t (critical f : io GateError X) (fun _ _ => True).
Proof. intros H. apply spec_critical. intros db. exists t. split; [by apply moves_quiet|done]. Qed.
Lemma spec_request t request :
  spec t (request_approval request) (fun t' d =>
    d = ShieldApprovalDecision.Approve -> exists kind, took_approval t' request kind).
Proof.
  unfold request_approval. eapply spec_bind; [by apply (spec_lift _ _ (fun _ f => freeze_request request = Ok f)); intros f Hf; apply map_err_Ok in Hf|].
  intros t0 frozen _ Hf. cbv zeta. gate_step; [gate_step|].
  gate_step; [apply spec_pending; intros db; by destruct (ShieldDb.pending db !! _)|].
  destruct (negb _); [by gate_step|]. gate_step; [by apply spec_pending|].
  gate_step; [match goal with |- context [match ?x with _ => _ end] => destruct x end; by gate_step|].
  match goal with |- context [match ?x with _ => _ end] => destruct x as [u|e|] end.
  - eapply spec_bind; [by eapply spec_attempt, spec_decide|]. intros t1 result Ht1 Hr.
    gate_step; [by apply spec_pending|].
    gate_step; [match goal with |- context [match ?x with _ => _ end] => destruct x end; by gate_step|].
    apply spec_lift. intros d -> Hd. destruct (Hr Hd) as (kind & Hk). exists kind.
    eapply took_mono; [|exact Hk]. set_solver.
  - gate_step; [by apply spec_pending|]. by gate_step.
  - by apply spec_lift.
Qed.

Lemma spec_user_approval t request :
  spec t (request_user_approval request) (fun t' _ => exists kind, took_approval t' request kind).
Proof.
  unfold request_user_approval. eapply spec_bind; [apply spec_request|]. intros t' [] _ Hd; [|by gate_step].
  apply spec_mret. by apply Hd.
Qed.

Lemma spec_allows t action principal :
  spec t (allows_action host action principal) (fun t' b => b = true ->
    exists e, Relied e ∈ t' /\ trusted_for host action principal e).
Proof.
  unfold allows_action. gate_step; [gate_step|]. apply spec_locked. intros db.
  unfold on_trust, allows_action_for_principal.
  assert (ShieldDb.with_trust (ShieldDb.session_trust db) db = db) as Hid by (by destruct db).
  destruct (scope_trust_action_scope host action) as [[[operation target]|]|e|] eqn:Hs;
    cbn [fst snd]; [|rewrite ?Hid; eexists; (split; [apply moves_same|by intros b [= <-]])..].
  set (kept := unexpired _ _).
  assert (forall x, x ∈ kept -> x ∈ ShieldDb.session_trust db) as Hk.
  { intros x Hx. apply list_elem_of_In, filter_In in Hx as [Hx _]. by apply list_elem_of_In. }
  destruct (existsb (trust_covers principal operation target) kept) eqn:He.
  - apply existsb_exists in He as (x & Hx & Hc). apply list_elem_of_In in Hx.
    exists (Relied x :: t'). split; [|intros b _ _; exists x; split; [by left|by exists operation, target]].
    apply (moves_teach t' [Relied x]); [|done|by split_and!]. constructor; [by apply Hk|done].
  - exists t'. split; [apply moves_quiet; by split_and!|]. by intros b [= <-].
Qed.

Lemma spec_durable t action approval principal :
  spec t (durably_authorized action approval principal) (fun t' b => b = true ->
    exists row, Used row ∈ t' /\ covers_action action approval principal row).
Proof.
  unfold durably_authorized. eapply spec_bind; [apply spec_authorize|]. intros t1 b Ht1 Hb.
  destruct b; cbn [negb andb].
  - apply spec_mret. intros _. destruct (Hb eq_refl) as (row & Hr & Hc). exists row.
    split; [done|]. eexists _, _. split; [by left|done].
  - destruct (equals _ _) eqn:Hw; [|by apply spec_mret]. apply equals_eq in Hw.
    eapply spec_weaken; [apply spec_authorize|]. intros t2 b Ht2 Hb2 ->.
    destruct (Hb2 eq_refl) as (row & Hr & Hc). exists row. split; [done|].
    eexists _, _. split; [by right|done].
Qed.

Lemma spec_preflight t action approval principal once :
  spec t (ask_unless_granted host action approval principal once) (fun t' _ =>
    returns host (ShieldJob.Ask action approval principal once) t' (ShieldReply.Asked (Ok tt))).
Proof.
  unfold ask_unless_granted.
  eapply (spec_bind _ _ _ (fun t' b => b = true -> once = false /\
     ((exists e, Relied e ∈ t' /\ trusted_for host action principal e) \/
      (exists row, Used row ∈ t' /\ covers_action action approval principal row)))).
  - destruct once; [by apply spec_mret|].
    eapply spec_bind; [apply spec_map_err, spec_allows|]. intros t1 b1 Ht1 H1.
    eapply spec_bind; [apply spec_map_err, spec_durable|]. intros t2 b2 Ht2 H2.
    apply spec_mret. intros [->| ->]%orb_true_iff; (split; [done|]).
    + left. destruct (H1 eq_refl) as (e & He & ?). exists e. split; [by apply Ht2|done].
    + right. by apply H2.
  - intros t1 [] Ht1 Hg; [apply spec_mret; simpl; right; by apply Hg|].
    eapply spec_weaken; [apply spec_map_err, spec_user_approval|]. intros t2 [] Ht2 Hk. by left.
Qed.

(** ** Every job *)
Lemma uses_elem row t : Used row ∈ t -> (1 <= uses t)%nat.
Proof.
  unfold uses. induction t as [|f t IH]; [by intros ?%not_elem_of_nil|].
  intros [<-|Hin]%elem_of_cons; simpl; [lia|]. specialize (IH Hin). destruct (is_use f); simpl; lia.
Qed.
Lemma wp_reply {E A} t (f : res E A -> ShieldReply.t) (p : io E A) P (Q : list fact -> ShieldReply.t -> Prop) :
  spec t p P -> (forall t' a, P t' a -> Q t' (f (Ok a))) ->
  (forall t' e, Q t' (f (Err e))) -> (forall t', Q t' (f Panic)) ->
  wp moves never_starts answers t (reply f p) Q.
Proof. intros Hp Ho He Hx. apply wp_bind. eapply wp_mono, Hp. intros t' [a|e|] [_ Ha]; simpl; auto. Qed.

Lemma spec_session {X} t (f : list Trust -> X * list Trust) :
  (forall cache e, e ∈ (f cache).2 -> e ∈ cache) -> spec t (on_session f) (fun _ _ => True).
Proof.
  intros Hf. apply spec_locked. intros db. exists t. split; [|done]. apply moves_quiet. unfold on_trust.
  specialize (Hf (ShieldDb.session_trust db)). destruct (f _) as [x cache]. by split_and!.
Qed.
Lemma kept_elem {A} (p : A -> bool) l x : x ∈ List.filter p l -> x ∈ l.
Proof. intros Hx. apply list_elem_of_In, filter_In in Hx as [Hx _]. by apply list_elem_of_In. Qed.

Lemma every_job_keeps (j : Job) : wp moves never_starts answers [] (job_body host j) (returns host j).
Proof.
  destruct j as [action approval principal once|principal project_id task_run_id action_class resource
    argument_class|request|grant_id reason|grant_id| |]; cbn [job_body].
  - eapply wp_reply; [apply spec_preflight|by intros t' []|done|done].
  - eapply wp_reply; [apply spec_authorize| |done|done]. intros t' [] Hb; [|done].
    destruct (Hb eq_refl) as (row & Hr & Hc). split; [by eapply uses_elem|by exists row].
  - eapply wp_reply; [apply spec_request| |done|done]. intros t' [] Hd; [by apply Hd|done].
  - by eapply wp_reply; [apply spec_revoke|..].
  - eapply wp_reply; [apply spec_session|done..]. intros cache e. apply kept_elem.
  - eapply wp_reply; [|done..]. gate_step; [gate_step|]. apply spec_session. intros cache e. apply kept_elem.
  - by eapply wp_reply; [by apply spec_pending|..].
Qed.

(** A database in which nothing was granted yet. *)
Definition fresh (db : Db) : Prop :=
  ShieldDb.scopes db = ∅ /\ ShieldDb.audit_rows db = [] /\
  ShieldDb.session_trust db = [] /\ ShieldDb.decisions db = ∅.
Lemma gate_invariant db s :
  fresh db -> reachable (job_body host) elsewhere db s ->
  exists ts, shield_ok host (database s) ts (log s).
Proof.
  intros (Es & Ea & Et & Ed) Hr. revert Hr. eapply protocol; [exact (shield_sound host)|exact every_job_keeps|].
  constructor.
  - by intros n t Hn.
  - by rewrite Es.
  - intros e. rewrite Et. by intros ?%not_elem_of_nil.
  - by rewrite Ed.
  - change (0 <= all_uses db)%nat. lia.
  - constructor; rewrite ?Es, ?Ea; [done| |].
    + by intros a id Ha%not_elem_of_nil.
    + by intros id [|] a after.
  - by intros j r ?%not_elem_of_nil.
Qed.
End Gate.
