(* ===== verification/ApprovalTheorems.v ===== *)
(** * Actions go on only when somebody allowed them

    What [ApprovalGate.gate_invariant] means for the actions of the agent loop, for
    the uses of grants and for their budgets, with a schedule that takes an action
    through the dialog and two more through the grant it left. *)
From stdpp Require Import sorting.
From S2P Require Import Prelude.
From S2P Require Import RustStr.
From S2P Require Import JsonValue.
From S2P Require Import Program.
From S2P Require Import TaskStore.
From S2P Require Import EffectJournal.
From S2P Require Import Authority.
From S2P Require Import TerminalContract.
From S2P Require Import ActuationLease.
From S2P Require Import ShieldDecision.
From S2P Require Import ApprovalScopes.
From S2P Require Import TerminalScope.
From S2P Require Import ScopeTrust.
From S2P Require Import ShieldApprovals.
From S2P Require Import ApprovalSystem.
From S2P Require Import ApprovalGate.
Local Open Scope Z_scope.

Section Safety.
Context `{S : StoreLib} {D : Digest} {U : UnicodeCase} (host : Host) `{C : TerminalCodec}.


(** C12: a use of a grant is always of one that was given, and it is recorded: the
    successful answers of [authorize] so far are no more than the uses in the audit, and
    each of them has a grant the person gave that is for this principal, class of action
    and arguments, whose task, folder or resource contains what was asked, and whose
    class is not one that must be confirmed every time. *)
Theorem grants_used_were_given db s principal project_id task_run_id action_class resource argument_class :
  fresh db -> reachable (job_body host) elsewhere db s ->
  Returned (ShieldJob.Authorize principal project_id task_run_id action_class resource argument_class)
    (ShieldReply.Authorized (Ok true)) ∈ log s ->
  (granted_uses (log s) <= all_uses (database s))%nat /\
  exists row, given (log s) row /\
    covers_use principal project_id task_run_id action_class resource argument_class row.
Proof.
  intros Hf Hr Hin. destruct (gate_invariant host db s Hf Hr) as (ts & HI).
  split; [pose proof (ok_uses _ _ _ _ HI); lia|exact (ok_answers _ _ _ _ HI _ _ Hin)].
Qed.

(** C8: budgets are kept. In every state each grant was given by the person and counts
    exactly its recorded uses; unless it lasts until revoked they are no more than its
    budget, which is between one and ten thousand; and no use is recorded after a
    revocation of the same grant. *)
Theorem budgets_are_kept db s :
  fresh db -> reachable (job_body host) elsewhere db s ->
  (forall id row, ShieldDb.scopes (database s) !! id = Some row ->
     given (log s) row /\
     ReviewedScope.used_count row = Z.of_nat (recorded "used" id (ShieldDb.audit_rows (database s))) /\
     (until_revoked row = false -> ReviewedScope.used_count row <= ReviewedScope.max_uses row) /\
     1 <= ReviewedScope.max_uses row <= 10000) /\
  no_use_after_revocation (ShieldDb.audit_rows (database s)).
Proof.
  intros Hf Hr. destruct (gate_invariant host db s Hf Hr) as (ts & HI).
  destruct (ok_accounts _ _ _ _ HI) as [Ha _ Hn]. split; [|done]. intros id row Hid.
  destruct (Ha id row Hid) as [A1 A2 A3 _]. split; [exact (ok_scopes _ _ _ _ HI id row Hid)|done].
Qed.
End Safety.

(** ** One dialog, two uses, a revocation *)

(** An assistant asks to write into a folder; the person answers "until revoked". *)
Module Folder.
Import IntegerJson.
Import PlainStore.
#[export] Instance digest : Digest := fun bytes =>
  let h := foldl (fun a b => (257 * a + b + 1) mod 2 ^ 61) 1 bytes in
  map (fun n => Z.shiftr h (8 * Z.of_nat n) mod 256) (seq 0 8).
#[export] Instance ascii : UnicodeCase := {|
  ShieldDecision.is_lowercase c := in_range 97 122 c;
  ShieldDecision.is_uppercase c := in_range 65 90 c;
|}.
(** Commands as the numbers of their countable encoding. *)
#[export] Instance request_eq_dec : EqDecision TerminalRequest.
Proof. solve_decision. Defined.
#[export] Instance request_countable : Countable TerminalRequest.
Proof.
  refine (inj_countable'
    (fun r => (NativeTerminalRequest.executable r, NativeTerminalRequest.args r,
               map_to_list (NativeTerminalRequest.env r), NativeTerminalRequest.cwd r,
               NativeTerminalRequest.timeout r))
    (fun '(executable, args, env, cwd, timeout) =>
       NativeTerminalRequest.mk executable args (list_to_map env) cwd timeout) _).
  intros []. cbn. by rewrite list_to_map_to_list.
Defined.
#[export] Instance codec : TerminalCodec.
Proof.
  refine {| read_terminal_request s := match s with [Zpos p] => decode p | _ => None end;
            write_terminal_request r := [Zpos (encode r)] |}.
  intros r. apply decode_encode.
Defined.

Definition folder : str := lit "/Users/ada/docs".
Definition note : str := lit "/Users/ada/docs/note.md".
Definition action : Action :=
  RequestedAction.mk (lit "file_write") None (Some note) (Some (lit "hello")).
Definition approval (token : string) : ApprovalRequest :=
  ShieldApprovalRequest.mk (lit token) None None None (lit "file_write") (lit "Write a file")
    (Some note) None (lit "high") (lit "Writes a file.") None 900 (lit "hello") (lit "Write note.md")
    (lit "") (lit "visual_consent") (lit "prompt") None true (Some folder)
    DEFAULT_SCOPE_TRUST_DURATION_MS None None (lit "filesystem_write") (lit "filesystem_write")
    (Some note) false [lit "once"; lit "app_session"; lit "persistent"].
(** The third button. *)
Definition env : Env := fun c =>
  match c with
  | CurrentActor => Ok (lit "ada")
  | ActiveLocale => Some (lit "en-US")
  | EmitStatus _ => Ok tt
  | Prompt _ _ => PromptEnd.Response 1002
  | RecordEvent _ _ _ => tt
  end.
Definition db0 : Db := ShieldDb.mk _ ∅ [] ∅ ∅ [] ∅ ∅.
Definition ask_again (token : string) : Job :=
  ShieldJob.Ask action (approval token) (lit "local_principal") false.
Definition use_it : Job :=
  ShieldJob.Authorize (lit "local_principal") None None (lit "filesystem_write")
    (lit "/Users/ada/docs/other.md") (lit "filesystem_write").
Notation sys := (system Db Call Env Job ShieldReply.t).
Definition body : Job -> Program.prog Db Call Env ShieldReply.t := job_body Desk.host.
Definition run_job (at_ms n : Z) (j : Job) (s : sys) : sys :=
  drive body at_ms [n] env 200 (length (threads s)) (spawned body j s).
Definition granted : sys := run_job 1000 1 (ask_again "first") (started_from db0).
Definition grant_id : str :=
  match map_to_list (ShieldDb.scopes (database granted)) with (id, _) :: _ => id | [] => [] end.
Definition used : sys := run_job 3000 3 use_it (run_job 2000 2 (ask_again "second") granted).
Definition revoked : sys :=
  run_job 5000 5 use_it (run_job 4000 4 (ShieldJob.Revoke grant_id None) used).

Lemma run_job_steps at_ms n j s : rtc (step body elsewhere) s (run_job at_ms n j s).
Proof. transitivity (spawned body j s); [apply spawned_steps|apply drive_steps]. Qed.
Lemma granted_reachable : reachable body elsewhere db0 granted.
Proof. apply run_job_steps. Qed.
Lemma used_reachable : reachable body elsewhere db0 used.
Proof.
  unfold reachable. transitivity granted; [apply granted_reachable|].
  etransitivity; [apply run_job_steps|apply run_job_steps].
Qed.
Lemma revoked_reachable : reachable body elsewhere db0 revoked.
Proof.
  unfold reachable. transitivity used; [apply used_reachable|].
  etransitivity; [apply run_job_steps|apply run_job_steps].
Qed.
Lemma fresh_db0 : fresh db0.
Proof. by split_and!. Qed.

(** What a log says: the jobs that were let through, and how many dialogs were shown. *)
Definition said (e : event Call Env Job ShieldReply.t) : option string :=
  match e with
  | Returned _ (ShieldReply.Asked (Ok _)) => Some "asked"
  | Returned _ (ShieldReply.Authorized (Ok true)) => Some "authorized"
  | Returned _ (ShieldReply.Authorized (Ok false)) => Some "not authorized"
  | Returned _ ShieldReply.Other => Some "done"
  | Returned _ _ => Some "failed"
  | Noted (Answered (Prompt _ _) _) => Some "dialog"
  | _ => None
  end%string.
Lemma story : omap said (log revoked) =
  ["dialog"; "asked"; "asked"; "authorized"; "done"; "not authorized"]%string.
Proof. vm_compute. reflexivity. Qed.

Lemma second_asked : exists a r p,
  Returned (ShieldJob.Ask a r p false) (ShieldReply.Asked (Ok tt)) ∈ log used /\
  ShieldApprovalRequest.approval_token r = lit "second".
Proof.
  assert (match log used !! 8%nat with
          | Some (Returned (ShieldJob.Ask _ r _ false) (ShieldReply.Asked (Ok tt))) =>
              str_eqb (ShieldApprovalRequest.approval_token r) (lit "second")
          | _ => false
          end = true) as H by (vm_compute; reflexivity).
  destruct (log used !! 8%nat) as [[|?|[a r p []|?|?|?|?| |] [[[]|?|]|?|?|]]|] eqn:E; try discriminate H.
  exists a, r, p. split; [exact (list_elem_of_lookup_2 _ _ _ E)|by apply str_eqb_eq].
Qed.
Lemma use_authorized : exists p k r g,
  Returned (ShieldJob.Authorize p None None k r g) (ShieldReply.Authorized (Ok true)) ∈ log used.
Proof.
  assert (match log used !! 10%nat with
          | Some (Returned (ShieldJob.Authorize _ None None _ _ _) (ShieldReply.Authorized (Ok true))) => true
          | _ => false
          end = true) as H by (vm_compute; reflexivity).
  destruct (log used !! 10%nat) as [[|?|[?|p [] [] k r g|?|?|?| |] [?|[[]|?|]|?|]]|] eqn:E; try discriminate H.
  exists p, k, r, g. exact (list_elem_of_lookup_2 _ _ _ E).
Qed.
End Folder.

Import IntegerJson PlainStore Folder.


Lemma grants_used_were_given_witness :
  (granted_uses (log used) <= all_uses (database used))%nat /\
  granted_uses (log used) = 1%nat /\ all_uses (database used) = 2%nat /\
  exists p k r g row, given (log used) row /\ covers_use p None None k r g row.
Proof.
  destruct use_authorized as (p & k & r & g & Hin).
  destruct (grants_used_were_given Desk.host db0 used p None None k r g fresh_db0 used_reachable Hin)
    as (Hle & row & Hg & Hc).
  split; [exact Hle|]. split; [vm_compute; reflexivity|]. split; [vm_compute; reflexivity|].
  exists p, k, r, g, row. split; [exact Hg|exact Hc].
Defined.

(** Two uses, then the revocation; nothing after it. *)
Lemma budgets_are_kept_witness :
  map (fun '(_, row) => (ReviewedScope.used_count row, ReviewedScope.max_uses row,
                         recorded "used" grant_id (ShieldDb.audit_rows (database revoked)),
                         recorded "revoked" grant_id (ShieldDb.audit_rows (database revoked))))
    (map_to_list (ShieldDb.scopes (database revoked))) = [(2, 500, 2%nat, 1%nat)] /\
  no_use_after_revocation (ShieldDb.audit_rows (database revoked)).
Proof.
  split; [vm_compute; reflexivity|].
  exact (proj2 (budgets_are_kept Desk.host db0 revoked fresh_db0 revoked_reachable)).
Defined.

(** * The list of grants ([approval_scopes.rs], [dashboard])

    What the settings show of the reviewed grants and of their audit, and what the
    limit of the query leaves out. *)
Module ReviewedApprovalGrant.
Record t : Type := mk {
  grant_id : str;
  scope_kind : str;
  principal : str;
  project_id : option str;
  task_run_id : option str;
  action_class : str;
  canonical_resource : str;
  argument_class : str;
  expires_at_ms : Z;
  max_uses : Z;
  used_count : Z;
  reviewed_at_ms : Z;
  revoked_at_ms : option Z;
  active : bool;
}.
End ReviewedApprovalGrant.
Module ApprovalScopeFilter.
Record t : Type := mk { project_id : option str; task_run_id : option str }.
End ApprovalScopeFilter.
Module ApprovalScopeDashboard.
Record t `{J : JsonLib} : Type := mk {
  grants : list ReviewedApprovalGrant.t;
  audit_events : list AuditRow;
}.
End ApprovalScopeDashboard.

Section Dashboard.
Context `{S : StoreLib}.
Implicit Types db : Db.

Definition limit : nat := 250.
Definition as_u32 (n : Z) : Z := n mod 2 ^ 32.
Definition shown_grant (now : Z) (entry : str * Scope) : ReviewedApprovalGrant.t :=
  let '(id, row) := entry in
  ReviewedApprovalGrant.mk id (ReviewedScope.scope_kind row) (ReviewedScope.principal row)
    (ReviewedScope.project_id row) (ReviewedScope.task_run_id row) (ReviewedScope.action_class row)
    (ReviewedScope.canonical_resource row) (ReviewedScope.argument_class row)
    (ReviewedScope.expires_at_ms row) (as_u32 (ReviewedScope.max_uses row))
    (as_u32 (ReviewedScope.used_count row)) (ReviewedScope.reviewed_at_ms row)
    (ReviewedScope.revoked_at_ms row) (live now row).
Definition none_or_equal (wanted value : option str) : bool :=
  match wanted with Some _ => bool_decide (value = wanted) | None => true end.
Definition in_filter (filter : ApprovalScopeFilter.t) (grant : ReviewedApprovalGrant.t) : bool :=
  none_or_equal (ApprovalScopeFilter.project_id filter) (ReviewedApprovalGrant.project_id grant)
  && none_or_equal (ApprovalScopeFilter.task_run_id filter) (ReviewedApprovalGrant.task_run_id grant).

#[local] Existing Instance newer_dec.
(** [.. ORDER BY reviewed_at_ms DESC LIMIT 250] *)
Definition select_grants (now : Z) : tx (list ReviewedApprovalGrant.t) :=
  select (fun db => map (shown_grant now)
    (take limit (merge_sort newer (map_to_list (ShieldDb.scopes db))))).
Definition later_event (a b : AuditRow) : Prop :=
  ApprovalScopeAuditEvent.created_at_ms b <= ApprovalScopeAuditEvent.created_at_ms a.
#[local] Instance later_event_dec a b : Decision (later_event a b).
Proof. unfold later_event. apply _. Defined.
Definition select_events : tx (list AuditRow) :=
  select (fun db => take limit (merge_sort later_event (ShieldDb.audit_rows db))).
Definition dashboard (filter : ApprovalScopeFilter.t) : io str ApprovalScopeDashboard.t :=
  now ← unix_time_ms_i64;
  grants ← sql (select_grants now);
  audit_events ← sql select_events;
  mret (ApprovalScopeDashboard.mk _ (List.filter (in_filter filter) grants) audit_events).

(** ** The limit comes before the filter *)
Definition reviewed_after (x y : str * Scope) : bool :=
  ReviewedScope.reviewed_at_ms x.2 <? ReviewedScope.reviewed_at_ms y.2.
#[local] Instance newer_total : Total newer.
Proof. intros a b. unfold newer. lia. Qed.
#[local] Instance newer_trans : Transitive newer.
Proof. intros a b c. unfold newer. lia. Qed.

Lemma filter_none {A} (p : A -> bool) l : (forall y, y ∈ l -> p y = false) -> List.filter p l = [].
Proof.
  induction l as [|y l IH]; intros Hp; [done|]. simpl. rewrite (Hp y) by (by left).
  apply IH. intros z Hz. apply Hp. by right.
Qed.
Lemma newest_first (l : list (str * Scope)) x :
  StronglySorted newer l -> x ∈ take limit l -> (length (List.filter (reviewed_after x) l) < limit)%nat.
Proof.
  intros Hs Hx. apply list_elem_of_lookup in Hx as (i & Hi).
  apply lookup_take_Some in Hi as [Hi Hlt]. pose proof (take_drop_middle _ _ _ Hi) as Hl.
  rewrite <- Hl in Hs |- *. apply StronglySorted_app_1_r, StronglySorted_cons in Hs as [Hs _].
  rewrite List.filter_app, length_app. cbn [List.filter]. unfold reviewed_after at 2. rewrite Z.ltb_irrefl.
  rewrite (filter_none _ (drop _ l)).
  - pose proof (List.filter_length_le (reviewed_after x) (take i l)) as Hle. rewrite length_take in Hle. simpl. lia.
  - intros y Hy. rewrite list.Forall_forall in Hs. specialize (Hs y Hy). unfold newer, reviewed_after in *. lia.
Qed.

Lemma filter_length_perm {A} (p : A -> bool) l l' :
  l ≡ₚ l' -> length (List.filter p l) = length (List.filter p l').
Proof. induction 1; simpl; repeat (case_match; simpl); congruence. Qed.

(** C36: a grant that 250 later ones hide is not on the list, whatever the list is asked
    for. The query takes the newest 250 grants of everybody and only then keeps those of
    the project or the task: a grant of the project that is older is not shown, although
    it may be live, and so cannot be chosen to be revoked. *)
Theorem hidden_grants_are_never_shown now bytes env filter db id row shown :
  ShieldDb.scopes db !! id = Some row ->
  (limit <= length (List.filter (reviewed_after (id, row)) (map_to_list (ShieldDb.scopes db))))%nat ->
  (solo now bytes env (dashboard filter) db).1.1 = Ok shown ->
  forall grant, grant ∈ ApprovalScopeDashboard.grants shown -> ReviewedApprovalGrant.grant_id grant <> id.
Proof.
  intros Hid Hmany Hd grant Hg <-. cbn in Hd. injection Hd as <-. cbn in Hg.
  apply list_elem_of_In, filter_In in Hg as [Hg _]. apply in_map_iff in Hg as ([id' row'] & Hs & Hin).
  subst grant. cbn in Hid, Hmany. apply list_elem_of_In in Hin.
  assert ((id', row') ∈ merge_sort newer (map_to_list (ShieldDb.scopes db))) as Hin'.
  { eapply list.subseteq_take. exact Hin. }
  rewrite merge_sort_Permutation in Hin'. apply elem_of_map_to_list in Hin'.
  assert (row' = row) as -> by congruence.
  apply newest_first in Hin; [|apply (StronglySorted_merge_sort newer)].
  rewrite (filter_length_perm _ _ _ (merge_sort_Permutation newer _)) in Hin. cbn in *. lia.
Qed.
End Dashboard.

(** One grant for a garden, and 250 later ones for something else. *)
Module Crowded.
Import IntegerJson.
Import PlainStore.
Import Folder.
Definition resource : str := lit "/Users/ada/garden".
Definition row (project : string) (at_ms : Z) : Scope :=
  ReviewedScope.mk _ (lit "persistent") (lit "local_principal") (Some (lit project)) None
    (lit "filesystem_write") (if String.eqb project "garden" then resource else lit "/Users/ada/other")
    (lit "filesystem_write") UNTIL_REVOKED_MS 500 0
    (json_obj [("untilRevoked"%string, Value.Bool true)]) at_ms None None.
Definition id : str := lit "trustgrant_garden".
Definition db : Db :=
  ShieldDb.mk _
    (<[id := row "garden" 1000]>
       (list_to_map (map (fun n => (lit "trustgrant_" ++ show_int (Z.of_nat n), row "other" (2000 + Z.of_nat n)))
          (seq 0 250))))
    [] ∅ ∅ [] ∅ ∅.
Definition garden : ApprovalScopeFilter.t := ApprovalScopeFilter.mk (Some (lit "garden")) None.
Definition shown : list ReviewedApprovalGrant.t :=
  match (solo 9000 [] (fun _ => env) (dashboard garden) db).1.1 with
  | Ok shown => ApprovalScopeDashboard.grants shown
  | _ => []
  end.
Definition used : res str bool :=
  (solo 9000 [] (fun _ => env) (authorize (lit "local_principal") (Some (lit "garden")) None (lit "filesystem_write")
     (lit "/Users/ada/garden/note.md") (lit "filesystem_write") 1) db).1.1.
End Crowded.

Import IntegerJson PlainStore Folder.
Lemma hidden_grants_are_never_shown_witness :
  Crowded.used = Ok true /\
  forall grant, grant ∈ Crowded.shown -> ReviewedApprovalGrant.grant_id grant <> Crowded.id.
Proof.
  split; [vm_compute; reflexivity|]. unfold Crowded.shown.
  destruct (solo 9000 [] (fun _ => env) (dashboard Crowded.garden) Crowded.db).1.1 as [d|e|] eqn:Hd.
  - refine (hidden_grants_are_never_shown 9000 [] (fun _ => env) Crowded.garden Crowded.db Crowded.id
              (Crowded.row "garden" 1000) d _ _ Hd).
    + apply lookup_insert_eq.
    + apply Nat.leb_le. vm_compute. reflexivity.
  - intros grant Hg. by apply not_elem_of_nil in Hg.
  - intros grant Hg. by apply not_elem_of_nil in Hg.
Defined.
