(* ===== verification/TerminalScopeTheorems.v ===== *)
(** * Where a command runs, and what a session's access to its files is worth

    A command a person types is bound to a folder before it is asked about;
    [bound_commands_run_inside] follows it to the folder it is run in.
    [session_access_for_commands_is_never_used] is about the answer "for this
    session" to the question whether a command may read outside the project. *)
From S2P Require Import Prelude.
From S2P Require Import RustStr.
From S2P Require Import JsonValue.
From S2P Require Import Program.
From S2P Require Import TaskStore.
From S2P Require Import ToolSecurity.
From S2P Require Import EffectJournal.
From S2P Require Import Authority.
From S2P Require Import TerminalContract.
From S2P Require Import ActuationLease.
From S2P Require Import ShieldDecision.
From S2P Require Import TerminalScope.
From S2P Require Import ApprovalScopes.
From S2P Require Import ScopeTrust.
From S2P Require Import ApprovalSystem.
From S2P Require Import ApprovalGate.
From S2P Require Import ApprovalTheorems.
Local Open Scope Z_scope.

(** ** Paths that can be written down *)
Definition proper_component (c : str) : bool :=
  not_empty c && negb (equals c ".") && negb (contains_char (ch "/") c).
Definition proper (p : path) : bool :=
  match p with c :: cs => str_eqb c root_dir && forallb proper_component cs | [] => false end.

Lemma split_join cs :
  forallb proper_component cs = true ->
  List.filter not_empty (split_char (ch "/") (join (lit "/") cs)) = cs.
Proof.
  assert (forall c, proper_component c = true -> Forall (fun x => x <> ch "/") c /\ not_empty c = true) as Hc.
  { intros c Hc. unfold proper_component in Hc. rewrite !andb_true_iff, !negb_true_iff in Hc.
    destruct Hc as [[Hn _] Hs]. split; [|done]. apply list.Forall_forall. intros x Hx ->.
    unfold contains_char in Hs. apply not_true_iff_false in Hs. apply Hs. apply existsb_exists.
    exists (ch "/"). split; [by apply list_elem_of_In|apply Z.eqb_refl]. }
  induction cs as [|c cs IH]; [done|]. cbn [forallb]. intros [H1 H2]%andb_true_iff.
  destruct (Hc c H1) as [Hs Hn]. destruct cs as [|c' cs].
  - cbn [join]. rewrite split_char_no by done. cbn [List.filter]. by rewrite Hn.
  - change (join (lit "/") (c :: c' :: cs)) with (c ++ ch "/" :: join (lit "/") (c' :: cs)).
    rewrite split_char_app by done. cbn [List.filter]. rewrite Hn. f_equal. by apply IH.
Qed.
Lemma parse_display p : proper p = true -> path_of_str (path_display p) = p.
Proof.
  destruct p as [|c cs]; [done|]. cbn [proper path_display]. intros [H1 H2]%andb_true_iff.
  rewrite H1. apply str_eqb_eq in H1 as ->. unfold path_of_str.
  change (root_dir ++ join (lit "/") cs) with (ch "/" :: join (lit "/") cs).
  change (starts_with (lit "/") (ch "/" :: join (lit "/") cs)) with true. cbv iota.
  f_equal. cbn [split_char]. rewrite Z.eqb_refl. cbn [List.filter not_empty negb is_empty].
  rewrite split_join by done. induction cs as [|c cs IH]; [done|]. cbn [forallb] in H2.
  apply andb_true_iff in H2 as [Hc H2]. cbn [List.filter]. unfold proper_component in Hc.
  rewrite !andb_true_iff, !negb_true_iff in Hc. destruct Hc as [[_ Hc] _]. rewrite Hc. cbn [negb]. f_equal.
  by apply IH.
Qed.

(** [fs::canonicalize] returns a path that is its own canonical form. *)
Class ResolvedPaths (host : Host) : Prop :=
  canonicalize_resolved p q :
    canonicalize (files host) p = Some q -> proper q = true /\ canonicalize (files host) q = Some q.

Section Binding.
Context (host : Host) `{!ResolvedPaths host} `{C : TerminalCodec}.

Definition resolved (p : path) : Prop := exists q, canonicalize (files host) q = Some p.

Lemma validate_fields request r :
  validate host request = Ok r ->
  r = NativeTerminalRequest.mk (trim (NativeTerminalRequest.executable request))
        (NativeTerminalRequest.args request) (NativeTerminalRequest.env request)
        (NativeTerminalRequest.cwd request) (NativeTerminalRequest.timeout request).
Proof.
  unfold validate. intros H. apply bind_Ok in H as ([] & _ & H). apply bind_Ok in H as ([] & _ & H).
  apply bind_Ok in H as ([] & _ & H). apply bind_Ok in H as ([] & _ & H). by injection H as <-.
Qed.
Lemma terminal_request_trimmed action r :
  terminal_request_for_action host action = Ok r ->
  trim (NativeTerminalRequest.executable r) = NativeTerminalRequest.executable r.
Proof.
  unfold terminal_request_for_action. destruct (equals _ _); intros H.
  - apply bind_Ok in H as (payload & _ & H). apply bind_Ok in H as (request & _ & H).
    apply bind_Ok in H as (request' & Hv%map_err_Ok & H). apply bind_Ok in H as ([] & _ & H).
    injection H as <-. apply validate_fields in Hv as ->. apply trim_idem.
  - apply bind_Ok in H as (command & _ & H). apply bind_Ok in H as (request & Hd%map_err_Ok & H).
    apply bind_Ok in H as ([] & _ & H). injection H as <-. unfold direct_command_request in Hd.
    apply bind_Ok in Hd as ([|executable args] & _ & Hd); [done|]. apply validate_fields in Hd as ->.
    apply trim_idem.
Qed.

Lemma bounded_inside requested root message wd :
  resolved root -> bounded_terminal_working_directory host requested root message = Ok wd ->
  resolved wd /\ path_starts_with root wd = true.
Proof.
  unfold bounded_terminal_working_directory. intros Hr. destruct requested as [cwd|].
  - intros H. apply bind_Ok in H as (q & Hq%ok_or_Ok & H). apply bind_Ok in H as ([] & Hg%guard_not_Ok & H).
    injection H as <-. apply orb_false_iff in Hg as [_ Hg%negb_false_iff]. split; [by eexists|done].
  - intros [= <-]. split; [done|]. apply path_starts_with_spec. exists []. by rewrite app_nil_r.
Qed.

(** The request that runs is the bound one, in the bound folder. *)
Lemma bound_request kind terminal wd request prepared folder :
  resolved wd -> trim (NativeTerminalRequest.executable terminal) = NativeTerminalRequest.executable terminal ->
  normalize_action_kind kind = lit "terminal_execute" ->
  terminal_request_for_action host (RequestedAction.mk kind None None
    (Some (write_terminal_request
       (NativeTerminalRequest.mk (NativeTerminalRequest.executable terminal)
          (NativeTerminalRequest.args terminal) (NativeTerminalRequest.env terminal)
          (Some (path_display wd)) (NativeTerminalRequest.timeout terminal))))) = Ok request ->
  prepare_terminal_execution host request = Ok (prepared, folder) ->
  folder = wd /\ classification request = classification terminal.
Proof.
  intros (p & Hp) Ht Hk H Hprep. unfold terminal_request_for_action in H.
  cbn [RequestedAction.kind RequestedAction.content] in H. rewrite Hk in H.
  change (equals (lit "terminal_execute") "terminal_execute") with true in H. cbv iota in H.
  apply bind_Ok in H as (payload & Hpay%ok_or_Ok & H). injection Hpay as <-.
  rewrite read_write_terminal_request in H. apply bind_Ok in H as (r & Hr%ok_or_Ok & H). injection Hr as <-.
  apply bind_Ok in H as (v & Hv%map_err_Ok & H). apply bind_Ok in H as ([] & _ & H). injection H as <-.
  apply validate_fields in Hv as ->. split.
  - unfold prepare_terminal_execution in Hprep. cbn in Hprep. apply bind_Ok in Hprep as (v & Hv & Hprep).
    apply validate_fields in Hv as ->. cbn in Hprep. apply bind_Ok in Hprep as ([] & _ & Hprep).
    apply bind_Ok in Hprep as (folder' & Hf%ok_or_Ok & Hprep).
    apply bind_Ok in Hprep as (executable & _ & Hprep). injection Hprep as _ <-.
    destruct (canonicalize_resolved _ _ Hp) as [Hw Hc]. rewrite parse_display in Hf by done. cbn in Hf.
    rewrite Hc in Hf. cbn in Hf. by destruct (is_dir (files host) wd); simplify_eq.
  - unfold classification, command_uses_compound_shell_syntax.
    cbn [NativeTerminalRequest.executable NativeTerminalRequest.args NativeTerminalRequest.env].
    by rewrite Ht.
Qed.

Lemma expanded_executable terminal expanded :
  expand_terminal_home_paths host terminal = Ok expanded ->
  NativeTerminalRequest.executable expanded = NativeTerminalRequest.executable terminal.
Proof.
  unfold expand_terminal_home_paths. intros H. apply bind_Ok in H as (cwd & _ & H).
  apply bind_Ok in H as (args & _ & H). by injection H as <-.
Qed.

End Binding.

(** A volume on which every path without [..] is its own canonical form, and a
    conversation of a project that lists a folder. *)
Module Volume.
Definition plain (p : path) : bool := proper p && forallb (fun c => negb (str_eqb c parent_dir)) p.
Definition host : Host := {|
  files := {| canonicalize p := if plain p then Some p else None;
              is_dir _ := true; is_file _ := true; read_file _ := None |};
  path_exists _ := true;
  metadata _ := Some (true, 493);
  home_variable := Some (lit "/Users/ada");
  home_dir := Some (path_of_str (lit "/Users/ada"));
  search_path := [];
  app_data_root := path_of_str (lit "/Users/ada/Library/OOMU");
  development_repo_root := path_of_str (lit "/work/oomu");
|}.
#[export] Instance resolved_paths : ResolvedPaths host.
Proof.
  intros p q. cbn. destruct (plain p) eqn:Hp; [|done]. intros [= <-].
  split; [by apply andb_true_iff in Hp as [? _]|by rewrite Hp].
Qed.
Definition conversation (id : str) : res str (option str) :=
  if str_eqb id (lit "chat") then Ok (Some (lit "garden")) else Err (lit "unknown").
Definition root : path := path_of_str (lit "/work/garden").
Definition roots (project : str) : res str path :=
  if str_eqb project (lit "garden") then Ok root else Err (lit "unknown").
Lemma roots_resolved project p : roots project = Ok p -> resolved host p.
Proof. unfold roots. destruct (str_eqb _ _); [|done]. intros [= <-]. exists root. by vm_compute. Qed.
Definition typed : Action :=
  RequestedAction.mk (lit "shell_command") None None (Some (lit "ls -l docs")).
End Volume.

#[export] Existing Instance Volume.resolved_paths.
Import Folder.

Definition bound_in (action : Action) (session project : option str) : res GateError Action :=
  bind_direct_terminal_scope Volume.host Volume.conversation Volume.roots session project action.
Definition prepared_in (action : Action) (session project : option str)
  : option (Action * TerminalRequest * (TerminalRequest * path)) :=
  match bound_in action session project with
  | Ok bound =>
      match terminal_request_for_action Volume.host bound with
      | Ok request =>
          match prepare_terminal_execution Volume.host request with
          | Ok prepared => Some (bound, request, prepared)
          | _ => None
          end
      | _ => None
      end
  | _ => None
  end.
Section Sessions.
Context (host : Host) `{C : TerminalCodec}.

(** What an action is looked up under. *)
Lemma looked_up_operations action operation target :
  scope_trust_action_scope host action = Ok (Some (operation, target)) ->
  in_list operation ["filesystem_read"; "filesystem_write"; "codebase_patch"; "document_index"] = true.
Proof.
  assert (forall name base, path_scope host name base action = Ok (Some (operation, target)) ->
            operation = lit name) as Hp.
  { intros name base. unfold path_scope. destruct (RequestedAction.path action); [|done]. intros H.
    apply bind_Ok in H as ([t|] & _ & H); cbn in H; congruence. }
  unfold scope_trust_action_scope. destruct (in_list _ _); [by intros ->%Hp; vm_compute|].
  destruct (is_project_file_write_action _); [by intros ->%Hp; vm_compute|].
  destruct (equals _ _); [by intros ->%Hp; vm_compute|].
  destruct (equals _ _); [by intros ->%Hp; vm_compute|]. destruct (is_terminal_kind _); [|done].
  intros H. apply bind_Ok in H as (request & _ & H). cbv zeta in H.
  destruct (external_read_target host request _) as [t|]; cbn in H; simplify_eq. by vm_compute.
Qed.

(** Allowing a command to read a folder "for this session" never allows anything. The
    choice is offered when a command reads outside the project, because the request is
    put into the class of file reads; but the grant is kept under the kind of the
    command, while every action is looked up under a class of file operations. So the
    grant is made and answered with its identifier, and no action of anybody, in
    whatever folder, is allowed by the cache with it that was not allowed without. *)
Theorem session_access_for_commands_is_never_used now now' bytes approval selection cache id cache' :
  is_terminal_kind (normalize_action_kind (ShieldApprovalRequest.action_type approval)) = true ->
  grant_from_approval_with_id now now' bytes approval selection cache = (Ok (Some id), cache') ->
  (exists entry, cache' = cache ++ [entry]) /\
  forall at_ms action principal,
    (allows_action_for_principal host at_ms action principal cache').1 =
    (allows_action_for_principal host at_ms action principal cache).1.
Proof.
  intros Hk Hg.
  assert (exists entry, cache' = cache ++ [entry] /\ ScopeTrustCache.allowed_operations entry =
            [reviewed_action_class (ShieldApprovalRequest.action_type approval)]) as (entry & -> & Ho).
  { unfold grant_from_approval_with_id in Hg. destruct selection as [selection|]; [|done].
    destruct (negb _); [done|]. destruct (session_trust_terms _ _) as [[prefix app]|e|]; simplify_eq.
    by eexists. }
  split; [by exists entry|]. intros at_ms action principal. unfold allows_action_for_principal.
  destruct (scope_trust_action_scope host action) as [[[operation target]|]|e|] eqn:Hs; try done.
  apply looked_up_operations in Hs. cbn [fst]. f_equal. unfold unexpired.
  rewrite List.filter_app, existsb_app.
  assert (existsb (trust_covers principal operation target)
            (List.filter (fun entry => at_ms <? ScopeTrustCache.expires_at_ms entry) [entry]) = false) as ->;
    [|by rewrite orb_false_r].
  apply not_true_iff_false. intros (x & Hx & Hc)%existsb_exists. apply filter_In in Hx as [[->|[]] _].
  unfold trust_covers in Hc. rewrite Ho in Hc. apply andb_true_iff in Hc as [[_ Hc]%andb_true_iff _].
  cbn [existsb] in Hc. rewrite orb_false_r in Hc. apply str_eqb_eq in Hc as <-.
  unfold reviewed_action_class in Hs. unfold is_terminal_kind in Hk. apply in_list_spec in Hk.
  set (kind := normalize_action_kind _) in *. clearbody kind.
  repeat (apply elem_of_cons in Hk as [->|Hk]; [by vm_compute in Hs|]). by apply not_elem_of_nil in Hk.
Qed.
End Sessions.

(** [ls ~/Downloads], allowed for this session: asked again, it is not covered. *)
Module Downloads.
Definition folder : str := lit "/Users/ada/Downloads".
Definition approval : ApprovalRequest :=
  ShieldApprovalRequest.mk (lit "token") None None None (lit "terminal_execute") (lit "Read files")
    (Some folder) None (lit "medium") (lit "Reads outside the project.") None 900 (lit "ls") (lit "List")
    (lit "") (lit "visual_consent") (lit "prompt") None true (Some folder)
    DEFAULT_SCOPE_TRUST_DURATION_MS None None (lit "filesystem_read") (lit "filesystem_read")
    (Some folder) false [lit "once"; lit "app_session"].
Definition selection : option TrustRequest :=
  Some (ScopeTrustApprovalRequest.mk true (Some DEFAULT_SCOPE_TRUST_DURATION_MS)
          (Some (lit "app_session")) None).
Definition cache : list Trust :=
  (grant_from_approval_with_id 1000 1000 [7] approval selection []).2.
Definition ls : Action :=
  RequestedAction.mk (lit "shell_command") None None (Some (lit "ls /Users/ada/Downloads")).
End Downloads.
Lemma session_access_for_commands_is_never_used_witness :
  available_scope_kinds Volume.host Downloads.approval = [lit "once"; lit "app_session"; lit "persistent"] /\
  scope_trust_action_scope Volume.host Downloads.ls =
    Ok (Some (lit "filesystem_read", path_of_str Downloads.folder)) /\
  length Downloads.cache = 1%nat /\
  (allows_action_for_principal Volume.host 2000 Downloads.ls (lit "local_principal") Downloads.cache).1 = Ok false.
Proof.
  split; [vm_compute; reflexivity|]. split; [vm_compute; reflexivity|]. split; [vm_compute; reflexivity|].
  assert (is_terminal_kind (normalize_action_kind
            (ShieldApprovalRequest.action_type Downloads.approval)) = true) as Hk by (vm_compute; reflexivity).
  assert (grant_from_approval_with_id 1000 1000 [7] Downloads.approval Downloads.selection [] =
            (Ok (Some (lit "sessiongrant_07")), Downloads.cache)) as Hg by (vm_compute; reflexivity).
  destruct (session_access_for_commands_is_never_used Volume.host 1000 1000 [7] Downloads.approval
              Downloads.selection [] _ _ Hk Hg) as [_ Hn].
  rewrite Hn. vm_compute. reflexivity.
Defined.
