(* ===== verification/Delegation.v ===== *)
(** * Delegated research: contracts, policy and synthesis
    ([delegation/mod.rs], [delegation/policy.rs], [delegation/worker.rs])

    A plan hands at most eight children a goal and explicit sources; a child may
    read, and nothing else.  [validate] is the gate a plan passes when it is
    created; [plan_accepted] says what passes it.  Whether a web query is bound to
    something the user asked for is decided by [sovereign_search.rs] and stays a
    parameter ([SearchAuthority]).  What the database stores as JSON text is kept
    as the value that was written. *)
From S2P Require Import Prelude.
From S2P Require Import RustStr.
From S2P Require Import P0Contracts.
Local Open Scope Z_scope.

Definition DELEGATION_SCHEMA_VERSION : Z := 1.
Definition MAX_PARALLEL_CHILDREN : Z := 8.

(** ** Contracts *)
Module ResourceBudget.
Record t : Type := mk {
  max_input_tokens : Z;
  max_output_tokens : Z;
  max_tool_calls : Z;
  timeout_ms : Z;
  max_response_bytes : Z;
}.
End ResourceBudget.
Module AggregateBudget.
Record t : Type := mk {
  max_input_tokens : Z;
  max_output_tokens : Z;
  max_tool_calls : Z;
  timeout_ms : Z;
}.
End AggregateBudget.
Module DelegatedWebSearchAuthorization.
Record t : Type := mk { originating_user_objective : str; approved_query : str }.
End DelegatedWebSearchAuthorization.
#[export] Instance DelegatedWebSearchAuthorization_eq_dec : EqDecision DelegatedWebSearchAuthorization.t.
Proof. solve_decision. Defined.
Module DelegatedSource.
Inductive t : Type :=
  | InlineText (label content : str)
  | ProjectFile (source_id relative_path : str)
  | WebSearch (query : str) (max_results : option Z)
      (authorization : DelegatedWebSearchAuthorization.t)
  | BrowserSnapshot (session_id : str)
  | TaskEvidence (event_types : list str).
Definition kind (s : t) : string :=
  match s with
  | InlineText _ _ => "inline_text"
  | ProjectFile _ _ => "project_file"
  | WebSearch _ _ _ => "web_search"
  | BrowserSnapshot _ => "browser_snapshot"
  | TaskEvidence _ => "task_evidence"
  end.
End DelegatedSource.
#[export] Instance DelegatedSource_eq_dec : EqDecision DelegatedSource.t.
Proof. solve_decision. Defined.
Module ChildProposal.
Record t : Type := mk {
  goal : str;
  expected_output_schema : str;
  sources : list DelegatedSource.t;
  allowed_read_tools : list str;
  model_route : str;
  budget : ResourceBudget.t;
}.
End ChildProposal.
Module CreateDelegationPlanRequest.
Record t : Type := mk {
  schema_version : Z;
  project_id : str;
  task_run_id : str;
  parent_session_id : option str;
  parent_model_route : str;
  parent_depth : Z;
  aggregate_budget : AggregateBudget.t;
  children : list ChildProposal.t;
}.
End CreateDelegationPlanRequest.
Notation Source := DelegatedSource.t.
Notation Proposal := ChildProposal.t.
Notation CreateRequest := CreateDelegationPlanRequest.t.

Module Finding.
Record t : Type := mk { statement : str; source_refs : list str; confidence : str }.
End Finding.
Module SourceEvidence.
Record t : Type := mk { source_ref : str; source_kind : str; digest : str; observed : bool }.
End SourceEvidence.
Module ChildResult.
Record t : Type := mk {
  findings : list Finding.t;
  sources : list SourceEvidence.t;
  uncertainties : list str;
  limitations : list str;
  complete : bool;
  actual_model_route : str;
  elapsed_ms : Z;
  input_tokens_estimate : Z;
  output_tokens_estimate : Z;
}.
End ChildResult.
Module DelegationSynthesis.
Record t : Type := mk {
  findings : list Finding.t;
  uncertainties : list str;
  incomplete_child_run_ids : list str;
  ready_for_parent_synthesis : bool;
}.
End DelegationSynthesis.

(** The states the tables admit (migration 0024). *)
Module PlanState.
Inductive t : Type := Planned | Running | Paused | Completed | Partial | Failed | Cancelled.
End PlanState.
#[export] Instance PlanState_eq_dec : EqDecision PlanState.t.
Proof. solve_decision. Defined.
Module ChildState.
Inductive t : Type := Planned | Running | Paused | Completed | Failed | Cancelled | Incomplete.
End ChildState.
#[export] Instance ChildState_eq_dec : EqDecision ChildState.t.
Proof. solve_decision. Defined.

Module ChildRunView.
Record t : Type := mk {
  child_run_id : str;
  goal : str;
  source_scope : list str;
  allowed_read_tools : list str;
  model_route : str;
  budget : ResourceBudget.t;
  state : ChildState.t;
  progress_summary : str;
  result : option ChildResult.t;
  error_code : option str;
  attempt : Z;
}.
End ChildRunView.
Module DelegationPlanView.
Record t : Type := mk {
  plan_id : str;
  project_id : str;
  task_run_id : str;
  parent_model_route : str;
  state : PlanState.t;
  aggregate_budget : AggregateBudget.t;
  synthesis : option DelegationSynthesis.t;
  children : list ChildRunView.t;
  created_at_ms : Z;
  updated_at_ms : Z;
}.
End DelegationPlanView.
Notation PlanView := DelegationPlanView.t.
Notation ChildView := ChildRunView.t.

(** ** The policy *)
Definition READ_ONLY_TOOLS : list string :=
  ["project_file_read"; "web_search"; "connector_read"; "browser_snapshot";
   "task_evidence_read"; "summarize_text"].
Definition FORBIDDEN_MARKERS : list string :=
  ["write"; "delete"; "remove"; "shell"; "exec"; "command"; "post"; "send"; "create_event";
   "update_event"; "approval"; "grant"; "export"; "upload"; "download"; "delegate"; "spawn"].

Definition mandatory_parent_only_action (action : str) : bool :=
  existsb (fun marker => contains_str (lit marker) (to_ascii_lowercase (trim action)))
    FORBIDDEN_MARKERS.

(** [sovereign_search.rs], [delegated_search_authorization_is_valid]. *)
Class SearchAuthority : Type :=
  delegated_search_authorization_is_valid :
    forall originating_user_objective approved_query query : str, bool.

Definition canonical_tool (raw : str) : str := to_ascii_lowercase (trim raw).
Fixpoint delegated_tools (raws : list str) (tools : gset str) : res str (gset str) :=
  match raws with
  | [] => Ok tools
  | raw :: raws =>
      let tool := canonical_tool raw in
      if mandatory_parent_only_action tool || negb (in_list tool READ_ONLY_TOOLS) then
        Err (lit "Child capability policy denied non-read-only tool: " ++ raw ++ lit ".")
      else if bool_decide (tool ∈ tools) then Err (lit "Child tool scope contains duplicates.")
      else delegated_tools raws ({[tool]} ∪ tools)
  end.

Section Policy.
Context `{A : SearchAuthority}.

(** What a source needs to be, and the tool that reads it. *)
Definition required_tool (source : Source) : res str string :=
  match source with
  | DelegatedSource.InlineText _ content =>
      _ ← guard_not (is_empty content || (512000 <? str_len content))
            (lit "Inline child context is outside the size limit.");
      Ok "summarize_text"%string
  | DelegatedSource.ProjectFile _ relative_path =>
      _ ← guard_not (contains_str (lit "..") relative_path || starts_with (lit "/") relative_path)
            (lit "Project file delegation requires a safe relative path.");
      Ok "project_file_read"%string
  | DelegatedSource.WebSearch query max_results authorization =>
      let objective := DelegatedWebSearchAuthorization.originating_user_objective authorization in
      _ ← guard_not (is_empty (trim query) || (500 <? str_len query) || (5 <? default 5 max_results))
            (lit "Web delegation source is invalid.");
      _ ← guard_not
            (is_empty (trim objective) || (16000 <? chars_count objective)
             || negb (delegated_search_authorization_is_valid objective
                        (DelegatedWebSearchAuthorization.approved_query authorization) query))
            (lit "Web delegation requires an explicit user search request bound to the exact query.");
      Ok "web_search"%string
  | DelegatedSource.BrowserSnapshot _ => Ok "browser_snapshot"%string
  | DelegatedSource.TaskEvidence event_types =>
      _ ← guard_not (bool_decide (event_types = []) || (12 <? Z.of_nat (length event_types)))
            (lit "Task evidence source is invalid.");
      Ok "task_evidence_read"%string
  end.
Definition validate_source (tools : gset str) (source : Source) : res str unit :=
  required ← required_tool source;
  ensure (bool_decide (lit required ∈ tools))
    (lit "Source " ++ lit (DelegatedSource.kind source) ++ lit " requires delegated tool "
     ++ lit required ++ lit ".").

Definition bounded_budget (sources : Z) (b : ResourceBudget.t) : bool :=
  in_range 64 32000 (ResourceBudget.max_input_tokens b)
  && in_range 16 8000 (ResourceBudget.max_output_tokens b)
  && (sources <=? ResourceBudget.max_tool_calls b)
  && (ResourceBudget.max_tool_calls b <=? 8)
  && in_range 1000 300000 (ResourceBudget.timeout_ms b)
  && in_range 1024 1048576 (ResourceBudget.max_response_bytes b).

Definition validate_child (child : Proposal) : res str unit :=
  let sources := ChildProposal.sources child in
  let raws := ChildProposal.allowed_read_tools child in
  _ ← guard_not ((str_len (trim (ChildProposal.goal child)) <? 3)
                 || (2000 <? chars_count (ChildProposal.goal child)))
        (lit "Each child requires a bounded goal.");
  _ ← ensure (equals (ChildProposal.expected_output_schema child) "findings_sources_uncertainties_v1")
        (lit "Unsupported child output schema.");
  _ ← guard_not (bool_decide (sources = []) || (8 <? Z.of_nat (length sources)))
        (lit "Each child requires one to eight explicit sources.");
  _ ← guard_not (bool_decide (raws = []) || (8 <? Z.of_nat (length raws)))
        (lit "Each child requires bounded read-only tools.");
  tools ← delegated_tools raws ∅;
  _ ← for_each (validate_source tools) sources;
  _ ← ensure (bounded_budget (Z.of_nat (length sources)) (ChildProposal.budget child))
        (lit "Child resource budget is outside bounded V1 limits.");
  ensure (in_list (trim (ChildProposal.model_route child)) ["parent"; "local"; "local_gemma"])
    (lit "V1 child model route must be parent or an approved credential-isolated local route.").
Definition validate_child_template (child : Proposal) : res str unit := validate_child child.

Definition validate_aggregate (b : AggregateBudget.t) : res str unit :=
  ensure
    (in_range 128 256000 (AggregateBudget.max_input_tokens b)
     && in_range 32 64000 (AggregateBudget.max_output_tokens b)
     && in_range 1 64 (AggregateBudget.max_tool_calls b)
     && in_range 1000 600000 (AggregateBudget.timeout_ms b))
    (lit "Aggregate delegation budget is outside bounded V1 limits.").

(** The loop over the children: each is validated, then counted. *)
Definition count_child (total : Z * Z * Z) (child : Proposal) : res str (Z * Z * Z) :=
  let '(total_input, total_output, total_tools) := total in
  let budget := ChildProposal.budget child in
  _ ← validate_child child;
  Ok (saturating_add_usize total_input (ResourceBudget.max_input_tokens budget),
      saturating_add_usize total_output (ResourceBudget.max_output_tokens budget),
      saturating_add_usize total_tools (ResourceBudget.max_tool_calls budget)).

Definition validate (request : CreateRequest) : res str unit :=
  let children := CreateDelegationPlanRequest.children request in
  let aggregate := CreateDelegationPlanRequest.aggregate_budget request in
  _ ← ensure (CreateDelegationPlanRequest.schema_version request =? DELEGATION_SCHEMA_VERSION)
        (lit "Unsupported delegation contract version.");
  _ ← ensure (CreateDelegationPlanRequest.parent_depth request =? 0)
        (lit "Nested delegation is not supported; child depth is limited to one.");
  _ ← guard_not (bool_decide (children = []))
        (lit "A delegation plan requires at least one child.");
  _ ← guard_not (MAX_PARALLEL_CHILDREN <? Z.of_nat (length children))
        (lit "Delegation proposal contains " ++ show_nat (Z.of_nat (length children))
         ++ lit " children; the enforced maximum is " ++ show_nat MAX_PARALLEL_CHILDREN ++ lit ".");
  _ ← validate_aggregate aggregate;
  '(total_input, total_output, total_tools) ← for_fold count_child (0, 0, 0) children;
  guard_not
    ((AggregateBudget.max_input_tokens aggregate <? total_input)
     || (AggregateBudget.max_output_tokens aggregate <? total_output)
     || (AggregateBudget.max_tool_calls aggregate <? total_tools))
    (lit "Child budgets exceed the aggregate delegation budget.").

(** The template of a summary ([mod.rs], used by the agent manager). *)
Definition div_ceil (n d : Z) : Z := (n + (d - 1)) / d.
Definition summary_template (source : str) : Proposal :=
  ChildProposal.mk (lit "Produce a grounded summary from the explicitly delegated source.")
    (lit "findings_sources_uncertainties_v1")
    [DelegatedSource.InlineText (lit "legacy-summary-template") source]
    [lit "summarize_text"] (lit "local")
    (ResourceBudget.mk (clamp 64 32000 (div_ceil (str_len source) 4)) 2048 1 120000 (256 * 1024)).
Definition validate_summary_template (source : str) : res str unit :=
  validate_child_template (summary_template source).

(** ** Synthesis *)
(** The loop over the children: what complete results say, and who has none. *)
Fixpoint collect (children : list ChildView) : list Finding.t * list str * list str :=
  match children with
  | [] => ([], [], [])
  | child :: children =>
      let '(findings, uncertainties, incomplete) := collect children in
      let incomplete' := ChildRunView.child_run_id child :: incomplete in
      match ChildRunView.result child with
      | Some result =>
          if ChildResult.complete result then
            (ChildResult.findings result ++ findings,
             ChildResult.uncertainties result ++ uncertainties, incomplete)
          else (findings, uncertainties, incomplete')
      | None => (findings, uncertainties, incomplete')
      end
  end.
Definition synthesize (children : list ChildView) : DelegationSynthesis.t :=
  let '(findings, uncertainties, incomplete) := collect children in
  DelegationSynthesis.mk findings uncertainties incomplete (bool_decide (incomplete = [])).

(** ** What passes the policy *)
Definition delegated (tools : list str) (tool : string) : Prop :=
  lit tool ∈ map canonical_tool tools.
Definition source_delegated (tools : list str) (source : Source) : Prop :=
  match source with
  | DelegatedSource.InlineText _ content =>
      content <> [] /\ str_len content <= 512000 /\ delegated tools "summarize_text"
  | DelegatedSource.ProjectFile _ relative_path =>
      contains_str (lit "..") relative_path = false /\ starts_with (lit "/") relative_path = false /\
      delegated tools "project_file_read"
  | DelegatedSource.WebSearch query max_results authorization =>
      let objective := DelegatedWebSearchAuthorization.originating_user_objective authorization in
      is_empty (trim query) = false /\ str_len query <= 500 /\ default 5 max_results <= 5 /\
      is_empty (trim objective) = false /\ chars_count objective <= 16000 /\
      delegated_search_authorization_is_valid objective
        (DelegatedWebSearchAuthorization.approved_query authorization) query = true /\
      delegated tools "web_search"
  | DelegatedSource.BrowserSnapshot _ => delegated tools "browser_snapshot"
  | DelegatedSource.TaskEvidence event_types =>
      (1 <= length event_types <= 12)%nat /\ delegated tools "task_evidence_read"
  end.
Record child_accepted (child : Proposal) : Prop := {
  accepted_goal : 3 <= str_len (trim (ChildProposal.goal child));
  accepted_goal_size : chars_count (ChildProposal.goal child) <= 2000;
  accepted_schema :
    ChildProposal.expected_output_schema child = lit "findings_sources_uncertainties_v1";
  accepted_sources : (1 <= length (ChildProposal.sources child) <= 8)%nat;
  accepted_tools : (1 <= length (ChildProposal.allowed_read_tools child) <= 8)%nat;
  accepted_reads_only : forall raw, raw ∈ ChildProposal.allowed_read_tools child ->
    exists tool, tool ∈ READ_ONLY_TOOLS /\ canonical_tool raw = lit tool;
  accepted_distinct : NoDup (map canonical_tool (ChildProposal.allowed_read_tools child));
  accepted_delegated : forall source, source ∈ ChildProposal.sources child ->
    source_delegated (ChildProposal.allowed_read_tools child) source;
  accepted_budget :
    bounded_budget (Z.of_nat (length (ChildProposal.sources child))) (ChildProposal.budget child) = true;
  accepted_route : exists route, route ∈ ["parent"; "local"; "local_gemma"]%string /\
    trim (ChildProposal.model_route child) = lit route;
}.
Definition total (f : ResourceBudget.t -> Z) (children : list Proposal) : Z :=
  foldr (fun child n => f (ChildProposal.budget child) + n) 0 children.
Record plan_accepted (request : CreateRequest) : Prop := {
  accepted_version : CreateDelegationPlanRequest.schema_version request = 1;
  accepted_depth : CreateDelegationPlanRequest.parent_depth request = 0;
  accepted_count : (1 <= length (CreateDelegationPlanRequest.children request) <= 8)%nat;
  accepted_aggregate : validate_aggregate (CreateDelegationPlanRequest.aggregate_budget request) = Ok tt;
  accepted_children : forall child, child ∈ CreateDelegationPlanRequest.children request ->
    child_accepted child;
  accepted_input : total ResourceBudget.max_input_tokens (CreateDelegationPlanRequest.children request) <=
    AggregateBudget.max_input_tokens (CreateDelegationPlanRequest.aggregate_budget request);
  accepted_output : total ResourceBudget.max_output_tokens (CreateDelegationPlanRequest.children request) <=
    AggregateBudget.max_output_tokens (CreateDelegationPlanRequest.aggregate_budget request);
  accepted_calls : total ResourceBudget.max_tool_calls (CreateDelegationPlanRequest.children request) <=
    AggregateBudget.max_tool_calls (CreateDelegationPlanRequest.aggregate_budget request);
}.

(** ** Lemmas *)
Lemma in_list_lit (s : str) names : in_list s names = true <-> exists name, name ∈ names /\ s = lit name.
Proof.
  unfold in_list. rewrite existsb_exists. split.
  - intros (name & Hin & He%str_eqb_eq). exists name. split; [by apply list_elem_of_In|done].
  - intros (name & Hin & ->). exists name. split; [by apply list_elem_of_In|apply str_eqb_refl].
Qed.
(** No tool that reads carries a marker of what only the parent may do: the list of
    markers refuses nothing that the list of tools lets through. *)
Lemma read_only_tools_are_unmarked tool :
  in_list tool READ_ONLY_TOOLS = true -> mandatory_parent_only_action tool = false.
Proof.
  intros (name & Hin & ->)%in_list_lit.
  assert (Forall (fun name => mandatory_parent_only_action (lit name) = false) READ_ONLY_TOOLS) as Hall
    by (repeat constructor; vm_compute; reflexivity).
  by apply (proj1 (list.Forall_forall _ _) Hall).
Qed.

Lemma set_of_rev_cons (x : str) (l : list str) (s : gset str) :
  list_to_set (rev l ++ [x]) ∪ s = list_to_set (rev l) ∪ ({[x]} ∪ s) :> gset str.
Proof. rewrite list_to_set_app_L. cbn [list_to_set]. by rewrite union_empty_r_L, (assoc_L _). Qed.
Lemma delegated_tools_spec raws : forall tools tools',
  delegated_tools raws tools = Ok tools' <->
  (forall raw, raw ∈ raws -> in_list (canonical_tool raw) READ_ONLY_TOOLS = true) /\
  NoDup (map canonical_tool raws) /\ (forall tool, tool ∈ map canonical_tool raws -> tool ∉ tools) /\
  tools' = list_to_set (rev (map canonical_tool raws)) ∪ tools.
Proof.
  induction raws as [|raw raws IH]; intros tools tools'; cbn [delegated_tools map rev].
  { cbn [list_to_set]. split; [|by intros (_ & _ & _ & ->); rewrite union_empty_l_L].
    intros [= ->]. rewrite union_empty_l_L. split_and!; [set_solver|constructor|set_solver|done]. }
  cbv zeta. rewrite list.NoDup_cons. destruct (in_list (canonical_tool raw) READ_ONLY_TOOLS) eqn:Hr.
  2: { rewrite orb_true_r. split; [done|]. intros (Hall & _). rewrite Hall in Hr; [done|left]. }
  rewrite (read_only_tools_are_unmarked _ Hr). cbn [negb orb]. case_bool_decide as Hin.
  { split; [done|]. intros (_ & _ & Hno & _). exfalso. apply (Hno (canonical_tool raw)); [left|done]. }
  rewrite IH. split.
  - intros (Hall & Hnd & Hno & ->). split_and!.
    + intros r [->|Hr']%elem_of_cons; auto.
    + intros Hc. apply (Hno _ Hc). by apply elem_of_union_l, elem_of_singleton.
    + done.
    + intros t [->|Ht]%elem_of_cons; [done|]. intros Hc. apply (Hno _ Ht). by apply elem_of_union_r.
    + by rewrite set_of_rev_cons.
  - intros (Hall & (Hn & Hnd) & Hno & ->). split_and!; [|done| |].
    + intros r Hr'. apply Hall. by right.
    + intros t Ht. apply not_elem_of_union. split; [by intros ->%elem_of_singleton|].
      apply Hno. by right.
    + by rewrite set_of_rev_cons.
Qed.
Lemma delegated_tools_Ok raws tools :
  delegated_tools raws ∅ = Ok tools <->
  (forall raw, raw ∈ raws -> exists tool, tool ∈ READ_ONLY_TOOLS /\ canonical_tool raw = lit tool) /\
  NoDup (map canonical_tool raws) /\ tools = list_to_set (rev (map canonical_tool raws)).
Proof.
  rewrite delegated_tools_spec, union_empty_r_L. split.
  - intros (Hall & Hnd & _ & ->). split_and!; [|done..]. intros raw Hin. by apply in_list_lit, Hall.
  - intros (Hall & Hnd & ->). split_and!; [|done|set_solver|done]. intros raw Hin.
    by apply in_list_lit, Hall.
Qed.
(** A step that returns nothing. *)
Lemma bind_unit_Ok {B} (r : res str unit) (k : unit -> res str B) b :
  r ≫= k = Ok b <-> r = Ok tt /\ k tt = Ok b.
Proof.
  rewrite bind_Ok. split; [by intros ([] & ? & ?)|]. intros [? ?]. by exists tt.
Qed.
Lemma bind_guard_Ok {B} (c : bool) (e : str) (k : unit -> res str B) b :
  guard_not c e ≫= k = Ok b <-> c = false /\ k tt = Ok b.
Proof. by rewrite bind_unit_Ok, guard_not_Ok. Qed.
Lemma Ok_inj {B} (a b : B) : @Ok str B a = Ok b <-> a = b.
Proof. split; congruence. Qed.

(** [l.is_empty() || l.len() > m] *)
Lemma size_guard {B} (l : list B) (m : Z) :
  0 <= m -> (bool_decide (l = []) || (m <? Z.of_nat (length l))) = false <->
            (1 <= length l <= Z.to_nat m)%nat.
Proof.
  intros Hm. rewrite orb_false_iff, bool_decide_eq_false, Z.ltb_ge.
  destruct l as [|x l]; cbn [length]; [split; [by intros []|lia]|].
  set (n := length l). clearbody n. split; [intros [_ ?]; lia|]. intros ?. split; [done|lia].
Qed.

Lemma in_tools raws tool :
  lit tool ∈ (list_to_set (rev (map canonical_tool raws)) : gset str) <-> delegated raws tool.
Proof. unfold delegated. by rewrite elem_of_list_to_set, !list_elem_of_In, <- in_rev. Qed.
Lemma validate_source_Ok raws source :
  validate_source (list_to_set (rev (map canonical_tool raws))) source = Ok tt <->
  source_delegated raws source.
Proof.
  unfold validate_source. rewrite bind_Ok.
  assert (forall tool, ensure (bool_decide (lit tool ∈ (list_to_set (rev (map canonical_tool raws)) : gset str)))
            (lit "Source " ++ lit (DelegatedSource.kind source) ++ lit " requires delegated tool "
             ++ lit tool ++ lit ".") = Ok tt <-> delegated raws tool) as Hin.
  { intros tool. by rewrite ensure_Ok, bool_decide_eq_true, in_tools. }
  assert (forall r : res str string, (exists tool, r = Ok tool /\ delegated raws tool) <->
    exists tool, r = Ok tool /\ ensure (bool_decide (lit tool ∈ (list_to_set (rev (map canonical_tool raws)) : gset str)))
            (lit "Source " ++ lit (DelegatedSource.kind source) ++ lit " requires delegated tool "
             ++ lit tool ++ lit ".") = Ok tt) as <-.
  { intros r. split; intros (tool & Hr & Ht); exists tool; (split; [done|by apply Hin]). }
  clear Hin. destruct source as [label content|id path|query max auth|id types|types]; simpl.
  - split.
    + intros (tool & [[He Hl]%orb_false_iff [= <-]]%bind_guard_Ok & Ht).
      split_and!; [by destruct content|lia|done].
    + intros (He & Hl & Ht). exists "summarize_text"%string. split; [|exact Ht]. apply bind_guard_Ok.
      split; [|done]. apply orb_false_iff. destruct content; [done|]. split; [done|lia].
  - split.
    + by intros (tool & [[He Hl]%orb_false_iff [= <-]]%bind_guard_Ok & Ht).
    + intros (He & Hl & Ht). eexists. split; [apply bind_guard_Ok; split; [by rewrite He, Hl|done]|done].
  - split.
    + intros (tool & [[[He Hl]%orb_false_iff Hm]%orb_false_iff
        [[[Ho Hc]%orb_false_iff Ha%negb_false_iff]%orb_false_iff [= <-]]%bind_guard_Ok]%bind_guard_Ok & Ht).
      split_and!; [done|lia|lia|done|lia|done|done].
    + intros (He & Hl & Hm & Ho & Hc & Ha & Ht). exists "web_search"%string. split; [|done].
      apply bind_guard_Ok. split; [rewrite He, !orb_false_l; apply orb_false_iff; lia|].
      apply bind_guard_Ok. split; [|done]. rewrite Ho, Ha, orb_false_l. apply orb_false_iff. split; [lia|done].
  - split; [by intros (tool & [= <-] & Ht)|]. intros Ht. by eexists.
  - split.
    + intros (tool & [He [= <-]]%bind_guard_Ok & Ht). split; [|done]. by apply (size_guard types 12).
    + intros (Hl & Ht). exists "task_evidence_read"%string. split; [|done].
      apply bind_guard_Ok. split; [|done]. by apply (size_guard types 12).
Qed.

(** ** What the policy accepts *)
Lemma validate_child_Ok child : validate_child child = Ok tt <-> child_accepted child.
Proof.
  unfold validate_child. rewrite !bind_guard_Ok, bind_unit_Ok, !bind_guard_Ok, bind_Ok, ensure_Ok. split.
  - intros ([Hg Hs]%orb_false_iff & Hsch%str_eqb_eq & Hs8 & Ht8 & tools & (Hr & Hd & ->)%delegated_tools_Ok & Hrest).
    apply bind_unit_Ok in Hrest as [Hsrc Hrest]. apply bind_unit_Ok in Hrest as [Hb%ensure_Ok Hro%ensure_Ok].
    apply in_list_lit in Hro. constructor; try done; try lia.
    + by apply (size_guard (ChildProposal.sources child) 8).
    + by apply (size_guard (ChildProposal.allowed_read_tools child) 8).
    + intros source Hin. apply validate_source_Ok. rewrite for_each_Ok in Hsrc.
      exact (proj1 (list.Forall_forall _ _) Hsrc source Hin).
  - intros [Hg Hgs Hsch Hs Ht Hr Hd Hsrc Hb Hro]. split_and!.
    + apply orb_false_iff. lia.
    + by apply str_eqb_eq.
    + by apply (size_guard (ChildProposal.sources child) 8).
    + by apply (size_guard (ChildProposal.allowed_read_tools child) 8).
    + eexists. split; [apply delegated_tools_Ok; split_and!; [done..|reflexivity]|].
      apply bind_unit_Ok. split.
      * apply for_each_Ok, list.Forall_forall. intros source Hin. by apply validate_source_Ok, Hsrc.
      * apply bind_unit_Ok. split; [by apply ensure_Ok|]. apply ensure_Ok. by apply in_list_lit.
Qed.

Lemma bounded_budget_bounds n b :
  bounded_budget n b = true ->
  64 <= ResourceBudget.max_input_tokens b <= 32000 /\
  16 <= ResourceBudget.max_output_tokens b <= 8000 /\
  n <= ResourceBudget.max_tool_calls b <= 8.
Proof. unfold bounded_budget, in_range. intros H. split_bools. lia. Qed.
Lemma saturating_add_usize_small a b : 0 <= a + b <= usize_max -> saturating_add_usize a b = a + b.
Proof. unfold saturating_add_usize, clamp. lia. Qed.

(** With at most eight children nothing saturates: the sums are exact. *)
Lemma count_children_Ok children : forall i o c n,
  0 <= i -> 0 <= o -> 0 <= c -> Z.of_nat (length children) <= n ->
  i + n * 32000 <= usize_max -> o + n * 32000 <= usize_max -> c + n * 32000 <= usize_max ->
  forall sums, for_fold count_child (i, o, c) children = Ok sums <->
    (forall child, child ∈ children -> child_accepted child) /\
    sums = (i + total ResourceBudget.max_input_tokens children,
            o + total ResourceBudget.max_output_tokens children,
            c + total ResourceBudget.max_tool_calls children).
Proof.
  induction children as [|child children IH]; intros i o c n Hi Ho Hc Hn Hi' Ho' Hc' sums.
  { cbn. rewrite !Z.add_0_r. split; [intros [= <-]; split; [set_solver|done]|by intros [_ ->]]. }
  cbn [for_fold length] in *. rewrite bind_Ok. unfold count_child at 1.
  assert (forall b, validate_child child = Ok tt -> b = ChildProposal.budget child ->
    64 <= ResourceBudget.max_input_tokens b <= 32000 /\ 16 <= ResourceBudget.max_output_tokens b <= 8000 /\
    0 <= ResourceBudget.max_tool_calls b <= 8) as Hb.
  { intros b Hv ->. apply validate_child_Ok in Hv. pose proof (bounded_budget_bounds _ _ (accepted_budget _ Hv)). lia. }
  split.
  - intros (s & [Hv [= <-]]%bind_unit_Ok & Hf). destruct (Hb _ Hv eq_refl) as (? & ? & ?).
    rewrite !saturating_add_usize_small in Hf by lia.
    apply (IH _ _ _ (n - 1)) in Hf as [Hall ->]; [|lia..]. split.
    + intros x [->|Hx]%elem_of_cons; [by apply validate_child_Ok|auto].
    + unfold total. cbn [foldr]. by rewrite !Z.add_assoc.
  - intros [Hall ->]. assert (validate_child child = Ok tt) as Hv by (apply validate_child_Ok, Hall; left).
    destruct (Hb _ Hv eq_refl) as (? & ? & ?). eexists. split; [apply bind_unit_Ok; split; [done|reflexivity]|].
    rewrite !saturating_add_usize_small by lia. apply (IH _ _ _ (n - 1)); [lia..|]. split.
    + intros x Hx. apply Hall. by right.
    + unfold total. cbn [foldr]. by rewrite !Z.add_assoc.
Qed.

Lemma count_plan_Ok children sums :
  (length children <= 8)%nat ->
  for_fold count_child (0, 0, 0) children = Ok sums <->
    (forall child, child ∈ children -> child_accepted child) /\
    sums = (total ResourceBudget.max_input_tokens children,
            total ResourceBudget.max_output_tokens children,
            total ResourceBudget.max_tool_calls children).
Proof. intros Hl. apply (count_children_Ok children 0 0 0 8); unfold usize_max; lia. Qed.

Lemma validate_Ok request :
  validate request = Ok tt <-> plan_accepted request.
Proof.
  unfold validate. cbv zeta. rewrite !bind_unit_Ok, !ensure_Ok, !guard_not_Ok, bind_Ok.
  split.
  - intros (Hv & Hd & Hne & Hm & Ha & [[i o] c] & Hf & Hg).
    assert (1 <= length (CreateDelegationPlanRequest.children request) <= 8)%nat as Hl
      by (apply (size_guard (CreateDelegationPlanRequest.children request) 8); [lia|by rewrite Hne]).
    apply count_plan_Ok in Hf as [Hall [= -> -> ->]]; [|lia]. apply guard_not_Ok in Hg.
    unfold MAX_PARALLEL_CHILDREN, DELEGATION_SCHEMA_VERSION in *. constructor; try done; lia.
  - intros [Hv Hd Hl Ha Hall Hi Ho Hc]. split_and!; [by rewrite Hv|by rewrite Hd| | |done|].
    + apply bool_decide_eq_false. intros He. rewrite He in Hl. cbn in Hl. lia.
    + unfold MAX_PARALLEL_CHILDREN. lia.
    + eexists (_, _, _). split; [apply count_plan_Ok; [lia|]; split; [done|reflexivity]|].
      apply guard_not_Ok. lia.
Qed.

End Policy.
