(* ===== verification/DelegationRuns.v ===== *)
(** * Delegated research: tables, worker and commands
    ([delegation/repository.rs], [worker.rs], [sources.rs], [commands.rs], migration 0024)

    Every function is a program of [Program]: a statement, a transaction, a critical
    section of the cancellation map and an access to a cancellation flag are one node
    each, and everything outside (the disk, the browser, the search, the model, the
    record of the task) is a call.  A flag is a cell of a store that the map and the
    running worker share, as the [Arc<AtomicBool>] is.

    The futures of [join_all] run in one task and hand over only where they wait;
    here they may hand over at every node, which allows more than the code does. *)
From stdpp Require Import sorting.
From S2P Require Import Prelude.
From S2P Require Import RustStr.
From S2P Require Import P0Contracts.
From S2P Require Import JsonValue.
From S2P Require Import Program.
From S2P Require Import TaskStore.
From S2P Require Import EffectJournal.
From S2P Require Import Delegation.
Local Open Scope Z_scope.

(** ** Tables *)
Module PlanRow.
Record t : Type := mk {
  project_id : str;
  task_run_id : str;
  parent_session_id : option str;
  parent_model_route : str;
  state : PlanState.t;
  required_child_count : Z;
  aggregate_budget : AggregateBudget.t;
  synthesis : option DelegationSynthesis.t;
  created_at_ms : Z;
  updated_at_ms : Z;
  completed_at_ms : option Z;
}.
(** [UPDATE .. SET state=?,updated_at_ms=?] *)
Definition mark (v : PlanState.t) (now : Z) (r : t) : t :=
  mk (project_id r) (task_run_id r) (parent_session_id r) (parent_model_route r) v
    (required_child_count r) (aggregate_budget r) (synthesis r) (created_at_ms r) now
    (completed_at_ms r).
Definition conclude (v : PlanState.t) (s : option DelegationSynthesis.t) (now : Z) (at_end : option Z)
    (r : t) : t :=
  mk (project_id r) (task_run_id r) (parent_session_id r) (parent_model_route r) v
    (required_child_count r) (aggregate_budget r) s (created_at_ms r) now at_end.
End PlanRow.

Module ChildRow.
Record t : Type := mk {
  plan_id : str;
  ordinal : Z;
  goal : str;
  source_scope : list Source;
  tool_scope : list str;
  model_route : str;
  budget : ResourceBudget.t;
  state : ChildState.t;
  progress_summary : str;
  result : option ChildResult.t;
  error_code : option str;
  attempt : Z;
  started_at_ms : option Z;
  completed_at_ms : option Z;
  created_at_ms : Z;
  updated_at_ms : Z;
}.
(** [SET state=?,progress_summary=?,updated_at_ms=?] *)
Definition mark (v : ChildState.t) (summary : str) (now : Z) (r : t) : t :=
  mk (plan_id r) (ordinal r) (goal r) (source_scope r) (tool_scope r) (model_route r) (budget r)
    v summary (result r) (error_code r) (attempt r) (started_at_ms r) (completed_at_ms r)
    (created_at_ms r) now.
(** [SET state='running',..,result_json=NULL,error_code=NULL,started_at_ms=?3,
    completed_at_ms=NULL,updated_at_ms=?3,attempt=attempt+?4] *)
Definition start (now : Z) (retry : bool) (r : t) : t :=
  mk (plan_id r) (ordinal r) (goal r) (source_scope r) (tool_scope r) (model_route r) (budget r)
    ChildState.Running (lit "Reading only the explicitly delegated sources.") None None
    (attempt r + if retry then 1 else 0) (Some now) None (created_at_ms r) now.
(** [SET state=?3,progress_summary=?4,result_json=?5,error_code=?6,completed_at_ms=?7,
    updated_at_ms=?7] *)
Definition finish (v : ChildState.t) (summary : str) (res : option ChildResult.t) (error : option str)
    (now : Z) (r : t) : t :=
  mk (plan_id r) (ordinal r) (goal r) (source_scope r) (tool_scope r) (model_route r) (budget r)
    v summary res error (attempt r) (started_at_ms r) (Some now) (created_at_ms r) now.
(** [SET state='cancelled',progress_summary='Cancelled before completion.',
    error_code='cancelled',completed_at_ms=?3,updated_at_ms=?3] *)
Definition cancel (now : Z) (r : t) : t :=
  mk (plan_id r) (ordinal r) (goal r) (source_scope r) (tool_scope r) (model_route r) (budget r)
    ChildState.Cancelled (lit "Cancelled before completion.") (result r) (Some (lit "cancelled"))
    (attempt r) (started_at_ms r) (Some now) (created_at_ms r) now.
End ChildRow.

Module SuggestionState.
Inductive t : Type := AwaitingReview | Accepted | Rejected | Conflict.
End SuggestionState.
#[export] Instance SuggestionState_eq_dec : EqDecision SuggestionState.t.
Proof. solve_decision. Defined.
Module SuggestionRow.
Record t : Type := mk {
  plan_id : str;
  child_run_id : str;
  task_run_id : str;
  kind : str;
  base_revision : str;
  idempotency_key : str;
  summary : str;
  payload : Finding.t;
  state : SuggestionState.t;
  rejection_reason : option str;
  created_at_ms : Z;
  reviewed_at_ms : option Z;
}.
Definition review (v : SuggestionState.t) (reason : option str) (now : Z) (r : t) : t :=
  mk (plan_id r) (child_run_id r) (task_run_id r) (kind r) (base_revision r) (idempotency_key r)
    (summary r) (payload r) v reason (created_at_ms r) (Some now).
End SuggestionRow.
Module WorkSuggestionView.
Record t : Type := mk {
  suggestion_id : str;
  child_run_id : str;
  kind : str;
  summary : str;
  state : SuggestionState.t;
  rejection_reason : option str;
}.
End WorkSuggestionView.

(** The tables of delegation, and the cancellation map with the flags it points to.
    Projects and tasks have their own tables; reading those is a call. *)
Module DelegationDb.
Record t : Type := mk {
  plans : gmap str PlanRow.t;
  children : gmap str ChildRow.t;
  suggestions : gmap str SuggestionRow.t;
  cancellations : gmap str nat;
  flags : list bool;
}.
Definition with_plans v db : t :=
  mk v (children db) (suggestions db) (cancellations db) (flags db).
Definition with_children v db : t :=
  mk (plans db) v (suggestions db) (cancellations db) (flags db).
Definition with_suggestions v db : t :=
  mk (plans db) (children db) v (cancellations db) (flags db).
Definition with_runtime c f db : t :=
  mk (plans db) (children db) (suggestions db) c f.
End DelegationDb.
Notation Db := DelegationDb.t.

(** ** What a plan asks of its surroundings *)
Module DelegationEvent.
Inductive t : Type :=
  | PlanProposed (plan_id : str) (child_count : Z)
  | ChildFinished (plan_id child_run_id : str) (completed : bool) (evidence : option (list SourceEvidence.t))
  | ParentSynthesisReady (plan_id : str) (state : PlanState.t) (ready : bool) (incomplete : list str)
  | PlanPaused (plan_id : str)
  | PlanResumed (plan_id : str)
  | SuggestionReviewed (suggestion_id : str) (accepted : bool)
  | ChildCancelled (plan_id child_run_id : str)
  | PlanCancelled (plan_id : str) (child_count : Z).
Definition event_type (e : t) : string :=
  match e with
  | PlanProposed _ _ => "delegation.plan_proposed"
  | ChildFinished _ _ _ _ => "delegation.child_finished"
  | ParentSynthesisReady _ _ _ _ => "delegation.parent_synthesis_ready"
  | PlanPaused _ => "delegation.plan_paused"
  | PlanResumed _ => "delegation.plan_resumed"
  | SuggestionReviewed _ _ => "delegation.suggestion_reviewed"
  | ChildCancelled _ _ => "delegation.child_cancelled"
  | PlanCancelled _ _ => "delegation.plan_cancelled"
  end.
Definition evidence_class (e : t) : EvidenceClass :=
  match e with
  | PlanProposed _ _ | ChildFinished _ _ _ _ | ParentSynthesisReady _ _ _ _ => ModelAssertion
  | _ => ExecutedMutation
  end.
End DelegationEvent.

(** What the worker reads of a search response. *)
Module SearchResponse.
Record t : Type := mk {
  degraded : bool;
  no_results : bool;
  error_code : option str;
  context_json : str;
}.
End SearchResponse.
Module InferResponse.
Record t : Type := mk { text : str; model_path : str }.
End InferResponse.

(** [ActiveSource] is the canonical path of a source of a project whose grant is active,
    [TaskEventRows] the JSON of a task's events in order. *)
Inductive Call : Type :=
  | RequireBoundTask (task_run_id project_id : str)
  | RecordEvent (task_run_id : str) (event : DelegationEvent.t)
  | ActiveSource (project_id source_id : str)
  | TaskEventRows (task_run_id : str)
  | Canonicalize (p : path)
  | IsSymlink (p : path)
  | Metadata (p : path)
  | ReadToString (p : path)
  | Search (query : str) (max_results : option Z) (task_run_id objective approved_query : str)
  | ReadSnapshot (session_id task_run_id : str)
  | SummarizeGrounded (goal grounding : str)
  | Turn.
(** A call that is awaited is answered by nothing when the child's time is up first. *)
Definition Reply (c : Call) : Type :=
  match c with
  | RequireBoundTask _ _ | RecordEvent _ _ => res str unit
  | ActiveSource _ _ => option str
  | TaskEventRows _ => res str (list str)
  | Canonicalize _ => option path
  | IsSymlink _ => res str bool
  | Metadata _ => res str (bool * Z)
  | ReadToString _ => option str
  | Search _ _ _ _ _ => option (res str SearchResponse.t)
  | ReadSnapshot _ _ => res str str
  | SummarizeGrounded _ _ => option (res str InferResponse.t)
  | Turn => bool
  end.
Definition Env : Type := forall c : Call, Reply c.
Notation prog A := (Program.prog Db Call Env A).
Notation io E A := (Program.io Db Call Env E A).
Notation tx := (Program.tx Db).
Definition ask {E} (c : Call) : io E (Reply c) := Await c (fun env : Env => Ret (Ok (env c))).
(** A call whose failure is the function's. *)
Definition ask_ok {X} (c : Call) (r : Env -> res str X) : io str X := Await c (fun env => Ret (r env)).
Definition record_event (task_run_id : str) (event : DelegationEvent.t) : io str unit :=
  ask_ok (RecordEvent task_run_id event) (fun env => env (RecordEvent task_run_id event)).

Module SourceMaterial.
Record t : Type := mk { evidence : SourceEvidence.t; content : str }.
End SourceMaterial.

Section Runs.
Context `{A : SearchAuthority} {D : Digest} `{T : JsonText}.
Implicit Types db : Db.

(** ** Statements *)
Definition unique_failed (column : string) : str := lit "UNIQUE constraint failed: " ++ lit column.
Definition check_failed : str := lit "CHECK constraint failed: delegation_child_runs".

Definition insert_plan (id : str) (row : PlanRow.t) : tx unit := fun db =>
  match DelegationDb.plans db !! id with
  | Some _ => (Err (unique_failed "delegation_plans.plan_id"), db)
  | None => (Ok tt, DelegationDb.with_plans (<[id := row]> (DelegationDb.plans db)) db)
  end.
Definition insert_child (id : str) (row : ChildRow.t) : tx unit := fun db =>
  match DelegationDb.children db !! id with
  | Some _ => (Err (unique_failed "delegation_child_runs.child_run_id"), db)
  | None => (Ok tt, DelegationDb.with_children (<[id := row]> (DelegationDb.children db)) db)
  end.
Definition update_plan (id : str) (cond : PlanRow.t -> bool) (set : PlanRow.t -> PlanRow.t) : tx Z :=
  change (fun db =>
    let '(n, m) := update_one (DelegationDb.plans db) id cond set in (n, DelegationDb.with_plans m db)).
Definition update_child (id : str) (cond : ChildRow.t -> bool) (set : ChildRow.t -> ChildRow.t)
  : tx Z :=
  change (fun db =>
    let '(n, m) := update_one (DelegationDb.children db) id cond set in
    (n, DelegationDb.with_children m db)).
(** [UPDATE delegation_child_runs SET .. WHERE cond], on every row. *)
Definition update_children (cond : ChildRow.t -> bool) (set : ChildRow.t -> ChildRow.t) : tx unit :=
  fun db =>
    (Ok tt, DelegationDb.with_children
              ((fun row => if cond row then set row else row) <$> DelegationDb.children db) db).
Definition of_plan (plan_id : str) (row : ChildRow.t) : bool := str_eqb (ChildRow.plan_id row) plan_id.
Definition child_in (states : list ChildState.t) (row : ChildRow.t) : bool :=
  bool_decide (ChildRow.state row ∈ states).
Definition plan_in (states : list PlanState.t) (row : PlanRow.t) : bool :=
  bool_decide (PlanRow.state row ∈ states).

(** ** Reading plans *)
Definition before (a b : str * ChildRow.t) : Prop := ChildRow.ordinal a.2 <= ChildRow.ordinal b.2.
#[local] Instance before_dec a b : Decision (before a b).
Proof. unfold before. apply _. Defined.
Definition child_view (id : str) (row : ChildRow.t) : ChildView :=
  ChildRunView.mk id (ChildRow.goal row)
    (map (fun s => lit (DelegatedSource.kind s)) (ChildRow.source_scope row))
    (ChildRow.tool_scope row) (ChildRow.model_route row) (ChildRow.budget row) (ChildRow.state row)
    (ChildRow.progress_summary row) (ChildRow.result row) (ChildRow.error_code row)
    (ChildRow.attempt row mod 256).
(** [SELECT .. WHERE plan_id=?1 ORDER BY ordinal] *)
Definition list_children (plan_id : str) : tx (list ChildView) :=
  select (fun db =>
    map (fun '(id, row) => child_view id row)
      (merge_sort before
         (List.filter (fun '(_, row) => of_plan plan_id row) (map_to_list (DelegationDb.children db))))).
Definition plan_view (id : str) (row : PlanRow.t) (children : list ChildView) : PlanView :=
  DelegationPlanView.mk id (PlanRow.project_id row) (PlanRow.task_run_id row)
    (PlanRow.parent_model_route row) (PlanRow.state row) (PlanRow.aggregate_budget row)
    (PlanRow.synthesis row) children (PlanRow.created_at_ms row) (PlanRow.updated_at_ms row).
Definition get (id : str) : io str PlanView :=
  if negb (begins "delegation_" id) then throw (lit "Invalid delegation plan identifier.")
  else
    found ← sql (select (fun db => DelegationDb.plans db !! id));
    row ← lift (ok_or (lit "Delegation plan was not found.") found);
    children ← sql (list_children id);
    mret (plan_view id row children).

Fixpoint get_all (ids : list str) : io str (list PlanView) :=
  match ids with
  | [] => mret []
  | id :: ids => plan ← get id; plans ← get_all ids; mret (plan :: plans)
  end.
Definition updated_later (a b : str * PlanRow.t) : Prop :=
  PlanRow.updated_at_ms b.2 <= PlanRow.updated_at_ms a.2.
#[local] Instance updated_later_dec a b : Decision (updated_later a b).
Proof. unfold updated_later. apply _. Defined.
Definition list_for_task (task_run_id : str) : io str (list PlanView) :=
  _ ← lift (id_parse KTaskRun task_run_id);
  ids ← sql (select (fun db =>
    map fst (merge_sort updated_later
      (List.filter (fun '(_, row) => str_eqb (PlanRow.task_run_id row) task_run_id)
         (map_to_list (DelegationDb.plans db))))));
  get_all ids.

Definition row_proposal (row : ChildRow.t) : Proposal :=
  ChildProposal.mk (ChildRow.goal row) (lit "findings_sources_uncertainties_v1")
    (ChildRow.source_scope row) (ChildRow.tool_scope row) (ChildRow.model_route row)
    (ChildRow.budget row).
Definition find_child (plan_id child_run_id : str) (db : Db) : option ChildRow.t :=
  match DelegationDb.children db !! child_run_id with
  | Some row => if of_plan plan_id row then Some row else None
  | None => None
  end.
Definition proposal (plan_id child_run_id : str) : io str Proposal :=
  found ← sql (select (find_child plan_id child_run_id));
  row ← lift (ok_or (lit "Delegated child was not found.") found);
  mret (row_proposal row).

(** ** Creating a plan *)
Definition plan_id_of (bytes : list Z) : str := lit "delegation_" ++ hex_encode (take 18 bytes).
Definition planned_plan (request : CreateRequest) (now : Z) : PlanRow.t :=
  PlanRow.mk (CreateDelegationPlanRequest.project_id request)
    (CreateDelegationPlanRequest.task_run_id request)
    (CreateDelegationPlanRequest.parent_session_id request)
    (CreateDelegationPlanRequest.parent_model_route request) PlanState.Planned
    (Z.of_nat (length (CreateDelegationPlanRequest.children request)))
    (CreateDelegationPlanRequest.aggregate_budget request) None now now None.
Definition planned_child (plan_id : str) (ordinal : nat) (child : Proposal) (now : Z) : ChildRow.t :=
  ChildRow.mk plan_id (Z.of_nat ordinal) (ChildProposal.goal child) (ChildProposal.sources child)
    (ChildProposal.allowed_read_tools child) (ChildProposal.model_route child)
    (ChildProposal.budget child) ChildState.Planned
    (lit "Waiting for parent to start the plan.") None None 1 None None now now.
(** The loop of the transaction, the identifiers having been drawn. *)
Fixpoint insert_children (plan_id : str) (now : Z) (ordinal : nat) (children : list (str * Proposal))
  : tx unit :=
  match children with
  | [] => mret tt
  | (id, child) :: children =>
      _ ← insert_child id (planned_child plan_id ordinal child now);
      insert_children plan_id now (S ordinal) children
  end.
Fixpoint new_child_ids (children : list Proposal) : io str (list (str * Proposal)) :=
  match children with
  | [] => mret []
  | child :: children =>
      bytes ← random_bytes;
      rest ← new_child_ids children;
      mret ((P0Contracts.as_str (id_new KChildRun bytes), child) :: rest)
  end.
Definition create (request : CreateRequest) : io str PlanView :=
  let task_run_id := CreateDelegationPlanRequest.task_run_id request in
  let project_id := CreateDelegationPlanRequest.project_id request in
  _ ← lift (validate request);
  _ ← lift (id_parse KProject project_id);
  _ ← lift (id_parse KTaskRun task_run_id);
  _ ← ask_ok (RequireBoundTask task_run_id project_id)
        (fun env => env (RequireBoundTask task_run_id project_id));
  bytes ← random_bytes;
  let id := plan_id_of bytes in
  now ← unix_time_ms_i64;
  children ← new_child_ids (CreateDelegationPlanRequest.children request);
  _ ← sql (transaction (
        _ ← insert_plan id (planned_plan request now);
        insert_children id now 0 children));
  _ ← record_event task_run_id
        (DelegationEvent.PlanProposed id
           (Z.of_nat (length (CreateDelegationPlanRequest.children request))));
  get id.

(** ** Changes of state *)
Definition concluded (state : PlanState.t) : bool :=
  match state with
  | PlanState.Completed | PlanState.Partial | PlanState.Failed | PlanState.Cancelled => true
  | _ => false
  end.
Definition set_plan_state (plan_id : str) (state : PlanState.t) (synthesis : option DelegationSynthesis.t)
  : io str unit :=
  now ← unix_time_ms_i64;
  changed ← sql (update_plan plan_id (fun _ => true)
    (PlanRow.conclude state synthesis now (if concluded state then Some now else None)));
  lift (guard_not (changed =? 0) (lit "Delegation plan was not found.")).

Definition startable : list ChildState.t :=
  [ChildState.Planned; ChildState.Failed; ChildState.Incomplete; ChildState.Cancelled].
Definition set_child_running (plan_id child_run_id : str) (retry : bool) : io str unit :=
  now ← unix_time_ms_i64;
  let cond row := of_plan plan_id row && child_in startable row in
  changed ← sql (fun db =>
    match DelegationDb.children db !! child_run_id with
    | Some row =>
        if cond row && (4 <? ChildRow.attempt (ChildRow.start now retry row)) then (Err check_failed, db)
        else update_child child_run_id cond (ChildRow.start now retry) db
    | None => (Ok 0, db)
    end);
  lift (guard_not (changed =? 0) (lit "Child is not at a safe start or retry boundary.")).

Definition finished (r : res str ChildResult.t)
  : ChildState.t * str * option ChildResult.t * option str :=
  match r with
  | Ok value =>
      if ChildResult.complete value
      then (ChildState.Completed, lit "Structured findings are ready for parent synthesis.", Some value, None)
      else (ChildState.Incomplete, lit "Partial evidence is retained and labeled incomplete.", Some value, None)
  | Err code =>
      if equals code "cancelled"
      then (ChildState.Cancelled, lit "Cancelled; partial work is not treated as complete.", None, Some code)
      else (ChildState.Failed, lit "Child failed without mutation authority.", None, Some code)
  | Panic => (ChildState.Failed, [], None, None)
  end.
Definition finish_child (plan_id child_run_id : str) (r : res str ChildResult.t) : io str unit :=
  now ← unix_time_ms_i64;
  current ← sql (select (fun db => option_map ChildRow.state (find_child plan_id child_run_id db)));
  if bool_decide (current = Some ChildState.Paused) then mret tt
  else
    let '(state, summary, encoded, error) := finished r in
    _ ← sql (update_child child_run_id (of_plan plan_id) (ChildRow.finish state summary encoded error now));
    mret tt.

Definition pause (plan_id : str) : io str unit :=
  now ← unix_time_ms_i64;
  sql (transaction (
    changed ← update_plan plan_id (plan_in [PlanState.Planned; PlanState.Running])
                (PlanRow.mark PlanState.Paused now);
    _ ← tx_lift (guard_not (changed =? 0) (lit "Helpers can only pause while waiting or working."));
    update_children (fun row => of_plan plan_id row && child_in [ChildState.Planned; ChildState.Running] row)
      (ChildRow.mark ChildState.Paused (lit "Paused at a safe boundary.") now))).
Definition resume (plan_id : str) : io str unit :=
  now ← unix_time_ms_i64;
  sql (transaction (
    changed ← update_plan plan_id (plan_in [PlanState.Paused]) (PlanRow.mark PlanState.Planned now);
    _ ← tx_lift (guard_not (changed =? 0) (lit "Helpers are not paused."));
    update_children (fun row => of_plan plan_id row && child_in [ChildState.Paused] row)
      (ChildRow.mark ChildState.Planned (lit "Ready to continue.") now))).
Definition cancel_not_started (plan_id : str) (child_run_id : option str) : io str unit :=
  now ← unix_time_ms_i64;
  let cond row := of_plan plan_id row && child_in [ChildState.Planned; ChildState.Running] row in
  match child_run_id with
  | Some id => _ ← sql (update_child id cond (ChildRow.cancel now)); mret tt
  | None => sql (update_children cond (ChildRow.cancel now))
  end.

(** ** Suggestions *)
Definition suggestion_key (plan_id child_run_id : str) (index : nat) : str :=
  sha256_hex (as_bytes (plan_id ++ lit ":" ++ child_run_id ++ lit ":" ++ show_nat (Z.of_nat index))).
(** [INSERT OR IGNORE]: a row with the identifier or the key stays as it is. *)
Definition insert_or_ignore (id : str) (row : SuggestionRow.t) : tx unit := fun db =>
  let m := DelegationDb.suggestions db in
  if bool_decide (is_Some (m !! id))
     || existsb (fun '(_, r) => str_eqb (SuggestionRow.idempotency_key r) (SuggestionRow.idempotency_key row))
          (map_to_list m)
  then (Ok tt, db)
  else (Ok tt, DelegationDb.with_suggestions (<[id := row]> m) db).
Definition suggest (plan : PlanView) (now : Z) (child_run_id : str) (index : nat) (finding : Finding.t)
  : io str unit :=
  let key := suggestion_key (DelegationPlanView.plan_id plan) child_run_id index in
  sql (insert_or_ignore (lit "suggestion_" ++ take 36 key)
    (SuggestionRow.mk (DelegationPlanView.plan_id plan) child_run_id
       (DelegationPlanView.task_run_id plan) (lit "research_note")
       (show_int (DelegationPlanView.updated_at_ms plan)) key (Finding.statement finding) finding
       SuggestionState.AwaitingReview None now None)).
Definition create_research_suggestions (plan : PlanView) : io str unit :=
  now ← unix_time_ms_i64;
  io_for_each (fun child =>
    match ChildRunView.result child with
    | Some result =>
        io_for_each (fun '(index, finding) =>
            suggest plan now (ChildRunView.child_run_id child) index finding)
          (imap pair (ChildResult.findings result))
    | None => mret tt
    end) (DelegationPlanView.children plan).

Definition made_earlier (a b : str * SuggestionRow.t) : Prop :=
  SuggestionRow.created_at_ms a.2 <= SuggestionRow.created_at_ms b.2.
#[local] Instance made_earlier_dec a b : Decision (made_earlier a b).
Proof. unfold made_earlier. apply _. Defined.
Definition list_suggestions (plan_id : str) : io str (list WorkSuggestionView.t) :=
  sql (select (fun db =>
    map (fun '(id, r) =>
          WorkSuggestionView.mk id (SuggestionRow.child_run_id r) (SuggestionRow.kind r)
            (SuggestionRow.summary r) (SuggestionRow.state r) (SuggestionRow.rejection_reason r))
      (merge_sort made_earlier
        (List.filter (fun '(_, r) => str_eqb (SuggestionRow.plan_id r) plan_id)
           (map_to_list (DelegationDb.suggestions db)))))).
Definition review_suggestion (plan_id suggestion_id : str) (accept : bool) (rejection_reason : option str)
  : io str (list WorkSuggestionView.t) :=
  let reason := trim (default [] rejection_reason) in
  if negb accept && is_empty reason
  then throw (lit "Explain why OOMU should leave this suggestion out.")
  else
    now ← unix_time_ms_i64;
    let state := if accept then SuggestionState.Accepted else SuggestionState.Rejected in
    changed ← sql (change (fun db =>
      let '(n, m) := update_one (DelegationDb.suggestions db) suggestion_id
        (fun r => str_eqb (SuggestionRow.plan_id r) plan_id
                  && bool_decide (SuggestionRow.state r = SuggestionState.AwaitingReview))
        (SuggestionRow.review state (if accept then None else Some reason) now) in
      (n, DelegationDb.with_suggestions m db)));
    _ ← lift (guard_not (changed =? 0) (lit "This suggestion is unavailable or already reviewed."));
    list_suggestions plan_id.

(** ** Cancellation *)
Definition insert_flags (ids : list str) (first : nat) (m : gmap str nat) : gmap str nat :=
  foldl (fun m '(i, id) => <[id := (first + i)%nat]> m) m (imap pair ids).
Definition register (plan_id : str) (child_ids : list str) : io str (list nat) :=
  locked (lit "Delegation cancellation coordinator is unavailable.") (fun db =>
    let state := DelegationDb.cancellations db in
    let flags := DelegationDb.flags db in
    let first := length flags in
    let n := length child_ids in
    if existsb (fun id => bool_decide (is_Some (state !! id))) child_ids
    then (Err (lit "Delegation plan is already running."), db)
    else (Ok (seq first n),
          DelegationDb.with_runtime (<[plan_id := (first + n)%nat]> (insert_flags child_ids first state))
            (flags ++ replicate (S n) false) db)).
Definition unregister (plan_id : str) (child_ids : list str) : io str unit :=
  critical (fun db =>
    (tt, DelegationDb.with_runtime
           (foldl (fun m id => delete id m) (delete plan_id (DelegationDb.cancellations db)) child_ids)
           (DelegationDb.flags db) db)).
(** The flag is found under the lock and raised after it. *)
Definition cancel_flag (id : str) : io str bool :=
  found ← critical (fun db => (DelegationDb.cancellations db !! id, db));
  match found return io str bool with
  | Some flag =>
      critical (fun db =>
        (true, DelegationDb.with_runtime (DelegationDb.cancellations db)
                 (<[flag := true]> (DelegationDb.flags db)) db))
  | None => mret false
  end.
Definition cancelled (flag : nat) : io str bool :=
  critical (fun db => (default false (DelegationDb.flags db !! flag), db)).

(** ** Reading a source *)
Definition material (kind : string) (label content : str) (observed : bool)
  : res str SourceMaterial.t :=
  if 512000 <? str_len content then Err (lit "Delegated source exceeds the V1 context limit.")
  else Ok (SourceMaterial.mk
             (SourceEvidence.mk (lit kind ++ lit ":" ++ sha256_hex (as_bytes label)) (lit kind)
                (sha256_hex (as_bytes content)) observed)
             content).

Definition read_project_file (project_id source_id relative : str) : io str SourceMaterial.t :=
  let relative_path := path_of_str relative in
  if is_absolute relative_path
     || existsb (fun c => str_eqb c parent_dir || str_eqb c root_dir) relative_path
  then throw (lit "Delegated project file escaped its approved source.")
  else
    root ← ask_ok (ActiveSource project_id source_id) (fun env =>
             ok_or (lit "Delegated Project source is unavailable or revoked.")
               (env (ActiveSource project_id source_id)));
    root ← ask_ok (Canonicalize (path_of_str root)) (fun env =>
             ok_or (lit "Delegated Project source is unavailable.") (env (Canonicalize (path_of_str root))));
    candidate ← ask_ok (Canonicalize (path_join root relative_path)) (fun env =>
             ok_or (lit "Delegated Project file is unavailable.")
               (env (Canonicalize (path_join root relative_path))));
    let failed := lit "Delegated Project file failed containment checks." in
    if negb (path_starts_with root candidate) then throw failed
    else
      symlink ← ask_ok (IsSymlink candidate) (fun env => env (IsSymlink candidate));
      if (symlink : bool) then throw failed
      else
        '(is_file, len) ← ask_ok (Metadata candidate) (fun env => env (Metadata candidate));
        if negb is_file || (512000 <? len)
        then throw (lit "Delegated Project file is not a bounded regular file.")
        else
          content ← ask_ok (ReadToString candidate) (fun env =>
            ok_or (lit "Delegated Project file must be readable UTF-8 text.") (env (ReadToString candidate)));
          lift (material "project_file" relative content true).

(** The events of the task that a child may see: of the types that were delegated,
    and observed. *)
Definition event_text (key : string) (value : Value) : str :=
  default [] (JsonValue.get (lit key) value ≫= JsonValue.as_str).
Definition evidence_selected (event_types : list str) (value : Value) : bool :=
  let event := event_text "eventType" value in
  existsb (fun prefix => str_eqb event prefix || starts_with (prefix ++ lit ".") event) event_types
  && in_list (event_text "evidenceClass" value)
       ["observed_result"; "verified_postcondition"; "signed_artifact"]%string.
Definition json_error : str := lit "invalid JSON".
Definition read_task_evidence (task_run_id : str) (event_types : list str) : io str SourceMaterial.t :=
  rows ← ask_ok (TaskEventRows task_run_id) (fun env => env (TaskEventRows task_run_id));
  values ← lift (try_map (fun raw => ok_or json_error (from_str raw)) rows);
  let selected := List.filter (evidence_selected event_types) values in
  if bool_decide (selected = [])
  then throw (lit "No matching observed Task evidence was available to the child.")
  else lift (material "task_evidence" (join (lit ",") event_types) (to_string (Value.Array selected)) true).

Definition child_timeout : str := lit "child_timeout".
(** What is awaited, under the child's timer. *)
Definition in_time {X} (answer : option (res str X)) : res str X :=
  match answer with Some r => r | None => Err child_timeout end.

Definition read (source : Source) (project_id task_run_id : str) : io str SourceMaterial.t :=
  match source with
  | DelegatedSource.InlineText label content => lift (material "inline_text" label content false)
  | DelegatedSource.ProjectFile source_id relative_path =>
      read_project_file project_id source_id relative_path
  | DelegatedSource.WebSearch query max_results authorization =>
      let search := Search query max_results task_run_id
        (DelegatedWebSearchAuthorization.originating_user_objective authorization)
        (DelegatedWebSearchAuthorization.approved_query authorization) in
      response ← ask_ok search (fun env => in_time (env search));
      if SearchResponse.degraded response && SearchResponse.no_results response
      then throw (default (lit "search_unavailable") (SearchResponse.error_code response))
      else lift (material "web_search" query (SearchResponse.context_json response) true)
  | DelegatedSource.BrowserSnapshot session_id =>
      encoded ← ask_ok (ReadSnapshot session_id task_run_id)
                  (fun env => env (ReadSnapshot session_id task_run_id));
      lift (material "browser_snapshot" session_id encoded true)
  | DelegatedSource.TaskEvidence event_types => read_task_evidence task_run_id event_types
  end.

(** ** The worker *)
Definition read_sources (sources : list Source) (project_id task_run_id : str) (cancel : nat)
  : io str (list SourceMaterial.t) :=
  io_for_fold (fun materials source =>
    stop ← cancelled cancel;
    if (stop : bool) then throw (lit "cancelled")
    else
      item ← read source project_id task_run_id;
      mret (materials ++ [item])) [] sources.
Fixpoint grounding_from (index : Z) (materials : list SourceMaterial.t) : str :=
  match materials with
  | [] => []
  | item :: materials =>
      [10] ++ lit "SOURCE " ++ show_nat index ++ lit " ["
      ++ SourceEvidence.source_ref (SourceMaterial.evidence item) ++ lit "]" ++ [10]
      ++ SourceMaterial.content item ++ [10] ++ grounding_from (index + 1) materials
  end.
Definition child_result (materials : list SourceMaterial.t) (output model_path : str) (complete : bool)
    (elapsed input_tokens output_tokens : Z) : ChildResult.t :=
  ChildResult.mk
    [Finding.mk output (map (fun m => SourceEvidence.source_ref (SourceMaterial.evidence m)) materials)
       (lit "model_assertion_grounded_in_observed_sources")]
    (map SourceMaterial.evidence materials) []
    [lit "This child had read-only authority; it did not execute or verify mutations."]
    complete model_path elapsed input_tokens output_tokens.
Definition run_child (proposal : Proposal) (project_id task_run_id : str) (cancel : nat)
  : io str ChildResult.t :=
  let budget := ChildProposal.budget proposal in
  let goal := ChildProposal.goal proposal in
  started ← unix_time_ms_i64;
  materials ← read_sources (ChildProposal.sources proposal) project_id task_run_id cancel;
  let grounding := grounding_from 1 materials in
  let input_tokens := div_ceil (str_len grounding) 4 in
  if ResourceBudget.max_input_tokens budget <? input_tokens then throw (lit "input_budget_exceeded")
  else
    stop ← cancelled cancel;
    if (stop : bool) then throw (lit "cancelled")
    else
      inference ← ask_ok (SummarizeGrounded goal grounding)
                    (fun env => in_time (env (SummarizeGrounded goal grounding)));
      let output := trim (InferResponse.text inference) in
      let output_tokens := div_ceil (str_len output) 4 in
      if is_empty output then throw (lit "empty_model_result")
      else if (ResourceBudget.max_output_tokens budget <? output_tokens)
              || (ResourceBudget.max_response_bytes budget <? str_len output)
      then throw (lit "output_budget_exceeded")
      else
        stop ← cancelled cancel;
        ended ← unix_time_ms_i64;
        mret (child_result materials output (InferResponse.model_path inference) (negb stop)
                (Z.max 0 (ended - started)) input_tokens output_tokens).

(** ** Commands *)
Definition final_state (children : list ChildView) : PlanState.t :=
  let completed := length (List.filter
    (fun c => bool_decide (ChildRunView.state c = ChildState.Completed)) children) in
  if bool_decide (completed = length children) then PlanState.Completed
  else if (0 <? completed)%nat then PlanState.Partial
  else if forallb (fun c => bool_decide (ChildRunView.state c = ChildState.Cancelled)) children
  then PlanState.Cancelled
  else PlanState.Failed.
Definition finalize (plan_id : str) : io str PlanView :=
  view ← get plan_id;
  _ ← create_research_suggestions view;
  let synthesis := synthesize (DelegationPlanView.children view) in
  let state := final_state (DelegationPlanView.children view) in
  _ ← set_plan_state plan_id state (Some synthesis);
  _ ← record_event (DelegationPlanView.task_run_id view)
        (DelegationEvent.ParentSynthesisReady plan_id state
           (DelegationSynthesis.ready_for_parent_synthesis synthesis)
           (DelegationSynthesis.incomplete_child_run_ids synthesis));
  get plan_id.

(** The children are marked as running one by one, and their workers made. *)
Fixpoint start_children (plan : PlanView) (children : list (str * nat))
  : io str (list (io str ChildResult.t)) :=
  match children with
  | [] => mret []
  | (id, flag) :: children =>
      _ ← set_child_running (DelegationPlanView.plan_id plan) id false;
      p ← proposal (DelegationPlanView.plan_id plan) id;
      rest ← start_children plan children;
      mret (run_child p (DelegationPlanView.project_id plan) (DelegationPlanView.task_run_id plan) flag
              :: rest)
  end.
Definition complete_result (r : res str ChildResult.t) : bool :=
  match r with Ok value => ChildResult.complete value | _ => false end.
Definition record_result (plan : PlanView) (entry : str * res str ChildResult.t) : io str unit :=
  let '(id, r) := entry in
  let plan_id := DelegationPlanView.plan_id plan in
  _ ← finish_child plan_id id r;
  record_event (DelegationPlanView.task_run_id plan)
    (DelegationEvent.ChildFinished plan_id id (complete_result r)
       (match r with Ok value => Some (ChildResult.sources value) | _ => None end)).
Definition execute_delegation_plan (plan_id : str) : io str PlanView :=
  plan ← get plan_id;
  let id := DelegationPlanView.plan_id plan in
  if negb (bool_decide (DelegationPlanView.state plan ∈ [PlanState.Planned; PlanState.Partial; PlanState.Failed]))
  then throw (lit "Delegation plan is not at a safe execution boundary.")
  else
    let ids := map ChildRunView.child_run_id
      (List.filter (fun c => bool_decide (ChildRunView.state c ∈ startable))
         (DelegationPlanView.children plan)) in
    if bool_decide (ids = []) then throw (lit "Delegation plan has no runnable children.")
    else
      flags ← register id ids;
      _ ← set_plan_state id PlanState.Running None;
      workers ← start_children plan (zip ids flags);
      results ← bind (fun l => Ret (Ok l)) (join_all Turn (fun env : Env => env Turn) workers);
      _ ← io_for_each (record_result plan) (zip ids results);
      _ ← unregister id ids;
      now_at ← get id;
      if bool_decide (DelegationPlanView.state now_at = PlanState.Paused) then get id
      else finalize id.

Definition pause_delegation_plan (plan_id : str) : io str PlanView :=
  plan ← get plan_id;
  let id := DelegationPlanView.plan_id plan in
  _ ← cancel_flag id;
  _ ← io_for_each (fun child => _ ← cancel_flag (ChildRunView.child_run_id child); mret tt)
        (DelegationPlanView.children plan);
  _ ← pause id;
  _ ← record_event (DelegationPlanView.task_run_id plan) (DelegationEvent.PlanPaused id);
  get id.
Definition resume_delegation_plan (plan_id : str) : io str PlanView :=
  plan ← get plan_id;
  let id := DelegationPlanView.plan_id plan in
  _ ← resume id;
  _ ← record_event (DelegationPlanView.task_run_id plan) (DelegationEvent.PlanResumed id);
  get id.
Definition review_work_suggestion (plan_id suggestion_id : str) (accept : bool)
    (rejection_reason : option str) : io str (list WorkSuggestionView.t) :=
  plan ← get plan_id;
  result ← review_suggestion plan_id suggestion_id accept rejection_reason;
  _ ← record_event (DelegationPlanView.task_run_id plan)
        (DelegationEvent.SuggestionReviewed suggestion_id accept);
  mret result.
Definition cancel_delegation_child (plan_id child_run_id : str) : io str PlanView :=
  plan ← get plan_id;
  if negb (existsb (fun c => str_eqb (ChildRunView.child_run_id c) child_run_id)
             (DelegationPlanView.children plan))
  then throw (lit "Child does not belong to the requested plan.")
  else
    _ ← cancel_flag child_run_id;
    _ ← cancel_not_started plan_id (Some child_run_id);
    _ ← record_event (DelegationPlanView.task_run_id plan)
          (DelegationEvent.ChildCancelled plan_id child_run_id);
    get plan_id.
Definition cancel_delegation_plan (plan_id : str) : io str PlanView :=
  plan ← get plan_id;
  _ ← cancel_flag plan_id;
  _ ← io_for_each (fun child => _ ← cancel_flag (ChildRunView.child_run_id child); mret tt)
        (DelegationPlanView.children plan);
  _ ← cancel_not_started plan_id None;
  _ ← set_plan_state plan_id PlanState.Cancelled None;
  _ ← record_event (DelegationPlanView.task_run_id plan)
        (DelegationEvent.PlanCancelled plan_id (Z.of_nat (length (DelegationPlanView.children plan))));
  get plan_id.
Definition retry_delegation_child (plan_id child_run_id : str) : io str PlanView :=
  plan ← get plan_id;
  let plan_id := DelegationPlanView.plan_id plan in
  child ← lift (ok_or (lit "Child does not belong to the plan.")
            (List.find (fun c => str_eqb (ChildRunView.child_run_id c) child_run_id)
               (DelegationPlanView.children plan)));
  let id := ChildRunView.child_run_id child in
  if 4 <=? ChildRunView.attempt child then throw (lit "Child retry budget is exhausted.")
  else if negb (bool_decide (ChildRunView.state child ∈
                 [ChildState.Failed; ChildState.Incomplete; ChildState.Cancelled]))
  then throw (lit "Only failed, incomplete, or cancelled children can be retried safely.")
  else
    flags ← register plan_id [id];
    _ ← set_plan_state plan_id PlanState.Running None;
    _ ← set_child_running plan_id id true;
    p ← proposal plan_id id;
    flag ← lift (or_panic (head flags));
    result ← attempt (run_child p (DelegationPlanView.project_id plan)
                        (DelegationPlanView.task_run_id plan) flag);
    _ ← finish_child plan_id id result;
    _ ← unregister plan_id [id];
    finalize plan_id.
End Runs.
