(* ===== verification/DelegationSystem.v ===== *)
(** * Delegated research under concurrency

    The commands as threads over one state ([Program.system]).  A thread carries the
    facts it has learnt; the protocol says that a row of a child appears only where
    its plan was accepted, that what a child reads was delegated to it, and that a
    result is stored as what the worker made of what it read. *)
From S2P Require Import Prelude.
From S2P Require Import RustStr.
From S2P Require Import P0Contracts.
From S2P Require Import JsonValue.
From S2P Require Import Program.
From S2P Require Import EffectJournal.
From S2P Require Import Delegation.
From S2P Require Import DelegationRuns.
Local Open Scope Z_scope.

Module DelegationJob.
Inductive t : Type :=
  | Create (request : CreateRequest)
  | ListPlans (task_run_id : str)
  | Load (plan_id : str)
  | Execute (plan_id : str)
  | Pause (plan_id : str)
  | Resume (plan_id : str)
  | CancelPlan (plan_id : str)
  | CancelChild (plan_id child_run_id : str)
  | Retry (plan_id child_run_id : str)
  | Review (plan_id suggestion_id : str) (accept : bool) (rejection_reason : option str)
  | ListSuggestions (plan_id : str).
End DelegationJob.
Notation Job := DelegationJob.t.
Module DelegationReply.
Inductive t : Type :=
  | Plan (r : res str PlanView)
  | Plans (r : res str (list PlanView))
  | Suggestions (r : res str (list WorkSuggestionView.t)).
End DelegationReply.

Section System.
Context `{A : SearchAuthority} {D : Digest} `{T : JsonText}.
Notation Event := (event Call Env Job DelegationReply.t).

Definition reply {X} (f : res str X -> DelegationReply.t) (p : io str X) : prog DelegationReply.t :=
  bind (fun r => Ret (f r)) p.
Definition job_body (j : Job) : prog DelegationReply.t :=
  match j with
  | DelegationJob.Create request => reply DelegationReply.Plan (create request)
  | DelegationJob.ListPlans task_run_id => reply DelegationReply.Plans (list_for_task task_run_id)
  | DelegationJob.Load plan_id => reply DelegationReply.Plan (get plan_id)
  | DelegationJob.Execute plan_id => reply DelegationReply.Plan (execute_delegation_plan plan_id)
  | DelegationJob.Pause plan_id => reply DelegationReply.Plan (pause_delegation_plan plan_id)
  | DelegationJob.Resume plan_id => reply DelegationReply.Plan (resume_delegation_plan plan_id)
  | DelegationJob.CancelPlan plan_id => reply DelegationReply.Plan (cancel_delegation_plan plan_id)
  | DelegationJob.CancelChild plan_id child_run_id =>
      reply DelegationReply.Plan (cancel_delegation_child plan_id child_run_id)
  | DelegationJob.Retry plan_id child_run_id =>
      reply DelegationReply.Plan (retry_delegation_child plan_id child_run_id)
  | DelegationJob.Review plan_id suggestion_id accept reason =>
      reply DelegationReply.Suggestions (review_work_suggestion plan_id suggestion_id accept reason)
  | DelegationJob.ListSuggestions plan_id =>
      reply DelegationReply.Suggestions (list_suggestions plan_id)
  end.
(** Nobody else writes these tables while plans run; deleting a project with its
    plans is left out. *)
Definition elsewhere (db db' : Db) : Prop := db' = db.

(** ** What was asked for *)
Definition commissioned (l : list Event) (project_id task_run_id : str) (p : Proposal) : Prop :=
  exists request,
    Spawned (DelegationJob.Create request) ∈ l /\ plan_accepted request /\
    CreateDelegationPlanRequest.project_id request = project_id /\
    CreateDelegationPlanRequest.task_run_id request = task_run_id /\
    p ∈ CreateDelegationPlanRequest.children request.

(** *** Results *)
Record within_budget (p : Proposal) (r : ChildResult.t) : Prop := {
  within_input : ChildResult.input_tokens_estimate r <= ResourceBudget.max_input_tokens (ChildProposal.budget p);
  within_output : ChildResult.output_tokens_estimate r <= ResourceBudget.max_output_tokens (ChildProposal.budget p);
  within_statement : exists f, ChildResult.findings r = [f] /\ Finding.statement f <> [] /\
    str_len (Finding.statement f) <= ResourceBudget.max_response_bytes (ChildProposal.budget p) /\
    Finding.source_refs f = map SourceEvidence.source_ref (ChildResult.sources r);
  within_sources : map SourceEvidence.source_kind (ChildResult.sources r) =
    map (fun s => lit (DelegatedSource.kind s)) (ChildProposal.sources p);
}.
(** A child is completed, or incomplete, exactly when it has a result that is. *)
Definition settled (row : ChildRow.t) : Prop :=
  match ChildRow.result row with
  | Some r =>
      ChildRow.state row = (if ChildResult.complete r then ChildState.Completed else ChildState.Incomplete) /\
      within_budget (row_proposal row) r
  | None => ChildRow.state row <> ChildState.Completed /\ ChildRow.state row <> ChildState.Incomplete
  end.

(** ** What a thread knows *)
Inductive fact : Type :=
  | Heard (c : Call) (env : Env)
  | Asked (request : CreateRequest)
  | SawPlan (plan_id project_id task_run_id : str)
  | SawChild (child_run_id plan_id : str) (p : Proposal).
Implicit Types t u : list fact.

(** What a thread has seen of the tables is still so. *)
Definition seen (db : Db) (f : fact) : Prop :=
  match f with
  | Heard _ _ | Asked _ => True
  | SawPlan id project_id task_run_id => exists row,
      DelegationDb.plans db !! id = Some row /\ PlanRow.project_id row = project_id /\
      PlanRow.task_run_id row = task_run_id
  | SawChild id plan_id p => exists row,
      DelegationDb.children db !! id = Some row /\ ChildRow.plan_id row = plan_id /\ row_proposal row = p
  end.
Definition holds (l : list Event) (f : fact) : Prop :=
  match f with
  | Heard c env => Noted (Answered c env) ∈ l
  | Asked request => Spawned (DelegationJob.Create request) ∈ l
  | _ => True
  end.
Definition sees t (db : Db) : Prop := Forall (seen db) t.

(** ** What may be called *)
(** The thread works for this child. *)
Definition works_for t (project_id task_run_id : str) (p : Proposal) : Prop :=
  exists plan_id child_run_id,
    SawPlan plan_id project_id task_run_id ∈ t /\ SawChild child_run_id plan_id p ∈ t.

(** [licence asked child c]: a call is one that reads a delegated source.  [answered]
    says which answers were heard, [child] whose work it is. *)
Definition contained (answered : Call -> Env -> Prop) (project_id source_id relative : str) (p : path)
  : Prop :=
  exists root base env1 env2 env3,
    answered (ActiveSource project_id source_id) env1 /\
    (env1 (ActiveSource project_id source_id) : option str) = Some root /\
    answered (Canonicalize (path_of_str root)) env2 /\
    (env2 (Canonicalize (path_of_str root)) : option path) = Some base /\
    answered (Canonicalize (path_join base (path_of_str relative))) env3 /\
    (env3 (Canonicalize (path_join base (path_of_str relative))) : option path) = Some p /\
    path_starts_with base p = true.
Definition licence (answered : Call -> Env -> Prop) (child : str -> str -> Proposal -> Prop) (c : Call)
  : Prop :=
  match c with
  | RequireBoundTask _ _ | RecordEvent _ _ | Canonicalize _ | Turn => True
  | ActiveSource project_id source_id => exists task_run_id p relative,
      child project_id task_run_id p /\ DelegatedSource.ProjectFile source_id relative ∈ ChildProposal.sources p
  | TaskEventRows task_run_id => exists project_id p event_types,
      child project_id task_run_id p /\ DelegatedSource.TaskEvidence event_types ∈ ChildProposal.sources p
  | IsSymlink path | Metadata path => exists project_id task_run_id p source_id relative,
      child project_id task_run_id p /\
      DelegatedSource.ProjectFile source_id relative ∈ ChildProposal.sources p /\
      contained answered project_id source_id relative path
  | ReadToString path => exists project_id task_run_id p source_id relative,
      child project_id task_run_id p /\
      DelegatedSource.ProjectFile source_id relative ∈ ChildProposal.sources p /\
      contained answered project_id source_id relative path /\
      exists env1 env2 len,
        answered (IsSymlink path) env1 /\ (env1 (IsSymlink path) : res str bool) = Ok false /\
        answered (Metadata path) env2 /\
        (env2 (Metadata path) : res str (bool * Z)) = Ok (true, len) /\ len <= 512000
  | Search query max_results task_run_id objective approved_query => exists project_id p,
      child project_id task_run_id p /\
      DelegatedSource.WebSearch query max_results
        (DelegatedWebSearchAuthorization.mk objective approved_query) ∈ ChildProposal.sources p
  | ReadSnapshot session_id task_run_id => exists project_id p,
      child project_id task_run_id p /\
      DelegatedSource.BrowserSnapshot session_id ∈ ChildProposal.sources p
  | SummarizeGrounded goal grounding => exists project_id task_run_id p,
      child project_id task_run_id p /\ goal = ChildProposal.goal p /\
      str_len grounding <= 4 * ResourceBudget.max_input_tokens (ChildProposal.budget p)
  end.
Lemma licence_mono (a a' : Call -> Env -> Prop) (k k' : str -> str -> Proposal -> Prop) c :
  (forall c env, a c env -> a' c env) -> (forall x y p, k x y p -> k' x y p) ->
  licence a k c -> licence a' k' c.
Proof.
  intros Ha Hk.
  assert (forall x y z p, contained a x y z p -> contained a' x y z p) as Hc.
  { intros x y z p (r & b & e1 & e2 & e3 & ? & ? & ? & ? & ? & ? & ?).
    exists r, b, e1, e2, e3. split_and!; auto. }
  destruct c; simpl; try done.
  - intros (y & p & z & ? & ?). exists y, p, z. auto.
  - intros (y & p & z & ? & ?). exists y, p, z. auto.
  - intros (x & y & q & z & w & ? & ? & ?). exists x, y, q, z, w. auto.
  - intros (x & y & q & z & w & ? & ? & ?). exists x, y, q, z, w. auto.
  - intros (x & y & q & z & w & ? & ? & ? & e & e' & n & ? & ? & ? & ? & ?). exists x, y, q, z, w.
    split_and!; auto. exists e, e', n. split_and!; auto.
  - intros (x & q & ? & ?). exists x, q. auto.
  - intros (x & q & ? & ?). exists x, q. auto.
  - intros (x & y & q & ? & ? & ?). exists x, y, q. auto.
Qed.
Definition permitted t : Call -> Prop := licence (fun c env => Heard c env ∈ t) (works_for t).
Definition licensed (l : list Event) : Call -> Prop :=
  licence (fun c env => Noted (Answered c env) ∈ l) (commissioned l).

(** ** The protocol *)
Definition same_child (r r' : ChildRow.t) : Prop :=
  ChildRow.plan_id r = ChildRow.plan_id r' /\ row_proposal r = row_proposal r'.
Definition same_plan (r r' : PlanRow.t) : Prop :=
  PlanRow.project_id r = PlanRow.project_id r' /\ PlanRow.task_run_id r = PlanRow.task_run_id r'.
(** A new row belongs to a request of this thread that was accepted. *)
Definition may_create t (db' : Db) (row : ChildRow.t) : Prop :=
  exists request plan,
    Asked request ∈ t /\ plan_accepted request /\
    DelegationDb.plans db' !! ChildRow.plan_id row = Some plan /\
    PlanRow.project_id plan = CreateDelegationPlanRequest.project_id request /\
    PlanRow.task_run_id plan = CreateDelegationPlanRequest.task_run_id request /\
    row_proposal row ∈ CreateDelegationPlanRequest.children request /\ settled row.

Record moves t t' (db db' : Db) : Prop := {
  moves_learns : exists new, t' = new ++ t /\ Forall (fun f => seen db f /\
    match f with Heard _ _ | Asked _ => False | _ => True end) new;
  moves_plans : forall id row, DelegationDb.plans db !! id = Some row ->
    exists row', DelegationDb.plans db' !! id = Some row' /\ same_plan row row';
  moves_children : forall id row, DelegationDb.children db !! id = Some row ->
    exists row', DelegationDb.children db' !! id = Some row' /\ same_child row row';
  moves_rows : sees t db -> forall id row', DelegationDb.children db' !! id = Some row' ->
    (exists row, DelegationDb.children db !! id = Some row /\ same_child row row' /\
       (settled row -> settled row')) \/ may_create t db' row';
}.
Definition answers t (c : Call) (env : Env) t' : Prop := t' = Heard c env :: t /\ permitted t c.
Definition init (j : Job) : list fact :=
  match j with DelegationJob.Create request => [Asked request] | _ => [] end.
Definition returns (j : Job) t (r : DelegationReply.t) : Prop := True.

Record delegation_ok (db : Db) (ts : list (option (list fact))) (l : list Event) : Prop := {
  ok_facts : forall n t, ts !! n = Some (Some t) -> Forall (holds l) t /\ sees t db;
  ok_children : forall id row, DelegationDb.children db !! id = Some row ->
    settled row /\ exists plan,
      DelegationDb.plans db !! ChildRow.plan_id row = Some plan /\
      commissioned l (PlanRow.project_id plan) (PlanRow.task_run_id plan) (row_proposal row);
  ok_calls : forall c env, Noted (Answered c env) ∈ l -> licensed l c;
}.

Lemma commissioned_mono l l' x y p : l ⊆ l' -> commissioned l x y p -> commissioned l' x y p.
Proof. intros Hl (r & H & ?). exists r. split; [by apply Hl|done]. Qed.
Lemma delegation_holds_mono l l' f : l ⊆ l' -> holds l f -> holds l' f.
Proof. intros Hl. destruct f; simpl; auto. Qed.
Lemma licensed_mono l l' c : l ⊆ l' -> licensed l c -> licensed l' c.
Proof. intros Hl. apply licence_mono; [by intros ? ? ?; apply Hl|]. intros x y p. by apply commissioned_mono. Qed.

Lemma works_for_commissioned db ts l t x y p :
  delegation_ok db ts l -> sees t db -> works_for t x y p -> commissioned l x y p.
Proof.
  intros HI Hs (plan_id & id & Hp & Hc). unfold sees in Hs. rewrite list.Forall_forall in Hs.
  destruct (Hs _ Hp) as (plan & Hpl & <- & <-). destruct (Hs _ Hc) as (row & Hrow & <- & <-).
  destruct (ok_children _ _ _ HI _ _ Hrow) as (_ & plan' & Hpl' & Hcom). by simplify_eq.
Qed.
Lemma permitted_licensed db ts l t c :
  delegation_ok db ts l -> Forall (holds l) t -> sees t db -> permitted t c -> licensed l c.
Proof.
  intros HI Ht Hs. apply licence_mono.
  - intros c' env Hin. rewrite list.Forall_forall in Ht. exact (Ht _ Hin).
  - intros x y p. by eapply works_for_commissioned.
Qed.

Lemma seen_kept t t' db db' f : moves t t' db db' -> seen db f -> seen db' f.
Proof.
  intros M. destruct f as [c env|request|id x y|id plan_id p]; simpl; [done|done| |].
  - intros (row & Hrow & <- & <-). destruct (moves_plans _ _ _ _ M _ _ Hrow) as (row' & H' & -> & ->).
    by exists row'.
  - intros (row & Hrow & <- & <-). destruct (moves_children _ _ _ _ M _ _ Hrow) as (row' & H' & -> & ->).
    by exists row'.
Qed.
Lemma delegation_ok_log db ts l e :
  match e with Noted (Answered _ _) => False | _ => True end ->
  delegation_ok db ts l -> delegation_ok db ts (l ++ [e]).
Proof.
  intros He [Hf Hc Ha]. assert (l ⊆ l ++ [e]) as Hl by set_solver. constructor.
  - intros n t Hn. destruct (Hf n t Hn) as [Hh Hs]. split; [|done].
    eapply list.Forall_impl; [exact Hh|]. intros f. by apply delegation_holds_mono.
  - intros id row Hrow. destruct (Hc id row Hrow) as (Hs & plan & Hp & Hcom).
    split; [done|]. exists plan. split; [done|by eapply commissioned_mono].
  - intros c env [Hin|Hin]%elem_of_app; [by eapply licensed_mono, Ha|].
    apply list_elem_of_singleton in Hin as <-. done.
Qed.
Lemma delegation_ok_end db ts l n : delegation_ok db ts l -> delegation_ok db (<[n := None]> ts) l.
Proof.
  intros [Hf Hc Ha]. constructor; try done. intros m t [[_ [=]]|Hm]%lookup_insert_thread. by eapply Hf.
Qed.

#[export] Instance delegation_sound :
  Sound elsewhere init moves never_starts answers returns delegation_ok.
Proof.
  constructor.
  - intros db ts l j HI. apply (delegation_ok_log _ _ _ (Spawned j)) in HI; [|done].
    destruct HI as [Hf Hc Ha]. constructor; try done.
    intros n t [Hn|(_ & Hn)]%lookup_app_Some; [by eapply Hf|].
    apply list_lookup_singleton_Some in Hn as [_ [= <-]]. destruct j; simpl; (split; [|]); repeat constructor.
    simpl. set_solver.
  - intros db db' ts l n t t' HI Hn M. pose proof M as [(new & -> & Hnew) _ _ Mr].
    destruct (ok_facts _ _ _ HI n t Hn) as [Hh Hs]. constructor.
    + intros m x [[-> [= <-]]|Hm]%lookup_insert_thread.
      * split.
        -- apply Forall_app. split; [|done]. eapply list.Forall_impl; [exact Hnew|]. by intros [] [_ []].
        -- apply Forall_app. split.
           ++ eapply list.Forall_impl; [exact Hnew|]. intros f [Hf _]. by eapply seen_kept.
           ++ eapply list.Forall_impl; [exact Hs|]. intros f. by eapply seen_kept.
      * destruct (ok_facts _ _ _ HI m x Hm) as [Hx Hsx]. split; [done|].
        eapply list.Forall_impl; [exact Hsx|]. intros f. by eapply seen_kept.
    + intros id row' Hrow'. destruct (Mr Hs id row' Hrow') as [(row & Hrow & (Hp & Hq) & Hse)|Hnewrow].
      * destruct (ok_children _ _ _ HI _ _ Hrow) as (Hset & plan & Hpl & Hcom). split; [auto|].
        destruct (moves_plans _ _ _ _ M _ _ Hpl) as (plan' & Hpl' & Hx & Hy).
        exists plan'. rewrite <- Hp, <- Hq, <- Hx, <- Hy. done.
      * destruct Hnewrow as (request & plan & Has & Hacc & Hpl & Hx & Hy & Hin & Hset).
        split; [done|]. exists plan. split; [done|]. exists request.
        rewrite list.Forall_forall in Hh. split; [exact (Hh _ Has)|done].
    + apply HI.
  - intros db ts l n t t' r _ _ [].
  - intros db ts l n t t' c env HI Hn [-> Hperm]. destruct (ok_facts _ _ _ HI n t Hn) as [Hh Hs].
    pose proof (permitted_licensed _ _ _ _ _ HI Hh Hs Hperm) as Hlic.
    assert (l ⊆ l ++ [Noted (Answered c env)]) as Hl by set_solver.
    destruct HI as [Hf Hc Ha]. constructor.
    + intros m x [[-> [= <-]]|Hm]%lookup_insert_thread.
      * split; [|by constructor]. constructor; [simpl; set_solver|].
        eapply list.Forall_impl; [exact Hh|]. intros f. by apply delegation_holds_mono.
      * destruct (Hf m x Hm) as [Hx Hsx]. split; [|done].
        eapply list.Forall_impl; [exact Hx|]. intros f. by apply delegation_holds_mono.
    + intros id row Hrow. destruct (Hc id row Hrow) as (Hse & plan & Hp & Hcom).
      split; [done|]. exists plan. split; [done|by eapply commissioned_mono].
    + intros c' env' [Hin|Hin]%elem_of_app; [by eapply licensed_mono, Ha|].
      apply list_elem_of_singleton in Hin. injection Hin as -> ->. by eapply licensed_mono.
  - intros db ts l n t j r HI Hn _. apply delegation_ok_log; [done|]. by apply delegation_ok_end.
  - intros db ts l n. apply delegation_ok_end.
  - intros db db' ts l HI ->. done.
Qed.

#[export] Instance delegation_growing : Growing moves answers.
Proof.
  constructor.
  - intros t t' db db' [(new & -> & _) _ _ _]. set_solver.
  - intros t t' c env [-> _]. set_solver.
Qed.

#[export] Instance delegation_monotone : Monotone moves answers.
Proof.
  constructor.
  - intros t t' u db db' [(new & -> & Hnew) Mp Mc Mr] Htu. exists (new ++ u). split; [|set_solver].
    constructor; [by exists new|done|done|]. intros Hs id row' Hrow'.
    assert (sees t db) as Hst.
    { unfold sees in *. rewrite list.Forall_forall in *. auto. }
    destruct (Mr Hst id row' Hrow') as [?|(request & plan & Hin & ?)]; [by left|]. right.
    exists request, plan. split; [by apply Htu|done].
  - intros t t' u c env [-> Hperm] Htu. exists (Heard c env :: u). split; [|set_solver].
    split; [done|]. eapply licence_mono, Hperm; [by intros ? ? ?; apply Htu|].
    intros x y p (a & b & ? & ?). exists a, b. split; by apply Htu.
Qed.
End System.
