(* ===== verification/DelegationProtocol.v ===== *)
(** * Delegated research: every command keeps to the protocol

    [kept]: what a statement does to rows that are there; [spec t p P]: from the facts
    [t], [p] keeps to the protocol of [DelegationSystem] and what it returns satisfies
    [P].  Every command does, which gives the invariant of the system. *)
From S2P Require Import Prelude.
From S2P Require Import RustStr.
From S2P Require Import P0Contracts.
From S2P Require Import JsonValue.
From S2P Require Import Program.
From S2P Require Import TaskStore.
From S2P Require Import EffectJournal.
From S2P Require Import Delegation.
From S2P Require Import DelegationRuns.
From S2P Require Import DelegationSystem.
Local Open Scope Z_scope.

Section Keeping.
Context `{A : SearchAuthority} {D : Digest} `{T : JsonText}.
Implicit Types (db : Db) (t u : list fact).
Notation spec := (learns moves answers).

(** ** Moves *)
Lemma moves_new t new db :
  Forall (fun f => seen db f /\ match f with Heard _ _ | Asked _ => False | _ => True end) new ->
  moves t (new ++ t) db db.
Proof.
  intros Hnew. constructor; [by exists new|by intros id row ->; exists row|by intros id row ->; exists row|].
  intros _ id row ->. left. by exists row.
Qed.
(** No row appears, none disappears, and rows that were settled are. *)
Record kept t (db db' : Db) : Prop := {
  kept_plans : forall id row, DelegationDb.plans db !! id = Some row ->
    exists row', DelegationDb.plans db' !! id = Some row' /\ same_plan row row';
  kept_back : forall id row', DelegationDb.children db' !! id = Some row' ->
    exists row, DelegationDb.children db !! id = Some row;
  kept_children : forall id row, DelegationDb.children db !! id = Some row ->
    exists row', DelegationDb.children db' !! id = Some row' /\ same_child row row' /\
      (sees t db -> settled row -> settled row');
}.
Lemma delegation_moves_kept t db db' : kept t db db' -> moves t t db db'.
Proof.
  intros [Hp Hback Hc]. constructor; [by exists []|done| |].
  - intros id row Hrow. destruct (Hc id row Hrow) as (row' & ? & ? & _). by exists row'.
  - intros Hs id row' Hrow'. left. destruct (Hback _ _ Hrow') as (row & Hrow). exists row.
    destruct (Hc id row Hrow) as (row2 & ? & ? & ?). simplify_eq. auto.
Qed.
(** The rows of children and plans stay as they are. *)
Lemma kept_elsewhere t db db' :
  DelegationDb.plans db' = DelegationDb.plans db -> DelegationDb.children db' = DelegationDb.children db ->
  kept t db db'.
Proof.
  intros Hp Hc. constructor; rewrite ?Hp, ?Hc; [|by eauto|].
  - intros id row ->. by exists row.
  - intros id row ->. by exists row.
Qed.
Lemma kept_trans t db db' db'' : kept t db db' -> kept t db' db'' -> kept t db db''.
Proof.
  intros K K'. constructor.
  - intros id row Hrow. destruct (kept_plans _ _ _ K _ _ Hrow) as (row' & H' & Hs).
    destruct (kept_plans _ _ _ K' _ _ H') as (row'' & H'' & Hs'). exists row''. split; [done|].
    destruct Hs, Hs'. split; congruence.
  - intros id row'' H''. destruct (kept_back _ _ _ K' _ _ H'') as (row' & H').
    exact (kept_back _ _ _ K _ _ H').
  - intros id row Hrow. destruct (kept_children _ _ _ K _ _ Hrow) as (row' & H' & Hs & Hset).
    destruct (kept_children _ _ _ K' _ _ H') as (row'' & H'' & Hs' & Hset'). exists row''.
    split; [done|]. destruct Hs, Hs'. split; [split; congruence|]. intros Hsee Hrowset.
    apply Hset'; [|by apply Hset]. eapply list.Forall_impl; [exact Hsee|]. intros f.
    by eapply seen_kept, delegation_moves_kept.
Qed.
Lemma kept_plan t db id cond set :
  (forall row, same_plan row (set row)) -> kept t db (update_plan id cond set db).2.
Proof.
  intros Hset. unfold update_plan, change. cbn [snd]. unfold update_one.
  destruct (DelegationDb.plans db !! id) as [row|] eqn:Hrow; [destruct (cond row)|]; cbn [snd].
  2, 3: by apply kept_elsewhere.
  constructor; cbn; [|by eauto|by intros ? row' ->; exists row'].
  intros id' row' Hrow'. destruct (decide (id = id')) as [->|Hne].
  - simplify_eq. exists (set row). by rewrite lookup_insert_eq.
  - exists row'. by rewrite lookup_insert_ne.
Qed.
Lemma kept_child t db id cond set :
  (forall row, same_child row (set row)) ->
  (forall row, DelegationDb.children db !! id = Some row -> cond row = true -> sees t db ->
     settled row -> settled (set row)) ->
  kept t db (update_child id cond set db).2.
Proof.
  intros Hset Hok. unfold update_child, change. cbn [snd]. unfold update_one.
  destruct (DelegationDb.children db !! id) as [row|] eqn:Hrow; [destruct (cond row) eqn:Hcond|]; cbn [snd].
  2, 3: by apply kept_elsewhere.
  constructor; cbn; [by intros ? row' ->; exists row'|..].
  - intros id' row' [[<- _]|[_ Hrow']]%lookup_insert_Some; by eauto.
  - intros id' row' Hrow'. destruct (decide (id = id')) as [->|Hne].
    + simplify_eq. exists (set row). rewrite lookup_insert_eq. split_and!; auto.
    + exists row'. by rewrite lookup_insert_ne.
Qed.
Lemma kept_children_all t db cond set :
  (forall row, same_child row (set row)) ->
  (forall row, cond row = true -> settled row -> settled (set row)) ->
  kept t db (update_children cond set db).2.
Proof.
  intros Hset Hok. constructor; cbn; [by intros ? row' ->; exists row'|..].
  - intros id row' (row & _ & Hrow)%lookup_fmap_Some. by exists row.
  - intros id row Hrow. exists (if cond row then set row else row).
    split; [by rewrite lookup_fmap, Hrow|]. destruct (cond row) eqn:Hc; split; auto; done.
Qed.
(** *** Statements that keep the rows *)
Definition safe {X} t (q : tx X) : Prop := forall db, kept t db (q db).2.
Lemma safe_same {X} t (q : tx X) : (forall db, (q db).2 = db) -> safe t q.
Proof. intros Hq db. rewrite Hq. by apply kept_elsewhere. Qed.
Lemma safe_bind {X Y} t (q : tx X) (f : X -> tx Y) :
  safe t q -> (forall x, safe t (f x)) -> safe t (q ≫= f).
Proof.
  intros Hq Hf db. unfold mbind, tx_bind. specialize (Hq db).
  destruct (q db) as [[x|e|] db']; cbn [snd] in *; [|done..]. eapply kept_trans; [exact Hq|apply Hf].
Qed.
Lemma safe_transaction {X} t (q : tx X) : safe t q -> safe t (transaction q).
Proof.
  intros Hq db. unfold transaction. specialize (Hq db).
  destruct (q db) as [[x|e|] db']; cbn [snd] in *; [done|by apply kept_elsewhere..].
Qed.

(** ** Rows stay settled *)
Lemma settled_without row :
  ChildRow.result row = None -> ChildRow.state row <> ChildState.Completed ->
  ChildRow.state row <> ChildState.Incomplete -> settled row.
Proof. unfold settled. by intros ->. Qed.
Lemma settled_open row states :
  child_in states row = true -> ChildState.Completed ∉ states -> ChildState.Incomplete ∉ states ->
  settled row -> ChildRow.result row = None.
Proof.
  unfold child_in, settled. intros Hin%bool_decide_eq_true Hc Hi.
  destruct (ChildRow.result row) as [r|]; [|done]. intros [Hs _]. rewrite Hs in Hin.
  destruct (ChildResult.complete r); contradiction.
Qed.
Lemma settled_completed row :
  settled row -> ChildRow.state row = ChildState.Completed <->
    exists r, ChildRow.result row = Some r /\ ChildResult.complete r = true.
Proof.
  unfold settled. destruct (ChildRow.result row) as [r|].
  - intros [Hs _]. split; [|by intros (? & [= <-] & Hc); rewrite Hs, Hc].
    intros Hc. exists r. split; [done|]. rewrite Hs in Hc. by destruct (ChildResult.complete r).
  - intros [Hs _]. split; [done|by intros (? & ? & _)].
Qed.
Lemma settled_start now retry row : settled (ChildRow.start now retry row).
Proof. by apply settled_without. Qed.
Lemma settled_mark v summary now row states :
  child_in states row = true -> ChildState.Completed ∉ states -> ChildState.Incomplete ∉ states ->
  v <> ChildState.Completed -> v <> ChildState.Incomplete ->
  settled row -> settled (ChildRow.mark v summary now row).
Proof. intros Hin Hc Hi Hv Hw Hs. apply settled_without; [exact (settled_open _ _ Hin Hc Hi Hs)|done..]. Qed.
Lemma settled_cancel now row states :
  child_in states row = true -> ChildState.Completed ∉ states -> ChildState.Incomplete ∉ states ->
  settled row -> settled (ChildRow.cancel now row).
Proof. intros Hin Hc Hi Hs. apply settled_without; [exact (settled_open _ _ Hin Hc Hi Hs)|done..]. Qed.
Lemma settled_finish r now row :
  (forall value, r = Ok value -> within_budget (row_proposal row) value) ->
  let '(state, summary, encoded, error) := finished r in
  settled (ChildRow.finish state summary encoded error now row).
Proof.
  intros Hr. unfold finished. destruct r as [value|code|].
  - specialize (Hr value eq_refl). by destruct (ChildResult.complete value) eqn:Hv; cbn; rewrite Hv.
  - by destruct (equals code "cancelled").
  - done.
Qed.

(** ** Steps that teach nothing *)
Notation nothing := (fun _ _ => True).
Lemma spec_step {X} t (q : Db -> res str X * Db) (P : list fact -> X -> Prop) :
  (forall db, exists t', moves t t' db (q db).2 /\ forall x, (q db).1 = Ok x -> P t' x) ->
  spec t (sql q) P.
Proof. apply (learns_sql _ _ (G := delegation_growing)). Qed.
Lemma spec_safe {X} t (q : tx X) (P : list fact -> X -> Prop) :
  safe t q -> (forall x, P t x) -> spec t (sql q) P.
Proof. intros Hq HP. apply spec_step. intros db. exists t. split; [apply delegation_moves_kept, Hq|by intros x _]. Qed.
Lemma spec_reading {X} t (f : Db -> X) (P : list fact -> X -> Prop) :
  (forall db, P t (f db)) -> spec t (sql (select f)) P.
Proof. intros HP. apply spec_step. intros db. exists t. split; [by apply delegation_moves_kept, kept_elsewhere|]. by intros x [= <-]. Qed.
Lemma spec_ask_ok {X} t c (f : Env -> res str X) (P : list fact -> X -> Prop) :
  permitted t c -> (forall env x, f env = Ok x -> P (Heard c env :: t) x) ->
  spec t (ask_ok c f) P.
Proof. intros Hc HP. apply (learns_await _ _ (G := delegation_growing)). intros env. exists (Heard c env :: t). split; [done|]. apply HP. Qed.
Lemma spec_record t task e : spec t (record_event task e) nothing.
Proof. by apply spec_ask_ok. Qed.
Lemma spec_critical_same {X} t (f : Db -> X * Db) :
  (forall db, DelegationDb.plans (f db).2 = DelegationDb.plans db /\
              DelegationDb.children (f db).2 = DelegationDb.children db) ->
  spec t (critical f : io str X) nothing.
Proof.
  intros Hf. apply (learns_critical _ _ (G := delegation_growing)). intros db. exists t. split; [|done].
  destruct (Hf db). by apply delegation_moves_kept, kept_elsewhere.
Qed.
Lemma spec_cancelled t flag : spec t (cancelled flag) nothing.
Proof. by apply spec_critical_same. Qed.
Lemma spec_cancel_flag t id : spec t (cancel_flag id) nothing.
Proof.
  eapply learns_bind; [by apply (spec_critical_same _ (fun db => (DelegationDb.cancellations db !! id, db)))|].
  intros t' [flag|] _ _; [by apply spec_critical_same|by apply learns_mret].
Qed.
Lemma spec_unregister t id ids : spec t (unregister id ids) nothing.
Proof. by apply spec_critical_same. Qed.
Lemma spec_register t id ids : spec t (register id ids) (fun _ flags => length flags = length ids).
Proof.
  apply (learns_locked _ _ (G := delegation_growing)). intros db. exists t. cbv zeta. destruct (existsb _ _); cbn [fst snd].
  - split; [by apply delegation_moves_kept, kept_elsewhere|done].
  - split; [by apply delegation_moves_kept, kept_elsewhere|]. intros flags [= <-]. by rewrite length_seq.
Qed.

(** ** Reading the tables *)
Definition knows_plan t (plan : PlanView) : Prop :=
  SawPlan (DelegationPlanView.plan_id plan) (DelegationPlanView.project_id plan)
    (DelegationPlanView.task_run_id plan) ∈ t.
Lemma spec_get t id : spec t (get id) (fun t' plan => DelegationPlanView.plan_id plan = id /\ knows_plan t' plan).
Proof.
  unfold get. destruct (negb _); [by apply learns_throw|].
  eapply (learns_bind _ _ _ _ _ (fun t' found => forall row, found = Some row ->
    SawPlan id (PlanRow.project_id row) (PlanRow.task_run_id row) ∈ t')).
  { apply spec_step. intros db. cbn [select fst snd]. destruct (DelegationDb.plans db !! id) as [row|] eqn:Hrow.
    - exists ([SawPlan id (PlanRow.project_id row) (PlanRow.task_run_id row)] ++ t). split.
      + apply moves_new. repeat constructor. by exists row.
      + intros x [= <-] row' [= ->]. left.
    - exists t. split; [by apply delegation_moves_kept, kept_elsewhere|]. by intros x [= <-]. }
  intros t' found _ Hfound. eapply learns_bind; [by apply (learns_lift _ _ _ _ (fun t' row => t' = t' /\ found = Some row)); intros row; destruct found; intros [= ->]|].
  intros t'' row Ht [_ ->]. eapply learns_bind; [by apply (spec_reading _ _ nothing)|].
  intros t3 children Ht3 _. apply learns_mret. split; [done|]. apply Ht3, Ht, (Hfound row eq_refl).
Qed.
Lemma spec_get_any t id : spec t (get id) nothing.
Proof. by eapply learns_weaken; [apply spec_get|]. Qed.
Lemma spec_proposal t plan_id id :
  spec t (proposal plan_id id) (fun t' p => SawChild id plan_id p ∈ t').
Proof.
  unfold proposal.
  eapply (learns_bind _ _ _ _ _ (fun t' found => forall row, found = Some row ->
    SawChild id plan_id (row_proposal row) ∈ t')).
  { apply spec_step. intros db. cbn [select fst snd]. destruct (find_child plan_id id db) as [row|] eqn:Hf.
    - exists ([SawChild id plan_id (row_proposal row)] ++ t). split.
      + apply moves_new. repeat constructor. unfold find_child in Hf.
        destruct (DelegationDb.children db !! id) as [row'|] eqn:Hrow; [|done].
        destruct (of_plan plan_id row') eqn:Ho; [|done]. injection Hf as ->.
        exists row. split_and!; [done|by apply str_eqb_eq|done].
      + intros x [= <-] row' [= ->]. left.
    - exists t. split; [by apply delegation_moves_kept, kept_elsewhere|]. by intros x [= <-]. }
  intros t' found _ Hfound. destruct found as [row|]; [|by apply learns_throw].
  eapply learns_bind; [by apply (learns_lift _ _ _ _ (fun _ r => r = row)); intros r [= ->]|].
  intros t'' r Ht ->. apply learns_mret, Ht, (Hfound row eq_refl).
Qed.

(** ** Changes of state *)
Lemma spec_set_plan_state t id state synthesis : spec t (set_plan_state id state synthesis) nothing.
Proof.
  unfold set_plan_state. eapply learns_bind; [by apply (learns_clock _ _ _ nothing)|]. intros t1 now _ _.
  eapply learns_bind; [apply (spec_safe _ _ nothing); [intros db; by apply kept_plan|done]|].
  intros t2 n _ _. by apply learns_lift.
Qed.
Lemma spec_set_child_running t plan_id id retry : spec t (set_child_running plan_id id retry) nothing.
Proof.
  unfold set_child_running. eapply learns_bind; [by apply (learns_clock _ _ _ nothing)|]. intros t1 now _ _.
  eapply learns_bind; [|intros t2 n _ _; by apply learns_lift].
  apply (spec_safe _ _ nothing); [|done]. intros db.
  destruct (DelegationDb.children db !! id); [|by apply kept_elsewhere].
  match goal with |- context [if ?b then (Err check_failed, db) else _] => destruct b end;
    [by apply kept_elsewhere|].
  apply kept_child; [done|]. intros row _ _ _ _. apply settled_start.
Qed.
Lemma spec_finish_child t plan_id id r :
  (forall value, r = Ok value -> exists p, SawChild id plan_id p ∈ t /\ within_budget p value) ->
  spec t (finish_child plan_id id r) nothing.
Proof.
  intros Hr. unfold finish_child. eapply learns_bind; [by apply (learns_clock _ _ _ nothing)|].
  intros t1 now Ht1 _. eapply learns_bind; [by apply (spec_reading _ _ nothing)|]. intros t2 current Ht2 _.
  destruct (bool_decide _); [by apply learns_mret|].
  destruct (finished r) as [[[state summary] encoded] error] eqn:Hfin.
  eapply learns_bind; [|intros; by apply learns_mret]. apply (spec_safe _ _ nothing); [|done].
  intros db. apply kept_child; [done|]. intros row Hrow _ Hsee _.
  pose proof (settled_finish r now row) as Hset. rewrite Hfin in Hset. apply Hset.
  intros value Hv. destruct (Hr value Hv) as (p & Hin & Hw). unfold sees in Hsee.
  rewrite list.Forall_forall in Hsee. destruct (Hsee _ (Ht2 _ (Ht1 _ Hin))) as (row' & Hrow' & _ & Hp).
  simplify_eq. done.
Qed.
Lemma spec_pause t id : spec t (pause id) nothing.
Proof.
  unfold pause. eapply learns_bind; [by apply (learns_clock _ _ _ nothing)|]. intros t1 now _ _.
  apply (spec_safe _ _ nothing); [|done]. apply safe_transaction, safe_bind; [intros db; by apply kept_plan|].
  intros n. apply safe_bind; [by apply safe_same|]. intros _ db. apply kept_children_all; [done|].
  intros row [_ Hin]%andb_true_iff. apply (settled_mark _ _ _ _ _ Hin); set_solver.
Qed.
Lemma spec_resume t id : spec t (resume id) nothing.
Proof.
  unfold resume. eapply learns_bind; [by apply (learns_clock _ _ _ nothing)|]. intros t1 now _ _.
  apply (spec_safe _ _ nothing); [|done]. apply safe_transaction, safe_bind; [intros db; by apply kept_plan|].
  intros n. apply safe_bind; [by apply safe_same|]. intros _ db. apply kept_children_all; [done|].
  intros row [_ Hin]%andb_true_iff. apply (settled_mark _ _ _ _ _ Hin); set_solver.
Qed.
Lemma spec_cancel_not_started t id child : spec t (cancel_not_started id child) nothing.
Proof.
  unfold cancel_not_started. eapply learns_bind; [by apply (learns_clock _ _ _ nothing)|]. intros t1 now _ _.
  assert (forall row, of_plan id row && child_in [ChildState.Planned; ChildState.Running] row = true ->
    settled row -> settled (ChildRow.cancel now row)) as Hset.
  { intros row [_ Hin]%andb_true_iff. apply (settled_cancel _ _ _ Hin); set_solver. }
  destruct child as [c|].
  - eapply learns_bind; [|intros; by apply learns_mret]. apply (spec_safe _ _ nothing); [|done].
    intros db. apply kept_child; [done|]. intros row _ Hc _. by apply Hset.
  - apply (spec_safe _ _ nothing); [|done]. intros db. by apply kept_children_all.
Qed.

(** ** Suggestions *)
Lemma spec_suggest t plan now id index finding : spec t (suggest plan now id index finding) nothing.
Proof.
  unfold suggest. apply (spec_safe _ _ nothing); [|done]. intros db. unfold insert_or_ignore.
  destruct (_ || _); by apply kept_elsewhere.
Qed.
Lemma spec_create_suggestions t plan : spec t (create_research_suggestions plan) nothing.
Proof.
  unfold create_research_suggestions. eapply learns_bind; [by apply (learns_clock _ _ _ nothing)|].
  intros t1 now _ _. apply learns_for_each. intros child t2 _ _.
  destruct (ChildRunView.result child); [|by apply learns_mret].
  apply learns_for_each. intros [index finding] t3 _ _. apply spec_suggest.
Qed.
Lemma spec_list_suggestions t id : spec t (list_suggestions id) nothing.
Proof. by apply spec_reading. Qed.
Lemma spec_review t id sid accept reason : spec t (review_suggestion id sid accept reason) nothing.
Proof.
  unfold review_suggestion. destruct (_ && _); [by apply learns_throw|].
  eapply learns_bind; [by apply (learns_clock _ _ _ nothing)|]. intros t1 now _ _.
  eapply learns_bind; [apply (spec_safe _ _ nothing); [|done]|].
  { intros db. unfold change. cbn [snd]. destruct (update_one _ _ _ _). by apply kept_elsewhere. }
  intros t2 n _ _. eapply learns_bind; [by apply (learns_lift _ _ _ _ nothing)|]. intros. apply spec_list_suggestions.
Qed.
End Keeping.

Notation nothing := (fun _ _ => True).
Create HintDb delegation discriminated.
#[export] Hint Resolve spec_record spec_cancelled spec_cancel_flag spec_unregister spec_get_any
  spec_set_plan_state spec_set_child_running spec_pause spec_resume spec_cancel_not_started
  spec_create_suggestions spec_list_suggestions spec_review : delegation.

(** A step that teaches nothing and may be anything. *)
Ltac skip_step :=
  eapply learns_bind;
  [first [ solve [eauto with delegation nocore]
         | by apply (learns_clock _ _ _ nothing) | by apply (learns_bytes _ _ _ nothing)
         | by apply (learns_lift _ _ _ _ nothing) ]
  |intros ? ? ? _].

Section Worker.
Context `{A : SearchAuthority} {D : Digest} `{T : JsonText}.
Implicit Types (db : Db) (t u : list fact).
Notation spec := (learns moves answers).

(** ** Sources *)
Definition of_kind (source : Source) (m : SourceMaterial.t) : Prop :=
  SourceEvidence.source_kind (SourceMaterial.evidence m) = lit (DelegatedSource.kind source).
Lemma spec_material t kind label content observed (P : list fact -> SourceMaterial.t -> Prop) :
  (forall m, SourceEvidence.source_kind (SourceMaterial.evidence m) = lit kind -> P t m) ->
  spec t (lift (material kind label content observed)) P.
Proof.
  intros HP. apply learns_lift. intros m Hm. apply HP. unfold material in Hm.
  destruct (512000 <? str_len content); [done|]. by injection Hm as <-.
Qed.
Lemma works_for_more t u x y p : t ⊆ u -> works_for t x y p -> works_for u x y p.
Proof. intros Htu (a & b & Ha & Hb). exists a, b. split; by apply Htu. Qed.
Lemma permitted_more t u c : t ⊆ u -> permitted t c -> permitted u c.
Proof.
  intros Htu. apply licence_mono; [by intros ? ? ?; apply Htu|]. intros x y p. by apply works_for_more.
Qed.

(** The path that is read was found below the folder that was granted. *)
Lemma spec_read_project_file t x y p source_id relative :
  works_for t x y p -> DelegatedSource.ProjectFile source_id relative ∈ ChildProposal.sources p ->
  spec t (read_project_file x source_id relative)
    (fun _ => of_kind (DelegatedSource.ProjectFile source_id relative)).
Proof.
  intros Hw Hin. unfold read_project_file. destruct (_ || _); [by apply learns_throw|].
  eapply (learns_bind _ _ _ _ _ (fun t' root => exists env, Heard (ActiveSource x source_id) env ∈ t' /\
    (env (ActiveSource x source_id) : option str) = Some root)).
  { apply spec_ask_ok; [by exists y, p, relative|]. intros env root Hr%ok_or_Ok.
    exists env. split; [left|done]. }
  intros t1 root Ht1 (e1 & He1 & Hroot).
  eapply (learns_bind _ _ _ _ _ (fun t' base => exists env, Heard (Canonicalize (path_of_str root)) env ∈ t' /\
    (env (Canonicalize (path_of_str root)) : option path) = Some base)).
  { apply spec_ask_ok; [done|]. intros env base Hr%ok_or_Ok. exists env. split; [left|done]. }
  intros t2 base Ht2 (e2 & He2 & Hbase). set (q := path_join base (path_of_str relative)).
  eapply (learns_bind _ _ _ _ _ (fun t' c => exists env, Heard (Canonicalize q) env ∈ t' /\
    (env (Canonicalize q) : option path) = Some c)).
  { apply spec_ask_ok; [done|]. intros env c Hr%ok_or_Ok. exists env. split; [left|done]. }
  intros t3 c Ht3 (e3 & He3 & Hc). destruct (path_starts_with base c) eqn:Hst; [|by apply learns_throw].
  cbn [negb].
  assert (forall u, t3 ⊆ u -> works_for u x y p /\
    contained (fun c env => Heard c env ∈ u) x source_id relative c) as Hcont.
  { intros u Hu. split; [eapply works_for_more; [|exact Hw]; set_solver|].
    exists root, base, e1, e2, e3. split_and!; try done; set_solver. }
  eapply (learns_bind _ _ _ _ _ (fun t' b => exists env, Heard (IsSymlink c) env ∈ t' /\
    (env (IsSymlink c) : res str bool) = Ok b)).
  { apply spec_ask_ok; [|by intros env b Hb; exists env; split; [left|]].
    destruct (Hcont t3) as [? ?]; [done|]. by exists x, y, p, source_id, relative. }
  intros t4 [] Ht4 (e4 & He4 & Hsym); [by apply learns_throw|].
  eapply (learns_bind _ _ _ _ _ (fun t' b => exists env, Heard (Metadata c) env ∈ t' /\
    (env (Metadata c) : res str (bool * Z)) = Ok b)).
  { apply spec_ask_ok; [|by intros env b Hb; exists env; split; [left|]].
    destruct (Hcont t4) as [? ?]; [done|]. by exists x, y, p, source_id, relative. }
  intros t5 [is_file len] Ht5 (e5 & He5 & Hmeta).
  destruct (negb is_file || (512000 <? len)) eqn:Hg; [by apply learns_throw|].
  apply orb_false_iff in Hg as [->%negb_false_iff Hlen].
  eapply (learns_bind _ _ _ _ _ nothing).
  { apply spec_ask_ok; [|done]. destruct (Hcont t5) as [? ?]; [set_solver|].
    exists x, y, p, source_id, relative. split_and!; [done..|]. exists e4, e5, len.
    split_and!; try done; [by apply Ht5|lia]. }
  intros t6 content _ _. by apply spec_material.
Qed.
Lemma spec_read t x y p source :
  works_for t x y p -> source ∈ ChildProposal.sources p ->
  spec t (read source x y) (fun _ => of_kind source).
Proof.
  intros Hw Hin. destruct source as [label content|source_id relative|query max [objective approved]|session|types].
  - by apply spec_material.
  - by eapply spec_read_project_file.
  - cbn [read]. eapply (learns_bind _ _ _ _ _ nothing).
    { apply spec_ask_ok; [|done]. by exists x, p. }
    intros t1 response _ _. destruct (_ && _); [by apply learns_throw|by apply spec_material].
  - cbn [read]. eapply (learns_bind _ _ _ _ _ nothing).
    { apply spec_ask_ok; [|done]. by exists x, p. }
    intros t1 encoded _ _. by apply spec_material.
  - cbn [read]. unfold read_task_evidence. eapply (learns_bind _ _ _ _ _ nothing).
    { apply spec_ask_ok; [|done]. by exists x, p, types. }
    intros t1 rows _ _. eapply learns_bind; [by apply (learns_lift _ _ _ _ nothing)|].
    intros t2 values _ _. cbv zeta. destruct (bool_decide _); [by apply learns_throw|by apply spec_material].
Qed.

(** ** The worker *)
Lemma spec_read_sources t x y p cancel :
  works_for t x y p ->
  spec t (read_sources (ChildProposal.sources p) x y cancel) (fun _ materials =>
    map (fun m => SourceEvidence.source_kind (SourceMaterial.evidence m)) materials =
    map (fun s => lit (DelegatedSource.kind s)) (ChildProposal.sources p)).
Proof.
  intros Hw. unfold read_sources.
  apply (learns_for_fold _ _ _ _ (fun _ materials seen =>
    map (fun m => SourceEvidence.source_kind (SourceMaterial.evidence m)) materials =
    map (fun s => lit (DelegatedSource.kind s)) seen)); [done|].
  intros seen source rest t1 materials Hl Ht1 Hm. eapply learns_bind; [apply spec_cancelled|].
  intros t2 [] Ht2 _; [by apply learns_throw|]. eapply learns_bind.
  { eapply (spec_read _ _ _ p); [|rewrite Hl; set_solver]. eapply works_for_more; [|exact Hw]. set_solver. }
  intros t3 item _ Hk. apply learns_mret. by rewrite !map_app, Hm; cbn; rewrite Hk.
Qed.
Lemma div_ceil_le n m : 0 <= n -> div_ceil n 4 <= m -> n <= 4 * m.
Proof.
  unfold div_ceil. intros Hn Hm. pose proof (Z.div_mod (n + (4 - 1)) 4 ltac:(lia)).
  pose proof (Z.mod_pos_bound (n + (4 - 1)) 4 ltac:(lia)). lia.
Qed.
Lemma spec_run_child t x y p cancel :
  works_for t x y p -> spec t (run_child p x y cancel) (fun _ => within_budget p).
Proof.
  intros Hw. unfold run_child. cbv zeta. skip_step.
  eapply learns_bind; [by apply (spec_read_sources _ x y p); eapply works_for_more; [|exact Hw]|].
  intros t2 materials Ht2 Hk. destruct (_ <? _) eqn:Hi; [by apply learns_throw|].
  eapply learns_bind; [apply spec_cancelled|]. intros t3 [] Ht3 _; [by apply learns_throw|].
  eapply (learns_bind _ _ _ _ _ nothing).
  { apply spec_ask_ok; [|done]. exists x, y, p. split_and!; [|done|].
    - eapply works_for_more; [|exact Hw]. set_solver.
    - apply div_ceil_le; [apply str_len_nonneg|by apply Z.ltb_ge in Hi]. }
  intros t4 inference _ _. destruct (is_empty _) eqn:He; [by apply learns_throw|].
  destruct (_ || _) eqn:Ho; [by apply learns_throw|]. apply orb_false_iff in Ho as [Ho%Z.ltb_ge Hb%Z.ltb_ge].
  apply Z.ltb_ge in Hi.
  skip_step. skip_step. apply learns_mret. constructor.
  - exact Hi.
  - exact Ho.
  - eexists. split; [reflexivity|]. split_and!; [by intros Hn; cbn in Hn; rewrite Hn in He|exact Hb|].
    cbn. by rewrite map_map.
  - cbn. by rewrite map_map.
Qed.
End Worker.

Section Commands.
Context `{A : SearchAuthority} {D : Digest} `{T : JsonText}.
Implicit Types (db : Db) (t u : list fact).
Notation spec := (learns moves answers).

(** ** Creating *)
Lemma insert_children_rows id now children : forall n db db',
  insert_children id now n children db = (Ok tt, db') ->
  DelegationDb.plans db' = DelegationDb.plans db /\
  DelegationDb.cancellations db' = DelegationDb.cancellations db /\
  (forall k row, DelegationDb.children db !! k = Some row -> DelegationDb.children db' !! k = Some row) /\
  (forall k row, DelegationDb.children db' !! k = Some row ->
     DelegationDb.children db !! k = Some row \/
     exists child m, child ∈ map snd children /\ row = planned_child id m child now).
Proof.
  induction children as [|[cid child] children IH]; intros n db db' H.
  { injection H as <-. auto. }
  cbn [insert_children] in H. unfold mbind, tx_bind, insert_child in H.
  destruct (DelegationDb.children db !! cid) as [old|] eqn:Hold; [done|].
  destruct (IH _ _ _ H) as (Hp & Hr & Hk & Hb). cbn in Hp, Hr, Hk, Hb. split_and!; [done|done|..].
  - intros k row Hrow. apply Hk. rewrite lookup_insert_ne; [done|]. intros <-. by rewrite Hold in Hrow.
  - intros k row Hrow. destruct (Hb _ _ Hrow) as [[[<- <-]|[_ ?]]%lookup_insert_Some|(c & m & Hc & ->)].
    + right. exists child, n. split; [left|done].
    + by left.
    + right. exists c, m. split; [by right|done].
Qed.
Lemma planned_settled id n child now : settled (planned_child id n child now).
Proof. by apply settled_without. Qed.
Lemma planned_proposal id n child now : child_accepted child -> row_proposal (planned_child id n child now) = child.
Proof. intros Hc. destruct child. unfold row_proposal. cbn. f_equal. symmetry. apply Hc. Qed.
Lemma moves_create t request id now children db db' :
  Asked request ∈ t -> plan_accepted request ->
  map snd children = CreateDelegationPlanRequest.children request ->
  (_ ← insert_plan id (planned_plan request now); insert_children id now 0 children) db = (Ok tt, db') ->
  moves t t db db'.
Proof.
  intros Ha Hacc Hch H. unfold mbind, tx_bind, insert_plan in H.
  destruct (DelegationDb.plans db !! id) as [old|] eqn:Hold; [done|].
  apply insert_children_rows in H as (Hp & _ & Hk & Hb). cbn in Hp, Hk, Hb. constructor.
  - by exists [].
  - intros k row Hrow. exists row. rewrite Hp, lookup_insert_ne; [done|]. intros <-. by rewrite Hold in Hrow.
  - intros k row Hrow. exists row. split; [by apply Hk|done].
  - intros _ k row Hrow. destruct (Hb _ _ Hrow) as [Hrow0|(child & m & Hin & ->)].
    { left. by exists row. }
    right. exists request, (planned_plan request now). rewrite Hch in Hin.
    split_and!; [done|done| |done|done| |apply planned_settled].
    + cbn. by rewrite Hp, lookup_insert_eq.
    + rewrite planned_proposal; [done|]. by apply (accepted_children _ Hacc).
Qed.
Lemma spec_new_child_ids t children :
  spec t (new_child_ids children) (fun _ l => map snd l = children).
Proof.
  revert t. induction children as [|child children IH]; intros t; [by apply learns_mret|].
  cbn [new_child_ids]. skip_step. eapply learns_bind; [apply IH|]. intros t2 rest _ Hrest.
  apply learns_mret. cbn. by rewrite Hrest.
Qed.
Lemma spec_create t request : Asked request ∈ t -> spec t (create request) nothing.
Proof.
  intros Ha. unfold create. cbv zeta.
  eapply learns_bind; [by apply (learns_lift _ _ _ _ (fun _ _ => validate request = Ok tt)); intros []|].
  intros t1 _ Ht1 Hacc%validate_Ok. skip_step. skip_step.
  eapply learns_bind; [by apply (spec_ask_ok _ _ _ nothing)|]. intros t4 _ Ht4 _. skip_step. skip_step.
  eapply learns_bind; [apply spec_new_child_ids|]. intros t7 children Ht7 Hch.
  eapply (learns_bind _ _ _ _ _ nothing).
  { apply spec_step. intros db. exists t7. split; [|done]. unfold transaction.
    match goal with |- moves _ _ _ (match ?x with _ => _ end).2 =>
      destruct x as [[[]|e|] db'] eqn:Hq; cbn [snd] end.
    - eapply moves_create; [|exact Hacc|exact Hch|exact Hq]. set_solver.
    - by apply delegation_moves_kept, kept_elsewhere.
    - by apply delegation_moves_kept, kept_elsewhere. }
  intros t8 _ _ _. skip_step. apply spec_get_any.
Qed.

(** ** Running *)
(** A result that was made for this child. *)
Definition made_for (plan_id id : str) t (r : res str ChildResult.t) : Prop :=
  forall value, r = Ok value -> exists p, SawChild id plan_id p ∈ t /\ within_budget p value.
Lemma made_for_more plan_id id : persistent (made_for plan_id id).
Proof. intros t u r Htu Hr value Hv. destruct (Hr value Hv) as (p & Hp & Hw). exists p. split; [by apply Htu|done]. Qed.
Lemma spec_finalize t id : spec t (finalize id) nothing.
Proof.
  unfold finalize. eapply learns_bind; [apply spec_get_any|]. intros t1 view _ _. cbv zeta.
  skip_step. skip_step. skip_step. apply spec_get_any.
Qed.
Lemma wp_run_child t x y p cancel plan_id id :
  SawPlan plan_id x y ∈ t -> SawChild id plan_id p ∈ t ->
  wp moves never_starts answers t (run_child p x y cancel) (made_for plan_id id).
Proof.
  intros Hp Hc. eapply wp_mono, (spec_run_child t x y p cancel); [|by exists plan_id, id].
  intros t' r [Ht Hr] value ->. exists p. split; [by apply Ht|done].
Qed.
Lemma spec_start_children plan : forall children t, knows_plan t plan ->
  spec t (start_children plan children) (fun t' workers => forall u, t' ⊆ u ->
    Forall2 (fun id w => wp moves never_starts answers u w (made_for (DelegationPlanView.plan_id plan) id))
      (map fst children) workers).
Proof.
  induction children as [|[id flag] children IH]; intros t Hk.
  { apply learns_mret. intros u _. constructor. }
  cbn [start_children]. skip_step. eapply learns_bind; [apply spec_proposal|]. intros t2 p Ht2 Hp.
  eapply learns_bind; [apply IH; unfold knows_plan in *; set_solver|]. intros t3 rest Ht3 Hrest.
  apply learns_mret. intros u Hu. constructor; [|by apply Hrest].
  apply wp_run_child; [unfold knows_plan in Hk; set_solver|set_solver].
Qed.
Lemma spec_record_result t plan id r :
  made_for (DelegationPlanView.plan_id plan) id t r -> spec t (record_result plan (id, r)) nothing.
Proof.
  intros Hr. unfold record_result. eapply learns_bind; [by apply spec_finish_child|].
  intros t1 _ _ _. apply spec_record.
Qed.
Lemma fst_zip {X Y} (l : list X) (k : list Y) : length k = length l -> map fst (zip l k) = l.
Proof. intros Hl. apply fst_zip. lia. Qed.
Lemma spec_execute t id : spec t (execute_delegation_plan id) nothing.
Proof.
  unfold execute_delegation_plan. eapply learns_bind; [apply spec_get|]. intros t1 plan _ [Hid Hk]. cbv zeta.
  destruct (negb _); [by apply learns_throw|]. set (ids := map _ _).
  destruct (bool_decide _); [by apply learns_throw|].
  eapply learns_bind; [apply spec_register|]. intros t2 flags Ht2 Hlen. skip_step.
  rename H into Ht3. match goal with |- learns _ _ ?t' _ _ => set (t3 := t') end.
  eapply learns_bind; [apply spec_start_children; unfold knows_plan in *; set_solver|].
  intros t4 workers Ht4 Hw. rewrite (fst_zip _ _ Hlen) in Hw. specialize (Hw t4 ltac:(done)).
  eapply (learns_bind _ _ _ _ _ (fun t' results =>
    Forall2 (fun id r => made_for (DelegationPlanView.plan_id plan) id t' r) ids results)).
  { apply wp_bind. eapply wp_mono; [|apply (wp_join_all _ _ (G := delegation_growing))].
    4: exact Hw.
    - by intros t7 l.
    - intros u env. by exists (Heard Turn env :: u).
    - intros i. apply made_for_more. }
  intros t5 results Ht5 Hres. eapply (learns_bind _ _ _ _ _ nothing).
  { apply learns_for_each. intros [cid r] t6 Hin Ht6. apply spec_record_result.
    eapply made_for_more; [exact Ht6|]. apply elem_of_lookup_zip_with in Hin as (n & i & x & Hx & Hi & Hr).
    injection Hx as <- <-. exact (Forall2_lookup_lr _ _ _ _ _ _ Hres Hi Hr). }
  intros t6 _ _ _. skip_step. eapply learns_bind; [apply spec_get_any|]. intros t8 now_at _ _.
  destruct (bool_decide _); [apply spec_get_any|apply spec_finalize].
Qed.
Lemma spec_retry t id child : spec t (retry_delegation_child id child) nothing.
Proof.
  unfold retry_delegation_child. eapply learns_bind; [apply spec_get|]. intros t1 plan _ [Hid Hk]. cbv zeta.
  skip_step. destruct (4 <=? _); [by apply learns_throw|]. destruct (negb _); [by apply learns_throw|].
  eapply learns_bind; [apply spec_register|]. intros t3 flags Ht3 _. skip_step. skip_step.
  eapply learns_bind; [apply spec_proposal|]. intros t6 p Ht6 Hp. skip_step.
  match goal with |- learns _ _ ?u _ _ => rename u into t7 end.
  eapply learns_bind.
  { apply learns_attempt, spec_run_child. exists (DelegationPlanView.plan_id plan), (ChildRunView.child_run_id a).
    split; [unfold knows_plan in Hk|]; set_solver. }
  intros t8 r Ht8 Hr. eapply learns_bind; [apply spec_finish_child|].
  { intros value ->. exists p. split; [set_solver|exact Hr]. }
  intros t9 _ _ _. skip_step. apply spec_finalize.
Qed.
Lemma spec_cancel_flags t l :
  spec t (io_for_each (fun child => _ ← cancel_flag (ChildRunView.child_run_id child); mret tt) l) nothing.
Proof. apply learns_for_each. intros x t' _ _. skip_step. by apply learns_mret. Qed.
Lemma spec_get_all t ids : spec t (get_all ids) nothing.
Proof.
  revert t. induction ids as [|id ids IH]; intros t; [by apply learns_mret|]. cbn [get_all].
  skip_step. eapply learns_bind; [apply IH|]. intros. by apply learns_mret.
Qed.

Lemma delegation_wp_reply {X} t (f : res str X -> DelegationReply.t) (p : io str X) j :
  spec t p nothing -> wp moves never_starts answers t (reply f p) (returns j).
Proof. intros Hp. apply wp_bind. eapply wp_mono, Hp. done. Qed.
(** Every command keeps to the protocol. *)
Lemma delegation_every_job_keeps j : wp moves never_starts answers (init j) (job_body j) (returns j).
Proof.
  destruct j; apply delegation_wp_reply.
  - apply spec_create. left.
  - unfold list_for_task. skip_step. eapply learns_bind; [by apply (spec_reading _ _ nothing)|].
    intros. apply spec_get_all.
  - apply spec_get_any.
  - apply spec_execute.
  - unfold pause_delegation_plan. skip_step. cbv zeta. skip_step.
    eapply learns_bind; [apply spec_cancel_flags|]. intros. skip_step. skip_step. apply spec_get_any.
  - unfold resume_delegation_plan. skip_step. cbv zeta. skip_step. skip_step. apply spec_get_any.
  - unfold cancel_delegation_plan. skip_step. skip_step.
    eapply learns_bind; [apply spec_cancel_flags|]. intros. skip_step. skip_step. skip_step. apply spec_get_any.
  - unfold cancel_delegation_child. skip_step. destruct (negb _); [by apply learns_throw|].
    skip_step. skip_step. skip_step. apply spec_get_any.
  - apply spec_retry.
  - unfold review_work_suggestion. skip_step. skip_step. skip_step. by apply learns_mret.
  - apply spec_list_suggestions.
Qed.

Definition no_rows (db : Db) : Prop := DelegationDb.children db = ∅.
Lemma delegation_invariant db s :
  no_rows db -> reachable job_body elsewhere db s ->
  exists ts, delegation_ok (database s) ts (log s).
Proof.
  intros Hdb Hr. eapply (protocol job_body elsewhere init moves never_starts answers returns);
    [apply delegation_sound|apply delegation_every_job_keeps| |exact Hr].
  unfold no_rows in Hdb. constructor; [set_solver| |set_solver].
  intros id row. by rewrite Hdb, lookup_empty.
Qed.

End Commands.
