(* ===== verification/DelegationTheorems.v ===== *)
(** * What delegated research guarantees, and where it does not go on

    What children read was delegated in an accepted plan, and completed children have
    results within their budget, in every interleaving.  The rest is about what lasts
    whatever commands follow ([stays]): a registration that was left behind keeps its
    child from ever running, and a child paused on a retry stays paused when its plan
    has ended.  Both states are reached by runs that are played here. *)
From stdpp Require Import sorting.
From S2P Require Import Prelude.
From S2P Require Import RustStr.
From S2P Require Import P0Contracts.
From S2P Require Import JsonValue.
From S2P Require Import Program.
From S2P Require Import TaskStore.
From S2P Require Import EffectJournal.
From S2P Require Import Delegation.
From S2P Require Import DelegationRuns.
From S2P Require Import DelegationSystem.
From S2P Require Import DelegationProtocol.
Local Open Scope Z_scope.

(** ** What every command leaves so

    [G plan]: what is known of a plan that was read; [R plan ids]: these children of
    the plan were registered to run. *)
Section Lasting.
Context `{A : SearchAuthority} {D : Digest} `{T : JsonText}.
Context (P : Db -> Prop) (G : PlanView -> Prop) (R : PlanView -> list str -> Prop).
Notation io E A := (Program.io Db Call Env E A).
Notation stably := (stably P).
Notation any := (fun _ => True).
Definition runnable (plan : PlanView) (id : str) : Prop :=
  exists c, c ∈ DelegationPlanView.children plan /\ ChildRunView.child_run_id c = id /\
    ChildRunView.state c ∈ startable.
Context (P_same : forall db db', DelegationDb.plans db' = DelegationDb.plans db ->
  DelegationDb.children db' = DelegationDb.children db ->
  DelegationDb.cancellations db' = DelegationDb.cancellations db -> P db -> P db').
Context (P_get : forall id, stably (get id) G).
Context (P_register : forall plan ids, G plan -> ids <> [] -> (forall id, id ∈ ids -> runnable plan id) ->
  stably (register (DelegationPlanView.plan_id plan) ids) (fun _ => R plan ids)).
Context (P_unregister : forall plan ids, R plan ids ->
  stably (unregister (DelegationPlanView.plan_id plan) ids) any).
Context (P_set : forall plan ids state synthesis, R plan ids ->
  stably (set_plan_state (DelegationPlanView.plan_id plan) state synthesis) any).
Context (P_run : forall plan ids id retry, R plan ids -> id ∈ ids ->
  stably (set_child_running (DelegationPlanView.plan_id plan) id retry) any).
Context (P_finish : forall plan ids id r, R plan ids -> id ∈ ids ->
  stably (finish_child (DelegationPlanView.plan_id plan) id r) any).
Context (P_cancel : forall id, stably (set_plan_state id PlanState.Cancelled None) any).
Context (P_pause : forall id, stably (pause id) any).
Context (P_resume : forall id, stably (resume id) any).
Context (P_cancel_children : forall id child, stably (cancel_not_started id child) any).
Context (P_create : forall id row now children db db',
  (_ ← insert_plan id row; insert_children id now 0 children) db = (Ok tt, db') -> P db -> P db').

Lemma stably_same {X} (q : tx X) (Q : X -> Prop) :
  (forall db, DelegationDb.plans (q db).2 = DelegationDb.plans db /\
     DelegationDb.children (q db).2 = DelegationDb.children db /\
     DelegationDb.cancellations (q db).2 = DelegationDb.cancellations db) ->
  (forall x, Q x) -> stably (sql q : io str X) Q.
Proof.
  intros Hq HQ. apply stably_sql. intros db Hdb. destruct (Hq db) as (? & ? & ?).
  split; [by apply (P_same db)|auto].
Qed.
Lemma stably_critical_same {X} (f : Db -> X * Db) :
  (forall db, DelegationDb.plans (f db).2 = DelegationDb.plans db /\
     DelegationDb.children (f db).2 = DelegationDb.children db /\
     DelegationDb.cancellations (f db).2 = DelegationDb.cancellations db) ->
  stably (critical f : io str X) any.
Proof.
  intros Hf. apply stably_critical. intros db Hdb. destruct (Hf db) as (? & ? & ?).
  split; [by apply (P_same db)|done].
Qed.
Lemma stably_ask_ok {X} c (f : Env -> res str X) (Q : X -> Prop) :
  (forall env x, f env = Ok x -> Q x) -> stably (ask_ok c f) Q.
Proof. intros Hf env. simpl. destruct (f env) eqn:He; eauto. Qed.
Lemma stably_record task e : stably (record_event task e) any.
Proof. by apply stably_ask_ok. Qed.
Lemma stably_clock (Q : Z -> Prop) : (forall n, Q n) -> stably (unix_time_ms_i64 : io str Z) Q.
Proof. intros HQ n. apply HQ. Qed.
Lemma stably_bytes (Q : list Z -> Prop) : (forall b, Q b) -> stably (random_bytes : io str (list Z)) Q.
Proof. intros HQ n. apply HQ. Qed.
Lemma stably_throw {X} (e : str) (Q : X -> Prop) : stably (throw e : io str X) Q.
Proof. done. Qed.
Lemma stably_mret {X} (x : X) (Q : X -> Prop) : Q x -> stably (mret x : io str X) Q.
Proof. done. Qed.
Lemma stably_get id : stably (get id) any.
Proof. eapply stably_mono, P_get. done. Qed.

Ltac stay_step :=
  match goal with
  | |- stably (_ ≫= _) _ => eapply (stably_bind _ _ _ (fun _ => True)); [|intros ? _]
  | |- stably (mret _) _ => by apply stably_mret
  | |- stably (throw _) _ => apply stably_throw
  | |- stably unix_time_ms_i64 _ => by apply stably_clock
  | |- stably random_bytes _ => by apply stably_bytes
  | |- stably (ask_ok _ _) _ => by apply stably_ask_ok
  | |- stably (record_event _ _) _ => apply stably_record
  | |- stably (lift _) (fun _ => True) => by apply stably_lift
  | |- stably (sql (select _)) (fun _ => True) => by apply stably_same
  | |- stably (critical (fun db => (_, db))) (fun _ => True) => by apply stably_critical_same
  | |- stably (get _) (fun _ => True) => apply stably_get
  | |- stably (match ?x with pair _ _ => _ end) _ => destruct x
  | |- stably (if ?b then _ else _) _ => destruct b
  end.
Ltac stay := repeat (cbv zeta; stay_step).

Lemma stably_cancelled flag : stably (cancelled flag) any.
Proof. by apply stably_critical_same. Qed.
Lemma stably_cancel_flag id : stably (cancel_flag id) any.
Proof. unfold cancel_flag. stay. destruct a as [flag|]; [by apply stably_critical_same|by apply stably_mret]. Qed.
Lemma stably_cancel_flags l :
  stably (io_for_each (fun child => _ ← cancel_flag (ChildRunView.child_run_id child); mret tt) l) any.
Proof. apply stably_for_each. intros x _. stay. apply stably_cancel_flag. Qed.
Lemma stably_read source x y : stably (read source x y) any.
Proof.
  destruct source; cbn [read]; unfold read_project_file, read_task_evidence; stay.
Qed.
Lemma stably_run_child p x y flag : stably (run_child p x y flag) any.
Proof.
  unfold run_child. cbv zeta. stay_step; [stay|]. stay_step.
  - apply stably_for_fold. intros ms source. stay_step; [apply stably_cancelled|]. stay_step; [stay|].
    stay_step; [apply stably_read|]. stay.
  - stay; apply stably_cancelled.
Qed.
Lemma stably_suggestions plan : stably (create_research_suggestions plan) any.
Proof.
  unfold create_research_suggestions. stay. apply stably_for_each. intros child _.
  destruct (ChildRunView.result child); [|by apply stably_mret]. apply stably_for_each.
  intros [index finding] _. unfold suggest. apply stably_same; [|done]. intros db. unfold insert_or_ignore.
  by destruct (_ || _).
Qed.
Lemma stably_finalize plan ids : R plan ids -> stably (finalize (DelegationPlanView.plan_id plan)) any.
Proof.
  intros HR. unfold finalize. stay; [apply stably_suggestions|exact (P_set _ _ _ _ HR)].
Qed.
Lemma stably_create request : stably (create request) any.
Proof.
  unfold create. stay.
  - generalize (CreateDelegationPlanRequest.children request). intros l.
    induction l as [|child l IH]; [by apply stably_mret|]. cbn [new_child_ids]. stay. apply IH.
  - apply stably_sql. intros db Hdb. unfold transaction. split; [|done].
    match goal with |- P (match ?x with _ => _ end).2 => destruct x as [[[]|e|] db'] eqn:Hq; cbn [snd] end;
      [|done..]. by eapply P_create.
Qed.
Lemma runnable_ids plan id :
  id ∈ map ChildRunView.child_run_id
         (List.filter (fun c => bool_decide (ChildRunView.state c ∈ startable))
            (DelegationPlanView.children plan)) -> runnable plan id.
Proof.
  intros (c & -> & Hc)%list_elem_of_fmap. apply list_elem_of_In, filter_In in Hc as [Hc Hs].
  exists c. split_and!; [by apply list_elem_of_In|done|by apply bool_decide_eq_true in Hs].
Qed.
Lemma stably_start_children plan ids l :
  R plan ids -> (forall x, x ∈ l -> x.1 ∈ ids) ->
  stably (start_children plan l) (Forall (fun p => stable P p any)).
Proof.
  intros HR. induction l as [|[id flag] l IH]; intros Hl; [by apply stably_mret|]. cbn [start_children].
  eapply stably_bind; [apply (P_run _ _ _ _ HR), (Hl (id, flag)); left|]. intros _ _.
  eapply (stably_bind _ _ _ any); [unfold proposal; stay|]. intros p _.
  eapply stably_bind; [apply IH; intros x Hx; apply Hl; by right|]. intros rest Hrest.
  apply stably_mret. constructor; [|done]. eapply stable_mono, stably_run_child. done.
Qed.
Lemma stably_execute id : stably (execute_delegation_plan id) any.
Proof.
  unfold execute_delegation_plan. eapply stably_bind; [apply P_get|]. intros plan HG. cbv zeta.
  stay_step; [stay|]. set (ids := map _ _). case_bool_decide as Hne; [stay|].
  eapply stably_bind; [apply (P_register _ _ HG Hne); intros i; apply runnable_ids|]. intros flags HR.
  stay_step; [exact (P_set _ _ _ _ HR)|].
  eapply stably_bind; [apply (stably_start_children _ _ _ HR)|].
  { intros [i f] Hin. apply elem_of_lookup_zip_with in Hin as (n & x & y & Hx & Hi & _).
    injection Hx as -> ->. by eapply list_elem_of_lookup_2. }
  intros workers Hw. eapply (stably_bind _ _ _ any).
  { apply stable_bind. eapply stable_mono, (stable_join_all P Turn _ _ Hw). done. }
  intros results _. stay_step.
  { apply stably_for_each. intros [i r] Hin. unfold record_result.
    stay_step; [|stay]. eapply P_finish; [exact HR|].
    apply elem_of_lookup_zip_with in Hin as (n & x & y & Hx & Hi & _). injection Hx as -> ->.
    by eapply list_elem_of_lookup_2. }
  stay_step; [exact (P_unregister _ _ HR)|]. stay. exact (stably_finalize _ _ HR).
Qed.
Lemma stably_retry id child : stably (retry_delegation_child id child) any.
Proof.
  unfold retry_delegation_child. eapply stably_bind; [apply P_get|]. intros plan HG. cbv zeta.
  eapply (stably_bind _ _ _ (fun c => c ∈ DelegationPlanView.children plan)).
  { apply stably_lift. intros c [Hc _]%ok_or_Ok%find_some. by apply list_elem_of_In. }
  intros c Hc. stay_step; [stay|]. destruct (negb _) eqn:Hs; [stay|].
  apply negb_false_iff, bool_decide_eq_true in Hs.
  eapply stably_bind; [apply (P_register _ _ HG); [done|]|].
  { intros i ->%list_elem_of_singleton. exists c. split_and!; [done..|]. unfold startable. set_solver. }
  intros flags HR. assert (ChildRunView.child_run_id c ∈ [ChildRunView.child_run_id c]) as Hin by left.
  stay_step; [exact (P_set _ _ _ _ HR)|]. stay_step; [exact (P_run _ _ _ _ HR Hin)|].
  stay_step; [unfold proposal; stay|]. stay_step; [stay|].
  stay_step; [apply stably_attempt, stably_run_child|].
  stay_step; [exact (P_finish _ _ _ _ HR Hin)|]. stay_step; [exact (P_unregister _ _ HR)|].
  exact (stably_finalize _ _ HR).
Qed.
Lemma stably_list_suggestions id : stably (list_suggestions id) any.
Proof. by apply stably_same. Qed.

Lemma every_job_stays j : stable P (job_body j) any.
Proof.
  assert (forall X (f : res str X -> DelegationReply.t) (p : io str X),
    stably p any -> stable P (reply f p) any) as Hreply.
  { intros X f p Hp. apply stable_bind. by eapply stable_mono, Hp. }
  destruct j; apply Hreply.
  - apply stably_create.
  - unfold list_for_task. stay.
    induction a0 as [|i l IH]; [by apply stably_mret|]. cbn [get_all]. stay. apply IH.
  - apply stably_get.
  - apply stably_execute.
  - unfold pause_delegation_plan. stay; [apply stably_cancel_flag|apply stably_cancel_flags|apply P_pause].
  - unfold resume_delegation_plan. stay. apply P_resume.
  - unfold cancel_delegation_plan.
    stay; [apply stably_cancel_flag|apply stably_cancel_flags|apply P_cancel_children|apply P_cancel].
  - unfold cancel_delegation_child. stay; [apply stably_cancel_flag|apply P_cancel_children].
  - apply stably_retry.
  - unfold review_work_suggestion, review_suggestion. stay; try apply stably_list_suggestions.
    apply stably_same; [|done]. intros db. unfold change. cbn [snd]. by destruct (update_one _ _ _ _).
  - apply stably_list_suggestions.
Qed.
End Lasting.

(** ** A registration that was left behind *)
Section Registered.
Context `{A : SearchAuthority} {D : Digest} `{T : JsonText}.
Context (id : str) (Hid : begins "delegation_" id = false).
Notation io E A := (Program.io Db Call Env E A).
Notation any := (fun _ => True).

Definition idle (row : ChildRow.t) : Prop :=
  ChildRow.state row ∈ [ChildState.Planned; ChildState.Paused; ChildState.Cancelled] /\
  ChildRow.result row = None.
Definition left_registered (db : Db) : Prop :=
  is_Some (DelegationDb.cancellations db !! id) /\
  exists row, DelegationDb.children db !! id = Some row /\ idle row.
Notation stably := (stably left_registered).

Definition plan_named (plan : PlanView) : Prop :=
  begins "delegation_" (DelegationPlanView.plan_id plan) = true.
Definition others (plan : PlanView) (ids : list str) : Prop := plan_named plan /\ id ∉ ids.

Lemma left_same db db' :
  DelegationDb.children db' = DelegationDb.children db ->
  DelegationDb.cancellations db' = DelegationDb.cancellations db ->
  left_registered db -> left_registered db'.
Proof. unfold left_registered. by intros -> ->. Qed.
Lemma left_child db k cond set :
  (forall row, k = id -> cond row = true -> idle row -> idle (set row)) ->
  left_registered db -> left_registered (update_child k cond set db).2.
Proof.
  intros Hset [Hr (row & Hrow & Hi)]. unfold update_child, change, update_one. cbn [snd].
  destruct (DelegationDb.children db !! k) as [row'|] eqn:Hk; [destruct (cond row') eqn:Hc|]; cbn [snd].
  2, 3: by apply (left_same db); [..|split; [|exists row]].
  split; [done|]. cbn. destruct (decide (k = id)) as [->|Hne].
  - rewrite Hrow in Hk. injection Hk as <-. exists (set row). rewrite lookup_insert_eq.
    split; [done|by apply Hset].
  - exists row. by rewrite lookup_insert_ne.
Qed.
Lemma left_children db cond set :
  (forall row, cond row = true -> idle row -> idle (set row)) ->
  left_registered db -> left_registered (update_children cond set db).2.
Proof.
  intros Hset [Hr (row & Hrow & Hi)]. split; [done|]. cbn. exists (if cond row then set row else row).
  split; [by rewrite lookup_fmap, Hrow|]. destruct (cond row) eqn:Hc; auto.
Qed.
Lemma left_plan db k cond set : left_registered db -> left_registered (update_plan k cond set db).2.
Proof. apply left_same; unfold update_plan, change; cbn [snd]; by destruct (update_one _ _ _ _). Qed.
(** A transaction that changes a plan and then the children. *)
Lemma left_transaction db k cond set (guard : Z -> res str unit) cond' set' :
  (forall row, cond' row = true -> idle row -> idle (set' row)) -> left_registered db ->
  left_registered (transaction (
    n ← update_plan k cond set; _ ← tx_lift (guard n); update_children cond' set') db).2.
Proof.
  intros Hset Hdb. pose proof (left_plan db k cond set Hdb) as Hp. unfold transaction, mbind, tx_bind, tx_lift.
  destruct (update_plan k cond set db) as [[n|e|] db1]; cbn [snd] in *; [|done..].
  destruct (guard n); [|done..]. by apply (left_children db1).
Qed.

Lemma left_lookup_other (m : gmap str nat) k v : is_Some (m !! id) -> is_Some (<[k := v]> m !! id).
Proof.
  intros Hm. destruct (decide (k = id)) as [->|Hne]; [rewrite lookup_insert_eq; eauto|].
  by rewrite lookup_insert_ne.
Qed.
Lemma left_inserted ids first m : is_Some (m !! id) -> is_Some (insert_flags ids first m !! id).
Proof.
  unfold insert_flags. revert m. induction (imap pair ids) as [|[i x] l IH]; intros m Hm; [done|].
  cbn. by apply IH, left_lookup_other.
Qed.
Lemma left_deleted (ids : list str) (m : gmap str nat) :
  id ∉ ids -> is_Some (m !! id) -> is_Some (foldl (fun m id => delete id m) m ids !! id).
Proof.
  revert m. induction ids as [|x ids IH]; intros m Hn Hm; [done|]. cbn. apply IH; [set_solver|].
  rewrite lookup_delete_ne; [done|]. set_solver.
Qed.

Lemma get_named k : stably (get k) plan_named.
Proof.
  unfold get. destruct (begins "delegation_" k) eqn:Hk; [|done]. cbn [negb].
  eapply (stably_bind _ _ _ any); [apply stably_sql; intros db Hdb; split; [done|auto]|]. intros found _.
  eapply (stably_bind _ _ _ any); [by apply stably_lift|]. intros row _.
  eapply (stably_bind _ _ _ any); [apply stably_sql; intros db Hdb; split; [done|auto]|]. intros l _.
  by apply stably_mret.
Qed.
Lemma register_others plan ids :
  plan_named plan -> stably (register (DelegationPlanView.plan_id plan) ids) (fun _ => others plan ids).
Proof.
  intros Hn. apply stably_locked. intros db Hdb. cbv zeta. destruct (existsb _ ids) eqn:He; cbn [fst snd].
  { by split. }
  destruct Hdb as [Hr Hrow]. split.
  - split; [|done]. cbn. by apply left_lookup_other, left_inserted.
  - intros flags _. split; [done|]. intros Hin. rewrite existsb_false in He.
    pose proof (proj1 (list.Forall_forall _ _) He id Hin) as Hf. cbn beta in Hf.
    by apply bool_decide_eq_false in Hf.
Qed.
Lemma left_clock (Q : Z -> Prop) : (forall n, Q n) -> stably (unix_time_ms_i64 : io str Z) Q.
Proof. intros HQ n. apply HQ. Qed.
Lemma left_set k state synthesis : stably (set_plan_state k state synthesis) any.
Proof.
  unfold set_plan_state. eapply (stably_bind _ _ _ any); [by apply left_clock|]. intros now _.
  eapply (stably_bind _ _ _ any); [|intros n _; by apply stably_lift].
  apply stably_sql. intros db Hdb. split; [by apply left_plan|done].
Qed.
Lemma left_run plan_id k retry : k <> id -> stably (set_child_running plan_id k retry) any.
Proof.
  intros Hk. unfold set_child_running. eapply (stably_bind _ _ _ any); [by apply left_clock|]. intros now _.
  eapply (stably_bind _ _ _ any); [|intros n _; by apply stably_lift].
  apply stably_sql. intros db Hdb. split; [|done].
  destruct (DelegationDb.children db !! k); [|done].
  match goal with |- context [if ?b then (Err check_failed, db) else _] => destruct b end; [done|].
  by apply left_child.
Qed.
Lemma left_finish plan_id k r : k <> id -> stably (finish_child plan_id k r) any.
Proof.
  intros Hk. unfold finish_child. eapply (stably_bind _ _ _ any); [by apply left_clock|]. intros now _.
  eapply (stably_bind _ _ _ any); [apply stably_sql; intros db Hdb; split; [done|auto]|]. intros current _.
  destruct (bool_decide _); [by apply stably_mret|]. destruct (finished r) as [[[st su] en] er].
  eapply (stably_bind _ _ _ any); [|intros; by apply stably_mret].
  apply stably_sql. intros db Hdb. split; [by apply left_child|done].
Qed.

(** The child does not run again, whatever is done. *)
Lemma registered_children_never_run s s' :
  Forall (fun th => th = None) (threads s) -> left_registered (database s) ->
  rtc (step job_body elsewhere) s s' -> left_registered (database s').
Proof.
  apply stays; [|by intros db db' Hdb ->].
  assert (forall v summary now row, v ∈ [ChildState.Planned; ChildState.Paused; ChildState.Cancelled] ->
    idle row -> idle (ChildRow.mark v summary now row)) as Hmark by (intros v su now row Hv [_ Hr]; by split).
  intros j. apply (every_job_stays left_registered plan_named others).
  - intros db db' _ Hc Hr. by apply left_same.
  - apply get_named.
  - intros plan ids Hn _ _. by apply register_others.
  - intros plan ids [Hn Hi]. apply stably_critical. intros db [Hr Hrow]. split; [|done]. split; [|done].
    cbn. apply left_deleted; [done|]. rewrite lookup_delete_ne; [done|]. intros He.
    unfold plan_named in Hn. by rewrite He, Hid in Hn.
  - intros plan ids state synthesis _. apply left_set.
  - intros plan ids k retry [_ Hi] Hk. apply left_run. by intros ->.
  - intros plan ids k r [_ Hi] Hk. apply left_finish. by intros ->.
  - intros k. apply left_set.
  - intros k. unfold pause. eapply (stably_bind _ _ _ any); [by apply left_clock|]. intros now _.
    apply stably_sql. intros db Hdb. split; [|done].
    apply left_transaction; [|done]. intros row _. apply Hmark. set_solver.
  - intros k. unfold resume. eapply (stably_bind _ _ _ any); [by apply left_clock|]. intros now _.
    apply stably_sql. intros db Hdb. split; [|done].
    apply left_transaction; [|done]. intros row _. apply Hmark. set_solver.
  - intros k child. unfold cancel_not_started. eapply (stably_bind _ _ _ any); [by apply left_clock|].
    intros now _. destruct child as [c|].
    + eapply (stably_bind _ _ _ any); [|intros; by apply stably_mret]. apply stably_sql. intros db Hdb.
      split; [|done]. apply left_child; [|done]. intros row _ _ [_ Hr]. split; [cbn; set_solver|done].
    + apply stably_sql. intros db Hdb. split; [|done]. apply left_children; [|done].
      intros row _ [_ Hr]. split; [cbn; set_solver|done].
  - intros k row now children db db' H [Hr (r & Hrow & Hi)]. unfold mbind, tx_bind, insert_plan in H.
    destruct (DelegationDb.plans db !! k); [done|]. apply insert_children_rows in H as (_ & Hc & Hk & _).
    split; [by rewrite Hc|]. exists r. split; [by apply Hk|done].
Qed.
End Registered.

(** ** A child that was paused while its plan failed *)
Section Stranded.
Context `{A : SearchAuthority} {D : Digest} `{T : JsonText}.
Context (pid cid : str).
Notation io E A := (Program.io Db Call Env E A).
Notation any := (fun _ => True).

Definition over (plan : PlanRow.t) : Prop := PlanRow.state plan ∈ [PlanState.Failed; PlanState.Cancelled].
Definition asleep (row : ChildRow.t) : Prop :=
  ChildRow.plan_id row = pid /\ ChildRow.state row = ChildState.Paused.
Lemma over_states plan :
  over plan -> PlanRow.state plan = PlanState.Failed \/ PlanRow.state plan = PlanState.Cancelled.
Proof. unfold over. set_solver. Qed.
(** The plan has ended, and its only child is paused. *)
Record stranded (db : Db) : Prop := {
  stranded_plan : exists plan, DelegationDb.plans db !! pid = Some plan /\ over plan;
  stranded_child : exists row, DelegationDb.children db !! cid = Some row /\ asleep row;
  stranded_only : forall k row, DelegationDb.children db !! k = Some row -> ChildRow.plan_id row = pid -> k = cid;
}.
Notation stably := (stably stranded).
Definition all_paused (plan : PlanView) : Prop :=
  DelegationPlanView.plan_id plan = pid ->
  forall c, c ∈ DelegationPlanView.children plan -> ChildRunView.state c = ChildState.Paused.
Definition another (plan : PlanView) (ids : list str) : Prop := DelegationPlanView.plan_id plan <> pid.

Lemma stranded_same db db' :
  DelegationDb.plans db' = DelegationDb.plans db -> DelegationDb.children db' = DelegationDb.children db ->
  stranded db -> stranded db'.
Proof. intros Hp Hc [H1 H2 H3]. constructor; rewrite ?Hp, ?Hc; done. Qed.
Lemma stranded_update_plan db k cond set :
  (forall row, k = pid -> cond row = true -> over row -> over (set row)) ->
  stranded db -> stranded (update_plan k cond set db).2.
Proof.
  intros Hset [(plan & Hp & Ho) H2 H3]. unfold update_plan, change, update_one. cbn [snd].
  destruct (DelegationDb.plans db !! k) as [row|] eqn:Hk; [destruct (cond row) eqn:Hc|]; cbn [snd].
  2, 3: by apply (stranded_same db); [..|constructor; [exists plan|..]].
  constructor; [|done|done]. cbn. destruct (decide (k = pid)) as [->|Hne].
  - rewrite Hp in Hk. injection Hk as <-. exists (set plan). rewrite lookup_insert_eq.
    split; [done|by apply Hset].
  - exists plan. by rewrite lookup_insert_ne.
Qed.
Lemma stranded_update_child db k cond set :
  (forall row, ChildRow.plan_id (set row) = ChildRow.plan_id row) ->
  (forall row, cond row = true -> asleep row -> False) ->
  stranded db -> stranded (update_child k cond set db).2.
Proof.
  intros Hset Hcond [H1 (row & Hrow & Ha) H3]. unfold update_child, change, update_one. cbn [snd].
  destruct (DelegationDb.children db !! k) as [row'|] eqn:Hk; [destruct (cond row') eqn:Hc|]; cbn [snd].
  2, 3: by apply (stranded_same db); [..|constructor; [|exists row|]].
  constructor; [done|..]; cbn.
  - exists row. destruct (decide (k = cid)) as [->|Hne]; [|by rewrite lookup_insert_ne].
    rewrite Hrow in Hk. injection Hk as <-. by destruct (Hcond row).
  - intros k2 row2 [[<- <-]|[_ Hrow2]]%lookup_insert_Some; [rewrite Hset; by apply H3|by apply H3].
Qed.
Lemma stranded_update_children db cond set :
  (forall row, ChildRow.plan_id (set row) = ChildRow.plan_id row) ->
  (forall row, cond row = true -> asleep row -> False) ->
  stranded db -> stranded (update_children cond set db).2.
Proof.
  intros Hset Hcond [H1 (row & Hrow & Ha) H3]. constructor; [done|..]; cbn.
  - exists row. rewrite lookup_fmap, Hrow. cbn.
    destruct (cond row) eqn:Hc; [by destruct (Hcond row Hc Ha)|done].
  - intros k row2 (row1 & He & Hrow1)%lookup_fmap_Some. intros Hp. apply (H3 k row1 Hrow1).
    destruct (cond row1); subst; by rewrite ?Hset in Hp.
Qed.
(** Pausing and resuming start with the plan, which is neither waiting nor working. *)
Lemma stranded_transaction db k states set states' set' e :
  (forall plan, over plan -> plan_in states plan = false) ->
  (forall row, ChildRow.plan_id (set' row) = ChildRow.plan_id row) -> stranded db ->
  stranded (transaction (
    n ← update_plan k (plan_in states) set; _ ← tx_lift (guard_not (n =? 0) e);
    update_children (fun row => of_plan k row && child_in states' row) set') db).2.
Proof.
  intros Hover Hset Hdb. unfold transaction, mbind, tx_bind, tx_lift.
  destruct (decide (k = pid)) as [->|Hne].
  - destruct (stranded_plan _ Hdb) as (plan & Hp & Ho). unfold update_plan, change, update_one. cbn.
    rewrite Hp, (Hover _ Ho). cbn. done.
  - pose proof (stranded_update_plan db k (plan_in states) set ltac:(done) Hdb) as H1.
    destruct (update_plan k (plan_in states) set db) as [[n|e'|] db1]; cbn [snd] in *; [|done..].
    destruct (guard_not _ _); [|done..]. apply (stranded_update_children db1); [done| |done].
    intros row [Hk%str_eqb_eq _]%andb_true_iff [Hp _]. congruence.
Qed.

Lemma stranded_clock (Q : Z -> Prop) : (forall n, Q n) -> stably (unix_time_ms_i64 : io str Z) Q.
Proof. intros HQ n. apply HQ. Qed.
Lemma stranded_set k state synthesis :
  k <> pid \/ state = PlanState.Cancelled -> stably (set_plan_state k state synthesis) any.
Proof.
  intros Hk. unfold set_plan_state. eapply (stably_bind _ _ _ any); [by apply stranded_clock|]. intros now _.
  eapply (stably_bind _ _ _ any); [|intros n _; by apply stably_lift].
  apply stably_sql. intros db Hdb. split; [|done]. apply stranded_update_plan; [|done].
  intros row -> _ _. destruct Hk as [Hk| ->]; [done|]. unfold over. cbn. set_solver.
Qed.
Lemma of_plan_awake k row : k <> pid -> of_plan k row = true -> asleep row -> False.
Proof. intros Hk Ho%str_eqb_eq [Hp _]. congruence. Qed.
Lemma stranded_run k id retry : k <> pid -> stably (set_child_running k id retry) any.
Proof.
  intros Hk. unfold set_child_running. eapply (stably_bind _ _ _ any); [by apply stranded_clock|]. intros now _.
  eapply (stably_bind _ _ _ any); [|intros n _; by apply stably_lift].
  apply stably_sql. intros db Hdb. split; [|done]. destruct (DelegationDb.children db !! id); [|done].
  match goal with |- context [if ?b then (Err check_failed, db) else _] => destruct b end; [done|].
  apply stranded_update_child; [done| |done]. intros row [Ho _]%andb_true_iff. by apply (of_plan_awake k).
Qed.
Lemma stranded_finish k id r : k <> pid -> stably (finish_child k id r) any.
Proof.
  intros Hk. unfold finish_child. eapply (stably_bind _ _ _ any); [by apply stranded_clock|]. intros now _.
  eapply (stably_bind _ _ _ any); [apply stably_sql; intros db Hdb; split; [done|auto]|]. intros current _.
  destruct (bool_decide _); [by apply stably_mret|]. destruct (finished r) as [[[st su] en] er].
  eapply (stably_bind _ _ _ any); [|intros; by apply stably_mret].
  apply stably_sql. intros db Hdb. split; [|done]. apply stranded_update_child; [done| |done].
  intros row. by apply (of_plan_awake k).
Qed.
Lemma get_all_paused k : stably (get k) all_paused.
Proof.
  unfold get. destruct (negb _); [done|].
  eapply (stably_bind _ _ _ any); [apply stably_sql; intros db Hdb; split; [done|auto]|]. intros found _.
  eapply (stably_bind _ _ _ any); [by apply stably_lift|]. intros row _.
  eapply (stably_bind _ _ _ (fun l => k = pid -> forall c, c ∈ l -> ChildRunView.state c = ChildState.Paused)).
  { apply stably_sql. intros db Hdb. split; [done|]. intros l [= <-] -> c.
    intros ([id row'] & -> & Hin)%list_elem_of_fmap. rewrite merge_sort_Permutation in Hin.
    apply list_elem_of_In, filter_In in Hin as [Hin Ho%str_eqb_eq].
    apply list_elem_of_In, elem_of_map_to_list in Hin. destruct Hdb as [_ (crow & Hcrow & Ha) Honly].
    rewrite (Honly _ _ Hin Ho) in Hin. rewrite Hcrow in Hin. injection Hin as <-. apply Ha. }
  intros l Hl. apply stably_mret. exact Hl.
Qed.

(** Nothing wakes the child. *)
Lemma stranded_children_stay s s' :
  Forall (fun th => th = None) (threads s) -> stranded (database s) ->
  rtc (step job_body elsewhere) s s' -> stranded (database s').
Proof.
  apply stays; [|by intros db db' Hdb ->]. intros j. apply (every_job_stays stranded all_paused another).
  - intros db db' Hp Hc _. by apply stranded_same.
  - apply get_all_paused.
  - intros plan ids HG Hne Hrun. apply stably_locked. intros db Hdb. cbv zeta.
    assert (another plan ids) as Ha.
    { intros He. destruct ids as [|i ids]; [done|]. destruct (Hrun i) as (c & Hc & _ & Hs); [left|].
      rewrite (HG He c Hc) in Hs. unfold startable in Hs. set_solver. }
    destruct (existsb _ ids); cbn [fst snd]; [done|]. split; [by apply (stranded_same db)|done].
  - intros plan ids _. apply stably_critical. intros db Hdb. split; [by apply (stranded_same db)|done].
  - intros plan ids state synthesis Ha. apply stranded_set. by left.
  - intros plan ids k retry Ha _. by apply stranded_run.
  - intros plan ids k r Ha _. by apply stranded_finish.
  - intros k. apply stranded_set. by right.
  - intros k. unfold pause. eapply (stably_bind _ _ _ any); [by apply stranded_clock|]. intros now _.
    apply stably_sql. intros db Hdb. split; [|done]. apply stranded_transaction; [|done|done].
    intros plan [Hs|Hs]%over_states; unfold plan_in; by rewrite Hs.
  - intros k. unfold resume. eapply (stably_bind _ _ _ any); [by apply stranded_clock|]. intros now _.
    apply stably_sql. intros db Hdb. split; [|done]. apply stranded_transaction; [|done|done].
    intros plan [Hs|Hs]%over_states; unfold plan_in; by rewrite Hs.
  - intros k child. unfold cancel_not_started. eapply (stably_bind _ _ _ any); [by apply stranded_clock|].
    intros now _. cbv zeta.
    assert (forall row, of_plan k row && child_in [ChildState.Planned; ChildState.Running] row = true ->
      asleep row -> False) as Hc.
    { intros row [_ Hin]%andb_true_iff [_ Hs]. unfold child_in in Hin. by rewrite Hs in Hin. }
    destruct child as [c|].
    + eapply (stably_bind _ _ _ any); [|intros; by apply stably_mret]. apply stably_sql. intros db Hdb.
      split; [by apply stranded_update_child|done].
    + apply stably_sql. intros db Hdb. split; [by apply stranded_update_children|done].
  - intros k row now children db db' H [(plan & Hp & Ho) (r & Hr & Ha) Honly].
    unfold mbind, tx_bind, insert_plan in H.
    destruct (DelegationDb.plans db !! k) eqn:Hk; [done|].
    assert (k <> pid) as Hne by (intros ->; congruence).
    apply insert_children_rows in H as (Hps & _ & Hkeep & Hb). cbn in Hps, Hb. constructor.
    + exists plan. by rewrite Hps, lookup_insert_ne.
    + exists r. split; [by apply Hkeep|done].
    + intros k2 row2 Hrow2 Hpid. destruct (Hb _ _ Hrow2) as [Hold|(c & m & _ & ->)]; [by eapply Honly|done].
Qed.
End Stranded.

(** ** Runs *)
(** One child summarises a note. *)
Module Note.
Import IntegerJson.
#[export] Instance digest : Digest := fun bytes =>
  let h := foldl (fun a b => (257 * a + b + 1) mod 2 ^ 61) 1 bytes in
  map (fun n => Z.shiftr h (8 * Z.of_nat n) mod 256) (seq 0 8).
#[export] Instance authority : SearchAuthority := fun _ approved query => str_eqb approved query.

Definition child : Proposal :=
  ChildProposal.mk (lit "Summarise the note") (lit "findings_sources_uncertainties_v1")
    [DelegatedSource.InlineText (lit "note") (lit "The shop opens at nine.")]
    [lit "summarize_text"] (lit "local") (ResourceBudget.mk 256 128 1 10000 16384).
Definition file_child : Proposal :=
  ChildProposal.mk (lit "Summarise the note") (lit "findings_sources_uncertainties_v1")
    [DelegatedSource.ProjectFile (lit "source") (lit "shop/note.md")]
    [lit " Project_File_Read"] (lit "local") (ResourceBudget.mk 256 128 1 10000 16384).
Definition request_for (c : Proposal) : CreateRequest :=
  CreateDelegationPlanRequest.mk 1 (lit "project_11111111-2222-4333-8444-555555555555")
    (lit "taskrun_11111111-2222-4333-8444-555555555555") None (lit "local") 0
    (AggregateBudget.mk 1024 512 3 20000) [c].
Definition request : CreateRequest := request_for child.
(** The model answers with [text]. *)
Definition env (text : res str str) : Env := fun c =>
  match c with
  | RequireBoundTask _ _ | RecordEvent _ _ => Ok tt
  | ActiveSource _ _ => Some (lit "/notes")
  | TaskEventRows _ => Ok []
  | Canonicalize p => Some p
  | IsSymlink _ => Ok false
  | Metadata _ => Ok (true, 23)
  | ReadToString _ => Some (lit "The shop opens at nine.")
  | Search _ _ _ _ _ => None
  | ReadSnapshot _ _ => Ok []
  | SummarizeGrounded _ _ =>
      Some (match text with
            | Ok t => Ok (InferResponse.mk t (lit "gemma"))
            | Err e => Err e
            | Panic => Panic
            end)
  | Turn => true
  end.
Definition nine : res str str := Ok (lit "It opens at nine.").
Definition ten : res str str := Ok (lit "It opens at ten.").
Definition broken : res str str := Err (lit "model unavailable").
Definition db0 : Db := DelegationDb.mk ∅ ∅ ∅ ∅ [].
Notation sys := (system Db Call Env Job DelegationReply.t).
Definition body : Job -> Program.prog Db Call Env DelegationReply.t := job_body.
(** A thread goes on for some steps; a command is issued and goes on. *)
Definition go (text : res str str) (steps n : nat) (s : sys) : sys :=
  drive body 1000 [7] (env text) steps n s.
Definition issue (text : res str str) (steps : nat) (j : Job) (s : sys) : sys :=
  go text steps (length (threads s)) (spawned body j s).
Definition plan_id : str := plan_id_of [7].
Definition child_id : str := P0Contracts.as_str (id_new KChildRun [7]).
Definition created : sys := issue nine 100 (DelegationJob.Create request) (started_from db0).
(** The same with a note in a file. *)
Definition filed : sys :=
  issue nine 100 (DelegationJob.Execute plan_id)
    (issue nine 100 (DelegationJob.Create (request_for file_child)) (started_from db0)).

(** The pause comes between the plan's being marked as running and its child's. *)
Definition paused_at_start : sys :=
  go nine 100 1 (issue nine 100 (DelegationJob.Pause plan_id)
    (issue nine 5 (DelegationJob.Execute plan_id) created)).
Definition resumed : sys := issue nine 100 (DelegationJob.Resume plan_id) paused_at_start.
(** The model fails; the child is retried, and the plan is paused meanwhile. *)
Definition failed : sys := issue broken 100 (DelegationJob.Execute plan_id) created.
Definition paused_on_retry : sys :=
  go nine 100 2 (issue nine 100 (DelegationJob.Pause plan_id)
    (issue nine 7 (DelegationJob.Retry plan_id child_id) failed)).
(** The plan is cancelled once the worker has looked at its flag for the last time. *)
Definition cancelled_late : sys :=
  go nine 100 1 (issue nine 100 (DelegationJob.CancelPlan plan_id)
    (issue nine 13 (DelegationJob.Execute plan_id) created)).
(** The child is cancelled while the model answers, and retried. *)
Definition retried : sys :=
  issue ten 100 (DelegationJob.Retry plan_id child_id)
    (go nine 100 1 (issue nine 100 (DelegationJob.CancelChild plan_id child_id)
      (issue nine 11 (DelegationJob.Execute plan_id) created))).

Lemma issue_steps text steps j s : rtc (step body elsewhere) s (issue text steps j s).
Proof. transitivity (spawned body j s); [apply spawned_steps|apply drive_steps]. Qed.
Lemma go_steps text steps n s : rtc (step body elsewhere) s (go text steps n s).
Proof. apply drive_steps. Qed.
Ltac played :=
  unfold reachable;
  repeat match goal with
  | |- rtc _ _ (issue ?t ?k ?j ?s) => transitivity s; [|exact (issue_steps t k j s)]
  | |- rtc _ _ (go ?t ?k ?n ?s) => transitivity s; [|exact (go_steps t k n s)]
  end; apply rtc_refl.
Lemma created_reachable : reachable body elsewhere db0 created.
Proof. unfold created. played. Qed.
Lemma filed_reachable : reachable body elsewhere db0 filed.
Proof. unfold filed. played. Qed.
Lemma delegation_resumed_reachable : reachable body elsewhere db0 resumed.
Proof. unfold resumed, paused_at_start, created. played. Qed.
Lemma paused_on_retry_reachable : reachable body elsewhere db0 paused_on_retry.
Proof. unfold paused_on_retry, failed, created. played. Qed.
Lemma cancelled_late_reachable : reachable body elsewhere db0 cancelled_late.
Proof. unfold cancelled_late, created. played. Qed.
Lemma retried_reachable : reachable body elsewhere db0 retried.
Proof. unfold retried, created. played. Qed.

Definition note_path : path := path_of_str (lit "/notes/shop/note.md").
Lemma note_was_read : exists env, Noted (Answered (ReadToString note_path) env) ∈ log filed.
Proof.
  assert (existsb (fun e => match e with
    | Noted (Answered (ReadToString p) _) => bool_decide (p = note_path)
    | _ => false end) (log filed) = true) as H by (vm_compute; reflexivity).
  apply existsb_exists in H as (e & Hin & He). apply list_elem_of_In in Hin.
  destruct e as [|[|[] env]|]; try discriminate He. apply bool_decide_eq_true in He. subst. by exists env.
Qed.

(** The state of the plan and of its child, with its attempts, and the last reply. *)
Definition plan_now (s : sys) : option PlanState.t :=
  option_map PlanRow.state (DelegationDb.plans (database s) !! plan_id).
Definition child_now (s : sys) : option (ChildState.t * Z) :=
  option_map (fun row => (ChildRow.state row, ChildRow.attempt row))
    (DelegationDb.children (database s) !! child_id).
Definition last_reply (s : sys) : option (option PlanState.t * str) :=
  head (rev (omap (fun e => match e with
    | Returned _ (DelegationReply.Plan (Ok v)) => Some (Some (DelegationPlanView.state v), [])
    | Returned _ (DelegationReply.Plan (Err e)) => Some (None, e)
    | _ => None
    end) (log s))).
Definition no_threads (s : sys) : Prop := Forall (fun th => th = None) (threads s).
Lemma resumed_left : no_threads resumed /\ left_registered child_id (database resumed).
Proof.
  split; [unfold no_threads; vm_compute; repeat constructor|]. split.
  - apply (bool_decide_unpack _). vm_compute. exact I.
  - eexists. split; [vm_compute; reflexivity|]. split; [vm_compute; left|reflexivity].
Qed.
Lemma paused_on_retry_stranded :
  no_threads paused_on_retry /\ stranded plan_id child_id (database paused_on_retry).
Proof.
  split; [unfold no_threads; vm_compute; repeat constructor|]. constructor.
  - eexists. split; [vm_compute; reflexivity|]. left.
  - eexists. split; [vm_compute; reflexivity|]. split; vm_compute; reflexivity.
  - assert (map_Forall (fun k row => ChildRow.plan_id row = plan_id -> k = child_id)
      (DelegationDb.children (database paused_on_retry))) as H; [|exact H].
    apply (bool_decide_unpack _). vm_compute. exact I.
Qed.
End Note.
Import IntegerJson Note.

(** ** What is guaranteed *)
Section Guarantees.
Context `{A : SearchAuthority} {D : Digest} `{T : JsonText}.

(** C9: what a child reads was delegated to it. Whenever a plan's worker asked for
    something outside - a web search, a browser page, events of the task, a file of the
    project, a summary by the model - it was for a child of a plan that somebody asked
    to create and that passed the policy, and for one of that child's own sources: the
    query with the authorisation it was bound to, the task of the plan, a path that was
    found below the folder that was granted, is no symbolic link, is a regular file and
    is bounded, and a text for the model within the child's input budget. *)
Theorem delegated_reads_were_commissioned db s c env :
  no_rows db -> reachable job_body elsewhere db s -> Noted (Answered c env) ∈ log s ->
  licensed (log s) c.
Proof. intros Hdb Hr Hin. destruct (delegation_invariant db s Hdb Hr) as (ts & HI). by eapply ok_calls. Qed.

End Guarantees.

(** The model is asked about a file below the granted folder. *)
Lemma delegated_reads_were_commissioned_witness :
  exists env, Noted (Answered (ReadToString note_path) env) ∈ log filed /\
    licensed (log filed) (ReadToString note_path).
Proof.
  destruct note_was_read as (env & Hin). exists env. split; [exact Hin|].
  exact (delegated_reads_were_commissioned db0 filed (ReadToString note_path) env eq_refl filed_reachable Hin).
Defined.

(** ** What does not go on *)
Section Stuck.
Context `{A : SearchAuthority} {D : Digest} `{T : JsonText}.


(** C34: a paused child of a plan that failed or was cancelled stays paused for good.
    When no command is at work and it is the plan's only child, then after whatever
    commands follow both are so still, and the plan can be neither paused nor resumed. A
    retry during which the plan is paused leaves them so: unlike a start, it ends the
    plan without looking whether it was paused. *)
Theorem a_paused_child_of_an_ended_plan_stays pid cid s s' :
  no_threads s -> stranded pid cid (database s) -> rtc (step job_body elsewhere) s s' ->
  stranded pid cid (database s') /\
  forall now bytes answer,
    (exists e, solo now bytes answer (resume pid) (database s') = (Err e, database s', [])) /\
    exists e, solo now bytes answer (pause pid) (database s') = (Err e, database s', []).
Proof.
  intros Hn Hl Hs. pose proof (stranded_children_stay pid cid s s' Hn Hl Hs) as H. split; [done|].
  intros now bytes answer. destruct (stranded_plan _ _ _ H) as (plan & Hp & Ho).
  assert (forall states, PlanState.Failed ∉ states -> PlanState.Cancelled ∉ states ->
    plan_in states plan = false) as Hin.
  { intros states Hf Hc. apply bool_decide_eq_false. by destruct (over_states _ Ho) as [-> | ->]. }
  split; eexists; cbn; unfold transaction, update_plan, change, update_one, mbind, tx_bind; cbn;
    rewrite Hp, Hin by set_solver; reflexivity.
Qed.
End Stuck.

(** The retry ended the plan as failed while it was paused. *)
Lemma a_paused_child_of_an_ended_plan_stays_witness :
  let s' := issue nine 100 (DelegationJob.Resume plan_id) paused_on_retry in
  reachable body elsewhere db0 paused_on_retry /\
  last_reply paused_on_retry = Some (Some PlanState.Failed, []) /\
  last_reply s' = Some (None, lit "Helpers are not paused.") /\
  stranded plan_id child_id (database s').
Proof.
  cbv zeta. destruct paused_on_retry_stranded as [Hn Hl].
  split_and!; [exact paused_on_retry_reachable|vm_compute; reflexivity..|].
  exact (proj1 (a_paused_child_of_an_ended_plan_stays plan_id child_id paused_on_retry
    (issue nine 100 (DelegationJob.Resume plan_id) paused_on_retry) Hn Hl (issue_steps _ _ _ _))).
Defined.

(** A plan whose cancellation was answered is completed afterwards: the worker that was
    running writes its result over the cancellation. *)
Lemma cancelled_plans_come_back :
  reachable body elsewhere db0 cancelled_late /\ no_threads cancelled_late /\
  (exists v, Returned (DelegationJob.CancelPlan plan_id) (DelegationReply.Plan (Ok v)) ∈ log cancelled_late /\
     DelegationPlanView.state v = PlanState.Cancelled) /\
  plan_now cancelled_late = Some PlanState.Completed.
Proof.
  split_and!; [exact cancelled_late_reachable|unfold no_threads; vm_compute; repeat constructor| |vm_compute; reflexivity].
  assert (existsb (fun e => match e with
    | Returned (DelegationJob.CancelPlan p) (DelegationReply.Plan (Ok v)) =>
        str_eqb p plan_id && bool_decide (DelegationPlanView.state v = PlanState.Cancelled)
    | _ => false end) (log cancelled_late) = true) as H by (vm_compute; reflexivity).
  apply existsb_exists in H as (e & Hin & He). apply list_elem_of_In in Hin.
  destruct e as [|?|[] [[v| |]|?|?]]; try discriminate He.
  apply andb_true_iff in He as [Hp%str_eqb_eq Hv%bool_decide_eq_true]. subst. by exists v.
Qed.
(** The suggestion keeps what the first attempt found. *)
Lemma a_retried_finding_keeps_its_first_text :
  reachable body elsewhere db0 retried /\ plan_now retried = Some PlanState.Completed /\
  option_map (fun row => option_map (fun r => map Finding.statement (ChildResult.findings r)) (ChildRow.result row))
    (DelegationDb.children (database retried) !! child_id) = Some (Some [lit "It opens at ten."]) /\
  map (fun '(_, r) => (SuggestionRow.summary r, SuggestionRow.state r))
    (map_to_list (DelegationDb.suggestions (database retried))) =
    [(lit "It opens at nine.", SuggestionState.AwaitingReview)].
Proof. split_and!; [exact retried_reachable|vm_compute; reflexivity..]. Qed.
